(* ===== verification/_CoqProject ===== *)
-Q . S2P
Prelude.v
F32.v
Format.v
Header.v
Index.v
Codec.v
TileCache.v
Writer.v
Reader.v
Concrete.v
Opened.v
Reader2D.v
Field2D.v
Reader3D.v
Field3D.v
Assembly.v
RoundTrip.v
ReadBack.v
Text.v
Netcdf.v
NetcdfRead.v
NetcdfFile.v
Netcdf3.v
Atomic.v
Order.v
Ids.v
Grid.v
Cycle.v
Models.v
Discovery.v
Profile.v
Capability.v
Plan.v
Manifest.v
Ingest.v
Coverage.v
Verify.v
Jobs.v
StateStore.v
Retention.v
Origin.v
Config.v
Purge.v
Executor.v
Workers.v
Pass.v
