(* ===== verification/Prelude.v ===== *)
(** * rusty-weather: a verification development

    rusty-weather downloads the output of weather models, stores every
    forecast hour of a run in a compressed file and serves it. The parts
    modelled here are the ones its data passes through on the way in and out:

    - the store ([src/crates/rw-store]): one hour is a file of compressed
      chunks behind a fixed header, a chunk index and JSON metadata; a run is
      a directory of hours with a manifest [run.json];
    - the catalog ([src/crates/rustwx-core], [rustwx-models]): the models, the
      cycles and forecast hours they publish, where their files are, and the
      search for the newest run a provider has;
    - the ingest registry ([src/crates/rw-ingest]): which products a model
      needs, what its ingest can do, and the profile of fields to store;
    - the scheduler ([src/crates/rw-scheduler]): the configuration of a host,
      the plan of a run, the record of the job with its retries and its
      directory on disk, the check that a run is complete, the pass that
      recovers, admits and executes jobs with its worker threads, the catalog
      of published generations, and the deletion of old runs.

    The scheduler resolves its configuration against the catalog and the
    registry and builds a plan for each discovered cycle; its executor ingests
    the run into the store with the writer and registers the hours in the
    manifest; coverage compares the manifest with the plan; verified runs
    become candidates of the published catalog, which retention spares; and
    the reader serves the hours.

    ** Files

    The store, [src/crates/rw-store/src]:
    - [Prelude]: results with Rust's panics as an outcome, machine integers,
      bytes, slices, and the lemmas and tactics the other files share.
    - [F32]: single-precision numbers by their bits, with the rounding of the
      arithmetic the codecs use.
    - [Format], [Header], [Index]: [format.rs], [header.rs], [index.rs].
    - [Codec]: [codec.rs], the affine 16-bit codec of pressure columns and the
      lossless codec of surface tiles.
    - [TileCache]: the decoded-tile cache of [reader.rs].
    - [Writer]: [writer.rs]. [Assembly]: the bytes a writer finishes.
    - [Reader], [Reader2D], [Reader3D]: [reader.rs]: opening and validating a
      file, surface reads, pressure reads. [Opened]: what an opened file
      satisfies. [Field2D], [Field3D]: the reads against an abstract field.
    - [Concrete]: a concrete instance of the external encodings and a sample
      hour, for the witnesses. [RoundTrip], [ReadBack]: writing and reading.
    - [Manifest]: [run.rs], provenance labels and the run manifest.
    - [Grid]: [grid.rs], the encoding and the validated opening of the grid
      file of a run. [Ingest]: [ingest.rs], the hour writer over a run
      directory, from its grid to the registered hour, and the reads of stored
      fields.
    - [Atomic]: [atomic.rs], a file replacement as the steps of its system
      calls over a directory with failing calls and crashes, and the one-step
      view [replace_entry] that the other files use, which may fail before the
      rename, with or without a temporary file left behind, or after it.
    - [Netcdf], [Netcdf3]: [netcdf_classic.rs] and [netcdf3.rs], the two
      NetCDF writers. [NetcdfRead]: a reader of the classic format, written
      from the grammar of the format as the specification of the writers.
      [NetcdfFile]: the finished files.

    The rest:
    - [Text], [Order]: Rust strings, paths and number formats; [BTreeSet] and
      [BTreeMap] as sorted lists.
    - [Ids], [Cycle]: identifiers and cycles of [rustwx-core] and the
      identifiers and origin the scheduler derives from a cycle ([plan.rs]).
    - [Models], [Discovery]: the catalog, calendar and run search of
      [rustwx-models/src/lib.rs], and their theorems.
    - [Profile], [Capability]: [rw-ingest/src/ingest_profile.rs] and the
      registry of [rw-ingest/src/lib.rs].
    - [Plan], [Coverage], [Jobs], [StateStore], [Retention]: [plan.rs],
      [coverage.rs], [state.rs] with [limits.rs], the state directory of
      [state.rs] with [durable.rs], and [alias.rs] with the planning of
      [retention.rs] of [rw-scheduler/src].
    - [Verify]: [verify_run_json] of [coverage.rs], the deep validation of the
      files of a run.
    - [Origin], [Config], [Purge]: [origin.rs], [config.rs], and the ownership
      markers and the execution of a plan of [retention.rs].
    - [Executor]: the pass of [executor.rs], as a monad over the host: the
      state directory, the store root with the catalog, and the run
      directories. [Pass]: the theorems on it. [Workers]: [ingest_hours] and
      [ConcurrencyGate] of [executor.rs] as a step relation over threads.
    A definition keeps the name of the Rust item where it can; a method whose
    name is taken carries its type's name ([plan_validate] is
    [JobPlan::validate]).

    ** What the theorems show

    - Round trips: a file the writer finishes is opened and read back, bit for
      bit on the surface and to the codec's value in the volume ([ReadBack]);
      headers, records and chunks decode to what was encoded ([Header],
      [Index], [Codec]); a saved manifest loads ([Manifest]); a grid file opens
      as its grid ([Grid]); an hour that [write_hour] stores is the hour that
      is read, grid, manifest and fields together ([Ingest]); a finished
      NetCDF file reads back by the grammar of the format, and both writers
      give the same bytes ([NetcdfFile], [Netcdf3]); a saved job record loads
      ([StateStore]).
    - Failure and crash: replacing a file is atomic under any interleaving of
      writers and any crash ([Atomic]), and the model of a save has the
      outcome of the calls of a lone writer, whichever of them fail
      ([StateStore]); a write of an hour that fails registers nothing, or all
      of it when only its last sync failed ([Ingest]); recovery after a
      restart is complete ([StateStore]).
    - Hostile input: opening arbitrary bytes never panics, and the metadata,
      records and manifests that are accepted are described exactly
      ([Opened], [Manifest]); a name that passes the component check cannot
      leave its directory ([Text]).
    - Reads agree: point, window, tile, column, level and chunk reads are
      parts of the full read, whatever the cache holds ([Field2D], [Field3D],
      [TileCache]).
    - Writing: spilling chunks to disk does not change the file ([Assembly]).
    - Time: cycle origins and shifted valid times are calendar time, run ids
      sort by time, job ids name one job ([Cycle], [Discovery]).
    - Discovery and planning: the run search returns the newest run a source
      has; the catalog is consistent; resolved profiles are well formed; every
      plan that is built validates, and every ready model can be planned
      ([Discovery], [Models], [Profile], [Plan]).
    - Operation: coverage is complete exactly when the manifest holds what the
      plan expects, and a run that deep validation accepts can be read; job records stay valid, their retries end and back off as
      configured, and refused operations change little; aliases resolve to the
      newest run; retention deletes only old, finished, unnamed runs
      ([Coverage], [Verify], [Jobs], [Retention]).
    - Publication: a valid configuration can plan every model it allows
      ([Config]); the catalog publishes the newest qualifying runs and accepts
      every verified run but those with a time in an unplanned slot
      ([Origin]); a refresh is backed by runs verified in
      the same pass and never moves a public name back in time ([Pass]).
    - Passes: executing a retention plan removes only runs the scheduler owns
      ([Purge]), and never one the catalog publishes; a job that is executed
      ends in a saved record that is not running; a pass that succeeds leaves no record
      running; retry delays stay in their bounds ([Pass]).
    - Threads: the hour workers of all jobs respect the limit of the gate,
      ingest no hour twice, report success only when every hour was ingested,
      never deadlock and always end ([Workers]).

    ** Conventions and bounds

    A [u64], [i64], [u32] or [u16] is a [Z]; checked and saturating operations
    are written out with the width. A [usize] that measures memory is a [nat]
    compared with the width of 64-bit targets. Loops are structural recursion
    or folds over the data they visit. Fuel is used in [trim] and [decimal]
    (the length of the text, the twenty digits of a 64-bit number), in the
    chunk iterators (the number of chunks left, which the theorems on them
    show is enough), in the padding loop of the NetCDF writers (three bytes),
    in the chunks of runnable jobs (their number) and in the run of one atomic
    write (the size of the directory and five calls, enough by
    [save_refines_calls] of [StateStore]). Error messages are kept as constants
    without most of their interpolated values.

    Code outside the repository is a parameter with the laws the code relies
    on: the zstd and JSON encodings ([External], [ManifestJson], [JobJson],
    [CatalogJson], [OwnerJson]), the order of a directory listing ([ReadDir]),
    the ties of the platform's float minimum ([F32Ties]), allocation
    ([try_reserve]), the hash of a grid, and which file replacements the file
    system fails and how ([WriteFaults]; a replacement is told apart by its
    name, its bytes and the entries it meets, and no operation modelled here
    makes the same one twice). The provider URL builders and the
    availability probe are parameters of the run search, and the results of
    discovery, deep validation and ingest, the clock, the free space and the
    moments of a shutdown are parameters of a pass; the theorems hold for any
    of them.

    ** Not modelled

    [read_profile_3d] of the store and the point locator of its grid, which is
    floating-point geometry; the advisory run lock, the Windows path of
    [replace_file] and the Windows fallback of retention; symbolic links in
    the place of [grid.rwg] or that lead nowhere; the I/O errors of reads, of
    listing, creating and removing directories and of the NetCDF writers, and
    the wrap-around of the offsets of these in release builds; files that
    change while they are read; the store's diagnostic and export tools; the
    provider probes
    of discovery, the daemon loop, the host lease and the capacity audit of
    the scheduler; the provider URL builders and plot recipes of
    [rustwx-models]. The remaining crates decode external formats, compute
    floating-point diagnostics, draw, or serve: they are listed with their
    reasons in the manifest of this development. *)
From stdpp Require Import base list gmap strings numbers sorting.
From Stdlib Require Import ZArith Lia.

#[global] Set Default Goal Selector "!".

(** ** Results: [Result<T, E>] with Rust's panics as a third outcome *)

Inductive result (E A : Type) : Type :=
| Ok (a : A)
| Err (e : E)
| Panic.
Arguments Ok {E A} a.
Arguments Err {E A} e.
Arguments Panic {E A}.

#[global] Instance result_ret {E} : MRet (result E) := fun A a => Ok a.
#[global] Instance result_fmap {E} : FMap (result E) := fun A B f m =>
  match m with Ok a => Ok (f a) | Err e => Err e | Panic => Panic end.
#[global] Instance result_bind {E} : MBind (result E) := fun A B f m =>
  match m with Ok a => f a | Err e => Err e | Panic => Panic end.

(** [Option::ok_or_else(..)?]. *)
Definition ok_or {E A} (o : option A) (e : E) : result E A :=
  match o with Some a => Ok a | None => Err e end.

(** An index or [unwrap] that panics when there is nothing there. *)
Definition or_panic {E A} (o : option A) : result E A :=
  match o with Some a => Ok a | None => Panic end.

(** [if guard { return Err(e) }]. *)
Definition reject {E} (b : bool) (e : E) : result E unit :=
  if b then Err e else Ok tt.

(** [iter.map(f).collect::<Result<Vec<_>, _>>()]. *)
Fixpoint rmap {E A B} (f : A -> result E B) (l : list A) : result E (list B) :=
  match l with
  | [] => Ok []
  | a :: l => b ← f a; bs ← rmap f l; Ok (b :: bs)
  end.

(** A vector filled by [extend_from_slice] in a loop that may fail. *)
Definition rconcat {E A} (r : result E (list (list A))) : result E (list A) :=
  match r with Ok ls => Ok (mjoin (M := list) ls) | Err e => Err e | Panic => Panic end.

(** [for a in l { s = step(s, a)?; }]. *)
Fixpoint rfold {E A S} (step : S -> A -> result E S) (l : list A) (s : S) : result E S :=
  match l with
  | [] => Ok s
  | a :: l => s' ← step s a; rfold step l s'
  end.

Definition is_ok {E A} (r : result E A) : Prop := exists a, r = Ok a.
Definition panics {E A} (r : result E A) : Prop := r = Panic.

(** ** Machine integers *)

Definition u16_limit : Z := 2 ^ 16.
Definition u32_limit : Z := 2 ^ 32.
Definition u64_limit : Z := 2 ^ 64.
(** [usize] is 64 bits wide. *)
Definition usize_limit : Z := 2 ^ 64.
Definition U64_MAX : Z := 2 ^ 64 - 1.

Definition in_width (limit x : Z) : Prop := (0 <= x < limit)%Z.

(** [u64::checked_add] and [u64::checked_mul]. *)
Definition checked_add64 (a b : Z) : option Z :=
  if (a + b <? u64_limit)%Z then Some (a + b)%Z else None.
Definition checked_mul64 (a b : Z) : option Z :=
  if (a * b <? u64_limit)%Z then Some (a * b)%Z else None.

(** [usize::checked_mul] and [usize::checked_add]; a [usize] that measures
    memory is a [nat], compared with the width through [Z]. *)
Definition checked_mul (a b : nat) : option nat :=
  if (Z.of_nat a * Z.of_nat b <? usize_limit)%Z then Some (a * b) else None.
Definition checked_add (a b : nat) : option nat :=
  if (Z.of_nat a + Z.of_nat b <? usize_limit)%Z then Some (a + b) else None.

(** [usize::saturating_mul] and [u64::saturating_add]. *)
Definition saturating_mul (a b : Z) : Z := Z.min (a * b) U64_MAX.
Definition saturating_add (a b : Z) : Z := Z.min (a + b) U64_MAX.
Definition saturating_sub (a b : Z) : Z := Z.max (a - b) 0.

(** [usize::div_ceil]. *)
Definition div_ceil (a b : nat) : nat := (a + b - 1) / b.
#[global] Arguments div_ceil _ _ : simpl never.
#[global] Arguments Nat.div _ _ : simpl never.
#[global] Arguments Nat.modulo _ _ : simpl never.

(** ** Bytes and little-endian integers *)

Abbreviation byte := Byte.byte.
#[global] Instance byte_eq_dec : EqDecision byte := Byte.byte_eq_dec.

Definition byte_to_Z (b : byte) : Z := Z.of_N (Byte.to_N b).
Definition byte_of_Z (z : Z) : byte :=
  match Byte.of_N (Z.to_N (z mod 256)) with Some b => b | None => Byte.x00 end.

(** [uN::to_le_bytes] for an [n]-byte integer. *)
Fixpoint to_le (n : nat) (z : Z) : list byte :=
  match n with
  | O => []
  | S n => byte_of_Z z :: to_le n (z / 256)
  end.

(** [uN::from_le_bytes]. *)
Fixpoint from_le (bs : list byte) : Z :=
  match bs with
  | [] => 0
  | b :: bs => byte_to_Z b + 256 * from_le bs
  end%Z.

(** ** Slices *)

(** [&l[a..b]], which panics out of range. *)
Definition slice {E A} (l : list A) (a b : nat) : result E (list A) :=
  if bool_decide (a <= b /\ b <= length l) then Ok (take (b - a) (drop a l)) else Panic.

(** [l[off..off + src.len()].copy_from_slice(src)]. *)
Definition copy_into {E A} (l : list A) (off : nat) (src : list A) : result E (list A) :=
  if bool_decide (off + length src <= length l)
  then Ok (take off l ++ src ++ drop (off + length src) l) else Panic.

(** The pairs of [slice::windows(2)]. *)
Fixpoint windows2 {A} (l : list A) : list (A * A) :=
  match l with
  | a :: ((b :: _) as l') => (a, b) :: windows2 l'
  | _ => []
  end.

(** [(0..h).flat_map(|y| (0..w).map(move |x| (y, x)))]. *)
Definition grid_coords (h w : nat) : list (nat * nat) :=
  y ← seq 0 h; (fun x => (y, x)) <$> seq 0 w.

(** ** Tactics *)

Create HintDb rw.

(** Invert a successful computation built from binds, guards and options. *)
Ltac res_step H :=
  match type of H with
  | @mbind _ _ _ _ _ ?m = _ =>
      let E := fresh "E" in destruct m eqn:E; simpl in H; try discriminate H
  | ok_or ?o _ = _ => let E := fresh "E" in destruct o eqn:E; simpl in H; try discriminate H
  | or_panic ?o = _ => let E := fresh "E" in destruct o eqn:E; simpl in H; try discriminate H
  | reject ?b _ = Ok _ => let E := fresh "E" in destruct b eqn:E; simpl in H; try discriminate H
  | (if ?b then _ else _) = _ =>
      let E := fresh "E" in destruct b eqn:E; simpl in H; try discriminate H
  | Ok _ = Ok _ => injection H as H
  end.
Ltac res_inv H := repeat (res_step H).

Lemma reject_inv {E} b (e : E) u : reject b e = Ok u -> b = false.
Proof. by destruct b. Qed.

Lemma ok_or_inv {E A} (o : option A) (e : E) a : ok_or o e = Ok a -> o = Some a.
Proof. destruct o; simpl; congruence. Qed.

Lemma or_panic_inv {E A} (o : option A) a : or_panic (E := E) o = Ok a -> o = Some a.
Proof. destruct o; simpl; congruence. Qed.

Lemma fmap_ok_inv {E A B} (f : A -> B) (m : result E A) b :
  f <$> m = Ok b -> exists a, m = Ok a /\ b = f a.
Proof. destruct m; simpl; intros [=]; eauto. Qed.

Lemma checked_mul64_inv a b c : checked_mul64 a b = Some c -> (c = a * b /\ c < u64_limit)%Z.
Proof. unfold checked_mul64. case_match eqn:Hl; [|done]. apply Z.ltb_lt in Hl. intros [= <-]. auto. Qed.

Lemma checked_add64_inv a b c : checked_add64 a b = Some c -> (c = a + b /\ c < u64_limit)%Z.
Proof. unfold checked_add64. case_match eqn:Hl; [|done]. apply Z.ltb_lt in Hl. intros [= <-]. auto. Qed.

Lemma checked_mul_inv a b c :
  checked_mul a b = Some c -> c = a * b /\ (Z.of_nat c < usize_limit)%Z.
Proof.
  unfold checked_mul. case_match eqn:Hl; [|done]. apply Z.ltb_lt in Hl. intros [= <-].
  rewrite Nat2Z.inj_mul. auto.
Qed.

Lemma checked_mul_ok a b :
  (Z.of_nat a * Z.of_nat b < usize_limit)%Z -> checked_mul a b = Some (a * b).
Proof. unfold checked_mul. intros H. apply Z.ltb_lt in H. by rewrite H. Qed.

Lemma checked_add_ok a b :
  (Z.of_nat a + Z.of_nat b < usize_limit)%Z -> checked_add a b = Some (a + b).
Proof. unfold checked_add. intros H. apply Z.ltb_lt in H. by rewrite H. Qed.

(** Turn the pieces [res_inv] leaves into plain facts. *)
Ltac res_clean :=
  repeat match goal with
  | H : reject _ _ = Ok _ |- _ => apply reject_inv in H
  | H : ok_or _ _ = Ok _ |- _ => apply ok_or_inv in H
  | H : or_panic _ = Ok _ |- _ => apply or_panic_inv in H
  | H : _ <$> _ = Ok _ |- _ => apply fmap_ok_inv in H as (? & ? & ?)
  | H : mbind _ _ = Some _ |- _ => apply bind_Some in H as (? & ? & ?)
  | H : checked_mul64 _ _ = Some _ |- _ => apply checked_mul64_inv in H as [? ?]
  | H : checked_add64 _ _ = Some _ |- _ => apply checked_add64_inv in H as [? ?]
  | H : checked_mul _ _ = Some _ |- _ => apply checked_mul_inv in H as [? ?]
  end.

(** Reflect boolean comparisons in the context into propositions. *)
Ltac breflect :=
  repeat match goal with
  | H : (_ && _)%bool = true |- _ => apply andb_true_iff in H as [? ?]
  | H : (_ || _)%bool = false |- _ => apply orb_false_iff in H as [? ?]
  | H : negb _ = true |- _ => apply negb_true_iff in H
  | H : negb _ = false |- _ => apply negb_false_iff in H
  | H : (_ =? _)%Z = true |- _ => apply Z.eqb_eq in H
  | H : (_ =? _)%Z = false |- _ => apply Z.eqb_neq in H
  | H : (_ <? _)%Z = true |- _ => apply Z.ltb_lt in H
  | H : (_ <? _)%Z = false |- _ => apply Z.ltb_ge in H
  | H : (_ <=? _)%Z = true |- _ => apply Z.leb_le in H
  | H : (_ <=? _)%Z = false |- _ => apply Z.leb_gt in H
  | H : (_ =? _) = true |- _ => apply Nat.eqb_eq in H
  | H : (_ =? _) = false |- _ => apply Nat.eqb_neq in H
  | H : (_ <? _) = true |- _ => apply Nat.ltb_lt in H
  | H : (_ <? _) = false |- _ => apply Nat.ltb_ge in H
  | H : (_ <=? _) = true |- _ => apply Nat.leb_le in H
  | H : (_ <=? _) = false |- _ => apply Nat.leb_gt in H
  | H : bool_decide _ = true |- _ => apply bool_decide_eq_true in H
  | H : bool_decide _ = false |- _ => apply bool_decide_eq_false in H
  | H : () = ?u |- _ => subst u || clear H
  | H : ?u = () |- _ => subst u || clear H
  end.

(** Decide the comparisons in the goal by [lia]. *)
Ltac zdecide :=
  repeat match goal with
  | |- context [(?a <? ?b)%Z] =>
      first [rewrite (proj2 (Z.ltb_lt a b)) by lia | rewrite (proj2 (Z.ltb_ge a b)) by lia]
  | |- context [(?a <=? ?b)%Z] =>
      first [rewrite (proj2 (Z.leb_le a b)) by lia | rewrite (proj2 (Z.leb_gt a b)) by lia]
  | |- context [(?a =? ?b)%Z] =>
      first [rewrite (proj2 (Z.eqb_eq a b)) by lia | rewrite (proj2 (Z.eqb_neq a b)) by lia]
  | |- context [(?a <? ?b)] =>
      first [rewrite (proj2 (Nat.ltb_lt a b)) by lia | rewrite (proj2 (Nat.ltb_ge a b)) by lia]
  | |- context [(?a <=? ?b)] =>
      first [rewrite (proj2 (Nat.leb_le a b)) by lia | rewrite (proj2 (Nat.leb_gt a b)) by lia]
  | |- context [(?a =? ?b)] =>
      first [rewrite (proj2 (Nat.eqb_eq a b)) by lia | rewrite (proj2 (Nat.eqb_neq a b)) by lia]
  end.

(** Run the result monad on values that are already known. *)
Ltac rrun := cbn [reject ok_or or_panic mbind result_bind option_bind fmap result_fmap negb orb andb].

(** ** Lemmas: bytes *)

Lemma byte_to_Z_range b : (0 <= byte_to_Z b < 256)%Z.
Proof. unfold byte_to_Z. pose proof (Byte.to_N_bounded b). lia. Qed.

Lemma byte_of_to_Z b : byte_of_Z (byte_to_Z b) = b.
Proof.
  unfold byte_of_Z. rewrite Z.mod_small by apply byte_to_Z_range.
  unfold byte_to_Z. by rewrite N2Z.id, Byte.of_to_N.
Qed.

Lemma byte_to_of_Z z : byte_to_Z (byte_of_Z z) = (z mod 256)%Z.
Proof.
  unfold byte_of_Z, byte_to_Z.
  pose proof (Z.mod_pos_bound z 256 ltac:(lia)).
  destruct (Byte.of_N (Z.to_N (z mod 256))) as [b|] eqn:E.
  - apply Byte.to_of_N in E. lia.
  - apply Byte.of_N_None_iff in E. lia.
Qed.

Lemma length_to_le n z : length (to_le n z) = n.
Proof. revert z; induction n as [|n IH]; intros z; simpl; auto. Qed.

Lemma from_to_le n z : from_le (to_le n z) = (z mod 2 ^ (8 * Z.of_nat n))%Z.
Proof.
  revert z; induction n as [|n IH]; intros z; simpl from_le; simpl to_le.
  { by rewrite Z.mod_1_r. }
  simpl. rewrite IH, byte_to_of_Z.
  replace (8 * Z.of_nat (S n))%Z with (8 + 8 * Z.of_nat n)%Z by lia.
  rewrite Z.pow_add_r by lia. change (2 ^ 8)%Z with 256%Z.
  rewrite Z.rem_mul_r by (try apply Z.pow_nonzero; lia). lia.
Qed.

Lemma from_to_le_small n z :
  (0 <= z < 2 ^ (8 * Z.of_nat n))%Z -> from_le (to_le n z) = z.
Proof. intros. rewrite from_to_le. by apply Z.mod_small. Qed.

Lemma to_from_le bs : to_le (length bs) (from_le bs) = bs.
Proof.
  induction bs as [|b bs IH]; simpl; [done|].
  pose proof (byte_to_Z_range b). f_equal.
  - rewrite <- (byte_of_to_Z b) at 2. unfold byte_of_Z.
    by rewrite <- Zdiv.Zplus_mod_idemp_r, Z.mul_comm, Z.mod_mul, Z.add_0_r by lia.
  - replace ((byte_to_Z b + 256 * from_le bs) / 256)%Z with (from_le bs); [done|].
    apply Z.div_unique with (byte_to_Z b); lia.
Qed.

Lemma to_from_le' n bs : length bs = n -> to_le n (from_le bs) = bs.
Proof. intros <-. apply to_from_le. Qed.

Lemma from_le_range bs : (0 <= from_le bs < 2 ^ (8 * Z.of_nat (length bs)))%Z.
Proof.
  rewrite <- (to_from_le bs) at 1 2. rewrite from_to_le.
  apply Z.mod_pos_bound. apply Z.pow_pos_nonneg; lia.
Qed.

(** ** Lemmas: results *)

Section results.
Context {E A B S : Type}.
Implicit Types (f : A -> result E B) (l : list A).

Lemma rmap_ok_inv f l bs :
  rmap f l = Ok bs -> Forall2 (fun a b => f a = Ok b) l bs.
Proof.
  revert bs; induction l as [|a l IH]; simpl; intros bs H.
  - injection H as <-. constructor.
  - res_inv H. subst bs. constructor; eauto.
Qed.

Lemma rmap_ok_intro f l bs :
  Forall2 (fun a b => f a = Ok b) l bs -> rmap f l = Ok bs.
Proof. induction 1 as [|a b l bs Ha Hl IH]; simpl; [done|]. by rewrite Ha; simpl; rewrite IH. Qed.

Lemma rmap_total f l :
  (forall a, a ∈ l -> is_ok (f a)) -> is_ok (rmap f l).
Proof.
  intros Hf. induction l as [|a l IH]; simpl; [by eexists|].
  destruct (Hf a) as [b Hb]; [left|]. rewrite Hb. simpl.
  destruct IH as [bs Hbs]; [intros; apply Hf; by right|].
  rewrite Hbs. by eexists.
Qed.

Lemma rmap_no_panic f l :
  (forall a, a ∈ l -> f a <> Panic) -> rmap f l <> Panic.
Proof.
  induction l as [|a l IH]; simpl; intros Hf; [done|].
  pose proof (Hf a ltac:(left)). destruct (f a); simpl; try done.
  destruct (rmap f l) eqn:Er; simpl; try done.
  exfalso; apply IH; [|done]. intros; apply Hf; by right.
Qed.

Lemma rmap_pure (g : A -> B) l :
  rmap (E := E) (fun a => Ok (g a)) l = Ok (g <$> l).
Proof. induction l as [|a l IH]; simpl; [done|]. by rewrite IH. Qed.

Lemma rmap_ext f g l :
  (forall a, a ∈ l -> f a = g a) -> rmap f l = rmap g l.
Proof.
  induction l as [|a l IH]; simpl; intros Hfg; [done|].
  rewrite (Hfg a) by left. rewrite IH; [done|]. intros; apply Hfg; by right.
Qed.

Lemma rfold_app (step : S -> A -> result E S) l1 l2 s :
  rfold step (l1 ++ l2) s = (s' ← rfold step l1 s; rfold step l2 s').
Proof.
  revert s; induction l1 as [|a l1 IH]; intros s; simpl; [done|].
  destruct (step s a); simpl; auto.
Qed.

Lemma rfold_ext (f g : S -> A -> result E S) l s :
  (forall s a, a ∈ l -> f s a = g s a) -> rfold f l s = rfold g l s.
Proof.
  revert s; induction l as [|a l IH]; intros s Hfg; simpl; [done|].
  rewrite (Hfg s a) by left. destruct (g s a); simpl; [|done..]. apply IH. intros; apply Hfg; by right.
Qed.

Lemma rfold_fmap {T} (step : S -> A -> result E S) (g : T -> A) (ts : list T) s :
  rfold step (g <$> ts) s = rfold (fun s t => step s (g t)) ts s.
Proof. revert s; induction ts as [|a ts IH]; intros s; simpl; [done|]. destruct (step s (g a)); simpl; auto. Qed.

Lemma rfold_invariant (step : S -> A -> result E S) (I : S -> Prop) l :
  (forall a s s', a ∈ l -> I s -> step s a = Ok s' -> I s') ->
  forall s s', I s -> rfold step l s = Ok s' -> I s'.
Proof.
  induction l as [|a l IH]; simpl; intros Hstep s s' Hs H.
  - by injection H as <-.
  - res_inv H. apply (IH ltac:(intros; eapply Hstep; [by right|..]; eauto) _ _
                         (Hstep a _ _ ltac:(left) Hs E0) H).
Qed.

Lemma rfold_no_panic (step : S -> A -> result E S) (I : S -> Prop) l :
  (forall a s s', a ∈ l -> I s -> step s a = Ok s' -> I s') ->
  (forall a s, a ∈ l -> I s -> step s a <> Panic) ->
  forall s, I s -> rfold step l s <> Panic.
Proof.
  induction l as [|a l IH]; simpl; intros Hinv Hnp s Hs; [done|].
  pose proof (Hnp a s ltac:(left) Hs).
  destruct (step s a) eqn:E1; simpl; try done.
  apply IH; [intros; eapply Hinv; [by right|..]; eauto|intros; eapply Hnp; [by right|]; eauto|].
  eapply Hinv; [left|..]; eauto.
Qed.
End results.

Lemma Forall2_eq_fmap {A B} (P : A -> B -> Prop) (f : A -> B) l k :
  Forall2 P l k -> (forall a b, a ∈ l -> P a b -> b = f a) -> k = f <$> l.
Proof.
  induction 1 as [|a b l k Hab Hl IH]; intros Hf; [done|]. rewrite fmap_cons. f_equal.
  - apply Hf; [by left|done].
  - apply IH. intros. apply Hf; [by right|done].
Qed.

(** Two passes over a list succeed exactly when the fused pass does. *)
Lemma rmap_compose {E A B C} (f : A -> result E B) (g : B -> result E C) l cs :
  rmap (fun a => b ← f a; g b) l = Ok cs <-> exists bs, rmap f l = Ok bs /\ rmap g bs = Ok cs.
Proof.
  revert cs; induction l as [|a l IH]; simpl; intros cs.
  { split; [intros [= <-]; by exists []|by intros (bs & [= <-] & Hg)]. }
  split.
  - intros Hr. destruct (f a) as [b| |] eqn:Hf; simpl in Hr; [|done..].
    destruct (g b) as [c| |] eqn:Hg; simpl in Hr; [|done..].
    destruct (rmap _ l) as [cs'| |] eqn:Hl; simpl in Hr; [|done..]. injection Hr as <-.
    destruct (proj1 (IH cs') eq_refl) as (bs & -> & Hbs).
    exists (b :: bs). simpl. by rewrite Hg, Hbs.
  - intros (bs & Hf & Hg). destruct (f a) as [b| |] eqn:Hfa; simpl in Hf; [|done..].
    destruct (rmap f l) as [bs'| |]; simpl in Hf; [|done..]. injection Hf as <-. simpl in *.
    destruct (g b) as [c| |]; simpl in *; [|done..].
    destruct (rmap g bs') as [cs'| |] eqn:Hgs; simpl in Hg; [|done..]. injection Hg as <-.
    by rewrite (proj2 (IH cs')) by eauto.
Qed.

(** ** Lemmas: slices and in-place writes *)

Section slices.
Context {E A : Type}.
Implicit Types (l src : list A).

Lemma slice_ok l a b :
  a <= b -> b <= length l -> slice (E := E) l a b = Ok (take (b - a) (drop a l)).
Proof. intros. unfold slice. by rewrite bool_decide_eq_true_2. Qed.

Lemma slice_inv l a b s :
  slice (E := E) l a b = Ok s ->
  a <= b /\ b <= length l /\ s = take (b - a) (drop a l).
Proof. unfold slice. case_bool_decide; [|done]. intros [= <-]. intuition. Qed.

Lemma length_slice l a b s : slice (E := E) l a b = Ok s -> length s = b - a.
Proof.
  intros (? & ? & ->)%slice_inv. rewrite length_take, length_drop. lia.
Qed.

Lemma lookup_slice l a b s i :
  slice (E := E) l a b = Ok s -> i < b - a -> s !! i = l !! (a + i).
Proof.
  intros (? & ? & ->)%slice_inv ?. by rewrite lookup_take_lt, lookup_drop by lia.
Qed.

Lemma slice_app_r l1 l2 a b :
  length l1 <= a -> a <= b -> slice (E := E) (l1 ++ l2) a b = slice l2 (a - length l1) (b - length l1).
Proof.
  intros. unfold slice. rewrite length_app. case_bool_decide as H1.
  - rewrite bool_decide_eq_true_2 by lia. rewrite drop_app_ge by lia. do 2 f_equal. lia.
  - rewrite bool_decide_eq_false_2; [done|]. lia.
Qed.

Lemma slice_app_exact l1 l2 l3 a b :
  a = length l1 -> b = length l1 + length l2 ->
  slice (E := E) (l1 ++ l2 ++ l3) a b = Ok l2.
Proof.
  intros -> ->. rewrite slice_ok; [|lia|rewrite !length_app; lia].
  rewrite drop_app_length. f_equal. rewrite take_app_le by lia. by rewrite take_ge by lia.
Qed.

Lemma copy_into_ok l off src :
  off + length src <= length l ->
  exists l', copy_into (E := E) l off src = Ok l' /\ length l' = length l /\
    (forall i, off <= i < off + length src -> l' !! i = src !! (i - off)) /\
    (forall i, ~ (off <= i < off + length src) -> l' !! i = l !! i).
Proof.
  intros Hlen. unfold copy_into. rewrite bool_decide_eq_true_2 by done.
  eexists; split; [done|]. repeat split.
  - rewrite !length_app, length_take, length_drop. lia.
  - intros i Hi. rewrite lookup_app_r; rewrite length_take; [|lia].
    rewrite lookup_app_l by lia. f_equal. lia.
  - intros i Hi. destruct (decide (i < off)).
    + rewrite lookup_app_l by (rewrite length_take; lia). by rewrite lookup_take_lt.
    + rewrite lookup_app_r; rewrite length_take; [|lia].
      rewrite lookup_app_r by lia. rewrite lookup_drop. f_equal. lia.
Qed.

(** A loop over an [h] by [w] row-major buffer whose every step writes the
    values of [spec] into the cells [cov] says it covers, and leaves the
    others alone, ends with [spec] in every covered cell. The read loops of
    the store are instances. *)
Lemma rfold_grid_writes {I} (step : list A -> I -> result E (list A))
    (spec : nat -> nat -> option A) (cov : I -> nat -> nat -> bool) h w js :
  (forall j l, j ∈ js -> length l = h * w ->
     exists l', step l j = Ok l' /\ length l' = h * w /\
       forall y x, y < h -> x < w ->
         l' !! (y * w + x) = if cov j y x then spec y x else l !! (y * w + x)) ->
  forall l, length l = h * w ->
     exists l', rfold step js l = Ok l' /\ length l' = h * w /\
       forall y x, y < h -> x < w ->
         l' !! (y * w + x) = if existsb (fun j => cov j y x) js then spec y x else l !! (y * w + x).
Proof.
  intros Hstep. induction js as [|j js IH]; intros l Hl; simpl; [eauto|].
  destruct (Hstep j l ltac:(left) Hl) as (l1 & -> & Hl1 & Hw1); simpl.
  destruct (IH ltac:(intros; apply Hstep; [by right|done]) l1 Hl1) as (l2 & -> & Hl2 & Hw2).
  exists l2; split_and!; auto. intros y x Hy Hx. rewrite Hw2, Hw1 by done.
  by destruct (existsb _ js), (cov j y x).
Qed.

(** Writing part of one row of the buffer. *)
Lemma copy_into_row l h w y0 c0 src :
  length l = h * w -> y0 < h -> c0 + length src <= w ->
  exists l', copy_into (E := E) l (y0 * w + c0) src = Ok l' /\ length l' = h * w /\
    forall y x, y < h -> x < w ->
      l' !! (y * w + x) = if (y =? y0) && (c0 <=? x) && (x <? c0 + length src)
                          then src !! (x - c0) else l !! (y * w + x).
Proof.
  intros Hl Hy0 Hc. destruct (copy_into_ok l (y0 * w + c0) src) as (l' & -> & Hl' & Hin & Hout); [nia|].
  exists l'. split; [done|]. split; [lia|]. intros y x Hy Hx.
  destruct (Nat.eqb_spec y y0) as [->|Hne]; simpl.
  - destruct (Nat.leb_spec c0 x); simpl; [|apply Hout; lia].
    destruct (Nat.ltb_spec x (c0 + length src)); [|apply Hout; lia].
    rewrite Hin by lia. f_equal. lia.
  - apply Hout. nia.
Qed.
End slices.

Lemma existsb_true {A} (P : A -> bool) l :
  existsb P l = true <-> exists a, a ∈ l /\ P a = true.
Proof.
  rewrite existsb_exists. split; intros (a & ? & ?); exists a; split; auto;
    by apply list_elem_of_In.
Qed.

(** ** Lemmas: row-major coordinates *)

Lemma elem_of_grid_coords h w y x : (y, x) ∈ grid_coords h w <-> y < h /\ x < w.
Proof.
  unfold grid_coords. rewrite list_elem_of_bind. split.
  - intros (y' & (x' & [= -> ->] & Hx)%list_elem_of_fmap & Hy).
    rewrite !elem_of_seq in *. lia.
  - intros [Hy Hx]. exists y. split; [|by rewrite elem_of_seq; lia].
    apply list_elem_of_fmap. exists x. split; [done|]. rewrite elem_of_seq. lia.
Qed.

Lemma NoDup_grid_coords h w : NoDup (grid_coords h w).
Proof.
  unfold grid_coords. apply NoDup_bind.
  - intros y1 y2 [y x] _ _ (? & [= -> ->] & _)%list_elem_of_fmap
      (? & [= -> ->] & _)%list_elem_of_fmap. done.
  - intros y _. apply NoDup_fmap_2_strong; [by intros ???? [= ->]|]. apply NoDup_seq.
  - apply NoDup_seq.
Qed.

Lemma grid_coords_aux k h w :
  length (y ← seq k h; (fun x : nat => (y, x)) <$> seq 0 w) = h * w.
Proof.
  revert k; induction h as [|h IH]; intros k; simpl; [done|].
  rewrite length_app, length_fmap, length_seq. by rewrite IH.
Qed.

Lemma length_grid_coords h w : length (grid_coords h w) = h * w.
Proof. apply grid_coords_aux. Qed.

Lemma lookup_grid_coords_aux k h w y x :
  y < h -> x < w -> (y ← seq k h; (fun x : nat => (y, x)) <$> seq 0 w) !! (y * w + x) = Some (k + y, x).
Proof.
  revert k y; induction h as [|h IH]; intros k y Hy Hx; [lia|].
  cbn [seq]. rewrite bind_cons. destruct y as [|y].
  - rewrite lookup_app_l by (rewrite length_fmap, length_seq; lia).
    rewrite list_lookup_fmap, lookup_seq_lt by lia. simpl. do 2 f_equal. lia.
  - rewrite lookup_app_r; rewrite length_fmap, length_seq; [|lia].
    replace (S y * w + x - w) with (y * w + x) by lia. rewrite IH by lia. do 2 f_equal. lia.
Qed.

Lemma lookup_grid_coords h w y x : y < h -> x < w -> grid_coords h w !! (y * w + x) = Some (y, x).
Proof. apply (lookup_grid_coords_aux 0). Qed.

(** A row-major index and its coordinates. *)
Lemma row_major_div_mod nx y x : x < nx -> (y * nx + x) / nx = y /\ (y * nx + x) mod nx = x.
Proof.
  intros. split.
  - rewrite Nat.div_add_l by lia. rewrite Nat.div_small by lia. lia.
  - rewrite Nat.add_comm, Nat.Div0.mod_add. by apply Nat.mod_small.
Qed.

Lemma row_major_bound h w y x : y < h -> x < w -> y * w + x < h * w.
Proof. intros. nia. Qed.

Lemma row_major_lt nx ny i : i < ny * nx -> i / nx < ny /\ i mod nx < nx.
Proof.
  intros. assert (nx <> 0) by (intros ->; lia). split.
  - apply Nat.Div0.div_lt_upper_bound. lia.
  - by apply Nat.mod_upper_bound.
Qed.

Lemma row_major_inj nx y1 x1 y2 x2 :
  x1 < nx -> x2 < nx -> y1 * nx + x1 = y2 * nx + x2 -> y1 = y2 /\ x1 = x2.
Proof.
  intros H1 H2 H. pose proof (row_major_div_mod nx y1 x1 H1) as [Hd1 Hm1].
  pose proof (row_major_div_mod nx y2 x2 H2) as [Hd2 Hm2]. rewrite H in *. lia.
Qed.

(** A buffer filled row by row. *)
Lemma rconcat_rows {E A} (f : nat -> result E (list A)) (g : nat -> nat -> option A) a n w :
  (forall i, i < n -> exists row, f (a + i) = Ok row /\ length row = w /\ forall x, x < w -> row !! x = g i x) ->
  exists l, rconcat (rmap f (seq a n)) = Ok l /\ length l = n * w /\
    forall y x, y < n -> x < w -> l !! (y * w + x) = g y x.
Proof.
  revert a g; induction n as [|n IH]; intros a g Hf; simpl.
  { exists []. split_and!; [done..|lia]. }
  destruct (Hf 0 ltac:(lia)) as (row & Hrow & Hlen & Hcell). rewrite Nat.add_0_r in Hrow. rewrite Hrow. simpl.
  destruct (IH (S a) (fun i => g (S i))) as (l & Hl & Hll & Hlc).
  { intros i Hi. destruct (Hf (S i) ltac:(lia)) as (row' & Hr' & ?). exists row'.
    replace (S a + i) with (a + S i) by lia. done. }
  unfold rconcat in *. destruct (rmap f (seq (S a) n)) as [ls| |]; [|done..]. injection Hl as <-. simpl.
  exists (row ++ mjoin ls). split; [done|]. rewrite length_app. split; [lia|].
  intros [|y] x Hy Hx; simpl.
  - by rewrite lookup_app_l, Hcell by lia.
  - rewrite lookup_app_r by lia. replace (w + y * w + x - length row) with (y * w + x) by lia.
    apply Hlc; lia.
Qed.

(** A row-major buffer is determined by its cells. *)
Lemma grid_ext {A} (f : nat -> nat -> A) h w (l : list A) :
  length l = h * w -> (forall y x, y < h -> x < w -> l !! (y * w + x) = Some (f y x)) ->
  l = (fun c => f c.1 c.2) <$> grid_coords h w.
Proof.
  intros Hl Hc. apply list_eq. intros i. destruct (decide (i < h * w)) as [Hi|Hi].
  - destruct (row_major_lt w h i Hi) as [Hy Hx].
    assert (i = i / w * w + i mod w) as -> by (rewrite Nat.mul_comm; apply Nat.div_mod; lia).
    by rewrite Hc, list_lookup_fmap, lookup_grid_coords by done.
  - rewrite !lookup_ge_None_2; [done| |lia]. rewrite length_fmap, length_grid_coords. lia.
Qed.

Lemma grid_coords_ordinal h w : (fun i => (i / w, i mod w)) <$> seq 0 (h * w) = grid_coords h w.
Proof.
  transitivity ((fun c : nat * nat => (c.1, c.2)) <$> grid_coords h w).
  - apply (grid_ext (fun y x => (y, x))).
    + by rewrite length_fmap, length_seq.
    + intros y x Hy Hx. rewrite list_lookup_fmap, lookup_seq_lt by nia. simpl.
      by destruct (row_major_div_mod w y x Hx) as [-> ->].
  - rewrite <- (list_fmap_id (grid_coords h w)) at 2. apply list_fmap_ext. by intros ? [].
Qed.

(** [ny.div_ceil(t)] chunks of height [t] cover exactly [ny] rows. *)
Lemma div_ceil_lt n t k : 0 < t -> (k < div_ceil n t <-> k * t < n).
Proof.
  intros Ht. unfold div_ceil. split; intros H.
  - assert (k + 1 <= (n + t - 1) / t) as H1 by lia.
    assert (t * ((n + t - 1) / t) <= n + t - 1) by apply Nat.Div0.mul_div_le.
    nia.
  - assert (k + 1 <= (n + t - 1) / t); [|lia].
    apply Nat.div_le_lower_bound; nia.
Qed.

Lemma div_lt_div_ceil n t i : 0 < t -> i < n -> i / t < div_ceil n t.
Proof.
  intros Ht Hi. apply div_ceil_lt; [done|].
  pose proof (Nat.Div0.mul_div_le i t). lia.
Qed.

Lemma slice_take {E A} (l : list A) a b n :
  b <= n -> n <= length l -> slice (E := E) l a b = slice (take n l) a b.
Proof.
  intros. unfold slice. rewrite length_take.
  case_bool_decide; [|rewrite bool_decide_eq_false_2 by lia; done].
  rewrite bool_decide_eq_true_2 by lia. f_equal.
  rewrite skipn_firstn_comm, take_take. f_equal. lia.
Qed.

(** The pieces of a prefix cut at [a <= b]. *)
Lemma take_slice {E A} (l : list A) a b s :
  slice (E := E) l a b = Ok s -> take b l = take a l ++ s.
Proof.
  intros (? & ? & ->)%slice_inv. rewrite <- (take_drop a (take b l)), take_take.
  rewrite Nat.min_l by lia. f_equal. by rewrite skipn_firstn_comm.
Qed.

(** ** Absence of panics *)

Section no_panic.
Context {E A B : Type}.

Lemma bind_no_panic (m : result E A) (f : A -> result E B) :
  m <> Panic -> (forall a, m = Ok a -> f a <> Panic) -> (m ≫= f) <> Panic.
Proof. destruct m; simpl; eauto. Qed.

Lemma fmap_no_panic (m : result E A) (f : A -> B) : m <> Panic -> (f <$> m) <> Panic.
Proof. by destruct m. Qed.

Lemma reject_no_panic b (e : E) : reject b e <> Panic.
Proof. by destruct b. Qed.

Lemma ok_or_no_panic (o : option A) (e : E) : ok_or o e <> Panic.
Proof. by destruct o. Qed.

Lemma slice_no_panic (l : list A) a b :
  a <= b -> b <= length l -> slice (E := E) l a b <> Panic.
Proof. intros. by rewrite slice_ok. Qed.
End no_panic.

#[export] Hint Resolve reject_no_panic ok_or_no_panic fmap_no_panic slice_no_panic : rw.

(** One bind of a successful computation, without simplifying the rest. *)
Ltac bind_step H E :=
  match type of H with
  | @mbind _ _ _ _ _ ?m = _ => destruct m eqn:E; cbn [mbind result_bind] in H; [|discriminate H|discriminate H]
  end.

Ltac no_panic :=
  repeat lazymatch goal with
  | |- mbind _ _ <> Panic => apply bind_no_panic; [|intros ? ?]
  | |- fmap _ _ <> Panic => apply fmap_no_panic
  | |- reject _ _ <> Panic => apply reject_no_panic
  | |- ok_or _ _ <> Panic => apply ok_or_no_panic
  | |- Ok _ <> Panic => discriminate
  | |- Err _ <> Panic => discriminate
  | |- (if ?b then _ else _) <> Panic => destruct b eqn:?
  end.

(** What a little-endian field read at [a..b] says about the buffer. *)
Lemma slice_le {E} bytes a b s :
  slice (E := E) bytes a b = Ok s ->
  take b bytes = take a bytes ++ to_le (b - a) (from_le s) /\
  (0 <= from_le s < 2 ^ (8 * Z.of_nat (b - a)))%Z.
Proof.
  intros Hs. pose proof (length_slice _ _ _ _ Hs) as Hl. rewrite <- Hl.
  rewrite to_from_le. split; [by apply take_slice in Hs|]. apply from_le_range.
Qed.

Lemma fmap_replicate_const {A B} (g : A -> B) (l : list A) x :
  (forall v, v ∈ l -> g v = x) -> g <$> l = replicate (length l) x.
Proof.
  induction l as [|v l IH]; intros Hg; [done|]. rewrite fmap_cons. simpl. f_equal.
  - apply Hg. by left.
  - apply IH. intros. apply Hg. by right.
Qed.
