(* ===== verification/F32.v ===== *)
(** * Single-precision floats

    [f32] as the store handles it: a 32-bit pattern (its four little-endian
    bytes), the IEEE classification and comparisons on that pattern, and the
    arithmetic of the codec through the Standard Library's [spec_float] with
    24 bits of precision ([f32]) and 53 bits ([f64]). Every pattern is a
    value of the type, so no well-formedness hypothesis is needed on data. *)
From stdpp Require Import base list numbers.
From Stdlib Require Import ZArith Lia SpecFloat.
From S2P Require Import Prelude.

Local Open Scope Z_scope.

Inductive f32 : Type := F32 (b0 b1 b2 b3 : byte).

#[global] Instance f32_eq_dec : EqDecision f32.
Proof. solve_decision. Defined.

(** [f32::to_le_bytes], [f32::from_le_bytes] (which takes a [[u8; 4]]). *)
Definition f32_to_le (x : f32) : list byte :=
  let '(F32 b0 b1 b2 b3) := x in [b0; b1; b2; b3].
Definition f32_from_le (bs : list byte) : option f32 :=
  match bs with [b0; b1; b2; b3] => Some (F32 b0 b1 b2 b3) | _ => None end.

(** [f32::to_bits], [f32::from_bits]. *)
Definition to_bits (x : f32) : Z := from_le (f32_to_le x).
Definition from_bits (z : Z) : f32 :=
  F32 (byte_of_Z z) (byte_of_Z (z / 256)) (byte_of_Z (z / 65536)) (byte_of_Z (z / 16777216)).

Definition NAN : f32 := from_bits 0x7fc00000.
Definition INFINITY : f32 := from_bits 0x7f800000.
Definition NEG_INFINITY : f32 := from_bits 0xff800000.
Definition F32_EPSILON : f32 := from_bits 0x34000000.
Definition f32_zero : f32 := from_bits 0.
Definition f32_one : f32 := from_bits 0x3f800000.
Definition f32_half : f32 := from_bits 0x3f000000.

(** ** Classification and order *)

Definition sign_bit (x : f32) : bool := 2 ^ 31 <=? to_bits x.
Definition magnitude (x : f32) : Z := to_bits x mod 2 ^ 31.
Definition exponent (x : f32) : Z := magnitude x / 2 ^ 23.
Definition mantissa (x : f32) : Z := magnitude x mod 2 ^ 23.

Definition is_finite (x : f32) : bool := magnitude x <? 0x7f800000.
Definition is_nan (x : f32) : bool := 0x7f800000 <? magnitude x.

(** On non-NaN values the IEEE order is the order of the signed magnitudes;
    the two zeros have the same key. *)
Definition key (x : f32) : Z := if sign_bit x then - magnitude x else magnitude x.

Definition ordered (x y : f32) : bool := negb (is_nan x) && negb (is_nan y).
Definition f32_eqb (x y : f32) : bool := ordered x y && (key x =? key y).
Definition f32_ltb (x y : f32) : bool := ordered x y && (key x <? key y).
Definition f32_leb (x y : f32) : bool := ordered x y && (key x <=? key y).

(** [f32::min] and [f32::max] return either argument when the two compare
    equal; which one is left to the platform. *)
Class F32Ties := {
  min_takes_left : f32 -> f32 -> bool;
  max_takes_left : f32 -> f32 -> bool
}.

Definition f32_min `{F32Ties} (x y : f32) : f32 :=
  if is_nan x then y else if is_nan y then x
  else if key x <? key y then x else if key y <? key x then y
  else if min_takes_left x y then x else y.
Definition f32_max `{F32Ties} (x y : f32) : f32 :=
  if is_nan x then y else if is_nan y then x
  else if key y <? key x then x else if key x <? key y then y
  else if max_takes_left x y then x else y.

Definition f32_abs (x : f32) : f32 := from_bits (magnitude x).

(** ** Arithmetic, correctly rounded *)

Definition to_sf (x : f32) : spec_float :=
  if is_nan x then S754_nan
  else if negb (is_finite x) then S754_infinity (sign_bit x)
  else match (if exponent x =? 0 then mantissa x else mantissa x + 2 ^ 23) with
       | Zpos m => S754_finite (sign_bit x) m (if exponent x =? 0 then -149 else exponent x - 150)
       | _ => S754_zero (sign_bit x)
       end.

Definition of_sf (v : spec_float) : f32 :=
  let sgn (s : bool) := if s then 2 ^ 31 else 0 in
  match v with
  | S754_zero s => from_bits (sgn s)
  | S754_infinity s => from_bits (sgn s + 0x7f800000)
  | S754_nan => NAN
  | S754_finite s m e =>
      if Zpos m <? 2 ^ 23 then from_bits (sgn s + Zpos m)
      else from_bits (sgn s + (e + 150) * 2 ^ 23 + (Zpos m - 2 ^ 23))
  end.

Definition f32_add (x y : f32) : f32 := of_sf (SFadd 24 128 (to_sf x) (to_sf y)).
Definition f32_sub (x y : f32) : f32 := of_sf (SFsub 24 128 (to_sf x) (to_sf y)).
Definition f32_mul (x y : f32) : f32 := of_sf (SFmul 24 128 (to_sf x) (to_sf y)).
Definition f32_div (x y : f32) : f32 := of_sf (SFdiv 24 128 (to_sf x) (to_sf y)).

(** [f32::from(i16)], exact. *)
Definition f32_of_int (q : Z) : f32 := of_sf (binary_normalize 24 128 q 0 false).

(** [f64] values, [f64::from(f32)] (exact) and [as f32]. *)
Definition f64 := spec_float.
Definition f64_of_f32 (x : f32) : f64 :=
  match to_sf x with
  | S754_finite s m e => binary_normalize 53 1024 (if s then Zneg m else Zpos m) e s
  | v => v
  end.
Definition f64_of_int (q : Z) : f64 := binary_normalize 53 1024 q 0 false.
Definition f64_half : f64 := binary_normalize 53 1024 1 (-1) false.
Definition f32_of_f64 (v : f64) : f32 :=
  match v with
  | S754_finite s m e => of_sf (binary_normalize 24 128 (if s then Zneg m else Zpos m) e s)
  | v => of_sf v
  end.

(** [f32::round]: to the nearest integer, halves away from zero. *)
Definition f32_round (x : f32) : f32 :=
  match to_sf x with
  | S754_finite s m e =>
      if 0 <=? e then x
      else let d := 2 ^ (- e) in
           let n := (2 * Zpos m + d) / (2 * d) in
           of_sf (binary_normalize 24 128 (if s then - n else n) 0 s)
  | _ => x
  end.

(** [f32::clamp]. *)
Definition f32_clamp (x lo hi : f32) : f32 :=
  let x := if f32_ltb x lo then lo else x in
  if f32_ltb hi x then hi else x.

(** The integer part of a finite value. *)
Definition f32_trunc (x : f32) : Z :=
  match to_sf x with
  | S754_finite s m e =>
      let n := if 0 <=? e then Zpos m * 2 ^ e else Zpos m / 2 ^ (- e) in
      if s then - n else n
  | _ => 0
  end.

(** [x as i16]: truncating, saturating, NaN to zero. *)
Definition as_i16 (x : f32) : Z :=
  if is_nan x then 0
  else if negb (is_finite x) then (if sign_bit x then -32768 else 32767)
  else Z.max (-32768) (Z.min 32767 (f32_trunc x)).

(** ** Lemmas *)

Lemma f32_from_to_le x : f32_from_le (f32_to_le x) = Some x.
Proof. by destruct x. Qed.

Lemma length_f32_to_le x : length (f32_to_le x) = 4%nat.
Proof. by destruct x. Qed.

Lemma f32_to_from_le bs x : f32_from_le bs = Some x -> f32_to_le x = bs.
Proof. destruct bs as [|? [|? [|? [|? [|]]]]]; simpl; intros ?; by simplify_eq. Qed.

Lemma f32_from_le_is_Some bs : length bs = 4%nat -> is_Some (f32_from_le bs).
Proof. destruct bs as [|? [|? [|? [|? [|]]]]]; done. Qed.

Lemma to_bits_range x : 0 <= to_bits x < 2 ^ 32.
Proof. unfold to_bits. pose proof (from_le_range (f32_to_le x)). by rewrite length_f32_to_le in *. Qed.

Lemma from_bits_le z : f32_to_le (from_bits z) = to_le 4 z.
Proof.
  simpl. rewrite !Z.div_div by lia. done.
Qed.

Lemma to_from_bits z : 0 <= z < 2 ^ 32 -> to_bits (from_bits z) = z.
Proof. intros. unfold to_bits. rewrite from_bits_le. by apply from_to_le_small. Qed.

Lemma from_to_bits x : from_bits (to_bits x) = x.
Proof.
  assert (Some (from_bits (to_bits x)) = Some x) as [= ->]; [|done].
  rewrite <- !f32_from_to_le. f_equal.
  rewrite from_bits_le. apply to_from_le'. apply length_f32_to_le.
Qed.

Lemma to_bits_inj x y : to_bits x = to_bits y -> x = y.
Proof. intros H. by rewrite <- (from_to_bits x), H, from_to_bits. Qed.

Lemma magnitude_range x : 0 <= magnitude x < 2 ^ 31.
Proof. apply Z.mod_pos_bound. lia. Qed.

Lemma magnitude_sign x : to_bits x = (if sign_bit x then 2 ^ 31 else 0) + magnitude x.
Proof.
  unfold magnitude, sign_bit. pose proof (to_bits_range x).
  destruct (Z.leb_spec (2 ^ 31) (to_bits x)).
  - rewrite <- (Z.mod_unique (to_bits x) (2 ^ 31) 1 (to_bits x - 2 ^ 31)); lia.
  - rewrite Z.mod_small; lia.
Qed.

Lemma finite_not_nan x : is_finite x = true -> is_nan x = false.
Proof. unfold is_finite, is_nan. intros. breflect. apply Z.ltb_ge. lia. Qed.

Lemma NAN_is_nan : is_nan NAN = true.
Proof. reflexivity. Qed.

Lemma nan_not_finite x : is_nan x = true -> is_finite x = false.
Proof. unfold is_finite, is_nan. intros. breflect. apply Z.ltb_ge. lia. Qed.

Lemma finite_key_range x : is_finite x = true -> -0x7f800000 < key x < 0x7f800000.
Proof.
  unfold is_finite, key. pose proof (magnitude_range x). intros. breflect.
  destruct (sign_bit x); lia.
Qed.

(** Equal keys mean equal bits, except for the two zeros. *)
Lemma key_inj x y : key x = key y -> key x <> 0 -> x = y.
Proof.
  intros Hk Hz. apply to_bits_inj. rewrite !magnitude_sign. unfold key in *.
  pose proof (magnitude_range x). pose proof (magnitude_range y).
  destruct (sign_bit x), (sign_bit y); lia.
Qed.

Lemma key_inj_sign x y : key x = key y -> sign_bit x = sign_bit y -> x = y.
Proof.
  intros Hk Hs. apply to_bits_inj. rewrite !magnitude_sign, Hs. unfold key in *.
  rewrite Hs in Hk. destruct (sign_bit y); lia.
Qed.

Section ties.
Context `{F32Ties}.

Lemma f32_min_cases x y : f32_min x y = x \/ f32_min x y = y.
Proof. unfold f32_min. repeat case_match; auto. Qed.

Lemma f32_max_cases x y : f32_max x y = x \/ f32_max x y = y.
Proof. unfold f32_max. repeat case_match; auto. Qed.

Lemma key_f32_min x y :
  is_nan x = false -> is_nan y = false -> key (f32_min x y) = Z.min (key x) (key y).
Proof.
  unfold f32_min. intros -> ->. repeat case_match; breflect; lia.
Qed.

Lemma key_f32_max x y :
  is_nan x = false -> is_nan y = false -> key (f32_max x y) = Z.max (key x) (key y).
Proof.
  unfold f32_max. intros -> ->. repeat case_match; breflect; lia.
Qed.
End ties.

(** Values clamped to [-32767.0 ..= 32767.0] truncate into that range: the
    missing sentinel [i16::MIN] is out of reach. *)
Lemma trunc_bound x :
  magnitude x <= 0x46fffe00 -> -32767 <= f32_trunc x <= 32767.
Proof.
  intros Hm. unfold f32_trunc, to_sf.
  assert (Hfin : is_finite x = true) by (apply Z.ltb_lt; lia).
  rewrite (finite_not_nan _ Hfin), Hfin. simpl negb. cbv iota.
  pose proof (magnitude_range x) as Hr.
  assert (He : 0 <= exponent x <= 141).
  { unfold exponent. split; [apply Z.div_pos; lia|]. change 141 with (0x46fffe00 / 2 ^ 23).
    apply Z.div_le_mono; lia. }
  assert (Hmant : 0 <= mantissa x < 2 ^ 23) by (apply Z.mod_pos_bound; lia).
  assert (Hdec : magnitude x = exponent x * 2 ^ 23 + mantissa x).
  { unfold exponent, mantissa. pose proof (Z.div_mod (magnitude x) (2 ^ 23)). lia. }
  assert (Hcore : forall m e, 0 <= m -> (e <= -10 /\ m < 2 ^ 24) \/ (e = -9 /\ m <= 0xfffe00) ->
            0 <= m / 2 ^ (- e) <= 32767).
  { intros m e ? [[]|[-> ?]]; (split; [apply Z.div_pos; [lia|apply Z.pow_pos_nonneg; lia]|]).
    - transitivity (2 ^ 24 / 2 ^ 10); [|discriminate].
      transitivity (m / 2 ^ 10); [|apply Z.div_le_mono; lia].
      apply Z.div_le_compat_l; [lia|]. split; [lia|]. apply Z.pow_le_mono_r; lia.
    - change 32767 with (0xfffe00 / 2 ^ 9). apply Z.div_le_mono; lia. }
  destruct (Z.eqb_spec (exponent x) 0) as [E0|E0].
  - destruct (mantissa x) as [|m|m] eqn:Em; try lia.
    change (0 <=? -149) with false. cbv iota zeta.
    specialize (Hcore (Zpos m) (-149) ltac:(lia) ltac:(left; lia)).
    change (- -149) with 149 in *. destruct (sign_bit x); lia.
  - destruct (mantissa x + 2 ^ 23) as [|m|m] eqn:Em; try lia.
    destruct (Z.leb_spec 0 (exponent x - 150)); [lia|].
    specialize (Hcore (Zpos m) (exponent x - 150) ltac:(lia)).
    specialize (Hcore ltac:(destruct (decide (exponent x = 141)); [right|left]; lia)).
    destruct (sign_bit x); lia.
Qed.

Lemma as_i16_clamp x :
  -32767 <= as_i16 (f32_clamp x (f32_of_int (-32767)) (f32_of_int 32767)) <= 32767.
Proof.
  set (lo := f32_of_int (-32767)). set (hi := f32_of_int 32767).
  assert (Hlo : key lo = -0x46fffe00) by reflexivity.
  assert (Hhi : key hi = 0x46fffe00) by reflexivity.
  assert (Hnlo : is_nan lo = false) by reflexivity.
  assert (Hnhi : is_nan hi = false) by reflexivity.
  clearbody lo hi.
  set (y := f32_clamp x lo hi).
  assert (is_nan y = true \/ (is_nan y = false /\ -0x46fffe00 <= key y <= 0x46fffe00)) as Hy.
  { subst y. unfold f32_clamp, f32_ltb, ordered.
    destruct (is_nan x) eqn:Ex; simpl; rewrite ?Hnlo, ?Hnhi; simpl.
    { rewrite Ex. auto. }
    destruct (Z.ltb_spec (key x) (key lo)).
    - rewrite Hnlo, Hlo, Hhi. simpl. right. split; [done|]. rewrite Hlo. lia.
    - rewrite Ex. simpl. destruct (Z.ltb_spec (key hi) (key x)); right; auto with lia. }
  unfold as_i16. destruct Hy as [->|[-> Hk]]; [lia|].
  assert (magnitude y <= 0x46fffe00) as Hm.
  { unfold key in Hk. pose proof (magnitude_range y). destruct (sign_bit y); lia. }
  assert (is_finite y = true) as -> by (apply Z.ltb_lt; lia).
  pose proof (trunc_bound y Hm). simpl. lia.
Qed.
