(* ===== verification/Format.v ===== *)
(** * On-disk format: constants, metadata, errors, external libraries

    [crates/rw-store/src/format.rs] and [error.rs], the size ceilings of
    [reader.rs], and the interface to the code the store calls but does not
    contain: zstd, serde_json and the allocator. *)
From stdpp Require Import base list gmap strings numbers.
From Stdlib Require Import ZArith Lia.
From S2P Require Import Prelude F32.

(** ** Errors *)

(** [RwStoreError]. The string is the message template of the [format!] call
    that builds the error; the values it interpolates are left out. *)
Inductive RwStoreError : Type :=
| Io (msg : string)
| Format (msg : string)
| UnsupportedVersion (found : Z) (supported : list Z)
| Meta (msg : string)
| UnknownVariable (name : string)
| Chunk (msg : string)
| Grid (msg : string)
| Locked (msg : string).

Abbreviation RwResult := (result RwStoreError).

(** ** Constants *)

Definition MAGIC : list byte :=
  [Byte.x52; Byte.x57; Byte.x53; Byte.x54; Byte.x4f; Byte.x52; Byte.x45; Byte.x31].
Definition VERSION : Z := 1.
Definition SUPPORTED_VERSIONS : list Z := [1]%Z.
Definition HEADER_LEN : nat := 64.
Definition INDEX_RECORD_LEN : nat := 64.

Definition TILE_Y : nat := 256.
Definition TILE_X : nat := 256.
Definition COL_Y : nat := 16.
Definition COL_X : nat := 16.

Definition FLAG_EMPTY : Z := 1.
Definition FLAG_CONSTANT : Z := 2.
Definition FLAG_HAS_MISSING : Z := 4.

Definition KIND_TILE2D : Z := 0.
Definition KIND_COLUMN3D : Z := 1.

Definition SCHEMA_HOUR : string := "rw-store.hour.v1".
Definition SCHEMA_HOUR_V2 : string := "rw-store.hour.v2".
Definition CODEC_2D : string := "zstd1_f32".
Definition CODEC_3D : string := "zstd1_affine_i16".

(** [rustwx_core::MAX_GRID_CELLS] and [MAX_VOLUME_ELEMENTS] on 64-bit targets. *)
Definition MAX_GRID_CELLS : Z := (2 ^ 63 - 1) / (3 * 4).
Definition MAX_VOLUME_ELEMENTS : Z := (2 ^ 63 - 1) / 4.

Definition has_flag (flags f : Z) : bool := negb (Z.land flags f =? 0)%Z.

(** ** Metadata *)

(** [serde_json::Value] belongs to serde_json: a type the model is
    parametric in. *)
Class JsonValue := { Value : Type }.

(** The metadata of a v2 slot: elapsed seconds ([u64]) and valid time ([i64]). *)
Record RwsExactTime := { lead_seconds : Z; valid_unix : Z }.

(** [RwsExactTime::origin_unix]: the difference is taken in [i128] and must
    fit [i64]. *)
Definition origin_unix (t : RwsExactTime) : option Z :=
  let origin := (valid_unix t - lead_seconds t)%Z in
  if ((- 2 ^ 63 <=? origin) && (origin <? 2 ^ 63))%Z then Some origin else None.

Record RwsChunking := { chunk_tile_y : nat; chunk_tile_x : nat; chunk_col_y : nat; chunk_col_x : nat }.

Record RwsWriterInfo := { wi_name : string; wi_version : string; wi_build : string }.

Record RwsVariableMeta `{JsonValue} := {
  var_meta_id : Z;
  var_name : string;
  var_units : string;
  var_kind : string;
  var_codec : string;
  levels_hpa : list Z;
  selector : Value
}.

Record RwsHourMeta `{JsonValue} := {
  schema : string;
  model : string;
  run : string;
  forecast_hour : Z;
  meta_lead_seconds : option Z;
  meta_valid_unix : option Z;
  nx : nat;
  ny : nat;
  grid_hash : string;
  variables : list RwsVariableMeta;
  chunking : RwsChunking;
  writer : RwsWriterInfo
}.

(** [RwsHourMeta::exact_time]. *)
Definition exact_time_of `{JsonValue} (m : RwsHourMeta) : option RwsExactTime :=
  lead ← meta_lead_seconds m; valid ← meta_valid_unix m;
  Some {| lead_seconds := lead; valid_unix := valid |}.

(** [RwsHourMeta::validate_time_schema]; the error is the plain message. *)
Definition validate_time_schema `{JsonValue} (m : RwsHourMeta)
    : result string (option RwsExactTime) :=
  timing ← match meta_lead_seconds m, meta_valid_unix m with
    | Some lead, Some valid => Ok (Some {| lead_seconds := lead; valid_unix := valid |})
    | None, None => Ok None
    | _, _ => Err "hour metadata must contain both lead_seconds and valid_unix or neither"
    end;
  if bool_decide (schema m = SCHEMA_HOUR) then
    match timing with
    | None => Ok None
    | Some _ => Err "v1 hour metadata must not contain exact-time metadata"
    end
  else if bool_decide (schema m = SCHEMA_HOUR_V2) then
    t ← ok_or timing "v2 hour metadata requires lead_seconds and valid_unix";
    _ ← ok_or (origin_unix t) "v2 hour metadata cannot represent valid_unix - lead_seconds";
    Ok (Some t)
  else Err "unexpected schema".

Definition map_err {E E' A} (f : E -> E') (r : result E A) : result E' A :=
  match r with Ok a => Ok a | Err e => Err (f e) | Panic => Panic end.

(** ** Code outside the repository *)

(** What a zstd stream decoder over some compressed bytes yields: the bytes
    it produces, and whether it then ends cleanly or with an I/O error. *)
Record ZstdStream := { produced : list byte; clean_end : bool }.

(** zstd ([encode_all] at level 1; a stream [Decoder] with its history window
    capped), serde_json ([to_vec], [from_slice]) and [Vec::try_reserve]
    (which says whether a request of so many bytes succeeds). *)
Class External `{JsonValue} := {
  zstd_encode_all : list byte -> RwResult (list byte);
  zstd_decoder : list byte -> RwResult ZstdStream;
  json_to_vec : RwsHourMeta -> RwResult (list byte);
  json_from_slice : list byte -> RwResult RwsHourMeta;
  try_reserve : Z -> bool;
  CARGO_PKG_VERSION : string      (* [env!(..)], set by the build *)
}.

(** The documented behaviour the store relies on. [zstd_bound] is the
    worst-case expansion of [ZSTD_compressBound], [zstd_nonempty] the frame
    header every frame has. *)
Class ExternalLaws `{External} := {
  zstd_roundtrip : forall raw comp, zstd_encode_all raw = Ok comp ->
    zstd_decoder comp = Ok {| produced := raw; clean_end := true |};
  zstd_nonempty : forall raw comp, zstd_encode_all raw = Ok comp -> comp <> [];
  zstd_bound : forall raw comp, zstd_encode_all raw = Ok comp ->
    length comp <= length raw + length raw / 256 + 64;
  zstd_no_panic : forall raw, zstd_encode_all raw <> Panic;
  zstd_decoder_no_panic : forall comp, zstd_decoder comp <> Panic;
  json_roundtrip : forall m bytes, json_to_vec m = Ok bytes -> json_from_slice bytes = Ok m;
  json_to_vec_no_panic : forall m, json_to_vec m <> Panic;
  json_from_slice_no_panic : forall bytes, json_from_slice bytes <> Panic
}.

(** Allocation succeeds at every size the caller asks for. *)
Definition alloc_succeeds `{External} : Prop := forall n, try_reserve n = true.
