(* ===== verification/Header.v ===== *)
(** * The 64-byte file header

    [crates/rw-store/src/header.rs]: [RwsHeader], [for_layout], [pack] and
    [parse], with the round trip and the exact set of accepted buffers. *)
From stdpp Require Import base list strings numbers.
From Stdlib Require Import ZArith Lia.
From S2P Require Import Prelude F32 Format.

Local Open Scope Z_scope.

Record RwsHeader := {
  version : Z;
  meta_len : Z;
  index_count : Z;
  index_offset : Z;
  payload_offset : Z
}.

(** [RwsHeader::for_layout]. The additions are plain [u64] arithmetic; the
    writer's counts keep them far from the width. *)
Definition for_layout (mlen icount : Z) : RwsHeader :=
  let ioff := Z.of_nat HEADER_LEN + mlen in
  {| version := VERSION; meta_len := mlen; index_count := icount;
     index_offset := ioff;
     payload_offset := ioff + icount * Z.of_nat INDEX_RECORD_LEN |}.

(** [RwsHeader::pack]. *)
Definition pack (h : RwsHeader) : list byte :=
  MAGIC ++ to_le 4 (version h) ++ to_le 4 (meta_len h) ++ to_le 8 (index_count h)
  ++ to_le 8 (index_offset h) ++ to_le 8 (payload_offset h) ++ replicate 24 Byte.x00.

(** [RwsHeader::parse]. *)
Definition parse (bytes : list byte) : RwResult RwsHeader :=
  _ ← reject (length bytes <? HEADER_LEN)%nat (Format "header requires {} bytes, got {}");
  magic ← slice bytes 0 8;
  _ ← reject (negb (bool_decide (magic = MAGIC))) (Format "bad magic: expected {:?}, got {:?}");
  ver ← from_le <$> slice bytes 8 12;
  _ ← reject (negb (existsb (Z.eqb ver) SUPPORTED_VERSIONS))
        (UnsupportedVersion ver SUPPORTED_VERSIONS);
  mlen ← from_le <$> slice bytes 12 16;
  icount ← from_le <$> slice bytes 16 24;
  ioff ← from_le <$> slice bytes 24 32;
  poff ← from_le <$> slice bytes 32 40;
  _ ← reject (negb (ioff =? Z.of_nat HEADER_LEN + mlen))
        (Format "inconsistent index_offset: expected {}, got {}");
  expected ← ok_or (ib ← checked_mul64 icount (Z.of_nat INDEX_RECORD_LEN); checked_add64 ioff ib)
        (Format "index_count {} overflows the index size computation");
  _ ← reject (negb (poff =? expected)) (Format "inconsistent payload_offset: expected {}, got {}");
  Ok {| version := ver; meta_len := mlen; index_count := icount;
        index_offset := ioff; payload_offset := poff |}.

(** The headers the format allows: the offsets follow from the two counts
    and every field fits its width. *)
Definition header_ok (h : RwsHeader) : Prop :=
  version h = VERSION /\ in_width u32_limit (meta_len h) /\ in_width u64_limit (index_count h) /\
  index_offset h = 64 + meta_len h /\ payload_offset h = index_offset h + index_count h * 64 /\
  payload_offset h < u64_limit.

(** ** Lemmas *)

Lemma length_pack h : length (pack h) = 64%nat.
Proof. reflexivity. Qed.

(** [parse] reads a buffer only through its first 40 bytes. *)
Lemma parse_prefix bytes h :
  (64 <= length bytes)%nat -> take 40 bytes = take 40 (pack h) -> parse bytes = parse (pack h).
Proof.
  intros Hlen Heq. unfold parse.
  assert (forall a b, (b <= 40)%nat ->
    slice (E := RwStoreError) bytes a b = slice (pack h) a b) as Hs.
  { intros a b Hb. rewrite (slice_take bytes a b 40), Heq by lia.
    symmetry. apply slice_take; [done|]. rewrite length_pack. lia. }
  rewrite !Hs by lia. rewrite length_pack.
  destruct (Nat.ltb_spec (length bytes) HEADER_LEN); [unfold HEADER_LEN in *; lia|done].
Qed.

Lemma parse_pack h : header_ok h -> parse (pack h) = Ok h.
Proof.
  intros (Hv & Hm & Hc & Hi & Hp & Hlim).
  unfold parse. simpl reject.
  change (slice (pack h) 0 8) with (Ok (E := RwStoreError) MAGIC).
  change (slice (pack h) 8 12) with (Ok (E := RwStoreError) (to_le 4 (version h))).
  change (slice (pack h) 12 16) with (Ok (E := RwStoreError) (to_le 4 (meta_len h))).
  change (slice (pack h) 16 24) with (Ok (E := RwStoreError) (to_le 8 (index_count h))).
  change (slice (pack h) 24 32) with (Ok (E := RwStoreError) (to_le 8 (index_offset h))).
  change (slice (pack h) 32 40) with (Ok (E := RwStoreError) (to_le 8 (payload_offset h))).
  unfold in_width, u32_limit, u64_limit in *.
  cbn [mbind result_bind reject fmap result_fmap].
  rewrite bool_decide_eq_true_2 by done. cbn [negb reject mbind result_bind].
  rewrite Hv. unfold VERSION. cbn [mbind result_bind reject negb existsb].
  rewrite !from_to_le_small by (simpl; lia).
  change (1 =? 1) with true.
  cbn [orb negb reject mbind result_bind fmap result_fmap].
  rewrite Hi at 1. change (Z.of_nat HEADER_LEN) with 64. rewrite Z.eqb_refl.
  unfold checked_mul64, checked_add64, u64_limit. change (Z.of_nat INDEX_RECORD_LEN) with 64.
  destruct (Z.ltb_spec (index_count h * 64) (2 ^ 64)); [|lia]. simpl.
  destruct (Z.ltb_spec (index_offset h + index_count h * 64) (2 ^ 64)); [|lia]. simpl.
  rewrite Hp, Z.eqb_refl. simpl. destruct h; simpl in *. by subst.
Qed.

Lemma take_40_pack h :
  take 40 (pack h) =
    ((((MAGIC ++ to_le 4 (version h)) ++ to_le 4 (meta_len h)) ++ to_le 8 (index_count h))
    ++ to_le 8 (index_offset h)) ++ to_le 8 (payload_offset h).
Proof. reflexivity. Qed.

Lemma parse_sound bytes h :
  parse bytes = Ok h ->
  header_ok h /\ (64 <= length bytes)%nat /\ take 40 bytes = take 40 (pack h).
Proof.
  unfold parse. intros H. res_inv H. res_clean. breflect. rewrite take_40_pack.
  repeat match goal with Hs : slice bytes _ _ = Ok ?s |- _ =>
    let Hl := fresh "Hl" in let Hr := fresh "Hr" in
    pose proof (length_slice _ _ _ _ Hs) as Hl; pose proof (from_le_range s) as Hr;
    rewrite Hl in Hr; apply take_slice in Hs end.
  subst. unfold header_ok, in_width, u32_limit, HEADER_LEN, INDEX_RECORD_LEN in *.
  cbn [version meta_len index_count index_offset payload_offset].
  rewrite !to_from_le' by lia. unfold SUPPORTED_VERSIONS, VERSION in *. simpl existsb in *.
  rewrite orb_false_r in *. breflect. unfold u64_limit in *.
  split_and!; try (simpl in *; lia).
  repeat match goal with Ht : take _ bytes = _ |- _ => rewrite Ht; clear Ht end. done.
Qed.

Lemma parse_no_panic bytes : parse bytes <> Panic.
Proof.
  unfold parse. apply bind_no_panic; [auto with rw|].
  intros _ Hlen%reject_inv. breflect. unfold HEADER_LEN in Hlen.
  no_panic; apply slice_no_panic; lia.
Qed.

(** ** Properties *)

(** [RwsHeader::parse] accepts a buffer as header [h] exactly when the
    buffer has 64 bytes, its first 40 are those [pack] writes for [h], and
    [h] is consistent: supported version, [index_offset = 64 + meta_len],
    [payload_offset = index_offset + 64 * index_count], no overflow of any
    width. Packing and parsing are therefore inverse to each other, and no
    hostile [index_count] gets through. *)
Theorem header_parse_iff bytes h :
  parse bytes = Ok h <->
  header_ok h /\ (64 <= length bytes)%nat /\ take 40 bytes = take 40 (pack h).
Proof.
  split; [apply parse_sound|].
  intros (Hok & Hlen & Htake). rewrite (parse_prefix bytes h) by done. by apply parse_pack.
Qed.

(** A header laid out by [for_layout] for counts the widths allow is read
    back unchanged, whatever follows it in the file. *)
Lemma header_layout_roundtrip mlen icount rest :
  in_width u32_limit mlen -> 0 <= icount -> 64 + mlen + 64 * icount < u64_limit ->
  parse (pack (for_layout mlen icount) ++ rest) = Ok (for_layout mlen icount).
Proof.
  intros Hm Hc Hlim. rewrite (parse_prefix _ (for_layout mlen icount)).
  - apply parse_pack. unfold header_ok, for_layout, in_width, u64_limit, u32_limit in *.
    cbn [version meta_len index_count index_offset payload_offset].
    unfold HEADER_LEN, INDEX_RECORD_LEN. lia.
  - rewrite length_app, length_pack. lia.
  - by rewrite take_app_le by (rewrite length_pack; lia).
Qed.

Lemma header_layout_roundtrip_witness :
  parse (pack (for_layout 256 42) ++ [Byte.xff]) = Ok (for_layout 256 42) /\
  parse (pack (for_layout 256 42)) <> Panic.
Proof.
  split; [apply (header_layout_roundtrip 256 42 [Byte.xff]); unfold in_width; vm_compute; intuition congruence|].
  vm_compute. discriminate.
Defined.
