(* ===== verification/Index.v ===== *)
(** * Chunk index records

    [crates/rw-store/src/index.rs]: the 64-byte record of one stored chunk,
    its packing, and the lexicographic order of the index. *)
From stdpp Require Import base list strings numbers.
From Stdlib Require Import ZArith Lia.
From S2P Require Import Prelude F32 Format.

Local Open Scope Z_scope.

Record ChunkRecord := {
  var_id : Z;       (* u16 *)
  kind : Z;         (* u8 *)
  flags : Z;        (* u8 *)
  tile_y : Z;       (* u32 *)
  tile_x : Z;       (* u32 *)
  offset : Z;       (* u64 *)
  len : Z;          (* u32 *)
  raw_len : Z;      (* u32 *)
  center : f32;
  scale : f32;
  rec_min : f32;
  rec_max : f32;
  valid_count : Z   (* u32 *)
}.

(** [ChunkRecord::pack_into]: append exactly 64 bytes to [out]. *)
Definition pack_into (r : ChunkRecord) (out : list byte) : list byte :=
  out ++ to_le 2 (var_id r) ++ to_le 1 (kind r) ++ to_le 1 (flags r)
  ++ to_le 4 (tile_y r) ++ to_le 4 (tile_x r) ++ to_le 8 (offset r)
  ++ to_le 4 (len r) ++ to_le 4 (raw_len r)
  ++ f32_to_le (center r) ++ f32_to_le (scale r) ++ f32_to_le (rec_min r) ++ f32_to_le (rec_max r)
  ++ to_le 4 (valid_count r) ++ replicate 16 Byte.x00.

(** [f32::from_le_bytes(bytes[a..a + 4].try_into().unwrap())]. *)
Definition read_f32 (bytes : list byte) (a b : nat) : RwResult f32 :=
  s ← slice bytes a b; or_panic (f32_from_le s).

(** [ChunkRecord::unpack]. *)
Definition unpack (bytes : list byte) : RwResult ChunkRecord :=
  _ ← reject (length bytes <? 64)%nat (Format "index record requires 64 bytes, got {}");
  r_var_id ← from_le <$> slice bytes 0 2;
  r_kind ← from_le <$> slice bytes 2 3;
  r_flags ← from_le <$> slice bytes 3 4;
  r_tile_y ← from_le <$> slice bytes 4 8;
  r_tile_x ← from_le <$> slice bytes 8 12;
  r_offset ← from_le <$> slice bytes 12 20;
  r_len ← from_le <$> slice bytes 20 24;
  r_raw_len ← from_le <$> slice bytes 24 28;
  r_center ← read_f32 bytes 28 32;
  r_scale ← read_f32 bytes 32 36;
  r_min ← read_f32 bytes 36 40;
  r_max ← read_f32 bytes 40 44;
  r_valid ← from_le <$> slice bytes 44 48;
  Ok {| var_id := r_var_id; kind := r_kind; flags := r_flags; tile_y := r_tile_y;
        tile_x := r_tile_x; offset := r_offset; len := r_len; raw_len := r_raw_len;
        center := r_center; scale := r_scale; rec_min := r_min; rec_max := r_max;
        valid_count := r_valid |}.

(** [ChunkRecord::sort_key] and the derived order of its tuple type. *)
Definition SortKey : Type := Z * Z * Z * Z.
Definition sort_key (r : ChunkRecord) : SortKey := (var_id r, kind r, tile_y r, tile_x r).

Definition key_compare (a b : SortKey) : comparison :=
  let '(a1, a2, a3, a4) := a in
  let '(b1, b2, b3, b4) := b in
  match a1 ?= b1 with
  | Eq => match a2 ?= b2 with
          | Eq => match a3 ?= b3 with
                  | Eq => a4 ?= b4
                  | c => c
                  end
          | c => c
          end
  | c => c
  end.

Definition key_lt (a b : SortKey) : Prop := key_compare a b = Lt.
#[global] Instance key_lt_dec a b : Decision (key_lt a b).
Proof. unfold key_lt. apply _. Defined.

(** Every field of a record fits its width. *)
Definition record_wf (r : ChunkRecord) : Prop :=
  in_width u16_limit (var_id r) /\ in_width 256 (kind r) /\ in_width 256 (flags r) /\
  in_width u32_limit (tile_y r) /\ in_width u32_limit (tile_x r) /\ in_width u64_limit (offset r) /\
  in_width u32_limit (len r) /\ in_width u32_limit (raw_len r) /\ in_width u32_limit (valid_count r).

(** ** Lemmas *)

Lemma length_pack_into r out : length (pack_into r out) = (length out + 64)%nat.
Proof.
  unfold pack_into. rewrite !length_app, !length_to_le, !length_f32_to_le. simpl. lia.
Qed.

Lemma pack_into_app r out : pack_into r out = out ++ pack_into r [].
Proof. done. Qed.

Lemma take_48_pack r :
  take 48 (pack_into r []) =
    (((((((((((to_le 2 (var_id r) ++ to_le 1 (kind r)) ++ to_le 1 (flags r)) ++ to_le 4 (tile_y r))
    ++ to_le 4 (tile_x r)) ++ to_le 8 (offset r)) ++ to_le 4 (len r)) ++ to_le 4 (raw_len r))
    ++ f32_to_le (center r)) ++ f32_to_le (scale r)) ++ f32_to_le (rec_min r))
    ++ f32_to_le (rec_max r)) ++ to_le 4 (valid_count r).
Proof. destruct r as [???????? [] [] [] [] ?]. reflexivity. Qed.

Lemma unpack_prefix bytes r :
  (64 <= length bytes)%nat -> take 48 bytes = take 48 (pack_into r []) ->
  unpack bytes = unpack (pack_into r []).
Proof.
  intros Hlen Heq. unfold unpack, read_f32.
  assert (forall a b, (b <= 48)%nat ->
    slice (E := RwStoreError) bytes a b = slice (pack_into r []) a b) as Hs.
  { intros a b Hb. rewrite (slice_take bytes a b 48), Heq by lia.
    symmetry. apply slice_take; [done|]. rewrite length_pack_into. simpl. lia. }
  rewrite !Hs by lia. rewrite length_pack_into.
  destruct (Nat.ltb_spec (length bytes) 64); [lia|done].
Qed.

Lemma unpack_pack r : record_wf r -> unpack (pack_into r []) = Ok r.
Proof.
  intros (H1 & H2 & H3 & H4 & H5 & H6 & H7 & H8 & H9).
  unfold in_width, u16_limit, u32_limit, u64_limit in *.
  destruct r as [v k f ty tx o l rl [c0 c1 c2 c3] [s0 s1 s2 s3] [m0 m1 m2 m3] [x0 x1 x2 x3] vc];
    simpl in H1, H2, H3, H4, H5, H6, H7, H8, H9.
  set (r := Build_ChunkRecord _ _ _ _ _ _ _ _ _ _ _ _ _).
  unfold unpack, read_f32. rewrite length_pack_into. simpl (_ <? _)%nat. cbn [reject].
  change (slice (pack_into r []) 0 2) with (Ok (E := RwStoreError) (to_le 2 v)).
  change (slice (pack_into r []) 2 3) with (Ok (E := RwStoreError) (to_le 1 k)).
  change (slice (pack_into r []) 3 4) with (Ok (E := RwStoreError) (to_le 1 f)).
  change (slice (pack_into r []) 4 8) with (Ok (E := RwStoreError) (to_le 4 ty)).
  change (slice (pack_into r []) 8 12) with (Ok (E := RwStoreError) (to_le 4 tx)).
  change (slice (pack_into r []) 12 20) with (Ok (E := RwStoreError) (to_le 8 o)).
  change (slice (pack_into r []) 20 24) with (Ok (E := RwStoreError) (to_le 4 l)).
  change (slice (pack_into r []) 24 28) with (Ok (E := RwStoreError) (to_le 4 rl)).
  change (slice (pack_into r []) 28 32) with (Ok (E := RwStoreError) [c0; c1; c2; c3]).
  change (slice (pack_into r []) 32 36) with (Ok (E := RwStoreError) [s0; s1; s2; s3]).
  change (slice (pack_into r []) 36 40) with (Ok (E := RwStoreError) [m0; m1; m2; m3]).
  change (slice (pack_into r []) 40 44) with (Ok (E := RwStoreError) [x0; x1; x2; x3]).
  change (slice (pack_into r []) 44 48) with (Ok (E := RwStoreError) (to_le 4 vc)).
  cbn [mbind result_bind fmap result_fmap f32_from_le or_panic].
  by rewrite !from_to_le_small by (simpl; lia).
Qed.

Lemma read_f32_inv bytes a b x :
  read_f32 bytes a b = Ok x -> slice (E := RwStoreError) bytes a b = Ok (f32_to_le x).
Proof.
  unfold read_f32. intros H. res_inv H. res_clean. subst. by erewrite f32_to_from_le.
Qed.

Lemma unpack_sound bytes r :
  unpack bytes = Ok r ->
  record_wf r /\ (64 <= length bytes)%nat /\ take 48 bytes = take 48 (pack_into r []).
Proof.
  unfold unpack. intros H. res_inv H. res_clean. breflect. rewrite take_48_pack.
  repeat match goal with Hs : read_f32 bytes _ _ = Ok _ |- _ =>
    apply read_f32_inv, take_slice in Hs end.
  repeat match goal with Hs : slice bytes _ _ = Ok ?s |- _ =>
    apply slice_le in Hs as [? ?] end.
  subst. unfold record_wf.
  cbn [var_id kind flags tile_y tile_x offset len raw_len valid_count center scale rec_min rec_max].
  split_and!; try match goal with Hr : 0 <= ?z < _ |- in_width _ ?z => exact Hr end; [done|].
  repeat match goal with Ht : take _ bytes = _ |- _ => rewrite Ht; clear Ht end. done.
Qed.

Lemma unpack_no_panic bytes : unpack bytes <> Panic.
Proof.
  unfold unpack. apply bind_no_panic; [auto with rw|].
  intros _ Hlen%reject_inv. breflect.
  assert (forall a b, (a + 4 = b)%nat -> (b <= 64)%nat -> read_f32 bytes a b <> Panic) as Hf.
  { intros a b Hab Hb. unfold read_f32. apply bind_no_panic; [apply slice_no_panic; lia|].
    intros s Hs. pose proof (length_slice _ _ _ _ Hs).
    destruct (f32_from_le_is_Some s) as [x ->]; [lia|done]. }
  no_panic; try (apply Hf; lia); apply slice_no_panic; lia.
Qed.

(** The order of the index is a strict total order. *)
Lemma key_lt_spec a1 a2 a3 a4 b1 b2 b3 b4 :
  key_lt (a1, a2, a3, a4) (b1, b2, b3, b4) <->
  a1 < b1 \/ a1 = b1 /\ (a2 < b2 \/ a2 = b2 /\ (a3 < b3 \/ a3 = b3 /\ a4 < b4)).
Proof.
  unfold key_lt, key_compare.
  destruct (Z.compare_spec a1 b1); [|intuition lia|intuition (try discriminate; lia)].
  destruct (Z.compare_spec a2 b2); [|intuition lia|intuition (try discriminate; lia)].
  destruct (Z.compare_spec a3 b3); [|intuition lia|intuition (try discriminate; lia)].
  rewrite Z.compare_lt_iff. intuition lia.
Qed.

Lemma key_compare_eq a b : key_compare a b = Eq <-> a = b.
Proof.
  destruct a as [[[a1 a2] a3] a4], b as [[[b1 b2] b3] b4]. unfold key_compare.
  destruct (Z.compare_spec a1 b1); [|intuition (try discriminate; simplify_eq; lia)..].
  destruct (Z.compare_spec a2 b2); [|intuition (try discriminate; simplify_eq; lia)..].
  destruct (Z.compare_spec a3 b3); [|intuition (try discriminate; simplify_eq; lia)..].
  rewrite Z.compare_eq_iff. intuition (simplify_eq; auto).
Qed.

#[global] Instance key_lt_irrefl : Irreflexive key_lt.
Proof.
  intros [[[a1 a2] a3] a4]. unfold complement. rewrite key_lt_spec. lia.
Qed.

#[global] Instance key_lt_trans : Transitive key_lt.
Proof.
  intros [[[a1 a2] a3] a4] [[[b1 b2] b3] b4] [[[c1 c2] c3] c4]. rewrite !key_lt_spec. lia.
Qed.

Lemma key_compare_gt a b : key_compare a b = Gt <-> key_lt b a.
Proof.
  destruct a as [[[a1 a2] a3] a4], b as [[[b1 b2] b3] b4]. rewrite key_lt_spec.
  unfold key_compare.
  destruct (Z.compare_spec a1 b1); [|intuition (try discriminate; lia)..].
  destruct (Z.compare_spec a2 b2); [|intuition (try discriminate; lia)..].
  destruct (Z.compare_spec a3 b3); [|intuition (try discriminate; lia)..].
  rewrite Z.compare_gt_iff. intuition lia.
Qed.

Lemma key_trichotomy a b : key_lt a b \/ a = b \/ key_lt b a.
Proof.
  destruct (key_compare a b) eqn:Hc; [right; left|left|right; right].
  - by apply key_compare_eq.
  - done.
  - by apply key_compare_gt.
Qed.

(** ** Properties *)

(** [ChunkRecord::unpack] accepts a buffer as record [r] exactly when it
    has 64 bytes, the first 48 are those [pack_into] writes for [r] and the
    fields fit their widths. In particular every record, NaN payloads
    included, survives the round trip bit for bit. *)
Theorem record_unpack_iff bytes r :
  unpack bytes = Ok r <->
  record_wf r /\ (64 <= length bytes)%nat /\ take 48 bytes = take 48 (pack_into r []).
Proof.
  split; [apply unpack_sound|].
  intros (Hwf & Hlen & Htake). rewrite (unpack_prefix bytes r) by done. by apply unpack_pack.
Qed.
