(* ===== verification/Codec.v ===== *)
(** * Chunk codecs

    [crates/rw-store/src/codec.rs]: the lossless [f32] tile codec and the
    affine 16-bit codec of pressure columns, before compression. *)
From stdpp Require Import base list strings numbers.
From Stdlib Require Import ZArith Lia SpecFloat.
From S2P Require Import Prelude F32 Format.

Local Open Scope Z_scope.

Definition MISSING_Q : Z := -32768.
Definition Q_MIN : Z := -32767.
Definition Q_MAX : Z := 32767.

Record EncodedChunk := {
  ec_flags : Z;
  ec_center : f32;
  ec_scale : f32;
  ec_min : f32;
  ec_max : f32;
  ec_valid_count : Z;
  payload : list byte
}.

Record ChunkScan := {
  valid_min : f32;
  valid_max : f32;
  scan_count : nat;
  has_missing : bool
}.

(** [i16::to_le_bytes] is [to_le 2]; [i16::from_le_bytes] takes two bytes. *)
Definition i16_from_le (bs : list byte) : option Z :=
  match bs with
  | [_; _] => let u := from_le bs in Some (if u <? 32768 then u else u - 65536)
  | _ => None
  end.

(** [slice::chunks_exact(n)]: the remainder is left out. *)
Definition chunks_exact {A} (n : nat) (l : list A) : list (list A) :=
  (fun i => take n (drop (i * n) l)) <$> seq 0 (length l / n).

Section codec.
Context `{F32Ties}.

(** The loop body of [scan_values]. *)
Definition scan_step (s : ChunkScan) (v : f32) : ChunkScan :=
  if is_finite v then
    {| valid_min := f32_min (valid_min s) v; valid_max := f32_max (valid_max s) v;
       scan_count := S (scan_count s); has_missing := has_missing s |}
  else
    {| valid_min := valid_min s; valid_max := valid_max s;
       scan_count := scan_count s; has_missing := true |}.

Definition scan_values (values : list f32) : ChunkScan :=
  fold_left scan_step values
    {| valid_min := INFINITY; valid_max := NEG_INFINITY; scan_count := 0; has_missing := false |}.

Definition empty_chunk : EncodedChunk :=
  {| ec_flags := FLAG_EMPTY; ec_center := f32_zero; ec_scale := f32_zero;
     ec_min := NAN; ec_max := NAN; ec_valid_count := 0; payload := [] |}.

(** The quantised value of a finite [v]. *)
Definition quantize (c s v : f32) : Z :=
  as_i16 (f32_clamp (f32_round (f32_div (f32_sub v c) s)) (f32_of_int Q_MIN) (f32_of_int Q_MAX)).

(** The range mathematics of [encode_affine_i16], in [f64]. *)
Definition affine_range (lo hi : f32) : f64 := SFsub 53 1024 (f64_of_f32 hi) (f64_of_f32 lo).
Definition affine_center (lo hi : f32) : f32 :=
  f32_of_f64 (SFadd 53 1024 (f64_of_f32 lo) (SFmul 53 1024 f64_half (affine_range lo hi))).
Definition affine_scale (lo hi : f32) : f32 :=
  f32_of_f64 (SFdiv 53 1024 (affine_range lo hi) (SFmul 53 1024 (f64_of_int 2) (f64_of_int Q_MAX))).

(** [encode_affine_i16]. *)
Definition encode_affine_i16 (values : list f32) : RwResult EncodedChunk :=
  let scan := scan_values values in
  if (scan_count scan =? 0)%nat then Ok empty_chunk
  else if f32_leb (f32_abs (f32_sub (valid_max scan) (valid_min scan))) F32_EPSILON then
    let count := Z.of_nat (scan_count scan) mod u32_limit in
    if has_missing scan then
      Ok {| ec_flags := Z.lor FLAG_CONSTANT FLAG_HAS_MISSING;
            ec_center := valid_min scan; ec_scale := f32_zero;
            ec_min := valid_min scan; ec_max := valid_max scan; ec_valid_count := count;
            payload := values ≫= (fun v => to_le 2 (if is_finite v then 0 else MISSING_Q)) |}
    else
      Ok {| ec_flags := FLAG_CONSTANT;
            ec_center := valid_min scan; ec_scale := f32_zero;
            ec_min := valid_min scan; ec_max := valid_max scan; ec_valid_count := count;
            payload := [] |}
  else
    let c := affine_center (valid_min scan) (valid_max scan) in
    let s := affine_scale (valid_min scan) (valid_max scan) in
    if negb (is_finite s) || f32_leb s f32_zero
    then Err (Chunk "invalid affine quantization scale {} (range {} .. {})")
    else
      Ok {| ec_flags := if has_missing scan then FLAG_HAS_MISSING else 0;
            ec_center := c; ec_scale := s;
            ec_min := valid_min scan; ec_max := valid_max scan;
            ec_valid_count := Z.of_nat (scan_count scan) mod u32_limit;
            payload := values ≫= (fun v =>
              to_le 2 (if is_finite v then quantize c s v else MISSING_Q)) |}.

(** [encode_f32_tile]. *)
Definition encode_f32_tile (values : list f32) : EncodedChunk :=
  let scan := scan_values values in
  if (scan_count scan =? 0)%nat then empty_chunk
  else
    let count := Z.of_nat (scan_count scan) mod u32_limit in
    if f32_eqb (valid_max scan) (valid_min scan) && negb (has_missing scan) then
      {| ec_flags := FLAG_CONSTANT; ec_center := valid_min scan; ec_scale := f32_zero;
         ec_min := valid_min scan; ec_max := valid_max scan; ec_valid_count := count;
         payload := [] |}
    else
      {| ec_flags := if has_missing scan then FLAG_HAS_MISSING else 0;
         ec_center := f32_mul f32_half (f32_add (valid_min scan) (valid_max scan));
         ec_scale := f32_zero;
         ec_min := valid_min scan; ec_max := valid_max scan; ec_valid_count := count;
         payload := values ≫= f32_to_le |}.
End codec.

(** The value of one quantised cell. *)
Definition dequantize (fl : Z) (c s : f32) (q : Z) : f32 :=
  if q =? MISSING_Q then NAN
  else if has_flag fl FLAG_CONSTANT then c
  else f32_add c (f32_mul s (f32_of_int q)).

(** [decode_affine_i16]. *)
Definition decode_affine_i16 (fl : Z) (c s : f32) (bytes : list byte) (value_count : nat)
    : RwResult (list f32) :=
  if has_flag fl FLAG_EMPTY then Ok (replicate value_count NAN)
  else if has_flag fl FLAG_CONSTANT && bool_decide (bytes = []) then Ok (replicate value_count c)
  else
    _ ← reject (negb (length bytes =? value_count * 2)%nat)
          (Chunk "dense i16 payload has {} bytes, expected {}");
    rmap (fun pair => q ← or_panic (i16_from_le pair); Ok (dequantize fl c s q))
      (chunks_exact 2 bytes).

(** [decode_f32_tile]. *)
Definition decode_f32_tile (fl : Z) (c : f32) (bytes : list byte) (value_count : nat)
    : RwResult (list f32) :=
  if has_flag fl FLAG_EMPTY then Ok (replicate value_count NAN)
  else if has_flag fl FLAG_CONSTANT && bool_decide (bytes = []) then Ok (replicate value_count c)
  else
    _ ← reject (negb (length bytes =? value_count * 4)%nat)
          (Chunk "dense f32 payload has {} bytes, expected {}");
    rmap (fun quad => or_panic (f32_from_le quad)) (chunks_exact 4 bytes).

(** ** Lemmas: fixed-width payloads *)

Lemma chunks_exact_cons {A} n (x rest : list A) :
  (0 < n)%nat -> length x = n -> chunks_exact n (x ++ rest) = x :: chunks_exact n rest.
Proof.
  intros Hn Hx. unfold chunks_exact. rewrite length_app, Hx.
  replace ((n + length rest) / n)%nat with (S (length rest / n)).
  2:{ replace (n + length rest)%nat with (1 * n + length rest)%nat by lia.
      rewrite Nat.div_add_l by lia. lia. }
  rewrite <- cons_seq. rewrite fmap_cons. f_equal.
  - rewrite drop_0. rewrite <- Hx at 1. apply take_app_length.
  - rewrite <- fmap_S_seq, <- list_fmap_compose. apply list_fmap_ext. intros _ i _.
    unfold compose. f_equal. simpl. rewrite <- drop_drop. f_equal. subst n. apply drop_app_length.
Qed.

Lemma chunks_exact_bind {A B} n (f : A -> list B) l :
  (0 < n)%nat -> (forall a, length (f a) = n) -> chunks_exact n (l ≫= f) = f <$> l.
Proof.
  intros Hn Hf. induction l as [|a l IH].
  - unfold chunks_exact. simpl. by rewrite Nat.Div0.div_0_l.
  - by rewrite bind_cons, chunks_exact_cons, IH by auto.
Qed.

Lemma length_bind_const {A B} n (f : A -> list B) l :
  (forall a, length (f a) = n) -> length (l ≫= f) = (length l * n)%nat.
Proof. intros Hf. induction l as [|a l IH]; [done|]. rewrite bind_cons, length_app, Hf, IH. simpl. lia. Qed.

Lemma i16_from_to_le q : -32768 <= q < 32768 -> i16_from_le (to_le 2 q) = Some q.
Proof.
  intros Hq. unfold i16_from_le. pose proof (from_to_le 2 q) as Hf.
  change (to_le 2 q) with [byte_of_Z q; byte_of_Z (q / 256)] in *. rewrite Hf.
  change (2 ^ (8 * Z.of_nat 2)) with 65536. f_equal.
  destruct (Z.ltb_spec (q mod 65536) 32768).
  - assert (0 <= q); [|rewrite Z.mod_small; lia].
    destruct (Z.leb_spec 0 q); [lia|].
    rewrite <- (Z.mod_unique q 65536 (-1) (q + 65536)) in *; lia.
  - assert (q < 0) by (destruct (Z.leb_spec 0 q); [rewrite Z.mod_small in *; lia|lia]).
    rewrite <- (Z.mod_unique q 65536 (-1) (q + 65536)); lia.
Qed.

(** ** Lemmas: the scan *)

Section scan.
Context `{F32Ties}.

Definition scan_from (s : ChunkScan) (values : list f32) : ChunkScan := fold_left scan_step values s.

Definition scan_inv (s : ChunkScan) (seen : list f32) : Prop :=
  is_nan (valid_min s) = false /\ is_nan (valid_max s) = false /\
  scan_count s = length (filter (fun v => is_finite v = true) seen) /\
  has_missing s = existsb (fun v => negb (is_finite v)) seen /\
  (forall v, v ∈ seen -> is_finite v = true -> key (valid_min s) <= key v <= key (valid_max s)) /\
  (scan_count s <> 0%nat -> valid_min s ∈ seen /\ valid_max s ∈ seen /\
     is_finite (valid_min s) = true /\ is_finite (valid_max s) = true) /\
  (scan_count s = 0%nat -> valid_min s = INFINITY /\ valid_max s = NEG_INFINITY).

Lemma scan_step_inv s seen v : scan_inv s seen -> scan_inv (scan_step s v) (seen ++ [v]).
Proof.
  intros (Hnmin & Hnmax & Hcount & Hmiss & Hb & Hin & Hempty).
  unfold scan_step, scan_inv. rewrite list.filter_app, existsb_app, length_app, filter_cons, filter_nil.
  destruct (is_finite v) eqn:Hv; simpl.
  2:{ rewrite Nat.add_0_r, Hv. simpl. rewrite orb_true_r. split_and!; auto.
      - intros u [Hu|Hu%list_elem_of_singleton]%elem_of_app; [by apply Hb|congruence].
      - intros Hc. destruct (Hin Hc) as (?&?&?&?). split_and!; auto; by apply elem_of_app; left. }
  pose proof (finite_not_nan _ Hv) as Hnv. pose proof (finite_key_range _ Hv) as Hkv.
  assert (is_nan (f32_min (valid_min s) v) = false)
    by (destruct (f32_min_cases (valid_min s) v) as [->| ->]; auto).
  assert (is_nan (f32_max (valid_max s) v) = false)
    by (destruct (f32_max_cases (valid_max s) v) as [->| ->]; auto).
  rewrite Hv. simpl. rewrite orb_false_r, Hcount. split_and!; auto; try lia.
  - rewrite key_f32_min, key_f32_max by done.
    intros u [Hu|Hu%list_elem_of_singleton]%elem_of_app Hfu; [specialize (Hb u Hu Hfu); lia|subst; lia].
  - intros _. assert (v ∈ seen ++ [v]) by (apply elem_of_app; right; by left).
    destruct (scan_count s) as [|c] eqn:Hc.
    + destruct (Hempty eq_refl) as [-> ->].
      assert (f32_min INFINITY v = v) as ->.
      { unfold f32_min. rewrite Hnv. change (is_nan INFINITY) with false. cbv iota.
        change (key INFINITY) with 0x7f800000.
        destruct (Z.ltb_spec 0x7f800000 (key v)); [lia|].
        destruct (Z.ltb_spec (key v) 0x7f800000); [done|lia]. }
      assert (f32_max NEG_INFINITY v = v) as ->.
      { unfold f32_max. rewrite Hnv. change (is_nan NEG_INFINITY) with false. cbv iota.
        change (key NEG_INFINITY) with (-0x7f800000).
        destruct (Z.ltb_spec (key v) (-0x7f800000)); [lia|].
        destruct (Z.ltb_spec (-0x7f800000) (key v)); [done|lia]. }
      auto.
    + destruct (Hin ltac:(done)) as (?&?&?&?).
      assert (forall u, u ∈ seen -> u ∈ seen ++ [v]) by (intros; by apply elem_of_app; left).
      destruct (f32_min_cases (valid_min s) v) as [->| ->],
        (f32_max_cases (valid_max s) v) as [->| ->]; split_and!; auto.
Qed.

Lemma scan_from_inv s seen values :
  scan_inv s seen -> scan_inv (scan_from s values) (seen ++ values).
Proof.
  revert s seen; induction values as [|v values IH]; intros s seen Hs; simpl.
  - by rewrite app_nil_r.
  - rewrite cons_middle, app_assoc. apply IH. by apply scan_step_inv.
Qed.

Lemma scan_values_inv values : scan_inv (scan_values values) values.
Proof.
  apply (scan_from_inv _ []). unfold scan_inv. simpl. split_and!; auto; try lia. intros v Hv. by apply not_elem_of_nil in Hv.
Qed.

Lemma scan_count_zero values :
  scan_count (scan_values values) = 0%nat -> forall v, v ∈ values -> is_finite v = false.
Proof.
  intros Hc v Hv. pose proof (scan_values_inv values) as (_ & _ & Hcount & _).
  destruct (is_finite v) eqn:Hf; [|done]. exfalso.
  rewrite Hcount in Hc. apply nil_length_inv in Hc.
  assert (v ∈ filter (fun v => is_finite v = true) values) as Hin by (by apply list_elem_of_filter).
  rewrite Hc in Hin. by apply not_elem_of_nil in Hin.
Qed.

Lemma scan_count_le values : (scan_count (scan_values values) <= length values)%nat.
Proof.
  pose proof (scan_values_inv values) as (_ & _ & -> & _). apply length_filter.
Qed.

Lemma scan_no_missing values :
  has_missing (scan_values values) = false -> forall v, v ∈ values -> is_finite v = true.
Proof.
  intros Hm v Hv. pose proof (scan_values_inv values) as (_ & _ & _ & Hmiss & _).
  destruct (is_finite v) eqn:Hf; [done|]. rewrite Hm in Hmiss. symmetry in Hmiss.
  assert (existsb (fun v => negb (is_finite v)) values = true); [|congruence].
  apply existsb_true. exists v. by rewrite Hf.
Qed.
End scan.

(** ** Lemmas: encoding then decoding *)

(** The shape of an encoded chunk: payload-free with an EMPTY or CONSTANT
    flag, or dense with [width] bytes per value. *)
Definition chunk_shape (width n : nat) (c : EncodedChunk) : Prop :=
  ((ec_flags c = FLAG_EMPTY \/ ec_flags c = FLAG_CONSTANT) /\ payload c = []) \/
  ((ec_flags c = 0 \/ ec_flags c = FLAG_HAS_MISSING \/
    (width = 2%nat /\ ec_flags c = Z.lor FLAG_CONSTANT FLAG_HAS_MISSING)) /\
   length (payload c) = (n * width)%nat /\ n <> 0%nat).

Section roundtrip.
Context `{F32Ties}.

(** What a decoded tile holds for the given source values. *)
Definition tile_decoded (values : list f32) : list f32 :=
  let scan := scan_values values in
  if (scan_count scan =? 0)%nat then replicate (length values) NAN
  else if f32_eqb (valid_max scan) (valid_min scan) && negb (has_missing scan)
       then replicate (length values) (valid_min scan)
       else values.

Lemma rmap_f32_from_le values :
  rmap (fun quad => or_panic (E := RwStoreError) (f32_from_le quad)) (f32_to_le <$> values) = Ok values.
Proof.
  apply rmap_ok_intro. induction values as [|v values IH]; [constructor|].
  rewrite fmap_cons. constructor; [|done]. by rewrite f32_from_to_le.
Qed.

(** Dense bytes decode to the values whatever the non-payload-free flags say. *)
Lemma decode_f32_dense fl c values :
  has_flag fl FLAG_EMPTY = false ->
  has_flag fl FLAG_CONSTANT = false \/ values <> [] ->
  decode_f32_tile fl c (values ≫= f32_to_le) (length values) = Ok values.
Proof.
  intros Hfe Hfc. unfold decode_f32_tile. rewrite Hfe.
  assert (has_flag fl FLAG_CONSTANT && bool_decide (values ≫= f32_to_le = []) = false) as ->.
  { destruct Hfc as [->|Hne]; [done|]. apply andb_false_iff. right.
    apply bool_decide_eq_false. intros Hnil. destruct values as [|[] ?]; done. }
  rewrite (length_bind_const 4) by apply length_f32_to_le. rewrite Nat.eqb_refl. simpl.
  rewrite chunks_exact_bind by (auto using length_f32_to_le with lia). apply rmap_f32_from_le.
Qed.

Lemma decode_encode_f32 values :
  let c := encode_f32_tile values in
  decode_f32_tile (ec_flags c) (ec_center c) (payload c) (length values) = Ok (tile_decoded values).
Proof.
  unfold encode_f32_tile, tile_decoded. simpl.
  destruct (scan_count (scan_values values) =? 0)%nat eqn:Hc; [done|].
  destruct (f32_eqb _ _ && _) eqn:He; [done|]. cbn [ec_flags ec_center payload].
  apply decode_f32_dense; destruct (has_missing _); auto.
Qed.

Lemma encode_f32_shape values : chunk_shape 4 (length values) (encode_f32_tile values).
Proof.
  unfold encode_f32_tile, chunk_shape. pose proof (scan_count_le values).
  destruct (Nat.eqb_spec (scan_count (scan_values values)) 0) as [Hc|Hc]; [left; auto|].
  destruct (f32_eqb _ _ && _) eqn:He; [left; auto|].
  right. cbn [ec_flags payload]. rewrite (length_bind_const 4) by apply length_f32_to_le.
  split_and!; [|done|lia]. destruct (has_missing _); auto.
Qed.

Lemma encode_f32_count values :
  0 <= ec_valid_count (encode_f32_tile values) <= Z.of_nat (length values).
Proof.
  unfold encode_f32_tile. pose proof (scan_count_le values).
  assert (0 <= Z.of_nat (scan_count (scan_values values)) mod u32_limit
            <= Z.of_nat (length values)).
  { split; [apply Z.mod_pos_bound; done|].
    etransitivity; [apply Z.mod_le; unfold u32_limit; lia|lia]. }
  repeat case_match; simpl; lia.
Qed.

Lemma eqb_key x y : f32_eqb x y = true -> key x = key y.
Proof. unfold f32_eqb. intros. by breflect. Qed.

(** Every finite value of a chunk the encoder treats as constant has the key
    of the stored centre. *)
Lemma constant_key values v :
  v ∈ values -> is_finite v = true ->
  key (valid_max (scan_values values)) = key (valid_min (scan_values values)) ->
  key v = key (valid_min (scan_values values)).
Proof.
  intros Hv Hf Hk. pose proof (scan_values_inv values) as (_ & _ & _ & _ & Hb & _).
  specialize (Hb v Hv Hf). lia.
Qed.

Lemma tile_decoded_id values :
  (exists v, v ∈ values /\ is_finite v = true) ->
  (forall u v, u ∈ values -> v ∈ values -> key u = 0 -> key v = 0 -> u = v) ->
  tile_decoded values = values.
Proof.
  intros (v0 & Hv0 & Hf0) Hzero. unfold tile_decoded.
  destruct (Nat.eqb_spec (scan_count (scan_values values)) 0) as [Hc|Hc].
  { pose proof (scan_count_zero _ Hc _ Hv0). congruence. }
  destruct (f32_eqb _ _ && _) eqn:He; [|done]. apply andb_true_iff in He as [He Hm].
  apply eqb_key in He. apply negb_true_iff in Hm.
  pose proof (scan_values_inv values) as (_ & _ & _ & _ & _ & Hin & _).
  destruct (Hin Hc) as (Hmin & _ & Hfmin & _).
  rewrite <- (fmap_replicate_const id values (valid_min (scan_values values))).
  { apply list_fmap_id. }
  intros v Hv. unfold id.
  pose proof (constant_key _ v Hv (scan_no_missing _ Hm v Hv) He) as Hk.
  destruct (decide (key v = 0)); [by apply Hzero; auto; congruence|by apply key_inj].
Qed.

(** What may change between a tile and its decoding. *)
Lemma tile_decoded_cells values :
  Forall2 (fun v o => o = v \/ (key v = 0 /\ key o = 0) \/
    (o = NAN /\ forall u, u ∈ values -> is_finite u = false)) values (tile_decoded values).
Proof.
  unfold tile_decoded.
  destruct (Nat.eqb_spec (scan_count (scan_values values)) 0) as [Hc|Hc].
  { apply Forall2_replicate_r; [done|]. apply list.Forall_forall. intros v _. right; right.
    split; [done|]. by apply scan_count_zero. }
  destruct (f32_eqb _ _ && _) eqn:He; [|apply Forall2_same_length_lookup_2; naive_solver].
  apply andb_true_iff in He as [He Hm]. apply eqb_key in He. apply negb_true_iff in Hm.
  apply Forall2_replicate_r; [done|]. apply list.Forall_forall. intros v Hv.
  pose proof (constant_key _ v Hv (scan_no_missing _ Hm v Hv) He) as Hk.
  destruct (decide (key v = 0)); [right; left; lia|left; symmetry; by apply key_inj].
Qed.

(** The affine codec: what every cell decodes to. *)
Definition affine_cell (c : EncodedChunk) (v : f32) : f32 :=
  if has_flag (ec_flags c) FLAG_EMPTY then NAN
  else if is_finite v then
    if has_flag (ec_flags c) FLAG_CONSTANT then ec_center c
    else f32_add (ec_center c) (f32_mul (ec_scale c)
           (f32_of_int (quantize (ec_center c) (ec_scale c) v)))
  else NAN.

Lemma quantize_range c s v : Q_MIN <= quantize c s v <= Q_MAX.
Proof. apply as_i16_clamp. Qed.

Lemma decode_affine_dense fl c s (qs : list Z) :
  has_flag fl FLAG_EMPTY = false -> qs <> [] ->
  Forall (fun q => -32768 <= q < 32768) qs ->
  decode_affine_i16 fl c s (qs ≫= to_le 2) (length qs) = Ok (dequantize fl c s <$> qs).
Proof.
  intros Hfe Hne Hq. unfold decode_affine_i16. rewrite Hfe.
  assert (bool_decide (qs ≫= to_le 2 = []) = false) as ->.
  { apply bool_decide_eq_false. intros Hnil. destruct qs as [|q qs]; done. }
  rewrite andb_false_r. rewrite (length_bind_const 2) by apply length_to_le.
  rewrite Nat.eqb_refl. cbn [negb reject mbind result_bind].
  rewrite chunks_exact_bind by (auto using length_to_le with lia).
  apply rmap_ok_intro. clear Hne. induction Hq as [|q qs Hq _ IH]; [constructor|].
  rewrite !fmap_cons. constructor; [|done]. by rewrite i16_from_to_le.
Qed.

Lemma bind_fmap_to_le (g : f32 -> Z) (values : list f32) :
  values ≫= (fun v => to_le 2 (g v)) = (g <$> values) ≫= to_le 2.
Proof. induction values as [|v values IH]; [done|]. by rewrite fmap_cons, !bind_cons, IH. Qed.

Lemma affine_payload_cells fl c s (g : f32 -> Z) (cell : f32 -> f32) values :
  values <> [] -> has_flag fl FLAG_EMPTY = false ->
  (forall v, -32768 <= g v < 32768) ->
  (forall v, dequantize fl c s (g v) = cell v) ->
  decode_affine_i16 fl c s (values ≫= (fun v => to_le 2 (g v))) (length values) = Ok (cell <$> values).
Proof.
  intros Hne Hfe Hg Hcell. rewrite bind_fmap_to_le, <- (length_fmap g values).
  rewrite decode_affine_dense; [|done|by destruct values|].
  - f_equal. rewrite <- list_fmap_compose. apply list_fmap_ext. intros _ v _. apply Hcell.
  - apply Forall_fmap, list.Forall_forall. intros v _. apply Hg.
Qed.

Lemma decode_encode_affine values c :
  encode_affine_i16 values = Ok c ->
  decode_affine_i16 (ec_flags c) (ec_center c) (ec_scale c) (payload c) (length values)
    = Ok (affine_cell c <$> values).
Proof.
  unfold encode_affine_i16. cbv zeta.
  pose proof (scan_count_le values) as Hle.
  destruct (Nat.eqb_spec (scan_count (scan_values values)) 0) as [Hc|Hc].
  { intros [= <-]. unfold decode_affine_i16. simpl. f_equal. symmetry.
    by apply fmap_replicate_const. }
  assert (values <> []) as Hne by (intros ->; by apply Hc).
  destruct (f32_leb _ F32_EPSILON); [destruct (has_missing _) eqn:Hm|destruct (_ || _); [done|]];
    intros [= <-]; cbn [ec_flags ec_center ec_scale payload].
  - apply affine_payload_cells; auto.
    + intros v. destruct (is_finite v); unfold MISSING_Q; lia.
    + intros v. unfold affine_cell, dequantize. cbn [ec_flags]. by destruct (is_finite v).
  - unfold decode_affine_i16. simpl. f_equal. symmetry. apply fmap_replicate_const.
    intros v Hv. unfold affine_cell. simpl. by rewrite (scan_no_missing _ Hm).
  - set (c := affine_center _ _). set (s := affine_scale _ _).
    apply affine_payload_cells; auto.
    + by destruct (has_missing _).
    + intros v. pose proof (quantize_range c s v). unfold Q_MIN, Q_MAX in *.
      destruct (is_finite v); unfold MISSING_Q; lia.
    + intros v. unfold affine_cell, dequantize. cbn [ec_flags ec_center ec_scale].
      assert (has_flag (if has_missing (scan_values values) then FLAG_HAS_MISSING else 0) FLAG_EMPTY
        = false) as -> by (by destruct (has_missing _)).
      assert (has_flag (if has_missing (scan_values values) then FLAG_HAS_MISSING else 0) FLAG_CONSTANT
        = false) as -> by (by destruct (has_missing _)).
      destruct (is_finite v); [|done]. pose proof (quantize_range c s v).
      unfold Q_MIN, MISSING_Q in *. destruct (Z.eqb_spec (quantize c s v) (-32768)); [lia|done].
Qed.

Lemma encode_affine_shape values c :
  encode_affine_i16 values = Ok c -> chunk_shape 2 (length values) c.
Proof.
  unfold encode_affine_i16, chunk_shape. cbv zeta. pose proof (scan_count_le values).
  destruct (Nat.eqb_spec (scan_count (scan_values values)) 0) as [Hc|Hc];
    [intros [= <-]; left; auto|].
  destruct (f32_leb _ F32_EPSILON); [destruct (has_missing _) eqn:Hm|destruct (_ || _); [done|]];
    intros [= <-]; cbn [ec_flags payload]; [right|left; auto|right];
    (rewrite (length_bind_const 2) by done);
    (split_and!; [|done|lia]); auto. destruct (has_missing _); auto.
Qed.

Lemma encode_affine_count values c :
  encode_affine_i16 values = Ok c -> 0 <= ec_valid_count c <= Z.of_nat (length values).
Proof.
  unfold encode_affine_i16. cbv zeta. pose proof (scan_count_le values).
  assert (0 <= Z.of_nat (scan_count (scan_values values)) mod u32_limit
            <= Z.of_nat (length values)).
  { split; [apply Z.mod_pos_bound; done|].
    etransitivity; [apply Z.mod_le; unfold u32_limit; lia|lia]. }
  intros Hc. repeat case_match; simplify_eq; simpl; lia.
Qed.

Lemma encode_affine_no_panic values : encode_affine_i16 values <> Panic.
Proof. unfold encode_affine_i16. repeat case_match; done. Qed.
End roundtrip.

(** ** Properties *)

Section properties.
Context `{F32Ties}.

(** The 2D lane is lossless. A tile with at least one finite value, in
    which positive and negative zero do not both occur, decodes to exactly
    the bits that were encoded, NaN payloads and infinities included, for
    every way the platform may break [min]/[max] ties. *)
Theorem f32_tile_lossless values :
  (exists v, v ∈ values /\ is_finite v = true) ->
  (forall u v, u ∈ values -> v ∈ values -> key u = 0 -> key v = 0 -> u = v) ->
  let c := encode_f32_tile values in
  decode_f32_tile (ec_flags c) (ec_center c) (payload c) (length values) = Ok values.
Proof.
  intros Hfin Hzero. cbv zeta. rewrite decode_encode_f32. by rewrite tile_decoded_id.
Qed.

(** C38: the chunk that [encode_f32_tile] makes of any values decodes, to as
    many values, and each of them is the value that was encoded, bit for bit,
    or a zero in place of a zero, whose sign was unified, or [NAN] in place of
    a value of a tile that has no finite value. *)
Theorem f32_tile_roundtrip values :
  let c := encode_f32_tile values in
  exists out, decode_f32_tile (ec_flags c) (ec_center c) (payload c) (length values) = Ok out /\
    Forall2 (fun v o => o = v \/ (key v = 0 /\ key o = 0) \/
      (o = NAN /\ forall u, u ∈ values -> is_finite u = false)) values out.
Proof.
  cbv zeta. exists (tile_decoded values). split; [apply decode_encode_f32|apply tile_decoded_cells].
Qed.

(** C39: a column chunk encoded by the affine codec decodes, to one value per
    source value: [NAN] for every non-finite one, and for every finite one
    the centre of a constant chunk or [center + scale * q] for the quantised
    value [q] of that cell; a chunk that holds a finite value is never marked
    EMPTY, and no quantised value can collide with the missing sentinel. *)
Theorem affine_roundtrip values c :
  encode_affine_i16 values = Ok c ->
  decode_affine_i16 (ec_flags c) (ec_center c) (ec_scale c) (payload c) (length values)
    = Ok (affine_cell c <$> values) /\
  (forall v, v ∈ values -> is_finite v = true ->
     has_flag (ec_flags c) FLAG_EMPTY = false /\
     MISSING_Q < quantize (ec_center c) (ec_scale c) v <= Q_MAX).
Proof.
  intros Henc. split; [by apply decode_encode_affine|]. intros v Hv Hf. split.
  - revert Henc. unfold encode_affine_i16. cbv zeta.
    destruct (Nat.eqb_spec (scan_count (scan_values values)) 0) as [Hc|Hc].
    { pose proof (scan_count_zero _ Hc v Hv). congruence. }
    intros. repeat case_match; by simplify_eq.
  - pose proof (quantize_range (ec_center c) (ec_scale c) v).
    unfold MISSING_Q, Q_MIN in *. lia.
Qed.
End properties.

(** *** Concrete runs *)

(** A platform whose [min] and [max] keep the left argument of a tie. *)
#[local] Instance left_ties : F32Ties :=
  {| min_takes_left := fun _ _ => true; max_takes_left := fun _ _ => true |}.

(** 273.15, a NaN with a payload, -0.5 and +infinity. *)
Definition sample_tile : list f32 :=
  [from_bits 0x43889333; from_bits 0x7fc00123; from_bits 0xbf000000; INFINITY].

Lemma f32_tile_lossless_witness :
  let c := encode_f32_tile sample_tile in
  decode_f32_tile (ec_flags c) (ec_center c) (payload c) 4 = Ok sample_tile.
Proof.
  apply (f32_tile_lossless sample_tile).
  - exists (from_bits 0x43889333). split; [left|reflexivity].
  - intros u v Hu Hv Hku Hkv. exfalso.
    assert (forall w, w ∈ sample_tile -> key w <> 0) as Hk.
    { apply list.Forall_forall. unfold sample_tile. repeat constructor; vm_compute; discriminate. }
    by apply (Hk u).
Defined.

Lemma affine_roundtrip_witness : exists c,
  encode_affine_i16 sample_tile = Ok c /\
  decode_affine_i16 (ec_flags c) (ec_center c) (ec_scale c) (payload c) 4
    = Ok (affine_cell c <$> sample_tile).
Proof.
  destruct (encode_affine_i16 sample_tile) as [c| |] eqn:Hc; [|vm_compute in Hc; discriminate..].
  exists c. split; [done|]. exact (proj1 (affine_roundtrip sample_tile c Hc)).
Defined.

(** The sign of a zero is lost when both zeros fill a tile, however the
    platform breaks the tie. *)
Lemma mixed_zeros_collapse `{F32Ties} :
  let z := [f32_zero; from_bits 0x80000000] in
  let c := encode_f32_tile z in
  decode_f32_tile (ec_flags c) (ec_center c) (payload c) 2 <> Ok z.
Proof.
  cbv zeta. set (z := [f32_zero; _]).
  rewrite (decode_encode_f32 z).
  pose proof (scan_values_inv z) as (Hn1 & Hn2 & Hcount & Hmiss & _ & Hin & _).
  change (existsb _ _) with false in Hmiss.
  assert (scan_count (scan_values z) <> 0%nat) as Hc by (rewrite Hcount; discriminate).
  destruct (Hin Hc) as (Hmin & Hmax & _).
  assert (forall w, w ∈ z -> key w = 0) as Hk.
  { apply list.Forall_forall. subst z. repeat constructor; reflexivity. }
  unfold tile_decoded. rewrite Hmiss. apply Nat.eqb_neq in Hc. rewrite Hc.
  unfold f32_eqb, ordered. rewrite Hn1, Hn2, (Hk _ Hmin), (Hk _ Hmax).
  simpl. intros [= H1 H2]. by rewrite H1 in H2.
Qed.

(** A chunk that spans the whole finite range decodes to infinities: the
    rounded scale times [Q_MAX] overflows. *)
Lemma extreme_range_overflows :
  (c ← encode_affine_i16 [from_bits 0xff7fffff; from_bits 0x7f7fffff];
   decode_affine_i16 (ec_flags c) (ec_center c) (ec_scale c) (payload c) 2)
  = Ok [NEG_INFINITY; INFINITY].
Proof. vm_compute. reflexivity. Qed.
