(* ===== verification/TileCache.v ===== *)
(** * The decoded-tile cache

    [DecodedTileCache] of [crates/rw-store/src/reader.rs]: a byte-bounded
    least-recently-used map from tile keys to decoded values, with its
    counters. Each method is one critical section of the reader's mutex, so
    an interleaving of readers is a sequence of these operations. *)
From stdpp Require Import base list gmap strings numbers.
From Stdlib Require Import ZArith Lia.
From S2P Require Import Prelude F32 Format.

Local Open Scope Z_scope.

(** [TileCacheKey]: (kind, var_id, tile_y, tile_x). *)
Abbreviation TileCacheKey := (Z * Z * Z * Z)%type.

Record CachedTile := { ct_values : list f32; ct_bytes : Z; last_used : Z }.

Record DecodedTileCache := {
  capacity_bytes : Z;
  cache_bytes : Z;
  clock : Z;
  hits : Z;
  misses : Z;
  insertions : Z;
  evictions : Z;
  entries : gmap TileCacheKey CachedTile
}.

Record TileCacheStats := {
  st_hits : Z; st_misses : Z; st_insertions : Z; st_evictions : Z;
  st_entries : nat; st_bytes : Z; st_capacity_bytes : Z
}.

(** [DecodedTileCache::new]. *)
Definition cache_new (capacity : Z) : DecodedTileCache :=
  {| capacity_bytes := capacity; cache_bytes := 0; clock := 0; hits := 0; misses := 0;
     insertions := 0; evictions := 0; entries := ∅ |}.

(** [next_stamp]: [wrapping_add]. *)
Definition next_stamp (c : DecodedTileCache) : Z * DecodedTileCache :=
  let t := (clock c + 1) mod u64_limit in
  (t, {| capacity_bytes := capacity_bytes c; cache_bytes := cache_bytes c; clock := t;
         hits := hits c; misses := misses c; insertions := insertions c;
         evictions := evictions c; entries := entries c |}).

(** [entry.last_used = stamp]. *)
Definition touch (t : Z) (e : CachedTile) : CachedTile :=
  {| ct_values := ct_values e; ct_bytes := ct_bytes e; last_used := t |}.

(** [DecodedTileCache::get]. *)
Definition cache_get (k : TileCacheKey) (c : DecodedTileCache)
    : option (list f32) * DecodedTileCache :=
  let '(stamp, c) := next_stamp c in
  match entries c !! k with
  | Some e =>
      (Some (ct_values e),
       {| capacity_bytes := capacity_bytes c; cache_bytes := cache_bytes c; clock := clock c;
          hits := saturating_add (hits c) 1; misses := misses c; insertions := insertions c;
          evictions := evictions c; entries := <[k := touch stamp e]> (entries c) |})
  | None =>
      (None,
       {| capacity_bytes := capacity_bytes c; cache_bytes := cache_bytes c; clock := clock c;
          hits := hits c; misses := saturating_add (misses c) 1; insertions := insertions c;
          evictions := evictions c; entries := entries c |})
  end.

(** [entries.iter().min_by_key(|(_, entry)| entry.last_used)]: the first
    minimum in the map's iteration order. *)
Definition older (a : TileCacheKey * CachedTile) (o : option (TileCacheKey * CachedTile)) :=
  match o with
  | None => Some a
  | Some b => if last_used a.2 <=? last_used b.2 then Some a else Some b
  end.
Definition oldest (m : gmap TileCacheKey CachedTile) : option (TileCacheKey * CachedTile) :=
  foldr older None (map_to_list m).

(** The body of the eviction loop once a victim [k] is chosen. *)
Definition evict_one (k : TileCacheKey) (c : DecodedTileCache) : DecodedTileCache :=
  match entries c !! k with
  | Some removed =>
      {| capacity_bytes := capacity_bytes c;
         cache_bytes := saturating_sub (cache_bytes c) (ct_bytes removed);
         clock := clock c; hits := hits c; misses := misses c; insertions := insertions c;
         evictions := saturating_add (evictions c) 1; entries := delete k (entries c) |}
  | None => c
  end.

(** [while self.bytes.saturating_add(bytes) > self.capacity_bytes { .. }]. *)
Fixpoint evict_loop (fuel : nat) (need : Z) (c : DecodedTileCache) : DecodedTileCache :=
  match fuel with
  | O => c
  | S fuel =>
      if capacity_bytes c <? saturating_add (cache_bytes c) need then
        match oldest (entries c) with
        | Some (k, _) => evict_loop fuel need (evict_one k c)
        | None => c
        end
      else c
  end.

(** [DecodedTileCache::insert]; [reserved] is the outcome of
    [self.entries.try_reserve(1)]. The loop removes an entry per round, so
    one round per entry is enough. *)
Definition cache_insert (reserved : bool) (k : TileCacheKey) (values : list f32)
    (c : DecodedTileCache) : list f32 * DecodedTileCache :=
  let '(stamp, c) := next_stamp c in
  match entries c !! k with
  | Some existing =>
      (ct_values existing,
       {| capacity_bytes := capacity_bytes c; cache_bytes := cache_bytes c; clock := clock c;
          hits := hits c; misses := misses c; insertions := insertions c;
          evictions := evictions c; entries := <[k := touch stamp existing]> (entries c) |})
  | None =>
      let need := saturating_mul (Z.of_nat (length values)) 4 in
      if (capacity_bytes c =? 0) || (capacity_bytes c <? need) then (values, c)
      else if negb reserved then (values, c)
      else
        let c := evict_loop (S (size (entries c))) need c in
        (values,
         {| capacity_bytes := capacity_bytes c; cache_bytes := saturating_add (cache_bytes c) need;
            clock := clock c; hits := hits c; misses := misses c;
            insertions := saturating_add (insertions c) 1; evictions := evictions c;
            entries := <[k := {| ct_values := values; ct_bytes := need; last_used := stamp |}]>
                         (entries c) |})
  end.

(** [DecodedTileCache::clear] and [stats]. *)
Definition cache_clear (c : DecodedTileCache) : DecodedTileCache := cache_new (capacity_bytes c).
Definition cache_stats (c : DecodedTileCache) : TileCacheStats :=
  {| st_hits := hits c; st_misses := misses c; st_insertions := insertions c;
     st_evictions := evictions c; st_entries := size (entries c); st_bytes := cache_bytes c;
     st_capacity_bytes := capacity_bytes c |}.

(** ** Invariant *)

Definition total_bytes (m : gmap TileCacheKey CachedTile) : Z :=
  map_fold (fun _ e acc => ct_bytes e + acc) 0 m.

(** The recorded size is the exact sum, never above the capacity. (A capacity
    of [usize::MAX] itself would let the saturating sum hide an overflow.) *)
Definition cache_ok (c : DecodedTileCache) : Prop :=
  0 <= capacity_bytes c < U64_MAX /\
  cache_bytes c = total_bytes (entries c) /\
  cache_bytes c <= capacity_bytes c /\
  map_Forall (fun _ e => ct_bytes e = saturating_mul (Z.of_nat (length (ct_values e))) 4) (entries c).

(** Every cached tile is what [src] decodes for its key. *)
Definition coherent (src : TileCacheKey -> option (list f32)) (c : DecodedTileCache) : Prop :=
  map_Forall (fun k e => src k = Some (ct_values e)) (entries c).

(** One critical section of some reader thread. *)
Inductive cache_step (src : TileCacheKey -> option (list f32))
  : DecodedTileCache -> DecodedTileCache -> Prop :=
| step_get c k : cache_step src c (cache_get k c).2
| step_insert c k v reserved :
    src k = Some v -> cache_step src c (cache_insert reserved k v c).2
| step_clear c : cache_step src c (cache_clear c).

(** ** Lemmas *)

Lemma saturating_mul_nonneg a b : 0 <= a -> 0 <= b -> 0 <= saturating_mul a b.
Proof. unfold saturating_mul, U64_MAX. intros. assert (0 <= a * b) by nia. lia. Qed.

Lemma total_bytes_insert m k e :
  m !! k = None -> total_bytes (<[k := e]> m) = ct_bytes e + total_bytes m.
Proof. intros. unfold total_bytes. rewrite map_fold_insert_L; [done|intros; lia|done]. Qed.

Lemma total_bytes_delete m k e :
  m !! k = Some e -> total_bytes m = ct_bytes e + total_bytes (delete k m).
Proof. intros. unfold total_bytes. rewrite (map_fold_delete_L _ _ k e m); [done|intros; lia|done]. Qed.

Lemma total_bytes_touch m k e t :
  m !! k = Some e -> total_bytes (<[k := touch t e]> m) = total_bytes m.
Proof.
  intros Hk. rewrite (total_bytes_delete m k e Hk), <- insert_delete_eq.
  rewrite total_bytes_insert by apply lookup_delete_eq. done.
Qed.

Lemma total_bytes_nonneg m :
  map_Forall (fun _ e => 0 <= ct_bytes e) m -> 0 <= total_bytes m.
Proof.
  induction m as [|k e m Hk IH] using map_ind; intros Hm; [done|].
  rewrite total_bytes_insert by done.
  apply map_Forall_insert in Hm as [? ?]; [|done]. specialize (IH ltac:(done)). lia.
Qed.

Lemma cache_ok_nonneg c : cache_ok c -> map_Forall (fun _ e => 0 <= ct_bytes e) (entries c).
Proof.
  intros (_ & _ & _ & He). eapply map_Forall_impl; [exact He|].
  intros k e ->. apply saturating_mul_nonneg; lia.
Qed.

Lemma oldest_spec m k e : oldest m = Some (k, e) ->
  m !! k = Some e /\ forall k' e', m !! k' = Some e' -> last_used e <= last_used e'.
Proof.
  unfold oldest. intros H.
  assert (forall l, (forall o, foldr older None l = Some o ->
    o ∈ l /\ forall p, p ∈ l -> last_used o.2 <= last_used p.2)) as Hl.
  { induction l as [|a l IH]; [done|]. intros o. simpl. unfold older at 1.
    destruct (foldr older None l) as [b|] eqn:Hb.
    - destruct (IH b eq_refl) as [Hin Hmin].
      destruct (Z.leb_spec (last_used a.2) (last_used b.2)); intros [= <-].
      + split; [by left|]. intros p [->|Hp]%elem_of_cons; [lia|]. specialize (Hmin p Hp). lia.
      + split; [by right|]. intros p [->|Hp]%elem_of_cons; [lia|auto].
    - intros [= <-]. split; [by left|]. intros p [->|Hp]%elem_of_cons; [lia|].
      destruct l as [|b l]; [by apply not_elem_of_nil in Hp|]. simpl in Hb. unfold older in Hb at 1.
      repeat case_match; done. }
  destruct (Hl _ _ H) as [Hin Hmin]. split; [by apply elem_of_map_to_list|].
  intros k' e' Hk'. apply (Hmin (k', e')). by apply elem_of_map_to_list.
Qed.

Lemma oldest_None m : oldest m = None -> m = ∅.
Proof.
  unfold oldest. intros H. apply map_to_list_empty_iff.
  destruct (map_to_list m) as [|a l]; [done|]. simpl in H. unfold older in H at 1.
  repeat case_match; done.
Qed.

Lemma evict_one_ok k e c :
  cache_ok c -> entries c !! k = Some e ->
  cache_ok (evict_one k c) /\ entries (evict_one k c) = delete k (entries c) /\
  capacity_bytes (evict_one k c) = capacity_bytes c /\ clock (evict_one k c) = clock c.
Proof.
  intros Hok Hk. pose proof (cache_ok_nonneg _ Hok) as Hnn.
  destruct Hok as (Hcap & Hb & Hle & He). unfold evict_one. rewrite Hk. simpl.
  split_and!; auto. unfold cache_ok. simpl.
  assert (map_Forall (fun _ e => 0 <= ct_bytes e) (delete k (entries c))) as Hnd
    by (by apply map_Forall_delete).
  pose proof (total_bytes_nonneg _ Hnd).
  pose proof (total_bytes_delete _ _ _ Hk). pose proof (Hnn k e Hk) as Hek. simpl in Hek.
  unfold saturating_sub. split_and!; try lia. by apply map_Forall_delete.
Qed.

(** The eviction loop frees the room it was asked for, touches nothing but
    the evicted entries, and evicts in least-recently-used order. *)
Lemma evict_loop_spec fuel need c :
  cache_ok c -> 0 <= need <= capacity_bytes c -> (size (entries c) < fuel)%nat ->
  let c' := evict_loop fuel need c in
  cache_ok c' /\ capacity_bytes c' = capacity_bytes c /\ clock c' = clock c /\
  entries c' ⊆ entries c /\
  cache_bytes c' + need <= capacity_bytes c /\
  (forall k e k' e', entries c !! k = Some e -> entries c' !! k = None ->
     entries c' !! k' = Some e' -> last_used e <= last_used e').
Proof.
  revert c. induction fuel as [|fuel IH]; intros c Hok Hneed Hfuel; [lia|]. simpl.
  pose proof Hok as (Hcap & Hb & Hle & He).
  pose proof (total_bytes_nonneg _ (cache_ok_nonneg _ Hok)) as Hnn.
  destruct (Z.ltb_spec (capacity_bytes c) (saturating_add (cache_bytes c) need)) as [Hlt|Hge].
  2:{ unfold saturating_add, U64_MAX in *. split_and!; try done; try lia. intros. congruence. }
  destruct (oldest (entries c)) as [[k0 e0]|] eqn:Hold.
  2:{ apply oldest_None in Hold. rewrite Hold in *. unfold total_bytes in Hb.
      rewrite map_fold_empty in Hb. unfold saturating_add, U64_MAX in *. lia. }
  apply oldest_spec in Hold as [Hk0 Hmin].
  destruct (evict_one_ok k0 e0 c Hok Hk0) as (Hok1 & He1 & Hc1 & Ht1).
  destruct (IH (evict_one k0 c) Hok1) as (Hok2 & Hcap2 & Hclk2 & Hsub & Hroom & Hlru).
  { lia. }
  { rewrite He1. rewrite (map_size_delete_Some k0) by (by exists e0).
    assert (size (entries c) <> 0%nat); [|lia].
    intros Hz. apply map_size_empty_inv in Hz. rewrite Hz in Hk0. done. }
  rewrite He1 in Hsub, Hlru. rewrite Hc1 in *. rewrite Ht1 in *.
  split_and!; [done|done|done| |done|].
  - etransitivity; [exact Hsub|]. apply delete_subseteq.
  - intros k e k' e' Hk Hk' Hin'. destruct (decide (k = k0)) as [->|Hne].
    + simplify_eq. eapply Hmin, lookup_weaken; [exact Hin'|].
      etransitivity; [exact Hsub|apply delete_subseteq].
    + eapply Hlru; eauto. by rewrite lookup_delete_ne.
Qed.

Lemma evict_loop_sub fuel need c : entries (evict_loop fuel need c) ⊆ entries c.
Proof.
  revert c. induction fuel as [|fuel IH]; intros c; simpl; [done|].
  case_match; [|done]. destruct (oldest _) as [[k e]|]; [|done].
  etransitivity; [apply IH|]. unfold evict_one. destruct (entries c !! k); [|done].
  simpl. apply delete_subseteq.
Qed.

#[local] Arguments evict_loop : simpl never.

Lemma cache_new_ok cap : 0 <= cap < U64_MAX -> cache_ok (cache_new cap).
Proof.
  intros. unfold cache_ok, cache_new, total_bytes. simpl. rewrite map_fold_empty.
  split_and!; try lia. apply map_Forall_empty.
Qed.

Lemma cache_get_ok k c : cache_ok c -> cache_ok (cache_get k c).2.
Proof.
  intros (Hcap & Hb & Hle & He). unfold cache_get, next_stamp. simpl.
  destruct (entries c !! k) as [e|] eqn:Hk; simpl; unfold cache_ok; simpl; [|auto].
  rewrite (total_bytes_touch _ _ _ _ Hk). split_and!; try done; try lia.
  apply map_Forall_insert_2; [|done]. exact (He k e Hk).
Qed.

Lemma cache_insert_ok reserved k v c : cache_ok c -> cache_ok (cache_insert reserved k v c).2.
Proof.
  intros Hok. pose proof Hok as (Hcap & Hb & Hle & He). unfold cache_insert, next_stamp. simpl.
  destruct (entries c !! k) as [e|] eqn:Hk; simpl.
  { unfold cache_ok. simpl. rewrite (total_bytes_touch _ _ _ _ Hk). split_and!; try done; try lia.
    apply map_Forall_insert_2; [|done]. exact (He k e Hk). }
  set (need := saturating_mul _ _). set (c1 := Build_DecodedTileCache _ _ _ _ _ _ _ _).
  destruct (_ || _) eqn:Hfit; [done|]. destruct (negb reserved); [done|].
  apply orb_false_iff in Hfit as [_ Hfit%Z.ltb_ge].
  assert (0 <= need) by (apply saturating_mul_nonneg; lia).
  destruct (evict_loop_spec (S (size (entries c))) need c1) as (Hok2 & Hcap2 & _ & Hsub & Hroom & _);
    [done|subst c1; simpl; lia|subst c1; simpl; lia|].
  destruct (evict_loop _ need c1) as [cap2 b2 t2 h2 m2 i2 ev2 es2]; simpl in *.
  destruct Hok2 as (_ & Hb2 & _ & He2); simpl in *. unfold cache_ok. simpl.
  assert (es2 !! k = None) as Hk2.
  { destruct (es2 !! k) eqn:Hes; [|done]. eapply lookup_weaken in Hes; [|exact Hsub].
    simpl in Hes. congruence. }
  rewrite total_bytes_insert by done. simpl. unfold saturating_add, U64_MAX in *.
  split_and!; try lia. apply map_Forall_insert_2; done.
Qed.

Lemma coherent_touch src k e t c :
  coherent src c -> entries c !! k = Some e -> map_Forall (fun k e => src k = Some (ct_values e))
    (<[k := touch t e]> (entries c)).
Proof. intros Hc Hk. apply map_Forall_insert_2; [exact (Hc k e Hk)|done]. Qed.

Lemma cache_get_coherent src k c :
  coherent src c -> coherent src (cache_get k c).2 /\
  forall v, (cache_get k c).1 = Some v -> src k = Some v.
Proof.
  intros Hc. unfold cache_get, next_stamp. simpl.
  destruct (entries c !! k) as [e|] eqn:Hk; simpl.
  - split; [by apply coherent_touch|]. intros v [= <-]. exact (Hc k e Hk).
  - split; [done|done].
Qed.

Lemma cache_insert_coherent src reserved k v c :
  coherent src c -> src k = Some v ->
  coherent src (cache_insert reserved k v c).2 /\ (cache_insert reserved k v c).1 = v.
Proof.
  intros Hc Hv. unfold cache_insert, next_stamp. simpl.
  destruct (entries c !! k) as [e|] eqn:Hk; simpl.
  { split; [by apply coherent_touch|]. specialize (Hc k e Hk). simpl in Hc. congruence. }
  set (need := saturating_mul _ _). set (c1 := Build_DecodedTileCache _ _ _ _ _ _ _ _).
  destruct (_ || _); [done|]. destruct (negb reserved); [done|].
  split; [|done]. unfold coherent. cbn [entries snd].
  apply map_Forall_insert_2; [done|].
  pose proof (evict_loop_sub (S (size (entries c))) need c1) as Hsub.
  intros k' e' Hk'. apply (Hc k' e'). eapply lookup_weaken in Hk'; [|exact Hsub]. done.
Qed.

Lemma cache_step_inv src c c' :
  cache_step src c c' -> cache_ok c /\ coherent src c -> cache_ok c' /\ coherent src c'.
Proof.
  intros Hstep [Hok Hco]. destruct Hstep as [c k|c k v reserved Hv|c].
  - split; [by apply cache_get_ok|by apply cache_get_coherent].
  - split; [by apply cache_insert_ok|by apply cache_insert_coherent].
  - split; [|apply map_Forall_empty]. destruct Hok as [? _]. by apply cache_new_ok.
Qed.

Lemma cache_reachable_inv src c c' :
  rtc (cache_step src) c c' -> cache_ok c /\ coherent src c -> cache_ok c' /\ coherent src c'.
Proof. induction 1; eauto using cache_step_inv. Qed.

(** ** Properties *)

(** C40: whatever sequence of lookups, insertions of decoded tiles and clears
    the reader threads interleave, the cache of a reader stays within its
    byte capacity, its byte counter is exactly the sum of its entries, and a
    hit always returns what decoding that tile returns. *)
Theorem cache_bounded_and_coherent src cap c :
  0 <= cap < U64_MAX -> rtc (cache_step src) (cache_new cap) c ->
  cache_bytes c = total_bytes (entries c) /\ cache_bytes c <= capacity_bytes c /\
  forall k v, (cache_get k c).1 = Some v -> src k = Some v.
Proof.
  intros Hcap Hrtc.
  destruct (cache_reachable_inv src _ _ Hrtc) as [(_ & Hb & Hle & _) Hco].
  - split; [by apply cache_new_ok|apply map_Forall_empty].
  - split_and!; auto. intros k v. by apply cache_get_coherent.
Qed.

(** Inserting a tile that fits keeps it, leaves the surviving entries as
    they were, and evicts only entries that were used no later than every
    survivor. *)
Theorem cache_insert_evicts_lru k v c :
  cache_ok c -> entries c !! k = None -> capacity_bytes c <> 0 ->
  saturating_mul (Z.of_nat (length v)) 4 <= capacity_bytes c ->
  let c' := (cache_insert true k v c).2 in
  ct_values <$> entries c' !! k = Some v /\
  (forall k2 e2, k2 <> k -> entries c' !! k2 = Some e2 -> entries c !! k2 = Some e2) /\
  (forall k1 e1 k2 e2, entries c !! k1 = Some e1 -> entries c' !! k1 = None ->
     k2 <> k -> entries c' !! k2 = Some e2 -> last_used e1 <= last_used e2).
Proof.
  intros Hok Hk Hcap Hfit. unfold cache_insert, next_stamp. cbn [entries capacity_bytes].
  rewrite Hk. set (need := saturating_mul _ _) in *.
  set (c1 := Build_DecodedTileCache _ _ _ _ _ _ _ _).
  apply Z.eqb_neq in Hcap. rewrite Hcap.
  assert (0 <= need) by (apply saturating_mul_nonneg; lia).
  destruct (Z.ltb_spec (capacity_bytes c) need); [lia|]. cbn [orb negb snd entries].
  destruct (evict_loop_spec (S (size (entries c))) need c1) as (_ & _ & _ & Hsub & _ & Hlru);
    [done|subst c1; simpl; lia|subst c1; simpl; lia|].
  split_and!.
  - by rewrite lookup_insert_eq.
  - intros k2 e2 Hne. rewrite lookup_insert_ne by done. intros He2. by eapply lookup_weaken.
  - intros k1 e1 k2 e2 He1 Hgone Hne. rewrite lookup_insert_ne by done.
    destruct (decide (k1 = k)) as [->|Hne1]; [congruence|].
    rewrite lookup_insert_ne in Hgone by done. intros He2. by apply (Hlru k1 e1 k2 e2).
Qed.

(** *** Concrete runs *)

Definition demo_src : TileCacheKey -> option (list f32) :=
  fun k => Some (replicate (Z.to_nat k.2) f32_one).

Lemma cache_bounded_and_coherent_witness : exists c,
  rtc (cache_step demo_src) (cache_new 8) c /\
  (entries c !! (0, 0, 0, 2) = None /\ is_Some (entries c !! (0, 0, 0, 1))) /\
  cache_bytes c <= capacity_bytes c.
Proof.
  assert (rtc (cache_step demo_src) (cache_new 8)
    (cache_insert true (0, 0, 0, 1) (replicate 1 f32_one)
      (cache_insert true (0, 0, 0, 2) (replicate 2 f32_one) (cache_new 8)).2).2) as Hrtc.
  { eapply rtc_l; [by apply (step_insert demo_src _ (0, 0, 0, 2) (replicate 2 f32_one) true)|].
    apply rtc_once. by apply (step_insert demo_src _ (0, 0, 0, 1) (replicate 1 f32_one) true). }
  eexists; split; [exact Hrtc|]. split.
  - split; [reflexivity|]. eexists; reflexivity.
  - refine (proj1 (proj2 (cache_bounded_and_coherent demo_src 8 _ _ Hrtc))). unfold U64_MAX. lia.
Defined.

Lemma cache_insert_evicts_lru_witness :
  let c := (cache_insert true (0, 0, 0, 2) (replicate 2 f32_one) (cache_new 8)).2 in
  entries c !! (0, 0, 0, 1) = None /\
  ct_values <$> entries (cache_insert true (0, 0, 0, 1) [f32_one] c).2 !! (0, 0, 0, 1)
    = Some [f32_one].
Proof.
  split; [reflexivity|].
  refine (proj1 (cache_insert_evicts_lru (0, 0, 0, 1) [f32_one] _ _ _ _ _)).
  - apply cache_insert_ok, cache_new_ok. unfold U64_MAX. lia.
  - reflexivity.
  - vm_compute. discriminate.
  - vm_compute. discriminate.
Defined.
