(* ===== verification/Writer.v ===== *)
(** * The hour-file writer

    [crates/rw-store/src/writer.rs]: [HourWriter] stages the encoded chunks
    of each variable, in memory or in a spill file, and [finish] assembles
    header, metadata, sorted index and payload. The rayon [par_iter] maps
    collect in order, so they are ordinary maps here; operating-system
    failures of the spill file and of the final atomic write are left out. *)
From stdpp Require Import base list gmap strings numbers sorting.
From Stdlib Require Import ZArith Lia.
From S2P Require Import Prelude F32 Format Header Index Codec.

Local Open Scope Z_scope.

(** ** State *)

Record StagedChunk := {
  record : ChunkRecord;
  compressed : list byte;
  spill_offset : Z;
  deferred_index : option Z
}.

(** [SpillFile]: the temporary file's bytes and its append cursor. *)
Record SpillFile := { spill_content : list byte; cursor : Z }.

Definition spill_create : SpillFile := {| spill_content := []; cursor := 0 |}.

(** [SpillFile::append]. *)
Definition spill_append (sp : SpillFile) (bytes : list byte) : Z * SpillFile :=
  (cursor sp, {| spill_content := spill_content sp ++ bytes;
                 cursor := cursor sp + Z.of_nat (length bytes) |}).

(** [spill.file.seek(SeekFrom::Start(off)); spill.file.read_exact(&mut buf[..n])]. *)
Definition spill_read (sp : SpillFile) (off : Z) (n : nat) : RwResult (list byte) :=
  let o := Z.to_nat off in
  if bool_decide (o + n <= length (spill_content sp))%nat
  then Ok (take n (drop o (spill_content sp)))
  else Err (Io "failed to fill whole buffer").

Record HourWriter `{JsonValue} := {
  w_model : string;
  w_run : string;
  w_forecast_hour : Z;
  w_exact_time : option RwsExactTime;
  w_nx : nat;
  w_ny : nat;
  w_grid_hash : string;
  writer_build : string;
  w_variables : list RwsVariableMeta;
  deferred_variables : list RwsVariableMeta;
  chunks : list StagedChunk;
  spill_dir : option string;
  spill : option SpillFile
}.

Section writer.
Context `{F32Ties, External}.

(** [HourWriter::new_with_time], [new], [new_exact]. *)
Definition new_with_time (mdl rn : string) (hour : Z) (t : option RwsExactTime)
    (gnx gny : nat) (hash build : string) : HourWriter :=
  {| w_model := mdl; w_run := rn; w_forecast_hour := hour; w_exact_time := t;
     w_nx := gnx; w_ny := gny; w_grid_hash := hash; writer_build := build;
     w_variables := []; deferred_variables := []; chunks := [];
     spill_dir := None; spill := None |}.
Definition hour_writer_new mdl rn hour gnx gny hash build : HourWriter :=
  new_with_time mdl rn hour None gnx gny hash build.
Definition hour_writer_new_exact mdl rn slot t gnx gny hash build : HourWriter :=
  new_with_time mdl rn slot (Some t) gnx gny hash build.

(** [with_spill_dir]. *)
Definition with_spill_dir (dir : string) (w : HourWriter) : HourWriter :=
  {| w_model := w_model w; w_run := w_run w; w_forecast_hour := w_forecast_hour w;
     w_exact_time := w_exact_time w; w_nx := w_nx w; w_ny := w_ny w;
     w_grid_hash := w_grid_hash w; writer_build := writer_build w;
     w_variables := w_variables w; deferred_variables := deferred_variables w;
     chunks := chunks w; spill_dir := Some dir; spill := spill w |}.

(** The writer with new staged chunks and spill file. *)
Definition set_staged (cs : list StagedChunk) (sp : option SpillFile) (w : HourWriter) : HourWriter :=
  {| w_model := w_model w; w_run := w_run w; w_forecast_hour := w_forecast_hour w;
     w_exact_time := w_exact_time w; w_nx := w_nx w; w_ny := w_ny w;
     w_grid_hash := w_grid_hash w; writer_build := writer_build w;
     w_variables := w_variables w; deferred_variables := deferred_variables w;
     chunks := cs; spill_dir := spill_dir w; spill := sp |}.

(** [self.variables.push(var)] and [self.deferred_variables.push(var)]. *)
Definition set_variables (vs ds : list RwsVariableMeta) (w : HourWriter) : HourWriter :=
  {| w_model := w_model w; w_run := w_run w; w_forecast_hour := w_forecast_hour w;
     w_exact_time := w_exact_time w; w_nx := w_nx w; w_ny := w_ny w;
     w_grid_hash := w_grid_hash w; writer_build := writer_build w;
     w_variables := vs; deferred_variables := ds;
     chunks := chunks w; spill_dir := spill_dir w; spill := spill w |}.

(** The loop body of [stage_chunks] when a spill file is open. *)
Definition spill_chunk (st : SpillFile * list StagedChunk) (c : StagedChunk)
    : SpillFile * list StagedChunk :=
  let '(off, sp) := spill_append st.1 (compressed c) in
  (sp, st.2 ++ [{| record := record c; compressed := []; spill_offset := off;
                   deferred_index := deferred_index c |}]).

(** [stage_chunks]: the spill file is created on the first add. *)
Definition stage_chunks (encoded : list StagedChunk) (w : HourWriter) : HourWriter :=
  let sp := match spill_dir w, spill w with
            | Some _, None => Some spill_create
            | _, sp => sp
            end in
  match sp with
  | Some sp =>
      let '(sp, cs) := fold_left spill_chunk encoded (sp, chunks w) in
      set_staged cs (Some sp) w
  | None => set_staged (chunks w ++ encoded) None w
  end.

(** ** Adding variables *)

(** [next_var_id]. *)
Definition next_var_id (w : HourWriter) (name : string) : RwResult Z :=
  if existsb (fun v => bool_decide (var_name v = name)) (w_variables w ++ deferred_variables w)
  then Err (Format "duplicate variable name '{}'")
  else if Z.of_nat (length (w_variables w)) <? u16_limit
       then Ok (Z.of_nat (length (w_variables w)))
       else Err (Format "too many variables: var id for '{}' exceeds u16").

(** [if payload.is_empty() { Vec::new() } else { zstd::encode_all(..)? }]. *)
Definition compress_payload (bytes : list byte) : RwResult (list byte) :=
  if bool_decide (bytes = []) then Ok [] else zstd_encode_all bytes.

(** The record of a freshly encoded chunk; the offset is assigned by [finish]. *)
Definition make_record (vid knd : Z) (cy cx : nat) (comp : list byte) (c : EncodedChunk)
    : ChunkRecord :=
  {| var_id := vid; kind := knd; flags := ec_flags c;
     tile_y := Z.of_nat cy mod u32_limit; tile_x := Z.of_nat cx mod u32_limit;
     offset := 0; len := Z.of_nat (length comp) mod u32_limit;
     raw_len := Z.of_nat (length (payload c)) mod u32_limit;
     center := ec_center c; scale := ec_scale c; rec_min := ec_min c; rec_max := ec_max c;
     valid_count := ec_valid_count c |}.

(** The tile's values, row by row. *)
Definition gather_tile (gnx gny : nat) (values : list f32) (ty tx : nat) : RwResult (list f32) :=
  let y0 := (ty * TILE_Y)%nat in
  let x0 := (tx * TILE_X)%nat in
  let y1 := Nat.min (y0 + TILE_Y) gny in
  let x1 := Nat.min (x0 + TILE_X) gnx in
  rconcat (rmap (fun y => slice values (y * gnx + x0) (y * gnx + x1)) (seq y0 (y1 - y0))).

(** The closure [add_surface2d] maps over the tile coordinates. *)
Definition encode_tile2d (gnx gny : nat) (vid : Z) (values : list f32) (coord : nat * nat)
    : RwResult StagedChunk :=
  let '(ty, tx) := coord in
  tile_values ← gather_tile gnx gny values ty tx;
  let c := encode_f32_tile tile_values in
  comp ← compress_payload (payload c);
  Ok {| record := make_record vid KIND_TILE2D ty tx comp c; compressed := comp;
        spill_offset := 0; deferred_index := None |}.

(** [add_surface2d]. The product of the dimensions panics when it overflows. *)
Definition add_surface2d (name units : string) (sel : Value) (values : list f32) (w : HourWriter)
    : RwResult (Z * HourWriter) :=
  expected ← or_panic (checked_mul (w_nx w) (w_ny w));
  _ ← reject (negb (length values =? expected)%nat)
        (Format "variable '{}': expected {} values ({} x {}), got {}");
  vid ← next_var_id w name;
  encoded ← rmap (encode_tile2d (w_nx w) (w_ny w) vid values)
              (grid_coords (div_ceil (w_ny w) TILE_Y) (div_ceil (w_nx w) TILE_X));
  let w := stage_chunks encoded w in
  let var := {| var_meta_id := vid; var_name := name; var_units := units; var_kind := "surface2d";
                var_codec := CODEC_2D; levels_hpa := []; selector := sel |} in
  Ok (vid, set_variables (w_variables w ++ [var]) (deferred_variables w) w).

(** [validate_pressure3d]. *)
Definition validate_pressure3d (levels : list Z) (planes : list (list f32)) (w : HourWriter)
    : RwResult unit :=
  _ ← reject (bool_decide (levels = [])) (Format "variable '{}': levels_hpa must not be empty");
  _ ← reject (existsb (fun p => p.1 <=? p.2) (windows2 levels))
        (Format "variable '{}': levels_hpa must be strictly descending, found {} then {}");
  _ ← reject (negb (length planes =? length levels)%nat)
        (Format "variable '{}': {} level planes for {} levels");
  expected ← or_panic (checked_mul (w_nx w) (w_ny w));
  reject (existsb (fun plane => negb (length plane =? expected)%nat) planes)
    (Format "variable '{}' level {} ({} hPa): expected {} values ({} x {}), got {}").

(** The [y][x][z] buffer of a column chunk. *)
Definition gather_columns (gnx gny : nat) (planes : list (list f32)) (cy cx : nat)
    : RwResult (list f32) :=
  let y0 := (cy * COL_Y)%nat in
  let x0 := (cx * COL_X)%nat in
  let y1 := Nat.min (y0 + COL_Y) gny in
  let x1 := Nat.min (x0 + COL_X) gnx in
  rconcat (rmap (fun gy => rconcat (rmap (fun gx =>
      rmap (fun plane : list f32 => or_panic (plane !! (gy * gnx + gx)%nat)) planes)
    (seq x0 (x1 - x0)))) (seq y0 (y1 - y0))).

(** The closure [encode_pressure3d_chunks] maps over the chunk coordinates. *)
Definition encode_column (gnx gny : nat) (vid : Z) (didx : option Z) (planes : list (list f32))
    (coord : nat * nat) : RwResult StagedChunk :=
  let '(cy, cx) := coord in
  buffer ← gather_columns gnx gny planes cy cx;
  c ← encode_affine_i16 buffer;
  comp ← compress_payload (payload c);
  Ok {| record := make_record vid KIND_COLUMN3D cy cx comp c; compressed := comp;
        spill_offset := 0; deferred_index := didx |}.

(** [encode_pressure3d_chunks]. *)
Definition encode_pressure3d_chunks (vid : Z) (didx : option Z) (planes : list (list f32))
    (w : HourWriter) : RwResult HourWriter :=
  encoded ← rmap (encode_column (w_nx w) (w_ny w) vid didx planes)
              (grid_coords (div_ceil (w_ny w) COL_Y) (div_ceil (w_nx w) COL_X));
  Ok (stage_chunks encoded w).

Definition pressure_meta (vid : Z) (name units : string) (sel : Value) (levels : list Z)
    : RwsVariableMeta :=
  {| var_meta_id := vid; var_name := name; var_units := units; var_kind := "pressure3d";
     var_codec := CODEC_3D; levels_hpa := levels; selector := sel |}.

(** [add_pressure3d]. *)
Definition add_pressure3d (name units : string) (sel : Value) (levels : list Z)
    (planes : list (list f32)) (w : HourWriter) : RwResult (Z * HourWriter) :=
  _ ← validate_pressure3d levels planes w;
  vid ← next_var_id w name;
  w ← encode_pressure3d_chunks vid None planes w;
  Ok (vid, set_variables (w_variables w ++ [pressure_meta vid name units sel levels])
             (deferred_variables w) w).

(** [add_pressure3d_deferred]. *)
Definition add_pressure3d_deferred (name units : string) (sel : Value) (levels : list Z)
    (planes : list (list f32)) (w : HourWriter) : RwResult HourWriter :=
  _ ← validate_pressure3d levels planes w;
  _ ← next_var_id w name;
  let n := Z.of_nat (length (deferred_variables w)) in
  _ ← reject (negb (n <? u16_limit)) (Format "too many deferred variables: index for '{}' exceeds u16");
  w ← encode_pressure3d_chunks n (Some n) planes w;
  Ok (set_variables (w_variables w)
        (deferred_variables w ++ [pressure_meta n name units sel levels]) w).

(** ** Assembly *)

Definition set_var_id (id : Z) (r : ChunkRecord) : ChunkRecord :=
  {| var_id := id; kind := kind r; flags := flags r; tile_y := tile_y r; tile_x := tile_x r;
     offset := offset r; len := len r; raw_len := raw_len r; center := center r;
     scale := scale r; rec_min := rec_min r; rec_max := rec_max r; valid_count := valid_count r |}.
Definition set_offset (off : Z) (r : ChunkRecord) : ChunkRecord :=
  {| var_id := var_id r; kind := kind r; flags := flags r; tile_y := tile_y r; tile_x := tile_x r;
     offset := off; len := len r; raw_len := raw_len r; center := center r;
     scale := scale r; rec_min := rec_min r; rec_max := rec_max r; valid_count := valid_count r |}.
Definition set_meta_id (id : Z) (v : RwsVariableMeta) : RwsVariableMeta :=
  {| var_meta_id := id; var_name := var_name v; var_units := var_units v; var_kind := var_kind v;
     var_codec := var_codec v; levels_hpa := levels_hpa v; selector := selector v |}.
Definition set_record (r : ChunkRecord) (c : StagedChunk) : StagedChunk :=
  {| record := r; compressed := compressed c; spill_offset := spill_offset c;
     deferred_index := deferred_index c |}.

(** Final ids of the deferred variables. *)
Definition number_deferred (normal_count : nat) (ds : list RwsVariableMeta)
    : RwResult (list RwsVariableMeta) :=
  rmap (fun p : nat * RwsVariableMeta =>
    let id := Z.of_nat normal_count + Z.of_nat p.1 in
    if id <? u16_limit then Ok (set_meta_id id p.2)
    else Err (Format "too many variables: var id for '{}' exceeds u16"))
    (zip (seq 0 (length ds)) ds).

(** [chunk.record.var_id = u16::try_from(normal_count + index).expect(..)]. *)
Definition renumber_chunk (normal_count : nat) (c : StagedChunk) : RwResult StagedChunk :=
  match deferred_index c with
  | Some index =>
      let id := Z.of_nat normal_count + index in
      if id <? u16_limit then Ok (set_record (set_var_id id (record c)) c) else Panic
  | None => Ok c
  end.

(** [sort_by_key(|chunk| chunk.record.sort_key())]: a stable sort. *)
Definition chunk_key (c : StagedChunk) : SortKey := sort_key (record c).
Fixpoint insert_chunk (c : StagedChunk) (l : list StagedChunk) : list StagedChunk :=
  match l with
  | [] => [c]
  | d :: l => if bool_decide (key_lt (chunk_key d) (chunk_key c))
              then d :: insert_chunk c l else c :: d :: l
  end.
Definition sort_chunks (l : list StagedChunk) : list StagedChunk := foldr insert_chunk [] l.

(** [chunk.record.offset = cursor; cursor += chunk.record.len] in order. *)
Fixpoint assign_offsets (cur : Z) (l : list StagedChunk) : list StagedChunk :=
  match l with
  | [] => []
  | c :: l => set_record (set_offset cur (record c)) c :: assign_offsets (cur + len (record c)) l
  end.

(** The bytes one chunk contributes to the payload section. *)
Definition chunk_payload (sp : option SpillFile) (c : StagedChunk) : RwResult (list byte) :=
  if len (record c) =? 0 then Ok []
  else match sp with
       | Some sp => spill_read sp (spill_offset c) (Z.to_nat (len (record c)))
       | None => Ok (compressed c)
       end.

(** The metadata [finish] writes. *)
Definition hour_meta (w : HourWriter) (vars : list RwsVariableMeta) : RwsHourMeta :=
  {| schema := match w_exact_time w with Some _ => SCHEMA_HOUR_V2 | None => SCHEMA_HOUR end;
     model := w_model w; run := w_run w; forecast_hour := w_forecast_hour w;
     meta_lead_seconds := lead_seconds <$> w_exact_time w;
     meta_valid_unix := valid_unix <$> w_exact_time w;
     nx := w_nx w; ny := w_ny w; grid_hash := w_grid_hash w; variables := vars;
     chunking := {| chunk_tile_y := TILE_Y; chunk_tile_x := TILE_X;
                    chunk_col_y := COL_Y; chunk_col_x := COL_X |};
     writer := {| wi_name := "rw-store"; wi_version := CARGO_PKG_VERSION;
                  wi_build := writer_build w |} |}.

(** The end of [finish], from the sort on: the bytes handed to
    [atomic_write_with]. *)
Definition assemble (sp : option SpillFile) (meta : RwsHourMeta) (cs : list StagedChunk)
    : RwResult (list byte) :=
  let cs := sort_chunks cs in
  meta_bytes ← json_to_vec meta;
  _ ← reject (negb (Z.of_nat (length meta_bytes) <? u32_limit)) (Format "meta JSON too large: {} bytes");
  let header := for_layout (Z.of_nat (length meta_bytes)) (Z.of_nat (length cs)) in
  let cs := assign_offsets (payload_offset header) cs in
  let record_buf := fold_left (fun buf c => pack_into (record c) buf) cs [] in
  payloads ← rmap (chunk_payload sp) cs;
  Ok (pack header ++ meta_bytes ++ record_buf ++ mjoin payloads).

(** [finish]: the file's bytes and its metadata. *)
Definition finish (w : HourWriter) : RwResult (list byte * RwsHourMeta) :=
  _ ← reject ((w_nx w =? 0)%nat || (w_ny w =? 0)%nat)
        (Format "degenerate grid {}x{} (nx and ny must be nonzero)");
  _ ← reject (match w_exact_time w with Some t => negb (bool_decide (is_Some (origin_unix t))) | None => false end)
        (Meta "exact hour cannot represent valid_unix - lead_seconds");
  let normal_count := length (w_variables w) in
  deferred ← number_deferred normal_count (deferred_variables w);
  cs ← rmap (renumber_chunk normal_count) (chunks w);
  let meta := hour_meta w (w_variables w ++ deferred) in
  bytes ← assemble (spill w) meta cs;
  Ok (bytes, meta).

(** ** Sequences of adds *)

(** One call on the writer. *)
Inductive AddOp :=
| AddSurface (name units : string) (sel : Value) (values : list f32)
| AddPressure (name units : string) (sel : Value) (levels : list Z) (planes : list (list f32))
| AddDeferred (name units : string) (sel : Value) (levels : list Z) (planes : list (list f32)).

Definition run_op (w : HourWriter) (op : AddOp) : RwResult HourWriter :=
  match op with
  | AddSurface name units sel values => snd <$> add_surface2d name units sel values w
  | AddPressure name units sel levels planes => snd <$> add_pressure3d name units sel levels planes w
  | AddDeferred name units sel levels planes => add_pressure3d_deferred name units sel levels planes w
  end.

Definition run_ops (ops : list AddOp) (w : HourWriter) : RwResult HourWriter := rfold run_op ops w.
End writer.
