(* ===== verification/Reader.v ===== *)
(** * The hour-file reader: opening, validation, lookup, chunk decoding

    The first half of [crates/rw-store/src/reader.rs]: size ceilings, header
    and metadata preflight, index validation, the per-variable record
    ranges, the binary search for a chunk's record, and the bounded
    decompression of one chunk. *)
From stdpp Require Import base list gmap strings numbers.
From Stdlib Require Import ZArith Lia.
From S2P Require Import Prelude F32 Format Header Index Codec TileCache.

Local Open Scope Z_scope.

(** ** Ceilings *)

Definition PARALLEL_TILE_THRESHOLD : nat := 8.
Definition DEFAULT_TILE_CACHE_BYTES : Z := 8 * 1024 * 1024.
Definition MAX_HOUR_META_LEN : Z := 16 * 1024 * 1024.
Definition MAX_HOUR_FILE_LEN : Z := 64 * 1024 * 1024 * 1024.
Definition MAX_RAM_FALLBACK_FILE_LEN : Z := 1024 * 1024 * 1024.
Definition MAX_INDEX_RECORDS : Z := 512 * 1024 * 1024 / 64.
Definition MAX_PRESSURE_LEVELS : Z := 4096.
Definition MAX_CHUNK_COMP_OVERHEAD : Z := 1024 * 1024.

Section reader.
Context `{F32Ties, External}.

(** ** Fallible allocation and decompression *)

(** [try_zeroed_bytes]. *)
Definition try_zeroed_bytes (n : nat) : RwResult (list byte) :=
  if try_reserve (Z.of_nat n) then Ok (replicate n Byte.x00)
  else Err (Format "cannot allocate {} bytes for {}: {}").

(** [try_filled_f32]. *)
Definition try_filled_f32 (n : nat) (value : f32) : RwResult (list f32) :=
  if try_reserve (4 * Z.of_nat n) then Ok (replicate n value)
  else Err (Format "cannot allocate {} f32 values for {}: {}").

(** [decompress_chunk_into]: fill the buffer of [raw_len] bytes exactly, then
    require the stream to end. *)
Definition decompress_chunk_into (comp : list byte) (raw_len : nat) : RwResult (list byte) :=
  stream ← map_err (fun _ => Chunk "{}: zstd decode failed: {}") (zstd_decoder comp);
  _ ← reject (length (produced stream) <? raw_len)%nat (Chunk "{}: zstd decode failed: {}");
  _ ← reject (raw_len <? length (produced stream))%nat
        (Chunk "{}: decompressed beyond the expected {} bytes");
  _ ← reject (negb (clean_end stream)) (Chunk "{}: zstd decode failed: {}");
  Ok (produced stream).

(** [decompress_chunk]. *)
Definition decompress_chunk (comp : list byte) (raw_len : nat) : RwResult (list byte) :=
  _ ← try_zeroed_bytes raw_len;
  decompress_chunk_into comp raw_len.

(** ** Validation of header and metadata *)

(** [validate_header_bounds]. *)
Definition validate_header_bounds (h : RwsHeader) (file_len : Z) : RwResult unit :=
  _ ← reject (file_len <? Z.of_nat HEADER_LEN) (Format "header requires {} bytes, got {}");
  _ ← reject (MAX_HOUR_FILE_LEN <? file_len) (Format "hour file is {} bytes; limit is {} bytes");
  _ ← reject (MAX_HOUR_META_LEN <? meta_len h) (Format "hour meta JSON is {} bytes; limit is {} bytes");
  _ ← reject (MAX_INDEX_RECORDS <? index_count h)
        (Format "hour chunk index has {} records; limit is {}");
  _ ← reject (file_len <? payload_offset h)
        (Format "file truncated inside chunk index: need {} bytes, have {}");
  _ ← reject (negb (file_len <? usize_limit)) (Format "hour file length {} does not fit usize");
  _ ← reject (negb (index_offset h <? usize_limit)) (Format "hour index offset {} does not fit usize");
  reject (negb (payload_offset h <? usize_limit)) (Format "hour payload offset {} does not fit usize").

(** The state of the loop over the variables: records so far, ids, names. *)
Record MetaScan := { expected_records : Z; seen_ids : gset Z; seen_names : gset string }.

(** The chunks one variable must have. *)
Definition variable_records (cells surface_chunks column_chunks : nat) (v : RwsVariableMeta)
    : RwResult nat :=
  if bool_decide (var_kind v = "surface2d") then
    _ ← reject (negb (bool_decide (var_codec v = CODEC_2D)) || negb (bool_decide (levels_hpa v = [])))
          (Meta "surface variable '{}' must use codec '{}' and have no pressure levels");
    Ok surface_chunks
  else if bool_decide (var_kind v = "pressure3d") then
    let levels := length (levels_hpa v) in
    _ ← reject (negb (bool_decide (var_codec v = CODEC_3D)) || (levels =? 0)%nat
                || (MAX_PRESSURE_LEVELS <? Z.of_nat levels))
          (Meta "pressure variable '{}' must use codec '{}' and contain 1..={} levels");
    _ ← reject (existsb (fun p => p.1 <=? p.2) (windows2 (levels_hpa v)))
          (Meta "pressure variable '{}' levels must be strictly descending, found {} then {}");
    elements ← ok_or (checked_mul levels cells)
          (Meta "pressure variable '{}' element count overflows usize");
    _ ← reject (MAX_VOLUME_ELEMENTS <? Z.of_nat elements)
          (Meta "pressure variable '{}' has {} values; limit is {}");
    Ok column_chunks
  else Err (Meta "variable '{}' has unknown kind '{}'").

(** The body of the loop over the variables. *)
Definition scan_variable (cells surface_chunks column_chunks : nat) (s : MetaScan)
    (v : RwsVariableMeta) : RwResult MetaScan :=
  _ ← reject (bool_decide (var_meta_id v ∈ seen_ids s)) (Meta "duplicate variable id {}");
  _ ← reject (bool_decide (var_name v ∈ seen_names s)) (Meta "duplicate variable name '{}'");
  records ← variable_records cells surface_chunks column_chunks v;
  total ← ok_or (checked_add64 (expected_records s) (Z.of_nat records))
            (Meta "expected index count overflows u64");
  Ok {| expected_records := total; seen_ids := {[var_meta_id v]} ∪ seen_ids s;
        seen_names := {[var_name v]} ∪ seen_names s |}.

(** [validate_hour_meta]. *)
Definition validate_hour_meta (m : RwsHourMeta) (h : RwsHeader) : RwResult unit :=
  _ ← map_err Meta (validate_time_schema m);
  _ ← reject ((nx m =? 0)%nat || (ny m =? 0)%nat)
        (Meta "degenerate grid {}x{} (nx and ny must be nonzero)");
  cells ← ok_or (c ← checked_mul (nx m) (ny m);
                 if Z.of_nat c <=? MAX_GRID_CELLS then Some c else None)
        (Meta "grid {}x{} is invalid or exceeds the supported ceiling of {} cells");
  _ ← reject (negb ((chunk_tile_y (chunking m) =? TILE_Y)%nat && (chunk_tile_x (chunking m) =? TILE_X)%nat
                    && (chunk_col_y (chunking m) =? COL_Y)%nat && (chunk_col_x (chunking m) =? COL_X)%nat))
        (Meta "unsupported chunk geometry tile={}x{}, column={}x{}");
  _ ← reject (u16_limit <? Z.of_nat (length (variables m)))
        (Meta "{} variables exceed the u16 id space");
  surface_chunks ← ok_or (checked_mul (div_ceil (ny m) TILE_Y) (div_ceil (nx m) TILE_X))
        (Meta "surface chunk count overflows usize");
  column_chunks ← ok_or (checked_mul (div_ceil (ny m) COL_Y) (div_ceil (nx m) COL_X))
        (Meta "column chunk count overflows usize");
  s ← rfold (scan_variable cells surface_chunks column_chunks) (variables m)
        {| expected_records := 0; seen_ids := ∅; seen_names := ∅ |};
  _ ← reject (MAX_INDEX_RECORDS <? expected_records s)
        (Meta "metadata requires {} chunk records; limit is {}");
  reject (negb (index_count h =? expected_records s))
    (Format "chunk index count {} does not match metadata geometry ({})").

(** [parse_hour_meta]. *)
Definition parse_hour_meta (bytes : list byte) : RwResult RwsHourMeta :=
  map_err (fun _ => Meta "hour meta JSON: {}") (json_from_slice bytes).

(** [parse_and_validate_hour]. *)
Definition parse_and_validate_hour (data : list byte) : RwResult (RwsHeader * RwsHourMeta) :=
  h ← parse data;
  _ ← validate_header_bounds h (Z.of_nat (length data));
  _ ← reject (negb (index_offset h <? usize_limit)) (Format "hour meta end {} does not fit usize");
  meta_bytes ← slice data HEADER_LEN (Z.to_nat (index_offset h));
  m ← parse_hour_meta meta_bytes;
  _ ← validate_hour_meta m h;
  Ok (h, m).

(** ** Validation of the index *)

(** The chunk kind, footprint, level count and bytes per value of a variable. *)
Record ChunkLayout := {
  lay_kind : Z; lay_y : nat; lay_x : nat; lay_levels : nat; lay_width : nat
}.
Definition chunk_layout (v : RwsVariableMeta) : option ChunkLayout :=
  if bool_decide (var_kind v = "surface2d") then
    Some {| lay_kind := KIND_TILE2D; lay_y := TILE_Y; lay_x := TILE_X; lay_levels := 1; lay_width := 4 |}
  else if bool_decide (var_kind v = "pressure3d") then
    Some {| lay_kind := KIND_COLUMN3D; lay_y := COL_Y; lay_x := COL_X;
            lay_levels := length (levels_hpa v); lay_width := 2 |}
  else None.

(** The payload part of [validate_chunk_record]. *)
Definition validate_payload_range (r : ChunkRecord) (h : RwsHeader) (file_len : Z)
    (expected_raw_len : nat) : RwResult unit :=
  let payload_free := has_flag (flags r) FLAG_EMPTY
    || (has_flag (flags r) FLAG_CONSTANT && negb (has_flag (flags r) FLAG_HAS_MISSING)) in
  if payload_free then
    reject (negb (len r =? 0) || negb (raw_len r =? 0))
      (Format "index record {} for '{}': empty/constant chunk must have len=raw_len=0")
  else
    _ ← reject ((len r =? 0) || negb (raw_len r =? Z.of_nat expected_raw_len))
          (Format "index record {} for '{}': len={} raw_len={} (expected nonzero len and raw_len {})");
    let max_comp_len :=
      match checked_add64 (Z.of_nat expected_raw_len) MAX_CHUNK_COMP_OVERHEAD with
      | Some n => n | None => U64_MAX end in
    _ ← reject (max_comp_len <? len r)
          (Format "index record {} for '{}': compressed length {} exceeds limit {}");
    _ ← reject (offset r <? payload_offset h)
          (Format "index record {} for '{}': payload offset {} precedes payload section {}");
    stop ← ok_or (checked_add64 (offset r) (len r))
          (Format "index record {} for '{}': payload range overflows u64");
    reject (file_len <? stop)
      (Format "index record {} for '{}': payload ends at {}, beyond file length {}").

(** [a - b] on [usize], which must not underflow. *)
Definition usub (a b : nat) : RwResult nat := if (b <=? a)%nat then Ok (a - b)%nat else Panic.
Lemma usub_ok a b : (b <= a)%nat -> usub a b = Ok (a - b)%nat.
Proof. intros. unfold usub. by rewrite (proj2 (Nat.leb_le _ _)). Qed.
Lemma usub_inv a b n : usub a b = Ok n -> (b <= a)%nat /\ n = (a - b)%nat.
Proof. unfold usub. destruct (Nat.leb_spec b a); [by intros [= <-]|done]. Qed.

(** [validate_chunk_record]. *)
Definition validate_chunk_record (r : ChunkRecord) (m : RwsHourMeta) (h : RwsHeader)
    (file_len : Z) (vars : gmap Z RwsVariableMeta) : RwResult unit :=
  v ← ok_or (vars !! var_id r) (Format "index record {}: variable id {} is absent from metadata");
  lay ← ok_or (chunk_layout v)
        (Format "index record {} refers to variable '{}' with unsupported kind '{}'");
  _ ← reject (negb (kind r =? lay_kind lay))
        (Format "index record {} for '{}': kind {} does not match expected {}");
  _ ← reject (negb (Z.land (flags r) 248 =? 0)) (Format "index record {} for '{}': unknown flags");
  let ty := Z.to_nat (tile_y r) in
  let tx := Z.to_nat (tile_x r) in
  _ ← reject ((div_ceil (ny m) (lay_y lay) <=? ty)%nat || (div_ceil (nx m) (lay_x lay) <=? tx)%nat)
        (Format "index record {} for '{}': chunk ({},{}) is outside {}x{}");
  y0 ← ok_or (checked_mul ty (lay_y lay)) (Format "index record {}: chunk y offset overflows");
  x0 ← ok_or (checked_mul tx (lay_x lay)) (Format "index record {}: chunk x offset overflows");
  h0 ← usub (ny m) y0;
  w0 ← usub (nx m) x0;
  let rows := Nat.min h0 (lay_y lay) in
  let cols := Nat.min w0 (lay_x lay) in
  values ← ok_or (c ← checked_mul rows cols; checked_mul c (lay_levels lay))
        (Format "index record {}: value count overflows usize");
  expected_raw_len ← ok_or (checked_mul values (lay_width lay))
        (Format "index record {}: raw byte count overflows usize");
  _ ← validate_payload_range r h file_len expected_raw_len;
  reject (Z.of_nat values <? valid_count r)
    (Format "index record {} for '{}': valid_count {} exceeds chunk value count {}").

(** [meta.variables.iter().map(|var| (var.id, var)).collect::<BTreeMap<_, _>>()]. *)
Definition variable_map (vars : list RwsVariableMeta) : gmap Z RwsVariableMeta :=
  fold_left (fun m v => <[var_meta_id v := v]> m) vars ∅.

(** One iteration of the index loop of [open]. *)
Definition read_record (data : list byte) (m : RwsHourMeta) (h : RwsHeader)
    (vars : gmap Z RwsVariableMeta) (i : nat) : RwResult ChunkRecord :=
  start ← ok_or (o ← checked_mul i INDEX_RECORD_LEN; checked_add (Z.to_nat (index_offset h)) o)
        (Format "chunk index record {} offset overflows usize");
  stop ← ok_or (checked_add start INDEX_RECORD_LEN)
        (Format "chunk index record {} end overflows usize");
  bytes ← slice data start stop;
  r ← unpack bytes;
  _ ← validate_chunk_record r m h (Z.of_nat (length data)) vars;
  Ok r.

(** The run scan that builds [var_ranges]: at [stop] the run that began at
    [run_start] is closed when the variable changes or the index ends. *)
Definition close_run (records : list ChunkRecord) (st : gmap Z (nat * nat) * nat) (stop : nat)
    : RwResult (gmap Z (nat * nat) * nat) :=
  let '(ranges, run_start) := st in
  first ← or_panic (records !! run_start);
  close ← (if (stop =? length records)%nat then Ok true
           else r ← or_panic (records !! stop); Ok (negb (var_id r =? var_id first)));
  Ok (if close : bool then (<[var_id first := (run_start, stop)]> ranges, stop)
      else (ranges, run_start)).
Definition build_var_ranges (records : list ChunkRecord) : RwResult (gmap Z (nat * nat)) :=
  if bool_decide (records = []) then Ok ∅
  else fst <$> rfold (close_run records) (seq 1 (length records)) (∅, 0%nat).
End reader.

(** ** The opened reader *)

Record HourReader `{JsonValue} := {
  r_bytes : list byte;
  r_source : Z;                          (* identity of the file that was opened *)
  r_meta : RwsHourMeta;
  r_records : list ChunkRecord;
  r_var_ranges : gmap Z (nat * nat)
}.

Section open.
Context `{F32Ties, External}.

(** [read_file_to_ram], for a file that does not change while it is read. *)
Definition read_file_to_ram (data : list byte) : RwResult (list byte) :=
  let file_len := Z.of_nat (length data) in
  _ ← reject (MAX_RAM_FALLBACK_FILE_LEN <? file_len)
        (Format "memory mapping failed and the {}-byte hour file exceeds the {}-byte RAM fallback limit");
  _ ← reject (negb (file_len <? usize_limit)) (Format "hour file length {} does not fit usize");
  _ ← try_zeroed_bytes (length data);
  Ok data.

(** [open_bytes]: preflight, then the map ([mmap_ok]) or the RAM fallback. *)
Definition open_bytes (mmap_ok : bool) (data : list byte) : RwResult (list byte) :=
  let file_len := Z.of_nat (length data) in
  _ ← reject (file_len <? Z.of_nat HEADER_LEN) (Format "header requires {} bytes, got {}");
  _ ← reject (MAX_HOUR_FILE_LEN <? file_len) (Format "hour file is {} bytes; limit is {} bytes");
  header_bytes ← slice data 0 HEADER_LEN;
  h ← parse header_bytes;
  _ ← validate_header_bounds h file_len;
  let mlen := Z.to_nat (meta_len h) in
  _ ← try_zeroed_bytes mlen;
  meta_bytes ← slice data HEADER_LEN (HEADER_LEN + mlen);
  m ← parse_hour_meta meta_bytes;
  _ ← validate_hour_meta m h;
  if mmap_ok then Ok data else read_file_to_ram data.

(** [HourReader::open_with_tile_cache_bytes] up to the empty cache, which
    [open] pairs with the reader. *)
Definition open_reader (source : Z) (mmap_ok : bool) (file : list byte) : RwResult HourReader :=
  data ← open_bytes mmap_ok file;
  '(h, m) ← parse_and_validate_hour data;
  _ ← reject (negb (index_count h <? usize_limit)) (Format "chunk index count {} does not fit usize");
  let count := Z.to_nat (index_count h) in
  let vars := variable_map (variables m) in
  _ ← reject (negb (try_reserve (48 * Z.of_nat count)))
        (Format "cannot allocate {} parsed chunk records: {}");
  _ ← reject (negb (index_offset h <? usize_limit)) (Format "chunk index offset {} does not fit usize");
  records ← rmap (read_record data m h vars) (seq 0 count);
  _ ← reject (existsb (fun p => negb (bool_decide (key_lt (sort_key p.1) (sort_key p.2)))) (windows2 records))
        (Format "chunk index sort order violated at records {}..{}: {:?} !< {:?}");
  ranges ← build_var_ranges records;
  Ok {| r_bytes := data; r_source := source; r_meta := m; r_records := records;
        r_var_ranges := ranges |}.

Definition open_with_tile_cache_bytes (source : Z) (mmap_ok : bool) (file : list byte) (cap : Z)
    : RwResult (HourReader * DecodedTileCache) :=
  r ← open_reader source mmap_ok file; Ok (r, cache_new cap).
Definition open_hour (source : Z) (mmap_ok : bool) (file : list byte)
    : RwResult (HourReader * DecodedTileCache) :=
  open_with_tile_cache_bytes source mmap_ok file DEFAULT_TILE_CACHE_BYTES.

(** [source_matches_path]: whether the path now names the file that was opened. *)
Definition source_matches_path (r : HourReader) (current : Z) : bool := r_source r =? current.

(** ** Lookup *)

(** [variable], [lookup], [lookup_2d], [lookup_3d]. *)
Definition variable (r : HourReader) (name : string) : option RwsVariableMeta :=
  find (fun v => bool_decide (var_name v = name)) (variables (r_meta r)).
Definition lookup_var (r : HourReader) (name : string) : RwResult RwsVariableMeta :=
  ok_or (variable r name) (UnknownVariable name).
Definition lookup_2d (r : HourReader) (name : string) : RwResult RwsVariableMeta :=
  v ← lookup_var r name;
  _ ← reject (negb (bool_decide (var_kind v = "surface2d")))
        (Format "variable '{}' has kind '{}', expected 'surface2d'");
  Ok v.
Definition lookup_3d (r : HourReader) (name : string) : RwResult RwsVariableMeta :=
  v ← lookup_var r name;
  _ ← reject (negb (bool_decide (var_kind v = "pressure3d")))
        (Format "variable '{}' has kind '{}', expected 'pressure3d'");
  Ok v.

(** [slice::binary_search_by_key]: halve until one candidate is left. *)
Fixpoint search_loop (fuel : nat) (cmp : nat -> comparison) (base size : nat) : nat :=
  match fuel with
  | O => base
  | S fuel =>
      if (size <=? 1)%nat then base
      else let half := (size / 2)%nat in
           let mid := (base + half)%nat in
           let base := match cmp mid with Gt => base | _ => mid end in
           search_loop fuel cmp base (size - half)
  end.
Definition binary_search_by_key (l : list ChunkRecord) (k : SortKey) : option nat :=
  if (length l =? 0)%nat then None
  else
    let cmp i := match l !! i with Some r => key_compare (sort_key r) k | None => Gt end in
    let i := search_loop (length l) cmp 0 (length l) in
    match cmp i with Eq => Some i | _ => None end.

(** [chunk_record]. *)
Definition chunk_record (r : HourReader) (v : RwsVariableMeta) (knd : Z) (ty tx : nat)
    : RwResult ChunkRecord :=
  '(a, b) ← ok_or (r_var_ranges r !! var_meta_id v)
        (Format "variable '{}' (id {}) has no chunk index entries");
  recs ← slice (r_records r) a b;
  let k := (var_meta_id v, knd, Z.of_nat ty mod u32_limit, Z.of_nat tx mod u32_limit) in
  i ← ok_or (binary_search_by_key recs k)
        (Format "missing kind-{} chunk record for variable '{}' chunk ({},{})");
  or_panic (recs !! i).

(** [tile_dims] and [col_chunk_dims]; the subtraction panics past the grid. *)
Definition chunk_dims (cy cx : nat) (r : HourReader) (ty tx : nat) : RwResult (nat * nat) :=
  if bool_decide (ty * cy <= ny (r_meta r) /\ tx * cx <= nx (r_meta r))%nat
  then Ok (Nat.min (ny (r_meta r) - ty * cy) cy, Nat.min (nx (r_meta r) - tx * cx) cx)
  else Panic.
Definition tile_dims : HourReader -> nat -> nat -> RwResult (nat * nat) := chunk_dims TILE_Y TILE_X.
Definition col_chunk_dims : HourReader -> nat -> nat -> RwResult (nat * nat) := chunk_dims COL_Y COL_X.

(** ** Decoding one chunk *)

(** [payload_slice]. *)
Definition payload_slice (r : HourReader) (rec : ChunkRecord) : RwResult (list byte) :=
  stop ← ok_or (checked_add64 (offset rec) (len rec))
        (Format "variable '{}' tile ({},{}): payload range offset {} len {} overflows");
  _ ← reject (Z.of_nat (length (r_bytes r)) <? stop)
        (Format "variable '{}' tile ({},{}): payload range {}..{} exceeds file length {}");
  slice (r_bytes r) (Z.to_nat (offset rec)) (Z.to_nat stop).

(** [decode_column_chunk]. *)
Definition decode_column_chunk (r : HourReader) (rec : ChunkRecord) (value_count : nat)
    : RwResult (list f32) :=
  if has_flag (flags rec) FLAG_EMPTY then try_filled_f32 value_count NAN
  else if has_flag (flags rec) FLAG_CONSTANT && (len rec =? 0) then try_filled_f32 value_count (center rec)
  else
    comp ← payload_slice r rec;
    raw ← decompress_chunk comp (Z.to_nat (raw_len rec));
    decode_affine_i16 (flags rec) (center rec) (scale rec) raw value_count.

(** [decode_tile] on a little-endian target: the bytes are decompressed
    straight into the [f32] buffer. *)
Definition decode_tile (r : HourReader) (rec : ChunkRecord) (value_count : nat)
    : RwResult (list f32) :=
  if has_flag (flags rec) FLAG_EMPTY then try_filled_f32 value_count NAN
  else if has_flag (flags rec) FLAG_CONSTANT && (len rec =? 0) then try_filled_f32 value_count (center rec)
  else
    comp ← payload_slice r rec;
    expected_len ← ok_or (checked_mul value_count 4)
          (Chunk "variable '{}' tile ({},{}): value count {} overflows");
    _ ← reject (negb (raw_len rec <? usize_limit))
          (Chunk "variable '{}' tile ({},{}): raw_len {} does not fit usize");
    _ ← reject (negb (raw_len rec =? Z.of_nat expected_len))
          (Chunk "variable '{}' tile ({},{}): raw_len {} does not match {} f32 values ({} bytes)");
    _ ← try_filled_f32 value_count f32_zero;
    raw ← decompress_chunk_into comp expected_len;
    rmap (fun quad => or_panic (f32_from_le quad)) (chunks_exact 4 raw).

(** [decode_tile] on a big-endian target. *)
Definition decode_tile_be (r : HourReader) (rec : ChunkRecord) (value_count : nat)
    : RwResult (list f32) :=
  if has_flag (flags rec) FLAG_EMPTY then try_filled_f32 value_count NAN
  else if has_flag (flags rec) FLAG_CONSTANT && (len rec =? 0) then try_filled_f32 value_count (center rec)
  else
    comp ← payload_slice r rec;
    expected_len ← ok_or (checked_mul value_count 4)
          (Chunk "variable '{}' tile ({},{}): value count {} overflows");
    _ ← reject (negb (raw_len rec <? usize_limit))
          (Chunk "variable '{}' tile ({},{}): raw_len {} does not fit usize");
    _ ← reject (negb (raw_len rec =? Z.of_nat expected_len))
          (Chunk "variable '{}' tile ({},{}): raw_len {} does not match {} f32 values ({} bytes)");
    raw ← decompress_chunk comp (Z.to_nat (raw_len rec));
    decode_f32_tile (flags rec) (center rec) raw value_count.

(** [decode_tile_cached]: look up, decode outside the lock, insert. The cache
    is threaded through, errors included. *)
Definition tile_cache_key (v : RwsVariableMeta) (rec : ChunkRecord) : TileCacheKey :=
  (kind rec, var_meta_id v, tile_y rec, tile_x rec).
Definition decode_tile_cached (r : HourReader) (v : RwsVariableMeta) (rec : ChunkRecord)
    (value_count : nat) (c : DecodedTileCache) : RwResult (list f32) * DecodedTileCache :=
  let k := tile_cache_key v rec in
  let '(hit, c) := cache_get k c in
  match hit with
  | Some tile => (Ok tile, c)
  | None =>
      match decode_tile r rec value_count with
      | Ok decoded =>
          let '(tile, c) := cache_insert (try_reserve 1) k decoded c in (Ok tile, c)
      | Err e => (Err e, c)
      | Panic => (Panic, c)
      end
  end.
End open.
