(* ===== verification/Concrete.v ===== *)
(** * A concrete environment

    An instance of the interface to zstd, serde_json and the allocator with
    its laws, and a small hour file written with it: the inputs on which the
    theorems about files are evaluated. Compression prefixes a frame byte,
    metadata is serialised as its position in a table, and every allocation
    succeeds. *)
From stdpp Require Import base list gmap strings numbers.
From Stdlib Require Import ZArith Lia.
From S2P Require Import Prelude F32 Format Header Index Codec TileCache Writer Reader.

Local Open Scope Z_scope.

#[global] Instance unit_json : JsonValue := {| Value := unit |}.
#[global] Instance first_ties : F32Ties := left_ties.

#[global] Instance chunking_eq_dec : EqDecision RwsChunking.
Proof. solve_decision. Defined.
#[global] Instance writer_info_eq_dec : EqDecision RwsWriterInfo.
Proof. solve_decision. Defined.
#[global] Instance variable_meta_eq_dec : EqDecision RwsVariableMeta.
Proof. intros [] []. unfold Decision. repeat decide equality. Defined.
#[global] Instance hour_meta_eq_dec : EqDecision RwsHourMeta.
Proof. solve_decision. Defined.

(** ** A small hour: two surface variables and one on pressure levels, 3 by 2 *)

Definition sample_values : list f32 := [f32_zero; f32_one; NAN; f32_half; f32_one; f32_zero].
Definition sample_planes : list (list f32) :=
  [[f32_zero; f32_one; f32_half; f32_one; f32_zero; f32_one]; replicate 6 f32_half].

Definition sample_ops : list AddOp :=
  [AddSurface "t2m" "K" tt sample_values;
   AddPressure "tmp" "K" tt [850; 500] sample_planes;
   AddSurface "flat" "1" tt (replicate 6 f32_one)].

Definition sample_writer : HourWriter := hour_writer_new "hrrr" "20260101_00z" 3 3 2 "hash" "build".
Definition sample_variables : list RwsVariableMeta :=
  [{| var_meta_id := 0; var_name := "t2m"; var_units := "K"; var_kind := "surface2d";
      var_codec := CODEC_2D; levels_hpa := []; selector := tt |};
   {| var_meta_id := 1; var_name := "tmp"; var_units := "K"; var_kind := "pressure3d";
      var_codec := CODEC_3D; levels_hpa := [850; 500]; selector := tt |};
   {| var_meta_id := 2; var_name := "flat"; var_units := "1"; var_kind := "surface2d";
      var_codec := CODEC_2D; levels_hpa := []; selector := tt |}].
Definition sample_meta : RwsHourMeta :=
  {| schema := SCHEMA_HOUR; model := "hrrr"; run := "20260101_00z"; forecast_hour := 3;
     meta_lead_seconds := None; meta_valid_unix := None; nx := 3; ny := 2; grid_hash := "hash";
     variables := sample_variables;
     chunking := {| chunk_tile_y := TILE_Y; chunk_tile_x := TILE_X; chunk_col_y := COL_Y; chunk_col_x := COL_X |};
     writer := {| wi_name := "rw-store"; wi_version := "0.1.0"; wi_build := "build" |} |}.

(** ** The environment *)

(** The metadata of the sample with a deferred single-level variable. *)
Definition deferred_meta : RwsHourMeta :=
  {| schema := SCHEMA_HOUR; model := "hrrr"; run := "20260101_00z"; forecast_hour := 3;
     meta_lead_seconds := None; meta_valid_unix := None; nx := 3; ny := 2; grid_hash := "hash";
     variables := take 2 sample_variables ++
       [{| var_meta_id := 2; var_name := "flat"; var_units := "1"; var_kind := "pressure3d";
           var_codec := CODEC_3D; levels_hpa := [700]; selector := tt |}];
     chunking := {| chunk_tile_y := TILE_Y; chunk_tile_x := TILE_X; chunk_col_y := COL_Y; chunk_col_x := COL_X |};
     writer := {| wi_name := "rw-store"; wi_version := "0.1.0"; wi_build := "build" |} |}.

Definition meta_table : list RwsHourMeta := [sample_meta; deferred_meta].

#[global] Instance table_external : External := {|
  zstd_encode_all raw := Ok (Byte.x28 :: raw);
  zstd_decoder comp := match comp with
    | [] => Err (Io "incomplete frame")
    | _ :: raw => Ok {| produced := raw; clean_end := true |}
    end;
  json_to_vec m := match list_find (eq m) meta_table with
    | Some (i, _) => Ok (to_le 2 (Z.of_nat i))
    | None => Err (Meta "not in the table")
    end;
  json_from_slice bytes := ok_or (meta_table !! Z.to_nat (from_le bytes)) (Meta "not in the table");
  try_reserve _ := true;
  CARGO_PKG_VERSION := "0.1.0"
|}.

#[global] Instance table_laws : ExternalLaws.
Proof.
  split.
  - by intros raw comp [= <-].
  - by intros raw comp [= <-].
  - intros raw comp [= <-]. simpl. lia.
  - done.
  - by intros [].
  - intros m bytes. cbn [json_to_vec json_from_slice table_external].
    destruct (list_find (eq m) meta_table) as [[i m']|] eqn:Hf; [|done]. intros Hb.
    assert (bytes = to_le 2 (Z.of_nat i)) as -> by congruence.
    apply list_find_Some in Hf as (Hi & -> & _).
    assert (i < 2)%nat by (apply lookup_lt_Some in Hi; simpl in Hi; lia).
    rewrite from_to_le_small by (simpl; lia). by rewrite Nat2Z.id, Hi.
  - intros m. cbn [json_to_vec table_external]. by repeat case_match.
  - intros bytes. cbn [json_from_slice table_external]. auto with rw.
Qed.

Lemma table_alloc : alloc_succeeds.
Proof. done. Qed.

Definition sample_file : list byte :=
  match (w ← run_ops sample_ops sample_writer; finish w) with Ok (bytes, _) => bytes | _ => [] end.

Definition sample_reader : HourReader :=
  match open_reader 7 true sample_file with
  | Ok r => r
  | _ => {| r_bytes := []; r_source := 0; r_meta := sample_meta; r_records := []; r_var_ranges := ∅ |}
  end.

Lemma sample_open : open_reader 7 true sample_file = Ok sample_reader.
Proof. vm_compute. reflexivity. Qed.

(** The variables of the sample, by position. *)
Definition sample_var (i : nat) : RwsVariableMeta :=
  nth i (variables (r_meta sample_reader)) (pressure_meta 0 "" "" tt []).

Lemma sample_var_in i : (i < 3)%nat -> sample_var i ∈ variables (r_meta sample_reader).
Proof.
  intros Hi. apply list_elem_of_In. unfold sample_var. apply nth_In.
  replace (length (variables (r_meta sample_reader))) with 3%nat by (vm_compute; reflexivity). done.
Qed.

#[global] Opaque sample_file sample_reader.
