(* ===== verification/Opened.v ===== *)
(** * What opening an hour file establishes

    The invariant every successfully opened [HourReader] satisfies, whatever
    bytes were on disk: the index is strictly sorted, [var_ranges] splits it
    by variable, and every chunk of every variable has its record. *)
From stdpp Require Import base list gmap strings numbers.
From Stdlib Require Import ZArith Lia.
From S2P Require Import Prelude F32 Format Header Index Codec TileCache Writer Reader Concrete.

Local Open Scope Z_scope.

(** ** Sorted indices *)

Definition key_sorted (l : list ChunkRecord) : Prop :=
  forall i j a b, (i < j)%nat -> l !! i = Some a -> l !! j = Some b ->
    key_lt (sort_key a) (sort_key b).

(** The whole index check of [open]: adjacent pairs are in order. *)
Definition index_sorted (l : list ChunkRecord) : bool :=
  negb (existsb (fun p => negb (bool_decide (key_lt (sort_key p.1) (sort_key p.2)))) (windows2 l)).

Lemma windows2_cons_sorted a l :
  key_sorted (a :: l) <->
  key_sorted l /\ (forall j b, l !! j = Some b -> key_lt (sort_key a) (sort_key b)).
Proof.
  split.
  - intros H. split.
    + intros i j x y Hij Hi Hj. apply (H (S i) (S j)); [lia|done..].
    + intros j b Hj. apply (H 0%nat (S j)); [lia|done..].
  - intros [H Ha] [|i] [|j] x y Hij Hi Hj; try lia; simpl in *.
    + simplify_eq. eauto.
    + eapply (H i j); eauto. lia.
Qed.

Lemma index_sorted_spec l : index_sorted l = true <-> key_sorted l.
Proof.
  unfold index_sorted. rewrite negb_true_iff.
  induction l as [|a [|b l] IH].
  - split; [|done]. intros _ i j x y _ Hi. by rewrite lookup_nil in Hi.
  - split; [|done]. intros _ [|i] [|j] x y ? Hi Hj; try lia; simpl in *; by rewrite ?lookup_nil in *.
  - rewrite windows2_cons_sorted, <- IH. cbn [windows2 existsb fst snd].
    rewrite orb_false_iff, negb_false_iff, bool_decide_eq_true. split.
    + intros [Hab Hl]. split; [done|]. intros [|j] c Hj; simpl in Hj; [by simplify_eq|].
      apply IH in Hl. etrans; [exact Hab|]. apply (Hl 0%nat (S j)); [lia|done..].
    + intros [Hl Ha]. split; [|done]. by apply (Ha 0%nat).
Qed.

Lemma key_sorted_inj l i j a b :
  key_sorted l -> l !! i = Some a -> l !! j = Some b -> sort_key a = sort_key b -> i = j.
Proof.
  intros Hs Hi Hj Hab. destruct (Nat.lt_trichotomy i j) as [Hij|[Hij|Hij]]; [|done|];
    exfalso; [pose proof (Hs i j a b Hij Hi Hj) as Hlt|pose proof (Hs j i b a Hij Hj Hi) as Hlt];
    rewrite Hab in Hlt; by destruct (irreflexivity key_lt _ Hlt).
Qed.

Lemma key_sorted_slice l a b s :
  key_sorted l -> slice (E := RwStoreError) l a b = Ok s -> key_sorted s.
Proof.
  intros Hs Hsl i j x y Hij Hi Hj.
  pose proof (length_slice _ _ _ _ Hsl) as Hlen.
  pose proof (lookup_lt_Some _ _ _ Hj). pose proof (lookup_lt_Some _ _ _ Hi).
  rewrite (lookup_slice _ _ _ _ i Hsl) in Hi by lia.
  rewrite (lookup_slice _ _ _ _ j Hsl) in Hj by lia.
  apply (Hs (a + i)%nat (a + j)%nat); [lia|done..].
Qed.

Lemma key_sorted_NoDup l : key_sorted l -> NoDup (sort_key <$> l).
Proof.
  intros Hs. apply NoDup_alt. intros i j k Hi Hj.
  rewrite list_lookup_fmap in Hi, Hj.
  apply fmap_Some in Hi as (a & Ha & ->). apply fmap_Some in Hj as (b & Hb & Hk).
  eapply key_sorted_inj; eauto.
Qed.

(** ** Binary search *)

Lemma search_loop_spec cmp p fuel base size :
  (forall i, cmp i = Gt <-> (p < i)%nat) ->
  (size <= S fuel)%nat -> (base <= p < base + size)%nat ->
  search_loop fuel cmp base size = p.
Proof.
  intros Hcmp. revert base size. induction fuel as [|fuel IH]; intros base size Hf Hp; cbn [search_loop]; cbv zeta.
  { lia. }
  destruct (Nat.leb_spec size 1); [lia|].
  pose proof (Nat.div_lt size 2 ltac:(lia) ltac:(lia)).
  pose proof (Nat.div_le_lower_bound size 2 1 ltac:(lia) ltac:(lia)).
  pose proof (Nat.Div0.mul_div_le size 2).
  destruct (cmp (base + size / 2)%nat) eqn:Hc; apply IH; try lia.
  - assert (~ (p < base + size / 2)%nat); [|lia]. rewrite <- Hcmp. congruence.
  - assert (~ (p < base + size / 2)%nat); [|lia]. rewrite <- Hcmp. congruence.
  - apply Hcmp in Hc. lia.
Qed.

Lemma binary_search_found l i r :
  key_sorted l -> l !! i = Some r -> binary_search_by_key l (sort_key r) = Some i.
Proof.
  intros Hs Hi. unfold binary_search_by_key.
  pose proof (lookup_lt_Some _ _ _ Hi) as Hlt.
  destruct (Nat.eqb_spec (length l) 0); [lia|].
  set (cmp := fun i => _).
  assert (forall j, cmp j = Gt <-> (i < j)%nat) as Hcmp.
  { intros j. unfold cmp. destruct (l !! j) as [x|] eqn:Hj.
    - rewrite key_compare_gt. split; intros Hk.
      + destruct (Nat.lt_trichotomy i j) as [|[->|Hji]]; [done|..].
        * simplify_eq. by destruct (irreflexivity key_lt _ Hk).
        * pose proof (Hs _ _ _ _ Hji Hj Hi) as Hk2.
          destruct (irreflexivity key_lt (sort_key r)). by etrans.
      + eapply Hs; eauto.
    - apply lookup_ge_None in Hj. split; [lia|done]. }
  rewrite (search_loop_spec cmp i) by (auto; lia).
  unfold cmp. by rewrite Hi, (proj2 (key_compare_eq _ _) eq_refl).
Qed.

Lemma binary_search_sound l k i :
  binary_search_by_key l k = Some i -> exists r, l !! i = Some r /\ sort_key r = k.
Proof.
  unfold binary_search_by_key. destruct (length l =? 0)%nat; [done|].
  set (j := search_loop _ _ _ _). destruct (l !! j) as [r|] eqn:Hj; [|done].
  destruct (key_compare (sort_key r) k) eqn:Hc; [|done..].
  intros [= <-]. exists r. split; [done|]. by apply key_compare_eq.
Qed.

(** ** The ranges of the variables *)

(** [ranges] gives the exact extent of each of the first [n] records' variables. *)
Definition ranges_cover (l : list ChunkRecord) (ranges : gmap Z (nat * nat)) (n : nat) : Prop :=
  forall i r, (i < n)%nat -> l !! i = Some r ->
    exists a b, ranges !! var_id r = Some (a, b) /\ (b <= length l)%nat /\
      forall j x, l !! j = Some x -> (var_id x = var_id r <-> (a <= j < b)%nat).

Lemma sorted_var_id l i j a b :
  key_sorted l -> (i <= j)%nat -> l !! i = Some a -> l !! j = Some b -> var_id a <= var_id b.
Proof.
  intros Hs Hij Hi Hj. destruct (decide (i = j)) as [->|]; [simplify_eq; lia|].
  pose proof (Hs i j a b ltac:(lia) Hi Hj) as Hlt.
  unfold sort_key in Hlt. apply key_lt_spec in Hlt. lia.
Qed.

(** What holds before the iteration that looks at [stop]: the records from
    [run_start] share a variable and every earlier run is in [ranges]. *)
Definition run_state (l : list ChunkRecord) (stop : nat) (st : gmap Z (nat * nat) * nat) : Prop :=
  (st.2 < stop <= length l)%nat /\ ranges_cover l st.1 st.2 /\
  (forall i a b, (i < st.2)%nat -> l !! i = Some a -> l !! st.2 = Some b -> var_id a < var_id b) /\
  (forall i a b, (st.2 <= i < stop)%nat -> l !! i = Some a -> l !! st.2 = Some b -> var_id a = var_id b).

Lemma run_closed l ranges rs stop first :
  key_sorted l -> run_state l stop (ranges, rs) -> l !! rs = Some first ->
  (forall r, l !! stop = Some r -> var_id r <> var_id first) ->
  ranges_cover l (<[var_id first := (rs, stop)]> ranges) stop.
Proof.
  intros Hs (Hlt & Hcov & Hlow & Hrun) Hfirst Hstop i r Hi Hr. simpl in *.
  destruct (decide (i < rs)%nat) as [Hin|Hin].
  - destruct (Hcov i r Hin Hr) as (a & b & Hab & Hspec). exists a, b. split; [|done].
    pose proof (Hlow i r first Hin Hr Hfirst). rewrite lookup_insert_ne by lia. done.
  - assert (var_id r = var_id first) as Hid by (eapply (Hrun i); eauto; lia).
    exists rs, stop. rewrite Hid, lookup_insert_eq. split; [done|]. split; [lia|].
    intros j x Hj. split; [|intros; by eapply (Hrun j)].
    intros Hx. split.
    + destruct (decide (rs <= j)%nat); [done|].
      pose proof (Hlow j x first ltac:(lia) Hj Hfirst). lia.
    + destruct (decide (j < stop)%nat); [done|].
      destruct (l !! stop) as [y|] eqn:Hy.
      * specialize (Hstop y eq_refl).
        pose proof (sorted_var_id l stop j y x Hs ltac:(lia) Hy Hj).
        pose proof (sorted_var_id l rs stop first y Hs ltac:(lia) Hfirst Hy). lia.
      * apply lookup_ge_None in Hy. apply lookup_lt_Some in Hj. lia.
Qed.

Lemma close_run_step l st stop :
  key_sorted l -> run_state l stop st -> (stop < length l)%nat ->
  exists st', close_run l st stop = Ok st' /\ run_state l (S stop) st'.
Proof.
  intros Hs Hst Hlt. destruct st as [ranges rs]. pose proof Hst as (Hrs & Hcov & Hlow & Hrun).
  simpl in *. destruct (lookup_lt_is_Some_2 l rs ltac:(lia)) as [first Hfirst].
  destruct (lookup_lt_is_Some_2 l stop ltac:(lia)) as [y Hy].
  unfold close_run. rewrite Hfirst. cbn [or_panic mbind result_bind].
  destruct (Nat.eqb_spec stop (length l)); [lia|]. rewrite Hy. cbn [or_panic mbind result_bind].
  eexists; split; [done|].
  pose proof (sorted_var_id l rs stop first y Hs ltac:(lia) Hfirst Hy) as Hle.
  destruct (Z.eqb_spec (var_id y) (var_id first)) as [Heq|Hne]; simpl; unfold run_state; simpl.
  - split; [lia|]. split; [done|]. split; [done|].
    intros i a b Hi Ha Hb. destruct (decide (i = stop)) as [->|]; [by simplify_eq|].
    eapply Hrun; eauto. lia.
  - split; [lia|]. split.
    { eapply run_closed; eauto. intros r Hr. by simplify_eq. }
    split.
    + intros i a b Hi Ha Hb. simplify_eq.
      assert (var_id a <= var_id first); [|lia].
      destruct (decide (i < rs)%nat).
      * eapply Z.lt_le_incl, Hlow; eauto.
      * erewrite (Hrun i a first) by (eauto; lia). lia.
    + intros i a b Hi Ha Hb. assert (i = stop) as -> by lia. by simplify_eq.
Qed.

Lemma close_runs_loop l n stop st :
  key_sorted l -> run_state l stop st -> (stop + n = length l)%nat ->
  exists st', rfold (close_run l) (seq stop n) st = Ok st' /\ run_state l (length l) st'.
Proof.
  intros Hs. revert stop st. induction n as [|n IH]; intros stop st Hst Hn; simpl.
  - replace (length l) with stop by lia. eauto.
  - destruct (close_run_step l st stop Hs Hst ltac:(lia)) as (st1 & -> & Hst1). simpl.
    apply IH; [done|lia].
Qed.

Lemma build_var_ranges_ok l :
  key_sorted l ->
  exists ranges, build_var_ranges l = Ok ranges /\ ranges_cover l ranges (length l).
Proof.
  intros Hs. unfold build_var_ranges. case_bool_decide as Hnil.
  { exists ∅. split; [done|]. subst. intros i r _ Hr. by rewrite lookup_nil in Hr. }
  destruct l as [|x0 l0]; [done|]. set (l := x0 :: l0) in *.
  replace (seq 1 (length l)) with (seq 1 (length l0) ++ [length l])
    by (unfold l; simpl; rewrite <- seq_S; done).
  rewrite rfold_app.
  destruct (close_runs_loop l (length l0) 1 (∅, 0%nat) Hs) as ([ranges rs] & -> & Hst).
  { split_and!; simpl; [lia|unfold l; simpl; lia|..].
    - intros ? ? Hi. simpl in Hi. lia.
    - lia.
    - intros i a b Hi Ha Hb. assert (i = 0%nat) as -> by lia. unfold l in *. simpl in *. congruence. }
  { done. }
  pose proof Hst as (Hrs & _). cbn [snd] in Hrs.
  destruct (lookup_lt_is_Some_2 l rs ltac:(lia)) as [first Hfirst].
  cbn [mbind result_bind rfold]. unfold close_run at 1. rewrite Hfirst.
  cbn [or_panic mbind result_bind]. rewrite Nat.eqb_refl. cbn [mbind result_bind fmap result_fmap fst].
  eexists; split; [done|]. apply (run_closed l ranges rs (length l) first Hs Hst Hfirst).
  intros r Hr%lookup_lt_Some. lia.
Qed.

(** ** Metadata *)

Section meta.
Context `{JsonValue}.
Implicit Types (v : RwsVariableMeta) (m : RwsHourMeta) (lay : ChunkLayout).

(** What one variable of a valid file satisfies, on a grid of [cells] cells. *)
Definition variable_ok (cells : nat) v : Prop :=
  (var_kind v = "surface2d" /\ var_codec v = CODEC_2D /\ levels_hpa v = []) \/
  (var_kind v = "pressure3d" /\ var_codec v = CODEC_3D /\
   (0 < length (levels_hpa v))%nat /\ Z.of_nat (length (levels_hpa v)) <= MAX_PRESSURE_LEVELS /\
   existsb (fun p => p.1 <=? p.2) (windows2 (levels_hpa v)) = false /\
   Z.of_nat (length (levels_hpa v) * cells) <= MAX_VOLUME_ELEMENTS).

(** The keys of the chunks a variable must have, row by row. *)
Definition chunk_rows m lay : nat := div_ceil (ny m) (lay_y lay).
Definition chunk_cols m lay : nat := div_ceil (nx m) (lay_x lay).
Definition expected_keys m v : list SortKey :=
  match chunk_layout v with
  | Some lay => (fun c => (var_meta_id v, lay_kind lay, Z.of_nat c.1, Z.of_nat c.2))
                  <$> grid_coords (chunk_rows m lay) (chunk_cols m lay)
  | None => []
  end.
Definition all_keys m : list SortKey := variables m ≫= expected_keys m.

(** The metadata invariant. *)
Record meta_ok m : Prop := {
  ok_nx : nx m <> 0%nat;
  ok_ny : ny m <> 0%nat;
  ok_cells : Z.of_nat (nx m * ny m) <= MAX_GRID_CELLS;
  ok_ids : NoDup (var_meta_id <$> variables m);
  ok_names : NoDup (var_name <$> variables m);
  ok_vars : Forall (variable_ok (nx m * ny m)) (variables m);
  ok_total : Z.of_nat (length (all_keys m)) <= MAX_INDEX_RECORDS
}.

Lemma kinds_differ : "surface2d" <> "pressure3d".
Proof. done. Qed.

Lemma chunk_layout_ok cells v : variable_ok cells v -> exists lay, chunk_layout v = Some lay.
Proof.
  unfold chunk_layout. intros [(-> & _)|(-> & _)].
  - rewrite bool_decide_eq_true_2 by done. eauto.
  - rewrite bool_decide_eq_false_2 by done. rewrite bool_decide_eq_true_2 by done. eauto.
Qed.

Lemma length_expected_keys m v lay :
  chunk_layout v = Some lay -> length (expected_keys m v) = (chunk_rows m lay * chunk_cols m lay)%nat.
Proof. unfold expected_keys. intros ->. by rewrite length_fmap, length_grid_coords. Qed.

Lemma variable_records_spec m v n :
  Z.of_nat (nx m * ny m) <= MAX_GRID_CELLS ->
  variable_records (nx m * ny m) (div_ceil (ny m) TILE_Y * div_ceil (nx m) TILE_X)
    (div_ceil (ny m) COL_Y * div_ceil (nx m) COL_X) v = Ok n <->
  variable_ok (nx m * ny m) v /\ n = length (expected_keys m v).
Proof.
  intros Hcells. unfold variable_records, variable_ok. split.
  - intros Hr. destruct (bool_decide_reflect (var_kind v = "surface2d")) as [Hk|Hk].
    + res_inv Hr. res_clean. breflect. subst n. split; [by left|].
      erewrite length_expected_keys by (unfold chunk_layout; by rewrite Hk). done.
    + destruct (bool_decide_reflect (var_kind v = "pressure3d")) as [Hk3|]; [|done].
      res_inv Hr. res_clean. breflect. subst. split.
      * right. split_and!; [done..|lia|lia|done|lia].
      * erewrite length_expected_keys by (unfold chunk_layout; by rewrite Hk3). done.
  - intros [[(Hk & Hc & Hl)|(Hk & Hc & H1 & H2 & H3 & H4)] ->].
    + erewrite length_expected_keys by (unfold chunk_layout; by rewrite Hk).
      rewrite Hk, Hc, Hl. done.
    + erewrite length_expected_keys by (unfold chunk_layout; by rewrite Hk).
      rewrite Hk, Hc, H3. simpl.
      destruct (Nat.eqb_spec (length (levels_hpa v)) 0); [lia|]. simpl.
      rewrite (proj2 (Z.ltb_ge _ _)) by lia. simpl.
      rewrite checked_mul_ok.
      2:{ rewrite <- Nat2Z.inj_mul. assert (MAX_VOLUME_ELEMENTS < usize_limit) by done. lia. }
      simpl. by rewrite (proj2 (Z.ltb_ge _ _)) by lia.
Qed.

Section scan.
Context m (Hcells : Z.of_nat (nx m * ny m) <= MAX_GRID_CELLS).
Let scan := scan_variable (nx m * ny m) (div_ceil (ny m) TILE_Y * div_ceil (nx m) TILE_X)
              (div_ceil (ny m) COL_Y * div_ceil (nx m) COL_X).

Lemma scan_inv vs s s' :
  rfold scan vs s = Ok s' ->
  NoDup (var_meta_id <$> vs) /\ NoDup (var_name <$> vs) /\
  (forall v, v ∈ vs -> (var_meta_id v ∉ seen_ids s) /\ (var_name v ∉ seen_names s)) /\
  Forall (variable_ok (nx m * ny m)) vs /\
  expected_records s' = expected_records s + Z.of_nat (length (vs ≫= expected_keys m)).
Proof.
  revert s. induction vs as [|v vs IH]; intros s Hs; cbn [rfold] in Hs.
  { injection Hs as <-. split_and!; [constructor..|by intros ? ?%not_elem_of_nil|constructor|simpl; lia]. }
  destruct (scan s v) as [s1| |] eqn:Hv; [|done..].
  destruct (IH s1 Hs) as (Hi & Hn & Hseen & Hok & Hcount).
  unfold scan, scan_variable in Hv. res_inv Hv. res_clean. breflect. subst s1. cbn [seen_ids seen_names expected_records] in *.
  apply variable_records_spec in E1 as [Hvok ->]; [|done].
  rewrite !fmap_cons, bind_cons, length_app. split_and!.
  - apply list.NoDup_cons. split; [|done]. intros (w & Hw & Hin)%list_elem_of_fmap.
    destruct (Hseen w Hin) as [Hid _]. apply Hid. rewrite <- Hw. apply elem_of_union_l. by apply elem_of_singleton.
  - apply list.NoDup_cons. split; [|done]. intros (w & Hw & Hin)%list_elem_of_fmap.
    destruct (Hseen w Hin) as [_ Hid]. apply Hid. rewrite <- Hw. apply elem_of_union_l. by apply elem_of_singleton.
  - intros w [->|Hw]%elem_of_cons; [done|]. destruct (Hseen w Hw) as [Hw1 Hw2].
    split; intros ?; [apply Hw1|apply Hw2]; by apply elem_of_union_r.
  - by constructor.
  - lia.
Qed.

Lemma scan_ok vs s :
  NoDup (var_meta_id <$> vs) -> NoDup (var_name <$> vs) ->
  (forall v, v ∈ vs -> (var_meta_id v ∉ seen_ids s) /\ (var_name v ∉ seen_names s)) ->
  Forall (variable_ok (nx m * ny m)) vs ->
  expected_records s + Z.of_nat (length (vs ≫= expected_keys m)) < u64_limit ->
  exists s', rfold scan vs s = Ok s' /\
    expected_records s' = expected_records s + Z.of_nat (length (vs ≫= expected_keys m)).
Proof.
  revert s. induction vs as [|v vs IH]; intros s Hi Hn Hseen Hok Hlt; cbn [rfold].
  { exists s. simpl. split; [done|lia]. }
  rewrite !fmap_cons in *. apply list.NoDup_cons in Hi as [Hi1 Hi2]. apply list.NoDup_cons in Hn as [Hn1 Hn2].
  apply list.Forall_cons in Hok as [Hv Hok]. rewrite bind_cons, length_app in *.
  destruct (Hseen v ltac:(left)) as [Hs1 Hs2].
  set (s1 := {| expected_records := expected_records s + Z.of_nat (length (expected_keys m v));
                seen_ids := {[var_meta_id v]} ∪ seen_ids s;
                seen_names := {[var_name v]} ∪ seen_names s |}).
  assert (scan s v = Ok s1) as ->.
  { unfold scan, scan_variable. rewrite !bool_decide_eq_false_2 by done. cbn [reject mbind result_bind].
    rewrite (proj2 (variable_records_spec m v (length (expected_keys m v)) Hcells)) by done.
    cbn [mbind result_bind]. unfold checked_add64. by rewrite (proj2 (Z.ltb_lt _ _)) by lia. }
  cbn [mbind result_bind].
  destruct (IH s1 Hi2 Hn2) as (s' & Hs' & Hc).
  - intros w Hw. destruct (Hseen w ltac:(by right)). simpl.
    rewrite !not_elem_of_union, !not_elem_of_singleton. split; (split; [|done]);
      intros Heq; [apply Hi1|apply Hn1]; rewrite <- Heq; by apply list_elem_of_fmap_2.
  - done.
  - simpl. lia.
  - exists s'. split; [done|]. rewrite Hc. simpl. lia.
Qed.
End scan.

Definition standard_chunking : RwsChunking :=
  {| chunk_tile_y := TILE_Y; chunk_tile_x := TILE_X; chunk_col_y := COL_Y; chunk_col_x := COL_X |}.

Lemma div_ceil_le n t : (0 < t)%nat -> (div_ceil n t <= n)%nat.
Proof.
  intros Ht. destruct n as [|n].
  { unfold div_ceil. rewrite Nat.div_small by lia. lia. }
  destruct (decide (div_ceil (S n) t <= S n)%nat) as [|Hgt]; [done|].
  assert (S n < div_ceil (S n) t)%nat as Hlt by lia. apply div_ceil_lt in Hlt; [nia|done].
Qed.

Lemma div_ceil_pos n t : (0 < t)%nat -> n <> 0%nat -> (0 < div_ceil n t)%nat.
Proof. intros. apply div_ceil_lt; lia. Qed.

Lemma chunk_count_fits m (ty tx : nat) :
  (0 < ty)%nat -> (0 < tx)%nat -> Z.of_nat (nx m * ny m) <= MAX_GRID_CELLS ->
  checked_mul (div_ceil (ny m) ty) (div_ceil (nx m) tx)
  = Some (div_ceil (ny m) ty * div_ceil (nx m) tx)%nat.
Proof.
  intros Hy Hx Hc. apply checked_mul_ok.
  pose proof (div_ceil_le (ny m) ty Hy). pose proof (div_ceil_le (nx m) tx Hx).
  assert (MAX_GRID_CELLS < usize_limit) by done. nia.
Qed.

Lemma validate_hour_meta_spec m h :
  validate_hour_meta m h = Ok tt <->
  is_ok (validate_time_schema m) /\ chunking m = standard_chunking /\
  Z.of_nat (length (variables m)) <= u16_limit /\ meta_ok m /\
  index_count h = Z.of_nat (length (all_keys m)).
Proof.
  unfold validate_hour_meta. split.
  - intros Hv. res_inv Hv. res_clean. breflect.
    destruct (validate_time_schema m) as [t| |] eqn:Ht; simpl in E; [|done..].
    destruct (Z.of_nat x <=? MAX_GRID_CELLS) eqn:Hcells; [|done]. simplify_eq. breflect.
    subst. apply scan_inv in E6 as (Hi & Hn & _ & Hok & Hcount); [|done].
    cbn [expected_records] in Hcount. rewrite Z.add_0_l in Hcount.
    split_and!.
    + by eexists.
    + destruct (chunking m); simpl in *; by subst.
    + lia.
    + constructor; auto. unfold all_keys. lia.
    + unfold all_keys. lia.
  - intros ([t Ht] & Hch & Hlen & Hok & Hcount). destruct Hok as [? ? Hcells Hi Hn Hvs Htot].
    rewrite Ht, Hch. cbn [map_err mbind result_bind standard_chunking chunk_tile_y chunk_tile_x
                          chunk_col_y chunk_col_x].
    destruct (Nat.eqb_spec (nx m) 0); [done|]. destruct (Nat.eqb_spec (ny m) 0); [done|].
    rewrite !Nat.eqb_refl. cbn [orb andb negb reject mbind result_bind].
    rewrite (checked_mul_ok (nx m) (ny m)).
    2:{ rewrite <- Nat2Z.inj_mul. by apply Z.le_lt_trans with MAX_GRID_CELLS. }
    cbn [mbind option_bind]. rewrite (proj2 (Z.leb_le _ _)) by done. cbn [ok_or mbind result_bind].
    rewrite (proj2 (Z.ltb_ge _ _)) by lia. cbn [reject mbind result_bind].
    rewrite !chunk_count_fits by (unfold TILE_Y, TILE_X, COL_Y, COL_X; auto; lia).
    cbn [ok_or mbind result_bind].
    destruct (scan_ok m Hcells (variables m)
                {| expected_records := 0; seen_ids := ∅; seen_names := ∅ |}) as (s' & -> & Hs'); auto.
    + intros v _. cbn [seen_ids seen_names]. split; apply not_elem_of_empty.
    + cbn [expected_records]. assert (MAX_INDEX_RECORDS < u64_limit) by done. unfold all_keys in *. lia.
    + cbn [mbind result_bind expected_records] in *. unfold all_keys in *.
      rewrite (proj2 (Z.ltb_ge _ _)) by lia. cbn [reject mbind result_bind].
      rewrite Hcount, Hs', Z.add_0_l, Z.eqb_refl. done.
Qed.

(** [variables] as a map, when the ids differ. *)
Lemma variable_map_aux vs acc id v :
  fold_left (fun (m : gmap Z RwsVariableMeta) v => <[var_meta_id v := v]> m) vs acc !! id = Some v ->
  v ∈ vs /\ var_meta_id v = id \/ acc !! id = Some v.
Proof.
  revert acc. induction vs as [|w vs IH]; intros acc Hl; simpl in Hl; [by right|].
  apply IH in Hl as [[Hv Hid]|Hl]; [left; split; [by right|done]|].
  apply lookup_insert_Some in Hl as [[<- <-]|[_ Hl]]; [left; split; [by left|done]|by right].
Qed.

Lemma variable_map_inv vs id v :
  variable_map vs !! id = Some v -> v ∈ vs /\ var_meta_id v = id.
Proof. intros [?|Hl]%variable_map_aux; [done|]. by rewrite lookup_empty in Hl. Qed.

Lemma variable_map_fold vs acc v :
  NoDup (var_meta_id <$> vs) ->
  v ∈ vs \/ acc !! var_meta_id v = Some v /\ (var_meta_id v ∉ var_meta_id <$> vs) ->
  fold_left (fun (m : gmap Z RwsVariableMeta) v => <[var_meta_id v := v]> m) vs acc !! var_meta_id v
  = Some v.
Proof.
  revert acc. induction vs as [|w vs IH]; intros acc Hnd Hv; simpl.
  { destruct Hv as [Hv%not_elem_of_nil|[? _]]; done. }
  rewrite fmap_cons in *. apply list.NoDup_cons in Hnd as [Hw Hnd]. apply IH; [done|].
  destruct Hv as [[->|Hv]%elem_of_cons|[Hv Hnot]]; [right|by left|right].
  - by rewrite lookup_insert_eq.
  - apply not_elem_of_cons in Hnot as [Hne Hnot]. by rewrite lookup_insert_ne.
Qed.

Lemma variable_map_lookup vs v :
  NoDup (var_meta_id <$> vs) -> v ∈ vs -> variable_map vs !! var_meta_id v = Some v.
Proof. intros. apply variable_map_fold; auto. Qed.
End meta.

(** ** Index records *)

Section records.
Context `{JsonValue}.
Implicit Types (v : RwsVariableMeta) (m : RwsHourMeta) (lay : ChunkLayout) (rec : ChunkRecord).

(** Values in the chunk at [(ty, tx)], clipped to the grid. *)
Definition chunk_height m lay ty : nat := Nat.min (ny m - ty * lay_y lay) (lay_y lay).
Definition chunk_width m lay tx : nat := Nat.min (nx m - tx * lay_x lay) (lay_x lay).
Definition chunk_values m lay ty tx : nat :=
  (chunk_height m lay ty * chunk_width m lay tx * lay_levels lay)%nat.

Definition payload_free rec : bool :=
  has_flag (flags rec) FLAG_EMPTY
  || (has_flag (flags rec) FLAG_CONSTANT && negb (has_flag (flags rec) FLAG_HAS_MISSING)).

Definition payload_ok rec (poff flen : Z) (raw : nat) : Prop :=
  if payload_free rec then len rec = 0 /\ raw_len rec = 0
  else len rec <> 0 /\ raw_len rec = Z.of_nat raw /\
       len rec <= Z.of_nat raw + MAX_CHUNK_COMP_OVERHEAD /\
       poff <= offset rec /\ offset rec + len rec <= flen.

(** A record that belongs to variable [v] with layout [lay]. *)
Definition record_of m (poff flen : Z) v lay rec : Prop :=
  v ∈ variables m /\ var_meta_id v = var_id rec /\ chunk_layout v = Some lay /\
  kind rec = lay_kind lay /\ Z.land (flags rec) 248 = 0 /\
  (Z.to_nat (tile_y rec) < chunk_rows m lay)%nat /\ (Z.to_nat (tile_x rec) < chunk_cols m lay)%nat /\
  payload_ok rec poff flen
    (chunk_values m lay (Z.to_nat (tile_y rec)) (Z.to_nat (tile_x rec)) * lay_width lay) /\
  valid_count rec <= Z.of_nat (chunk_values m lay (Z.to_nat (tile_y rec)) (Z.to_nat (tile_x rec))).

(** The layouts there are. *)
Lemma chunk_layout_cases v lay :
  chunk_layout v = Some lay ->
  (var_kind v = "surface2d" /\ lay = {| lay_kind := KIND_TILE2D; lay_y := TILE_Y; lay_x := TILE_X;
     lay_levels := 1; lay_width := 4 |}) \/
  (var_kind v = "pressure3d" /\ lay = {| lay_kind := KIND_COLUMN3D; lay_y := COL_Y; lay_x := COL_X;
     lay_levels := length (levels_hpa v); lay_width := 2 |}).
Proof.
  unfold chunk_layout. intros Hl. repeat case_bool_decide; simplify_eq; auto.
Qed.

Lemma lay_pos v lay : chunk_layout v = Some lay -> (0 < lay_y lay /\ 0 < lay_x lay)%nat.
Proof.
  intros [[_ ->]|[_ ->]]%chunk_layout_cases; simpl; unfold TILE_Y, TILE_X, COL_Y, COL_X; lia.
Qed.

Lemma chunk_area_le m lay ty tx :
  (chunk_height m lay ty * chunk_width m lay tx <= nx m * ny m)%nat.
Proof.
  unfold chunk_height, chunk_width. rewrite (Nat.mul_comm (nx m)). apply Nat.mul_le_mono; lia.
Qed.

(** The byte count of any chunk fits a machine word with room to spare. *)
Lemma chunk_bytes_fit m v lay ty tx :
  meta_ok m -> v ∈ variables m -> chunk_layout v = Some lay ->
  Z.of_nat (chunk_values m lay ty tx * lay_width lay) < 2 ^ 63.
Proof.
  intros Hm Hv Hlay. pose proof (ok_cells _ Hm) as Hc.
  pose proof (proj1 (list.Forall_forall _ _) (ok_vars _ Hm) v Hv) as Hvok.
  pose proof (chunk_area_le m lay ty tx) as Harea.
  assert (12 * MAX_GRID_CELLS < 2 ^ 63) by done. assert (4 * MAX_VOLUME_ELEMENTS < 2 ^ 63) by done.
  unfold chunk_values. destruct (chunk_layout_cases v lay Hlay) as [[Hk ->]|[Hk ->]]; cbn [lay_levels lay_width].
  - nia.
  - destruct Hvok as [(Hk' & _)|(_ & _ & _ & _ & _ & Hvol)]; [by rewrite Hk' in Hk|].
    set (L := length (levels_hpa v)) in *. set (A := (chunk_height _ _ _ * chunk_width _ _ _)%nat) in *.
    assert (A * L <= L * (nx m * ny m))%nat by (rewrite (Nat.mul_comm L); by apply Nat.mul_le_mono_r).
    lia.
Qed.

Lemma validate_payload_range_spec rec h flen raw :
  Z.of_nat raw < 2 ^ 63 -> flen < u64_limit ->
  validate_payload_range rec h flen raw = Ok tt <-> payload_ok rec (payload_offset h) flen raw.
Proof.
  intros Hraw Hflen. unfold validate_payload_range, payload_ok. fold (payload_free rec).
  destruct (payload_free rec).
  - split.
    + intros Hr. res_inv Hr. breflect. done.
    + intros [-> ->]. done.
  - assert (checked_add64 (Z.of_nat raw) MAX_CHUNK_COMP_OVERHEAD
            = Some (Z.of_nat raw + MAX_CHUNK_COMP_OVERHEAD)) as ->.
    { unfold checked_add64. rewrite (proj2 (Z.ltb_lt _ _)); [done|].
      unfold MAX_CHUNK_COMP_OVERHEAD, u64_limit. lia. }
    split.
    + intros Hr. res_inv Hr. res_clean. breflect. subst. split_and!; done.
    + intros (Hl & Hrl & Hmax & Hoff & Hend). rewrite Hrl.
      rewrite (proj2 (Z.eqb_neq _ _)) by done. rewrite Z.eqb_refl. cbn [negb orb reject mbind result_bind].
      rewrite (proj2 (Z.ltb_ge _ _)) by done. rewrite (proj2 (Z.ltb_ge _ _)) by done.
      cbn [reject mbind result_bind]. unfold checked_add64.
      rewrite (proj2 (Z.ltb_lt _ _)) by lia. cbn [ok_or mbind result_bind].
      by rewrite (proj2 (Z.ltb_ge _ _)) by done.
Qed.

Lemma validate_chunk_record_spec m h flen rec :
  meta_ok m -> flen < u64_limit ->
  validate_chunk_record rec m h flen (variable_map (variables m)) = Ok tt <->
  exists v lay, record_of m (payload_offset h) flen v lay rec.
Proof.
  intros Hm Hflen. unfold validate_chunk_record, record_of. split.
  - intros Hr. res_inv Hr. repeat match goal with Hu : usub _ _ = Ok _ |- _ => apply usub_inv in Hu as [? ->] end.
    res_clean. breflect. subst. destruct a.
    apply variable_map_inv in E as [Hv Hid].
    match goal with Hlay : chunk_layout ?v = Some ?l |- _ => exists v, l end.
    match goal with Hp : validate_payload_range _ _ _ _ = Ok ?u |- _ => destruct u; rename Hp into Hpay end.
    pose proof (chunk_bytes_fit m _ _ (Z.to_nat (tile_y rec)) (Z.to_nat (tile_x rec)) Hm Hv E0) as Hfit.
    apply validate_payload_range_spec in Hpay; [|exact Hfit|done].
    split_and!; try done; unfold chunk_rows, chunk_cols; lia.
  - intros (v & lay & Hv & Hid & Hlay & Hk & Hf & Hy & Hx & Hpay & Hcount).
    rewrite <- Hid, (variable_map_lookup _ _ (ok_ids _ Hm) Hv). cbn [ok_or mbind result_bind].
    rewrite Hlay. cbn [ok_or mbind result_bind]. rewrite Hk, Hf, !Z.eqb_refl. cbn [negb reject mbind result_bind].
    unfold chunk_rows, chunk_cols in *.
    rewrite (proj2 (Nat.leb_gt _ _) Hy), (proj2 (Nat.leb_gt _ _) Hx). cbn [orb reject mbind result_bind].
    pose proof (chunk_bytes_fit m v lay (Z.to_nat (tile_y rec)) (Z.to_nat (tile_x rec)) Hm Hv Hlay) as Hfit.
    destruct (lay_pos v lay Hlay) as [Hly Hlx]. pose proof (ok_nx _ Hm). pose proof (ok_ny _ Hm).
    pose proof (ok_cells _ Hm) as Hcells. assert (MAX_GRID_CELLS < usize_limit) as Hmax by done.
    apply div_ceil_lt in Hy; [|done]. apply div_ceil_lt in Hx; [|done].
    rewrite (checked_mul_ok (Z.to_nat (tile_y rec))), (checked_mul_ok (Z.to_nat (tile_x rec))) by nia.
    cbn [ok_or mbind result_bind]. rewrite !usub_ok by lia. cbn [mbind result_bind].
    fold (chunk_height m lay (Z.to_nat (tile_y rec))) (chunk_width m lay (Z.to_nat (tile_x rec))).
    pose proof (chunk_area_le m lay (Z.to_nat (tile_y rec)) (Z.to_nat (tile_x rec))) as Harea.
    rewrite (checked_mul_ok (chunk_height _ _ _)) by lia. cbn [mbind option_bind].
    assert (Z.of_nat (chunk_values m lay (Z.to_nat (tile_y rec)) (Z.to_nat (tile_x rec))) < 2 ^ 63) as Hvals.
    { destruct (chunk_layout_cases v lay Hlay) as [[_ ->]|[_ ->]]; cbn [lay_width] in Hfit; lia. }
    unfold chunk_values in *.
    rewrite checked_mul_ok by (rewrite <- Nat2Z.inj_mul; unfold usize_limit; lia).
    cbn [ok_or mbind result_bind].
    rewrite checked_mul_ok by (rewrite <- Nat2Z.inj_mul; unfold usize_limit; lia).
    cbn [ok_or mbind result_bind].
    rewrite (proj2 (validate_payload_range_spec rec h flen _ Hfit Hflen) Hpay).
    cbn [mbind result_bind]. by rewrite (proj2 (Z.ltb_ge _ _) Hcount).
Qed.
End records.

(** ** The reader invariant *)

Lemma index_records_bound : 64 * MAX_INDEX_RECORDS + MAX_HOUR_META_LEN + 64 < usize_limit.
Proof. done. Qed.

Section reader_ok.
Context `{F32Ties, External}.
Implicit Types (v : RwsVariableMeta) (m : RwsHourMeta) (r : HourReader) (h : RwsHeader).

Record reader_ok r : Prop := {
  rok_meta : meta_ok (r_meta r);
  rok_sorted : key_sorted (r_records r);
  rok_ranges : ranges_cover (r_records r) (r_var_ranges r) (length (r_records r));
  rok_len : Z.of_nat (length (r_bytes r)) <= MAX_HOUR_FILE_LEN;
  rok_records : exists poff, 0 <= poff /\ Forall (fun rec => record_wf rec /\
    exists v lay, record_of (r_meta r) poff (Z.of_nat (length (r_bytes r))) v lay rec) (r_records r);
  rok_count : length (r_records r) = length (all_keys (r_meta r))
}.

(** The header bounds a file of [n] bytes must respect. *)
Definition bounds_ok h (n : Z) : Prop :=
  64 <= n <= MAX_HOUR_FILE_LEN /\ meta_len h <= MAX_HOUR_META_LEN /\
  index_count h <= MAX_INDEX_RECORDS /\ payload_offset h <= n.

Lemma validate_header_bounds_spec h n :
  header_ok h -> validate_header_bounds h n = Ok tt <-> bounds_ok h n.
Proof.
  intros (_ & Hml & Hic & Hio & Hpo & Hlim). unfold validate_header_bounds, bounds_ok, in_width in *.
  assert (MAX_HOUR_FILE_LEN < usize_limit) by done.
  change (Z.of_nat HEADER_LEN) with 64. change u64_limit with usize_limit in *. split.
  - intros Hv. res_inv Hv. res_clean. breflect. lia.
  - intros ([? ?] & ? & ? & ?).
    zdecide. done.
Qed.

(** A hour file: header, metadata and index, each accepted by its check. *)
Record hour_file (file : list byte) h m (records : list ChunkRecord) : Prop := {
  hf_parse : parse file = Ok h;
  hf_bounds : bounds_ok h (Z.of_nat (length file));
  hf_meta : exists meta_bytes, slice (E := RwStoreError) file HEADER_LEN (Z.to_nat (index_offset h)) = Ok meta_bytes
              /\ json_from_slice meta_bytes = Ok m;
  hf_valid : validate_hour_meta m h = Ok tt;
  hf_records : rmap (read_record file m h (variable_map (variables m)))
                 (seq 0 (Z.to_nat (index_count h))) = Ok records;
  hf_sorted : key_sorted records
}.

Lemma parse_header_bytes file h hb :
  slice (E := RwStoreError) file 0 HEADER_LEN = Ok hb -> parse hb = Ok h <-> parse file = Ok h.
Proof.
  intros Hs. apply slice_inv in Hs as (_ & Hlen & ->). change (HEADER_LEN - 0)%nat with 64%nat.
  rewrite drop_0. assert (length (take 64 file) = 64%nat) as Htl by (rewrite length_take; unfold HEADER_LEN in *; lia).
  assert (take 40 (take 64 file) = take 40 file) as Ht by (rewrite take_take; done).
  split; intros Hp; apply parse_sound in Hp as (Hok & Hl & Hpre).
  - rewrite (parse_prefix file h), parse_pack; [done..|rewrite <- Hpre; done].
  - rewrite (parse_prefix (take 64 file) h), parse_pack; [done|done|lia|by rewrite Ht].
Qed.

Lemma open_reader_inv src mm file r :
  open_reader src mm file = Ok r ->
  exists h, hour_file file h (r_meta r) (r_records r) /\ r_bytes r = file /\ r_source r = src /\
    build_var_ranges (r_records r) = Ok (r_var_ranges r).
Proof.
  unfold open_reader. intros Hr. res_inv Hr.
  assert (a = file) as ->.
  { unfold open_bytes, read_file_to_ram in E. res_inv E; congruence. }
  destruct a0 as [h m]. res_inv Hr. res_clean. subst r. exists h. split_and!; [|done..].
  unfold parse_and_validate_hour in E0. res_inv E0. simplify_eq. res_clean. breflect.
  match goal with Hp : parse file = Ok _ |- _ => pose proof (parse_sound _ _ Hp) as (Hok & Hlen & _) end.
  constructor; cbn [r_meta r_records]; try done.
  - match goal with Hb : validate_header_bounds _ _ = Ok ?u |- _ => destruct u;
      by apply validate_header_bounds_spec in Hb end.
  - match goal with Hp : parse_hour_meta ?b = Ok _ |- _ => exists b; unfold parse_hour_meta in Hp;
      destruct (json_from_slice b) eqn:Hj end; simpl in *; simplify_eq. done.
  - match goal with Hb : validate_hour_meta _ _ = Ok ?u |- _ => by destruct u end.
  - apply index_sorted_spec. unfold index_sorted. by apply negb_true_iff.
Qed.

Lemma read_record_inv file m h vars i rec :
  read_record file m h vars i = Ok rec ->
  record_wf rec /\ validate_chunk_record rec m h (Z.of_nat (length file)) vars = Ok tt.
Proof.
  unfold read_record. intros Hr. res_inv Hr. subst.
  match goal with Hu : unpack _ = Ok _ |- _ => apply unpack_sound in Hu as (Hwf & _) end.
  split; [done|]. match goal with Hb : validate_chunk_record _ _ _ _ _ = Ok ?u |- _ => by destruct u end.
Qed.

Lemma hour_file_reader_ok file h m records ranges src :
  hour_file file h m records -> build_var_ranges records = Ok ranges ->
  reader_ok {| r_bytes := file; r_source := src; r_meta := m; r_records := records;
               r_var_ranges := ranges |}.
Proof.
  intros [Hp Hb (mb & Hmb & Hj) Hv Hrec Hs] Hranges.
  apply validate_hour_meta_spec in Hv as (_ & _ & _ & Hm & Hcount).
  pose proof (parse_sound _ _ Hp) as ((_ & Hml & Hic & Hio & Hpo & _) & _ & _).
  unfold bounds_ok, in_width in *. apply rmap_ok_inv in Hrec.
  constructor; simpl; [done|done|..|].
  - destruct (build_var_ranges_ok records Hs) as (ranges' & Hr' & Hcov). rewrite Hranges in Hr'. by injection Hr' as <-.
  - lia.
  - exists (payload_offset h). split; [lia|].
    apply list.Forall_forall. intros rec Hin. apply list_elem_of_lookup in Hin as [i Hi].
    destruct (Forall2_lookup_r _ _ _ _ _ Hrec Hi) as (k & _ & Hk).
    apply read_record_inv in Hk as [Hwf Hval]. split; [done|].
    apply validate_chunk_record_spec in Hval; [done|done|].
    assert (MAX_HOUR_FILE_LEN < u64_limit) by done. lia.
  - apply Forall2_length in Hrec. rewrite length_seq in Hrec. lia.
Qed.

Lemma open_reader_ok src mm file r : open_reader src mm file = Ok r -> reader_ok r.
Proof.
  intros (h & Hf & Hbytes & Hsrc & Hranges)%open_reader_inv.
  pose proof (hour_file_reader_ok _ _ _ _ _ src Hf Hranges) as Hok. destruct r; simpl in *. by subst.
Qed.

Lemma open_reader_intro src file h m records :
  alloc_succeeds -> hour_file file h m records ->
  exists r, open_reader src true file = Ok r /\ r_bytes r = file /\ r_meta r = m /\ r_records r = records.
Proof.
  intros Halloc [Hp Hb (mb & Hmb & Hj) Hv Hrec Hs].
  pose proof (parse_sound _ _ Hp) as ((Hver & Hml & Hic & Hio & Hpo & Hlim) & Hlen & Hpre).
  assert (header_ok h) as Hok by done.
  assert (bounds_ok h (Z.of_nat (length file))) as Hb' by done.
  unfold bounds_ok, in_width in Hb', Hml, Hic. pose proof index_records_bound.
  assert (validate_header_bounds h (Z.of_nat (length file)) = Ok tt) as Hvb by by apply validate_header_bounds_spec.
  assert (parse_hour_meta mb = Ok m) as Hpm by (unfold parse_hour_meta; by rewrite Hj).
  assert (open_bytes true file = Ok file) as Hob.
  { unfold open_bytes. change (Z.of_nat HEADER_LEN) with 64. zdecide. rrun.
    destruct (slice file 0 HEADER_LEN) as [hb| |] eqn:Hs0;
      [|by rewrite slice_ok in Hs0 by (unfold HEADER_LEN; lia)..].
    rrun. rewrite (proj2 (parse_header_bytes file h hb Hs0) Hp). rrun. rewrite Hvb. rrun.
    unfold try_zeroed_bytes. rewrite Halloc. rrun.
    replace (HEADER_LEN + Z.to_nat (meta_len h))%nat with (Z.to_nat (index_offset h))
      by (unfold HEADER_LEN; lia).
    rewrite Hmb. rrun. rewrite Hpm. rrun. by rewrite Hv. }
  assert (parse_and_validate_hour file = Ok (h, m)) as Hpv.
  { unfold parse_and_validate_hour. rewrite Hp. rrun. rewrite Hvb. rrun. zdecide. rrun.
    rewrite Hmb. rrun. rewrite Hpm. rrun. by rewrite Hv. }
  destruct (build_var_ranges_ok records Hs) as (ranges & Hranges & _).
  unfold open_reader. rewrite Hob. rrun. rewrite Hpv. rrun. zdecide. rrun.
  rewrite Halloc. rrun. rewrite Hrec. rrun.
  apply index_sorted_spec, negb_true_iff in Hs. rewrite Hs. rrun. rewrite Hranges. rrun. by eexists.
Qed.

(** ** Opening never panics *)

Context `{!ExternalLaws}.

Lemma validate_time_schema_no_panic m : validate_time_schema m <> Panic.
Proof.
  unfold validate_time_schema. apply bind_no_panic; [by repeat case_match|].
  intros t _. case_bool_decide; [by destruct t|]. case_bool_decide; [|done]. no_panic.
Qed.

Lemma validate_hour_meta_no_panic m h : validate_hour_meta m h <> Panic.
Proof.
  unfold validate_hour_meta. no_panic.
  - pose proof (validate_time_schema_no_panic m). by destruct (validate_time_schema m).
  - apply (rfold_no_panic _ (fun _ => True)); [done| |done]. intros v s _ _.
    unfold scan_variable, variable_records. no_panic.
Qed.

Lemma parse_hour_meta_no_panic bytes : parse_hour_meta bytes <> Panic.
Proof. unfold parse_hour_meta. pose proof (json_from_slice_no_panic bytes). by destruct (json_from_slice bytes). Qed.

Lemma try_zeroed_bytes_no_panic n : try_zeroed_bytes n <> Panic.
Proof. unfold try_zeroed_bytes. by case_match. Qed.

Lemma try_filled_f32_no_panic n x : try_filled_f32 n x <> Panic.
Proof. unfold try_filled_f32. by case_match. Qed.

Lemma validate_chunk_record_no_panic rec m h n vars : validate_chunk_record rec m h n vars <> Panic.
Proof.
  unfold validate_chunk_record. apply bind_no_panic; [auto with rw|]. intros v _. apply bind_no_panic; [auto with rw|]. intros lay Hlay%ok_or_inv.
  do 2 (apply bind_no_panic; [auto with rw|]; intros _ _). apply bind_no_panic; [auto with rw|]. intros _ Hguard%reject_inv.
  apply orb_false_iff in Hguard as [Hy%Nat.leb_gt Hx%Nat.leb_gt]. destruct (lay_pos v lay Hlay) as [Hly Hlx].
  apply div_ceil_lt in Hy; [|done]. apply div_ceil_lt in Hx; [|done].
  apply bind_no_panic; [auto with rw|]. intros y0 E1%ok_or_inv. apply bind_no_panic; [auto with rw|]. intros x0 E2%ok_or_inv.
  apply checked_mul_inv in E1 as [-> _], E2 as [-> _]. rewrite !usub_ok by lia. cbn [mbind result_bind].
  unfold validate_payload_range. no_panic.
Qed.

Lemma open_bytes_no_panic mm file : open_bytes mm file <> Panic.
Proof.
  unfold open_bytes. apply bind_no_panic; [auto with rw|]. intros _ Hlen%reject_inv. breflect.
  apply bind_no_panic; [auto with rw|]. intros _ _.
  assert (HEADER_LEN <= length file)%nat by lia.
  apply bind_no_panic; [apply slice_no_panic; lia|]. intros hb Hhb.
  apply bind_no_panic; [apply parse_no_panic|]. intros h Hh.
  apply bind_no_panic; [unfold validate_header_bounds; no_panic|]. intros [] Hb.
  pose proof (parse_sound _ _ Hh) as (Hok & _). apply validate_header_bounds_spec in Hb; [|done].
  destruct Hok as (_ & Hml & Hic & Hio & Hpo & _). unfold bounds_ok, in_width in *.
  apply bind_no_panic; [apply try_zeroed_bytes_no_panic|]. intros _ _.
  apply bind_no_panic; [apply slice_no_panic; unfold HEADER_LEN; lia|]. intros mb _.
  apply bind_no_panic; [apply parse_hour_meta_no_panic|]. intros m _.
  apply bind_no_panic; [apply validate_hour_meta_no_panic|]. intros _ _.
  destruct mm; [done|]. unfold read_file_to_ram. no_panic. apply try_zeroed_bytes_no_panic.
Qed.

Lemma open_reader_never_panics src mm file : open_reader src mm file <> Panic.
Proof.
  unfold open_reader. apply bind_no_panic; [apply open_bytes_no_panic|]. intros data _.
  apply bind_no_panic.
  { unfold parse_and_validate_hour. apply bind_no_panic; [apply parse_no_panic|]. intros h Hh.
    apply bind_no_panic; [unfold validate_header_bounds; no_panic|]. intros [] Hb.
    pose proof (parse_sound _ _ Hh) as (Hok & _). apply validate_header_bounds_spec in Hb; [|done].
    destruct Hok as (_ & Hml & Hic & Hio & Hpo & _). unfold bounds_ok, in_width in *.
    no_panic; [apply slice_no_panic; unfold HEADER_LEN; lia|apply parse_hour_meta_no_panic
      |apply validate_hour_meta_no_panic]. }
  intros [h m] Hpv. unfold parse_and_validate_hour in Hpv. res_inv Hpv. simplify_eq.
  match goal with Hp : parse data = Ok _ |- _ => pose proof (parse_sound _ _ Hp) as (Hok & _) end.
  match goal with Hb : validate_header_bounds _ _ = Ok ?u |- _ =>
    destruct u; apply validate_header_bounds_spec in Hb as Hbo; [|done] end.
  destruct Hok as (_ & Hml & Hic & Hio & Hpo & _). unfold bounds_ok, in_width in *.
  do 3 (apply bind_no_panic; [auto with rw|]; intros _ _).
  apply bind_no_panic.
  { apply rmap_no_panic. intros i Hi%elem_of_seq. unfold read_record.
    pose proof index_records_bound.
    rewrite checked_mul_ok by (unfold INDEX_RECORD_LEN; lia). cbn [mbind option_bind].
    do 2 (rewrite checked_add_ok by (unfold INDEX_RECORD_LEN; lia); rrun).
    apply bind_no_panic; [apply slice_no_panic; unfold INDEX_RECORD_LEN; lia|]. intros b _.
    apply bind_no_panic; [apply unpack_no_panic|]. intros rec _. no_panic.
    apply validate_chunk_record_no_panic. }
  intros records _. apply bind_no_panic; [auto with rw|]. intros _ Hs%reject_inv.
  destruct (build_var_ranges_ok records) as (ranges & -> & _); [|done].
  apply index_sorted_spec. unfold index_sorted. by rewrite Hs.
Qed.
End reader_ok.

(** ** Completeness of the index *)

Section complete.
Context `{F32Ties, External}.
Implicit Types (v : RwsVariableMeta) (m : RwsHourMeta) (r : HourReader) (lay : ChunkLayout).

Lemma elem_of_expected_keys m v lay ty tx :
  chunk_layout v = Some lay -> (ty < chunk_rows m lay)%nat -> (tx < chunk_cols m lay)%nat ->
  (var_meta_id v, lay_kind lay, Z.of_nat ty, Z.of_nat tx) ∈ expected_keys m v.
Proof.
  intros Hlay Hy Hx. unfold expected_keys. rewrite Hlay.
  apply list_elem_of_fmap. exists (ty, tx). split; [done|]. by apply elem_of_grid_coords.
Qed.

Lemma expected_keys_id m v k : k ∈ expected_keys m v -> k.1.1.1 = var_meta_id v.
Proof.
  unfold expected_keys. destruct (chunk_layout v) as [lay|]; [|by intros ?%not_elem_of_nil].
  by intros (c & -> & _)%list_elem_of_fmap.
Qed.

Lemma NoDup_expected_keys m v : NoDup (expected_keys m v).
Proof.
  unfold expected_keys. destruct (chunk_layout v) as [lay|]; [|constructor].
  apply NoDup_fmap_2_strong; [|apply NoDup_grid_coords].
  intros [y1 x1] [y2 x2] _ _ [=]. f_equal; lia.
Qed.

Lemma elem_of_all_keys m v k : v ∈ variables m -> k ∈ expected_keys m v -> k ∈ all_keys m.
Proof. intros Hv Hk. apply list_elem_of_bind. eauto. Qed.

Lemma record_key r rec :
  reader_ok r -> rec ∈ r_records r ->
  exists v, v ∈ variables (r_meta r) /\ var_meta_id v = var_id rec /\
    sort_key rec ∈ expected_keys (r_meta r) v.
Proof.
  intros Hok Hin. destruct (rok_records _ Hok) as (poff & _ & Hall).
  destruct (proj1 (list.Forall_forall _ _) Hall rec Hin) as (Hwf & v & lay & Hv & Hid & Hlay & Hk & _ & Hy & Hx & _).
  exists v. split_and!; [done..|].
  destruct Hwf as (_ & _ & _ & [? _] & [? _] & _).
  replace (sort_key rec) with (var_meta_id v, lay_kind lay, Z.of_nat (Z.to_nat (tile_y rec)),
    Z.of_nat (Z.to_nat (tile_x rec))); [by apply elem_of_expected_keys|].
  unfold sort_key. rewrite !Z2Nat.id by done. congruence.
Qed.

(** Strict order, keys in range and the exact count leave no gaps. *)
Lemma index_complete r k : reader_ok r -> k ∈ all_keys (r_meta r) -> k ∈ sort_key <$> r_records r.
Proof.
  intros Hok Hk. apply list_elem_of_In. apply list_elem_of_In in Hk. revert k Hk.
  change (incl (all_keys (r_meta r)) (sort_key <$> r_records r)).
  apply NoDup_length_incl.
  - apply NoDup_ListNoDup, key_sorted_NoDup, rok_sorted, Hok.
  - rewrite length_fmap. rewrite (rok_count _ Hok). done.
  - intros k Hk. apply list_elem_of_In in Hk. apply list_elem_of_In.
    apply list_elem_of_fmap in Hk as (rec & -> & Hrec).
    destruct (record_key r rec Hok Hrec) as (v & Hv & _ & Hkey). by eapply elem_of_all_keys.
Qed.

Lemma chunk_coord_u32 m v lay ty tx :
  meta_ok m -> v ∈ variables m -> chunk_layout v = Some lay ->
  (ty < chunk_rows m lay)%nat -> (tx < chunk_cols m lay)%nat ->
  Z.of_nat ty mod u32_limit = Z.of_nat ty /\ Z.of_nat tx mod u32_limit = Z.of_nat tx.
Proof.
  intros Hm Hv Hlay Hy Hx. pose proof (ok_total _ Hm) as Htot.
  assert (length (expected_keys m v) <= length (all_keys m))%nat as Hle.
  { unfold all_keys. apply list_elem_of_split in Hv as (l1 & l2 & ->).
    rewrite bind_app, bind_cons, !length_app. lia. }
  rewrite (length_expected_keys m v lay Hlay) in Hle.
  assert (MAX_INDEX_RECORDS < u32_limit) by done.
  split; apply Z.mod_small; nia.
Qed.

Lemma chunk_record_found r v lay ty tx :
  reader_ok r -> v ∈ variables (r_meta r) -> chunk_layout v = Some lay ->
  (ty < chunk_rows (r_meta r) lay)%nat -> (tx < chunk_cols (r_meta r) lay)%nat ->
  exists rec, chunk_record r v (lay_kind lay) ty tx = Ok rec /\ rec ∈ r_records r /\
    sort_key rec = (var_meta_id v, lay_kind lay, Z.of_nat ty, Z.of_nat tx).
Proof.
  intros Hok Hv Hlay Hy Hx.
  pose proof (index_complete r _ Hok (elem_of_all_keys _ _ _ Hv
    (elem_of_expected_keys _ _ _ _ _ Hlay Hy Hx))) as Hk.
  apply list_elem_of_fmap in Hk as (rec & Hkey & Hin). pose proof Hin as Hin'.
  apply list_elem_of_lookup in Hin as [i Hi]. exists rec. split; [|done].
  assert (var_id rec = var_meta_id v) as Hid by (unfold sort_key in Hkey; congruence).
  destruct (rok_ranges _ Hok i rec (lookup_lt_Some _ _ _ Hi) Hi) as (a & b & Hab & Hb & Hspec).
  destruct (proj1 (Hspec i rec Hi) eq_refl) as [Hai Hib].
  unfold chunk_record. rewrite <- Hid, Hab. rrun.
  destruct (chunk_coord_u32 _ v lay ty tx (rok_meta _ Hok) Hv Hlay Hy Hx) as [-> ->].
  destruct (slice (r_records r) a b) as [recs| |] eqn:Hs;
    [|by rewrite slice_ok in Hs by lia..]. rrun.
  assert (recs !! (i - a)%nat = Some rec) as Hl.
  { rewrite (lookup_slice _ _ _ _ _ Hs) by lia. rewrite <- Hi. f_equal. lia. }
  rewrite Hid, Hkey, (binary_search_found recs (i - a) rec); [| |done].
  { rrun. by rewrite Hl. }
  by eapply key_sorted_slice, Hs; apply rok_sorted.
Qed.

(** The range of a variable holds exactly its chunks. *)
Lemma var_range_exact r v lay :
  reader_ok r -> v ∈ variables (r_meta r) -> chunk_layout v = Some lay ->
  exists a b, r_var_ranges r !! var_meta_id v = Some (a, b) /\
    (b - a = chunk_rows (r_meta r) lay * chunk_cols (r_meta r) lay)%nat.
Proof.
  intros Hok Hv Hlay. destruct (lay_pos v lay Hlay) as [Hly Hlx].
  pose proof (rok_meta _ Hok) as Hm.
  destruct (chunk_record_found r v lay 0 0 Hok Hv Hlay) as (rec & _ & Hin & Hkey).
  { apply div_ceil_pos; [done|apply Hm]. } { apply div_ceil_pos; [done|apply Hm]. }
  apply list_elem_of_lookup in Hin as [i Hi].
  assert (var_id rec = var_meta_id v) as Hid by (unfold sort_key in Hkey; congruence).
  destruct (rok_ranges _ Hok i rec (lookup_lt_Some _ _ _ Hi) Hi) as (a & b & Hab & Hb & Hspec).
  destruct (proj1 (Hspec i rec Hi) eq_refl) as [Hai Hib].
  exists a, b. rewrite <- Hid. split; [done|]. rewrite <- (length_expected_keys _ v lay Hlay).
  destruct (slice (E := RwStoreError) (r_records r) a b) as [recs| |] eqn:Hs;
    [|by rewrite slice_ok in Hs by lia..].
  rewrite <- (length_slice _ _ _ _ Hs), <- (length_fmap sort_key recs).
  apply Permutation_length, NoDup_Permutation.
  - apply key_sorted_NoDup. by eapply key_sorted_slice, Hs; apply rok_sorted.
  - apply NoDup_expected_keys.
  - intros k. rewrite list_elem_of_fmap. setoid_rewrite list_elem_of_lookup.
    pose proof (length_slice _ _ _ _ Hs) as Hlen. split.
    + intros (x & -> & j & Hj). pose proof (lookup_lt_Some _ _ _ Hj).
      rewrite (lookup_slice _ _ _ _ _ Hs) in Hj by lia.
      assert (var_id x = var_id rec) as Hx by (apply (Hspec _ _ Hj); lia).
      destruct (record_key r x Hok) as (w & Hw & Hwid & Hkw); [apply list_elem_of_lookup; eauto|].
      assert (w = v) as ->; [|by apply list_elem_of_lookup].
      assert (var_meta_id w = var_meta_id v) as Hwv by congruence.
      pose proof (variable_map_lookup _ w (ok_ids _ Hm) Hw) as H1'.
      pose proof (variable_map_lookup _ v (ok_ids _ Hm) Hv) as H2'. rewrite Hwv in H1'. congruence.
    + intros Hk%list_elem_of_lookup.
      pose proof (expected_keys_id _ _ _ Hk) as Hkid.
      pose proof (index_complete r k Hok (elem_of_all_keys _ _ _ Hv Hk)) as Hin.
      apply list_elem_of_fmap in Hin as (x & -> & Hx). apply list_elem_of_lookup in Hx as [j Hj].
      assert (a <= j < b)%nat as Hjab by (apply (Hspec j x Hj); simpl in Hkid; congruence).
      exists x. split; [done|]. exists (j - a)%nat. rewrite (lookup_slice _ _ _ _ _ Hs) by lia.
      rewrite <- Hj. f_equal. lia.
Qed.
End complete.

(** ** Properties *)

(** C30: opening never panics: whatever bytes the file holds, and whether or
    not it can be mapped, [HourReader::open] returns a reader or an error. No
    slice of the header, metadata or index goes out of range. *)
Theorem open_never_panics `{F32Ties, External} (Hlaws : ExternalLaws) src mm file cap :
  open_with_tile_cache_bytes src mm file cap <> Panic.
Proof.
  unfold open_with_tile_cache_bytes. pose proof (open_reader_never_panics src mm file).
  by destruct (open_reader src mm file).
Qed.

Lemma open_never_panics_witness : open_with_tile_cache_bytes 1 true sample_file 1024 <> Panic.
Proof. exact (open_never_panics table_laws 1 true sample_file 1024). Defined.

(** [validate_hour_meta] accepts metadata exactly when the time schema
    is valid, the chunk geometry is the one of format v1, the grid is
    nondegenerate and within its ceiling, ids and names are unique, every
    variable has the codec and levels of its kind, and the index count of the
    header is the number of chunks this geometry needs. *)
Theorem hour_meta_accepted_iff `{JsonValue} m h :
  validate_hour_meta m h = Ok tt <->
  is_ok (validate_time_schema m) /\ chunking m = standard_chunking /\
  Z.of_nat (length (variables m)) <= u16_limit /\ meta_ok m /\
  index_count h = Z.of_nat (length (all_keys m)).
Proof. apply validate_hour_meta_spec. Qed.

(** On metadata that was accepted, [validate_chunk_record] accepts a
    record exactly when it names a variable of the file, has that variable's
    chunk kind, lies inside its chunk grid, carries no unknown flag, counts no
    more valid values than the chunk has, and either has no payload (empty or
    constant) or a payload of the exact decoded size inside the file, past
    the index. None of the overflow checks can fire. *)
Theorem chunk_record_accepted_iff `{JsonValue} m h flen rec :
  meta_ok m -> flen < u64_limit ->
  validate_chunk_record rec m h flen (variable_map (variables m)) = Ok tt <->
  exists v lay, record_of m (payload_offset h) flen v lay rec.
Proof. apply validate_chunk_record_spec. Qed.

(** The index of an opened file has no gaps: every chunk of every
    variable has exactly one record, [chunk_record] finds it by binary search
    in the variable's range, and a record with a payload points inside the
    file. *)
Theorem opened_index_complete `{F32Ties, External} src mm file r v lay ty tx :
  open_reader src mm file = Ok r -> v ∈ variables (r_meta r) -> chunk_layout v = Some lay ->
  (ty < chunk_rows (r_meta r) lay)%nat -> (tx < chunk_cols (r_meta r) lay)%nat ->
  exists rec, chunk_record r v (lay_kind lay) ty tx = Ok rec /\
    (forall rec', rec' ∈ r_records r ->
       sort_key rec' = (var_meta_id v, lay_kind lay, Z.of_nat ty, Z.of_nat tx) <-> rec' = rec) /\
    (payload_free rec = false -> 0 <= offset rec /\ offset rec + len rec <= Z.of_nat (length file)).
Proof.
  intros Hopen Hv Hlay Hy Hx. pose proof (open_reader_ok _ _ _ _ Hopen) as Hok.
  destruct (open_reader_inv _ _ _ _ Hopen) as (h & _ & Hbytes & _).
  destruct (chunk_record_found r v lay ty tx Hok Hv Hlay Hy Hx) as (rec & Hrec & Hin & Hkey).
  exists rec. split_and!; [done|..].
  - intros rec' Hin'. split; [|by intros ->]. intros Hkey'. rewrite <- Hkey in Hkey'.
    apply list_elem_of_lookup in Hin as [i Hi]. apply list_elem_of_lookup in Hin' as [j Hj].
    pose proof (key_sorted_inj _ _ _ _ _ (rok_sorted _ Hok) Hj Hi Hkey') as ->. congruence.
  - destruct (rok_records _ Hok) as (poff & Hpoff & Hall).
    destruct (proj1 (list.Forall_forall _ _) Hall rec Hin) as (_ & w & lay' & _ & _ & _ & _ & _ & _ & _ & Hpay & _).
    unfold payload_ok in Hpay. intros Hf. rewrite Hf in Hpay. rewrite <- Hbytes. lia.
Qed.

Lemma opened_index_complete_witness : exists rec,
  chunk_record sample_reader (sample_var 1) KIND_COLUMN3D 0 0 = Ok rec /\ payload_free rec = false /\
  offset rec + len rec <= Z.of_nat (length sample_file).
Proof.
  destruct (opened_index_complete 7 true sample_file sample_reader (sample_var 1)
    {| lay_kind := KIND_COLUMN3D; lay_y := COL_Y; lay_x := COL_X; lay_levels := 2; lay_width := 2 |} 0 0)
    as (rec & Hrec & _ & Hpay).
  - exact sample_open.
  - apply sample_var_in. lia.
  - vm_compute. reflexivity.
  - apply Nat.ltb_lt. vm_compute. reflexivity.
  - apply Nat.ltb_lt. vm_compute. reflexivity.
  - exists rec. split; [done|].
    assert (payload_free rec = false) as Hf.
    { vm_compute in Hrec. injection Hrec as <-. vm_compute. reflexivity. }
    split; [done|]. by apply Hpay.
Defined.

Lemma chunk_record_accepted_iff_witness : exists rec,
  meta_ok sample_meta /\ validate_chunk_record rec sample_meta (for_layout 2 3) 308
    (variable_map (variables sample_meta)) = Ok tt.
Proof.
  assert (meta_ok (r_meta sample_reader)) as Hm by apply rok_meta, (open_reader_ok _ _ _ _ sample_open).
  replace (r_meta sample_reader) with sample_meta in Hm by (vm_compute; reflexivity).
  destruct (r_records sample_reader !! 0%nat) as [rec|] eqn:Hrec; [|by vm_compute in Hrec].
  exists rec. split; [done|].
  apply (chunk_record_accepted_iff sample_meta (for_layout 2 3) 308 rec Hm); [vm_compute; reflexivity|].
  apply validate_chunk_record_spec; [done|vm_compute; reflexivity|].
  vm_compute in Hrec. injection Hrec as <-. vm_compute. reflexivity.
Defined.

(** The binary search over a strictly sorted run of records returns the
    position of the record with the key, and nothing when there is none. *)
Theorem binary_search_iff l k i :
  key_sorted l ->
  binary_search_by_key l k = Some i <-> exists r, l !! i = Some r /\ sort_key r = k.
Proof.
  intros Hs. split; [apply binary_search_sound|].
  intros (r & Hr & <-). by apply binary_search_found.
Qed.

Lemma binary_search_iff_witness : exists i,
  binary_search_by_key (r_records sample_reader) (1, KIND_COLUMN3D, 0, 0) = Some i.
Proof.
  exists 1%nat. apply (binary_search_iff (r_records sample_reader) (1, KIND_COLUMN3D, 0, 0) 1).
  - exact (rok_sorted _ (open_reader_ok _ _ _ _ sample_open)).
  - eexists. vm_compute. by split.
Defined.
