(* ===== verification/Reader2D.v ===== *)
(** * Reading surface fields

    The two-dimensional read operations of [HourReader] in
    [crates/rw-store/src/reader.rs]: statistics, full field, tiles, points
    and windows. Operations that decode through the shared tile cache thread
    it as state; the rayon maps collect in order and, like the serial ones,
    are maps here. *)
From stdpp Require Import base list gmap strings numbers.
From Stdlib Require Import ZArith Lia.
From S2P Require Import Prelude F32 Format Header Index Codec TileCache Reader.

Local Open Scope Z_scope.

(** ** Computations over the tile cache *)

Definition CacheM (A : Type) : Type := DecodedTileCache -> RwResult A * DecodedTileCache.

#[global] Instance cachem_ret : MRet CacheM := fun A a c => (Ok a, c).
#[global] Instance cachem_bind : MBind CacheM := fun A B f m c =>
  match m c with
  | (Ok a, c) => f a c
  | (Err e, c) => (Err e, c)
  | (Panic, c) => (Panic, c)
  end.

(** A computation that leaves the cache alone. *)
Definition lift {A} (x : RwResult A) : CacheM A := fun c => (x, c).

Fixpoint cmap {A B} (f : A -> CacheM B) (l : list A) : CacheM (list B) :=
  match l with
  | [] => mret []
  | a :: l => b ← f a; bs ← cmap f l; mret (b :: bs)
  end.

Fixpoint cfold {A S} (step : S -> A -> CacheM S) (l : list A) (s : S) : CacheM S :=
  match l with
  | [] => mret s
  | a :: l => s' ← step s a; cfold step l s'
  end.

(** [l[a..b].copy_from_slice(src)] and [l[a..b].fill(x)]. *)
Definition copy_range (l : list f32) (a b : nat) (src : list f32) : RwResult (list f32) :=
  if bool_decide (a + length src = b)%nat then copy_into l a src else Panic.
Definition fill_range (l : list f32) (a b : nat) (x : f32) : RwResult (list f32) :=
  if (a <=? b)%nat then copy_into l a (replicate (b - a) x) else Panic.

(** ** Result types *)

Record TileGeometry2D := {
  geo_tile_y : nat; geo_tile_x : nat; geo_x0 : nat; geo_y0 : nat; geo_nx : nat; geo_ny : nat
}.
(** [TileGeometry2D::cell_count]. *)
Definition geo_cell_count (g : TileGeometry2D) : nat := (geo_nx g * geo_ny g)%nat.

Inductive TileData2D :=
| TileEmpty
| TileConstant (value : f32)
| TileDense (values : list f32).

Record Tile2D := { t2_geometry : TileGeometry2D; t2_data : TileData2D }.

(** [Tile2D::get]. *)
Definition tile2d_get (t : Tile2D) (row column : nat) : option f32 :=
  if (geo_ny (t2_geometry t) <=? row)%nat || (geo_nx (t2_geometry t) <=? column)%nat then None
  else
    let index := (row * geo_nx (t2_geometry t) + column)%nat in
    match t2_data t with
    | TileEmpty => Some NAN
    | TileConstant value => Some value
    | TileDense values => values !! index
    end.

(** [Tiles2D] and its iterator. *)
Record Tiles2D := {
  tiles_grid_nx : nat; tiles_grid_ny : nat; tiles_x : nat; tiles_y : nat;
  tiles_next_ordinal : nat; tile_count : nat
}.
Definition tiles_next (s : Tiles2D) : RwResult (option (TileGeometry2D * Tiles2D)) :=
  if (tiles_next_ordinal s =? tile_count s)%nat then Ok None
  else
    let ordinal := tiles_next_ordinal s in
    let ty := (ordinal / tiles_x s)%nat in
    let tx := (ordinal mod tiles_x s)%nat in
    let y0 := (ty * TILE_Y)%nat in
    let x0 := (tx * TILE_X)%nat in
    w ← usub (tiles_grid_nx s) x0;
    h ← usub (tiles_grid_ny s) y0;
    Ok (Some ({| geo_tile_y := ty; geo_tile_x := tx; geo_x0 := x0; geo_y0 := y0;
                 geo_nx := Nat.min w TILE_X; geo_ny := Nat.min h TILE_Y |},
              {| tiles_grid_nx := tiles_grid_nx s; tiles_grid_ny := tiles_grid_ny s;
                 tiles_x := tiles_x s; tiles_y := tiles_y s;
                 tiles_next_ordinal := S ordinal; tile_count := tile_count s |})).
(** [size_hint]. *)
Definition tiles_remaining (s : Tiles2D) : RwResult nat := usub (tile_count s) (tiles_next_ordinal s).
(** A [for] loop's run of the iterator; each [next] advances the ordinal. *)
Fixpoint tiles_collect (fuel : nat) (s : Tiles2D) : RwResult (list TileGeometry2D) :=
  match fuel with
  | O => Ok []
  | S fuel =>
      step ← tiles_next s;
      match step with
      | None => Ok []
      | Some (g, s) => rest ← tiles_collect fuel s; Ok (g :: rest)
      end
  end.

Record Window2D := { win_x0 : nat; win_y0 : nat; win_nx : nat; win_ny : nat; win_values : list f32 }.

Record FieldStats2D := {
  finite_min : option f32; finite_max : option f32; finite_count : Z; missing_count : Z
}.

Section reader2d.
Context `{F32Ties, External}.
Implicit Types (r : HourReader) (v : RwsVariableMeta) (rec : ChunkRecord).

(** ** Index-only statistics *)

Record StatsAcc := { acc_min : option f32; acc_max : option f32; acc_count : Z }.

(** The body of the tile loop of [stats_2d]. *)
Definition stats_step r v (s : StatsAcc) (coord : nat * nat) : RwResult StatsAcc :=
  let '(ty, tx) := coord in
  rec ← chunk_record r v KIND_TILE2D ty tx;
  '(rows, cols) ← tile_dims r ty tx;
  cells ← ok_or (checked_mul rows cols)
        (Format "variable '{}' tile ({},{}) cell count overflows usize");
  _ ← reject (Z.of_nat cells <? valid_count rec)
        (Format "variable '{}' tile ({},{}) valid_count {} exceeds tile cell count {}");
  if has_flag (flags rec) FLAG_EMPTY then
    _ ← reject (negb (valid_count rec =? 0) || negb (is_nan (rec_min rec)) || negb (is_nan (rec_max rec)))
          (Format "variable '{}' tile ({},{}) has inconsistent EMPTY statistics");
    Ok s
  else
    _ ← reject (valid_count rec =? 0)
          (Format "variable '{}' tile ({},{}) has zero valid values without EMPTY");
    _ ← reject (negb (is_finite (rec_min rec)) || negb (is_finite (rec_max rec))
                || f32_ltb (rec_max rec) (rec_min rec))
          (Format "variable '{}' tile ({},{}) has invalid finite range {} .. {}");
    _ ← reject (negb (Bool.eqb (has_flag (flags rec) FLAG_HAS_MISSING) (valid_count rec <? Z.of_nat cells)))
          (Format "variable '{}' tile ({},{}) HAS_MISSING flag is inconsistent with valid_count {} of {}");
    _ ← reject (has_flag (flags rec) FLAG_CONSTANT &&
                (negb (is_finite (center rec)) || negb (f32_eqb (rec_min rec) (center rec))
                 || negb (f32_eqb (rec_max rec) (center rec))))
          (Format "variable '{}' tile ({},{}) has inconsistent CONSTANT statistics");
    count ← ok_or (checked_add64 (acc_count s) (valid_count rec))
          (Format "variable '{}' finite value count overflows u64");
    Ok {| acc_min := Some (match acc_min s with
                           | None => rec_min rec | Some value => f32_min value (rec_min rec) end);
          acc_max := Some (match acc_max s with
                           | None => rec_max rec | Some value => f32_max value (rec_max rec) end);
          acc_count := count |}.

(** [stats_2d]. *)
Definition stats_2d r (name : string) : RwResult FieldStats2D :=
  v ← lookup_var r name;
  _ ← reject (negb (bool_decide (var_kind v = "surface2d")))
        (Format "variable '{}' has kind '{}', expected 'surface2d'");
  let m := r_meta r in
  let ty := div_ceil (ny m) TILE_Y in
  let tx := div_ceil (nx m) TILE_X in
  expected ← ok_or (checked_mul ty tx) (Format "variable '{}': tile count overflows usize");
  '(a, b) ← ok_or (r_var_ranges r !! var_meta_id v)
        (Format "variable '{}' (id {}) has no chunk index entries");
  _ ← reject (negb (b - a =? expected)%nat)
        (Format "variable '{}' has {} chunk index records, expected {}");
  s ← rfold (stats_step r v) (grid_coords ty tx)
        {| acc_min := None; acc_max := None; acc_count := 0 |};
  total ← ok_or (checked_mul (nx m) (ny m))
        (Format "variable '{}' grid cell count overflows usize");
  _ ← reject (Z.of_nat total <? acc_count s)
        (Format "variable '{}' finite value count {} exceeds grid cell count {}");
  Ok {| finite_min := acc_min s; finite_max := acc_max s; finite_count := acc_count s;
        missing_count := Z.of_nat total - acc_count s |}.

(** ** The full field *)

(** The row loop that places one decoded tile. *)
Definition place_tile (gnx : nat) (y0 x0 rows cols : nat) (tile values : list f32)
    : RwResult (list f32) :=
  rfold (fun values row =>
    let out := ((y0 + row) * gnx + x0)%nat in
    src ← slice tile (row * cols) ((row + 1) * cols);
    copy_range values out (out + cols) src) (seq 0 rows) values.

(** [read_full_2d]. *)
Definition read_full_2d r (name : string) : RwResult (list f32) :=
  v ← lookup_2d r name;
  let m := r_meta r in
  let ty := div_ceil (ny m) TILE_Y in
  let tx := div_ceil (nx m) TILE_X in
  job_count ← ok_or (checked_mul ty tx) (Format "variable '{}': tile count overflows usize");
  _ ← reject (negb (try_reserve (24 * Z.of_nat job_count)))
        (Format "cannot allocate {} tile jobs for variable '{}': {}");
  jobs ← rmap (fun c : nat * nat => rec ← chunk_record r v KIND_TILE2D c.1 c.2; Ok (c, rec))
           (grid_coords ty tx);
  decoded ← rmap (fun job : (nat * nat) * ChunkRecord =>
               '(rows, cols) ← tile_dims r job.1.1 job.1.2;
               tile ← decode_tile r job.2 (rows * cols); Ok (job.1, tile)) jobs;
  cells ← ok_or (checked_mul (ny m) (nx m))
        (Format "variable '{}': grid cell count overflows usize");
  values ← try_filled_f32 cells NAN;
  rfold (fun values (d : (nat * nat) * list f32) =>
    '(rows, cols) ← tile_dims r d.1.1 d.1.2;
    place_tile (nx m) (d.1.1 * TILE_Y) (d.1.2 * TILE_X) rows cols d.2 values) decoded values.

(** ** Tiles *)

(** [tiles_2d_for_var] and [tiles_2d]. *)
Definition tiles_2d_for_var r v : RwResult Tiles2D :=
  let m := r_meta r in
  let ty := div_ceil (ny m) TILE_Y in
  let tx := div_ceil (nx m) TILE_X in
  count ← ok_or (checked_mul ty tx) (Format "variable '{}': tile count overflows usize");
  '(a, b) ← ok_or (r_var_ranges r !! var_meta_id v)
        (Format "variable '{}' (id {}) has no chunk index entries");
  _ ← reject (negb (b - a =? count)%nat)
        (Format "variable '{}' has {} chunk index records, expected {}");
  Ok {| tiles_grid_nx := nx m; tiles_grid_ny := ny m; tiles_x := tx; tiles_y := ty;
        tiles_next_ordinal := 0; tile_count := count |}.
Definition tiles_2d r (name : string) : RwResult Tiles2D :=
  v ← lookup_2d r name; tiles_2d_for_var r v.

(** [tile_geometry_2d]. *)
Definition tile_geometry_2d r (ty tx : nat) : RwResult TileGeometry2D :=
  let m := r_meta r in
  _ ← reject ((div_ceil (ny m) TILE_Y <=? ty)%nat || (div_ceil (nx m) TILE_X <=? tx)%nat)
        (Format "tile ({},{}) for variable '{}' is outside tile grid {}x{}");
  y0 ← ok_or (checked_mul ty TILE_Y) (Format "tile y offset overflows for variable '{}'");
  x0 ← ok_or (checked_mul tx TILE_X) (Format "tile x offset overflows for variable '{}'");
  w ← usub (nx m) x0;
  h ← usub (ny m) y0;
  Ok {| geo_tile_y := ty; geo_tile_x := tx; geo_x0 := x0; geo_y0 := y0;
        geo_nx := Nat.min w TILE_X; geo_ny := Nat.min h TILE_Y |}.

(** [read_tile_2d_for_var] and [read_tile_2d]. *)
Definition read_tile_2d_for_var r v (g : TileGeometry2D) : CacheM Tile2D :=
  rec ← lift (chunk_record r v KIND_TILE2D (geo_tile_y g) (geo_tile_x g));
  data ← (if has_flag (flags rec) FLAG_EMPTY then mret TileEmpty
          else if has_flag (flags rec) FLAG_CONSTANT && (len rec =? 0) then mret (TileConstant (center rec))
          else values ← (decode_tile_cached r v rec (geo_cell_count g) : CacheM (list f32));
               mret (TileDense values));
  mret {| t2_geometry := g; t2_data := data |}.
Definition read_tile_2d r (name : string) (ty tx : nat) : CacheM Tile2D :=
  v ← lift (lookup_2d r name);
  g ← lift (tile_geometry_2d r ty tx);
  read_tile_2d_for_var r v g.

(** [visit_tiles_2d]; the visitor's captured state is passed along. *)
Definition visit_tiles_2d {S} r (name : string) (visitor : S -> Tile2D -> RwResult S) (s : S) : CacheM S :=
  v ← lift (lookup_2d r name);
  tiles ← lift (tiles_2d_for_var r v);
  geometries ← lift (tiles_collect (tile_count tiles + 1) tiles);
  cfold (fun s g => tile ← read_tile_2d_for_var r v g; lift (visitor s tile)) geometries s.

(** ** Points and windows *)

(** [read_point_2d]. *)
Definition read_point_2d r (name : string) (ix iy : nat) : CacheM f32 :=
  v ← lift (lookup_2d r name);
  let m := r_meta r in
  _ ← lift (reject ((nx m <=? ix)%nat || (ny m <=? iy)%nat)
              (Format "point ({},{}) out of bounds for grid {} x {}"));
  let ty := (iy / TILE_Y)%nat in
  let tx := (ix / TILE_X)%nat in
  rec ← lift (chunk_record r v KIND_TILE2D ty tx);
  if has_flag (flags rec) FLAG_EMPTY then mret NAN
  else if has_flag (flags rec) FLAG_CONSTANT && (len rec =? 0) then mret (center rec)
  else
    dims ← lift (tile_dims r ty tx);
    tile ← (decode_tile_cached r v rec (dims.1 * dims.2) : CacheM (list f32));
    row ← lift (usub iy (ty * TILE_Y));
    col ← lift (usub ix (tx * TILE_X));
    off ← lift (ok_or (start ← checked_mul row dims.2; checked_add start col)
                  (Format "point ({},{}) offset overflows for variable '{}'"));
    lift (ok_or (tile !! off)
            (Format "point ({},{}) offset {} exceeds decoded tile for variable '{}'")).

(** The placement of one tile in a window. *)
Definition place_window r (wx0 wy0 wx1 wy1 : nat) (values : list f32)
    (job : ((nat * nat) * ChunkRecord) * option (list f32)) : RwResult (list f32) :=
  let '((ty, tx), rec, tile) := job in
  '(rows, cols) ← tile_dims r ty tx;
  let ty0 := (ty * TILE_Y)%nat in
  let tx0 := (tx * TILE_X)%nat in
  let gy0 := Nat.max ty0 wy0 in
  let gy1 := Nat.min (ty0 + rows) wy1 in
  let gx0 := Nat.max tx0 wx0 in
  let gx1 := Nat.min (tx0 + cols) wx1 in
  let wnx := (wx1 - wx0)%nat in
  match tile with
  | None =>
      if has_flag (flags rec) FLAG_EMPTY then Ok values
      else rfold (fun values gy =>
             let out := ((gy - wy0) * wnx)%nat in
             gx1' ← usub gx1 wx0;
             fill_range values (out + (gx0 - wx0)) (out + gx1') (center rec))
           (seq gy0 (gy1 - gy0)) values
  | Some tile =>
      rfold (fun values gy =>
        let src := ((gy - ty0) * cols)%nat in
        let out := ((gy - wy0) * wnx)%nat in
        gx1' ← usub gx1 wx0;
        gx1t ← usub gx1 tx0;
        part ← slice tile (src + (gx0 - tx0)) (src + gx1t);
        copy_range values (out + (gx0 - wx0)) (out + gx1') part)
      (seq gy0 (gy1 - gy0)) values
  end.

(** The tiles a window touches, row by row. *)
Definition window_coords (first_ty last_ty first_tx last_tx : nat) : list (nat * nat) :=
  (fun c => (first_ty + c.1, first_tx + c.2)%nat)
    <$> grid_coords (last_ty - first_ty + 1) (last_tx - first_tx + 1).

(** [read_window_2d]. *)
Definition read_window_2d r (name : string) (x0 y0 x1 y1 : nat) : CacheM Window2D :=
  v ← lift (lookup_2d r name);
  let m := r_meta r in
  let x1 := Nat.min x1 (nx m) in
  let y1 := Nat.min y1 (ny m) in
  _ ← lift (reject ((x1 <=? x0)%nat || (y1 <=? y0)%nat)
              (Format "window [{},{}) x [{},{}) is empty after clamping to grid {} x {}"));
  let wnx := (x1 - x0)%nat in
  let wny := (y1 - y0)%nat in
  if (wnx =? 1)%nat && (wny =? 1)%nat then
    value ← read_point_2d r name x0 y0;
    values ← lift (try_filled_f32 1 value);
    mret {| win_x0 := x0; win_y0 := y0; win_nx := 1; win_ny := 1; win_values := values |}
  else
    cells ← lift (ok_or (checked_mul wny wnx) (Format "variable '{}': window size overflows usize"));
    values ← lift (try_filled_f32 cells NAN);
    let first_ty := (y0 / TILE_Y)%nat in
    let last_ty := ((y1 - 1) / TILE_Y)%nat in
    let first_tx := (x0 / TILE_X)%nat in
    let last_tx := ((x1 - 1) / TILE_X)%nat in
    job_count ← lift (ok_or (checked_mul (last_ty - first_ty + 1) (last_tx - first_tx + 1))
          (Format "variable '{}': window tile count overflows"));
    _ ← lift (reject (negb (try_reserve (24 * Z.of_nat job_count)))
          (Format "cannot allocate {} window tile jobs for variable '{}': {}"));
    jobs ← lift (rmap (fun c : nat * nat => rec ← chunk_record r v KIND_TILE2D c.1 c.2; Ok (c, rec))
             (window_coords first_ty last_ty first_tx last_tx));
    decoded ← cmap (fun job : (nat * nat) * ChunkRecord =>
        if has_flag (flags job.2) FLAG_EMPTY
           || (has_flag (flags job.2) FLAG_CONSTANT && (len job.2 =? 0)) then mret None
        else
          dims ← lift (tile_dims r job.1.1 job.1.2);
          tile ← (decode_tile_cached r v job.2 (dims.1 * dims.2) : CacheM (list f32));
          mret (Some tile)) jobs;
    values ← lift (rfold (place_window r x0 y0 x1 y1) (zip jobs decoded) values);
    mret {| win_x0 := x0; win_y0 := y0; win_nx := wnx; win_ny := wny; win_values := values |}.
End reader2d.
