(* ===== verification/Field2D.v ===== *)
(** * Surface reads refine one field

    An opened file determines, for each surface variable, one row-major field
    ([field_2d]); the full read, the tiles, the points and the windows of
    [Reader2D] all return parts of it, whatever the tile cache holds. *)
From stdpp Require Import base list gmap strings numbers.
From Stdlib Require Import ZArith Lia.
From S2P Require Import Prelude F32 Format Header Index Codec TileCache Writer Reader Concrete Opened Reader2D.

Local Open Scope Z_scope.

(** ** Decoding chunks *)

Section decode.
Context `{F32Ties, External}.
Implicit Types (r : HourReader) (v : RwsVariableMeta) (rec : ChunkRecord).

Lemma length_chunks_exact {A} n (l : list A) k :
  (0 < n)%nat -> length l = (k * n)%nat -> length (chunks_exact n l) = k.
Proof.
  intros Hn Hl. unfold chunks_exact. rewrite length_fmap, length_seq, Hl.
  by apply Nat.div_mul; lia.
Qed.

Lemma elem_of_chunks_exact {A} n (l x : list A) k :
  length l = (k * n)%nat -> x ∈ chunks_exact n l -> length x = n.
Proof.
  intros Hl (i & -> & Hi%elem_of_seq)%list_elem_of_fmap.
  rewrite length_take, length_drop, Hl.
  destruct (decide (n = 0%nat)) as [->|Hn]; [lia|].
  rewrite Hl, Nat.div_mul in Hi by done. nia.
Qed.

Lemma rmap_length {E A B} (f : A -> result E B) l bs : rmap f l = Ok bs -> length bs = length l.
Proof. intros Hr%rmap_ok_inv. by apply Forall2_length in Hr. Qed.

Lemma decompress_chunk_into_length comp n raw :
  decompress_chunk_into comp n = Ok raw -> length raw = n.
Proof.
  unfold decompress_chunk_into. intros Hd. res_inv Hd. res_clean. breflect. subst. lia.
Qed.

Lemma decompress_chunk_into_no_panic `{!ExternalLaws} comp n : decompress_chunk_into comp n <> Panic.
Proof.
  unfold decompress_chunk_into. no_panic.
  pose proof (zstd_decoder_no_panic comp). by destruct (zstd_decoder comp).
Qed.

Lemma payload_slice_no_panic r rec : record_wf rec -> payload_slice r rec <> Panic.
Proof.
  intros (_ & _ & _ & _ & _ & [Ho _] & [Hl _] & _). unfold payload_slice.
  apply bind_no_panic; [auto with rw|]. intros stop Hs. res_clean. subst.
  apply bind_no_panic; [auto with rw|]. intros _ Hr%reject_inv. breflect.
  apply slice_no_panic; lia.
Qed.

Lemma decode_quads_no_panic raw n :
  length raw = (n * 4)%nat ->
  rmap (fun quad => or_panic (E := RwStoreError) (f32_from_le quad)) (chunks_exact 4 raw) <> Panic.
Proof.
  intros Hl. apply rmap_no_panic. intros q Hq%(elem_of_chunks_exact _ _ _ n); [|done].
  by destruct (f32_from_le_is_Some q Hq) as [x ->].
Qed.

Lemma decode_tile_no_panic `{!ExternalLaws} r rec n : record_wf rec -> decode_tile r rec n <> Panic.
Proof.
  intros Hwf. unfold decode_tile.
  destruct (has_flag (flags rec) FLAG_EMPTY); [apply try_filled_f32_no_panic|].
  destruct (_ && _); [apply try_filled_f32_no_panic|].
  apply bind_no_panic; [by apply payload_slice_no_panic|]. intros comp _.
  apply bind_no_panic; [auto with rw|]. intros e He. res_clean. subst e.
  do 2 (apply bind_no_panic; [auto with rw|]; intros _ _).
  apply bind_no_panic; [apply try_filled_f32_no_panic|]. intros _ _.
  apply bind_no_panic; [apply decompress_chunk_into_no_panic|]. intros raw Hraw.
  apply (decode_quads_no_panic raw n). by apply decompress_chunk_into_length in Hraw.
Qed.

Lemma try_filled_f32_inv n x l : try_filled_f32 n x = Ok l -> l = replicate n x.
Proof. unfold try_filled_f32. intros Ht. by res_inv Ht. Qed.

Lemma decode_tile_length r rec n t : decode_tile r rec n = Ok t -> length t = n.
Proof.
  unfold decode_tile.
  destruct (has_flag (flags rec) FLAG_EMPTY);
    [intros ->%try_filled_f32_inv; by rewrite length_replicate|].
  destruct (_ && _); [intros ->%try_filled_f32_inv; by rewrite length_replicate|].
  intros Hd. res_inv Hd. res_clean. subst.
  match goal with Hr : decompress_chunk_into _ _ = Ok ?raw |- _ =>
    apply decompress_chunk_into_length in Hr end.
  apply rmap_length in Hd. rewrite Hd. by apply length_chunks_exact; [lia|].
Qed.

(** A chunk whose index record already says what it holds. *)
Lemma decode_tile_empty r rec n t :
  has_flag (flags rec) FLAG_EMPTY = true -> decode_tile r rec n = Ok t -> t = replicate n NAN.
Proof. intros He. unfold decode_tile. rewrite He. apply try_filled_f32_inv. Qed.

Lemma decode_tile_constant r rec n t :
  has_flag (flags rec) FLAG_EMPTY = false -> has_flag (flags rec) FLAG_CONSTANT && (len rec =? 0) = true ->
  decode_tile r rec n = Ok t -> t = replicate n (center rec).
Proof. intros He Hc. unfold decode_tile. rewrite He, Hc. apply try_filled_f32_inv. Qed.
End decode.

(** ** The field *)

Section field.
Context `{F32Ties, External}.
Implicit Types (r : HourReader) (v : RwsVariableMeta) (rec : ChunkRecord).

Definition tiles_high r : nat := div_ceil (ny (r_meta r)) TILE_Y.
Definition tiles_wide r : nat := div_ceil (nx (r_meta r)) TILE_X.
Definition tile_rows r (ty : nat) : nat := Nat.min (ny (r_meta r) - ty * TILE_Y) TILE_Y.
Definition tile_cols r (tx : nat) : nat := Nat.min (nx (r_meta r) - tx * TILE_X) TILE_X.

(** The decoded tile at [(ty, tx)]. *)
Definition tile_at r v (ty tx : nat) : RwResult (list f32) :=
  rec ← chunk_record r v KIND_TILE2D ty tx; decode_tile r rec (tile_rows r ty * tile_cols r tx).
Definition tile_of r v (ty tx : nat) : list f32 :=
  match tile_at r v ty tx with Ok t => t | _ => [] end.

(** Every tile of the variable decodes. *)
Definition tiles_decode r v : Prop :=
  forall ty tx, (ty < tiles_high r)%nat -> (tx < tiles_wide r)%nat -> is_ok (tile_at r v ty tx).

(** The value of the grid cell in column [x] of row [y], and the field. *)
Definition cell_2d r v (y x : nat) : f32 :=
  default NAN (tile_of r v (y / TILE_Y) (x / TILE_X)
    !! ((y mod TILE_Y) * tile_cols r (x / TILE_X) + x mod TILE_X)%nat).
Definition field_2d r v : list f32 :=
  (fun c => cell_2d r v c.1 c.2) <$> grid_coords (ny (r_meta r)) (nx (r_meta r)).

(** ** Lookups of an opened file *)

Lemma lookup_var_inv r name v :
  lookup_var r name = Ok v -> v ∈ variables (r_meta r) /\ var_name v = name.
Proof.
  unfold lookup_var, variable. intros Hl. res_clean.
  apply find_some in Hl as [Hin Hn]. breflect. split; [by apply list_elem_of_In|done].
Qed.

Lemma lookup_2d_inv r name v :
  lookup_2d r name = Ok v ->
  v ∈ variables (r_meta r) /\ var_name v = name /\ var_kind v = "surface2d".
Proof.
  unfold lookup_2d. intros Hl. res_inv Hl. subst. res_clean. breflect.
  match goal with Hl : lookup_var _ _ = Ok _ |- _ => apply lookup_var_inv in Hl as [? ?] end. done.
Qed.

Lemma lookup_2d_no_panic r name : lookup_2d r name <> Panic.
Proof. unfold lookup_2d, lookup_var. no_panic. Qed.

Lemma surface_layout v : var_kind v = "surface2d" ->
  chunk_layout v = Some {| lay_kind := KIND_TILE2D; lay_y := TILE_Y; lay_x := TILE_X;
                           lay_levels := 1; lay_width := 4 |}.
Proof. intros Hk. unfold chunk_layout. by rewrite Hk. Qed.

Lemma record_in_wf r rec : reader_ok r -> rec ∈ r_records r -> record_wf rec.
Proof.
  intros Hok Hin. destruct (rok_records _ Hok) as (poff & _ & Hall).
  by apply (proj1 (list.Forall_forall _ _) Hall rec Hin).
Qed.

Section of_variable.
Context r v (Hok : reader_ok r) (Hv : v ∈ variables (r_meta r)) (Hk : var_kind v = "surface2d").

Lemma tile_record ty tx :
  (ty < tiles_high r)%nat -> (tx < tiles_wide r)%nat ->
  exists rec, chunk_record r v KIND_TILE2D ty tx = Ok rec /\ rec ∈ r_records r /\
    sort_key rec = (var_meta_id v, KIND_TILE2D, Z.of_nat ty, Z.of_nat tx).
Proof. intros. by apply (chunk_record_found r v _ ty tx Hok Hv (surface_layout v Hk)). Qed.

Lemma tile_dims_ok ty tx :
  (ty < tiles_high r)%nat -> (tx < tiles_wide r)%nat ->
  tile_dims r ty tx = Ok (tile_rows r ty, tile_cols r tx).
Proof.
  intros Hy Hx. apply div_ceil_lt in Hy; [|unfold TILE_Y; lia]. apply div_ceil_lt in Hx; [|unfold TILE_X; lia].
  unfold tile_dims, chunk_dims. rewrite bool_decide_eq_true_2 by lia. done.
Qed.

Lemma tile_at_length ty tx t :
  tile_at r v ty tx = Ok t -> length t = (tile_rows r ty * tile_cols r tx)%nat.
Proof. unfold tile_at. intros Ht. res_inv Ht. by apply decode_tile_length in Ht. Qed.

(** Cells of a tile inside the grid. *)
Lemma tile_bounds ty tx :
  (ty < tiles_high r)%nat -> (tx < tiles_wide r)%nat ->
  (ty * TILE_Y + tile_rows r ty <= ny (r_meta r) /\ tx * TILE_X + tile_cols r tx <= nx (r_meta r))%nat.
Proof.
  intros Hy Hx. apply div_ceil_lt in Hy; [|unfold TILE_Y; lia]. apply div_ceil_lt in Hx; [|unfold TILE_X; lia].
  unfold tile_rows, tile_cols. lia.
Qed.

Lemma tile_nonempty ty tx :
  (ty < tiles_high r)%nat -> (tx < tiles_wide r)%nat -> (0 < tile_rows r ty /\ 0 < tile_cols r tx)%nat.
Proof.
  intros Hy Hx. apply div_ceil_lt in Hy; [|unfold TILE_Y; lia]. apply div_ceil_lt in Hx; [|unfold TILE_X; lia].
  unfold tile_rows, tile_cols, TILE_Y, TILE_X in *. lia.
Qed.

Lemma cell_in_tile y x :
  (y < ny (r_meta r))%nat -> (x < nx (r_meta r))%nat ->
  (y / TILE_Y < tiles_high r /\ x / TILE_X < tiles_wide r /\
   y mod TILE_Y < tile_rows r (y / TILE_Y) /\ x mod TILE_X < tile_cols r (x / TILE_X))%nat.
Proof.
  intros Hy Hx. unfold tiles_high, tiles_wide, tile_rows, tile_cols.
  split; [apply div_lt_div_ceil; [unfold TILE_Y; lia|done]|].
  split; [apply div_lt_div_ceil; [unfold TILE_X; lia|done]|].
  pose proof (Nat.div_mod y TILE_Y ltac:(done)). pose proof (Nat.mod_upper_bound y TILE_Y ltac:(done)).
  pose proof (Nat.div_mod x TILE_X ltac:(done)). pose proof (Nat.mod_upper_bound x TILE_X ltac:(done)).
  nia.
Qed.

(** The coordinates of a cell given by its tile and its place in the tile. *)
Lemma tile_cell ty tx y x :
  (ty * TILE_Y <= y < ty * TILE_Y + tile_rows r ty)%nat ->
  (tx * TILE_X <= x < tx * TILE_X + tile_cols r tx)%nat ->
  cell_2d r v y x = default NAN (tile_of r v ty tx
    !! ((y - ty * TILE_Y) * tile_cols r tx + (x - tx * TILE_X))%nat).
Proof.
  intros Hy Hx. unfold cell_2d.
  assert (tile_rows r ty <= TILE_Y)%nat by (unfold tile_rows; lia).
  assert (tile_cols r tx <= TILE_X)%nat by (unfold tile_cols; lia).
  destruct (row_major_div_mod TILE_Y ty (y - ty * TILE_Y)) as [Hd Hm]; [lia|].
  destruct (row_major_div_mod TILE_X tx (x - tx * TILE_X)) as [Hd' Hm']; [lia|].
  replace (ty * TILE_Y + (y - ty * TILE_Y))%nat with y in * by lia.
  replace (tx * TILE_X + (x - tx * TILE_X))%nat with x in * by lia.
  by rewrite Hd, Hm, Hd', Hm'.
Qed.

Lemma tile_cell_lookup ty tx t y x :
  tile_at r v ty tx = Ok t ->
  (ty * TILE_Y <= y < ty * TILE_Y + tile_rows r ty)%nat ->
  (tx * TILE_X <= x < tx * TILE_X + tile_cols r tx)%nat ->
  t !! ((y - ty * TILE_Y) * tile_cols r tx + (x - tx * TILE_X))%nat = Some (cell_2d r v y x).
Proof.
  intros Ht Hy Hx. rewrite (tile_cell ty tx y x Hy Hx). unfold tile_of. rewrite Ht.
  apply tile_at_length in Ht.
  destruct (lookup_lt_is_Some_2 t ((y - ty * TILE_Y) * tile_cols r tx + (x - tx * TILE_X))%nat)
    as [c Hc]; [nia|]. by rewrite Hc.
Qed.

Lemma length_field_2d : length (field_2d r v) = (ny (r_meta r) * nx (r_meta r))%nat.
Proof. unfold field_2d. by rewrite length_fmap, length_grid_coords. Qed.

Lemma lookup_field_2d y x :
  (y < ny (r_meta r))%nat -> (x < nx (r_meta r))%nat ->
  field_2d r v !! (y * nx (r_meta r) + x)%nat = Some (cell_2d r v y x).
Proof. intros. unfold field_2d. by rewrite list_lookup_fmap, lookup_grid_coords by done. Qed.
End of_variable.
End field.

(** ** Writing rectangles *)

Definition in_rect (y0 h x0 w y x : nat) : bool :=
  ((y0 <=? y) && (y <? y0 + h) && (x0 <=? x) && (x <? x0 + w))%nat.

Lemma in_rect_spec y0 h x0 w y x :
  in_rect y0 h x0 w y x = true <-> (y0 <= y < y0 + h /\ x0 <= x < x0 + w)%nat.
Proof.
  unfold in_rect. rewrite !andb_true_iff, !Nat.leb_le, !Nat.ltb_lt. lia.
Qed.

(** A loop over rows [js] in which row [j] writes [g] into the columns from
    [c0] of row [row j] of the buffer. *)
Lemma rows_written (step : list f32 -> nat -> RwResult (list f32)) (g : nat -> nat -> option f32)
    (h w c0 cols y0 : nat) (a n : nat) :
  (y0 + n <= h)%nat -> (c0 + cols <= w)%nat ->
  (forall j values, (j < n)%nat -> length values = (h * w)%nat ->
     exists src, step values (a + j)%nat = copy_into values ((y0 + j) * w + c0) src /\ length src = cols /\
       forall x, (x < cols)%nat -> src !! x = g (y0 + j)%nat (c0 + x)%nat) ->
  forall values, length values = (h * w)%nat ->
  exists values', rfold step (seq a n) values = Ok values' /\ length values' = (h * w)%nat /\
    forall y x, (y < h)%nat -> (x < w)%nat ->
      values' !! (y * w + x)%nat = if in_rect y0 n c0 cols y x then g y x else values !! (y * w + x)%nat.
Proof.
  intros Hn Hc Hstep values Hl.
  destruct (rfold_grid_writes step g
    (fun j y x => (y =? y0 + (j - a)) && (c0 <=? x) && (x <? c0 + cols))%nat h w (seq a n)) with values
    as (values' & Hv & Hl' & Hcell).
  - intros j l [Hj1 Hj2]%elem_of_seq Hlen.
    destruct (Hstep (j - a)%nat l ltac:(lia) Hlen) as (src & Hs & Hsl & Hg).
    replace (a + (j - a))%nat with j in Hs by lia. rewrite Hs.
    destruct (copy_into_row (E := RwStoreError) l h w (y0 + (j - a)) c0 src Hlen) as (l' & Hl1 & Hl2 & Hl3); [lia..|].
    exists l'. split_and!; [done..|]. intros y x Hy Hx. rewrite Hl3 by done. rewrite Hsl.
    destruct (_ && _) eqn:Hcov; [|done]. breflect. subst y.
    rewrite Hg by lia. f_equal. lia.
  - done.
  - exists values'. split_and!; [done..|]. intros y x Hy Hx. rewrite Hcell by done.
    destruct (in_rect y0 n c0 cols y x) eqn:Hr.
    + apply in_rect_spec in Hr. rewrite (proj2 (existsb_true _ _)); [done|].
      exists (a + (y - y0))%nat. split; [apply elem_of_seq; lia|].
      rewrite !andb_true_iff, Nat.eqb_eq, Nat.leb_le, Nat.ltb_lt. lia.
    + destruct (existsb _ _) eqn:He; [|done]. apply existsb_true in He as (j & Hj%elem_of_seq & Hcov).
      breflect. assert (in_rect y0 n c0 cols y x = true); [|congruence]. apply in_rect_spec. lia.
Qed.

Lemma place_tile_spec gnx gny y0 x0 rows cols tile values :
  length values = (gny * gnx)%nat -> (y0 + rows <= gny)%nat -> (x0 + cols <= gnx)%nat ->
  length tile = (rows * cols)%nat ->
  exists values', place_tile gnx y0 x0 rows cols tile values = Ok values' /\
    length values' = (gny * gnx)%nat /\
    forall y x, (y < gny)%nat -> (x < gnx)%nat ->
      values' !! (y * gnx + x)%nat =
        if in_rect y0 rows x0 cols y x then tile !! ((y - y0) * cols + (x - x0))%nat
        else values !! (y * gnx + x)%nat.
Proof.
  intros Hl Hy Hx Ht. unfold place_tile.
  apply (rows_written _ (fun y x => tile !! ((y - y0) * cols + (x - x0))%nat) gny gnx x0 cols y0 0 rows);
    [lia..| |done].
  intros j l Hj Hlen.
  destruct (slice (E := RwStoreError) tile (j * cols) ((j + 1) * cols)) as [src| |] eqn:Hs;
    [|rewrite slice_ok in Hs by nia; done..].
  exists src. pose proof (length_slice _ _ _ _ Hs) as Hsl. simpl. rewrite Hs. rrun.
  unfold copy_range. rewrite bool_decide_eq_true_2 by lia. split_and!; [done|lia|].
  intros x Hxc. rewrite (lookup_slice _ _ _ _ _ Hs) by lia. f_equal. nia.
Qed.

(** ** The full read *)

Section full.
Context `{F32Ties, External}.
Implicit Types (r : HourReader) (v : RwsVariableMeta) (rec : ChunkRecord).

Lemma place_tiles r v values :
  tiles_decode r v -> length values = (ny (r_meta r) * nx (r_meta r))%nat ->
  rfold (fun values (d : (nat * nat) * list f32) =>
    '(rows, cols) ← tile_dims r d.1.1 d.1.2;
    place_tile (nx (r_meta r)) (d.1.1 * TILE_Y) (d.1.2 * TILE_X) rows cols d.2 values)
    ((fun c => (c, tile_of r v c.1 c.2)) <$> grid_coords (tiles_high r) (tiles_wide r)) values
  = Ok (field_2d r v).
Proof.
  intros Hdec Hl.
  destruct (rfold_grid_writes (fun values (d : (nat * nat) * list f32) =>
      '(rows, cols) ← tile_dims r d.1.1 d.1.2;
      place_tile (nx (r_meta r)) (d.1.1 * TILE_Y) (d.1.2 * TILE_X) rows cols d.2 values)
    (fun y x => Some (cell_2d r v y x))
    (fun d y x => in_rect (d.1.1 * TILE_Y) (tile_rows r d.1.1) (d.1.2 * TILE_X) (tile_cols r d.1.2) y x)
    (ny (r_meta r)) (nx (r_meta r))
    ((fun c => (c, tile_of r v c.1 c.2)) <$> grid_coords (tiles_high r) (tiles_wide r)))
    with values as (out & -> & Hlen & Hcell).
  - intros d l ([ty tx] & -> & [Hty Htx]%elem_of_grid_coords)%list_elem_of_fmap Hll.
    cbn [fst snd]. rewrite tile_dims_ok by done. rrun.
    destruct (tile_bounds r ty tx Hty Htx) as [Hb1 Hb2].
    destruct (Hdec ty tx Hty Htx) as [t Ht]. unfold tile_of. rewrite Ht.
    destruct (place_tile_spec (nx (r_meta r)) (ny (r_meta r)) (ty * TILE_Y) (tx * TILE_X)
      (tile_rows r ty) (tile_cols r tx) t l) as (l' & Hl1 & Hl2 & Hl3); [done..|by apply tile_at_length in Ht|].
    exists l'. split_and!; [done..|]. intros y x Hy Hx. rewrite Hl3 by done.
    destruct (in_rect _ _ _ _ _ _) eqn:Hr; [|done]. apply in_rect_spec in Hr as [Hr1 Hr2].
    by apply tile_cell_lookup.
  - done.
  - f_equal. apply grid_ext; [done|]. intros y x Hy Hx. rewrite Hcell by done.
    rewrite (proj2 (existsb_true _ _)); [done|].
    destruct (cell_in_tile r y x Hy Hx) as (Hty & Htx & Hry & Hrx).
    exists ((y / TILE_Y, x / TILE_X)%nat, tile_of r v (y / TILE_Y) (x / TILE_X)). split.
    + apply list_elem_of_fmap. exists (y / TILE_Y, x / TILE_X)%nat. split; [done|]. by apply elem_of_grid_coords.
    + apply in_rect_spec. cbn [fst snd].
      pose proof (Nat.div_mod y TILE_Y ltac:(done)). pose proof (Nat.div_mod x TILE_X ltac:(done)). lia.
Qed.

(** One job of the full read. *)
Lemma tile_job r v c t :
  (c.1 < tiles_high r)%nat -> (c.2 < tiles_wide r)%nat ->
  (job ← (rec ← chunk_record r v KIND_TILE2D c.1 c.2; Ok (c, rec));
   '(rows, cols) ← tile_dims r job.1.1 job.1.2;
   tile ← decode_tile r job.2 (rows * cols); Ok (job.1, tile)) = Ok t <->
  exists tile, tile_at r v c.1 c.2 = Ok tile /\ t = (c, tile).
Proof.
  intros Hy Hx. unfold tile_at. destruct (chunk_record r v KIND_TILE2D c.1 c.2); rrun;
    [|by split; [|intros (? & ? & ?)]..].
  cbn [fst snd]. rewrite tile_dims_ok by done. rrun.
  destruct (decode_tile _ _ _); rrun; [|by split; [|intros (? & ? & ?)]..].
  split; [intros [= <-]; eauto|by intros (? & [= ->] & ->)].
Qed.

Lemma tile_jobs r v decoded :
  rmap (fun c : nat * nat => job ← (rec ← chunk_record r v KIND_TILE2D c.1 c.2; Ok (c, rec));
     '(rows, cols) ← tile_dims r job.1.1 job.1.2;
     tile ← decode_tile r job.2 (rows * cols); Ok (job.1, tile))
    (grid_coords (tiles_high r) (tiles_wide r)) = Ok decoded <->
  tiles_decode r v /\
  decoded = (fun c => (c, tile_of r v c.1 c.2)) <$> grid_coords (tiles_high r) (tiles_wide r).
Proof.
  split.
  - intros Hr%rmap_ok_inv. split.
    + intros ty tx Hty Htx.
      assert ((ty, tx) ∈ grid_coords (tiles_high r) (tiles_wide r)) as Hin by by apply elem_of_grid_coords.
      apply list_elem_of_lookup in Hin as [i Hi].
      destruct (Forall2_lookup_l _ _ _ _ _ Hr Hi) as (t & _ & Ht).
      apply tile_job in Ht as (tile & Ht & _); [by eexists|done..].
    + apply (Forall2_eq_fmap _ _ _ _ Hr). intros [ty tx] t Hin Ht. apply elem_of_grid_coords in Hin as [Hty Htx].
      apply tile_job in Ht as (tile & Ht & ->); [|done..]. unfold tile_of. simpl in *. by rewrite Ht.
  - intros [Hdec ->]. apply rmap_ok_intro, Forall2_fmap_r, Forall_Forall2_diag, list.Forall_forall.
    intros [ty tx] [Hty Htx]%elem_of_grid_coords. apply tile_job; [done..|].
    destruct (Hdec ty tx Hty Htx) as [t Ht]. exists t. unfold tile_of. cbn [fst snd]. by rewrite Ht.
Qed.

Lemma read_full_2d_inv r name values :
  read_full_2d r name = Ok values ->
  exists v, lookup_2d r name = Ok v /\ tiles_decode r v /\ values = field_2d r v.
Proof.
  unfold read_full_2d. intros Hr. destruct (lookup_2d r name) as [v| |] eqn:Hv; [|done..].
  exists v. split; [done|]. cbn [mbind result_bind] in Hr. fold (tiles_high r) (tiles_wide r) in Hr.
  res_inv Hr.
  match goal with Hj : rmap _ _ = Ok ?jobs, Hd : rmap _ ?jobs = Ok _ |- _ =>
    pose proof (proj2 (rmap_compose _ _ _ _) (ex_intro _ _ (conj Hj Hd))) as Hcomp end.
  apply tile_jobs in Hcomp as [Hdec ->]. split; [done|].
  match goal with Hf : try_filled_f32 _ _ = Ok _ |- _ => apply try_filled_f32_inv in Hf as -> end.
  res_clean. subst. rewrite (place_tiles r v) in Hr; [by injection Hr as <-|done|].
  by rewrite length_replicate.
Qed.

Lemma cells_fit r : reader_ok r -> checked_mul (ny (r_meta r)) (nx (r_meta r))
  = Some (ny (r_meta r) * nx (r_meta r))%nat.
Proof.
  intros Hok. pose proof (ok_cells _ (rok_meta _ Hok)) as Hc. apply checked_mul_ok.
  assert (MAX_GRID_CELLS < usize_limit) by done. lia.
Qed.

Lemma area_fits r a b :
  reader_ok r -> (a <= ny (r_meta r))%nat -> (b <= nx (r_meta r))%nat -> checked_mul a b = Some (a * b)%nat.
Proof.
  intros Hok Ha Hb. pose proof (ok_cells _ (rok_meta _ Hok)) as Hc. apply checked_mul_ok.
  assert (MAX_GRID_CELLS < usize_limit) by done. pose proof (Nat.mul_le_mono _ _ _ _ Ha Hb). lia.
Qed.

Lemma read_full_2d_total r name v :
  alloc_succeeds -> reader_ok r -> lookup_2d r name = Ok v -> tiles_decode r v ->
  read_full_2d r name = Ok (field_2d r v).
Proof.
  intros Halloc Hok Hv Hdec. unfold read_full_2d. rewrite Hv. rrun.
  pose proof (ok_cells _ (rok_meta _ Hok)) as Hc.
  rewrite chunk_count_fits by (unfold TILE_Y, TILE_X; auto; lia). rrun. rewrite Halloc. rrun.
  fold (tiles_high r) (tiles_wide r).
  destruct (proj1 (rmap_compose _ _ _ _) (proj2 (tile_jobs r v _) (conj Hdec eq_refl))) as (jobs & -> & Hd).
  rrun. rewrite Hd. rrun. rewrite cells_fit by done. rrun.
  unfold try_filled_f32. rewrite Halloc. rrun. apply place_tiles; [done|]. by rewrite length_replicate.
Qed.
End full.

(** ** Reads through the cache *)

Section cached.
Context `{F32Ties, External}.
Implicit Types (r : HourReader) (v : RwsVariableMeta) (rec : ChunkRecord).

(** What decoding the record stored under a cache key gives. *)
Definition tile_source r (k : TileCacheKey) : option (list f32) :=
  rec ← find (fun rec => bool_decide ((kind rec, var_id rec, tile_y rec, tile_x rec) = k)) (r_records r);
  match decode_tile r rec (tile_rows r (Z.to_nat (tile_y rec)) * tile_cols r (Z.to_nat (tile_x rec))) with
  | Ok t => Some t
  | _ => None
  end.

(** The cache holds tiles of this reader, within its capacity. *)
Definition cache_inv r (c : DecodedTileCache) : Prop := cache_ok c /\ coherent (tile_source r) c.

(** [m] returns [x] whatever this reader's cache holds. *)
Definition runs_to {A} r (m : CacheM A) (x : RwResult A) : Prop :=
  forall c, cache_inv r c -> exists c', m c = (x, c') /\ cache_inv r c'.

Lemma runs_lift {A} r (x : RwResult A) : runs_to r (lift x) x.
Proof. intros c Hc. by exists c. Qed.

Lemma runs_ret {A} r (a : A) : runs_to r (mret a) (Ok a).
Proof. intros c Hc. by exists c. Qed.

Lemma runs_bind {A B} r (m : CacheM A) (f : A -> CacheM B) a y :
  runs_to r m (Ok a) -> runs_to r (f a) y -> runs_to r (m ≫= f) y.
Proof.
  intros Hm Hf c Hc. destruct (Hm c Hc) as (c1 & Hm1 & Hc1). destruct (Hf c1 Hc1) as (c2 & Hf2 & Hc2).
  exists c2. split; [|done]. unfold mbind, cachem_bind. by rewrite Hm1.
Qed.

Lemma runs_bind_result {A B} r (m : CacheM A) (f : A -> CacheM B) x g :
  runs_to r m x -> (forall a, runs_to r (f a) (g a)) -> runs_to r (m ≫= f) (x ≫= g).
Proof.
  intros Hm Hf. destruct x as [a|e|]; [by eapply runs_bind|..];
    intros c Hc; destruct (Hm c Hc) as (c1 & Hm1 & Hc1); exists c1; split; try done;
    unfold mbind, cachem_bind; by rewrite Hm1.
Qed.

Lemma runs_cfold {A S} r (step : S -> A -> CacheM S) (f : S -> A -> RwResult S) l s :
  (forall s a, a ∈ l -> runs_to r (step s a) (f s a)) -> runs_to r (cfold step l s) (rfold f l s).
Proof.
  revert s; induction l as [|a l IH]; intros s Hf; cbn [cfold rfold]; [apply runs_ret|].
  apply runs_bind_result; [apply Hf; by left|]. intros s'. apply IH. intros. apply Hf. by right.
Qed.

Lemma runs_cmap {A B} r (f : A -> CacheM B) (g : A -> B) l :
  (forall a, a ∈ l -> runs_to r (f a) (Ok (g a))) -> runs_to r (cmap f l) (Ok (g <$> l)).
Proof.
  induction l as [|a l IH]; intros Hf; cbn [cmap]; [apply runs_ret|].
  eapply runs_bind; [apply Hf; left|]. eapply runs_bind; [apply IH; intros; apply Hf; by right|].
  apply runs_ret.
Qed.

Section of_variable.
Context r v (Hok : reader_ok r) (Hv : v ∈ variables (r_meta r)) (Hk : var_kind v = "surface2d").

Lemma record_unique rec rec' :
  rec ∈ r_records r -> rec' ∈ r_records r -> sort_key rec = sort_key rec' -> rec = rec'.
Proof.
  intros [i Hi]%list_elem_of_lookup [j Hj]%list_elem_of_lookup Hkey.
  pose proof (key_sorted_inj _ _ _ _ _ (rok_sorted _ Hok) Hi Hj Hkey) as ->. congruence.
Qed.

Lemma tile_source_found ty tx rec :
  (ty < tiles_high r)%nat -> (tx < tiles_wide r)%nat -> chunk_record r v KIND_TILE2D ty tx = Ok rec ->
  tile_source r (tile_cache_key v rec) = match tile_at r v ty tx with Ok t => Some t | _ => None end.
Proof.
  intros Hty Htx Hrec. destruct (tile_record r v Hok Hv Hk ty tx Hty Htx) as (rec' & Hrec' & Hin & Hkey).
  assert (rec' = rec) as -> by congruence. unfold tile_at, tile_source. rewrite Hrec. rrun.
  unfold sort_key in Hkey. injection Hkey as Hid Hkind Hy Hx.
  destruct (find _ (r_records r)) as [rec'|] eqn:Hf.
  - apply find_some in Hf as [Hin' Heq]. apply list_elem_of_In in Hin'. breflect.
    unfold tile_cache_key in Heq. assert (rec' = rec) as ->.
    { apply record_unique; [done..|]. unfold sort_key. injection Heq as -> -> -> ->. by rewrite Hid. }
    cbn [mbind option_bind]. by rewrite Hy, Hx, !Nat2Z.id.
  - pose proof (find_none _ _ Hf rec (proj1 (list_elem_of_In _ _) Hin)) as Hn. cbv beta in Hn. breflect.
    destruct Hn. unfold tile_cache_key. congruence.
Qed.

(** Decoding through the cache is decoding. *)
Lemma runs_decode_tile_cached ty tx rec :
  (ty < tiles_high r)%nat -> (tx < tiles_wide r)%nat -> chunk_record r v KIND_TILE2D ty tx = Ok rec ->
  runs_to r (decode_tile_cached r v rec (tile_rows r ty * tile_cols r tx)) (tile_at r v ty tx).
Proof.
  intros Hty Htx Hrec c [Hco Hch]. pose proof (tile_source_found ty tx rec Hty Htx Hrec) as Hsrc.
  assert (tile_at r v ty tx = decode_tile r rec (tile_rows r ty * tile_cols r tx)) as Hat
    by (unfold tile_at; by rewrite Hrec).
  unfold decode_tile_cached. pose proof (cache_get_ok (tile_cache_key v rec) c Hco) as Hco1.
  destruct (cache_get_coherent (tile_source r) (tile_cache_key v rec) c Hch) as [Hch1 Hhit].
  destruct (cache_get (tile_cache_key v rec) c) as [[t|] c1]; cbn [fst snd] in *.
  - exists c1. split; [|done]. specialize (Hhit t eq_refl). rewrite Hsrc in Hhit.
    destruct (tile_at r v ty tx); [|done..]. by injection Hhit as ->.
  - rewrite <- Hat. destruct (tile_at r v ty tx) as [t| |] eqn:Ht; [|by exists c1..].
    pose proof (cache_insert_ok (try_reserve 1) (tile_cache_key v rec) t c1 Hco1) as Hco2.
    destruct (cache_insert_coherent (tile_source r) (try_reserve 1) (tile_cache_key v rec) t c1 Hch1 Hsrc)
      as [Hch2 Hval].
    destruct (cache_insert (try_reserve 1) (tile_cache_key v rec) t c1) as [t' c2]; cbn [fst snd] in *.
    subst t'. by exists c2.
Qed.

(** Values the index record alone determines. *)
Lemma empty_cell ty tx rec y x :
  chunk_record r v KIND_TILE2D ty tx = Ok rec -> is_ok (tile_at r v ty tx) ->
  has_flag (flags rec) FLAG_EMPTY = true ->
  (ty * TILE_Y <= y < ty * TILE_Y + tile_rows r ty)%nat ->
  (tx * TILE_X <= x < tx * TILE_X + tile_cols r tx)%nat -> cell_2d r v y x = NAN.
Proof.
  intros Hrec [t Ht] He Hy Hx. pose proof (tile_cell_lookup r v ty tx t y x Ht Hy Hx) as Hc.
  unfold tile_at in Ht. rewrite Hrec in Ht. cbn [mbind result_bind] in Ht.
  apply decode_tile_empty in Ht as ->; [|done]. by apply lookup_replicate in Hc as [-> _].
Qed.

Lemma constant_cell ty tx rec y x :
  chunk_record r v KIND_TILE2D ty tx = Ok rec -> is_ok (tile_at r v ty tx) ->
  has_flag (flags rec) FLAG_EMPTY = false -> has_flag (flags rec) FLAG_CONSTANT && (len rec =? 0) = true ->
  (ty * TILE_Y <= y < ty * TILE_Y + tile_rows r ty)%nat ->
  (tx * TILE_X <= x < tx * TILE_X + tile_cols r tx)%nat -> cell_2d r v y x = center rec.
Proof.
  intros Hrec [t Ht] He Hc Hy Hx. pose proof (tile_cell_lookup r v ty tx t y x Ht Hy Hx) as Hl.
  unfold tile_at in Ht. rewrite Hrec in Ht. cbn [mbind result_bind] in Ht.
  apply decode_tile_constant in Ht as ->; [|done..]. by apply lookup_replicate in Hl as [-> _].
Qed.
End of_variable.

Lemma runs_read_point_2d r name v ix iy :
  reader_ok r -> lookup_2d r name = Ok v -> (ix < nx (r_meta r))%nat -> (iy < ny (r_meta r))%nat ->
  is_ok (tile_at r v (iy / TILE_Y) (ix / TILE_X)) ->
  runs_to r (read_point_2d r name ix iy) (Ok (cell_2d r v iy ix)).
Proof.
  intros Hok Hl Hx Hy Hat. destruct (lookup_2d_inv _ _ _ Hl) as (Hv & _ & Hk).
  destruct (cell_in_tile r iy ix Hy Hx) as (Hty & Htx & Hry & Hrx).
  pose proof (Nat.div_mod iy TILE_Y ltac:(done)) as Hdy. pose proof (Nat.div_mod ix TILE_X ltac:(done)) as Hdx.
  destruct (tile_record r v Hok Hv Hk _ _ Hty Htx) as (rec & Hrec & Hin & Hkey).
  unfold read_point_2d. rewrite Hl. eapply runs_bind; [apply runs_lift|]. cbv zeta.
  destruct (Nat.leb_spec (nx (r_meta r)) ix); [lia|]. destruct (Nat.leb_spec (ny (r_meta r)) iy); [lia|].
  eapply runs_bind; [apply runs_lift|]. rewrite Hrec. eapply runs_bind; [apply runs_lift|].
  destruct (has_flag (flags rec) FLAG_EMPTY) eqn:He.
  { rewrite (empty_cell r v (iy / TILE_Y) (ix / TILE_X) rec) by (done || lia). apply runs_ret. }
  destruct (has_flag (flags rec) FLAG_CONSTANT && (len rec =? 0)) eqn:Hc.
  { rewrite (constant_cell r v (iy / TILE_Y) (ix / TILE_X) rec) by (done || lia). apply runs_ret. }
  rewrite tile_dims_ok by done. eapply runs_bind; [apply runs_lift|]. cbn [fst snd].
  destruct Hat as [t Ht].
  eapply runs_bind; [rewrite <- Ht; by apply runs_decode_tile_cached|].
  unfold usub. rewrite !(proj2 (Nat.leb_le _ _)) by lia.
  do 2 (eapply runs_bind; [apply runs_lift|]).
  pose proof (tile_at_length _ _ _ _ _ Ht) as Hlen.
  assert (tile_rows r (iy / TILE_Y) <= 256 /\ tile_cols r (ix / TILE_X) <= 256)%nat as [Hr256 Hc256]
    by (unfold tile_rows, tile_cols, TILE_Y, TILE_X; lia).
  rewrite checked_mul_ok by (unfold usize_limit; nia). cbn [mbind option_bind].
  rewrite checked_add_ok by (unfold usize_limit; nia). eapply runs_bind; [apply runs_lift|].
  rewrite (tile_cell_lookup r v (iy / TILE_Y) (ix / TILE_X) t iy ix Ht) by lia. apply runs_lift.
Qed.

(** ** Tiles *)

Definition tile_geo r (c : nat * nat) : TileGeometry2D :=
  {| geo_tile_y := c.1; geo_tile_x := c.2; geo_x0 := c.2 * TILE_X; geo_y0 := c.1 * TILE_Y;
     geo_nx := tile_cols r c.2; geo_ny := tile_rows r c.1 |}.

(** The tile the reader hands out for [c]. *)
Definition tile2d_of r v (c : nat * nat) : Tile2D :=
  {| t2_geometry := tile_geo r c;
     t2_data := match chunk_record r v KIND_TILE2D c.1 c.2 with
                | Ok rec => if has_flag (flags rec) FLAG_EMPTY then TileEmpty
                            else if has_flag (flags rec) FLAG_CONSTANT && (len rec =? 0)
                            then TileConstant (center rec) else TileDense (tile_of r v c.1 c.2)
                | _ => TileEmpty
                end |}.

Definition tiles_state r (k : nat) : Tiles2D :=
  {| tiles_grid_nx := nx (r_meta r); tiles_grid_ny := ny (r_meta r); tiles_x := tiles_wide r;
     tiles_y := tiles_high r; tiles_next_ordinal := k; tile_count := tiles_high r * tiles_wide r |}.

Lemma tiles_collect_S fuel s :
  tiles_collect (S fuel) s =
    (step ← tiles_next s;
     match step with
     | None => Ok []
     | Some (g, s) => rest ← tiles_collect fuel s; Ok (g :: rest)
     end).
Proof. done. Qed.

Lemma tiles_collect_from r n k :
  (k + n = tiles_high r * tiles_wide r)%nat ->
  tiles_collect (S n) (tiles_state r k)
  = Ok ((fun i => tile_geo r (i / tiles_wide r, i mod tiles_wide r)%nat) <$> seq k n).
Proof.
  revert k; induction n as [|n IH]; intros k Hkn; rewrite tiles_collect_S.
  - unfold tiles_next. cbn [tiles_state tiles_next_ordinal tile_count].
    rewrite (proj2 (Nat.eqb_eq _ _)) by lia. done.
  - unfold tiles_next. cbn [tiles_state tiles_next_ordinal tile_count tiles_x tiles_y tiles_grid_nx tiles_grid_ny].
    destruct (Nat.eqb_spec k (tiles_high r * tiles_wide r)); [lia|].
    destruct (row_major_lt (tiles_wide r) (tiles_high r) k ltac:(lia)) as [Hy Hx].
    destruct (tile_bounds r _ _ Hy Hx) as [Hb1 Hb2].
    unfold usub. rewrite !(proj2 (Nat.leb_le _ _)) by lia. rrun.
    fold (tiles_state r (S k)). rewrite IH by lia. rrun. done.
Qed.

Lemma tiles_collect_all r :
  tiles_collect (tiles_high r * tiles_wide r + 1) (tiles_state r 0)
  = Ok (tile_geo r <$> grid_coords (tiles_high r) (tiles_wide r)).
Proof.
  rewrite Nat.add_1_r, tiles_collect_from by lia.
  rewrite <- grid_coords_ordinal, <- list_fmap_compose. done.
Qed.

Lemma tiles_2d_for_var_ok r v :
  reader_ok r -> v ∈ variables (r_meta r) -> var_kind v = "surface2d" ->
  tiles_2d_for_var r v = Ok (tiles_state r 0).
Proof.
  intros Hok Hv Hk. unfold tiles_2d_for_var. cbv zeta.
  rewrite chunk_count_fits by (try apply rok_meta; unfold TILE_Y, TILE_X; auto; lia). rrun.
  destruct (var_range_exact r v _ Hok Hv (surface_layout v Hk)) as (a & b & -> & Hab). rrun.
  rewrite Hab. unfold chunk_rows, chunk_cols. cbn [lay_y lay_x]. rewrite Nat.eqb_refl. done.
Qed.

Lemma tile2d_get_cell r v ty tx row col :
  is_ok (tile_at r v ty tx) -> (ty < tiles_high r)%nat -> (tx < tiles_wide r)%nat ->
  tile2d_get (tile2d_of r v (ty, tx)) row col =
    if in_rect 0 (tile_rows r ty) 0 (tile_cols r tx) row col
    then Some (cell_2d r v (ty * TILE_Y + row) (tx * TILE_X + col)) else None.
Proof.
  intros Hat Hty Htx. unfold tile2d_get, in_rect. cbn [tile2d_of t2_geometry t2_data tile_geo geo_ny geo_nx fst snd].
  rewrite !Nat.add_0_l. cbn [Nat.leb andb].
  destruct (Nat.leb_spec (tile_rows r ty) row); [by rewrite (proj2 (Nat.ltb_ge _ _)) by lia|].
  destruct (Nat.leb_spec (tile_cols r tx) col);
    [by rewrite (proj2 (Nat.ltb_ge col _)), andb_false_r by lia|].
  rewrite !(proj2 (Nat.ltb_lt _ _)) by lia. cbn [orb andb].
  destruct Hat as [t Ht].
  pose proof (tile_cell_lookup r v ty tx t (ty * TILE_Y + row) (tx * TILE_X + col) Ht
    ltac:(lia) ltac:(lia)) as Hc.
  destruct (chunk_record r v KIND_TILE2D ty tx) as [rec| |] eqn:Hrec;
    [|by unfold tile_at in Ht; rewrite Hrec in Ht..].
  destruct (has_flag (flags rec) FLAG_EMPTY) eqn:He.
  { by rewrite (empty_cell r v ty tx rec) by (done || lia || by eexists). }
  destruct (has_flag (flags rec) FLAG_CONSTANT && (len rec =? 0)) eqn:Hcst.
  { by rewrite (constant_cell r v ty tx rec) by (done || lia || by eexists). }
  unfold tile_of. rewrite Ht. rewrite <- Hc. f_equal. lia.
Qed.

Lemma runs_read_tile r v ty tx :
  reader_ok r -> v ∈ variables (r_meta r) -> var_kind v = "surface2d" ->
  (ty < tiles_high r)%nat -> (tx < tiles_wide r)%nat -> is_ok (tile_at r v ty tx) ->
  runs_to r (read_tile_2d_for_var r v (tile_geo r (ty, tx))) (Ok (tile2d_of r v (ty, tx))).
Proof.
  intros Hok Hv Hk Hty Htx [t Ht]. destruct (tile_record r v Hok Hv Hk ty tx Hty Htx) as (rec & Hrec & _).
  unfold read_tile_2d_for_var, tile2d_of. cbn [tile_geo geo_tile_y geo_tile_x fst snd].
  rewrite Hrec. eapply runs_bind; [apply runs_lift|].
  destruct (has_flag (flags rec) FLAG_EMPTY); [eapply runs_bind; apply runs_ret|].
  destruct (_ && _); [eapply runs_bind; apply runs_ret|].
  eapply runs_bind; [|apply runs_ret].
  eapply runs_bind; [|apply runs_ret].
  unfold tile_of. rewrite Ht, <- Ht. unfold geo_cell_count. cbn [tile_geo geo_nx geo_ny fst snd].
  rewrite Nat.mul_comm. by apply runs_decode_tile_cached.
Qed.

Lemma tile_geometry_2d_ok r ty tx :
  reader_ok r -> (ty < tiles_high r)%nat -> (tx < tiles_wide r)%nat ->
  tile_geometry_2d r ty tx = Ok (tile_geo r (ty, tx)).
Proof.
  intros Hok Hty Htx. unfold tile_geometry_2d. cbv zeta. fold (tiles_high r) (tiles_wide r).
  rewrite !(proj2 (Nat.leb_gt _ _)) by lia. rrun.
  destruct (tile_bounds r ty tx Hty Htx) as [Hb1 Hb2].
  pose proof (ok_cells _ (rok_meta _ Hok)) as Hc. assert (MAX_GRID_CELLS < usize_limit) by done.
  pose proof (ok_nx _ (rok_meta _ Hok)). pose proof (ok_ny _ (rok_meta _ Hok)).
  rewrite (checked_mul_ok ty), (checked_mul_ok tx) by nia. rrun.
  unfold usub. rewrite !(proj2 (Nat.leb_le _ _)) by lia. done.
Qed.
End cached.

(** ** Windows *)

Section window.
Context `{F32Ties, External}.
Context (r : HourReader) (v : RwsVariableMeta) (Hok : reader_ok r)
        (Hv : v ∈ variables (r_meta r)) (Hk : var_kind v = "surface2d").
Context (x0 y0 x1 y1 : nat) (Hx : (x0 < x1 <= nx (r_meta r))%nat) (Hy : (y0 < y1 <= ny (r_meta r))%nat).

(** The record at [c] and what the window's decode step gives for it. *)
Definition rec_of (c : nat * nat) : option ChunkRecord :=
  match chunk_record r v KIND_TILE2D c.1 c.2 with Ok rec => Some rec | _ => None end.
Definition from_record (rec : ChunkRecord) : bool :=
  has_flag (flags rec) FLAG_EMPTY || (has_flag (flags rec) FLAG_CONSTANT && (len rec =? 0)).
Definition window_data (job : (nat * nat) * ChunkRecord) : option (list f32) :=
  if from_record job.2 then None else Some (tile_of r v job.1.1 job.1.2).

(** The part of the window tile [c] covers, in window coordinates. *)
Definition tile_part (c : nat * nat) (y x : nat) : bool :=
  ((y0 + y) / TILE_Y =? c.1)%nat && ((x0 + x) / TILE_X =? c.2)%nat.

Lemma tile_part_rect ty tx y x :
  (ty < tiles_high r)%nat -> (tx < tiles_wide r)%nat ->
  (ty * TILE_Y < y1 /\ y0 < ty * TILE_Y + tile_rows r ty)%nat ->
  (tx * TILE_X < x1 /\ x0 < tx * TILE_X + tile_cols r tx)%nat ->
  (y < y1 - y0)%nat -> (x < x1 - x0)%nat ->
  in_rect (Nat.max (ty * TILE_Y) y0 - y0)
          (Nat.min (ty * TILE_Y + tile_rows r ty) y1 - Nat.max (ty * TILE_Y) y0)
          (Nat.max (tx * TILE_X) x0 - x0)
          (Nat.min (tx * TILE_X + tile_cols r tx) x1 - Nat.max (tx * TILE_X) x0) y x
  = tile_part (ty, tx) y x.
Proof.
  intros Hty Htx Hyr Hxr Hyb Hxb. apply eq_true_iff_eq. rewrite in_rect_spec.
  unfold tile_part. rewrite andb_true_iff, !Nat.eqb_eq. cbn [fst snd].
  pose proof (Nat.div_mod (y0 + y) TILE_Y ltac:(done)).
  pose proof (Nat.mod_upper_bound (y0 + y) TILE_Y ltac:(done)).
  pose proof (Nat.div_mod (x0 + x) TILE_X ltac:(done)).
  pose proof (Nat.mod_upper_bound (x0 + x) TILE_X ltac:(done)).
  unfold tile_rows, tile_cols in *. unfold TILE_Y, TILE_X in *. split; nia.
Qed.

Lemma window_tile_meets ty tx :
  (y0 / TILE_Y <= ty <= (y1 - 1) / TILE_Y)%nat -> (x0 / TILE_X <= tx <= (x1 - 1) / TILE_X)%nat ->
  (ty < tiles_high r /\ tx < tiles_wide r)%nat /\
  (ty * TILE_Y < y1 /\ y0 < ty * TILE_Y + tile_rows r ty)%nat /\
  (tx * TILE_X < x1 /\ x0 < tx * TILE_X + tile_cols r tx)%nat.
Proof.
  intros Hty Htx.
  pose proof (div_lt_div_ceil (ny (r_meta r)) TILE_Y (y1 - 1) ltac:(unfold TILE_Y; lia) ltac:(lia)).
  pose proof (div_lt_div_ceil (nx (r_meta r)) TILE_X (x1 - 1) ltac:(unfold TILE_X; lia) ltac:(lia)).
  pose proof (Nat.div_mod y0 TILE_Y ltac:(done)). pose proof (Nat.mod_upper_bound y0 TILE_Y ltac:(done)).
  pose proof (Nat.div_mod x0 TILE_X ltac:(done)). pose proof (Nat.mod_upper_bound x0 TILE_X ltac:(done)).
  pose proof (Nat.Div0.mul_div_le (y1 - 1) TILE_Y). pose proof (Nat.Div0.mul_div_le (x1 - 1) TILE_X).
  unfold tiles_high, tiles_wide, tile_rows, tile_cols in *. unfold TILE_Y, TILE_X in *.
  split; [lia|]. nia.
Qed.

(** Placing one tile. *)
Lemma place_window_step ty tx rec l :
  (y0 / TILE_Y <= ty <= (y1 - 1) / TILE_Y)%nat -> (x0 / TILE_X <= tx <= (x1 - 1) / TILE_X)%nat ->
  chunk_record r v KIND_TILE2D ty tx = Ok rec -> is_ok (tile_at r v ty tx) ->
  length l = ((y1 - y0) * (x1 - x0))%nat ->
  exists l', place_window r x0 y0 x1 y1 l ((ty, tx), rec, window_data ((ty, tx), rec)) = Ok l' /\
    length l' = ((y1 - y0) * (x1 - x0))%nat /\
    forall y x, (y < y1 - y0)%nat -> (x < x1 - x0)%nat ->
      l' !! (y * (x1 - x0) + x)%nat =
        if tile_part (ty, tx) y x && negb (has_flag (flags rec) FLAG_EMPTY)
        then Some (cell_2d r v (y0 + y) (x0 + x)) else l !! (y * (x1 - x0) + x)%nat.
Proof.
  intros Hty Htx Hrec [t Ht] Hl.
  destruct (window_tile_meets ty tx Hty Htx) as ([Hty' Htx'] & Hym & Hxm).
  unfold place_window. rewrite tile_dims_ok by done. rrun. cbv zeta.
  unfold window_data, from_record. cbn [fst snd].
  destruct (has_flag (flags rec) FLAG_EMPTY) eqn:He.
  { exists l. split_and!; [done..|]. intros. by rewrite andb_false_r. }
  pose proof (tile_part_rect ty tx) as Hrect.
  remember (Nat.max (ty * TILE_Y) y0) as gy0 eqn:Egy0 in *.
  remember (Nat.min (ty * TILE_Y + tile_rows r ty) y1) as gy1 eqn:Egy1 in *.
  remember (Nat.max (tx * TILE_X) x0) as gx0 eqn:Egx0 in *.
  remember (Nat.min (tx * TILE_X + tile_cols r tx) x1) as gx1 eqn:Egx1 in *.
  destruct (tile_nonempty r ty tx Hty' Htx') as [Hrpos Hcpos].
  assert (gy0 < gy1 /\ gx0 < gx1)%nat as [Hgy Hgx] by lia.
  cbn [orb negb]. destruct (has_flag (flags rec) FLAG_CONSTANT && (len rec =? 0)) eqn:Hc.
  - destruct (rows_written (fun values gy => gx1' ← usub gx1 x0;
        fill_range values ((gy - y0) * (x1 - x0) + (gx0 - x0)) ((gy - y0) * (x1 - x0) + gx1') (center rec))
      (fun y x => Some (cell_2d r v (y0 + y) (x0 + x))) (y1 - y0) (x1 - x0) (gx0 - x0) (gx1 - gx0)
      (gy0 - y0) gy0 (gy1 - gy0)) with l as (l' & Hl1 & Hl2 & Hl3); [lia..| |done|].
    + intros j values Hj Hlen. exists (replicate (gx1 - gx0) (center rec)).
      unfold usub. rewrite (proj2 (Nat.leb_le _ _)) by lia. rrun.
      unfold fill_range. rewrite (proj2 (Nat.leb_le _ _)) by lia.
      split_and!; [|by rewrite length_replicate|].
      * replace (gy0 + j - y0)%nat with (gy0 - y0 + j)%nat by lia. do 2 f_equal. lia.
      * intros x Hxx. rewrite (constant_cell r v ty tx rec) by (done || lia || by eexists).
        by apply lookup_replicate_2.
    + exists l'. split_and!; [done..|]. intros y x Hyb Hxb. rewrite Hl3 by done.
      rewrite Hrect by done. by rewrite andb_true_r.
  - destruct (rows_written (fun values gy => gx1' ← usub gx1 x0; gx1t ← usub gx1 (tx * TILE_X);
        part ← slice (tile_of r v ty tx) ((gy - ty * TILE_Y) * tile_cols r tx + (gx0 - tx * TILE_X))
                 ((gy - ty * TILE_Y) * tile_cols r tx + gx1t);
        copy_range values ((gy - y0) * (x1 - x0) + (gx0 - x0)) ((gy - y0) * (x1 - x0) + gx1') part)
      (fun y x => Some (cell_2d r v (y0 + y) (x0 + x))) (y1 - y0) (x1 - x0) (gx0 - x0) (gx1 - gx0)
      (gy0 - y0) gy0 (gy1 - gy0)) with l as (l' & Hl1 & Hl2 & Hl3); [lia..| |done|].
    + intros j values Hj Hlen. unfold tile_of. rewrite Ht.
      pose proof (tile_at_length _ _ _ _ _ Ht) as Htl.
      unfold usub. rewrite !(proj2 (Nat.leb_le _ _)) by lia. rrun.
      set (src := ((gy0 + j - ty * TILE_Y) * tile_cols r tx)%nat).
      destruct (slice (E := RwStoreError) t (src + (gx0 - tx * TILE_X)) (src + (gx1 - tx * TILE_X)))
        as [part| |] eqn:Hs; [|rewrite slice_ok in Hs by nia; done..].
      exists part. pose proof (length_slice _ _ _ _ Hs) as Hsl. rrun. unfold copy_range.
      rewrite bool_decide_eq_true_2 by lia. split_and!; [|lia|].
      * by replace (gy0 + j - y0)%nat with (gy0 - y0 + j)%nat by lia.
      * intros x Hxx. rewrite (lookup_slice _ _ _ _ _ Hs) by lia.
        rewrite <- (tile_cell_lookup r v ty tx t) by (done || lia). f_equal. unfold src.
        replace (y0 + (gy0 - y0 + j) - ty * TILE_Y)%nat with (gy0 + j - ty * TILE_Y)%nat by lia. lia.
    + exists l'. split_and!; [done..|]. intros y x Hyb Hxb. rewrite Hl3 by done.
      rewrite Hrect by done. by rewrite andb_true_r.
Qed.

Definition window_field : list f32 :=
  (fun c => cell_2d r v (y0 + c.1) (x0 + c.2)) <$> grid_coords (y1 - y0) (x1 - x0).
Let coords := window_coords (y0 / TILE_Y) ((y1 - 1) / TILE_Y) (x0 / TILE_X) ((x1 - 1) / TILE_X).

Lemma elem_of_window_coords a b c d ty tx :
  (a <= b)%nat -> (c <= d)%nat ->
  (ty, tx) ∈ window_coords a b c d <-> (a <= ty <= b /\ c <= tx <= d)%nat.
Proof.
  intros Hab Hcd. unfold window_coords. rewrite list_elem_of_fmap. split.
  - intros ([y x] & [= -> ->] & [? ?]%elem_of_grid_coords). lia.
  - intros []. exists (ty - a, tx - c)%nat. cbn [fst snd]. split; [f_equal; lia|].
    apply elem_of_grid_coords. lia.
Qed.

Lemma window_tiles ty tx :
  (ty, tx) ∈ coords <->
  (y0 / TILE_Y <= ty <= (y1 - 1) / TILE_Y /\ x0 / TILE_X <= tx <= (x1 - 1) / TILE_X)%nat.
Proof. apply elem_of_window_coords; apply Nat.Div0.div_le_mono; lia. Qed.

Lemma place_window_all jobs l :
  tiles_decode r v -> length l = ((y1 - y0) * (x1 - x0))%nat -> Forall (eq NAN) l ->
  rmap (fun c : nat * nat => rec ← chunk_record r v KIND_TILE2D c.1 c.2; Ok (c, rec)) coords = Ok jobs ->
  rfold (place_window r x0 y0 x1 y1) (zip jobs (window_data <$> jobs)) l = Ok window_field.
Proof.
  intros Hdec Hl Hnan Hjobs%rmap_ok_inv.
  assert (forall job, job ∈ jobs -> job.1 ∈ coords /\ chunk_record r v KIND_TILE2D job.1.1 job.1.2 = Ok job.2) as Hjob.
  { intros job [i Hi]%list_elem_of_lookup. destruct (Forall2_lookup_r _ _ _ _ _ Hjobs Hi) as (c & Hc & Hrec).
    res_inv Hrec. subst job. cbn [fst snd]. split; [|done]. apply list_elem_of_lookup. eauto. }
  destruct (rfold_grid_writes (place_window r x0 y0 x1 y1)
    (fun y x => Some (cell_2d r v (y0 + y) (x0 + x)))
    (fun j y x => tile_part j.1.1 y x && negb (has_flag (flags j.1.2) FLAG_EMPTY))
    (y1 - y0) (x1 - x0) (zip jobs (window_data <$> jobs))) with l as (out & -> & Hlen & Hcell).
  - intros [[[ty tx] rec] data] l' Hin Hl'.
    assert (((ty, tx), rec) ∈ jobs /\ data = window_data ((ty, tx), rec)) as [Hin' ->].
    { apply list_elem_of_lookup in Hin as [i Hi]. apply lookup_zip_with_Some in Hi as (job & d & [= <- <-] & Hj & Hd).
      rewrite list_lookup_fmap, Hj in Hd. injection Hd as <-. split; [|done].
      apply list_elem_of_lookup. eauto. }
    destruct (Hjob _ Hin') as [[Hty Htx]%window_tiles Hrec]. cbn [fst snd] in *.
    destruct (window_tile_meets ty tx Hty Htx) as ([Hty' Htx'] & _).
    by apply place_window_step; [done..|apply Hdec|].
  - done.
  - f_equal. apply (grid_ext (fun y x => cell_2d r v (y0 + y) (x0 + x))); [done|].
    intros y x Hyb Hxb. rewrite Hcell by done.
    set (ty := ((y0 + y) / TILE_Y)%nat). set (tx := ((x0 + x) / TILE_X)%nat).
    destruct (cell_in_tile r (y0 + y) (x0 + x)) as (Hty & Htx & Hry & Hrx); [lia..|].
    assert ((ty, tx) ∈ coords) as Hin.
    { apply window_tiles. unfold ty, tx. split; split; apply Nat.Div0.div_le_mono; lia. }
    apply list_elem_of_lookup in Hin as [i Hi].
    destruct (Forall2_lookup_l _ _ _ _ _ Hjobs Hi) as (job & Hji & Hrec). cbn [fst snd] in Hrec. res_inv Hrec. subst job.
    destruct (existsb _ _) eqn:He; [done|].
    destruct (has_flag (flags a) FLAG_EMPTY) eqn:Hemp.
    + pose proof (Nat.div_mod (y0 + y) TILE_Y ltac:(done)). pose proof (Nat.div_mod (x0 + x) TILE_X ltac:(done)).
      rewrite (empty_cell r v ty tx a) by (done || (unfold ty, tx; lia) || by apply Hdec).
      destruct (lookup_lt_is_Some_2 l (y * (x1 - x0) + x)%nat) as [z Hz]; [nia|].
      by rewrite Hz, (proj1 (list.Forall_forall _ _) Hnan z ltac:(apply list_elem_of_lookup; eauto)).
    + assert (existsb (fun j : (nat * nat) * ChunkRecord * option (list f32) =>
        tile_part j.1.1 y x && negb (has_flag (flags j.1.2) FLAG_EMPTY)) (zip jobs (window_data <$> jobs)) = true); [|congruence].
      apply existsb_true. exists ((ty, tx), a, window_data ((ty, tx), a)). split.
      * apply list_elem_of_lookup. exists i. apply lookup_zip_with_Some. do 2 eexists.
        split_and!; [done|done|]. by rewrite list_lookup_fmap, Hji.
      * cbn [fst snd]. rewrite Hemp. unfold tile_part. cbn [fst snd]. fold ty tx. by rewrite !Nat.eqb_refl.
Qed.

Lemma runs_window_decode jobs :
  tiles_decode r v ->
  rmap (fun c : nat * nat => rec ← chunk_record r v KIND_TILE2D c.1 c.2; Ok (c, rec)) coords = Ok jobs ->
  runs_to r (cmap (fun job : (nat * nat) * ChunkRecord =>
        if has_flag (flags job.2) FLAG_EMPTY
           || (has_flag (flags job.2) FLAG_CONSTANT && (len job.2 =? 0)) then mret None
        else
          dims ← lift (tile_dims r job.1.1 job.1.2);
          tile ← (decode_tile_cached r v job.2 (dims.1 * dims.2) : CacheM (list f32));
          mret (Some tile)) jobs) (Ok (window_data <$> jobs)).
Proof.
  intros Hdec Hjobs%rmap_ok_inv. apply runs_cmap. intros [[ty tx] rec] [i Hi]%list_elem_of_lookup.
  destruct (Forall2_lookup_r _ _ _ _ _ Hjobs Hi) as (c & Hc & Hrec). res_inv Hrec. simplify_eq.
  assert ((ty, tx) ∈ coords) as Hin by (apply list_elem_of_lookup; eauto).
  apply window_tiles in Hin as [Hty Htx]. destruct (window_tile_meets ty tx Hty Htx) as ([Hty' Htx'] & _).
  unfold window_data, from_record. cbn [fst snd] in *. destruct (_ || _); [apply runs_ret|].
  rewrite tile_dims_ok by done. eapply runs_bind; [apply runs_lift|]. cbn [fst snd].
  destruct (Hdec ty tx Hty' Htx') as [t Ht]. unfold tile_of. rewrite Ht.
  eapply runs_bind; [rewrite <- Ht; by apply runs_decode_tile_cached|]. apply runs_ret.
Qed.
End window.

Lemma runs_read_window `{F32Ties, External} r name v x0 y0 x1 y1 :
  alloc_succeeds -> reader_ok r -> lookup_2d r name = Ok v -> tiles_decode r v ->
  (x0 < x1 <= nx (r_meta r))%nat -> (y0 < y1 <= ny (r_meta r))%nat ->
  runs_to r (read_window_2d r name x0 y0 x1 y1)
    (Ok {| win_x0 := x0; win_y0 := y0; win_nx := x1 - x0; win_ny := y1 - y0;
           win_values := window_field r v x0 y0 x1 y1 |}).
Proof.
  intros Halloc Hok Hl Hdec Hx Hy. destruct (lookup_2d_inv _ _ _ Hl) as (Hv & _ & Hk).
  unfold read_window_2d. rewrite Hl. eapply runs_bind; [apply runs_lift|]. cbv zeta.
  rewrite !Nat.min_l by lia. rewrite !(proj2 (Nat.leb_gt _ _)) by lia. eapply runs_bind; [apply runs_lift|].
  destruct ((x1 - x0 =? 1)%nat && (y1 - y0 =? 1)%nat) eqn:Hone.
  - breflect. destruct (cell_in_tile r y0 x0) as (Hty & Htx & _); [lia..|].
    eapply runs_bind; [apply (runs_read_point_2d r name v); try done; try lia; by apply Hdec|].
    unfold try_filled_f32. rewrite Halloc. eapply runs_bind; [apply runs_lift|].
    unfold window_field. replace (x1 - x0)%nat with 1%nat by lia. replace (y1 - y0)%nat with 1%nat by lia.
    change (grid_coords 1 1) with [(0, 0)%nat]. rewrite fmap_cons. cbn [fst snd].
    rewrite !Nat.add_0_r. apply runs_ret.
  - rewrite (area_fits r (y1 - y0) (x1 - x0)) by (done || lia). eapply runs_bind; [apply runs_lift|].
    unfold try_filled_f32. rewrite Halloc. eapply runs_bind; [apply runs_lift|].
    rewrite (area_fits r); [|done|..].
    2:{ pose proof (Nat.Div0.div_le_upper_bound (y1 - 1) TILE_Y (y1 - 1) ltac:(unfold TILE_Y; lia)). lia. }
    2:{ pose proof (Nat.Div0.div_le_upper_bound (x1 - 1) TILE_X (x1 - 1) ltac:(unfold TILE_X; lia)). lia. }
    eapply runs_bind; [apply runs_lift|]. rewrite Halloc. eapply runs_bind; [apply runs_lift|].
    destruct (rmap_total (E := RwStoreError) (fun c : nat * nat => rec ← chunk_record r v KIND_TILE2D c.1 c.2; Ok (c, rec))
      (window_coords (y0 / TILE_Y) ((y1 - 1) / TILE_Y) (x0 / TILE_X) ((x1 - 1) / TILE_X))) as [jobs Hjobs].
    { intros [ty tx] Hin. apply (window_tiles r x0 y0 x1 y1 Hx Hy) in Hin as [Hty Htx].
      destruct (window_tile_meets r x0 y0 x1 y1 Hx Hy ty tx Hty Htx) as ([Hty' Htx'] & _).
      cbn [fst snd]. destruct (tile_record r v Hok Hv Hk ty tx Hty' Htx') as (rec & -> & _). by eexists. }
    rewrite Hjobs. eapply runs_bind; [apply runs_lift|]. eapply runs_bind; [by apply (runs_window_decode r v Hok Hv Hk x0 y0 x1 y1 Hx Hy)|].
    rewrite (place_window_all r v x0 y0 x1 y1 Hx Hy)
      by (done || by rewrite length_replicate || by apply Forall_replicate).
    eapply runs_bind; [apply runs_lift|]. apply runs_ret.
Qed.

Lemma read_full_2d_no_panic `{F32Ties, External, !ExternalLaws} r name :
  reader_ok r -> read_full_2d r name <> Panic.
Proof.
  intros Hok. unfold read_full_2d. apply bind_no_panic; [apply lookup_2d_no_panic|]. intros v Hl.
  destruct (lookup_2d_inv _ _ _ Hl) as (Hv & _ & Hk). cbv zeta. fold (tiles_high r) (tiles_wide r).
  do 2 (apply bind_no_panic; [auto with rw|]; intros ? _).
  assert (forall c, c ∈ grid_coords (tiles_high r) (tiles_wide r) ->
    exists rec, chunk_record r v KIND_TILE2D c.1 c.2 = Ok rec /\ record_wf rec) as Hrec.
  { intros [ty tx] [Hty Htx]%elem_of_grid_coords.
    destruct (tile_record r v Hok Hv Hk ty tx Hty Htx) as (rec & Hr & Hin & _).
    exists rec. split; [done|]. by eapply record_in_wf. }
  apply bind_no_panic.
  { apply rmap_no_panic. intros c Hc. destruct (Hrec c Hc) as (rec & -> & _). done. }
  intros jobs Hjobs. apply bind_no_panic.
  { pose proof (rmap_ok_inv _ _ _ Hjobs) as Hj2. apply rmap_no_panic.
    intros job [i Hi]%list_elem_of_lookup. destruct (Forall2_lookup_r _ _ _ _ _ Hj2 Hi) as ([ty tx] & Hc & Hjob).
    apply list_elem_of_lookup_2 in Hc. destruct (Hrec _ Hc) as (rec & Hr & Hwf). rewrite Hr in Hjob.
    injection Hjob as <-. cbn [fst snd]. apply elem_of_grid_coords in Hc as [Hty Htx].
    rewrite tile_dims_ok by done. rrun. no_panic. by apply decode_tile_no_panic. }
  intros decoded Hdec.
  pose proof (proj2 (rmap_compose _ _ _ _) (ex_intro _ _ (conj Hjobs Hdec))) as Hcomp.
  apply tile_jobs in Hcomp as [Htiles ->].
  apply bind_no_panic; [auto with rw|]. intros cells Hcells. res_clean. subst cells.
  apply bind_no_panic; [apply try_filled_f32_no_panic|]. intros values ->%try_filled_f32_inv.
  rewrite (place_tiles r v) by (done || by rewrite length_replicate). done.
Qed.

(** Asking past the grid is asking up to its edge. *)
Lemma read_window_clamped `{F32Ties, External} r name x0 y0 x1 y1 c :
  read_window_2d r name x0 y0 x1 y1 c =
  read_window_2d r name x0 y0 (Nat.min x1 (nx (r_meta r))) (Nat.min y1 (ny (r_meta r))) c.
Proof.
  unfold read_window_2d. cbv zeta.
  by rewrite <- !Nat.min_assoc, !Nat.min_id.
Qed.

(** ** Properties *)

(** The full read of a surface variable of an opened file never panics,
    and what it returns is the variable's field: one value per grid cell, row
    by row, each taken from the decoded tile that covers the cell. *)
Theorem full_read_returns_field `{F32Ties, External} (Hlaws : ExternalLaws) src mm file r name :
  open_reader src mm file = Ok r ->
  read_full_2d r name <> Panic /\
  forall values, read_full_2d r name = Ok values ->
    exists v, lookup_2d r name = Ok v /\ values = field_2d r v /\
      length values = (ny (r_meta r) * nx (r_meta r))%nat.
Proof.
  intros Hok%open_reader_ok. split; [by apply read_full_2d_no_panic|].
  intros values (v & Hv & _ & ->)%read_full_2d_inv. exists v. split_and!; [done..|]. apply length_field_2d.
Qed.

Lemma full_read_returns_field_witness :
  read_full_2d sample_reader "t2m" = Ok sample_values /\
  exists v, lookup_2d sample_reader "t2m" = Ok v /\ sample_values = field_2d sample_reader v /\
    length sample_values = 6%nat.
Proof.
  split; [vm_compute; reflexivity|].
  exact (proj2 (full_read_returns_field table_laws 7 true sample_file sample_reader "t2m" sample_open)
    sample_values eq_refl).
Defined.

(** A point read returns the cell of the full read, whatever the tile
    cache holds, and leaves the cache valid: within its byte bound and
    holding only tiles of this file. *)
Theorem point_read_is_full_cell `{F32Ties, External} src mm file r name values ix iy c :
  open_reader src mm file = Ok r -> read_full_2d r name = Ok values ->
  (ix < nx (r_meta r))%nat -> (iy < ny (r_meta r))%nat -> cache_inv r c ->
  exists x c', read_point_2d r name ix iy c = (Ok x, c') /\
    values !! (iy * nx (r_meta r) + ix)%nat = Some x /\ cache_inv r c'.
Proof.
  intros Hok%open_reader_ok (v & Hv & Hdec & ->)%read_full_2d_inv Hx Hy Hc.
  destruct (cell_in_tile r iy ix Hy Hx) as (Hty & Htx & _).
  destruct (runs_read_point_2d r name v ix iy Hok Hv Hx Hy (Hdec _ _ Hty Htx) c Hc) as (c' & Hrun & Hc').
  exists (cell_2d r v iy ix), c'. split_and!; [done| |done]. by apply lookup_field_2d.
Qed.

Lemma cache_inv_new `{F32Ties, External} r cap : 0 <= cap < U64_MAX -> cache_inv r (cache_new cap).
Proof. intros. split; [by apply cache_new_ok|]. apply map_Forall_empty. Qed.

Lemma point_read_is_full_cell_witness : exists x c',
  read_point_2d sample_reader "t2m" 2 1 (cache_new 1024) = (Ok x, c') /\ sample_values !! 5%nat = Some x.
Proof.
  destruct (point_read_is_full_cell 7 true sample_file sample_reader "t2m" sample_values 2 1 (cache_new 1024))
    as (x & c' & Hr & Hx & _).
  - exact sample_open.
  - vm_compute. reflexivity.
  - apply Nat.ltb_lt. vm_compute. reflexivity.
  - apply Nat.ltb_lt. vm_compute. reflexivity.
  - apply cache_inv_new. unfold U64_MAX. lia.
  - exists x, c'. split; [exact Hr|]. rewrite <- Hx. reflexivity.
Defined.

(** A window read returns exactly the rectangle of the full read it asks
    for, clamped to the grid, whatever the tile cache holds: each value of
    the window is the value of the full field at the same grid cell. *)
Theorem window_read_is_full_rectangle `{F32Ties, External} src mm file r name values x0 y0 x1 y1 c :
  alloc_succeeds -> open_reader src mm file = Ok r -> read_full_2d r name = Ok values ->
  (x0 < Nat.min x1 (nx (r_meta r)))%nat -> (y0 < Nat.min y1 (ny (r_meta r)))%nat -> cache_inv r c ->
  exists win c', read_window_2d r name x0 y0 x1 y1 c = (Ok win, c') /\ cache_inv r c' /\
    win_x0 win = x0 /\ win_y0 win = y0 /\
    win_nx win = (Nat.min x1 (nx (r_meta r)) - x0)%nat /\ win_ny win = (Nat.min y1 (ny (r_meta r)) - y0)%nat /\
    length (win_values win) = (win_ny win * win_nx win)%nat /\
    forall y x, (y < win_ny win)%nat -> (x < win_nx win)%nat ->
      win_values win !! (y * win_nx win + x)%nat = values !! ((y0 + y) * nx (r_meta r) + (x0 + x))%nat.
Proof.
  intros Halloc Hok%open_reader_ok (v & Hv & Hdec & ->)%read_full_2d_inv Hx Hy Hc.
  rewrite read_window_clamped.
  destruct (runs_read_window r name v x0 y0 _ _ Halloc Hok Hv Hdec
    (conj Hx (Nat.le_min_r x1 _)) (conj Hy (Nat.le_min_r y1 _)) c Hc) as (c' & Hrun & Hc').
  eexists _, c'. split; [exact Hrun|]. cbn [win_x0 win_y0 win_nx win_ny win_values].
  split_and!; [done..| |].
  - unfold window_field. by rewrite length_fmap, length_grid_coords.
  - intros y x Hyb Hxb. unfold window_field.
    rewrite list_lookup_fmap, lookup_grid_coords by done. by rewrite lookup_field_2d by lia.
Qed.

Lemma window_read_is_full_rectangle_witness : exists win c',
  read_window_2d sample_reader "t2m" 1 0 9 2 (cache_new 1024) = (Ok win, c') /\
  win_values win = [f32_one; NAN; f32_one; f32_zero].
Proof.
  destruct (window_read_is_full_rectangle 7 true sample_file sample_reader "t2m" sample_values 1 0 9 2
    (cache_new 1024)) as (win & c' & Hr & _ & _ & _ & Hnx & Hny & Hlen & Hcell).
  - exact table_alloc.
  - exact sample_open.
  - vm_compute. reflexivity.
  - apply Nat.ltb_lt. vm_compute. reflexivity.
  - apply Nat.ltb_lt. vm_compute. reflexivity.
  - apply cache_inv_new. unfold U64_MAX. lia.
  - exists win, c'. split; [exact Hr|].
    assert (win_nx win = 2%nat) as Ex by (rewrite Hnx; vm_compute; reflexivity).
    assert (win_ny win = 2%nat) as Ey by (rewrite Hny; vm_compute; reflexivity).
    rewrite Ey, Ex in Hlen. rewrite Ey, Ex in Hcell.
    rewrite (grid_ext (fun y x => default NAN (sample_values !! ((0 + y) * 3 + (1 + x))%nat)) 2 2 (win_values win) Hlen).
    + reflexivity.
    + intros y x Hy Hx. rewrite Hcell by done.
      replace (nx (r_meta sample_reader)) with 3%nat by (vm_compute; reflexivity).
      destruct y as [|[|]], x as [|[|]]; try lia; reflexivity.
Defined.

(** The tile iterator of a surface variable terminates after one step
    per tile and yields the tiles of the grid in row-major order; visiting
    them hands the visitor, in that order, tiles whose cells are the cells of
    the full read at the tile's place, none outside. *)
Theorem tiles_visit_covers_field `{F32Ties, External} {S} src mm file r name values (visitor : S -> Tile2D -> RwResult S) s c :
  open_reader src mm file = Ok r -> read_full_2d r name = Ok values -> cache_inv r c ->
  exists tiles c', visit_tiles_2d r name visitor s c = (rfold visitor tiles s, c') /\ cache_inv r c' /\
    (fun t => (geo_tile_y (t2_geometry t), geo_tile_x (t2_geometry t))) <$> tiles
      = grid_coords (div_ceil (ny (r_meta r)) TILE_Y) (div_ceil (nx (r_meta r)) TILE_X) /\
    forall t, t ∈ tiles -> forall row col,
      let g := t2_geometry t in
      tile2d_get t row col =
        if (row <? geo_ny g)%nat && (col <? geo_nx g)%nat
        then values !! ((geo_y0 g + row) * nx (r_meta r) + (geo_x0 g + col))%nat else None.
Proof.
  intros Hok%open_reader_ok (v & Hv & Hdec & ->)%read_full_2d_inv Hc.
  destruct (lookup_2d_inv _ _ _ Hv) as (Hin & _ & Hk).
  assert (runs_to r (visit_tiles_2d r name visitor s)
    (rfold visitor (tile2d_of r v <$> grid_coords (tiles_high r) (tiles_wide r)) s)) as Hrun.
  { unfold visit_tiles_2d. rewrite Hv. eapply runs_bind; [apply runs_lift|].
    rewrite tiles_2d_for_var_ok by done. eapply runs_bind; [apply runs_lift|].
    cbn [tiles_state tile_count]. rewrite tiles_collect_all. eapply runs_bind; [apply runs_lift|].
    replace (rfold visitor (tile2d_of r v <$> grid_coords (tiles_high r) (tiles_wide r)) s)
      with (rfold (fun s g => visitor s (tile2d_of r v (geo_tile_y g, geo_tile_x g)))
              (tile_geo r <$> grid_coords (tiles_high r) (tiles_wide r)) s)
      by (rewrite !rfold_fmap; apply rfold_ext; by intros s' [ty tx] _).
    apply runs_cfold. intros s' g ([ty tx] & -> & [Hty Htx]%elem_of_grid_coords)%list_elem_of_fmap.
    eapply runs_bind; [by apply runs_read_tile, Hdec|]. apply runs_lift. }
  destruct (Hrun c Hc) as (c' & Hc1 & Hc2). eexists _, c'. split_and!; [exact Hc1|done|..].
  - rewrite <- list_fmap_compose. fold (tiles_high r) (tiles_wide r).
    rewrite <- (list_fmap_id (grid_coords _ _)) at 2. apply list_fmap_ext. by intros ? [ty tx] _.
  - intros t ([ty tx] & -> & [Hty Htx]%elem_of_grid_coords)%list_elem_of_fmap row col.
    cbn [tile2d_of t2_geometry tile_geo geo_ny geo_nx geo_y0 geo_x0 fst snd]. cbv zeta.
    fold (tile2d_of r v (ty, tx)). rewrite tile2d_get_cell by (done || by apply Hdec).
    destruct (tile_bounds r ty tx Hty Htx). unfold in_rect. cbn [Nat.leb andb Nat.add].
    destruct (Nat.ltb_spec row (tile_rows r ty)); [|done].
    destruct (Nat.ltb_spec col (tile_cols r tx)); [|done]. cbn [andb]. by rewrite lookup_field_2d by lia.
Qed.

Lemma tiles_visit_covers_field_witness : exists c',
  visit_tiles_2d sample_reader "t2m" (fun n _ => Ok (n + 1)%nat) 0%nat (cache_new 1024) = (Ok 1%nat, c').
Proof.
  destruct (tiles_visit_covers_field 7 true sample_file sample_reader "t2m" sample_values
    (fun n _ => Ok (n + 1)%nat) 0%nat (cache_new 1024)) as (tiles & c' & Hrun & _ & Hgeo & _).
  - exact sample_open.
  - vm_compute. reflexivity.
  - apply cache_inv_new. unfold U64_MAX. lia.
  - exists c'. rewrite Hrun. f_equal.
    apply (f_equal length) in Hgeo. rewrite length_fmap in Hgeo. vm_compute in Hgeo.
    destruct tiles as [|t [|]]; try done.
Defined.
