(* ===== verification/Reader3D.v ===== *)
(** * Reading pressure-level volumes

    The three-dimensional read operations of [HourReader] in
    [crates/rw-store/src/reader.rs]: columns, full volumes, single levels and
    the chunk-at-a-time reads of one level or of an ordered selection of
    levels, with the iterators and visitors over them. [usize] is [nat];
    indexing and subtraction that may panic are explicit. *)
From stdpp Require Import base list gmap strings numbers.
From Stdlib Require Import ZArith Lia.
From S2P Require Import Prelude F32 Format Header Index Codec TileCache Reader Reader2D.

Local Open Scope Z_scope.

(** [l[i] = x], which panics out of range; [assert!(b)]. *)
Definition store_at (l : list f32) (i : nat) (x : f32) : RwResult (list f32) :=
  if (i <? length l)%nat then Ok (<[i := x]> l) else Panic.
Definition assert (b : bool) : RwResult unit := if b then Ok tt else Panic.

(** ** Result types *)

Record PressureLevelChunkGeometry3D := {
  pg_chunk_y : nat; pg_chunk_x : nat; pg_x0 : nat; pg_y0 : nat; pg_width : nat; pg_height : nat;
  pg_level_hpa : Z
}.
(** [PressureLevelChunkGeometry3D::cell_count]. *)
Definition pg_cell_count (g : PressureLevelChunkGeometry3D) : nat := (pg_width g * pg_height g)%nat.

Inductive PressureLevelChunkData3D :=
| LevelEmpty
| LevelConstant (value : f32)
| LevelDense (values : list f32).

Record PressureLevelChunk3D := { pc_geometry : PressureLevelChunkGeometry3D; pc_data : PressureLevelChunkData3D }.

(** [PressureLevelChunk3D::get]. *)
Definition level_chunk_get (c : PressureLevelChunk3D) (row column : nat) : option f32 :=
  if (pg_height (pc_geometry c) <=? row)%nat || (pg_width (pc_geometry c) <=? column)%nat then None
  else
    let index := (row * pg_width (pc_geometry c) + column)%nat in
    match pc_data c with
    | LevelEmpty => Some NAN
    | LevelConstant value => Some value
    | LevelDense values => values !! index
    end.

Record SelectedPressureLevelChunkGeometry3D := {
  sg_chunk_y : nat; sg_chunk_x : nat; sg_x0 : nat; sg_y0 : nat; sg_width : nat; sg_height : nat
}.
(** [SelectedPressureLevelChunkGeometry3D::cell_count]. *)
Definition sg_cell_count (g : SelectedPressureLevelChunkGeometry3D) : nat := (sg_width g * sg_height g)%nat.

Inductive SelectedPressureLevelChunkData3D :=
| SelectedEmpty
| SelectedConstant (value : f32)
| SelectedDense (values : list f32).

Inductive SelectedPressureLevelPlane3D :=
| PlaneEmpty
| PlaneConstant (value : f32)
| PlaneDense (values : list f32).

Record SelectedPressureLevelChunk3D := {
  sc_geometry : SelectedPressureLevelChunkGeometry3D; sc_levels_hpa : list Z;
  sc_data : SelectedPressureLevelChunkData3D
}.

(** [SelectedPressureLevelChunk3D::value_count]. *)
Definition sc_value_count (c : SelectedPressureLevelChunk3D) : nat :=
  (sg_cell_count (sc_geometry c) * length (sc_levels_hpa c))%nat.

(** [SelectedPressureLevelChunk3D::plane]. *)
Definition selected_chunk_plane (c : SelectedPressureLevelChunk3D) (selected_level_index : nat)
    : RwResult (option SelectedPressureLevelPlane3D) :=
  if (length (sc_levels_hpa c) <=? selected_level_index)%nat then Ok None
  else match sc_data c with
    | SelectedEmpty => Ok (Some PlaneEmpty)
    | SelectedConstant value => Ok (Some (PlaneConstant value))
    | SelectedDense values =>
        let start := (selected_level_index * sg_cell_count (sc_geometry c))%nat in
        plane ← slice values start (start + sg_cell_count (sc_geometry c));
        Ok (Some (PlaneDense plane))
    end.

(** [SelectedPressureLevelChunk3D::get]. *)
Definition selected_chunk_get (c : SelectedPressureLevelChunk3D) (selected_level_index row column : nat)
    : option f32 :=
  if (length (sc_levels_hpa c) <=? selected_level_index)%nat
     || (sg_height (sc_geometry c) <=? row)%nat || (sg_width (sc_geometry c) <=? column)%nat then None
  else
    let plane_index := (row * sg_width (sc_geometry c) + column)%nat in
    match sc_data c with
    | SelectedEmpty => Some NAN
    | SelectedConstant value => Some value
    | SelectedDense values => values !! (selected_level_index * sg_cell_count (sc_geometry c) + plane_index)%nat
    end.

(** ** Iterators over the chunks *)

Record SelectedPressureLevelChunks3D := {
  scs_grid_nx : nat; scs_grid_ny : nat; scs_chunks_x : nat; scs_chunks_y : nat; scs_levels_hpa : list Z;
  scs_next : nat; scs_chunk_count : nat
}.
(** [SelectedPressureLevelChunks3D::next]. *)
Definition selected_chunks_next (s : SelectedPressureLevelChunks3D)
    : RwResult (option (SelectedPressureLevelChunkGeometry3D * SelectedPressureLevelChunks3D)) :=
  if (scs_next s =? scs_chunk_count s)%nat then Ok None
  else
    let ordinal := scs_next s in
    let chunk_y := (ordinal / scs_chunks_x s)%nat in
    let chunk_x := (ordinal mod scs_chunks_x s)%nat in
    let y0 := (chunk_y * COL_Y)%nat in
    let x0 := (chunk_x * COL_X)%nat in
    w ← usub (scs_grid_nx s) x0;
    h ← usub (scs_grid_ny s) y0;
    Ok (Some ({| sg_chunk_y := chunk_y; sg_chunk_x := chunk_x; sg_x0 := x0; sg_y0 := y0;
                 sg_width := Nat.min w COL_X; sg_height := Nat.min h COL_Y |},
              {| scs_grid_nx := scs_grid_nx s; scs_grid_ny := scs_grid_ny s;
                 scs_chunks_x := scs_chunks_x s; scs_chunks_y := scs_chunks_y s;
                 scs_levels_hpa := scs_levels_hpa s; scs_next := S ordinal;
                 scs_chunk_count := scs_chunk_count s |})).
(** [size_hint]. *)
Definition selected_chunks_remaining (s : SelectedPressureLevelChunks3D) : RwResult nat :=
  usub (scs_chunk_count s) (scs_next s).

Record PressureLevelChunks3D := {
  pcs_grid_nx : nat; pcs_grid_ny : nat; pcs_chunks_x : nat; pcs_chunks_y : nat; pcs_level_hpa : Z;
  pcs_next : nat; pcs_chunk_count : nat
}.
(** [PressureLevelChunks3D::next]. *)
Definition level_chunks_next (s : PressureLevelChunks3D)
    : RwResult (option (PressureLevelChunkGeometry3D * PressureLevelChunks3D)) :=
  if (pcs_next s =? pcs_chunk_count s)%nat then Ok None
  else
    let ordinal := pcs_next s in
    let chunk_y := (ordinal / pcs_chunks_x s)%nat in
    let chunk_x := (ordinal mod pcs_chunks_x s)%nat in
    let y0 := (chunk_y * COL_Y)%nat in
    let x0 := (chunk_x * COL_X)%nat in
    w ← usub (pcs_grid_nx s) x0;
    h ← usub (pcs_grid_ny s) y0;
    Ok (Some ({| pg_chunk_y := chunk_y; pg_chunk_x := chunk_x; pg_x0 := x0; pg_y0 := y0;
                 pg_width := Nat.min w COL_X; pg_height := Nat.min h COL_Y;
                 pg_level_hpa := pcs_level_hpa s |},
              {| pcs_grid_nx := pcs_grid_nx s; pcs_grid_ny := pcs_grid_ny s;
                 pcs_chunks_x := pcs_chunks_x s; pcs_chunks_y := pcs_chunks_y s;
                 pcs_level_hpa := pcs_level_hpa s; pcs_next := S ordinal;
                 pcs_chunk_count := pcs_chunk_count s |})).
(** [size_hint]. *)
Definition level_chunks_remaining (s : PressureLevelChunks3D) : RwResult nat :=
  usub (pcs_chunk_count s) (pcs_next s).

(** A [for] loop over an iterator: [next], then the body, until it is done. *)
Fixpoint for_each {It G S} (next : It -> RwResult (option (G * It))) (body : S -> G -> RwResult S)
    (fuel : nat) (it : It) (s : S) : RwResult S :=
  match fuel with
  | O => Ok s
  | S fuel =>
      step ← next it;
      match step with
      | None => Ok s
      | Some (g, it) => s' ← body s g; for_each next body fuel it s'
      end
  end.

Section reader3d.
Context `{F32Ties, External}.
Implicit Types (r : HourReader) (v : RwsVariableMeta) (rec : ChunkRecord).

(** ** Level lookups *)

(** [pressure_level_index]. *)
Definition pressure_level_index v (level_hpa : Z) : RwResult nat :=
  ok_or (fst <$> list_find (fun level => level = level_hpa) (levels_hpa v))
    (Meta "variable '{}' has no {} hPa level").

(** [selected_pressure_level_indices]. *)
Definition selected_pressure_level_indices v (levels : list Z) : RwResult (list nat) :=
  _ ← reject (bool_decide (levels = []))
        (Format "variable '{}': selected pressure levels must not be empty");
  _ ← reject (MAX_PRESSURE_LEVELS <? Z.of_nat (length levels))
        (Format "variable '{}': selected pressure level count {} exceeds limit {}");
  _ ← rfold (fun (seen : gset Z) level_hpa =>
        _ ← reject (bool_decide (level_hpa ∈ seen))
              (Format "variable '{}': selected pressure level {} hPa is duplicated");
        Ok ({[level_hpa]} ∪ seen)) levels ∅;
  _ ← reject (negb (try_reserve (8 * Z.of_nat (length levels))))
        (Format "variable '{}': cannot allocate {} selected pressure-level indices: {}");
  rmap (pressure_level_index v) levels.

(** ** Columns and volumes *)

(** [read_column_3d]. *)
Definition read_column_3d r (name : string) (ix iy : nat) : RwResult (list f32) :=
  v ← lookup_3d r name;
  let m := r_meta r in
  _ ← reject ((nx m <=? ix)%nat || (ny m <=? iy)%nat)
        (Format "column ({},{}) out of bounds for grid {} x {}");
  let levels := length (levels_hpa v) in
  let cy := (iy / COL_Y)%nat in
  let cx := (ix / COL_X)%nat in
  rec ← chunk_record r v KIND_COLUMN3D cy cx;
  '(rows, cols) ← col_chunk_dims r cy cx;
  chunk ← decode_column_chunk r rec (rows * cols * levels);
  let start := ((iy mod COL_Y * cols + ix mod COL_X) * levels)%nat in
  column ← try_filled_f32 levels NAN;
  src ← slice chunk start (start + levels);
  if bool_decide (length src = length column) then copy_into column 0 src else Panic.

(** The loop over the column chunks that [read_full_3d] and [read_level_3d]
    share: decode every chunk once and scatter it. *)
Definition each_column_chunk r v
    (scatter : nat -> nat -> nat -> nat -> list f32 -> list f32 -> RwResult (list f32))
    (output : list f32) : RwResult (list f32) :=
  let m := r_meta r in
  let levels := length (levels_hpa v) in
  rfold (fun output (c : nat * nat) =>
    rec ← chunk_record r v KIND_COLUMN3D c.1 c.2;
    '(rows, cols) ← col_chunk_dims r c.1 c.2;
    chunk ← decode_column_chunk r rec (rows * cols * levels);
    scatter (c.1 * COL_Y)%nat (c.2 * COL_X)%nat rows cols chunk output)
  (grid_coords (div_ceil (ny m) COL_Y) (div_ceil (nx m) COL_X)) output.

(** [[y][x][level]] to [[level][y][x]]. *)
Definition scatter_volume (gnx gny levels y0 x0 rows cols : nat) (chunk output : list f32)
    : RwResult (list f32) :=
  rfold (fun output (c : nat * nat) =>
    let gy := (y0 + c.1)%nat in
    let gx := (x0 + c.2)%nat in
    let chunk_base := ((c.1 * cols + c.2) * levels)%nat in
    rfold (fun output lvl =>
      x ← or_panic (chunk !! (chunk_base + lvl)%nat);
      store_at output (lvl * gny * gnx + gy * gnx + gx)%nat x) (seq 0 levels) output)
  (grid_coords rows cols) output.

(** [read_full_3d]. *)
Definition read_full_3d r (name : string) : RwResult (list f32) :=
  v ← lookup_3d r name;
  let m := r_meta r in
  let levels := length (levels_hpa v) in
  total ← ok_or (n ← checked_mul levels (ny m); checked_mul n (nx m))
        (Format "variable '{}': volume size levels={} * ny={} * nx={} overflows usize");
  output ← try_filled_f32 total NAN;
  each_column_chunk r v (scatter_volume (nx m) (ny m) levels) output.

(** One level of [[y][x][level]]. *)
Definition scatter_level (gnx levels level_index y0 x0 rows cols : nat) (chunk output : list f32)
    : RwResult (list f32) :=
  rfold (fun output (c : nat * nat) =>
    let gy := (y0 + c.1)%nat in
    let gx := (x0 + c.2)%nat in
    let column := ((c.1 * cols + c.2) * levels)%nat in
    x ← or_panic (chunk !! (column + level_index)%nat);
    store_at output (gy * gnx + gx)%nat x) (grid_coords rows cols) output.

(** [read_level_3d]. *)
Definition read_level_3d r (name : string) (level_hpa : Z) : RwResult (list f32) :=
  v ← lookup_3d r name;
  level_index ← pressure_level_index v level_hpa;
  let m := r_meta r in
  cells ← ok_or (checked_mul (nx m) (ny m))
        (Format "variable '{}': plane size ny={} * nx={} overflows usize");
  output ← try_filled_f32 cells NAN;
  each_column_chunk r v (scatter_level (nx m) (length (levels_hpa v)) level_index) output.

(** ** Chunks of one level and of a selection *)

(** [pressure_level_chunks_3d_for_var] and
    [selected_pressure_level_chunks_3d_for_var]. *)
Definition pressure_level_chunks_3d_for_var r v (level_hpa : Z) : RwResult PressureLevelChunks3D :=
  let m := r_meta r in
  let cy := div_ceil (ny m) COL_Y in
  let cx := div_ceil (nx m) COL_X in
  count ← ok_or (checked_mul cy cx) (Format "variable '{}': column chunk count overflows usize");
  '(a, b) ← ok_or (r_var_ranges r !! var_meta_id v)
        (Format "variable '{}' (id {}) has no chunk index entries");
  _ ← reject (negb (b - a =? count)%nat)
        (Format "variable '{}' has {} chunk index records, expected {}");
  Ok {| pcs_grid_nx := nx m; pcs_grid_ny := ny m; pcs_chunks_x := cx; pcs_chunks_y := cy;
        pcs_level_hpa := level_hpa; pcs_next := 0; pcs_chunk_count := count |}.
Definition selected_pressure_level_chunks_3d_for_var r v (levels : list Z)
    : RwResult SelectedPressureLevelChunks3D :=
  first ← or_panic (levels !! 0%nat);
  chunks ← pressure_level_chunks_3d_for_var r v first;
  Ok {| scs_grid_nx := pcs_grid_nx chunks; scs_grid_ny := pcs_grid_ny chunks;
        scs_chunks_x := pcs_chunks_x chunks; scs_chunks_y := pcs_chunks_y chunks;
        scs_levels_hpa := levels; scs_next := 0; scs_chunk_count := pcs_chunk_count chunks |}.

(** [pressure_level_chunks_3d] and [selected_pressure_level_chunks_3d]. *)
Definition pressure_level_chunks_3d r (name : string) (level_hpa : Z) : RwResult PressureLevelChunks3D :=
  v ← lookup_3d r name;
  _ ← pressure_level_index v level_hpa;
  pressure_level_chunks_3d_for_var r v level_hpa.
Definition selected_pressure_level_chunks_3d r (name : string) (levels : list Z)
    : RwResult SelectedPressureLevelChunks3D :=
  v ← lookup_3d r name;
  _ ← selected_pressure_level_indices v levels;
  selected_pressure_level_chunks_3d_for_var r v levels.

(** [selected_pressure_level_chunk_geometry_3d]. *)
Definition selected_pressure_level_chunk_geometry_3d r (chunk_y chunk_x : nat)
    : RwResult SelectedPressureLevelChunkGeometry3D :=
  let m := r_meta r in
  _ ← reject ((div_ceil (ny m) COL_Y <=? chunk_y)%nat || (div_ceil (nx m) COL_X <=? chunk_x)%nat)
        (Format "column chunk ({},{}) for variable '{}' is outside chunk grid {}x{}");
  y0 ← ok_or (checked_mul chunk_y COL_Y) (Format "column chunk y offset overflows for variable '{}'");
  x0 ← ok_or (checked_mul chunk_x COL_X) (Format "column chunk x offset overflows for variable '{}'");
  w ← usub (nx m) x0;
  h ← usub (ny m) y0;
  Ok {| sg_chunk_y := chunk_y; sg_chunk_x := chunk_x; sg_x0 := x0; sg_y0 := y0;
        sg_width := Nat.min w COL_X; sg_height := Nat.min h COL_Y |}.

(** [pressure_level_chunk_geometry_3d]. *)
Definition pressure_level_chunk_geometry_3d r (level_hpa : Z) (chunk_y chunk_x : nat)
    : RwResult PressureLevelChunkGeometry3D :=
  let m := r_meta r in
  _ ← reject ((div_ceil (ny m) COL_Y <=? chunk_y)%nat || (div_ceil (nx m) COL_X <=? chunk_x)%nat)
        (Format "column chunk ({},{}) for variable '{}' at {} hPa is outside chunk grid {}x{}");
  y0 ← ok_or (checked_mul chunk_y COL_Y) (Format "column chunk y offset overflows for variable '{}'");
  x0 ← ok_or (checked_mul chunk_x COL_X) (Format "column chunk x offset overflows for variable '{}'");
  w ← usub (nx m) x0;
  h ← usub (ny m) y0;
  Ok {| pg_chunk_y := chunk_y; pg_chunk_x := chunk_x; pg_x0 := x0; pg_y0 := y0;
        pg_width := Nat.min w COL_X; pg_height := Nat.min h COL_Y; pg_level_hpa := level_hpa |}.

(** One output plane: dequantise the level's value of every cell. *)
Definition select_plane rec (raw : list byte) (all_level_count cells : nat) (selected : list f32)
    (sel : nat * nat) : RwResult (list f32) :=
  let '(selected_index, source_level_index) := sel in
  _ ← assert (source_level_index <? all_level_count)%nat;
  _ ← slice selected (selected_index * cells) ((selected_index + 1) * cells);
  rfold (fun selected cell =>
    let raw_byte_index := ((cell * all_level_count + source_level_index) * 2)%nat in
    b0 ← or_panic (raw !! raw_byte_index);
    b1 ← or_panic (raw !! (raw_byte_index + 1)%nat);
    q ← or_panic (i16_from_le [b0; b1]);
    store_at selected (selected_index * cells + cell)%nat (dequantize (flags rec) (center rec) (scale rec) q))
  (seq 0 cells) selected.

(** [read_selected_pressure_level_chunk_data_3d_for_var]. *)
Definition read_selected_pressure_level_chunk_data_3d_for_var r v (selected_level_indices : list nat)
    (g : SelectedPressureLevelChunkGeometry3D) : RwResult SelectedPressureLevelChunkData3D :=
  _ ← assert (negb (bool_decide (selected_level_indices = [])));
  rec ← chunk_record r v KIND_COLUMN3D (sg_chunk_y g) (sg_chunk_x g);
  if has_flag (flags rec) FLAG_EMPTY then Ok SelectedEmpty
  else if has_flag (flags rec) FLAG_CONSTANT && (len rec =? 0) then Ok (SelectedConstant (center rec))
  else
    let all_level_count := length (levels_hpa v) in
    all_value_count ← ok_or (checked_mul (sg_cell_count g) all_level_count)
          (Format "variable '{}': column chunk value count overflows usize");
    expected_raw_len ← ok_or (checked_mul all_value_count 2)
          (Chunk "variable '{}': column chunk raw byte count overflows usize");
    _ ← reject (negb (raw_len rec <? usize_limit))
          (Chunk "variable '{}' column chunk ({},{}): raw_len {} does not fit usize");
    _ ← reject (negb (raw_len rec =? Z.of_nat expected_raw_len))
          (Chunk "variable '{}' column chunk ({},{}): raw_len {} does not match {} i16 values ({} bytes)");
    compressed ← payload_slice r rec;
    raw ← decompress_chunk compressed (Z.to_nat (raw_len rec));
    selected_value_count ← ok_or (checked_mul (sg_cell_count g) (length selected_level_indices))
          (Format "variable '{}': selected column chunk value count overflows usize");
    selected ← try_filled_f32 selected_value_count NAN;
    selected ← rfold (select_plane rec raw all_level_count (sg_cell_count g))
                 (imap pair selected_level_indices) selected;
    Ok (SelectedDense selected).

(** [read_pressure_level_chunk_3d_for_var]. *)
Definition read_pressure_level_chunk_3d_for_var r v (level_index : nat) (g : PressureLevelChunkGeometry3D)
    : RwResult PressureLevelChunk3D :=
  let selected_geometry :=
    {| sg_chunk_y := pg_chunk_y g; sg_chunk_x := pg_chunk_x g; sg_x0 := pg_x0 g; sg_y0 := pg_y0 g;
       sg_width := pg_width g; sg_height := pg_height g |} in
  selected_data ← read_selected_pressure_level_chunk_data_3d_for_var r v [level_index] selected_geometry;
  let data := match selected_data with
    | SelectedEmpty => LevelEmpty
    | SelectedConstant value => LevelConstant value
    | SelectedDense values => LevelDense values
    end in
  Ok {| pc_geometry := g; pc_data := data |}.

(** [read_pressure_level_chunk_3d]. *)
Definition read_pressure_level_chunk_3d r (name : string) (level_hpa : Z) (chunk_y chunk_x : nat)
    : RwResult PressureLevelChunk3D :=
  v ← lookup_3d r name;
  level_index ← pressure_level_index v level_hpa;
  g ← pressure_level_chunk_geometry_3d r level_hpa chunk_y chunk_x;
  read_pressure_level_chunk_3d_for_var r v level_index g.

(** [read_selected_pressure_level_chunk_3d]. *)
Definition read_selected_pressure_level_chunk_3d r (name : string) (levels : list Z) (chunk_y chunk_x : nat)
    : RwResult SelectedPressureLevelChunk3D :=
  v ← lookup_3d r name;
  level_indices ← selected_pressure_level_indices v levels;
  g ← selected_pressure_level_chunk_geometry_3d r chunk_y chunk_x;
  data ← read_selected_pressure_level_chunk_data_3d_for_var r v level_indices g;
  Ok {| sc_geometry := g; sc_levels_hpa := levels; sc_data := data |}.

(** [visit_pressure_level_chunks_3d]; the visitor's captured state is passed
    along. *)
Definition visit_pressure_level_chunks_3d {S} r (name : string) (level_hpa : Z)
    (visitor : S -> PressureLevelChunk3D -> RwResult S) (s : S) : RwResult S :=
  v ← lookup_3d r name;
  level_index ← pressure_level_index v level_hpa;
  chunks ← pressure_level_chunks_3d_for_var r v level_hpa;
  for_each level_chunks_next (fun s g =>
    chunk ← read_pressure_level_chunk_3d_for_var r v level_index g;
    visitor s chunk) (pcs_chunk_count chunks + 1) chunks s.

(** [visit_selected_pressure_level_chunks_3d]. *)
Definition visit_selected_pressure_level_chunks_3d {S} r (name : string) (levels : list Z)
    (visitor : S -> SelectedPressureLevelChunk3D -> RwResult S) (s : S) : RwResult S :=
  v ← lookup_3d r name;
  level_indices ← selected_pressure_level_indices v levels;
  chunks ← selected_pressure_level_chunks_3d_for_var r v levels;
  for_each selected_chunks_next (fun s g =>
    data ← read_selected_pressure_level_chunk_data_3d_for_var r v level_indices g;
    visitor s {| sc_geometry := g; sc_levels_hpa := levels; sc_data := data |})
    (scs_chunk_count chunks + 1) chunks s.
End reader3d.
