(* ===== verification/Field3D.v ===== *)
(** * Pressure reads refine one volume

    An opened file determines, for each pressure variable, one volume
    ([cell_3d]); the full read, the columns, the levels and the chunk reads of
    [Reader3D] all return parts of it. *)
From stdpp Require Import base list gmap strings numbers.
From Stdlib Require Import ZArith Lia.
From S2P Require Import Prelude F32 Format Header Index Codec TileCache Writer Reader Concrete Opened Reader2D Field2D Reader3D.

Local Open Scope Z_scope.

(** ** Decoding column chunks *)

Section decode.
Context `{F32Ties, External}.
Implicit Types (r : HourReader) (v : RwsVariableMeta) (rec : ChunkRecord).

Lemma decode_affine_length fl c s bytes n t : decode_affine_i16 fl c s bytes n = Ok t -> length t = n.
Proof.
  unfold decode_affine_i16. destruct (has_flag fl FLAG_EMPTY); [intros [= <-]; by rewrite length_replicate|].
  destruct (_ && _); [intros [= <-]; by rewrite length_replicate|].
  intros Hd. res_inv Hd. res_clean. breflect. apply rmap_length in Hd. rewrite Hd.
  by apply length_chunks_exact; [lia|].
Qed.

Lemma decode_column_length r rec n t : decode_column_chunk r rec n = Ok t -> length t = n.
Proof.
  unfold decode_column_chunk.
  destruct (has_flag (flags rec) FLAG_EMPTY);
    [intros ->%try_filled_f32_inv; by rewrite length_replicate|].
  destruct (_ && _); [intros ->%try_filled_f32_inv; by rewrite length_replicate|].
  intros Hd. res_inv Hd. by apply decode_affine_length in Hd.
Qed.

Lemma i16_from_le_is_Some bs : length bs = 2%nat -> is_Some (i16_from_le bs).
Proof. intros Hl. unfold i16_from_le. destruct bs as [|a [|b [|]]]; try done; eexists; reflexivity. Qed.

Lemma decode_affine_no_panic fl c s bytes n : decode_affine_i16 fl c s bytes n <> Panic.
Proof.
  unfold decode_affine_i16. destruct (has_flag fl FLAG_EMPTY); [done|]. destruct (_ && _); [done|].
  apply bind_no_panic; [auto with rw|]. intros _ Hr%reject_inv. breflect.
  apply rmap_no_panic. intros q Hq%(elem_of_chunks_exact _ _ _ n); [|done].
  by destruct (i16_from_le_is_Some q Hq) as [x ->].
Qed.

Lemma decompress_chunk_no_panic `{!ExternalLaws} comp n : decompress_chunk comp n <> Panic.
Proof.
  unfold decompress_chunk, try_zeroed_bytes. apply bind_no_panic; [by destruct (try_reserve _)|].
  intros _ _. apply decompress_chunk_into_no_panic.
Qed.

Lemma decode_column_no_panic `{!ExternalLaws} r rec n : record_wf rec -> decode_column_chunk r rec n <> Panic.
Proof.
  intros Hwf. unfold decode_column_chunk.
  destruct (has_flag (flags rec) FLAG_EMPTY); [apply try_filled_f32_no_panic|].
  destruct (_ && _); [apply try_filled_f32_no_panic|].
  apply bind_no_panic; [by apply payload_slice_no_panic|]. intros comp _.
  apply bind_no_panic; [apply decompress_chunk_no_panic|]. intros raw _. apply decode_affine_no_panic.
Qed.

(** ** The volume *)

Definition cols_high r : nat := div_ceil (ny (r_meta r)) COL_Y.
Definition cols_wide r : nat := div_ceil (nx (r_meta r)) COL_X.
Definition chunk_h r (cy : nat) : nat := Nat.min (ny (r_meta r) - cy * COL_Y) COL_Y.
Definition chunk_w r (cx : nat) : nat := Nat.min (nx (r_meta r) - cx * COL_X) COL_X.
Definition level_count v : nat := length (levels_hpa v).

(** The decoded chunk at [(cy, cx)]. *)
Definition chunk_at r v (cy cx : nat) : RwResult (list f32) :=
  rec ← chunk_record r v KIND_COLUMN3D cy cx;
  decode_column_chunk r rec (chunk_h r cy * chunk_w r cx * level_count v).
Definition chunk_of r v (cy cx : nat) : list f32 :=
  match chunk_at r v cy cx with Ok t => t | _ => [] end.

(** Every chunk of the variable decodes. *)
Definition chunks_decode r v : Prop :=
  forall cy cx, (cy < cols_high r)%nat -> (cx < cols_wide r)%nat -> is_ok (chunk_at r v cy cx).

(** The value at level [z] of the grid cell in column [x] of row [y]. *)
Definition cell_3d r v (z y x : nat) : f32 :=
  default NAN (chunk_of r v (y / COL_Y) (x / COL_X)
    !! ((y mod COL_Y * chunk_w r (x / COL_X) + x mod COL_X) * level_count v + z)%nat).
(** The column over a cell, one level, and the volume level by level. *)
Definition column_3d r v (y x : nat) : list f32 := (fun z => cell_3d r v z y x) <$> seq 0 (level_count v).
Definition level_3d r v (z : nat) : list f32 :=
  (fun c => cell_3d r v z c.1 c.2) <$> grid_coords (ny (r_meta r)) (nx (r_meta r)).
Definition volume_3d r v : list f32 :=
  (fun c : nat * nat => cell_3d r v c.1 (c.2 / nx (r_meta r)) (c.2 mod nx (r_meta r)))
    <$> grid_coords (level_count v) (ny (r_meta r) * nx (r_meta r)).

Lemma pressure_layout v : var_kind v = "pressure3d" ->
  chunk_layout v = Some {| lay_kind := KIND_COLUMN3D; lay_y := COL_Y; lay_x := COL_X;
                           lay_levels := length (levels_hpa v); lay_width := 2 |}.
Proof. intros Hk. unfold chunk_layout. by rewrite Hk. Qed.

Lemma lookup_3d_inv r name v :
  lookup_3d r name = Ok v -> v ∈ variables (r_meta r) /\ var_name v = name /\ var_kind v = "pressure3d".
Proof.
  unfold lookup_3d. intros Hl. res_inv Hl. subst. res_clean. breflect.
  match goal with Hl : lookup_var _ _ = Ok _ |- _ => apply lookup_var_inv in Hl as [? ?] end. done.
Qed.

Lemma lookup_3d_no_panic r name : lookup_3d r name <> Panic.
Proof. unfold lookup_3d, lookup_var. no_panic. Qed.

Lemma col_dims_ok r cy cx :
  (cy < cols_high r)%nat -> (cx < cols_wide r)%nat -> col_chunk_dims r cy cx = Ok (chunk_h r cy, chunk_w r cx).
Proof.
  intros Hy Hx. apply div_ceil_lt in Hy; [|unfold COL_Y; lia]. apply div_ceil_lt in Hx; [|unfold COL_X; lia].
  unfold col_chunk_dims, chunk_dims. by rewrite bool_decide_eq_true_2 by lia.
Qed.

Lemma chunk_at_length r v cy cx t :
  chunk_at r v cy cx = Ok t -> length t = (chunk_h r cy * chunk_w r cx * level_count v)%nat.
Proof. unfold chunk_at. intros Ht. res_inv Ht. by apply decode_column_length in Ht. Qed.

Lemma chunk_bounds r cy cx :
  (cy < cols_high r)%nat -> (cx < cols_wide r)%nat ->
  (cy * COL_Y + chunk_h r cy <= ny (r_meta r) /\ cx * COL_X + chunk_w r cx <= nx (r_meta r) /\
   chunk_h r cy <= COL_Y /\ chunk_w r cx <= COL_X)%nat.
Proof.
  intros Hy Hx. apply div_ceil_lt in Hy; [|unfold COL_Y; lia]. apply div_ceil_lt in Hx; [|unfold COL_X; lia].
  unfold chunk_h, chunk_w. lia.
Qed.

Lemma cell_in_chunk r y x :
  (y < ny (r_meta r))%nat -> (x < nx (r_meta r))%nat ->
  (y / COL_Y < cols_high r /\ x / COL_X < cols_wide r /\
   y mod COL_Y < chunk_h r (y / COL_Y) /\ x mod COL_X < chunk_w r (x / COL_X))%nat.
Proof.
  intros Hy Hx. unfold cols_high, cols_wide, chunk_h, chunk_w.
  split; [apply div_lt_div_ceil; [unfold COL_Y; lia|done]|].
  split; [apply div_lt_div_ceil; [unfold COL_X; lia|done]|].
  pose proof (Nat.div_mod y COL_Y ltac:(done)). pose proof (Nat.mod_upper_bound y COL_Y ltac:(done)).
  pose proof (Nat.div_mod x COL_X ltac:(done)). pose proof (Nat.mod_upper_bound x COL_X ltac:(done)).
  nia.
Qed.

(** A decoded chunk holds the cells of its rectangle. *)
Lemma chunk_cell r v cy cx t y x z :
  (cy < cols_high r)%nat -> (cx < cols_wide r)%nat -> chunk_at r v cy cx = Ok t ->
  (cy * COL_Y <= y < cy * COL_Y + chunk_h r cy)%nat -> (cx * COL_X <= x < cx * COL_X + chunk_w r cx)%nat ->
  (z < level_count v)%nat ->
  t !! (((y - cy * COL_Y) * chunk_w r cx + (x - cx * COL_X)) * level_count v + z)%nat = Some (cell_3d r v z y x).
Proof.
  intros Hcy Hcx Ht Hy Hx Hz. destruct (chunk_bounds r cy cx Hcy Hcx) as (_ & _ & Hh & Hw). unfold cell_3d.
  destruct (row_major_div_mod COL_Y cy (y - cy * COL_Y)) as [Hd Hm]; [lia|].
  destruct (row_major_div_mod COL_X cx (x - cx * COL_X)) as [Hd' Hm']; [lia|].
  replace (cy * COL_Y + (y - cy * COL_Y))%nat with y in * by lia.
  replace (cx * COL_X + (x - cx * COL_X))%nat with x in * by lia.
  rewrite Hd, Hm, Hd', Hm'. unfold chunk_of. rewrite Ht. apply chunk_at_length in Ht.
  destruct (lookup_lt_is_Some_2 t
    (((y - cy * COL_Y) * chunk_w r cx + (x - cx * COL_X)) * level_count v + z)%nat) as [c Hc]; [|by rewrite Hc].
  rewrite Ht. apply row_major_bound; [|done]. apply row_major_bound; lia.
Qed.
End decode.

(** ** Scattering a chunk *)

Section scatter.

Lemma store_at_grid l h w y0 x0 v :
  length l = (h * w)%nat -> (y0 < h)%nat -> (x0 < w)%nat ->
  exists l', store_at l (y0 * w + x0) v = Ok l' /\ length l' = (h * w)%nat /\
    forall y x, (y < h)%nat -> (x < w)%nat ->
      l' !! (y * w + x)%nat = if ((y =? y0) && (x =? x0))%nat then Some v else l !! (y * w + x)%nat.
Proof.
  intros Hl Hy0 Hx0. unfold store_at. pose proof (row_major_bound h w y0 x0 Hy0 Hx0) as Hb.
  destruct (Nat.ltb_spec (y0 * w + x0) (length l)); [|lia].
  eexists. split_and!; [done|by rewrite length_insert|]. intros y x Hy Hx.
  destruct (decide ((y * w + x)%nat = (y0 * w + x0)%nat)) as [He|Hne].
  - rewrite He, list_lookup_insert_eq by done. apply row_major_inj in He as [-> ->]; [|done..].
    by rewrite !Nat.eqb_refl.
  - rewrite list_lookup_insert_ne by done. destruct (Nat.eqb_spec y y0) as [->|]; [|done].
    destruct (Nat.eqb_spec x x0) as [->|]; done.
Qed.

(** Every cell of a rectangle is visited exactly by the coordinates in it. *)
Lemma rect_visited y0 rows x0 cols y x :
  existsb (fun c : nat * nat => (y =? y0 + c.1) && (x =? x0 + c.2))%nat (grid_coords rows cols)
  = in_rect y0 rows x0 cols y x.
Proof.
  apply eq_true_iff_eq. rewrite existsb_true, in_rect_spec. split.
  - intros ([a b] & [Ha Hb]%elem_of_grid_coords & Hc). breflect. simpl in *. lia.
  - intros Hr. exists ((y - y0)%nat, (x - x0)%nat). rewrite elem_of_grid_coords. split; [lia|].
    simpl. rewrite andb_true_iff, !Nat.eqb_eq. lia.
Qed.

Lemma scatter_level_spec gnx gny levels z y0 x0 rows cols chunk output :
  length output = (gny * gnx)%nat -> (y0 + rows <= gny)%nat -> (x0 + cols <= gnx)%nat ->
  length chunk = (rows * cols * levels)%nat -> (z < levels)%nat ->
  exists output', scatter_level gnx levels z y0 x0 rows cols chunk output = Ok output' /\
    length output' = (gny * gnx)%nat /\
    forall y x, (y < gny)%nat -> (x < gnx)%nat ->
      output' !! (y * gnx + x)%nat =
        if in_rect y0 rows x0 cols y x then chunk !! (((y - y0) * cols + (x - x0)) * levels + z)%nat
        else output !! (y * gnx + x)%nat.
Proof.
  intros Hl Hy Hx Hc Hz. unfold scatter_level.
  setoid_rewrite <- rect_visited.
  apply (rfold_grid_writes _ (fun y x => chunk !! (((y - y0) * cols + (x - x0)) * levels + z)%nat)
    (fun c y x => (y =? y0 + c.1) && (x =? x0 + c.2))%nat); [|done].
  intros [a b] l [Ha Hb]%elem_of_grid_coords Hll. cbn [fst snd].
  destruct (lookup_lt_is_Some_2 chunk ((a * cols + b) * levels + z)%nat) as [v Hv].
  { rewrite Hc. apply row_major_bound; [|done]. by apply row_major_bound. }
  rewrite Hv. rrun. destruct (store_at_grid l gny gnx (y0 + a) (x0 + b) v Hll) as (l' & Hl1 & Hl2 & Hl3); [lia..|].
  exists l'. split_and!; [done..|]. intros y x Hyy Hxx. rewrite Hl3 by done.
  destruct (_ && _) eqn:Hcov; [|done]. breflect. subst. rewrite <- Hv. f_equal. f_equal. f_equal. f_equal; [f_equal|]; lia.
Qed.

Lemma scatter_volume_spec gnx gny levels y0 x0 rows cols chunk output :
  length output = (levels * (gny * gnx))%nat -> (y0 + rows <= gny)%nat -> (x0 + cols <= gnx)%nat ->
  length chunk = (rows * cols * levels)%nat ->
  exists output', scatter_volume gnx gny levels y0 x0 rows cols chunk output = Ok output' /\
    length output' = (levels * (gny * gnx))%nat /\
    forall z p, (z < levels)%nat -> (p < gny * gnx)%nat ->
      output' !! (z * (gny * gnx) + p)%nat =
        if in_rect y0 rows x0 cols (p / gnx) (p mod gnx)
        then chunk !! (((p / gnx - y0) * cols + (p mod gnx - x0)) * levels + z)%nat
        else output !! (z * (gny * gnx) + p)%nat.
Proof.
  intros Hl Hy Hx Hc. unfold scatter_volume.
  setoid_rewrite <- rect_visited.
  apply (rfold_grid_writes _
    (fun z p => chunk !! (((p / gnx - y0) * cols + (p mod gnx - x0)) * levels + z)%nat)
    (fun c z p => (p / gnx =? y0 + c.1) && (p mod gnx =? x0 + c.2))%nat); [|done].
  intros [a b] l [Ha Hb]%elem_of_grid_coords Hll. cbn [fst snd].
  destruct (row_major_div_mod gnx (y0 + a) (x0 + b)) as [Hd Hm]; [lia|].
  pose proof (row_major_bound gny gnx (y0 + a) (x0 + b) ltac:(lia) ltac:(lia)) as Hp0.
  set (p0 := ((y0 + a) * gnx + (x0 + b))%nat) in *.
  destruct (rfold_grid_writes (fun output lvl =>
      x ← or_panic (E := RwStoreError) (chunk !! ((a * cols + b) * levels + lvl)%nat);
      store_at output (lvl * gny * gnx + (y0 + a) * gnx + (x0 + b))%nat x)
    (fun z p => chunk !! ((a * cols + b) * levels + z)%nat)
    (fun lvl z p => (z =? lvl) && (p =? p0))%nat levels (gny * gnx) (seq 0 levels)) with l
    as (l' & Hl1 & Hl2 & Hl3); [|done|].
  - intros lvl k [_ Hlvl]%elem_of_seq Hk.
    destruct (lookup_lt_is_Some_2 chunk ((a * cols + b) * levels + lvl)%nat) as [v Hv].
    { rewrite Hc. apply row_major_bound; [|lia]. by apply row_major_bound. }
    rewrite Hv. rrun. destruct (store_at_grid k levels (gny * gnx) lvl p0 v Hk) as (k' & Hk1 & Hk2 & Hk3); [lia..|].
    exists k'. rewrite <- Hk1. split_and!; [f_equal; unfold p0; lia|done|]. intros z p Hz Hp. rewrite Hk3 by done.
    destruct (_ && _) eqn:Hcov; [|done]. breflect. by subst.
  - exists l'. split_and!; [done..|]. intros z p Hz Hp. rewrite Hl3 by done.
    assert (existsb (fun j => (z =? j) && (p =? p0))%nat (seq 0 levels) = (p =? p0)%nat) as ->.
    { apply eq_true_iff_eq. rewrite existsb_true. split.
      - intros (j & _ & Hj). breflect. by rewrite Nat.eqb_eq.
      - intros He. exists z. split; [apply elem_of_seq; lia|]. by rewrite He, Nat.eqb_refl. }
    destruct (Nat.eqb_spec p p0) as [->|Hne].
    + rewrite Hd, Hm, !Nat.eqb_refl. cbn [andb]. f_equal. f_equal. f_equal. f_equal; [f_equal|]; lia.
    + destruct (_ && _) eqn:Hcov; [|done]. breflect. exfalso. apply Hne.
      assert (gnx <> 0)%nat as Hg by lia. rewrite (Nat.div_mod p gnx Hg). unfold p0. nia.
Qed.
End scatter.

(** ** Whole-variable reads *)

Section reads.
Context `{F32Ties, External}.
Implicit Types (r : HourReader) (v : RwsVariableMeta) (rec : ChunkRecord).

Lemma rfold_ok_steps {E I S} (step : S -> I -> result E S) l s s' j :
  rfold step l s = Ok s' -> j ∈ l -> exists a b, step a j = Ok b.
Proof.
  revert s. induction l as [|i l IH]; intros s Hr Hj; [by apply not_elem_of_nil in Hj|].
  simpl in Hr. destruct (step s i) as [s1| |] eqn:Hs; [|done..].
  apply elem_of_cons in Hj as [->|Hj]; [eauto|by eapply IH].
Qed.

Lemma each_step r v scatter cy cx (output : list f32) :
  (cy < cols_high r)%nat -> (cx < cols_wide r)%nat ->
  (rec ← chunk_record r v KIND_COLUMN3D cy cx;
   '(rows, cols) ← col_chunk_dims r cy cx;
   chunk ← decode_column_chunk r rec (rows * cols * length (levels_hpa v));
   scatter (cy * COL_Y)%nat (cx * COL_X)%nat rows cols chunk output)
  = (chunk ← chunk_at r v cy cx;
     scatter (cy * COL_Y)%nat (cx * COL_X)%nat (chunk_h r cy) (chunk_w r cx) chunk output) :> RwResult (list f32).
Proof.
  intros Hy Hx. unfold chunk_at, level_count. rewrite col_dims_ok by done.
  by destruct (chunk_record r v KIND_COLUMN3D cy cx).
Qed.

Lemma each_column_decodes r v scatter output out :
  each_column_chunk r v scatter output = Ok out -> chunks_decode r v.
Proof.
  unfold each_column_chunk. cbv zeta. intros He cy cx Hy Hx.
  destruct (rfold_ok_steps _ _ _ _ (cy, cx) He) as (a & b & Hab); [by apply elem_of_grid_coords|].
  cbn [fst snd] in Hab. rewrite each_step in Hab by done.
  destruct (chunk_at r v cy cx) eqn:Hc; [by eexists|done..].
Qed.

(** A scatter that writes, of every chunk, the values of [f] in the cells of
    an [h * w] buffer that [cov] gives to the chunk, fills the buffer. *)
Lemma each_column_fills r v scatter (f : nat -> nat -> f32) (cov : nat * nat -> nat -> nat -> bool) h w output :
  chunks_decode r v ->
  (forall cy cx chunk l, (cy < cols_high r)%nat -> (cx < cols_wide r)%nat -> chunk_at r v cy cx = Ok chunk ->
     length l = (h * w)%nat -> exists l',
       scatter (cy * COL_Y)%nat (cx * COL_X)%nat (chunk_h r cy) (chunk_w r cx) chunk l = Ok l' /\
       length l' = (h * w)%nat /\ forall a b, (a < h)%nat -> (b < w)%nat ->
         l' !! (a * w + b)%nat = if cov (cy, cx) a b then Some (f a b) else l !! (a * w + b)%nat) ->
  (forall a b, (a < h)%nat -> (b < w)%nat ->
     exists c, c ∈ grid_coords (cols_high r) (cols_wide r) /\ cov c a b = true) ->
  length output = (h * w)%nat ->
  each_column_chunk r v scatter output = Ok ((fun c => f c.1 c.2) <$> grid_coords h w).
Proof.
  intros Hdec Hsc Hcov Hl. unfold each_column_chunk. cbv zeta.
  fold (cols_high r) (cols_wide r).
  edestruct (rfold_grid_writes (fun output (c : nat * nat) =>
      rec ← chunk_record r v KIND_COLUMN3D c.1 c.2;
      '(rows, cols) ← col_chunk_dims r c.1 c.2;
      chunk ← decode_column_chunk r rec (rows * cols * length (levels_hpa v));
      scatter (c.1 * COL_Y)%nat (c.2 * COL_X)%nat rows cols chunk output)
    (fun a b => Some (f a b)) cov h w) as (out & -> & Hlen & Hcell); [|exact Hl|].
  - intros [cy cx] l [Hy Hx]%elem_of_grid_coords Hll. cbn [fst snd]. rewrite each_step by done.
    destruct (Hdec cy cx Hy Hx) as [chunk Hc]. rewrite Hc. cbn [mbind result_bind]. by apply Hsc.
  - f_equal. apply grid_ext; [done|]. intros a b Ha Hb. rewrite Hcell by done.
    rewrite (proj2 (existsb_true _ _)); [done|]. by apply Hcov.
Qed.

Lemma each_column_no_panic `{!ExternalLaws} r v scatter n output :
  reader_ok r -> v ∈ variables (r_meta r) -> var_kind v = "pressure3d" -> length output = n ->
  (forall cy cx chunk l, (cy < cols_high r)%nat -> (cx < cols_wide r)%nat -> chunk_at r v cy cx = Ok chunk ->
     length l = n -> exists l',
       scatter (cy * COL_Y)%nat (cx * COL_X)%nat (chunk_h r cy) (chunk_w r cx) chunk l = Ok l' /\ length l' = n) ->
  each_column_chunk r v scatter output <> Panic.
Proof.
  intros Hok Hv Hk Hl Hsc. unfold each_column_chunk. cbv zeta. fold (cols_high r) (cols_wide r).
  match goal with |- rfold ?step _ _ <> _ => assert (forall c l, c ∈ grid_coords (cols_high r) (cols_wide r) ->
    length l = n -> step l c <> Panic /\ forall b, step l c = Ok b -> length b = n) as Hstep end.
  2: { apply (rfold_no_panic _ (fun l => length l = n)); [|by intros; apply Hstep|done].
       intros c l l' Hc Hll. by apply Hstep. }
  intros [cy cx] l [Hy Hx]%elem_of_grid_coords Hll. cbn [fst snd]. rewrite each_step by done.
  destruct (chunk_at r v cy cx) as [chunk| |] eqn:Hc; cbn [mbind result_bind].
  - destruct (Hsc cy cx chunk l Hy Hx Hc Hll) as (l' & -> & Hl'). split; [done|]. by intros b [= <-].
  - done.
  - exfalso. revert Hc. unfold chunk_at.
    destruct (chunk_record_found r v _ cy cx Hok Hv (pressure_layout v Hk) Hy Hx) as (rec & Hrec & Hin & _).
    cbn [lay_kind] in Hrec. rewrite Hrec. cbn [mbind result_bind].
    by apply decode_column_no_panic, (record_in_wf r).
Qed.

(** The chunk that covers a cell. *)
Definition in_chunk r (c : nat * nat) (y x : nat) : bool :=
  in_rect (c.1 * COL_Y) (chunk_h r c.1) (c.2 * COL_X) (chunk_w r c.2) y x.

Lemma cell_covered r y x :
  (y < ny (r_meta r))%nat -> (x < nx (r_meta r))%nat ->
  exists c, c ∈ grid_coords (cols_high r) (cols_wide r) /\ in_chunk r c y x = true.
Proof.
  intros Hy Hx. destruct (cell_in_chunk r y x Hy Hx) as (Hcy & Hcx & Hry & Hrx).
  exists (y / COL_Y, x / COL_X)%nat. split; [by apply elem_of_grid_coords|]. apply in_rect_spec. cbn [fst snd].
  pose proof (Nat.div_mod y COL_Y ltac:(done)). pose proof (Nat.div_mod x COL_X ltac:(done)). lia.
Qed.

Lemma level_scatter r v z cy cx chunk l :
  (z < level_count v)%nat -> (cy < cols_high r)%nat -> (cx < cols_wide r)%nat -> chunk_at r v cy cx = Ok chunk ->
  length l = (ny (r_meta r) * nx (r_meta r))%nat -> exists l',
    scatter_level (nx (r_meta r)) (level_count v) z (cy * COL_Y) (cx * COL_X) (chunk_h r cy) (chunk_w r cx) chunk l
      = Ok l' /\ length l' = (ny (r_meta r) * nx (r_meta r))%nat /\
    forall y x, (y < ny (r_meta r))%nat -> (x < nx (r_meta r))%nat ->
      l' !! (y * nx (r_meta r) + x)%nat =
        if in_chunk r (cy, cx) y x then Some (cell_3d r v z y x) else l !! (y * nx (r_meta r) + x)%nat.
Proof.
  intros Hz Hy Hx Hc Hl. destruct (chunk_bounds r cy cx Hy Hx) as (Hb1 & Hb2 & _).
  destruct (scatter_level_spec (nx (r_meta r)) (ny (r_meta r)) (level_count v) z (cy * COL_Y) (cx * COL_X)
    (chunk_h r cy) (chunk_w r cx) chunk l) as (l' & H1' & H2' & H3'); [done..|by apply chunk_at_length in Hc|done|].
  exists l'. split_and!; [done..|]. intros y x Hyy Hxx. rewrite H3' by done. unfold in_chunk. cbn [fst snd].
  destruct (in_rect _ _ _ _ _ _) eqn:Hr; [|done]. apply in_rect_spec in Hr as [? ?]. by apply chunk_cell.
Qed.

Lemma volume_scatter r v cy cx chunk l :
  (cy < cols_high r)%nat -> (cx < cols_wide r)%nat -> chunk_at r v cy cx = Ok chunk ->
  length l = (level_count v * (ny (r_meta r) * nx (r_meta r)))%nat -> exists l',
    scatter_volume (nx (r_meta r)) (ny (r_meta r)) (level_count v) (cy * COL_Y) (cx * COL_X)
      (chunk_h r cy) (chunk_w r cx) chunk l = Ok l' /\
    length l' = (level_count v * (ny (r_meta r) * nx (r_meta r)))%nat /\
    forall z p, (z < level_count v)%nat -> (p < ny (r_meta r) * nx (r_meta r))%nat ->
      l' !! (z * (ny (r_meta r) * nx (r_meta r)) + p)%nat =
        if in_chunk r (cy, cx) (p / nx (r_meta r)) (p mod nx (r_meta r))
        then Some (cell_3d r v z (p / nx (r_meta r)) (p mod nx (r_meta r)))
        else l !! (z * (ny (r_meta r) * nx (r_meta r)) + p)%nat.
Proof.
  intros Hy Hx Hc Hl. destruct (chunk_bounds r cy cx Hy Hx) as (Hb1 & Hb2 & _).
  destruct (scatter_volume_spec (nx (r_meta r)) (ny (r_meta r)) (level_count v) (cy * COL_Y) (cx * COL_X)
    (chunk_h r cy) (chunk_w r cx) chunk l) as (l' & H1' & H2' & H3'); [done..|by apply chunk_at_length in Hc|].
  exists l'. split_and!; [done..|]. intros z p Hz Hp. rewrite H3' by done. unfold in_chunk. cbn [fst snd].
  destruct (in_rect _ _ _ _ _ _) eqn:Hr; [|done]. apply in_rect_spec in Hr as [? ?]. by apply chunk_cell.
Qed.

(** What the metadata of a pressure variable guarantees. *)
Lemma pressure_limits r v :
  reader_ok r -> v ∈ variables (r_meta r) -> var_kind v = "pressure3d" ->
  (0 < level_count v)%nat /\ Z.of_nat (level_count v) <= MAX_PRESSURE_LEVELS /\
  Z.of_nat (level_count v * (ny (r_meta r) * nx (r_meta r))) <= MAX_VOLUME_ELEMENTS.
Proof.
  intros Hok Hv Hk. pose proof (rok_meta _ Hok) as Hm.
  destruct (proj1 (list.Forall_forall _ _) (ok_vars _ Hm) v Hv) as [(Hs & _)|(_ & _ & Hl & Hmax & _ & Hvol)].
  - by rewrite Hk in Hs.
  - unfold level_count. split_and!; [done..|]. by rewrite (Nat.mul_comm (ny _)).
Qed.

Lemma volume_size r v :
  reader_ok r -> v ∈ variables (r_meta r) -> var_kind v = "pressure3d" ->
  (n ← checked_mul (level_count v) (ny (r_meta r)); checked_mul n (nx (r_meta r)))
  = Some (level_count v * (ny (r_meta r) * nx (r_meta r)))%nat.
Proof.
  intros Hok Hv Hk. destruct (pressure_limits r v Hok Hv Hk) as (_ & _ & Hvol).
  pose proof (ok_nx _ (rok_meta _ Hok)). assert (MAX_VOLUME_ELEMENTS < usize_limit) by done.
  rewrite checked_mul_ok by nia. cbn [mbind option_bind]. rewrite checked_mul_ok by lia. f_equal. lia.
Qed.

Lemma volume_fills r v output :
  chunks_decode r v -> length output = (level_count v * (ny (r_meta r) * nx (r_meta r)))%nat ->
  each_column_chunk r v (scatter_volume (nx (r_meta r)) (ny (r_meta r)) (level_count v)) output = Ok (volume_3d r v).
Proof.
  intros Hdec Hl.
  apply (each_column_fills r v _ (fun z p => cell_3d r v z (p / nx (r_meta r)) (p mod nx (r_meta r)))
    (fun c _ p => in_chunk r c (p / nx (r_meta r)) (p mod nx (r_meta r)))); [done|..|done].
  - intros. by apply volume_scatter.
  - intros z p Hz Hp. destruct (row_major_lt _ _ _ Hp). by apply cell_covered.
Qed.

Lemma read_full_3d_inv r name values :
  reader_ok r -> read_full_3d r name = Ok values ->
  exists v, lookup_3d r name = Ok v /\ chunks_decode r v /\ values = volume_3d r v.
Proof.
  unfold read_full_3d. intros Hok Hr. destruct (lookup_3d r name) as [v| |] eqn:Hv; [|done..].
  exists v. split; [done|]. destruct (lookup_3d_inv _ _ _ Hv) as (Hin & _ & Hk).
  cbn [mbind result_bind] in Hr. fold (level_count v) in Hr. rewrite (volume_size r v Hok Hin Hk) in Hr.
  cbn [ok_or mbind result_bind] in Hr. res_inv Hr.
  match goal with Hf : try_filled_f32 _ _ = Ok _ |- _ => apply try_filled_f32_inv in Hf as -> end.
  pose proof (each_column_decodes _ _ _ _ _ Hr) as Hdec. split; [done|].
  rewrite volume_fills in Hr; [by injection Hr as <-|done|]. apply length_replicate.
Qed.

Lemma read_full_3d_total r name v :
  alloc_succeeds -> reader_ok r -> lookup_3d r name = Ok v -> chunks_decode r v ->
  read_full_3d r name = Ok (volume_3d r v).
Proof.
  intros Halloc Hok Hv Hdec. unfold read_full_3d. destruct (lookup_3d_inv _ _ _ Hv) as (Hin & _ & Hk).
  rewrite Hv. cbn [mbind result_bind]. fold (level_count v). rewrite (volume_size r v Hok Hin Hk).
  cbn [ok_or mbind result_bind]. unfold try_filled_f32. rewrite Halloc. cbn [mbind result_bind].
  apply volume_fills; [done|]. apply length_replicate.
Qed.

Lemma read_full_3d_no_panic `{!ExternalLaws} r name : reader_ok r -> read_full_3d r name <> Panic.
Proof.
  intros Hok. unfold read_full_3d. apply bind_no_panic; [apply lookup_3d_no_panic|]. intros v Hv.
  destruct (lookup_3d_inv _ _ _ Hv) as (Hin & _ & Hk). cbv zeta. fold (level_count v).
  rewrite (volume_size r v Hok Hin Hk). cbn [ok_or mbind result_bind].
  apply bind_no_panic; [apply try_filled_f32_no_panic|]. intros output ->%try_filled_f32_inv.
  eapply each_column_no_panic; [done..|apply length_replicate|]. intros cy cx chunk l Hy Hx Hc Hl.
  destruct (volume_scatter r v cy cx chunk l Hy Hx Hc Hl) as (l' & H1' & H2' & _). eauto.
Qed.

Lemma length_volume_3d r v :
  length (volume_3d r v) = (level_count v * (ny (r_meta r) * nx (r_meta r)))%nat.
Proof. unfold volume_3d. by rewrite length_fmap, length_grid_coords. Qed.

Lemma lookup_volume_3d r v z y x :
  (z < level_count v)%nat -> (y < ny (r_meta r))%nat -> (x < nx (r_meta r))%nat ->
  volume_3d r v !! (z * (ny (r_meta r) * nx (r_meta r)) + (y * nx (r_meta r) + x))%nat = Some (cell_3d r v z y x).
Proof.
  intros Hz Hy Hx. unfold volume_3d.
  rewrite list_lookup_fmap, lookup_grid_coords by (done || by apply row_major_bound). cbn [fmap option_fmap option_map fst snd].
  by destruct (row_major_div_mod (nx (r_meta r)) y x Hx) as [-> ->].
Qed.

(** ** One level *)

Lemma pressure_level_index_inv v lev z :
  pressure_level_index v lev = Ok z -> (z < level_count v)%nat /\ levels_hpa v !! z = Some lev.
Proof.
  unfold pressure_level_index. intros Hz. apply ok_or_inv, fmap_Some in Hz as ([i l] & Hf & ->).
  apply list_find_Some in Hf as (Hi & -> & _). split; [by eapply lookup_lt_Some|done].
Qed.

Lemma pressure_level_index_no_panic v lev : pressure_level_index v lev <> Panic.
Proof. unfold pressure_level_index. auto with rw. Qed.

Lemma read_level_3d_inv r name lev plane :
  read_level_3d r name lev = Ok plane ->
  exists v z, lookup_3d r name = Ok v /\ pressure_level_index v lev = Ok z /\ chunks_decode r v /\
    plane = level_3d r v z.
Proof.
  unfold read_level_3d. intros Hr. destruct (lookup_3d r name) as [v| |] eqn:Hv; [|done..].
  cbn [mbind result_bind] in Hr. destruct (pressure_level_index v lev) as [z| |] eqn:Hz; [|done..].
  exists v, z. split_and!; [done..| |]; cbn [mbind result_bind] in Hr; res_inv Hr.
  - by eapply each_column_decodes.
  - match goal with Hf : try_filled_f32 _ _ = Ok _ |- _ => apply try_filled_f32_inv in Hf as -> end.
    pose proof (each_column_decodes _ _ _ _ _ Hr) as Hdec.
    destruct (pressure_level_index_inv _ _ _ Hz) as [Hlt _]. res_clean. subst.
    rewrite (each_column_fills r v _ (fun y x => cell_3d r v z y x) (in_chunk r)
      (ny (r_meta r)) (nx (r_meta r))) in Hr; [by injection Hr as <-|done|..].
    + intros. by apply level_scatter.
    + intros y x Hy Hx. by apply cell_covered.
    + rewrite length_replicate. lia.
Qed.

Lemma read_level_3d_total r name v lev z :
  alloc_succeeds -> reader_ok r -> lookup_3d r name = Ok v -> chunks_decode r v ->
  pressure_level_index v lev = Ok z -> read_level_3d r name lev = Ok (level_3d r v z).
Proof.
  intros Halloc Hok Hv Hdec Hz. unfold read_level_3d. rewrite Hv. cbn [mbind result_bind]. rewrite Hz.
  cbn [mbind result_bind]. pose proof (ok_cells _ (rok_meta _ Hok)) as Hc.
  assert (MAX_GRID_CELLS < usize_limit) by done. rewrite checked_mul_ok by lia.
  cbn [ok_or mbind result_bind]. unfold try_filled_f32. rewrite Halloc. cbn [mbind result_bind].
  destruct (pressure_level_index_inv _ _ _ Hz) as [Hlt _].
  apply (each_column_fills r v _ (fun y x => cell_3d r v z y x) (in_chunk r)); [done|..].
  - intros. by apply level_scatter.
  - intros y x Hy Hx. by apply cell_covered.
  - rewrite length_replicate. lia.
Qed.

Lemma read_level_3d_no_panic `{!ExternalLaws} r name lev : reader_ok r -> read_level_3d r name lev <> Panic.
Proof.
  intros Hok. unfold read_level_3d. apply bind_no_panic; [apply lookup_3d_no_panic|]. intros v Hv.
  destruct (lookup_3d_inv _ _ _ Hv) as (Hin & _ & Hk).
  apply bind_no_panic; [apply pressure_level_index_no_panic|]. intros z [Hz _]%pressure_level_index_inv.
  apply bind_no_panic; [auto with rw|]. intros cells Hcells. res_clean. subst cells.
  apply bind_no_panic; [apply try_filled_f32_no_panic|]. intros output ->%try_filled_f32_inv.
  eapply (each_column_no_panic _ _ _ (ny (r_meta r) * nx (r_meta r))); [done..|rewrite length_replicate; lia|].
  intros cy cx chunk l Hy Hx Hc Hl.
  destruct (level_scatter r v z cy cx chunk l Hz Hy Hx Hc Hl) as (l' & H1' & H2' & _). eauto.
Qed.

(** ** One column *)

Lemma column_slice r v y x chunk :
  (y < ny (r_meta r))%nat -> (x < nx (r_meta r))%nat -> chunk_at r v (y / COL_Y) (x / COL_X) = Ok chunk ->
  let start := ((y mod COL_Y * chunk_w r (x / COL_X) + x mod COL_X) * level_count v)%nat in
  slice (E := RwStoreError) chunk start (start + level_count v) = Ok (column_3d r v y x).
Proof.
  intros Hy Hx Hc start. destruct (cell_in_chunk r y x Hy Hx) as (Hcy & Hcx & Hry & Hrx).
  pose proof (chunk_at_length _ _ _ _ _ Hc) as Hlen.
  assert (start + level_count v <= length chunk)%nat as Hb.
  { rewrite Hlen. unfold start. pose proof (row_major_bound _ _ _ _ Hry Hrx) as Hb. nia. }
  rewrite slice_ok by lia. f_equal. apply list_eq_same_length with (level_count v).
  - unfold column_3d. by rewrite length_fmap, length_seq.
  - rewrite length_take, length_drop. lia.
  - intros i a b Hi Ha Hcol. rewrite lookup_take_lt, lookup_drop in Ha by lia.
    unfold column_3d in Hcol. rewrite list_lookup_fmap, lookup_seq_lt in Hcol by done. injection Hcol as <-.
    pose proof (Nat.div_mod y COL_Y ltac:(done)) as Hdy. pose proof (Nat.div_mod x COL_X ltac:(done)) as Hdx.
    pose proof (chunk_cell r v _ _ chunk y x i Hcy Hcx Hc ltac:(lia) ltac:(lia) Hi) as Hcell.
    replace (y - y / COL_Y * COL_Y)%nat with (y mod COL_Y)%nat in Hcell by lia.
    replace (x - x / COL_X * COL_X)%nat with (x mod COL_X)%nat in Hcell by lia.
    fold start in Hcell. congruence.
Qed.

(** What the column read does once the point is known to be on the grid. *)
Lemma read_column_3d_eq r name v ix iy :
  lookup_3d r name = Ok v -> (ix < nx (r_meta r))%nat -> (iy < ny (r_meta r))%nat ->
  read_column_3d r name ix iy =
    (_ ← chunk_at r v (iy / COL_Y) (ix / COL_X); _ ← try_filled_f32 (level_count v) NAN;
     Ok (column_3d r v iy ix)).
Proof.
  intros Hv Hx Hy. destruct (cell_in_chunk r iy ix Hy Hx) as (Hcy & Hcx & _).
  unfold read_column_3d. rewrite Hv. cbn [mbind result_bind]. zdecide. cbn [orb reject mbind result_bind].
  rewrite col_dims_ok by done. fold (level_count v).
  pose proof (column_slice r v iy ix) as Hs. unfold chunk_at in *.
  destruct (chunk_record r v KIND_COLUMN3D _ _); [|done..]. cbn [mbind result_bind] in *.
  destruct (decode_column_chunk r _ _) as [chunk| |]; [|done..]. cbn [mbind result_bind].
  destruct (try_filled_f32 (level_count v) NAN) as [col| |] eqn:Hf; [|done..]. cbn [mbind result_bind].
  apply try_filled_f32_inv in Hf as ->. rewrite (Hs chunk Hy Hx eq_refl). cbn [mbind result_bind].
  assert (length (column_3d r v iy ix) = level_count v) as Hl by (unfold column_3d; by rewrite length_fmap, length_seq).
  rewrite bool_decide_eq_true_2 by by rewrite Hl, length_replicate.
  unfold copy_into. rewrite bool_decide_eq_true_2 by (rewrite length_replicate; lia).
  rewrite Nat.add_0_l, drop_ge, app_nil_r by (rewrite length_replicate; lia). done.
Qed.
End reads.

(** ** Chunks of selected levels *)

Section selected.
Context `{F32Ties, External}.
Implicit Types (r : HourReader) (v : RwsVariableMeta) (rec : ChunkRecord).

Definition sel_geo r (cy cx : nat) : SelectedPressureLevelChunkGeometry3D :=
  {| sg_chunk_y := cy; sg_chunk_x := cx; sg_x0 := (cx * COL_X)%nat; sg_y0 := (cy * COL_Y)%nat;
     sg_width := chunk_w r cx; sg_height := chunk_h r cy |}.


Lemma origin_fits r cy cx :
  reader_ok r -> (cy < cols_high r)%nat -> (cx < cols_wide r)%nat ->
  checked_mul cy COL_Y = Some (cy * COL_Y)%nat /\ checked_mul cx COL_X = Some (cx * COL_X)%nat /\
  (cy * COL_Y <= ny (r_meta r) /\ cx * COL_X <= nx (r_meta r))%nat.
Proof.
  intros Hok Hy Hx. destruct (chunk_bounds r cy cx Hy Hx) as (Hb1 & Hb2 & _).
  pose proof (rok_meta _ Hok) as Hm. pose proof (ok_cells _ Hm). pose proof (ok_nx _ Hm). pose proof (ok_ny _ Hm).
  assert (MAX_GRID_CELLS < usize_limit) by done. split_and!; [apply checked_mul_ok; nia..|lia|lia].
Qed.

Lemma selected_geometry_ok r cy cx :
  reader_ok r -> (cy < cols_high r)%nat -> (cx < cols_wide r)%nat ->
  selected_pressure_level_chunk_geometry_3d r cy cx = Ok (sel_geo r cy cx).
Proof.
  intros Hok Hy Hx. destruct (origin_fits r cy cx Hok Hy Hx) as (Hm1 & Hm2 & Hb1 & Hb2).
  unfold selected_pressure_level_chunk_geometry_3d. cbv zeta. fold (cols_high r) (cols_wide r).
  zdecide. rrun. rewrite Hm1, Hm2. rrun. rewrite !usub_ok by done. by rrun.
Qed.

(** The dense values of a column chunk, from the raw bytes. *)
Lemma decode_affine_lookup fl c s raw n chunk k :
  decode_affine_i16 fl c s raw n = Ok chunk -> has_flag fl FLAG_EMPTY = false ->
  length raw = (n * 2)%nat -> (k < n)%nat ->
  exists b0 b1 q, raw !! (k * 2)%nat = Some b0 /\ raw !! (k * 2 + 1)%nat = Some b1 /\
    i16_from_le [b0; b1] = Some q /\ chunk !! k = Some (dequantize fl c s q).
Proof.
  intros Hd He Hl Hk. unfold decode_affine_i16 in Hd. rewrite He in Hd.
  rewrite bool_decide_eq_false_2, andb_false_r in Hd by (intros ->; simpl in Hl; lia).
  rewrite Hl, Nat.eqb_refl in Hd. cbn [negb reject mbind result_bind] in Hd. apply rmap_ok_inv in Hd.
  destruct (lookup_lt_is_Some_2 raw (k * 2)%nat) as [b0 Hb0]; [lia|].
  destruct (lookup_lt_is_Some_2 raw (k * 2 + 1)%nat) as [b1 Hb1]; [lia|].
  assert (chunks_exact 2 raw !! k = Some [b0; b1]) as Hc.
  { unfold chunks_exact. rewrite list_lookup_fmap, lookup_seq_lt
      by (rewrite Hl, Nat.div_mul by lia; lia). cbn [fmap option_fmap option_map]. f_equal.
    rewrite (drop_S _ b0) by (by rewrite Nat.add_0_l). rewrite (drop_S _ b1) by (rewrite <- Hb1; f_equal; lia).
    done. }
  destruct (Forall2_lookup_l _ _ _ _ _ Hd Hc) as (x & Hx & Hq). cbv beta in Hq.
  destruct (i16_from_le_is_Some [b0; b1] eq_refl) as [q Hq']. rewrite Hq' in Hq. cbn [or_panic mbind result_bind] in Hq. injection Hq as <-.
  by exists b0, b1, q.
Qed.

(** The record of a chunk: payload-free, or dense of the expected length. *)
Lemma found_payload r v cy cx rec :
  reader_ok r -> v ∈ variables (r_meta r) -> var_kind v = "pressure3d" ->
  (cy < cols_high r)%nat -> (cx < cols_wide r)%nat -> chunk_record r v KIND_COLUMN3D cy cx = Ok rec ->
  record_wf rec /\ if payload_free rec then len rec = 0
  else raw_len rec = Z.of_nat (chunk_h r cy * chunk_w r cx * level_count v * 2).
Proof.
  intros Hok Hv Hk Hy Hx Hrec.
  destruct (chunk_record_found r v _ cy cx Hok Hv (pressure_layout v Hk) Hy Hx) as (rec' & Hrec' & Hin & Hkey).
  cbn [lay_kind] in *. assert (rec' = rec) as -> by congruence.
  destruct (rok_records _ Hok) as (poff & _ & Hall).
  destruct (proj1 (list.Forall_forall _ _) Hall rec Hin) as (Hwf & v' & lay & Hv' & Hid & Hlay & _ & _ & _ & _ & Hpay & _).
  split; [done|]. unfold sort_key in Hkey. injection Hkey as Hk1 _ Hk3 Hk4.
  assert (v' = v) as ->.
  { pose proof (variable_map_lookup _ v (ok_ids _ (rok_meta _ Hok)) Hv) as H1'.
    pose proof (variable_map_lookup _ v' (ok_ids _ (rok_meta _ Hok)) Hv') as H2'. congruence. }
  rewrite (pressure_layout v Hk) in Hlay. injection Hlay as <-. unfold payload_ok in Hpay.
  destruct (payload_free rec); [by destruct Hpay|]. destruct Hpay as (_ & -> & _).
  rewrite Hk3, Hk4, !Nat2Z.id. done.
Qed.

(** One output plane. *)
Lemma select_plane_spec rec raw levels cells n selected si z (chunk : list f32) :
  length selected = (n * cells)%nat -> (si < n)%nat -> (z < levels)%nat ->
  (forall k, (k < cells * levels)%nat -> exists b0 b1 q, raw !! (k * 2)%nat = Some b0 /\
     raw !! (k * 2 + 1)%nat = Some b1 /\ i16_from_le [b0; b1] = Some q /\
     chunk !! k = Some (dequantize (flags rec) (center rec) (scale rec) q)) ->
  exists out, select_plane rec raw levels cells selected (si, z) = Ok out /\ length out = (n * cells)%nat /\
    forall i c, (i < n)%nat -> (c < cells)%nat ->
      out !! (i * cells + c)%nat = if (i =? si)%nat then chunk !! (c * levels + z)%nat
                                   else selected !! (i * cells + c)%nat.
Proof.
  intros Hl Hsi Hz Hraw. unfold select_plane, assert. zdecide. rrun.
  rewrite slice_ok by nia. rrun.
  destruct (rfold_grid_writes (fun selected cell =>
      b0 ← or_panic (E := RwStoreError) (raw !! ((cell * levels + z) * 2)%nat);
      b1 ← or_panic (raw !! ((cell * levels + z) * 2 + 1)%nat);
      q ← or_panic (i16_from_le [b0; b1]);
      store_at selected (si * cells + cell)%nat (dequantize (flags rec) (center rec) (scale rec) q))
    (fun _ c => chunk !! (c * levels + z)%nat) (fun cell i c => (i =? si) && (c =? cell))%nat n cells (seq 0 cells))
    with selected as (out & Ho1 & Ho2 & Ho3); [|done|].
  - intros cell l [_ Hcell]%elem_of_seq Hll.
    destruct (Hraw (cell * levels + z)%nat) as (b0 & b1 & q & -> & -> & Hq & Hch); [by apply row_major_bound|].
    rrun. rewrite Hq. rrun.
    destruct (store_at_grid l n cells si cell (dequantize (flags rec) (center rec) (scale rec) q) Hll)
      as (l' & Hl1 & Hl2 & Hl3); [done..|].
    exists l'. split_and!; [done..|]. intros i c Hi Hc. rewrite Hl3 by done.
    destruct (_ && _) eqn:Hcov; [|done]. breflect. by subst.
  - exists out. split_and!; [done..|]. intros i c Hi Hc. rewrite Ho3 by done.
    destruct (Nat.eqb_spec i si) as [->|Hne].
    + rewrite (proj2 (existsb_true _ _)); [done|]. exists c. rewrite Nat.eqb_refl. split; [apply elem_of_seq; lia|done].
    + destruct (existsb _ _) eqn:He; [|done]. apply existsb_true in He as (? & _ & ?). done.
Qed.

Lemma select_planes_spec rec raw levels cells selected zs (chunk : list f32) :
  length selected = (length zs * cells)%nat -> Forall (fun z => z < levels)%nat zs ->
  (forall k, (k < cells * levels)%nat -> exists b0 b1 q, raw !! (k * 2)%nat = Some b0 /\
     raw !! (k * 2 + 1)%nat = Some b1 /\ i16_from_le [b0; b1] = Some q /\
     chunk !! k = Some (dequantize (flags rec) (center rec) (scale rec) q)) ->
  exists out, rfold (select_plane rec raw levels cells) (imap pair zs) selected = Ok out /\
    length out = (length zs * cells)%nat /\
    forall i c z, zs !! i = Some z -> (c < cells)%nat -> out !! (i * cells + c)%nat = chunk !! (c * levels + z)%nat.
Proof.
  intros Hl Hzs Hraw.
  destruct (rfold_grid_writes (select_plane rec raw levels cells)
    (fun i c => z ← zs !! i; chunk !! (c * levels + z)%nat) (fun s i _ => (i =? s.1)%nat)
    (length zs) cells (imap pair zs)) with selected as (out & Ho1 & Ho2 & Ho3); [|done|].
  - intros [si z] l Hs Hll. apply list_elem_of_lookup in Hs as [j Hj]. rewrite list_lookup_imap in Hj.
    apply fmap_Some in Hj as (z' & Hj & [= -> ->]).
    destruct (select_plane_spec rec raw levels cells (length zs) l j z' chunk) as (out & H1' & H2' & H3');
      [done|by eapply lookup_lt_Some|by eapply (Forall_lookup_1 _ _ _ _ Hzs Hj)|done|].
    exists out. split_and!; [done..|]. intros i c Hi Hc. cbn [fst]. rewrite H3' by done.
    destruct (Nat.eqb_spec i j) as [->|]; [|done]. by rewrite Hj.
  - exists out. split_and!; [done..|]. intros i c z Hi Hc. rewrite Ho3 by (done || by eapply lookup_lt_Some).
    rewrite (proj2 (existsb_true _ _)); [by rewrite Hi|]. exists (i, z). cbn [fst].
    rewrite Nat.eqb_refl. split; [|done]. apply list_elem_of_lookup. exists i. by rewrite list_lookup_imap, Hi.
Qed.

Implicit Types (g : SelectedPressureLevelChunkGeometry3D) (zs : list nat).

(** [data] holds, for every selected level, the cells of the chunk. *)
Definition data_holds r v (cy cx : nat) zs (data : SelectedPressureLevelChunkData3D) : Prop :=
  forall levels i z row col, length levels = length zs -> zs !! i = Some z ->
    (row < chunk_h r cy)%nat -> (col < chunk_w r cx)%nat ->
    selected_chunk_get {| sc_geometry := sel_geo r cy cx; sc_levels_hpa := levels; sc_data := data |} i row col
    = Some (cell_3d r v z (cy * COL_Y + row) (cx * COL_X + col)).

Lemma chunk_cell_local r v cy cx t row col z :
  (cy < cols_high r)%nat -> (cx < cols_wide r)%nat -> chunk_at r v cy cx = Ok t ->
  (row < chunk_h r cy)%nat -> (col < chunk_w r cx)%nat -> (z < level_count v)%nat ->
  t !! ((row * chunk_w r cx + col) * level_count v + z)%nat
  = Some (cell_3d r v z (cy * COL_Y + row) (cx * COL_X + col)).
Proof.
  intros Hcy Hcx Ht Hr Hc Hz. rewrite <- (chunk_cell r v cy cx t) by (done || lia). f_equal. f_equal. f_equal.
  f_equal; [f_equal|]; lia.
Qed.

(** Reading back through [get]. *)
Lemma data_holds_intro r v cy cx zs chunk data :
  (cy < cols_high r)%nat -> (cx < cols_wide r)%nat -> chunk_at r v cy cx = Ok chunk ->
  Forall (fun z => z < level_count v)%nat zs ->
  (forall i z c, zs !! i = Some z -> (c < chunk_w r cx * chunk_h r cy)%nat ->
     match data with
     | SelectedEmpty => Some NAN
     | SelectedConstant x => Some x
     | SelectedDense values => values !! (i * (chunk_w r cx * chunk_h r cy) + c)%nat
     end = chunk !! (c * level_count v + z)%nat) ->
  data_holds r v cy cx zs data.
Proof.
  intros Hcy Hcx Hc Hzs Hd levels i z row col Hlen Hi Hrow Hcol.
  pose proof (lookup_lt_Some _ _ _ Hi) as Hilt. unfold selected_chunk_get.
  cbn [sc_levels_hpa sc_geometry sc_data sel_geo sg_height sg_width]. zdecide. cbn [orb].
  rewrite <- (chunk_cell_local r v cy cx chunk) by
    (done || by apply (Forall_lookup_1 _ _ _ _ Hzs Hi)).
  rewrite <- (Hd i z); [|done|rewrite (Nat.mul_comm (chunk_w r cx)); by apply row_major_bound].
  by destruct data.
Qed.

(** The three ways a decoded chunk is stored. *)
Lemma column_cases r v cy cx rec chunk :
  reader_ok r -> v ∈ variables (r_meta r) -> var_kind v = "pressure3d" ->
  (cy < cols_high r)%nat -> (cx < cols_wide r)%nat -> chunk_record r v KIND_COLUMN3D cy cx = Ok rec ->
  let n := (chunk_h r cy * chunk_w r cx * level_count v)%nat in
  chunk_at r v cy cx = Ok chunk ->
  if has_flag (flags rec) FLAG_EMPTY then chunk = replicate n NAN
  else if has_flag (flags rec) FLAG_CONSTANT && (len rec =? 0) then chunk = replicate n (center rec)
  else raw_len rec = Z.of_nat (n * 2) /\ exists comp raw, payload_slice r rec = Ok comp /\
    decompress_chunk comp (n * 2) = Ok raw /\ length raw = (n * 2)%nat /\
    decode_affine_i16 (flags rec) (center rec) (scale rec) raw n = Ok chunk.
Proof.
  intros Hok Hv Hk Hcy Hcx Hrec n Hc.
  destruct (found_payload r v cy cx rec Hok Hv Hk Hcy Hcx Hrec) as [Hwf Hpay].
  unfold chunk_at in Hc. rewrite Hrec in Hc. cbn [mbind result_bind] in Hc. fold n in Hc, Hpay.
  unfold decode_column_chunk in Hc.
  destruct (has_flag (flags rec) FLAG_EMPTY) eqn:He; [by apply try_filled_f32_inv in Hc|].
  destruct (has_flag (flags rec) FLAG_CONSTANT && (len rec =? 0)) eqn:Hcst; [by apply try_filled_f32_inv in Hc|].
  assert (payload_free rec = false) as Hpf.
  { destruct (payload_free rec) eqn:Hf; [|done]. unfold payload_free in Hf. rewrite He in Hf. cbn [orb] in Hf.
    rewrite Hpay, Z.eqb_refl, andb_true_r in Hcst. by rewrite Hcst in Hf. }
  rewrite Hpf in Hpay. split; [done|]. rewrite Hpay, Nat2Z.id in Hc.
  destruct (payload_slice r rec) as [comp| |]; [|done..]. cbn [mbind result_bind] in Hc.
  destruct (decompress_chunk comp (n * 2)) as [raw| |] eqn:Hraw; [|done..]. cbn [mbind result_bind] in Hc.
  exists comp, raw. split_and!; [done..| |done].
  unfold decompress_chunk in Hraw. res_inv Hraw. by apply decompress_chunk_into_length in Hraw.
Qed.

Lemma read_selected_data r v cy cx zs :
  alloc_succeeds -> reader_ok r -> v ∈ variables (r_meta r) -> var_kind v = "pressure3d" ->
  (cy < cols_high r)%nat -> (cx < cols_wide r)%nat -> is_ok (chunk_at r v cy cx) ->
  zs <> [] -> Z.of_nat (length zs) <= MAX_PRESSURE_LEVELS -> Forall (fun z => z < level_count v)%nat zs ->
  exists data, read_selected_pressure_level_chunk_data_3d_for_var r v zs (sel_geo r cy cx) = Ok data /\
    data_holds r v cy cx zs data.
Proof.
  intros Halloc Hok Hv Hk Hcy Hcx [chunk Hc] Hne Hmax Hzs.
  destruct (pressure_limits r v Hok Hv Hk) as (Hl0 & Hl1 & _).
  destruct (chunk_bounds r cy cx Hcy Hcx) as (_ & _ & Hh & Hw). unfold COL_Y, COL_X in Hh, Hw.
  pose proof (chunk_at_length _ _ _ _ _ Hc) as Hlen.
  pose proof (fun data => data_holds_intro r v cy cx zs chunk data Hcy Hcx Hc Hzs) as Hintro.
  assert (forall x, chunk = replicate (chunk_h r cy * chunk_w r cx * level_count v) x ->
    forall i z c, zs !! i = Some z -> (c < chunk_w r cx * chunk_h r cy)%nat ->
      Some x = chunk !! (c * level_count v + z)%nat) as Hrep.
  { intros x -> i z c Hi Hcc. rewrite lookup_replicate_2; [done|]. apply row_major_bound; [lia|].
    by apply (Forall_lookup_1 _ _ _ _ Hzs Hi). }
  destruct (chunk_record r v KIND_COLUMN3D cy cx) as [rec| |] eqn:Hrec;
    [|unfold chunk_at in Hc; by rewrite Hrec in Hc..].
  pose proof (column_cases r v cy cx rec chunk Hok Hv Hk Hcy Hcx Hrec Hc) as Hcases. cbv zeta in Hcases.
  unfold read_selected_pressure_level_chunk_data_3d_for_var, assert.
  rewrite bool_decide_eq_false_2 by done. cbn [negb mbind result_bind sel_geo sg_chunk_y sg_chunk_x].
  rewrite Hrec. cbn [mbind result_bind].
  destruct (has_flag (flags rec) FLAG_EMPTY) eqn:He.
  { exists SelectedEmpty. split; [done|]. apply Hintro. by apply Hrep. }
  destruct (has_flag (flags rec) FLAG_CONSTANT && (len rec =? 0)) eqn:Hcst.
  { exists (SelectedConstant (center rec)). split; [done|]. apply Hintro. by apply Hrep. }
  destruct Hcases as (Hraw & comp & raw & Hcomp & Hdec & Hrl & Haff). fold (level_count v).
  unfold sg_cell_count. cbn [sg_width sg_height sel_geo]. rewrite (Nat.mul_comm (chunk_h r cy)) in *.
  set (cells := (chunk_w r cx * chunk_h r cy)%nat) in *.
  assert (cells <= 256)%nat by (unfold cells; nia). unfold MAX_PRESSURE_LEVELS in *.
  assert (1048576 * 256 < usize_limit) by done.
  assert (Z.of_nat (cells * level_count v * 2) < usize_limit) by nia.
  rewrite (checked_mul_ok cells (level_count v)), (checked_mul_ok cells (length zs)) by nia. rrun.
  rewrite checked_mul_ok by lia. rrun. rewrite Hraw. zdecide. rrun.
  rewrite Hcomp. rrun. rewrite Nat2Z.id, Hdec. rrun. unfold try_filled_f32. rewrite Halloc. rrun.
  destruct (select_planes_spec rec raw (level_count v) cells (replicate (cells * length zs) NAN) zs chunk)
    as (out & -> & Ho1 & Ho2); [rewrite length_replicate; lia|done|by intros; eapply decode_affine_lookup|].
  rrun. exists (SelectedDense out). split; [done|]. apply Hintro. intros i z c Hi Hcc. by apply Ho2.
Qed.
End selected.

(** ** Level selections *)

Section selections.
Context `{F32Ties, External}.
Implicit Types (r : HourReader) (v : RwsVariableMeta) (levels : list Z).

Lemma seen_loop levels (seen : gset Z) msg :
  is_ok (rfold (fun (seen : gset Z) level_hpa =>
    _ ← reject (bool_decide (level_hpa ∈ seen)) msg; Ok ({[level_hpa]} ∪ seen)) levels seen
    : RwResult (gset Z)) <->
  NoDup levels /\ forall l, l ∈ levels -> l ∉ seen.
Proof.
  revert seen. induction levels as [|l levels IH]; intros seen; simpl.
  - split; [|intros _; by eexists]. intros _. split; [constructor|by intros ? ?%not_elem_of_nil].
  - case_bool_decide as Hin; simpl.
    + split; [by intros [? ?]|]. intros [_ Hall]. destruct (Hall l ltac:(left) Hin).
    + rewrite IH, list.NoDup_cons. split.
      * intros [Hnd Hall]. split_and!; [|done|].
        -- intros Hl. apply (Hall l Hl). by apply elem_of_union_l, elem_of_singleton.
        -- intros k [->|Hk]%elem_of_cons; [done|]. intros Hs. apply (Hall k Hk). by apply elem_of_union_r.
      * intros [[Hl Hnd] Hall]. split; [done|]. intros k Hk. specialize (Hall k ltac:(by right)).
        intros [->%elem_of_singleton|?]%elem_of_union; done.
Qed.

Lemma pressure_level_index_found v l :
  l ∈ levels_hpa v -> exists z, pressure_level_index v l = Ok z.
Proof.
  intros Hl. unfold pressure_level_index.
  destruct (list_find_elem_of (fun level => level = l) _ l Hl eq_refl) as [[i k] ->]. by eexists.
Qed.

Lemma level_indices_ok v levels :
  is_ok (rmap (pressure_level_index v) levels) <-> forall l, l ∈ levels -> l ∈ levels_hpa v.
Proof.
  split.
  - intros [zs Hz%rmap_ok_inv] l [i Hi]%list_elem_of_lookup.
    destruct (Forall2_lookup_l _ _ _ _ _ Hz Hi) as (z & _ & [_ Hl]%pressure_level_index_inv).
    by eapply list_elem_of_lookup_2.
  - intros Hall. induction levels as [|l levels IH]; [by eexists|]. simpl.
    destruct (pressure_level_index_found v l) as [z ->]; [apply Hall; left|]. simpl.
    destruct IH as [zs ->]; [intros; apply Hall; by right|]. by eexists.
Qed.

(** The selections [selected_pressure_level_indices] accepts. *)
Lemma selected_indices_iff v levels :
  alloc_succeeds ->
  is_ok (selected_pressure_level_indices v levels) <->
  levels <> [] /\ Z.of_nat (length levels) <= MAX_PRESSURE_LEVELS /\ NoDup levels /\
  forall l, l ∈ levels -> l ∈ levels_hpa v.
Proof.
  intros Halloc. unfold selected_pressure_level_indices. pose proof (seen_loop levels ∅
    (Format "variable '{}': selected pressure level {} hPa is duplicated")) as Hseen.
  pose proof (level_indices_ok v levels) as Hidx.
  case_bool_decide as Hne; rrun; [split; [by intros [? ?]|by intros [? _]]|].
  destruct (Z.ltb_spec MAX_PRESSURE_LEVELS (Z.of_nat (length levels))); rrun;
    [split; [by intros [? ?]|intros (_ & ? & _); lia]|].
  destruct (rfold _ levels ∅) as [s| |]; rrun.
  - rewrite Halloc. rrun. rewrite Hidx. destruct (proj1 Hseen) as [Hnd _]; [by eexists|]. split; [done|tauto].
  - split; [by intros [? ?]|]. intros (_ & _ & Hnd & _). destruct (proj2 Hseen) as [? Hs]; [|done].
    split; [done|set_solver].
  - split; [by intros [? ?]|]. intros (_ & _ & Hnd & _). destruct (proj2 Hseen) as [? Hs]; [|done].
    split; [done|set_solver].
Qed.

Lemma selected_indices_inv v levels zs :
  selected_pressure_level_indices v levels = Ok zs ->
  levels <> [] /\ Z.of_nat (length levels) <= MAX_PRESSURE_LEVELS /\
  Forall2 (fun l z => levels_hpa v !! z = Some l) levels zs /\ Forall (fun z => z < level_count v)%nat zs.
Proof.
  unfold selected_pressure_level_indices. intros Hz. res_inv Hz. res_clean. breflect.
  apply rmap_ok_inv in Hz. split_and!; [done|lia|..].
  - eapply Forall2_impl; [|exact Hz]. by intros l z [_ ?]%pressure_level_index_inv.
  - apply Forall_lookup. intros i z Hi. destruct (Forall2_lookup_r _ _ _ _ _ Hz Hi) as (l & _ & Hl).
    by apply pressure_level_index_inv in Hl as [? _].
Qed.

(** ** Running the iterators *)

Definition sel_at r levels (k n : nat) : SelectedPressureLevelChunks3D :=
  {| scs_grid_nx := nx (r_meta r); scs_grid_ny := ny (r_meta r); scs_chunks_x := cols_wide r;
     scs_chunks_y := cols_high r; scs_levels_hpa := levels; scs_next := k; scs_chunk_count := n |}.
Definition lev_at r (level : Z) (k n : nat) : PressureLevelChunks3D :=
  {| pcs_grid_nx := nx (r_meta r); pcs_grid_ny := ny (r_meta r); pcs_chunks_x := cols_wide r;
     pcs_chunks_y := cols_high r; pcs_level_hpa := level; pcs_next := k; pcs_chunk_count := n |}.
Definition lev_geo r (level : Z) (cy cx : nat) : PressureLevelChunkGeometry3D :=
  {| pg_chunk_y := cy; pg_chunk_x := cx; pg_x0 := (cx * COL_X)%nat; pg_y0 := (cy * COL_Y)%nat;
     pg_width := chunk_w r cx; pg_height := chunk_h r cy; pg_level_hpa := level |}.

(** An iterator whose [next] yields [geo] of the ordinals one after the
    other runs its loop as a fold. *)
Lemma for_each_ordinals {It G St} (next : It -> RwResult (option (G * It))) (body : St -> G -> RwResult St)
    (at_ : nat -> It) (geo : nat -> G) n :
  next (at_ n) = Ok None ->
  (forall k, (k < n)%nat -> next (at_ k) = Ok (Some (geo k, at_ (S k)))) ->
  forall rem k fuel s, (k + rem = n)%nat -> (rem < fuel)%nat ->
    for_each next body fuel (at_ k) s = rfold body (geo <$> seq k rem) s.
Proof.
  intros Hend Hnext. induction rem as [|rem IH]; intros k fuel s Hk Hf; (destruct fuel as [|fuel]; [lia|]); simpl.
  - replace k with n by lia. by rewrite Hend.
  - rewrite Hnext by lia. cbn [mbind result_bind]. destruct (body s (geo k)); cbn [mbind result_bind]; [|done..].
    apply IH; lia.
Qed.

Lemma ordinal_chunk r k :
  (k < cols_high r * cols_wide r)%nat ->
  (k / cols_wide r < cols_high r /\ k mod cols_wide r < cols_wide r /\
   k mod cols_wide r * COL_X <= nx (r_meta r) /\ k / cols_wide r * COL_Y <= ny (r_meta r))%nat.
Proof.
  intros Hk. destruct (row_major_lt _ _ _ Hk) as [Hy Hx].
  destruct (chunk_bounds r _ _ Hy Hx) as (? & ? & _). lia.
Qed.

Lemma selected_loop {St} r levels (body : St -> SelectedPressureLevelChunkGeometry3D -> RwResult St) s :
  let n := (cols_high r * cols_wide r)%nat in
  for_each selected_chunks_next body (n + 1) (sel_at r levels 0 n) s
  = rfold (fun s c => body s (sel_geo r c.1 c.2)) (grid_coords (cols_high r) (cols_wide r)) s.
Proof.
  intros n. rewrite <- grid_coords_ordinal, rfold_fmap. fold n.
  rewrite (for_each_ordinals selected_chunks_next body (fun k => sel_at r levels k n)
    (fun k => sel_geo r (k / cols_wide r) (k mod cols_wide r)) n) with (rem := n); [apply rfold_fmap|..|lia|lia].
  - unfold selected_chunks_next. cbn [sel_at scs_next scs_chunk_count]. by rewrite Nat.eqb_refl.
  - intros k Hk. destruct (ordinal_chunk r k Hk) as (_ & _ & Hx & Hy).
    unfold selected_chunks_next. cbn [sel_at scs_next scs_chunk_count scs_grid_nx scs_grid_ny scs_chunks_x].
    zdecide. rewrite !usub_ok by done. by rrun.
Qed.

Lemma level_loop {St} r level (body : St -> PressureLevelChunkGeometry3D -> RwResult St) s :
  let n := (cols_high r * cols_wide r)%nat in
  for_each level_chunks_next body (n + 1) (lev_at r level 0 n) s
  = rfold (fun s c => body s (lev_geo r level c.1 c.2)) (grid_coords (cols_high r) (cols_wide r)) s.
Proof.
  intros n. rewrite <- grid_coords_ordinal, rfold_fmap. fold n.
  rewrite (for_each_ordinals level_chunks_next body (fun k => lev_at r level k n)
    (fun k => lev_geo r level (k / cols_wide r) (k mod cols_wide r)) n) with (rem := n); [apply rfold_fmap|..|lia|lia].
  - unfold level_chunks_next. cbn [lev_at pcs_next pcs_chunk_count]. by rewrite Nat.eqb_refl.
  - intros k Hk. destruct (ordinal_chunk r k Hk) as (_ & _ & Hx & Hy).
    unfold level_chunks_next. cbn [lev_at pcs_next pcs_chunk_count pcs_grid_nx pcs_grid_ny pcs_chunks_x pcs_level_hpa].
    zdecide. rewrite !usub_ok by done. by rrun.
Qed.

(** The iterator a variable of an opened file gets. *)
Lemma level_chunks_ok r v level :
  reader_ok r -> v ∈ variables (r_meta r) -> var_kind v = "pressure3d" ->
  pressure_level_chunks_3d_for_var r v level = Ok (lev_at r level 0 (cols_high r * cols_wide r)).
Proof.
  intros Hok Hv Hk. unfold pressure_level_chunks_3d_for_var. cbv zeta.
  rewrite chunk_count_fits by (try apply rok_meta; unfold COL_Y, COL_X; auto; lia). rrun.
  destruct (var_range_exact r v _ Hok Hv (pressure_layout v Hk)) as (a & b & -> & Hab). rrun.
  rewrite Hab. unfold chunk_rows, chunk_cols. cbn [lay_y lay_x]. rewrite Nat.eqb_refl. done.
Qed.

Lemma selected_chunks_ok r v levels :
  reader_ok r -> v ∈ variables (r_meta r) -> var_kind v = "pressure3d" -> levels <> [] ->
  selected_pressure_level_chunks_3d_for_var r v levels = Ok (sel_at r levels 0 (cols_high r * cols_wide r)).
Proof.
  intros Hok Hv Hk Hne. unfold selected_pressure_level_chunks_3d_for_var. destruct levels as [|l levels]; [done|].
  cbn [lookup list_lookup or_panic mbind result_bind]. by rewrite level_chunks_ok.
Qed.

(** ** What the visitors are shown *)

(** A chunk read for the selection [levels] holds the cells of the volume. *)
Definition shows_selected r v levels (c : nat * nat) (ch : SelectedPressureLevelChunk3D) : Prop :=
  sc_geometry ch = sel_geo r c.1 c.2 /\ sc_levels_hpa ch = levels /\
  forall i l z row col, levels !! i = Some l -> pressure_level_index v l = Ok z ->
    (row < chunk_h r c.1)%nat -> (col < chunk_w r c.2)%nat ->
    selected_chunk_get ch i row col = Some (cell_3d r v z (c.1 * COL_Y + row) (c.2 * COL_X + col)).

Lemma rfold_through {E A B St} (f : A -> result E B) (visitor : St -> B -> result E St) l bs s :
  rmap f l = Ok bs -> rfold (fun s a => b ← f a; visitor s b) l s = rfold visitor bs s.
Proof.
  intros Hm%rmap_ok_inv. revert s. induction Hm as [|a b l bs Hab Hl IH]; intros s; [done|]. simpl.
  rewrite Hab. cbn [mbind result_bind]. destruct (visitor s b); cbn [mbind result_bind]; [apply IH|done..].
Qed.

Lemma rmap_exists {E A B} (f : A -> result E B) (P : A -> B -> Prop) l :
  (forall a, a ∈ l -> exists b, f a = Ok b /\ P a b) -> exists bs, rmap f l = Ok bs /\ Forall2 P l bs.
Proof.
  induction l as [|a l IH]; intros Hl; [by exists []; split; [|constructor]|]. simpl.
  destruct (Hl a ltac:(left)) as (b & -> & Hab). destruct IH as (bs & -> & Hbs); [intros; apply Hl; by right|].
  exists (b :: bs). split; [done|]. by constructor.
Qed.

Lemma read_selected_shows r v levels zs c :
  alloc_succeeds -> reader_ok r -> v ∈ variables (r_meta r) -> var_kind v = "pressure3d" -> chunks_decode r v ->
  selected_pressure_level_indices v levels = Ok zs -> c ∈ grid_coords (cols_high r) (cols_wide r) ->
  exists ch, (data ← read_selected_pressure_level_chunk_data_3d_for_var r v zs (sel_geo r c.1 c.2);
     Ok {| sc_geometry := sel_geo r c.1 c.2; sc_levels_hpa := levels; sc_data := data |}) = Ok ch /\
    shows_selected r v levels c ch.
Proof.
  intros Halloc Hok Hv Hk Hdec Hsel Hc. destruct c as [cy cx]. apply elem_of_grid_coords in Hc as [Hy Hx]. cbn [fst snd].
  destruct (selected_indices_inv _ _ _ Hsel) as (Hne & Hmax & Hf2 & Hall).
  pose proof (Forall2_length Hf2) as Hlen.
  destruct (read_selected_data r v cy cx zs Halloc Hok Hv Hk Hy Hx (Hdec cy cx Hy Hx)) as (data & -> & Hd);
    [by intros ->; destruct levels|lia|done|].
  eexists. split; [done|]. split_and!; [done..|]. intros i l z row col Hi Hz Hrow Hcol.
  apply Hd; [done| |done..].
  unfold selected_pressure_level_indices in Hsel. res_inv Hsel. apply rmap_ok_inv in Hsel.
  destruct (Forall2_lookup_l _ _ _ _ _ Hsel Hi) as (z' & Hz' & Hl). congruence.
Qed.

Lemma visit_selected_fold r name v levels zs :
  alloc_succeeds -> reader_ok r -> lookup_3d r name = Ok v -> chunks_decode r v ->
  selected_pressure_level_indices v levels = Ok zs ->
  exists chunks, Forall2 (shows_selected r v levels) (grid_coords (cols_high r) (cols_wide r)) chunks /\
    forall St (visitor : St -> SelectedPressureLevelChunk3D -> RwResult St) s,
      visit_selected_pressure_level_chunks_3d r name levels visitor s = rfold visitor chunks s.
Proof.
  intros Halloc Hok Hv Hdec Hsel. destruct (lookup_3d_inv _ _ _ Hv) as (Hin & _ & Hk).
  destruct (rmap_exists (fun c : nat * nat =>
      data ← read_selected_pressure_level_chunk_data_3d_for_var r v zs (sel_geo r c.1 c.2);
      Ok {| sc_geometry := sel_geo r c.1 c.2; sc_levels_hpa := levels; sc_data := data |})
    (shows_selected r v levels) (grid_coords (cols_high r) (cols_wide r))) as (chunks & Hm & Hf).
  { intros c Hc. by apply read_selected_shows. }
  exists chunks. split; [done|]. intros St visitor s. unfold visit_selected_pressure_level_chunks_3d.
  rewrite Hv. cbn [mbind result_bind]. rewrite Hsel. cbn [mbind result_bind].
  rewrite selected_chunks_ok by (try done; by eapply selected_indices_inv).
  cbn [mbind result_bind sel_at scs_chunk_count].
  change {| scs_grid_nx := _ |} with (sel_at r levels 0 (cols_high r * cols_wide r)).
  rewrite selected_loop, <- (rfold_through _ visitor _ _ s Hm). apply rfold_ext. intros s' c _.
  by destruct (read_selected_pressure_level_chunk_data_3d_for_var _ _ _ _).
Qed.

(** A chunk of one level holds the cells of that level. *)
Definition shows_level r v (level : Z) (z : nat) (c : nat * nat) (ch : PressureLevelChunk3D) : Prop :=
  pc_geometry ch = lev_geo r level c.1 c.2 /\
  forall row col, (row < chunk_h r c.1)%nat -> (col < chunk_w r c.2)%nat ->
    level_chunk_get ch row col = Some (cell_3d r v z (c.1 * COL_Y + row) (c.2 * COL_X + col)).

Lemma read_level_chunk_shows r v level z c :
  alloc_succeeds -> reader_ok r -> v ∈ variables (r_meta r) -> var_kind v = "pressure3d" -> chunks_decode r v ->
  pressure_level_index v level = Ok z -> c ∈ grid_coords (cols_high r) (cols_wide r) ->
  exists ch, read_pressure_level_chunk_3d_for_var r v z (lev_geo r level c.1 c.2) = Ok ch /\
    shows_level r v level z c ch.
Proof.
  intros Halloc Hok Hv Hk Hdec [Hz _]%pressure_level_index_inv Hc. destruct c as [cy cx].
  apply elem_of_grid_coords in Hc as [Hy Hx]. cbn [fst snd].
  unfold read_pressure_level_chunk_3d_for_var.
  cbn [lev_geo pg_chunk_y pg_chunk_x pg_x0 pg_y0 pg_width pg_height].
  change {| sg_chunk_y := _ |} with (sel_geo r cy cx).
  destruct (read_selected_data r v cy cx [z] Halloc Hok Hv Hk Hy Hx (Hdec cy cx Hy Hx)) as (data & -> & Hd);
    [done|done|by constructor|].
  eexists. split; [done|]. split; [done|]. intros row col Hrow Hcol. cbn [fst snd] in *.
  rewrite <- (Hd [level] 0%nat z row col eq_refl eq_refl Hrow Hcol).
  unfold level_chunk_get, selected_chunk_get.
  cbn [pc_geometry pc_data sc_geometry sc_data sc_levels_hpa lev_geo sel_geo pg_height pg_width sg_height sg_width length].
  zdecide. cbn [orb Nat.mul Nat.add]. by destruct data.
Qed.

Lemma visit_level_fold r name v level z :
  alloc_succeeds -> reader_ok r -> lookup_3d r name = Ok v -> chunks_decode r v ->
  pressure_level_index v level = Ok z ->
  exists chunks, Forall2 (shows_level r v level z) (grid_coords (cols_high r) (cols_wide r)) chunks /\
    forall St (visitor : St -> PressureLevelChunk3D -> RwResult St) s,
      visit_pressure_level_chunks_3d r name level visitor s = rfold visitor chunks s.
Proof.
  intros Halloc Hok Hv Hdec Hz. destruct (lookup_3d_inv _ _ _ Hv) as (Hin & _ & Hk).
  destruct (rmap_exists (fun c : nat * nat => read_pressure_level_chunk_3d_for_var r v z (lev_geo r level c.1 c.2))
    (shows_level r v level z) (grid_coords (cols_high r) (cols_wide r))) as (chunks & Hm & Hf).
  { intros c Hc. by apply read_level_chunk_shows. }
  exists chunks. split; [done|]. intros St visitor s. unfold visit_pressure_level_chunks_3d.
  rewrite Hv. cbn [mbind result_bind]. rewrite Hz. cbn [mbind result_bind].
  rewrite level_chunks_ok by done. cbn [mbind result_bind lev_at pcs_chunk_count].
  change {| pcs_grid_nx := _ |} with (lev_at r level 0 (cols_high r * cols_wide r)).
  by rewrite level_loop, <- (rfold_through _ visitor _ _ s Hm).
Qed.
End selections.

(** ** Properties *)

(** The full read of a pressure variable of an opened file never panics,
    and what it returns is the variable's volume: one value per level and
    grid cell, level by level and row by row, each of them the value of its
    level in the column that the decoded chunk covering the cell holds. *)
Theorem full_volume_read `{F32Ties, External} (Hlaws : ExternalLaws) src mm file r name :
  open_reader src mm file = Ok r ->
  read_full_3d r name <> Panic /\
  forall values, read_full_3d r name = Ok values ->
    exists v, lookup_3d r name = Ok v /\
      let levels := length (levels_hpa v) in
      length values = (levels * (ny (r_meta r) * nx (r_meta r)))%nat /\
      forall z y x, (z < levels)%nat -> (y < ny (r_meta r))%nat -> (x < nx (r_meta r))%nat ->
        exists chunk, chunk_at r v (y / COL_Y) (x / COL_X) = Ok chunk /\
          values !! (z * (ny (r_meta r) * nx (r_meta r)) + (y * nx (r_meta r) + x))%nat =
          chunk !! ((y mod COL_Y * chunk_w r (x / COL_X) + x mod COL_X) * levels + z)%nat.
Proof.
  intros Hok%open_reader_ok. split; [by apply read_full_3d_no_panic|].
  intros values (v & Hv & Hdec & ->)%read_full_3d_inv; [|done]. exists v. split; [done|]. cbv zeta.
  fold (level_count v). split; [apply length_volume_3d|]. intros z y x Hz Hy Hx.
  destruct (cell_in_chunk r y x Hy Hx) as (Hcy & Hcx & Hry & Hrx).
  destruct (Hdec _ _ Hcy Hcx) as [chunk Hc]. exists chunk. split; [done|].
  rewrite lookup_volume_3d by done.
  pose proof (Nat.div_mod y COL_Y ltac:(done)) as Hdy. pose proof (Nat.div_mod x COL_X ltac:(done)) as Hdx.
  rewrite (chunk_cell_local r v _ _ chunk) by done. do 2 f_equal; lia.
Qed.

Lemma full_volume_read_witness :
  is_ok (read_full_3d sample_reader "tmp") /\ read_full_3d sample_reader "tmp" <> Panic.
Proof.
  split; [|apply (full_volume_read table_laws 7 true sample_file sample_reader "tmp" sample_open)].
  eexists. vm_compute. reflexivity.
Defined.

(** A column read is the column of the full volume: where the volume can
    be read and memory suffices, the column over every grid point is
    returned, with one value per level, the same ones the volume has there. *)
Theorem column_read_is_volume_column `{F32Ties, External} src mm file r name values ix iy :
  alloc_succeeds -> open_reader src mm file = Ok r -> read_full_3d r name = Ok values ->
  (ix < nx (r_meta r))%nat -> (iy < ny (r_meta r))%nat ->
  exists v column, lookup_3d r name = Ok v /\ read_column_3d r name ix iy = Ok column /\
    length column = length (levels_hpa v) /\
    forall z, (z < length (levels_hpa v))%nat ->
      column !! z = values !! (z * (ny (r_meta r) * nx (r_meta r)) + (iy * nx (r_meta r) + ix))%nat.
Proof.
  intros Halloc Hok%open_reader_ok (v & Hv & Hdec & ->)%read_full_3d_inv Hx Hy; [|done].
  exists v, (column_3d r v iy ix). destruct (cell_in_chunk r iy ix Hy Hx) as (Hcy & Hcx & _).
  rewrite (read_column_3d_eq r name v ix iy Hv Hx Hy). destruct (Hdec _ _ Hcy Hcx) as [chunk ->].
  unfold try_filled_f32. rewrite Halloc. split_and!; [done..| |].
  - unfold column_3d. by rewrite length_fmap, length_seq.
  - intros z Hz. rewrite lookup_volume_3d by done. unfold column_3d.
    by rewrite list_lookup_fmap, lookup_seq_lt by done.
Qed.

Lemma sample_volume : exists values, read_full_3d sample_reader "tmp" = Ok values.
Proof. eexists. vm_compute. reflexivity. Qed.

Lemma sample_dims : nx (r_meta sample_reader) = 3%nat /\ ny (r_meta sample_reader) = 2%nat.
Proof. split; vm_compute; reflexivity. Qed.

Lemma column_read_is_volume_column_witness : exists column,
  read_column_3d sample_reader "tmp" 2 1 = Ok column.
Proof.
  destruct sample_volume as [values Hv]. destruct sample_dims as [Hnx Hny].
  destruct (column_read_is_volume_column 7 true sample_file sample_reader "tmp" values 2 1
    table_alloc sample_open Hv) as (v & column & _ & Hc & _); [rewrite Hnx; lia|rewrite Hny; lia|]. eauto.
Defined.

(** Reading one level gives the plane of the full volume at the first
    position where the variable lists that level; a level it does not list is
    refused. *)
Theorem level_read_is_volume_plane `{F32Ties, External} src mm file r name values level :
  alloc_succeeds -> open_reader src mm file = Ok r -> read_full_3d r name = Ok values ->
  exists v, lookup_3d r name = Ok v /\
    match list_find (fun l => l = level) (levels_hpa v) with
    | Some (z, _) => exists plane, read_level_3d r name level = Ok plane /\
        length plane = (ny (r_meta r) * nx (r_meta r))%nat /\
        forall y x, (y < ny (r_meta r))%nat -> (x < nx (r_meta r))%nat ->
          plane !! (y * nx (r_meta r) + x)%nat =
          values !! (z * (ny (r_meta r) * nx (r_meta r)) + (y * nx (r_meta r) + x))%nat
    | None => exists msg, read_level_3d r name level = Err (Meta msg)
    end.
Proof.
  intros Halloc Hok%open_reader_ok (v & Hv & Hdec & ->)%read_full_3d_inv; [|done].
  exists v. split; [done|]. destruct (list_find _ _) as [[z l]|] eqn:Hf.
  - assert (pressure_level_index v level = Ok z) as Hz by (unfold pressure_level_index; by rewrite Hf).
    exists (level_3d r v z). split; [by apply read_level_3d_total|].
    split; [unfold level_3d; by rewrite length_fmap, length_grid_coords|].
    apply pressure_level_index_inv in Hz as [Hz _]. intros y x Hy Hx. rewrite lookup_volume_3d by done.
    unfold level_3d. by rewrite list_lookup_fmap, lookup_grid_coords by done.
  - eexists. unfold read_level_3d, pressure_level_index. rewrite Hv. cbn [mbind result_bind]. by rewrite Hf.
Qed.

Lemma level_read_is_volume_plane_witness : exists v, lookup_3d sample_reader "tmp" = Ok v.
Proof.
  destruct sample_volume as [values Hv].
  destruct (level_read_is_volume_plane 7 true sample_file sample_reader "tmp" values 500
    table_alloc sample_open Hv) as (v & Hl & _). eauto.
Defined.

(** Visiting an ordered selection of levels chunk by chunk runs the
    visitor, stopping at its first error, over one chunk per cell of the
    chunk grid in row-major order; and what [get] returns in each chunk for a
    selected level is the full volume's value of that level and cell. *)
Theorem selected_visit_covers_volume `{F32Ties, External} src mm file r name values levels v zs :
  alloc_succeeds -> open_reader src mm file = Ok r -> read_full_3d r name = Ok values ->
  lookup_3d r name = Ok v -> selected_pressure_level_indices v levels = Ok zs ->
  exists chunks,
    (forall St (visitor : St -> SelectedPressureLevelChunk3D -> RwResult St) s,
       visit_selected_pressure_level_chunks_3d r name levels visitor s = rfold visitor chunks s) /\
    (fun ch => (sg_chunk_y (sc_geometry ch), sg_chunk_x (sc_geometry ch))) <$> chunks
      = grid_coords (div_ceil (ny (r_meta r)) COL_Y) (div_ceil (nx (r_meta r)) COL_X) /\
    forall ch i z row col, ch ∈ chunks -> zs !! i = Some z ->
      (row < sg_height (sc_geometry ch))%nat -> (col < sg_width (sc_geometry ch))%nat ->
      selected_chunk_get ch i row col =
      values !! (z * (ny (r_meta r) * nx (r_meta r)) +
                 ((sg_y0 (sc_geometry ch) + row) * nx (r_meta r) + (sg_x0 (sc_geometry ch) + col)))%nat.
Proof.
  intros Halloc Hok%open_reader_ok (v' & Hv' & Hdec & ->)%read_full_3d_inv Hv Hsel; [|done].
  assert (v' = v) as -> by congruence.
  destruct (visit_selected_fold r name v levels zs Halloc Hok Hv Hdec Hsel) as (chunks & Hf & Hvisit).
  exists chunks. split; [done|]. split.
  - apply list_eq_Forall2, Forall2_fmap_l, Forall2_flip. eapply Forall2_impl; [|exact Hf].
    intros [cy cx] ch (Hg & _). simpl. by rewrite Hg.
  - intros ch i z row col Hch Hi Hrow Hcol. apply list_elem_of_lookup in Hch as [j Hj].
    destruct (Forall2_lookup_r _ _ _ _ _ Hf Hj) as ([cy cx] & Hc & Hg & Hl & Hget).
    apply list_elem_of_lookup_2, elem_of_grid_coords in Hc as [Hcy Hcx].
    rewrite Hg in Hrow, Hcol |- *. cbn [sel_geo sg_height sg_width sg_y0 sg_x0 fst snd] in *.
    destruct (selected_indices_inv _ _ _ Hsel) as (_ & _ & _ & Hall).
    unfold selected_pressure_level_indices in Hsel. res_inv Hsel. apply rmap_ok_inv in Hsel.
    destruct (Forall2_lookup_r _ _ _ _ _ Hsel Hi) as (l & Hli & Hlz).
    rewrite (Hget i l z row col Hli Hlz Hrow Hcol). destruct (chunk_bounds r cy cx Hcy Hcx) as (? & ? & _).
    symmetry. apply lookup_volume_3d; [|lia..]. by apply (Forall_lookup_1 _ _ _ _ Hall Hi).
Qed.

Lemma sample_lookup : lookup_3d sample_reader "tmp" = Ok (sample_var 1).
Proof. vm_compute. reflexivity. Qed.

Lemma sample_selection : selected_pressure_level_indices (sample_var 1) [500; 850] = Ok [1%nat; 0%nat].
Proof. vm_compute. reflexivity. Qed.

Lemma selected_visit_covers_volume_witness : exists chunks,
  (fun ch => (sg_chunk_y (sc_geometry ch), sg_chunk_x (sc_geometry ch))) <$> chunks = [(0, 0)]%nat.
Proof.
  destruct sample_volume as [values Hv]. destruct sample_dims as [Hnx Hny].
  destruct (selected_visit_covers_volume 7 true sample_file sample_reader "tmp" values [500; 850] (sample_var 1)
    [1%nat; 0%nat] table_alloc sample_open Hv sample_lookup sample_selection) as (chunks & _ & Hc & _).
  exists chunks. rewrite Hnx, Hny in Hc. exact Hc.
Defined.

(** The level selections the reader accepts, memory permitting, are
    exactly the nonempty ones without duplicates whose every level the
    variable has; and then one index per requested level is returned, in the
    requested order, at which the variable lists that level. *)
Theorem level_selection_accepted_iff `{F32Ties, External} src mm file r name v levels :
  alloc_succeeds -> open_reader src mm file = Ok r -> lookup_3d r name = Ok v ->
  (is_ok (selected_pressure_level_indices v levels) <->
   levels <> [] /\ NoDup levels /\ forall l, l ∈ levels -> l ∈ levels_hpa v) /\
  forall zs, selected_pressure_level_indices v levels = Ok zs ->
    Forall2 (fun l z => levels_hpa v !! z = Some l) levels zs.
Proof.
  intros Halloc Hok%open_reader_ok Hv. destruct (lookup_3d_inv _ _ _ Hv) as (Hin & _ & Hk).
  split; [|by intros zs (_ & _ & ? & _)%selected_indices_inv]. rewrite selected_indices_iff by done.
  split; [by intros (? & _ & ? & ?)|]. intros (Hne & Hnd & Hall). split_and!; try done.
  destruct (pressure_limits r v Hok Hin Hk) as (_ & Hmax & _).
  assert (length levels <= length (levels_hpa v))%nat; [|unfold level_count in *; lia].
  apply NoDup_incl_length; [by apply NoDup_ListNoDup|]. intros l Hl. apply list_elem_of_In, Hall.
  by apply list_elem_of_In.
Qed.

Lemma level_selection_accepted_iff_witness :
  is_ok (selected_pressure_level_indices (sample_var 1) [500; 850]) /\
  ~ is_ok (selected_pressure_level_indices (sample_var 1) [850; 850]).
Proof.
  split; [eexists; exact sample_selection|].
  intros Hd%(proj1 (level_selection_accepted_iff 7 true sample_file sample_reader "tmp" (sample_var 1)
    [850; 850] table_alloc sample_open sample_lookup)).
  destruct Hd as (_ & Hd & _). apply list.NoDup_cons in Hd as [Hd _]. apply Hd. left.
Defined.

(** The chunk-by-chunk visit of one level shows the visitor, in
    row-major order, chunks whose cells are those of [read_level_3d]'s plane. *)
Theorem level_visit_covers_plane `{F32Ties, External} src mm file r name level plane :
  alloc_succeeds -> open_reader src mm file = Ok r -> read_level_3d r name level = Ok plane ->
  exists chunks,
    (forall St (visitor : St -> PressureLevelChunk3D -> RwResult St) s,
       visit_pressure_level_chunks_3d r name level visitor s = rfold visitor chunks s) /\
    (fun ch => (pg_chunk_y (pc_geometry ch), pg_chunk_x (pc_geometry ch))) <$> chunks
      = grid_coords (div_ceil (ny (r_meta r)) COL_Y) (div_ceil (nx (r_meta r)) COL_X) /\
    forall ch row col, ch ∈ chunks -> (row < pg_height (pc_geometry ch))%nat -> (col < pg_width (pc_geometry ch))%nat ->
      level_chunk_get ch row col =
      plane !! ((pg_y0 (pc_geometry ch) + row) * nx (r_meta r) + (pg_x0 (pc_geometry ch) + col))%nat.
Proof.
  intros Halloc Hok%open_reader_ok (v & z & Hv & Hz & Hdec & ->)%read_level_3d_inv.
  destruct (visit_level_fold r name v level z Halloc Hok Hv Hdec Hz) as (chunks & Hf & Hvisit).
  exists chunks. split; [done|]. split.
  - apply list_eq_Forall2, Forall2_fmap_l, Forall2_flip. eapply Forall2_impl; [|exact Hf].
    intros [cy cx] ch (Hg & _). simpl. by rewrite Hg.
  - intros ch row col Hch Hrow Hcol. apply list_elem_of_lookup in Hch as [j Hj].
    destruct (Forall2_lookup_r _ _ _ _ _ Hf Hj) as ([cy cx] & Hc & Hg & Hget).
    apply list_elem_of_lookup_2, elem_of_grid_coords in Hc as [Hcy Hcx].
    rewrite Hg in Hrow, Hcol |- *. cbn [lev_geo pg_height pg_width pg_y0 pg_x0 fst snd] in *.
    rewrite (Hget row col Hrow Hcol). destruct (chunk_bounds r cy cx Hcy Hcx) as (? & ? & _).
    unfold level_3d. by rewrite list_lookup_fmap, lookup_grid_coords by lia.
Qed.

Lemma level_visit_covers_plane_witness : exists chunks : list PressureLevelChunk3D,
  (fun ch => (pg_chunk_y (pc_geometry ch), pg_chunk_x (pc_geometry ch))) <$> chunks = [(0, 0)]%nat.
Proof.
  destruct sample_dims as [Hnx Hny].
  assert (exists plane, read_level_3d sample_reader "tmp" 850 = Ok plane) as [plane Hp]
    by (eexists; vm_compute; reflexivity).
  destruct (level_visit_covers_plane 7 true sample_file sample_reader "tmp" 850 plane table_alloc sample_open Hp)
    as (chunks & _ & Hc & _). exists chunks. rewrite Hnx, Hny in Hc. exact Hc.
Defined.
