(* ===== verification/Assembly.v ===== *)
(** * What the writer assembles

    The bytes [finish] writes depend only on the variables and their data:
    not on whether chunks were spilled to disk, and not on the order in which
    they were staged. *)
From stdpp Require Import base list gmap strings numbers sorting.
From Stdlib Require Import ZArith Lia.
From S2P Require Import Prelude F32 Format Header Index Codec TileCache Writer Reader Concrete.

Local Open Scope Z_scope.

(** ** Sorting *)

Lemma insert_chunk_perm c l : insert_chunk c l ≡ₚ c :: l.
Proof.
  induction l as [|d l IH]; simpl; [done|]. case_bool_decide; [|done].
  rewrite IH. by constructor.
Qed.

Lemma sort_chunks_perm l : sort_chunks l ≡ₚ l.
Proof. induction l as [|c l IH]; simpl; [done|]. by rewrite insert_chunk_perm, IH. Qed.

Definition chunk_lt (c d : StagedChunk) : Prop := key_lt (chunk_key c) (chunk_key d).

Lemma key_not_lt a b : ~ key_lt a b -> a <> b -> key_lt b a.
Proof. intros Hn Hne. destruct (key_trichotomy a b) as [|[|]]; [done|done|done]. Qed.

Lemma insert_chunk_sorted c l :
  StronglySorted chunk_lt l -> (chunk_key c ∉ chunk_key <$> l) -> StronglySorted chunk_lt (insert_chunk c l).
Proof.
  induction 1 as [|d l Hl IH Hd]; intros Hc; simpl; [by repeat constructor|].
  rewrite fmap_cons in Hc. apply not_elem_of_cons in Hc as [Hne Hc].
  case_bool_decide as Hlt.
  - constructor; [by apply IH|]. rewrite insert_chunk_perm. by constructor.
  - apply key_not_lt in Hlt; [|done]. constructor; [by constructor|]. constructor; [done|].
    eapply Forall_impl; [exact Hd|]. intros e He. unfold chunk_lt in *. by etrans.
Qed.

Lemma sort_chunks_sorted l :
  NoDup (chunk_key <$> l) -> StronglySorted chunk_lt (sort_chunks l).
Proof.
  induction l as [|c l IH]; simpl; intros Hnd; [constructor|].
  apply list.NoDup_cons in Hnd as [Hc Hnd]. apply insert_chunk_sorted; [by apply IH|].
  by rewrite sort_chunks_perm.
Qed.

(** With distinct keys the result does not depend on the staging order. *)
Lemma sort_chunks_unique l l' :
  NoDup (chunk_key <$> l) -> l ≡ₚ l' -> sort_chunks l = sort_chunks l'.
Proof.
  intros Hnd Hp. apply (StronglySorted_unique_strong chunk_lt).
  - intros x1 x2 _ _ H1 H2. destruct (irreflexivity key_lt (chunk_key x1)). by etrans.
  - by apply sort_chunks_sorted.
  - apply sort_chunks_sorted. by rewrite <- Hp.
  - by rewrite !sort_chunks_perm.
Qed.

(** Sorting only looks at the keys. *)
Lemma insert_chunk_rel (R : StagedChunk -> StagedChunk -> Prop) c c' l l' :
  (forall a b, R a b -> chunk_key a = chunk_key b) ->
  R c c' -> Forall2 R l l' -> Forall2 R (insert_chunk c l) (insert_chunk c' l').
Proof.
  intros HR Hc. induction 1 as [|d d' l l' Hd Hl IH]; simpl; [by repeat constructor|].
  rewrite <- (HR _ _ Hc), <- (HR _ _ Hd). case_bool_decide; by repeat constructor.
Qed.

Lemma sort_chunks_rel (R : StagedChunk -> StagedChunk -> Prop) l l' :
  (forall a b, R a b -> chunk_key a = chunk_key b) ->
  Forall2 R l l' -> Forall2 R (sort_chunks l) (sort_chunks l').
Proof. intros HR. induction 1; simpl; [constructor|]. by apply insert_chunk_rel. Qed.

(** ** Assembly *)

Section assemble.
Context `{F32Ties, External}.

(** Two staged chunks that contribute the same record and payload. *)
Definition same_chunk (sp sp' : option SpillFile) (c c' : StagedChunk) : Prop :=
  record c = record c' /\ chunk_payload sp c = chunk_payload sp' c'.

Lemma same_chunk_key sp sp' c c' : same_chunk sp sp' c c' -> chunk_key c = chunk_key c'.
Proof. intros [Hr _]. unfold chunk_key. by rewrite Hr. Qed.

Lemma chunk_payload_offset sp c off :
  chunk_payload sp (set_record (set_offset off (record c)) c) = chunk_payload sp c.
Proof. done. Qed.

Lemma assign_offsets_rel sp sp' cur l l' :
  Forall2 (same_chunk sp sp') l l' ->
  Forall2 (same_chunk sp sp') (assign_offsets cur l) (assign_offsets cur l').
Proof.
  intros Hl. revert cur. induction Hl as [|c c' l l' [Hr Hp] Hl IH]; intros cur; simpl; [constructor|].
  constructor; [|rewrite Hr; apply IH].
  split; [simpl; by rewrite Hr|]. by rewrite !chunk_payload_offset.
Qed.

Lemma record_buf_rel sp sp' l l' buf :
  Forall2 (same_chunk sp sp') l l' ->
  fold_left (fun buf c => pack_into (record c) buf) l buf
  = fold_left (fun buf c => pack_into (record c) buf) l' buf.
Proof.
  intros Hl. revert buf. induction Hl as [|c c' l l' [Hr _] Hl IH]; intros buf; simpl; [done|].
  rewrite Hr. apply IH.
Qed.

Lemma payloads_rel sp sp' l l' :
  Forall2 (same_chunk sp sp') l l' -> rmap (chunk_payload sp) l = rmap (chunk_payload sp') l'.
Proof. induction 1 as [|c c' l l' [_ Hp] Hl IH]; cbn [rmap]; [done|]. by rewrite Hp, IH. Qed.

(** The bytes depend on the records and payloads alone. *)
Lemma assemble_rel sp sp' meta l l' :
  Forall2 (same_chunk sp sp') l l' -> assemble sp meta l = assemble sp' meta l'.
Proof.
  intros Hl. apply (sort_chunks_rel _ _ _ (same_chunk_key sp sp')) in Hl.
  unfold assemble. rewrite (Forall2_length _ _ _ Hl).
  destruct (json_to_vec meta) as [mb| |]; rrun; [|done..].
  destruct (negb _); rrun; [done|].
  pose proof (assign_offsets_rel sp sp' (payload_offset (for_layout (Z.of_nat (length mb))
    (Z.of_nat (length (sort_chunks l'))))) _ _ Hl) as Ha.
  by rewrite (record_buf_rel _ _ _ _ _ Ha), (payloads_rel _ _ _ _ Ha).
Qed.

Lemma assemble_perm sp meta l l' :
  NoDup (chunk_key <$> l) -> l ≡ₚ l' -> assemble sp meta l = assemble sp meta l'.
Proof. intros Hnd Hp. unfold assemble. by rewrite (sort_chunks_unique l l'). Qed.
End assemble.

(** ** The data of a variable and its chunks *)

Inductive VarData :=
| SurfaceData (values : list f32)
| PressureData (planes : list (list f32)).

(** The chunk grid's cell size. *)
Definition data_cy (d : VarData) : nat := match d with SurfaceData _ => TILE_Y | PressureData _ => COL_Y end.
Definition data_cx (d : VarData) : nat := match d with SurfaceData _ => TILE_X | PressureData _ => COL_X end.
Definition data_kind (d : VarData) : Z :=
  match d with SurfaceData _ => KIND_TILE2D | PressureData _ => KIND_COLUMN3D end.
Definition data_levels (d : VarData) : nat := match d with SurfaceData _ => 1 | PressureData ps => length ps end.
Definition data_coords (gnx gny : nat) (d : VarData) : list (nat * nat) :=
  grid_coords (div_ceil gny (data_cy d)) (div_ceil gnx (data_cx d)).

(** The value of the variable at level [z] of cell [(y, x)]. *)
Definition data_at (gnx : nat) (d : VarData) (y x z : nat) : option f32 :=
  match d with
  | SurfaceData values => values !! (y * gnx + x)%nat
  | PressureData planes => plane ← planes !! z; plane !! (y * gnx + x)%nat
  end.

(** One value per cell and level. *)
Definition data_ok (gnx gny : nat) (d : VarData) : Prop :=
  match d with
  | SurfaceData values => length values = (gnx * gny)%nat
  | PressureData planes => Forall (fun plane => length plane = (gnx * gny)%nat) planes
  end.

Section chunks.
Context `{F32Ties, External}.

Definition gather (gnx gny : nat) (d : VarData) (c : nat * nat) : RwResult (list f32) :=
  match d with
  | SurfaceData values => gather_tile gnx gny values c.1 c.2
  | PressureData planes => gather_columns gnx gny planes c.1 c.2
  end.
Definition encode_values (d : VarData) (values : list f32) : RwResult EncodedChunk :=
  match d with
  | SurfaceData _ => Ok (encode_f32_tile values)
  | PressureData _ => encode_affine_i16 values
  end.

(** Both [add_surface2d] and [encode_pressure3d_chunks] map this over the
    chunk coordinates. *)
Definition encode_chunk (gnx gny : nat) (vid : Z) (didx : option Z) (d : VarData) (c : nat * nat)
    : RwResult StagedChunk :=
  values ← gather gnx gny d c;
  ec ← encode_values d values;
  comp ← compress_payload (payload ec);
  Ok {| record := make_record vid (data_kind d) c.1 c.2 comp ec; compressed := comp;
        spill_offset := 0; deferred_index := didx |}.
Definition encode_var (gnx gny : nat) (vid : Z) (didx : option Z) (d : VarData) : RwResult (list StagedChunk) :=
  rmap (encode_chunk gnx gny vid didx d) (data_coords gnx gny d).

Lemma encode_tile2d_chunk gnx gny vid values c :
  encode_tile2d gnx gny vid values c = encode_chunk gnx gny vid None (SurfaceData values) c.
Proof. by destruct c. Qed.

Lemma encode_column_chunk gnx gny vid didx planes c :
  encode_column gnx gny vid didx planes c = encode_chunk gnx gny vid didx (PressureData planes) c.
Proof. by destruct c. Qed.

(** The cells of the chunk at [c], clipped to the grid. *)
Definition data_rows (gny : nat) (d : VarData) (cy : nat) : nat := Nat.min (gny - cy * data_cy d) (data_cy d).
Definition data_cols (gnx : nat) (d : VarData) (cx : nat) : nat := Nat.min (gnx - cx * data_cx d) (data_cx d).

Lemma gather_ok gnx gny d cy cx :
  data_ok gnx gny d -> (cy, cx) ∈ data_coords gnx gny d ->
  exists values, gather gnx gny d (cy, cx) = Ok values /\
    length values = (data_rows gny d cy * (data_cols gnx d cx * data_levels d))%nat /\
    forall y x z, (y < data_rows gny d cy)%nat -> (x < data_cols gnx d cx)%nat -> (z < data_levels d)%nat ->
      values !! (y * (data_cols gnx d cx * data_levels d) + (x * data_levels d + z))%nat
      = data_at gnx d (cy * data_cy d + y) (cx * data_cx d + x) z.
Proof.
  intros Hd Hc. apply elem_of_grid_coords in Hc as [Hy Hx].
  assert (0 < data_cy d /\ 0 < data_cx d)%nat as [Hcy Hcx]
    by (destruct d; simpl; unfold TILE_Y, TILE_X, COL_Y, COL_X; lia).
  apply div_ceil_lt in Hy; [|done]. apply div_ceil_lt in Hx; [|done].
  assert (Nat.min (cy * data_cy d + data_cy d) gny - cy * data_cy d = data_rows gny d cy)%nat as Hrows
    by (unfold data_rows; lia).
  assert (Nat.min (cx * data_cx d + data_cx d) gnx - cx * data_cx d = data_cols gnx d cx)%nat as Hcols
    by (unfold data_cols; lia).
  assert (cy * data_cy d + data_rows gny d cy <= gny /\ cx * data_cx d + data_cols gnx d cx <= gnx)%nat as [Hby Hbx]
    by (unfold data_rows, data_cols; lia).
  destruct d as [values|planes]; unfold gather, gather_tile, gather_columns; cbn [fst snd data_cy data_cx data_levels] in *;
    rewrite Hrows.
  - destruct (rconcat_rows (E := RwStoreError)
      (fun y => slice values (y * gnx + cx * TILE_X) (y * gnx + Nat.min (cx * TILE_X + TILE_X) gnx))
      (fun y x => values !! ((cy * TILE_Y + y) * gnx + (cx * TILE_X + x))%nat) (cy * TILE_Y)
      (data_rows gny (SurfaceData values) cy) (data_cols gnx (SurfaceData values) cx)) as (l & Hl & Hlen & Hcell).
    + intros i Hi. set (y := (cy * TILE_Y + i)%nat).
      destruct (slice (E := RwStoreError) values (y * gnx + cx * TILE_X)
        (y * gnx + Nat.min (cx * TILE_X + TILE_X) gnx)) as [row| |] eqn:Hs;
        [|simpl in Hd; rewrite slice_ok in Hs by (unfold y; nia); done..].
      exists row. pose proof (length_slice _ _ _ _ Hs). split_and!; [done|lia|].
      intros x Hxx. rewrite (lookup_slice _ _ _ _ _ Hs) by lia. f_equal. unfold y. lia.
    + exists l. rewrite Nat.mul_1_r. split_and!; [done..|]. intros y x z Hyy Hxx Hz.
      assert (z = 0%nat) as -> by lia. rewrite Nat.mul_1_r, Nat.add_0_r. by apply Hcell.
  - rewrite Hcols. set (L := length planes).
    destruct (rconcat_rows (E := RwStoreError) (fun gy => rconcat (rmap (fun gx =>
        rmap (fun plane : list f32 => or_panic (plane !! (gy * gnx + gx)%nat)) planes)
        (seq (cx * COL_X) (data_cols gnx (PressureData planes) cx))))
      (fun y i => data_at gnx (PressureData planes) (cy * COL_Y + y) (cx * COL_X + i / L) (i mod L))
      (cy * COL_Y) (data_rows gny (PressureData planes) cy)
      (data_cols gnx (PressureData planes) cx * L)) as (l & Hl & Hlen & Hcell).
    + intros i Hi.
      destruct (rconcat_rows (E := RwStoreError) (fun gx =>
        rmap (fun plane : list f32 => or_panic (plane !! ((cy * COL_Y + i) * gnx + gx)%nat)) planes)
        (fun x z => data_at gnx (PressureData planes) (cy * COL_Y + i) (cx * COL_X + x) z) (cx * COL_X)
        (data_cols gnx (PressureData planes) cx) L) as (row & Hr & Hrl & Hrc).
      * intros j Hj. set (k := ((cy * COL_Y + i) * gnx + (cx * COL_X + j))%nat).
        destruct (rmap_total (E := RwStoreError) (fun plane : list f32 => or_panic (plane !! k)) planes) as [col Hcol].
        { intros plane Hp. pose proof (proj1 (list.Forall_forall _ _) Hd plane Hp) as Hpl.
          destruct (lookup_lt_is_Some_2 plane k) as [x Hxk];
            [rewrite Hpl, Nat.mul_comm; apply row_major_bound; lia|]. rewrite Hxk. by eexists. }
        exists col. split; [done|]. apply rmap_ok_inv in Hcol. split; [by rewrite <- (Forall2_length _ _ _ Hcol)|].
        intros z Hz. unfold data_at. destruct (lookup_lt_is_Some_2 planes z Hz) as [plane Hpz]. rewrite Hpz.
        destruct (Forall2_lookup_l _ _ _ _ _ Hcol Hpz) as (x & Hcz & Hxz). cbn [mbind option_bind].
        apply or_panic_inv in Hxz. rewrite Hcz. symmetry. exact Hxz.
      * exists row. split_and!; [done..|]. intros k Hk.
        destruct (row_major_lt L (data_cols gnx (PressureData planes) cx) k Hk) as [H1' H2'].
        rewrite <- Hrc by done. f_equal. rewrite (Nat.mul_comm (k / L)). apply Nat.div_mod. lia.
    + exists l. split_and!; [done..|]. intros y x z Hyy Hxx Hz.
      rewrite Hcell by nia. by destruct (row_major_div_mod L x z Hz) as [-> ->].
Qed.
End chunks.

(** ** One add *)

Section adds.
Context `{F32Ties, External}.
Implicit Types (w : HourWriter) (op : AddOp).

Definition op_name op : string :=
  match op with
  | AddSurface name _ _ _ => name
  | AddPressure name _ _ _ _ => name
  | AddDeferred name _ _ _ _ => name
  end.
Definition op_data op : VarData :=
  match op with
  | AddSurface _ _ _ values => SurfaceData values
  | AddPressure _ _ _ _ planes => PressureData planes
  | AddDeferred _ _ _ _ planes => PressureData planes
  end.
Definition op_meta (id : Z) op : RwsVariableMeta :=
  match op with
  | AddSurface name units sel _ =>
      {| var_meta_id := id; var_name := name; var_units := units; var_kind := "surface2d";
         var_codec := CODEC_2D; levels_hpa := []; selector := sel |}
  | AddPressure name units sel levels _ => pressure_meta id name units sel levels
  | AddDeferred name units sel levels _ => pressure_meta id name units sel levels
  end.
Definition is_deferred op : bool := match op with AddDeferred _ _ _ _ _ => true | _ => false end.

(** The shape checks of the adds; they look at the grid alone. *)
Definition op_validate op w : RwResult unit :=
  match op with
  | AddSurface _ _ _ values =>
      expected ← or_panic (checked_mul (w_nx w) (w_ny w));
      reject (negb (length values =? expected)%nat)
        (Format "variable '{}': expected {} values ({} x {}), got {}")
  | AddPressure _ _ _ levels planes => validate_pressure3d levels planes w
  | AddDeferred _ _ _ levels planes => validate_pressure3d levels planes w
  end.

Lemma stage_chunks_core l w :
  w_variables (stage_chunks l w) = w_variables w /\ deferred_variables (stage_chunks l w) = deferred_variables w.
Proof.
  unfold stage_chunks. destruct (match spill_dir w with Some _ => _ | None => _ end); [|done].
  by destruct (fold_left _ _ _).
Qed.

Lemma run_op_eq w op :
  run_op w op =
    (_ ← op_validate op w;
     vid ← next_var_id w (op_name op);
     if is_deferred op then
       _ ← reject (negb (Z.of_nat (length (deferred_variables w)) <? u16_limit))
             (Format "too many deferred variables: index for '{}' exceeds u16");
       let n := Z.of_nat (length (deferred_variables w)) in
       encoded ← encode_var (w_nx w) (w_ny w) n (Some n) (op_data op);
       Ok (set_variables (w_variables w) (deferred_variables w ++ [op_meta n op]) (stage_chunks encoded w))
     else
       encoded ← encode_var (w_nx w) (w_ny w) vid None (op_data op);
       Ok (set_variables (w_variables w ++ [op_meta vid op]) (deferred_variables w) (stage_chunks encoded w))).
Proof.
  unfold encode_var. destruct op as [name units sel values|name units sel levels planes|name units sel levels planes];
    cbn [run_op op_validate op_name is_deferred op_data op_meta].
  - unfold add_surface2d. destruct (checked_mul _ _); rrun; [|done].
    destruct (negb _); rrun; [done|]. destruct (next_var_id w name) as [vid| |]; rrun; [|done..].
    rewrite (rmap_ext _ _ _ (fun c _ => encode_tile2d_chunk (w_nx w) (w_ny w) vid values c)).
    fold (data_coords (w_nx w) (w_ny w) (SurfaceData values)).
    destruct (rmap _ _) as [l| |]; rrun; [|done..].
    by destruct (stage_chunks_core l w) as [-> ->].
  - unfold add_pressure3d, encode_pressure3d_chunks.
    destruct (validate_pressure3d levels planes w); rrun; [|done..].
    destruct (next_var_id w name) as [vid| |]; rrun; [|done..].
    rewrite (rmap_ext _ _ _ (fun c _ => encode_column_chunk (w_nx w) (w_ny w) vid None planes c)).
    fold (data_coords (w_nx w) (w_ny w) (PressureData planes)).
    destruct (rmap _ _) as [l| |]; rrun; [|done..].
    by destruct (stage_chunks_core l w) as [-> ->].
  - unfold add_pressure3d_deferred, encode_pressure3d_chunks.
    destruct (validate_pressure3d levels planes w); rrun; [|done..].
    destruct (next_var_id w name) as [vid| |]; rrun; [|done..].
    destruct (negb _); rrun; [done|].
    rewrite (rmap_ext _ _ _ (fun c _ => encode_column_chunk (w_nx w) (w_ny w) _ _ planes c)).
    fold (data_coords (w_nx w) (w_ny w) (PressureData planes)).
    destruct (rmap _ _) as [l| |]; rrun; [|done..].
    by destruct (stage_chunks_core l w) as [-> ->].
Qed.

(** ** Encoding a variable under another id *)

Definition renumbered (vid : Z) (didx : option Z) (c : StagedChunk) : StagedChunk :=
  {| record := set_var_id vid (record c); compressed := compressed c;
     spill_offset := spill_offset c; deferred_index := didx |}.

Lemma encode_var_renumber gnx gny vid didx vid' didx' d cs :
  encode_var gnx gny vid didx d = Ok cs -> encode_var gnx gny vid' didx' d = Ok (renumbered vid' didx' <$> cs).
Proof.
  unfold encode_var. intros Hr%rmap_ok_inv. apply rmap_ok_intro, Forall2_fmap_r.
  eapply Forall2_impl; [exact Hr|]. intros c ch. unfold encode_chunk. intros Hc. res_inv Hc.
  subst ch. rrun. repeat match goal with Hx : _ = Ok _ |- _ => rewrite Hx; rrun; clear Hx end. done.
Qed.

Lemma encode_chunk_key gnx gny vid didx d c ch :
  encode_chunk gnx gny vid didx d c = Ok ch ->
  chunk_key ch = (vid, data_kind d, Z.of_nat c.1 mod u32_limit, Z.of_nat c.2 mod u32_limit) /\
  deferred_index ch = didx /\ var_id (record ch) = vid.
Proof. unfold encode_chunk. intros Hc. res_inv Hc. by subst ch. Qed.
End adds.

(** ** Sequences of adds *)

Section runs.
Context `{F32Ties, External}.
Implicit Types (w : HourWriter) (op : AddOp) (ops : list AddOp).

Definition normals ops : list AddOp := filter (fun op => is_deferred op = false) ops.
Definition deferreds ops : list AddOp := filter (fun op => is_deferred op = true) ops.

(** The staged chunks of data that encodes. *)
Definition chunks_of (gnx gny : nat) (vid : Z) (didx : option Z) (d : VarData) : list StagedChunk :=
  match encode_var gnx gny vid didx d with Ok cs => cs | _ => [] end.
Definition encodes (gnx gny : nat) (d : VarData) : Prop := is_ok (encode_var gnx gny 0 None d).

Definition metas (k : nat) ops : list RwsVariableMeta := imap (fun i op => op_meta (Z.of_nat (k + i)) op) ops.
Definition staged (gnx gny k : nat) (didx : nat -> option Z) ops : list StagedChunk :=
  mjoin (imap (fun i op => chunks_of gnx gny (Z.of_nat (k + i)) (didx i) (op_data op)) ops).

(** The writer's parameters. *)
Definition same_params w0 w : Prop :=
  w_model w = w_model w0 /\ w_run w = w_run w0 /\ w_forecast_hour w = w_forecast_hour w0 /\
  w_exact_time w = w_exact_time w0 /\ w_nx w = w_nx w0 /\ w_ny w = w_ny w0 /\
  w_grid_hash w = w_grid_hash w0 /\ writer_build w = writer_build w0.

(** A writer with nothing staged and no spill file. *)
Definition fresh w : Prop :=
  w_variables w = [] /\ deferred_variables w = [] /\ chunks w = [] /\ spill_dir w = None /\ spill w = None.

(** What a run of adds leaves behind. *)
Record run_inv w0 ops w : Prop := {
  ri_params : same_params w0 w;
  ri_spill : spill_dir w = None /\ spill w = None;
  ri_vars : w_variables w = metas 0 (normals ops);
  ri_defs : deferred_variables w = metas 0 (deferreds ops);
  ri_chunks : chunks w ≡ₚ staged (w_nx w0) (w_ny w0) 0 (fun _ => None) (normals ops)
                ++ staged (w_nx w0) (w_ny w0) 0 (fun i => Some (Z.of_nat i)) (deferreds ops);
  ri_valid : Forall (fun op => op_validate op w0 = Ok tt) ops;
  ri_enc : Forall (fun op => encodes (w_nx w0) (w_ny w0) (op_data op)) ops;
  ri_names : NoDup (op_name <$> ops);
  ri_counts : Z.of_nat (length (normals ops)) <= u16_limit /\ Z.of_nat (length (deferreds ops)) <= u16_limit
}.

Lemma metas_snoc k ops op : metas k (ops ++ [op]) = metas k ops ++ [op_meta (Z.of_nat (k + length ops)) op].
Proof. unfold metas. rewrite imap_app. simpl. by rewrite Nat.add_0_r. Qed.

Lemma staged_app gnx gny k didx ops ops' :
  staged gnx gny k didx (ops ++ ops') =
    staged gnx gny k didx ops ++ staged gnx gny (k + length ops) (fun i => didx (length ops + i)%nat) ops'.
Proof.
  unfold staged. rewrite imap_app, join_app. f_equal. f_equal. apply imap_ext. intros i op _. simpl.
  by rewrite Nat.add_assoc.
Qed.

Lemma staged_snoc gnx gny k didx ops op :
  staged gnx gny k didx (ops ++ [op]) =
    staged gnx gny k didx ops ++ chunks_of gnx gny (Z.of_nat (k + length ops)) (didx (length ops)) (op_data op).
Proof. rewrite staged_app. unfold staged at 2. simpl. by rewrite !Nat.add_0_r, app_nil_r. Qed.

Lemma length_metas k ops : length (metas k ops) = length ops.
Proof. unfold metas. by rewrite length_imap. Qed.

Lemma encodes_any gnx gny d vid didx :
  encodes gnx gny d -> encode_var gnx gny vid didx d = Ok (chunks_of gnx gny vid didx d).
Proof.
  intros [cs Hcs]. unfold chunks_of. by rewrite (encode_var_renumber _ _ _ _ vid didx _ _ Hcs).
Qed.

Lemma encode_var_encodes gnx gny vid didx d cs :
  encode_var gnx gny vid didx d = Ok cs -> encodes gnx gny d /\ cs = chunks_of gnx gny vid didx d.
Proof.
  intros Hc. split.
  - exists (renumbered 0 None <$> cs). by eapply encode_var_renumber.
  - unfold chunks_of. by rewrite Hc.
Qed.

Lemma op_validate_params w0 w op : same_params w0 w -> op_validate op w = op_validate op w0.
Proof.
  intros (_ & _ & _ & _ & Hx & Hy & _). destruct op; simpl; unfold validate_pressure3d; by rewrite Hx, Hy.
Qed.

Lemma op_meta_name id op : var_name (op_meta id op) = op_name op.
Proof. by destruct op. Qed.

Lemma names_metas k ops : var_name <$> metas k ops = op_name <$> ops.
Proof.
  unfold metas. rewrite fmap_imap. revert k. induction ops as [|op ops IH]; intros k; [done|].
  rewrite imap_cons, fmap_cons. f_equal; [apply op_meta_name|].
  rewrite <- (IH (S k)). apply imap_ext. intros i x _. simpl. by rewrite Nat.add_succ_r.
Qed.

Lemma elem_of_split_ops op ops : op ∈ ops <-> op ∈ normals ops \/ op ∈ deferreds ops.
Proof.
  unfold normals, deferreds. rewrite !list_elem_of_filter. destruct (is_deferred op); intuition congruence.
Qed.

Lemma normals_snoc ops op :
  normals (ops ++ [op]) = if is_deferred op then normals ops else normals ops ++ [op].
Proof.
  unfold normals. rewrite list.filter_app. destruct (is_deferred op) eqn:Hd.
  - rewrite filter_cons_False, filter_nil, app_nil_r by congruence. done.
  - by rewrite filter_cons_True, filter_nil by done.
Qed.

Lemma deferreds_snoc ops op :
  deferreds (ops ++ [op]) = if is_deferred op then deferreds ops ++ [op] else deferreds ops.
Proof.
  unfold deferreds. rewrite list.filter_app. destruct (is_deferred op) eqn:Hd.
  - by rewrite filter_cons_True, filter_nil by done.
  - rewrite filter_cons_False, filter_nil, app_nil_r by congruence. done.
Qed.

Lemma next_var_id_spec w0 ops w name vid :
  run_inv w0 ops w ->
  next_var_id w name = Ok vid <->
  (name ∉ op_name <$> ops) /\ vid = Z.of_nat (length (normals ops)) /\ vid < u16_limit.
Proof.
  intros Hi. unfold next_var_id. rewrite (ri_vars _ _ _ Hi), (ri_defs _ _ _ Hi), length_metas.
  destruct (existsb _ _) eqn:He.
  - split; [done|]. intros [Hn _]. exfalso. apply Hn.
    apply existsb_true in He as (v & Hv & Hname). breflect.
    apply elem_of_app in Hv. apply list_elem_of_fmap.
    assert (exists op, name = op_name op /\ op ∈ normals ops ++ deferreds ops) as (op & -> & Hop).
    { destruct Hv as [Hv|Hv]; apply (list_elem_of_fmap_2 var_name) in Hv; rewrite names_metas, Hname in Hv;
        apply list_elem_of_fmap in Hv as (op & -> & Hop); exists op; split; try done; apply elem_of_app; auto. }
    exists op. split; [done|]. by apply elem_of_split_ops, elem_of_app.
  - assert (name ∉ op_name <$> ops) as Hn.
    { intros (op & -> & Hop)%list_elem_of_fmap.
      assert (exists v, v ∈ metas 0 (normals ops) ++ metas 0 (deferreds ops) /\ var_name v = op_name op) as (v & Hv & Hvn).
      { apply elem_of_split_ops in Hop as [Hop|Hop]; apply (list_elem_of_fmap_2 op_name) in Hop;
          rewrite <- (names_metas 0) in Hop; apply list_elem_of_fmap in Hop as (v & Hvn & Hv);
          exists v; (split; [apply elem_of_app; auto|done]). }
      assert (existsb (fun v => bool_decide (var_name v = op_name op))
        (metas 0 (normals ops) ++ metas 0 (deferreds ops)) = true); [|congruence].
      apply existsb_true. exists v. split; [done|]. by apply bool_decide_eq_true. }
    destruct (Z.ltb_spec (Z.of_nat (length (normals ops))) u16_limit).
    + split; [intros [= <-]; done|]. by intros (_ & -> & _).
    + split; [done|]. intros (_ & -> & ?). lia.
Qed.

Lemma run_inv_fresh w0 : fresh w0 -> run_inv w0 [] w0.
Proof.
  intros (Hv & Hd & Hc & Hsd & Hs). constructor; try done.
  - rewrite Hc. done.
  - constructor.
Qed.

Lemma stage_chunks_mem l w :
  spill_dir w = None -> spill w = None -> stage_chunks l w = set_staged (chunks w ++ l) None w.
Proof. intros Hd Hs. unfold stage_chunks. by rewrite Hd, Hs. Qed.

(** The state after one more successful add. *)
Definition after_add w op : HourWriter :=
  let n := Z.of_nat (length (if is_deferred op then deferred_variables w else w_variables w)) in
  let l := chunks_of (w_nx w) (w_ny w) n (if is_deferred op then Some n else None) (op_data op) in
  if is_deferred op
  then set_variables (w_variables w) (deferred_variables w ++ [op_meta n op]) (stage_chunks l w)
  else set_variables (w_variables w ++ [op_meta n op]) (deferred_variables w) (stage_chunks l w).

Lemma run_op_ok_iff w0 ops w op w' :
  run_inv w0 ops w ->
  run_op w op = Ok w' <->
  op_validate op w0 = Ok tt /\ encodes (w_nx w0) (w_ny w0) (op_data op) /\ (op_name op ∉ op_name <$> ops) /\
  Z.of_nat (length (normals ops)) < u16_limit /\
  (is_deferred op = true -> Z.of_nat (length (deferreds ops)) < u16_limit) /\ w' = after_add w op.
Proof.
  intros Hi. rewrite run_op_eq, (op_validate_params w0 w) by apply Hi.
  assert (length (deferred_variables w) = length (deferreds ops)) as Hdl
    by (rewrite (ri_defs _ _ _ Hi); apply length_metas).
  assert (length (w_variables w) = length (normals ops)) as Hnl
    by (rewrite (ri_vars _ _ _ Hi); apply length_metas).
  destruct (ri_params _ _ _ Hi) as (_ & _ & _ & _ & Hx & Hy & _).
  pose proof (next_var_id_spec w0 ops w (op_name op) (Z.of_nat (length (normals ops))) Hi) as Hid.
  unfold after_add. rewrite Hx, Hy. split.
  - intros Hr. destruct (op_validate op w0) as [[]| |]; rrun; simpl in Hr; [|done..].
    destruct (next_var_id w (op_name op)) as [vid| |] eqn:Hv; simpl in Hr; [|done..].
    apply (next_var_id_spec w0 ops w _ _ Hi) in Hv as (Hname & -> & Hlt).
    destruct (is_deferred op).
    + res_inv Hr. res_clean. breflect. apply encode_var_encodes in E0 as [He ->]. subst w'.
      rewrite Hdl in *. split_and!; auto.
    + res_inv Hr. apply encode_var_encodes in E as [He ->]. subst w'. rewrite Hnl. split_and!; done.
  - intros (-> & He & Hname & Hlt & Hdlt & ->). rrun.
    rewrite (proj2 Hid) by done. rrun. destruct (is_deferred op).
    + rewrite Hdl, (proj2 (Z.ltb_lt _ _)) by auto. rrun. by rewrite encodes_any by done.
    + rewrite encodes_any by done. rrun. by rewrite Hnl.
Qed.

Lemma after_add_inv w0 ops w op :
  run_inv w0 ops w -> op_validate op w0 = Ok tt -> encodes (w_nx w0) (w_ny w0) (op_data op) ->
  (op_name op ∉ op_name <$> ops) -> Z.of_nat (length (normals ops)) < u16_limit ->
  (is_deferred op = true -> Z.of_nat (length (deferreds ops)) < u16_limit) ->
  run_inv w0 (ops ++ [op]) (after_add w op).
Proof.
  intros Hi Hval Henc Hname Hlt Hdlt. destruct Hi as [Hp [Hsd Hs] Hv Hd Hc Hvs Hes Hns [Hc1 Hc2]].
  unfold after_add. rewrite stage_chunks_mem by done.
  destruct Hp as (? & ? & ? & ? & Hx & Hy & ? & ?).
  constructor; rewrite ?normals_snoc, ?deferreds_snoc; destruct (is_deferred op) eqn:Hdef;
    rewrite ?Hx, ?Hy, ?Hv, ?Hd, ?length_metas; cbn [set_variables set_staged spill_dir spill w_variables deferred_variables chunks];
    try done.
  - by rewrite metas_snoc.
  - by rewrite metas_snoc.
  - by rewrite staged_snoc, Hc, app_assoc.
  - by rewrite staged_snoc, Hc, <- !app_assoc, (Permutation_app_comm (chunks_of _ _ _ _ _)).
  - apply Forall_app. by split; [|repeat constructor].
  - apply Forall_app. by split; [|repeat constructor].
  - apply Forall_app. by split; [|repeat constructor].
  - apply Forall_app. by split; [|repeat constructor].
  - rewrite fmap_app. apply NoDup_app. split_and!; [done| |apply NoDup_singleton].
    intros x Hx1 Hx2%list_elem_of_singleton. by subst.
  - rewrite fmap_app. apply NoDup_app. split_and!; [done| |apply NoDup_singleton].
    intros x Hx1 Hx2%list_elem_of_singleton. by subst.
  - rewrite length_app. simpl. specialize (Hdlt eq_refl). lia.
  - rewrite length_app. simpl. lia.
Qed.

Lemma run_ops_inv w0 ops w : fresh w0 -> run_ops ops w0 = Ok w -> run_inv w0 ops w.
Proof.
  intros Hf. revert w. induction ops as [|op ops IH] using rev_ind; intros w Hr.
  - injection Hr as <-. by apply run_inv_fresh.
  - unfold run_ops in *. rewrite rfold_app in Hr. destruct (rfold run_op ops w0) as [w1| |]; [|done..].
    specialize (IH w1 eq_refl). cbn [mbind result_bind rfold] in Hr.
    destruct (run_op w1 op) as [w2| |] eqn:Hop; [|done..]. injection Hr as <-.
    apply (run_op_ok_iff w0 ops w1 op w2 IH) in Hop as (? & ? & ? & ? & ? & ->). by apply after_add_inv.
Qed.

(** Valid adds, none of them deferred, all succeed. *)
Lemma run_ops_normal w0 ops :
  fresh w0 -> Forall (fun op => op_validate op w0 = Ok tt) ops ->
  Forall (fun op => encodes (w_nx w0) (w_ny w0) (op_data op)) ops ->
  NoDup (op_name <$> ops) -> Forall (fun op => is_deferred op = false) ops ->
  Z.of_nat (length ops) <= u16_limit -> exists w, run_ops ops w0 = Ok w /\ run_inv w0 ops w.
Proof.
  intros Hf. induction ops as [|op ops IH] using rev_ind; intros Hv He Hn Hd Hl.
  - exists w0. split; [done|]. by apply run_inv_fresh.
  - apply Forall_app in Hv as [Hv Hv1]. apply Forall_app in He as [He He1]. apply Forall_app in Hd as [Hd Hd1].
    rewrite fmap_app in Hn. apply NoDup_app in Hn as (Hn & Hn1 & _).
    rewrite length_app in Hl. simpl in Hl.
    destruct (IH Hv He Hn Hd ltac:(lia)) as (w & Hw & Hi).
    inversion Hv1; inversion He1; inversion Hd1; subst.
    assert (length (normals ops) <= length ops)%nat by apply length_filter.
    exists (after_add w op). assert (op_name op ∉ op_name <$> ops) as Hname.
    { intros Hin. apply (Hn1 _ Hin). by apply list_elem_of_singleton. }
    split; [|apply after_add_inv; try done; [lia|congruence]].
    unfold run_ops in *. rewrite rfold_app, Hw. cbn [mbind result_bind rfold].
    rewrite (proj2 (run_op_ok_iff w0 ops w op (after_add w op) Hi)); [done|].
    split_and!; try done; [lia|congruence].
Qed.
End runs.

(** ** The canonical form of a finished file *)

Section canonical.
Context `{F32Ties, External}.
Implicit Types (w : HourWriter) (op : AddOp) (ops : list AddOp).

(** Grid dimensions whose chunk coordinates fit the index fields. *)
Definition grid_fits (gnx gny : nat) : Prop := Z.of_nat gnx <= u32_limit /\ Z.of_nat gny <= u32_limit.

(** The variables in the order of the file: deferred ones last. *)
Definition final_ops ops : list AddOp := normals ops ++ deferreds ops.
Lemma final_ops_perm ops : final_ops ops ≡ₚ ops.
Proof.
  unfold final_ops, normals, deferreds.
  induction ops as [|op ops IH]; [done|]. destruct (is_deferred op) eqn:Hd.
  - rewrite filter_cons_False by congruence. rewrite filter_cons_True by done.
    by rewrite <- Permutation_middle, IH.
  - rewrite filter_cons_True by done. rewrite filter_cons_False by congruence. simpl. by rewrite IH.
Qed.

Definition canon_chunks (gnx gny : nat) ops : list StagedChunk :=
  staged gnx gny 0 (fun _ => None) (final_ops ops).
Definition canon_meta w ops : RwsHourMeta := hour_meta w (metas 0 (final_ops ops)).

Definition data_keys (gnx gny : nat) (vid : Z) (d : VarData) : list SortKey :=
  (fun c => (vid, data_kind d, Z.of_nat c.1, Z.of_nat c.2)) <$> data_coords gnx gny d.

Lemma data_coord_fits gnx gny d c :
  grid_fits gnx gny -> c ∈ data_coords gnx gny d ->
  Z.of_nat c.1 mod u32_limit = Z.of_nat c.1 /\ Z.of_nat c.2 mod u32_limit = Z.of_nat c.2.
Proof.
  destruct c as [cy cx]. intros [Hx Hy] [H1' H2']%elem_of_grid_coords. cbn [fst snd].
  assert (0 < data_cy d /\ 0 < data_cx d)%nat as [Hcy Hcx]
    by (destruct d; simpl; unfold TILE_Y, TILE_X, COL_Y, COL_X; lia).
  apply div_ceil_lt in H1'; [|done]. apply div_ceil_lt in H2'; [|done].
  split; apply Z.mod_small; nia.
Qed.

Lemma chunks_of_keys gnx gny vid didx d :
  grid_fits gnx gny -> encodes gnx gny d ->
  chunk_key <$> chunks_of gnx gny vid didx d = data_keys gnx gny vid d.
Proof.
  intros Hg He. pose proof (encodes_any gnx gny d vid didx He) as Hc.
  apply rmap_ok_inv in Hc. unfold data_keys.
  apply (Forall2_eq_fmap (fun c k => exists ch, encode_chunk gnx gny vid didx d c = Ok ch /\ k = chunk_key ch)).
  { apply Forall2_fmap_r. refine (Forall2_impl _ _ _ _ Hc _). eauto. }
  intros c k Hin (ch & Hch & ->). apply encode_chunk_key in Hch as [-> _].
  by destruct (data_coord_fits gnx gny d c Hg Hin) as [-> ->].
Qed.

Lemma NoDup_data_keys gnx gny vid d : NoDup (data_keys gnx gny vid d).
Proof.
  unfold data_keys. apply NoDup_fmap_2_strong; [|apply NoDup_grid_coords].
  intros [y1 x1] [y2 x2] _ _ [=]. f_equal; lia.
Qed.

Lemma staged_keys_ids gnx gny k didx ops key :
  grid_fits gnx gny -> Forall (fun op => encodes gnx gny (op_data op)) ops ->
  key ∈ chunk_key <$> staged gnx gny k didx ops ->
  Z.of_nat k <= key.1.1.1 < Z.of_nat (k + length ops).
Proof.
  intros Hg. induction ops as [|op ops IH] using rev_ind; intros He Hk.
  { by apply not_elem_of_nil in Hk. }
  apply Forall_app in He as [He He1]. inversion He1; subst.
  rewrite staged_snoc, fmap_app, elem_of_app, chunks_of_keys in Hk by done. rewrite length_app. simpl.
  destruct Hk as [Hk|Hk]; [specialize (IH He Hk); lia|].
  unfold data_keys in Hk. apply list_elem_of_fmap in Hk as (c & -> & _). cbn [fst snd]. lia.
Qed.

Lemma NoDup_staged_keys gnx gny k didx ops :
  grid_fits gnx gny -> Forall (fun op => encodes gnx gny (op_data op)) ops ->
  NoDup (chunk_key <$> staged gnx gny k didx ops).
Proof.
  intros Hg. induction ops as [|op ops IH] using rev_ind; intros He; [constructor|].
  apply Forall_app in He as [He He1]. inversion He1; subst.
  rewrite staged_snoc, fmap_app. apply NoDup_app. split_and!; [by apply IH| |].
  - intros key Hk1%staged_keys_ids Hk2; [|done..]. rewrite chunks_of_keys in Hk2 by done.
    unfold data_keys in Hk2. apply list_elem_of_fmap in Hk2 as (c & -> & _). cbn [fst snd] in Hk1. lia.
  - rewrite chunks_of_keys by done. apply NoDup_data_keys.
Qed.

(** [metas] under another numbering. *)
Lemma metas_cons k op ops : metas k (op :: ops) = op_meta (Z.of_nat k) op :: metas (S k) ops.
Proof.
  unfold metas. rewrite imap_cons, Nat.add_0_r. f_equal. apply imap_ext. intros i x _. simpl.
  by rewrite Nat.add_succ_r.
Qed.

Lemma set_meta_id_op id id' op : set_meta_id id (op_meta id' op) = op_meta id op.
Proof. by destruct op. Qed.

Lemma number_deferred_from n k ops :
  let r := rmap (E := RwStoreError) (fun p : nat * RwsVariableMeta =>
    let id := Z.of_nat n + Z.of_nat p.1 in
    if id <? u16_limit then Ok (set_meta_id id p.2)
    else Err (Format "too many variables: var id for '{}' exceeds u16"))
    (zip (seq k (length ops)) (metas k ops)) in
  if Z.of_nat (n + k + length ops) <=? u16_limit then r = Ok (metas (n + k) ops)
  else (Z.of_nat (n + k) <= u16_limit)%Z -> exists e, r = Err e.
Proof.
  revert k. induction ops as [|op ops IH]; intros k; cbv zeta in *.
  { destruct (Z.leb_spec (Z.of_nat (n + k + length (@nil AddOp))) u16_limit); [done|simpl in *; lia]. }
  rewrite !metas_cons. cbn [length seq zip zip_with rmap fst snd]. specialize (IH (S k)).
  destruct (Z.ltb_spec (Z.of_nat n + Z.of_nat k) u16_limit) as [Hlt|Hge]; rrun.
  - replace (n + k + S (length ops))%nat with (n + S k + length ops)%nat by lia.
    destruct (Z.leb_spec (Z.of_nat (n + S k + length ops)) u16_limit).
    + rewrite IH. rrun.
      rewrite set_meta_id_op. do 2 f_equal; [f_equal; lia|]. by rewrite Nat.add_succ_r.
    + intros _. destruct IH as [e ->]; [lia|]. rrun. by eexists.
  - rewrite (proj2 (Z.leb_gt _ _)) by lia. intros _. by eexists.
Qed.

Lemma number_deferred_ok n ops :
  Z.of_nat (n + length ops) <= u16_limit -> number_deferred n (metas 0 ops) = Ok (metas n ops).
Proof.
  intros Hl. pose proof (number_deferred_from n 0 ops) as Hn. cbv zeta in Hn. unfold number_deferred.
  rewrite length_metas. rewrite Nat.add_0_r, (proj2 (Z.leb_le _ _) Hl) in Hn. exact Hn.
Qed.

Lemma number_deferred_inv n ops vs :
  Z.of_nat n <= u16_limit -> number_deferred n (metas 0 ops) = Ok vs -> Z.of_nat (n + length ops) <= u16_limit.
Proof.
  intros Hn Hr. pose proof (number_deferred_from n 0 ops) as Hd. cbv zeta in Hd. unfold number_deferred in Hr.
  rewrite length_metas in Hr. rewrite Nat.add_0_r in Hd.
  destruct (Z.leb_spec (Z.of_nat (n + length ops)) u16_limit); [done|].
  destruct Hd as [e He]; [done|]. congruence.
Qed.

(** Renumbering the staged chunks. *)
Definition final_chunk (n : nat) (c : StagedChunk) : StagedChunk :=
  match deferred_index c with
  | Some i => set_record (set_var_id (Z.of_nat n + i) (record c)) c
  | None => c
  end.

Lemma chunks_of_renumbered gnx gny vid didx vid' didx' d :
  encodes gnx gny d -> chunks_of gnx gny vid' didx' d = renumbered vid' didx' <$> chunks_of gnx gny vid didx d.
Proof.
  intros He. pose proof (encodes_any gnx gny d vid didx He) as Hc.
  apply (encode_var_renumber _ _ _ _ vid' didx') in Hc. unfold chunks_of at 1. by rewrite Hc.
Qed.

Lemma chunks_of_index gnx gny vid didx d c : c ∈ chunks_of gnx gny vid didx d -> deferred_index c = didx.
Proof.
  unfold chunks_of. destruct (encode_var gnx gny vid didx d) as [cs| |] eqn:Hc; [|by intros ?%not_elem_of_nil..].
  apply rmap_ok_inv in Hc. intros [i Hi]%list_elem_of_lookup.
  destruct (Forall2_lookup_r _ _ _ _ _ Hc Hi) as (x & _ & Hx). by apply encode_chunk_key in Hx as (_ & ? & _).
Qed.

Lemma staged_final gnx gny n k ops :
  Forall (fun op => encodes gnx gny (op_data op)) ops ->
  final_chunk n <$> staged gnx gny k (fun i => Some (Z.of_nat (k + i))) ops
  = staged gnx gny (n + k) (fun i => Some (Z.of_nat (k + i))) ops.
Proof.
  induction ops as [|op ops IH] using rev_ind; intros He; [done|].
  apply Forall_app in He as [He He1]. inversion He1; subst.
  rewrite !staged_snoc, fmap_app, (IH He). f_equal.
  rewrite (chunks_of_renumbered gnx gny (Z.of_nat (k + length ops)) (Some (Z.of_nat (k + length ops)))
    (Z.of_nat (n + k + length ops))) by done.
  apply list_fmap_ext. intros i c Hc%list_elem_of_lookup_2.
  apply chunks_of_index in Hc. unfold final_chunk. rewrite Hc. destruct c as [rec ? ? ?]. simpl in Hc. subst.
  unfold renumbered, set_record. simpl. do 2 f_equal. lia.
Qed.

Lemma final_chunk_normal gnx gny n k ops :
  final_chunk n <$> staged gnx gny k (fun _ => None) ops = staged gnx gny k (fun _ => None) ops.
Proof.
  induction ops as [|op ops IH] using rev_ind; [done|]. rewrite staged_snoc, fmap_app, IH. f_equal.
  rewrite <- (list_fmap_id (chunks_of _ _ _ _ _)) at 2. apply list_fmap_ext.
  intros i c Hc%list_elem_of_lookup_2%chunks_of_index. unfold final_chunk. by rewrite Hc.
Qed.

Lemma elem_of_staged gnx gny k didx ops c :
  c ∈ staged gnx gny k didx ops ->
  exists i op, ops !! i = Some op /\ c ∈ chunks_of gnx gny (Z.of_nat (k + i)) (didx i) (op_data op).
Proof.
  unfold staged. intros (l & Hc & Hl)%list_elem_of_join. apply list_elem_of_lookup in Hl as [i Hi].
  rewrite list_lookup_imap in Hi. apply fmap_Some in Hi as (op & Hop & ->). eauto.
Qed.

Lemma same_chunk_didx gnx gny vid didx didx' d :
  encodes gnx gny d ->
  Forall2 (same_chunk None None) (chunks_of gnx gny vid didx d) (chunks_of gnx gny vid didx' d).
Proof.
  intros He. rewrite (chunks_of_renumbered gnx gny vid didx vid didx') by done. apply Forall2_fmap_r.
  apply Forall_Forall2_diag, list.Forall_forall. intros c Hc. split; [|done].
  unfold chunks_of in Hc. destruct (encode_var gnx gny vid didx d) as [cs| |] eqn:Hcs; [|by apply not_elem_of_nil in Hc..].
  apply rmap_ok_inv in Hcs. apply list_elem_of_lookup in Hc as [i Hi].
  destruct (Forall2_lookup_r _ _ _ _ _ Hcs Hi) as (x & _ & Hx). apply encode_chunk_key in Hx as (_ & _ & Hid).
  destruct c as [rec ? ? ?], rec; simpl in *. by subst.
Qed.

Lemma same_staged gnx gny k didx didx' ops :
  Forall (fun op => encodes gnx gny (op_data op)) ops ->
  Forall2 (same_chunk None None) (staged gnx gny k didx ops) (staged gnx gny k didx' ops).
Proof.
  induction ops as [|op ops IH] using rev_ind; intros He; [constructor|].
  apply Forall_app in He as [He He1]. inversion He1; subst.
  rewrite !staged_snoc. apply Forall2_app; [by apply IH|]. by apply same_chunk_didx.
Qed.

Lemma same_chunk_refl sp l : Forall2 (same_chunk sp sp) l l.
Proof. induction l; by constructor. Qed.

Lemma hour_meta_params w0 w vs : same_params w0 w -> hour_meta w vs = hour_meta w0 vs.
Proof. intros (H1' & H2' & H3' & H4' & H5' & H6' & H7' & H8'). unfold hour_meta.
  by rewrite H1', H2', H3', H4', H5', H6', H7', H8'. Qed.

Lemma run_inv_encodes w0 ops w :
  run_inv w0 ops w ->
  Forall (fun op => encodes (w_nx w0) (w_ny w0) (op_data op)) (normals ops) /\
  Forall (fun op => encodes (w_nx w0) (w_ny w0) (op_data op)) (deferreds ops).
Proof.
  intros Hi. pose proof (ri_enc _ _ _ Hi) as He. rewrite list.Forall_forall in He.
  split; apply list.Forall_forall; intros op Hop; apply He, elem_of_split_ops; auto.
Qed.

Lemma metas_app k ops ops' : metas k (ops ++ ops') = metas k ops ++ metas (k + length ops) ops'.
Proof.
  unfold metas. rewrite imap_app. f_equal. apply imap_ext. intros i op _. simpl. by rewrite Nat.add_assoc.
Qed.

Lemma same_keys l l' : Forall2 (same_chunk None None) l l' -> chunk_key <$> l = chunk_key <$> l'.
Proof. induction 1 as [|c c' l l' Hc Hl IH]; [done|]. rewrite !fmap_cons, IH. f_equal. by eapply same_chunk_key. Qed.

(** [finish] writes the canonical form. *)
Lemma finish_canonical w0 ops w :
  run_inv w0 ops w -> grid_fits (w_nx w0) (w_ny w0) ->
  finish w =
    (_ ← reject ((w_nx w0 =? 0)%nat || (w_ny w0 =? 0)%nat)
          (Format "degenerate grid {}x{} (nx and ny must be nonzero)");
     _ ← reject (match w_exact_time w0 with Some t => negb (bool_decide (is_Some (origin_unix t))) | None => false end)
          (Meta "exact hour cannot represent valid_unix - lead_seconds");
     _ ← number_deferred (length (normals ops)) (metas 0 (deferreds ops));
     bytes ← assemble None (canon_meta w0 ops) (canon_chunks (w_nx w0) (w_ny w0) ops);
     Ok (bytes, canon_meta w0 ops)).
Proof.
  intros Hi Hg. destruct (run_inv_encodes w0 ops w Hi) as [Hen Hed].
  destruct (ri_params _ _ _ Hi) as (_ & _ & _ & Ht & Hx & Hy & _ & _).
  unfold finish. rewrite Hx, Hy, Ht, (ri_vars _ _ _ Hi), (ri_defs _ _ _ Hi), length_metas.
  rewrite (proj2 (ri_spill _ _ _ Hi)).
  do 2 (destruct (reject _ _) as [[]| |]; rrun; [|done..]).
  destruct (number_deferred (length (normals ops)) (metas 0 (deferreds ops))) as [vs| |] eqn:Hn; rrun; [|done..].
  pose proof (number_deferred_inv _ _ _ (proj1 (ri_counts _ _ _ Hi)) Hn) as Hl.
  rewrite number_deferred_ok in Hn by done. injection Hn as <-.
  assert (rmap (E := RwStoreError) (renumber_chunk (length (normals ops))) (chunks w)
    = Ok (final_chunk (length (normals ops)) <$> chunks w)) as ->.
  { rewrite <- rmap_pure. apply rmap_ext. intros c Hc. rewrite (ri_chunks _ _ _ Hi) in Hc.
    unfold renumber_chunk, final_chunk. apply elem_of_app in Hc as [Hc|Hc];
      apply elem_of_staged in Hc as (i & op & Hop & Hc); apply chunks_of_index in Hc; rewrite Hc; [done|].
    apply lookup_lt_Some in Hop. by rewrite (proj2 (Z.ltb_lt _ _)) by lia. }
  rrun. unfold canon_meta, canon_chunks, final_ops. rewrite metas_app, Nat.add_0_l.
  rewrite (hour_meta_params w0 w) by apply Hi.
  assert (final_chunk (length (normals ops)) <$> chunks w ≡ₚ
    staged (w_nx w0) (w_ny w0) 0 (fun _ => None) (normals ops) ++
    staged (w_nx w0) (w_ny w0) (length (normals ops)) (fun i => Some (Z.of_nat i)) (deferreds ops)) as Hperm.
  { rewrite (ri_chunks _ _ _ Hi), fmap_app, final_chunk_normal.
    pose proof (staged_final (w_nx w0) (w_ny w0) (length (normals ops)) 0 (deferreds ops) Hed) as Hf.
    rewrite Nat.add_0_r in Hf. cbn [Nat.add] in Hf. by rewrite Hf. }
  assert (Forall2 (same_chunk None None)
    (staged (w_nx w0) (w_ny w0) 0 (fun _ => None) (normals ops) ++
     staged (w_nx w0) (w_ny w0) (length (normals ops)) (fun i => Some (Z.of_nat i)) (deferreds ops))
    (staged (w_nx w0) (w_ny w0) 0 (fun _ => None) (normals ops ++ deferreds ops))) as Hrel.
  { rewrite staged_app, Nat.add_0_l. apply Forall2_app; [apply same_chunk_refl|]. by apply same_staged. }
  rewrite <- (assemble_rel None None _ _ _ Hrel).
  assert (NoDup (chunk_key <$> (final_chunk (length (normals ops)) <$> chunks w))) as Hnd.
  { rewrite Hperm, (same_keys _ _ Hrel). apply NoDup_staged_keys; [done|]. by apply Forall_app. }
  by rewrite (assemble_perm None _ _ _ Hnd Hperm).
Qed.

(** ** Deferred adds *)

(** The same add without deferring it. *)
Definition undefer op : AddOp :=
  match op with
  | AddDeferred name units sel levels planes => AddPressure name units sel levels planes
  | _ => op
  end.
(** The schedule with every deferred variable added last, in order. *)
Definition deferred_last ops : list AddOp := normals ops ++ (undefer <$> deferreds ops).

Lemma undefer_not_deferred op : is_deferred (undefer op) = false.
Proof. by destruct op. Qed.

Lemma normals_deferred_last ops : normals (deferred_last ops) = deferred_last ops /\ deferreds (deferred_last ops) = [].
Proof.
  assert (forall l : list AddOp, Forall (fun op => is_deferred op = false) l -> normals l = l /\ deferreds l = []) as Hall.
  { intros l Hl. unfold normals, deferreds. induction Hl as [|op l Hop Hl [IH1 IH2]]; [done|].
    rewrite filter_cons_True, IH1 by done. rewrite filter_cons_False, IH2 by congruence. done. }
  apply Hall. apply Forall_app. split.
  - apply list.Forall_forall. by intros op [Hop _]%list_elem_of_filter.
  - apply Forall_fmap, list.Forall_forall. intros op _. apply undefer_not_deferred.
Qed.

Lemma undefer_op op : op_name (undefer op) = op_name op /\ op_data (undefer op) = op_data op /\
  (forall id, op_meta id (undefer op) = op_meta id op) /\ (forall w, op_validate (undefer op) w = op_validate op w).
Proof. by destruct op. Qed.

Lemma canon_undefer w0 ops :
  canon_meta w0 (deferred_last ops) = canon_meta w0 ops /\
  canon_chunks (w_nx w0) (w_ny w0) (deferred_last ops) = canon_chunks (w_nx w0) (w_ny w0) ops.
Proof.
  unfold canon_meta, canon_chunks, final_ops. destruct (normals_deferred_last ops) as [-> ->].
  rewrite app_nil_r. unfold deferred_last. split.
  - f_equal. rewrite !metas_app. f_equal. unfold metas. rewrite imap_fmap. apply imap_ext.
    intros i op _. simpl. apply undefer_op.
  - rewrite !staged_app. f_equal. unfold staged. f_equal. rewrite imap_fmap. apply imap_ext.
    intros i op _. simpl. by destruct (undefer_op op) as (_ & -> & _).
Qed.

Lemma deferred_last_perm ops : op_name <$> deferred_last ops ≡ₚ op_name <$> ops.
Proof.
  unfold deferred_last. rewrite fmap_app, <- list_fmap_compose.
  replace (op_name ∘ undefer <$> deferreds ops) with (op_name <$> deferreds ops)
    by (apply list_fmap_ext; intros i op _; symmetry; apply undefer_op).
  rewrite <- fmap_app. apply Permutation_map, final_ops_perm.
Qed.

Lemma deferred_last_forall (P : AddOp -> Prop) ops :
  (forall op, P op -> P (undefer op)) -> Forall P ops -> Forall P (deferred_last ops).
Proof.
  intros HP Hops. rewrite list.Forall_forall in Hops. apply Forall_app. split.
  - apply list.Forall_forall. intros op [_ Hop]%list_elem_of_filter. auto.
  - apply Forall_fmap, list.Forall_forall. intros op [_ Hop]%list_elem_of_filter. simpl. auto.
Qed.

Lemma deferred_last_same_file w0 ops out :
  fresh w0 -> grid_fits (w_nx w0) (w_ny w0) ->
  (w ← run_ops ops w0; finish w) = Ok out -> (w ← run_ops (deferred_last ops) w0; finish w) = Ok out.
Proof.
  intros Hf Hg Hr. destruct (run_ops ops w0) as [w| |] eqn:Hw; simpl in Hr; [|done..].
  pose proof (run_ops_inv w0 ops w Hf Hw) as Hi. rewrite (finish_canonical w0 ops w Hi Hg) in Hr.
  destruct (number_deferred (length (normals ops)) (metas 0 (deferreds ops))) as [vs| |] eqn:Hn;
    [|by repeat (destruct (reject _ _) as [[]| |]; simpl in Hr)..].
  pose proof (number_deferred_inv _ _ _ (proj1 (ri_counts _ _ _ Hi)) Hn) as Hl.
  destruct (run_ops_normal w0 (deferred_last ops) Hf) as (w' & Hw' & Hi').
  - apply deferred_last_forall; [|apply Hi]. intros op Hop. by destruct (undefer_op op) as (_ & _ & _ & ->).
  - apply deferred_last_forall; [|apply Hi]. intros op Hop. by destruct (undefer_op op) as (_ & -> & _).
  - rewrite deferred_last_perm. apply Hi.
  - apply Forall_app. split.
    + apply list.Forall_forall. by intros op [Hop _]%list_elem_of_filter.
    + apply Forall_fmap, list.Forall_forall. intros op _. apply undefer_not_deferred.
  - unfold deferred_last. by rewrite length_app, length_fmap.
  - rewrite Hw'. rrun. rewrite (finish_canonical w0 _ w' Hi' Hg).
    destruct (canon_undefer w0 ops) as [-> ->]. destruct (normals_deferred_last ops) as [-> ->].
    exact Hr.
Qed.
End canonical.

(** ** Sizes of encoded chunks *)

Section sizes.
Context `{F32Ties, External}.
Implicit Types (w : HourWriter) (op : AddOp) (ops : list AddOp).

Definition op_levels op : list Z :=
  match op with
  | AddSurface _ _ _ _ => []
  | AddPressure _ _ _ levels _ => levels
  | AddDeferred _ _ _ levels _ => levels
  end.
(** Levels are [u16] values. *)
Definition op_typed op : Prop := Forall (in_width u16_limit) (op_levels op).

Lemma op_validate_data op w :
  op_validate op w = Ok tt ->
  data_ok (w_nx w) (w_ny w) (op_data op) /\
  match op_data op with
  | SurfaceData _ => op_levels op = []
  | PressureData planes => length planes = length (op_levels op) /\ op_levels op <> [] /\
      existsb (fun p => p.1 <=? p.2) (windows2 (op_levels op)) = false
  end.
Proof.
  assert (forall levels planes, validate_pressure3d levels planes w = Ok tt ->
    Forall (fun plane => length plane = (w_nx w * w_ny w)%nat) planes /\ length planes = length levels /\
    levels <> [] /\ existsb (fun p => p.1 <=? p.2) (windows2 levels) = false) as Hp.
  { intros levels planes Hv. unfold validate_pressure3d in Hv. res_inv Hv. res_clean. breflect. subst.
    split_and!; try done. apply list.Forall_forall. intros plane Hin.
    destruct (decide (length plane = (w_nx w * w_ny w)%nat)) as [|Hne]; [done|].
    match goal with He : existsb _ planes = false |- _ => rewrite (proj2 (existsb_true _ _)) in He; [done|] end.
    exists plane. split; [done|]. apply negb_true_iff. by apply Nat.eqb_neq. }
  destruct op as [name units sel values|name units sel levels planes|name units sel levels planes]; simpl.
  - intros Hv. res_inv Hv. res_clean. breflect. subst. done.
  - intros (? & ? & ? & ?)%Hp. done.
  - intros (? & ? & ? & ?)%Hp. done.
Qed.

(** Strictly descending [u16] levels: at most 65536 of them. *)
Lemma descending_length (l : list Z) :
  existsb (fun p => p.1 <=? p.2) (windows2 l) = false -> Forall (in_width u16_limit) l ->
  Z.of_nat (length l) <= u16_limit.
Proof.
  intros Hd Hw. assert (match l with [] => True | a :: _ => Z.of_nat (length l) <= a + 1 end) as Hb.
  { induction l as [|a [|b l] IH]; [done|..].
    - inversion Hw as [|? ? [? ?]]; subst. simpl. lia.
    - cbn [windows2 existsb fst snd] in Hd. apply orb_false_iff in Hd as [Hab Hd]. apply Z.leb_gt in Hab.
      inversion Hw; subst. specialize (IH Hd ltac:(done)). simpl in *. lia. }
  destruct l as [|a l]; [done|]. inversion Hw as [|? ? [? ?]]; subst. lia.
Qed.

(** Everything a staged chunk is made of. *)
Lemma encode_chunk_inv gnx gny vid didx d c ch :
  encode_chunk gnx gny vid didx d c = Ok ch ->
  exists values ec, gather gnx gny d c = Ok values /\ encode_values d values = Ok ec /\
    compress_payload (payload ec) = Ok (compressed ch) /\
    record ch = make_record vid (data_kind d) c.1 c.2 (compressed ch) ec /\
    spill_offset ch = 0 /\ deferred_index ch = didx.
Proof. unfold encode_chunk. intros Hc. res_inv Hc. subst ch. eexists _, _. by split_and!. Qed.

Definition data_width (d : VarData) : nat := match d with SurfaceData _ => 4 | PressureData _ => 2 end.

Lemma encode_values_shape d values ec :
  encode_values d values = Ok ec -> chunk_shape (data_width d) (length values) ec.
Proof.
  destruct d; simpl; [intros [= <-]; apply encode_f32_shape|apply encode_affine_shape].
Qed.

Lemma encode_values_count d values ec :
  encode_values d values = Ok ec -> 0 <= ec_valid_count ec <= Z.of_nat (length values).
Proof.
  destruct d; simpl; [intros [= <-]; apply encode_f32_count|apply encode_affine_count].
Qed.

Lemma payload_bound d values ec :
  encode_values d values = Ok ec -> (length (payload ec) <= length values * data_width d)%nat.
Proof.
  intros [[_ ->]|(_ & -> & _)]%encode_values_shape; simpl; lia.
Qed.

Lemma compress_payload_bound `{!ExternalLaws} bytes comp :
  compress_payload bytes = Ok comp -> (length comp <= length bytes + length bytes / 256 + 64)%nat.
Proof.
  unfold compress_payload. case_bool_decide; [intros [= <-]; simpl; lia|]. apply zstd_bound.
Qed.

Lemma gather_length gnx gny d c values :
  data_ok gnx gny d -> c ∈ data_coords gnx gny d -> gather gnx gny d c = Ok values ->
  length values = (data_rows gny d c.1 * (data_cols gnx d c.2 * data_levels d))%nat.
Proof.
  destruct c as [cy cx]. intros Hd Hc Hg. destruct (gather_ok gnx gny d cy cx Hd Hc) as (v & Hv & Hl & _).
  rewrite Hg in Hv. by injection Hv as <-.
Qed.

Lemma chunk_value_bound gnx gny d c values :
  data_ok gnx gny d -> c ∈ data_coords gnx gny d -> gather gnx gny d c = Ok values ->
  Z.of_nat (length values * data_width d) <= 262144 + 512 * Z.of_nat (data_levels d).
Proof.
  intros Hd Hc Hg. rewrite (gather_length gnx gny d c values Hd Hc Hg).
  assert (data_rows gny d c.1 <= data_cy d /\ data_cols gnx d c.2 <= data_cx d)%nat as [H1' H2']
    by (unfold data_rows, data_cols; lia).
  pose proof (Nat.mul_le_mono _ _ _ _ H1' H2') as Harea. rewrite Nat.mul_assoc.
  destruct d; cbn [data_cy data_cx data_levels data_width] in *; unfold TILE_Y, TILE_X, COL_Y, COL_X in *; nia.
Qed.

Lemma encode_var_lengths `{!ExternalLaws} gnx gny vid didx d cs :
  data_ok gnx gny d -> Z.of_nat (data_levels d) <= u16_limit ->
  encode_var gnx gny vid didx d = Ok cs -> Forall (fun c => len (record c) = Z.of_nat (length (compressed c))) cs.
Proof.
  intros Hd Hlv Hr%rmap_ok_inv. apply list.Forall_forall. intros ch [i Hi]%list_elem_of_lookup.
  destruct (Forall2_lookup_r _ _ _ _ _ Hr Hi) as (c & Hc & Hch). apply list_elem_of_lookup_2 in Hc.
  apply encode_chunk_inv in Hch as (values & ec & Hg & He & Hcomp & -> & _).
  cbn [make_record len]. apply Z.mod_small.
  apply compress_payload_bound in Hcomp. apply payload_bound in He.
  pose proof (chunk_value_bound gnx gny d c values Hd Hc Hg).
  pose proof (Nat.Div0.div_le_upper_bound (length (payload ec)) 256 (length (payload ec)) ltac:(lia)).
  unfold u16_limit, u32_limit in *. lia.
Qed.
End sizes.

(** ** Spilling *)

Section spill.
Context `{F32Ties, External}.
Implicit Types (w : HourWriter) (op : AddOp) (ops : list AddOp).

(** The recorded length is the payload's. *)
Definition length_recorded (c : StagedChunk) : Prop := len (record c) = Z.of_nat (length (compressed c)).

(** Chunk [c'] is [c] with its payload moved to the spill file. *)
Definition spilled (sp : SpillFile) (c c' : StagedChunk) : Prop :=
  record c = record c' /\ deferred_index c = deferred_index c' /\ length_recorded c /\
  0 <= spill_offset c' /\
  spill_read sp (spill_offset c') (length (compressed c)) = Ok (compressed c).

Definition cursor_ok (sp : SpillFile) : Prop := cursor sp = Z.of_nat (length (spill_content sp)).

Record spill_sim w w' : Prop := {
  ss_params : same_params w w';
  ss_vars : w_variables w' = w_variables w;
  ss_defs : deferred_variables w' = deferred_variables w;
  ss_mem : spill_dir w = None /\ spill w = None;
  ss_dir : is_Some (spill_dir w');
  ss_chunks : match spill w' with
              | None => chunks w = [] /\ chunks w' = []
              | Some sp => cursor_ok sp /\ Forall2 (spilled sp) (chunks w) (chunks w')
              end
}.

Lemma spill_read_app sp off n bytes b :
  spill_read sp off n = Ok bytes ->
  spill_read {| spill_content := spill_content sp ++ b; cursor := cursor sp + Z.of_nat (length b) |} off n = Ok bytes.
Proof.
  unfold spill_read. cbn [spill_content]. case_bool_decide; [|done]. intros [= <-].
  rewrite bool_decide_eq_true_2 by (rewrite length_app; lia). f_equal.
  rewrite drop_app_le, take_app_le by (rewrite ?length_drop; lia). done.
Qed.

Lemma spill_read_last sp b :
  cursor_ok sp ->
  spill_read {| spill_content := spill_content sp ++ b; cursor := cursor sp + Z.of_nat (length b) |}
    (cursor sp) (length b) = Ok b.
Proof.
  unfold spill_read, cursor_ok. intros ->. cbn [spill_content]. rewrite Nat2Z.id, length_app.
  rewrite bool_decide_eq_true_2 by lia. f_equal. rewrite drop_app_length. by apply take_ge.
Qed.

Lemma spill_chunks l sp cs cs' :
  cursor_ok sp -> Forall2 (spilled sp) cs cs' -> Forall length_recorded l ->
  let '(sp', cs'') := fold_left spill_chunk l (sp, cs') in
  cursor_ok sp' /\ Forall2 (spilled sp') (cs ++ l) cs''.
Proof.
  revert sp cs cs'. induction l as [|c l IH]; intros sp cs cs' Hsp Hcs Hl; cbn [fold_left].
  { by rewrite app_nil_r. }
  apply list.Forall_cons in Hl as [Hc Hl]. unfold spill_chunk at 2. cbn [spill_append fst snd].
  set (sp1 := {| spill_content := spill_content sp ++ compressed c; cursor := _ |}).
  set (c' := {| record := record c; compressed := []; spill_offset := cursor sp; deferred_index := deferred_index c |}).
  specialize (IH sp1 (cs ++ [c]) (cs' ++ [c'])). rewrite <- app_assoc in IH. apply IH; [| |done].
  - unfold cursor_ok in *. simpl. rewrite length_app, Hsp. lia.
  - apply Forall2_app.
    + eapply Forall2_impl; [exact Hcs|]. intros a a' (? & ? & ? & ? & ?). split_and!; [done..|]. by apply spill_read_app.
    + constructor; [|constructor]. split_and!; [done..| |by apply spill_read_last].
      simpl. rewrite Hsp. lia.
Qed.

Lemma stage_chunks_sim l w w' :
  spill_sim w w' -> Forall length_recorded l -> spill_sim (stage_chunks l w) (stage_chunks l w').
Proof.
  intros [Hp Hv Hd [Hsd Hs] [d Hdir] Hc] Hl. rewrite stage_chunks_mem by done.
  unfold stage_chunks. rewrite Hdir.
  assert (exists sp, (match spill w' with None => Some spill_create | Some sp => Some sp end) = Some sp /\
    cursor_ok sp /\ Forall2 (spilled sp) (chunks w) (chunks w')) as (sp & Hsp & Hcur & Hall).
  { destruct (spill w') as [sp|]; [by exists sp; destruct Hc|]. destruct Hc as [-> ->].
    exists spill_create. split_and!; [done..|constructor]. }
  rewrite Hsp.
  pose proof (spill_chunks l sp (chunks w) (chunks w') Hcur Hall Hl) as Hf.
  destruct (fold_left spill_chunk l (sp, chunks w')) as [sp' cs''].
  constructor; simpl; try done.
Qed.

Lemma set_variables_sim vs ds w w' :
  spill_sim w w' -> spill_sim (set_variables vs ds w) (set_variables vs ds w').
Proof. intros [Hp Hv Hd Hm Hdir Hc]. by constructor. Qed.

(** A simulation that also relates the failures. *)
Definition result_sim {A B} (R : A -> B -> Prop) (x : RwResult A) (y : RwResult B) : Prop :=
  match x, y with
  | Ok a, Ok b => R a b
  | Err e, Err e' => e = e'
  | Panic, Panic => True
  | _, _ => False
  end.

Definition records_lengths (gnx gny : nat) op : Prop :=
  forall w vid didx cs, w_nx w = gnx -> w_ny w = gny -> op_validate op w = Ok tt ->
    encode_var gnx gny vid didx (op_data op) = Ok cs -> Forall length_recorded cs.

Lemma run_op_sim w w' op :
  spill_sim w w' -> records_lengths (w_nx w) (w_ny w) op -> result_sim spill_sim (run_op w op) (run_op w' op).
Proof.
  intros Hs Hl. rewrite !run_op_eq. destruct (ss_params _ _ Hs) as (_ & _ & _ & _ & Hx & Hy & _).
  rewrite (op_validate_params w w' op) by apply Hs.
  assert (forall name, next_var_id w' name = next_var_id w name) as Hid.
  { intros name. unfold next_var_id. by rewrite (ss_vars _ _ Hs), (ss_defs _ _ Hs). }
  rewrite Hid, (ss_vars _ _ Hs), (ss_defs _ _ Hs), Hx, Hy.
  destruct (op_validate op w) as [[]| |] eqn:Hval; rrun; [|done..].
  destruct (next_var_id w (op_name op)); rrun; [|done..].
  destruct (is_deferred op).
  - destruct (reject _ _); rrun; [|done..]. cbv zeta.
    destruct (encode_var _ _ _ _ _) as [cs| |] eqn:Hc; rrun; [|done..]. simpl.
    apply set_variables_sim, stage_chunks_sim; [done|]. by eapply (Hl w).
  - destruct (encode_var _ _ _ _ _) as [cs| |] eqn:Hc; rrun; [|done..]. simpl.
    apply set_variables_sim, stage_chunks_sim; [done|]. by eapply (Hl w).
Qed.

Lemma run_op_params w op w' : run_op w op = Ok w' -> w_nx w' = w_nx w /\ w_ny w' = w_ny w.
Proof.
  rewrite run_op_eq. intros Hr. res_inv Hr; subst w'; cbn [set_variables w_nx w_ny];
    unfold stage_chunks; destruct (match spill_dir w with Some _ => _ | None => _ end); [|done| |done];
    by destruct (fold_left _ _ _).
Qed.

Lemma run_ops_sim w w' ops :
  spill_sim w w' -> Forall (records_lengths (w_nx w) (w_ny w)) ops ->
  result_sim spill_sim (run_ops ops w) (run_ops ops w').
Proof.
  revert w w'. induction ops as [|op ops IH]; intros w w' Hs Hl; [done|].
  apply list.Forall_cons in Hl as [Hop Hl]. unfold run_ops in *. cbn [rfold].
  pose proof (run_op_sim w w' op Hs Hop) as Hr.
  destruct (run_op w op) as [w1| |] eqn:H1', (run_op w' op) as [w1'| |]; try done; rrun.
  apply IH; [done|]. by destruct (run_op_params w op w1 H1') as [-> ->].
Qed.

Lemma spilled_same sp c c' : spilled sp c c' -> same_chunk None (Some sp) c c'.
Proof.
  intros (Hr & _ & Hlen & Hoff & Hread). split; [done|]. unfold chunk_payload, length_recorded in *.
  rewrite <- Hr, Hlen. destruct (Z.eqb_spec (Z.of_nat (length (compressed c))) 0); [done|].
  by rewrite Nat2Z.id, Hread.
Qed.

Lemma renumber_same n c c' sp :
  spilled sp c c' ->
  result_sim (same_chunk None (Some sp)) (renumber_chunk n c) (renumber_chunk n c').
Proof.
  intros Hc. pose proof (spilled_same sp c c' Hc) as [Hr Hp]. destruct Hc as (_ & Hd & _).
  unfold renumber_chunk. rewrite <- Hd. destruct (deferred_index c); [|done].
  destruct (_ <? _); [|done]. simpl. split; [simpl; by rewrite Hr|].
  unfold chunk_payload in *. simpl in *. by rewrite Hr in *.
Qed.

Lemma rmap_sim {A B} (f : A -> RwResult B) (g : A -> RwResult B) (R : A -> A -> Prop) (Q : B -> B -> Prop) l l' :
  (forall a b, R a b -> result_sim Q (f a) (g b)) -> Forall2 R l l' ->
  result_sim (Forall2 Q) (rmap f l) (rmap g l').
Proof.
  intros Hfg. induction 1 as [|a b l l' Hab Hl IH]; cbn [rmap]; [constructor|].
  pose proof (Hfg a b Hab) as Hr. destruct (f a), (g b); try done; rrun.
  destruct (rmap f l), (rmap g l'); try done. simpl in *. by constructor.
Qed.

(** The spill file does not show in the output. *)
Lemma finish_sim w w' : spill_sim w w' -> finish w' = finish w.
Proof.
  intros Hs. pose proof Hs as [Hp Hv Hd [Hsd Hsp] Hdir Hc]. pose proof Hp as (_ & _ & _ & Ht & Hx & Hy & _).
  unfold finish. rewrite Hv, Hd, Ht, Hx, Hy, Hsp.
  do 2 (destruct (reject _ _); rrun; [|done..]).
  destruct (number_deferred _ _); rrun; [|done..].
  rewrite (hour_meta_params w w' _ Hp).
  destruct (spill w') as [sp|].
  - destruct Hc as [Hcur Hall].
    pose proof (rmap_sim _ _ _ _ _ _ (fun a b => renumber_same (length (w_variables w)) a b sp) Hall) as Hr.
    destruct (rmap _ (chunks w)), (rmap _ (chunks w')); simpl in Hr; try done; [|by subst].
    rrun. by rewrite (assemble_rel _ _ _ _ _ Hr).
  - by destruct Hc as [-> ->].
Qed.

Lemma spill_sim_fresh w dir : fresh w -> spill_sim w (with_spill_dir dir w).
Proof.
  intros (Hv & Hd & Hc & Hsd & Hs). constructor; simpl; try done. by rewrite Hs.
Qed.

Lemma spill_same_file w0 dir ops :
  fresh w0 -> Forall (records_lengths (w_nx w0) (w_ny w0)) ops ->
  (w ← run_ops ops (with_spill_dir dir w0); finish w) = (w ← run_ops ops w0; finish w).
Proof.
  intros Hf Hl. pose proof (run_ops_sim w0 _ ops (spill_sim_fresh w0 dir Hf) Hl) as Hr.
  destruct (run_ops ops w0), (run_ops ops (with_spill_dir dir w0)); simpl in Hr; try done; rrun; [|by subst].
  by apply finish_sim.
Qed.

Lemma records_lengths_ok `{!ExternalLaws} gnx gny op : op_typed op -> records_lengths gnx gny op.
Proof.
  intros Ht w vid didx cs <- <- [Hd Hlv]%op_validate_data Hc. eapply encode_var_lengths; [exact Hd| |exact Hc].
  destruct (op_data op) as [|planes]; [done|]. destruct Hlv as (Hl & _ & Hdesc). simpl. rewrite Hl.
  by apply descending_length.
Qed.
End spill.

(** ** Properties *)

Lemma fresh_new `{JsonValue} mdl rn hr t gnx gny hash build : fresh (new_with_time mdl rn hr t gnx gny hash build).
Proof. done. Qed.

(** C32: spilling is invisible: a writer that spills its chunks to a
    temporary file finishes with the same bytes and metadata as one that
    keeps them in memory, and fails with the same error when that one does. *)
Theorem spilling_keeps_bytes `{F32Ties, External} (Hlaws : ExternalLaws) mdl rn hr t gnx gny hash build dir ops :
  Forall op_typed ops ->
  let w0 := new_with_time mdl rn hr t gnx gny hash build in
  (w ← run_ops ops (with_spill_dir dir w0); finish w) = (w ← run_ops ops w0; finish w).
Proof.
  intros Ht w0. apply spill_same_file; [apply fresh_new|].
  eapply Forall_impl; [exact Ht|]. intros op. apply records_lengths_ok.
Qed.

Lemma sample_typed : Forall op_typed sample_ops.
Proof. repeat constructor; done. Qed.

Lemma spilling_keeps_bytes_witness :
  (w ← run_ops sample_ops (with_spill_dir "spill" sample_writer); finish w) = Ok (sample_file, sample_meta).
Proof.
  etransitivity.
  - exact (spilling_keeps_bytes table_laws "hrrr" "20260101_00z" 3 None 3 2 "hash" "build" "spill"
      sample_ops sample_typed).
  - vm_compute. reflexivity.
Defined.

(** Deferring is adding last: a run whose pressure variables are partly
    deferred writes the same bytes and metadata as the run that adds every
    deferred variable after all the others, in order of deferral. *)
Theorem deferred_adds_come_last `{F32Ties, External} mdl rn hr t gnx gny hash build ops out :
  grid_fits gnx gny ->
  let w0 := new_with_time mdl rn hr t gnx gny hash build in
  (w ← run_ops ops w0; finish w) = Ok out -> (w ← run_ops (deferred_last ops) w0; finish w) = Ok out.
Proof. intros Hg w0. apply deferred_last_same_file; [apply fresh_new|done]. Qed.

(** The sample hour with its pressure variable deferred: its id becomes 2. *)
Definition deferred_ops : list AddOp :=
  [AddSurface "t2m" "K" tt sample_values;
   AddDeferred "flat" "1" tt [700] [replicate 6 f32_one];
   AddPressure "tmp" "K" tt [850; 500] sample_planes].

Lemma deferred_adds_come_last_witness : exists out,
  (w ← run_ops (deferred_last deferred_ops) sample_writer; finish w) = Ok out.
Proof.
  eexists. apply (deferred_adds_come_last "hrrr" "20260101_00z" 3 None 3 2 "hash" "build" deferred_ops).
  - done.
  - vm_compute. reflexivity.
Defined.

(** Switching to a spill file after chunks were staged in memory makes
    [finish] read the earlier chunks from the wrong place. *)
Lemma late_spill_corrupts :
  exists bytes, (w ← run_ops (take 1 sample_ops) sample_writer;
                 w ← run_ops (drop 1 sample_ops) (with_spill_dir "spill" w); finish w) = Ok (bytes, sample_meta) /\
    bytes <> sample_file.
Proof.
  eexists. split; [vm_compute; reflexivity|]. vm_compute. discriminate.
Qed.
