(* ===== verification/RoundTrip.v ===== *)
(** * Write, open, read

    The end-to-end theorem of the store: within the format's limits the file
    [HourWriter::finish] assembles is accepted by [HourReader::open], its
    index lists the chunks of every variable, and the payload of each chunk
    is the one that was encoded. *)
From stdpp Require Import base list gmap strings numbers sorting.
From Stdlib Require Import ZArith Lia.
From S2P Require Import Prelude F32 Format Header Index Codec TileCache Writer Reader Concrete Opened Assembly.

Local Open Scope Z_scope.

(** ** Offsets and payload bytes *)

Section offsets.

(** Total recorded length. *)
Definition total_len (l : list StagedChunk) : Z := foldr (fun c acc => len (record c) + acc) 0 l.

Lemma total_len_app l l' : total_len (l ++ l') = total_len l + total_len l'.
Proof. induction l as [|c l IH]; simpl; [done|]. unfold total_len in *. rewrite IH. lia. Qed.

Lemma lookup_assign_offsets cur l i c :
  assign_offsets cur l !! i = Some c <->
  exists c0, l !! i = Some c0 /\ c = set_record (set_offset (cur + total_len (take i l)) (record c0)) c0.
Proof.
  revert cur i. induction l as [|d l IH]; intros cur [|i]; simpl.
  - split; [done|by intros (? & ? & _)].
  - split; [done|by intros (? & ? & _)].
  - rewrite Z.add_0_r. split; [intros [= <-]; eauto|by intros (? & [= <-] & ->)].
  - rewrite IH. unfold total_len. simpl. by setoid_rewrite Z.add_assoc.
Qed.

Lemma length_assign_offsets cur l : length (assign_offsets cur l) = length l.
Proof. revert cur. induction l as [|c l IH]; intros cur; simpl; auto. Qed.

Lemma chunk_key_offset off c : chunk_key (set_record (set_offset off (record c)) c) = chunk_key c.
Proof. done. Qed.

(** The index section is the records one after the other. *)
Lemma record_buf_bind l buf :
  fold_left (fun buf c => pack_into (record c) buf) l buf
  = buf ++ (record <$> l) ≫= (fun r => pack_into r []).
Proof.
  revert buf. induction l as [|c l IH]; intros buf; simpl fold_left.
  - by rewrite app_nil_r.
  - rewrite IH, fmap_cons, bind_cons, pack_into_app. by rewrite <- app_assoc.
Qed.

(** Piece [i] of a concatenation of equally long pieces. *)
Lemma slice_bind_const {E A B} (f : A -> list B) n l i a pre post :
  (forall a, length (f a) = n) -> l !! i = Some a ->
  slice (E := E) (pre ++ (l ≫= f) ++ post) (length pre + i * n) (length pre + i * n + n) = Ok (f a).
Proof.
  intros Hn Hi. apply list_elem_of_split_length in Hi as (l1 & l2 & -> & ->).
  rewrite bind_app, bind_cons, <- !app_assoc, app_assoc.
  apply slice_app_exact; rewrite !length_app, (length_bind_const n), ?Hn by done; lia.
Qed.
End offsets.

(** The payloads in memory, one after the other. *)
Section payloads.
Implicit Types (l : list StagedChunk).

Lemma mjoin_cons {A} (x : list A) xs : mjoin (x :: xs) = x ++ mjoin xs.
Proof. done. Qed.

Definition bytes_of (c : StagedChunk) : list byte := if len (record c) =? 0 then [] else compressed c.

Lemma payloads_memory l : rmap (chunk_payload None) l = Ok (bytes_of <$> l).
Proof.
  rewrite <- rmap_pure. apply rmap_ext. intros c _. unfold chunk_payload, bytes_of. by destruct (_ =? _).
Qed.

Lemma length_bytes_of c : length_recorded c -> Z.of_nat (length (bytes_of c)) = len (record c).
Proof.
  unfold length_recorded, bytes_of. intros Hc. destruct (Z.eqb_spec (len (record c)) 0) as [He|]; [by rewrite He|].
  by rewrite Hc.
Qed.

Lemma length_join_bytes l :
  Forall length_recorded l -> Z.of_nat (length (mjoin (bytes_of <$> l))) = total_len l.
Proof.
  induction 1 as [|c l Hc Hl IH]; [done|]. rewrite fmap_cons. rewrite mjoin_cons.
  rewrite length_app, Nat2Z.inj_add, IH, length_bytes_of by done. done.
Qed.

Lemma total_len_take l i : Forall length_recorded l -> 0 <= total_len (take i l) /\
  (forall c, l !! i = Some c -> total_len (take i l) + len (record c) <= total_len l).
Proof.
  intros Hl. assert (forall k, Forall length_recorded k -> 0 <= total_len k) as Hpos.
  { induction 1 as [|c k Hc Hk IH]; simpl; [done|]. unfold length_recorded in Hc. unfold total_len in *. lia. }
  split; [by apply Hpos, Forall_take|]. intros c Hc.
  rewrite <- (take_drop_middle l i c Hc) at 2. rewrite total_len_app. simpl.
  pose proof (Hpos (drop (S i) l) (Forall_drop _ _ _ Hl)). unfold total_len at 3. simpl. fold (total_len (drop (S i) l)). lia.
Qed.

Lemma slice_payload {E} l i c pre :
  Forall length_recorded l -> l !! i = Some c ->
  slice (E := E) (pre ++ mjoin (bytes_of <$> l)) (Z.to_nat (Z.of_nat (length pre) + total_len (take i l)))
    (Z.to_nat (Z.of_nat (length pre) + total_len (take i l) + len (record c))) = Ok (bytes_of c).
Proof.
  intros Hl Hi. apply list_elem_of_split_length in Hi as (l1 & l2 & -> & ->).
  apply Forall_app in Hl as [Hl1 Hl2]. apply list.Forall_cons in Hl2 as [Hc Hl2].
  rewrite take_app_length, fmap_app, fmap_cons, join_app. rewrite mjoin_cons. rewrite app_assoc.
  pose proof (length_join_bytes l1 Hl1) as H1. pose proof (length_bytes_of c Hc) as H2.
  apply slice_app_exact; rewrite length_app; lia.
Qed.
End payloads.

(** ** The finished file *)

Section layout.
Context `{F32Ties, External}.

Definition file_chunks (gnx gny : nat) (ops : list AddOp) : list StagedChunk := sort_chunks (canon_chunks gnx gny ops).

Lemma finish_dims w file meta : finish w = Ok (file, meta) -> nx meta = w_nx w /\ ny meta = w_ny w.
Proof. unfold finish. intros Hf. res_inv Hf. by simplify_eq. Qed.

Lemma bytes_of_offsets cur l : bytes_of <$> assign_offsets cur l = bytes_of <$> l.
Proof. revert cur. induction l as [|c l IH]; intros cur; [done|]. simpl. by rewrite IH. Qed.

(** What the file consists of. *)
Lemma file_layout w0 w ops file meta :
  run_inv w0 ops w -> grid_fits (w_nx w0) (w_ny w0) -> finish w = Ok (file, meta) ->
  exists mb, json_to_vec meta = Ok mb /\ Z.of_nat (length mb) < u32_limit /\
  meta = canon_meta w0 ops /\ (w_nx w0 <> 0 /\ w_ny w0 <> 0)%nat /\
  match w_exact_time w0 with Some t => is_Some (origin_unix t) | None => True end /\
  Z.of_nat (length (final_ops ops)) <= u16_limit /\
  let cs := file_chunks (w_nx w0) (w_ny w0) ops in
  let h := for_layout (Z.of_nat (length mb)) (Z.of_nat (length cs)) in
  file = pack h ++ mb ++ ((record <$> assign_offsets (payload_offset h) cs) ≫= (fun r => pack_into r []))
         ++ mjoin (bytes_of <$> cs).
Proof.
  intros Hi Hg Hf. rewrite (finish_canonical w0 ops w Hi Hg) in Hf.
  destruct (_ || _) eqn:Hdeg; [done|]. cbn [reject mbind result_bind] in Hf.
  destruct (match w_exact_time w0 with Some t => _ | None => _ end) eqn:Ht; [done|].
  cbn [reject mbind result_bind] in Hf.
  destruct (number_deferred _ _) eqn:Hn; [|done..]. cbn [mbind result_bind] in Hf.
  pose proof (number_deferred_inv _ _ _ (proj1 (ri_counts _ _ _ Hi)) Hn) as Hcount.
  unfold assemble in Hf. fold (file_chunks (w_nx w0) (w_ny w0) ops) in Hf.
  destruct (json_to_vec (canon_meta w0 ops)) as [mb| |] eqn:Hj; [|done..]. cbn [mbind result_bind] in Hf.
  destruct (negb _) eqn:Hlen; [done|]. cbn [reject mbind result_bind] in Hf.
  rewrite payloads_memory in Hf. cbn [mbind result_bind] in Hf.
  rewrite record_buf_bind, bytes_of_offsets in Hf. injection Hf as <- <-.
  breflect. exists mb. split_and!; try done.
  - destruct (w_exact_time w0) as [t|]; [|done]. by breflect.
  - unfold final_ops. by rewrite length_app.
Qed.
End layout.

(** The ceilings the reader enforces, and the width of the chunk coordinates. *)
Definition within_limits `{External} (meta : RwsHourMeta) (file : list byte) : Prop :=
  grid_fits (nx meta) (ny meta) /\ Z.of_nat (nx meta * ny meta) <= MAX_GRID_CELLS /\
  Forall (fun v => Z.of_nat (length (levels_hpa v)) <= MAX_PRESSURE_LEVELS /\
                   Z.of_nat (length (levels_hpa v) * (nx meta * ny meta)) <= MAX_VOLUME_ELEMENTS) (variables meta) /\
  Z.of_nat (length (all_keys meta)) <= MAX_INDEX_RECORDS /\
  (forall mb, json_to_vec meta = Ok mb -> Z.of_nat (length mb) <= MAX_HOUR_META_LEN) /\
  Z.of_nat (length file) <= MAX_HOUR_FILE_LEN.

(** ** The records of the file *)

Section chunks.
Context `{F32Ties, External, !ExternalLaws}.
Context (w0 w : HourWriter) (ops : list AddOp) (Hinv : run_inv w0 ops w).
Let gnx := w_nx w0.
Let gny := w_ny w0.
Let meta := canon_meta w0 ops.

Lemma final_encodes : Forall (fun op => encodes gnx gny (op_data op)) (final_ops ops).
Proof. apply Forall_app. apply (run_inv_encodes _ _ _ Hinv). Qed.

Lemma final_valid op : op ∈ final_ops ops -> op_validate op w0 = Ok tt.
Proof.
  rewrite final_ops_perm. apply (proj1 (list.Forall_forall _ _) (ri_valid _ _ _ Hinv)).
Qed.

Definition op_layout (op : AddOp) : ChunkLayout :=
  {| lay_kind := data_kind (op_data op); lay_y := data_cy (op_data op); lay_x := data_cx (op_data op);
     lay_levels := match op_data op with SurfaceData _ => 1 | PressureData _ => length (op_levels op) end;
     lay_width := data_width (op_data op) |}.

Lemma op_meta_layout id op : chunk_layout (op_meta id op) = Some (op_layout op).
Proof. by destruct op. Qed.

Lemma op_meta_levels id op : levels_hpa (op_meta id op) = op_levels op.
Proof. by destruct op. Qed.

Lemma op_meta_id id op : var_meta_id (op_meta id op) = id.
Proof. by destruct op. Qed.

Lemma lookup_metas k l i : metas k l !! i = (fun op => op_meta (Z.of_nat (k + i)) op) <$> l !! i.
Proof. unfold metas. by rewrite list_lookup_imap. Qed.

Lemma ids_metas k l : var_meta_id <$> metas k l = Z.of_nat <$> seq k (length l).
Proof.
  revert k. induction l as [|op l IH]; intros k; [done|]. rewrite metas_cons. cbn [length seq].
  rewrite !fmap_cons, IH, op_meta_id. done.
Qed.

Lemma expected_keys_op id op : expected_keys meta (op_meta id op) = data_keys gnx gny id (op_data op).
Proof.
  unfold expected_keys, data_keys, chunk_rows, chunk_cols. rewrite op_meta_layout, op_meta_id. done.
Qed.

Lemma all_keys_canon : grid_fits gnx gny -> all_keys meta = chunk_key <$> canon_chunks gnx gny ops.
Proof.
  intros Hg. unfold all_keys, canon_chunks. change (variables meta) with (metas 0 (final_ops ops)).
  pose proof final_encodes as He. induction (final_ops ops) as [|op l IH] using rev_ind; [done|].
  apply Forall_app in He as [He He1]. inversion He1; subst.
  rewrite metas_snoc, bind_app, (IH He), staged_snoc, fmap_app, chunks_of_keys by done.
  f_equal. cbn [mbind list_bind]. by rewrite app_nil_r, expected_keys_op.
Qed.

Lemma op_variable_ok id op :
  op ∈ final_ops ops -> Z.of_nat (length (op_levels op)) <= MAX_PRESSURE_LEVELS ->
  Z.of_nat (length (op_levels op) * (gnx * gny)) <= MAX_VOLUME_ELEMENTS ->
  variable_ok (gnx * gny) (op_meta id op).
Proof.
  intros Hop%final_valid Hl Hv. apply op_validate_data in Hop as [_ Hd]. unfold variable_ok.
  rewrite op_meta_levels. destruct op; simpl in *; [by left|..]; right; destruct Hd as (Hlen & Hne & Hdesc);
    split_and!; try done; destruct levels; simpl in *; try done; lia.
Qed.

Lemma canon_meta_ok file :
  (gnx <> 0)%nat -> (gny <> 0)%nat -> within_limits meta file -> meta_ok meta.
Proof.
  intros Hx Hy (Hg & Hcells & Hvars & Htot & _). change (nx meta) with gnx in *. change (ny meta) with gny in *.
  constructor; try done.
  - change (variables meta) with (metas 0 (final_ops ops)). rewrite ids_metas.
    apply (NoDup_fmap_2 Z.of_nat), NoDup_seq.
  - change (variables meta) with (metas 0 (final_ops ops)). rewrite names_metas, final_ops_perm.
    apply (ri_names _ _ _ Hinv).
  - apply list.Forall_forall. intros v Hv. pose proof (proj1 (list.Forall_forall _ _) Hvars v Hv) as [H1' H2'].
    apply list_elem_of_lookup in Hv as [i Hi]. change (variables meta) with (metas 0 (final_ops ops)) in Hi.
    rewrite lookup_metas in Hi. apply fmap_Some in Hi as (op & Hop & ->).
    rewrite op_meta_levels in *. apply op_variable_ok; [by eapply list_elem_of_lookup_2|done..].
Qed.

(** Where a chunk of the file comes from. *)
Definition chunk_source (c : StagedChunk) (k : nat) (op : AddOp) (co : nat * nat)
    (values : list f32) (ec : EncodedChunk) : Prop :=
  final_ops ops !! k = Some op /\ co ∈ data_coords gnx gny (op_data op) /\ data_ok gnx gny (op_data op) /\
  gather gnx gny (op_data op) co = Ok values /\ encode_values (op_data op) values = Ok ec /\
  compress_payload (payload ec) = Ok (compressed c) /\
  record c = make_record (Z.of_nat k) (data_kind (op_data op)) co.1 co.2 (compressed c) ec.

Lemma file_chunk_source c :
  c ∈ file_chunks gnx gny ops -> exists k op co values ec, chunk_source c k op co values ec.
Proof.
  intros Hc. unfold file_chunks in Hc. rewrite sort_chunks_perm in Hc.
  apply elem_of_staged in Hc as (k & op & Hop & Hc). rewrite Nat.add_0_l in Hc.
  pose proof (list_elem_of_lookup_2 _ _ _ Hop) as Hin.
  pose proof (proj1 (list.Forall_forall _ _) final_encodes op Hin) as He.
  pose proof (encodes_any gnx gny (op_data op) (Z.of_nat k) None He) as Henc.
  apply rmap_ok_inv in Henc. apply list_elem_of_lookup in Hc as [i Hi].
  destruct (Forall2_lookup_r _ _ _ _ _ Henc Hi) as (co & Hco & Hch). apply list_elem_of_lookup_2 in Hco.
  apply encode_chunk_inv in Hch as (values & ec & Hg & Hev & Hcomp & Hrec & _).
  exists k, op, co, values, ec. split_and!; try done. by apply (op_validate_data _ w0), final_valid.
Qed.

Lemma source_coords c k op co values ec :
  grid_fits gnx gny -> chunk_source c k op co values ec ->
  tile_y (record c) = Z.of_nat co.1 /\ tile_x (record c) = Z.of_nat co.2 /\
  (co.1 < chunk_rows meta (op_layout op))%nat /\ (co.2 < chunk_cols meta (op_layout op))%nat.
Proof.
  intros Hg (_ & Hco & _ & _ & _ & _ & ->). destruct (data_coord_fits _ _ _ _ Hg Hco) as [Hy Hx].
  cbn [make_record tile_y tile_x]. rewrite Hy, Hx. destruct co as [cy cx].
  apply elem_of_grid_coords in Hco as [H1' H2']. done.
Qed.

Lemma source_levels c k op co values ec :
  chunk_source c k op co values ec -> data_levels (op_data op) = lay_levels (op_layout op).
Proof.
  intros (Hk & _). apply list_elem_of_lookup_2, final_valid, op_validate_data in Hk as [_ Hk].
  unfold op_layout. cbn [lay_levels]. destruct (op_data op) as [|planes]; [done|]. cbn [data_levels]. by destruct Hk.
Qed.

Lemma source_values c k op co values ec :
  chunk_source c k op co values ec ->
  length values = chunk_values meta (op_layout op) co.1 co.2.
Proof.
  intros Hs. pose proof (source_levels _ _ _ _ _ _ Hs) as Hl. destruct Hs as (_ & Hco & Hd & Hg & _).
  rewrite (gather_length _ _ _ _ _ Hd Hco Hg), Nat.mul_assoc, Hl. done.
Qed.

(** Sizes of a chunk with at most 4096 levels. *)
Lemma source_sizes c k op co values ec :
  chunk_source c k op co values ec -> Z.of_nat (length (op_levels op)) <= MAX_PRESSURE_LEVELS ->
  Z.of_nat (length values * data_width (op_data op)) <= 4 * 1024 * 1024 /\
  Z.of_nat (length (compressed c)) <= Z.of_nat (length (payload ec)) + MAX_CHUNK_COMP_OVERHEAD /\
  len (record c) = Z.of_nat (length (compressed c)) /\ raw_len (record c) = Z.of_nat (length (payload ec)).
Proof.
  intros Hs Hlv. pose proof (source_levels _ _ _ _ _ _ Hs) as Hl.
  destruct Hs as (_ & Hco & Hd & Hg & He & Hc & ->).
  pose proof (chunk_value_bound _ _ _ _ _ Hd Hco Hg) as Hb. pose proof (payload_bound _ _ _ He) as Hp.
  apply compress_payload_bound in Hc.
  assert (Z.of_nat (data_levels (op_data op)) <= 4096) as Hlv'.
  { rewrite Hl. unfold op_layout. cbn [lay_levels]. unfold MAX_PRESSURE_LEVELS in *. destruct (op_data op); lia. }
  assert (Z.of_nat (length (payload ec) / 256) <= 16384) as Hq.
  { rewrite Nat2Z.inj_div. apply Z.div_le_upper_bound; lia. }
  unfold MAX_CHUNK_COMP_OVERHEAD. cbn [make_record len raw_len].
  rewrite !Z.mod_small by (unfold u32_limit; lia). lia.
Qed.

Lemma compress_payload_nil bytes comp :
  compress_payload bytes = Ok comp -> comp = [] <-> bytes = [].
Proof.
  unfold compress_payload. case_bool_decide as Hb; [intros [= <-]; done|]. intros Hz.
  pose proof (zstd_nonempty _ _ Hz). done.
Qed.

(** The flags of an encoded chunk say whether it has a payload. *)
Lemma shape_flags width n ec :
  chunk_shape width n ec ->
  Z.land (ec_flags ec) 248 = 0 /\ 0 <= ec_flags ec < 256 /\
  ((has_flag (ec_flags ec) FLAG_EMPTY || (has_flag (ec_flags ec) FLAG_CONSTANT &&
     negb (has_flag (ec_flags ec) FLAG_HAS_MISSING)) = true /\ payload ec = []) \/
   (has_flag (ec_flags ec) FLAG_EMPTY || (has_flag (ec_flags ec) FLAG_CONSTANT &&
     negb (has_flag (ec_flags ec) FLAG_HAS_MISSING)) = false /\ has_flag (ec_flags ec) FLAG_EMPTY = false /\
     (width = 4%nat -> has_flag (ec_flags ec) FLAG_CONSTANT = false) /\
     length (payload ec) = (n * width)%nat /\ n <> 0%nat)).
Proof.
  intros [[[->| ->] ->]|[[->|[->|[-> ->]]] [Hp Hn]]].
  - split_and!; [done..|left; done].
  - split_and!; [done..|left; done].
  - split_and!; [done..|right; done].
  - split_and!; [done..|right; done].
  - split_and!; [done..|right; done].
Qed.

Lemma source_record_ok c k op co values ec poff flen off :
  grid_fits gnx gny -> chunk_source c k op co values ec ->
  Z.of_nat (length (op_levels op)) <= MAX_PRESSURE_LEVELS -> Z.of_nat (length (final_ops ops)) <= u16_limit ->
  0 <= poff <= off -> off + len (record c) <= flen -> flen < u64_limit ->
  record_wf (set_offset off (record c)) /\
  record_of meta poff flen (op_meta (Z.of_nat k) op) (op_layout op) (set_offset off (record c)).
Proof.
  intros Hg Hs Hlv Hcount Hoff Hend Hflen.
  destruct (source_sizes _ _ _ _ _ _ Hs Hlv) as (Hb & Hcomp & Hlen & Hraw).
  destruct (source_coords _ _ _ _ _ _ Hg Hs) as (Hty & Htx & Hy & Hx).
  pose proof (source_values _ _ _ _ _ _ Hs) as Hvals.
  pose proof (payload_bound _ _ _ (proj1 (proj2 (proj2 (proj2 (proj2 Hs)))))) as Hpb.
  pose proof Hs as (Hk & Hco & Hd & Hgt & He & Hcp & Hrec).
  pose proof (encode_values_count _ _ _ He) as Hcnt.
  pose proof (lookup_lt_Some _ _ _ Hk) as Hklt.
  destruct (data_coord_fits _ _ _ _ Hg Hco) as [Hm1 Hm2].
  destruct (shape_flags _ _ _ (encode_values_shape _ _ _ He)) as (Hmask & Hfl & Hshape).
  assert (var_id (record c) = Z.of_nat k /\ kind (record c) = data_kind (op_data op) /\
    flags (record c) = ec_flags ec /\ valid_count (record c) = ec_valid_count ec) as (Hvid & Hkind & Hflags & Hvc)
    by (rewrite Hrec; done).
  assert (Z.of_nat (length values) <= 4 * 1024 * 1024) as Hvb by (destruct (op_data op); simpl in Hb; lia).
  assert (0 <= data_kind (op_data op) < 256) by (by destruct (op_data op)).
  assert (0 <= tile_y (record c) < u32_limit /\ 0 <= tile_x (record c) < u32_limit) as [? ?].
  { rewrite Hty, Htx, <- Hm1, <- Hm2. split; apply Z.mod_pos_bound; done. }
  split.
  - unfold record_wf, in_width, set_offset.
    cbn [var_id kind flags tile_y tile_x offset len raw_len valid_count].
    rewrite Hvid, Hkind, Hflags, Hvc. unfold u16_limit, u32_limit, MAX_CHUNK_COMP_OVERHEAD in *. lia.
  - unfold record_of, payload_ok, payload_free, set_offset.
    cbn [var_id kind flags tile_y tile_x offset len raw_len valid_count].
    rewrite Hvid, Hkind, Hflags, Hvc, Hty, Htx, !Nat2Z.id. split_and!.
    + change (variables meta) with (metas 0 (final_ops ops)). apply list_elem_of_lookup. exists k.
      by rewrite lookup_metas, Hk.
    + apply op_meta_id.
    + apply op_meta_layout.
    + done.
    + done.
    + done.
    + done.
    + rewrite Hlen, Hraw. rewrite <- Hvals. change (lay_width (op_layout op)) with (data_width (op_data op)).
      destruct Hshape as [[-> Hp]|(-> & _ & _ & Hp & Hn)].
      * rewrite Hp in *. apply compress_payload_nil in Hcp. rewrite (proj2 Hcp eq_refl). done.
      * assert (compressed c <> []) as Hne.
        { intros Hnil. apply (compress_payload_nil _ _ Hcp) in Hnil. rewrite Hnil in Hp. simpl in Hp.
          destruct (op_data op); simpl in Hp; lia. }
        rewrite Hp. destruct (compressed c) eqn:Hcc; [done|]. rewrite <- Hcc in *.
        rewrite Hp in Hcomp. split_and!; try lia. rewrite Hcc. simpl. lia.
    + rewrite <- Hvals. lia.
Qed.
End chunks.

(** ** Opening the file *)

Section open.
Context `{F32Ties, External, !ExternalLaws}.

Lemma read_record_ok file m h vars i rec pre recs post :
  file = pre ++ (recs ≫= (fun r => pack_into r [])) ++ post ->
  index_offset h = Z.of_nat (length pre) -> Z.of_nat (length file) < usize_limit -> recs !! i = Some rec ->
  record_wf rec -> validate_chunk_record rec m h (Z.of_nat (length file)) vars = Ok tt ->
  read_record file m h vars i = Ok rec.
Proof.
  intros Hfile Hoff Hlen Hi Hwf Hval. unfold read_record.
  assert (length recs * 64 <= length file)%nat as Hb.
  { rewrite Hfile, !length_app, (length_bind_const 64) by (intros; apply length_pack_into). lia. }
  assert (length pre + length recs * 64 <= length file)%nat as Hb2.
  { rewrite Hfile, !length_app, (length_bind_const 64) by (intros; apply length_pack_into). lia. }
  pose proof (lookup_lt_Some _ _ _ Hi). rewrite Hoff, Nat2Z.id. change INDEX_RECORD_LEN with 64%nat.
  rewrite checked_mul_ok by lia. cbn [mbind option_bind].
  do 2 (rewrite checked_add_ok by lia; rrun).
  rewrite Hfile at 1. rewrite (slice_bind_const _ 64 recs i rec) by (done || intros; apply length_pack_into).
  rrun. rewrite unpack_pack by done. rrun. by rewrite Hval.
Qed.

Lemma StronglySorted_lookup_lt {A} (R : A -> A -> Prop) l i j a b :
  StronglySorted R l -> (i < j)%nat -> l !! i = Some a -> l !! j = Some b -> R a b.
Proof.
  intros Hs. revert i j. induction Hs as [|c l Hs IH Hc]; intros [|i] [|j] Hij Ha Hb; try done; simpl in *; try lia.
  - simplify_eq. by eapply (proj1 (list.Forall_forall _ _) Hc), list_elem_of_lookup_2.
  - apply (IH i j); [lia|done..].
Qed.

(** The chunks of the file, sorted, with their offsets. *)
Definition file_records (gnx gny : nat) (ops : list AddOp) (poff : Z) : list ChunkRecord :=
  record <$> assign_offsets poff (file_chunks gnx gny ops).

Lemma lookup_file_records gnx gny ops poff i rec :
  file_records gnx gny ops poff !! i = Some rec <->
  exists c, file_chunks gnx gny ops !! i = Some c /\
    rec = set_offset (poff + total_len (take i (file_chunks gnx gny ops))) (record c).
Proof.
  unfold file_records. rewrite list_lookup_fmap, fmap_Some. setoid_rewrite lookup_assign_offsets. split.
  - intros (c & (c0 & Hc0 & ->) & ->). eauto.
  - intros (c & Hc & ->). eauto.
Qed.

Lemma file_records_sorted w0 w ops poff :
  run_inv w0 ops w -> grid_fits (w_nx w0) (w_ny w0) -> key_sorted (file_records (w_nx w0) (w_ny w0) ops poff).
Proof.
  intros Hi Hg i j a b Hij Ha Hb.
  apply lookup_file_records in Ha as (c & Hc & ->). apply lookup_file_records in Hb as (d & Hd & ->).
  assert (StronglySorted chunk_lt (file_chunks (w_nx w0) (w_ny w0) ops)) as Hs.
  { apply sort_chunks_sorted, NoDup_staged_keys; [done|]. by eapply final_encodes. }
  exact (StronglySorted_lookup_lt chunk_lt _ i j c d Hs Hij Hc Hd).
Qed.

Lemma payload_nonneg h : header_ok h -> 0 <= payload_offset h.
Proof. intros (_ & [? _] & [? _] & ? & ? & _). lia. Qed.

Context (w0 w : HourWriter) (ops : list AddOp) (file : list byte) (meta : RwsHourMeta).
Context (Hinv : run_inv w0 ops w) (Hfin : finish w = Ok (file, meta)) (Hlim : within_limits meta file).
Let gnx := w_nx w0.
Let gny := w_ny w0.

Lemma params_dims : nx meta = gnx /\ ny meta = gny.
Proof.
  destruct (finish_dims _ _ _ Hfin) as [-> ->].
  by destruct (ri_params _ _ _ Hinv) as (_ & _ & _ & _ & Hx & Hy & _).
Qed.

Lemma dims_fit : grid_fits gnx gny.
Proof. destruct Hlim as [Hg _]. by destruct params_dims as [<- <-]. Qed.

Lemma op_levels_limit k op :
  meta = canon_meta w0 ops -> final_ops ops !! k = Some op -> Z.of_nat (length (op_levels op)) <= MAX_PRESSURE_LEVELS.
Proof.
  intros Hm Hk. destruct Hlim as (_ & _ & Hv & _).
  assert (op_meta (Z.of_nat k) op ∈ variables meta) as Hin.
  { rewrite Hm. apply list_elem_of_lookup. exists k. change (variables (canon_meta w0 ops)) with (metas 0 (final_ops ops)).
    by rewrite lookup_metas, Hk. }
  destruct (proj1 (list.Forall_forall _ _) Hv _ Hin) as [Hl _]. by rewrite op_meta_levels in Hl.
Qed.

Lemma chunk_lengths : meta = canon_meta w0 ops -> Forall length_recorded (file_chunks gnx gny ops).
Proof.
  intros Hm. apply list.Forall_forall. intros c Hc.
  destruct (file_chunk_source w0 w ops Hinv c Hc) as (k & op & co & values & ec & Hs).
  apply (source_sizes w0 w ops Hinv _ _ _ _ _ _ Hs). eapply op_levels_limit; [done|]. apply Hs.
Qed.

Let cs := file_chunks gnx gny ops.
Let recs (h : RwsHeader) := file_records gnx gny ops (payload_offset h).

(** The sections of the file and their sizes. *)
Record sections (mb : list byte) (h : RwsHeader) : Prop := {
  sec_header : h = for_layout (Z.of_nat (length mb)) (Z.of_nat (length cs));
  sec_ok : header_ok h;
  sec_json : json_to_vec meta = Ok mb;
  sec_file : file = pack h ++ mb ++ (recs h ≫= (fun r => pack_into r [])) ++ mjoin (bytes_of <$> cs);
  sec_index : index_offset h = 64 + Z.of_nat (length mb);
  sec_start : Z.of_nat (length (pack h ++ mb ++ (recs h ≫= (fun r => pack_into r [])))) = payload_offset h;
  sec_len : Z.of_nat (length file) = payload_offset h + total_len cs;
  sec_meta : meta = canon_meta w0 ops;
  sec_meta_ok : meta_ok meta;
  sec_count : length cs = length (all_keys meta);
  sec_vars : Z.of_nat (length (final_ops ops)) <= u16_limit;
  sec_time : match w_exact_time w0 with Some t => is_Some (origin_unix t) | None => True end
}.

Lemma length_recs h : length (recs h) = length cs.
Proof. unfold recs, file_records. rewrite length_fmap. apply length_assign_offsets. Qed.

Lemma file_sections : exists mb h, sections mb h.
Proof.
  destruct (file_layout w0 w ops file meta Hinv dims_fit Hfin)
    as (mb & Hj & Hmb & Hm & [Hnx Hny] & Htime & Hcount & Hfile). cbv zeta in Hfile.
  fold gnx in Hnx, Hfile. fold gny in Hny, Hfile. fold cs in Hfile.
  set (h := for_layout (Z.of_nat (length mb)) (Z.of_nat (length cs))) in *. change (record <$> assign_offsets (payload_offset h) cs) with (recs h) in Hfile.
  pose proof Hlim as (Hg & Hcells & Hvars & Htot & Hjl & Hfl). specialize (Hjl mb Hj).
  assert (length cs = length (all_keys meta)) as Hkeys.
  { rewrite Hm, (all_keys_canon w0 w ops Hinv dims_fit), length_fmap. apply Permutation_length, sort_chunks_perm. }
  assert (MAX_INDEX_RECORDS = 8388608) by done. assert (MAX_HOUR_META_LEN = 16777216) by done.
  assert (Z.of_nat (length (pack h ++ mb ++ (recs h ≫= (fun r => pack_into r [])))) = payload_offset h) as Hpre.
  { rewrite !length_app, length_pack, (length_bind_const 64), length_recs by (intros; apply length_pack_into).
    unfold h, for_layout. cbn [payload_offset]. change (Z.of_nat HEADER_LEN) with 64. change (Z.of_nat INDEX_RECORD_LEN) with 64. lia. }
  exists mb, h. constructor; try done.
  - unfold header_ok, in_width, u32_limit, u64_limit, h, for_layout. cbn [version meta_len index_count index_offset payload_offset].
    change (Z.of_nat HEADER_LEN) with 64. change (Z.of_nat INDEX_RECORD_LEN) with 64. unfold u32_limit in *. lia.
  - pose proof (length_join_bytes cs (chunk_lengths Hm)) as Hjoin.
    apply (f_equal length) in Hfile. rewrite !length_app in Hfile, Hpre. rewrite length_app in Hfile. lia.
  - rewrite Hm in *. by eapply canon_meta_ok.
Qed.

(** Every index record of the file is read back and accepted. *)
Lemma file_record_read mb h i rec :
  sections mb h -> recs h !! i = Some rec -> read_record file meta h (variable_map (variables meta)) i = Ok rec.
Proof.
  intros [_ Hok _ Hfile Hidx _ Hlen Hm Hmeta _ Hcount _] Hrec. pose proof Hlim as (_ & _ & _ & _ & _ & Hfl).
  pose proof Hrec as Hrec'. apply lookup_file_records in Hrec' as (c & Hc & Hrc). fold cs in Hrc, Hc.
  destruct (file_chunk_source w0 w ops Hinv c ltac:(by eapply list_elem_of_lookup_2)) as (kk & op & co & values & ec & Hs).
  destruct (total_len_take cs i (chunk_lengths Hm)) as [Ht1 Ht2]. specialize (Ht2 c Hc).
  assert (MAX_HOUR_FILE_LEN < u64_limit) by done.
  pose proof (payload_nonneg h Hok) as Hpo.
  destruct (source_record_ok w0 w ops Hinv c kk op co values ec (payload_offset h) (Z.of_nat (length file))
    (payload_offset h + total_len (take i cs)) dims_fit Hs) as [Hwf Hof]; try lia.
  { eapply op_levels_limit; [done|]. apply Hs. }
  rewrite <- Hrc in Hwf, Hof.
  apply (read_record_ok file meta h _ i rec (pack h ++ mb) (recs h) (mjoin (bytes_of <$> cs)));
    [rewrite Hfile, <- !app_assoc; done| |change usize_limit with u64_limit; lia|done|done|].
  - rewrite length_app, length_pack. lia.
  - apply validate_chunk_record_spec; [done|lia|]. rewrite <- Hm in Hof. eauto.
Qed.

Lemma file_meta_valid mb h : sections mb h -> validate_hour_meta meta h = Ok tt.
Proof.
  intros [Hh _ _ _ _ _ _ Hm Hmeta Hkeys Hcount Htime].
  apply validate_hour_meta_spec. split_and!; [|by rewrite Hm| |done|].
  - rewrite Hm. unfold canon_meta, hour_meta, validate_time_schema. cbn [schema meta_lead_seconds meta_valid_unix].
    destruct (w_exact_time w0) as [t|]; simpl; [|by eexists].
    destruct Htime as [o Ho]. destruct t. simpl in *. rewrite Ho. by eexists.
  - rewrite Hm. change (variables (canon_meta w0 ops)) with (metas 0 (final_ops ops)). by rewrite length_metas.
  - rewrite <- Hkeys, Hh. done.
Qed.

Lemma finished_file_opens :
  exists h, hour_file file h meta (file_records gnx gny ops (payload_offset h)) /\
    meta = canon_meta w0 ops /\
    exists pre, file = pre ++ mjoin (bytes_of <$> file_chunks gnx gny ops) /\
      Z.of_nat (length pre) = payload_offset h.
Proof.
  destruct file_sections as (mb & h & Hsec). pose proof Hsec as [Hh Hok Hj Hfile Hidx Hpre Hlen Hm Hmeta Hkeys _ _].
  pose proof Hlim as (_ & _ & _ & Htot & Hjl & Hfl). specialize (Hjl mb Hj).
  assert (0 <= total_len cs) as Htl.
  { destruct (total_len_take cs (length cs) (chunk_lengths Hm)) as [Ht _]. by rewrite take_ge in Ht by lia. }
  assert (64 <= length file)%nat by (rewrite Hfile, length_app, length_pack; lia).
  exists h. split; [|split; [done|]].
  2: { eexists. split; [|exact Hpre]. rewrite Hfile, <- !app_assoc. done. }
  constructor.
  - rewrite (parse_prefix file h); [by apply parse_pack|done|].
    rewrite Hfile, take_app_le by (rewrite length_pack; lia). done.
  - unfold bounds_ok. rewrite Hh in Hlen |- *. cbn [for_layout meta_len index_count] in *. lia.
  - exists mb. split; [|by apply json_roundtrip].
    rewrite Hfile. apply slice_app_exact; rewrite length_pack; [done|]. lia.
  - by eapply file_meta_valid.
  - apply rmap_ok_intro. apply Forall2_same_length_lookup_2.
    { rewrite length_seq. fold (recs h). rewrite length_recs, Hh. apply Nat2Z.id. }
    intros i k rec Hk Hrec. apply lookup_seq in Hk as [-> _]. rewrite Nat.add_0_l. by eapply file_record_read.
  - apply (file_records_sorted w0 w); [done|apply dims_fit].
Qed.
End open.
