(* ===== verification/ReadBack.v ===== *)
(** * What was written is what is read

    A file assembled by [HourWriter::finish] within the format's limits is
    opened by [HourReader::open], every index record leads back to the chunk
    it was made from, and the full read of a surface variable returns the
    field that was added. *)
From stdpp Require Import base list gmap strings numbers.
From Stdlib Require Import ZArith Lia.
From S2P Require Import Prelude F32 Format Header Index Codec TileCache Writer Reader Concrete Opened Reader2D Field2D Reader3D Field3D Assembly RoundTrip.

Local Open Scope Z_scope.

(** ** Decoding what was encoded *)

Section decoding.
Context `{F32Ties, External, !ExternalLaws}.
Implicit Types (r : HourReader) (rec : ChunkRecord).

(** The record [rec] of reader [r] stores the encoded chunk [ec]. *)
Record stores r rec (ec : EncodedChunk) (comp : list byte) : Prop := {
  st_flags : flags rec = ec_flags ec;
  st_center : center rec = ec_center ec;
  st_scale : scale rec = ec_scale ec;
  st_len : len rec = Z.of_nat (length comp);
  st_raw : raw_len rec = Z.of_nat (length (payload ec));
  st_comp : compress_payload (payload ec) = Ok comp;
  st_bytes : comp <> [] -> payload_slice r rec = Ok comp
}.

Lemma stores_payload_free r rec ec comp : stores r rec ec comp -> (len rec =? 0) = bool_decide (payload ec = []).
Proof.
  intros Hs. apply eq_true_iff_eq. rewrite bool_decide_eq_true, Z.eqb_eq, (st_len _ _ _ _ Hs).
  rewrite <- (compress_payload_nil _ _ (st_comp _ _ _ _ Hs)).
  destruct comp; simpl; split; intros; try done; lia.
Qed.

Lemma shape_dense width n ec :
  chunk_shape width n ec -> width <> 0%nat -> has_flag (ec_flags ec) FLAG_EMPTY = false ->
  has_flag (ec_flags ec) FLAG_CONSTANT && bool_decide (payload ec = []) = false ->
  length (payload ec) = (n * width)%nat /\ payload ec <> [].
Proof.
  intros Hshape Hw He Hc. destruct (shape_flags _ _ _ Hshape) as (_ & _ & [[Hfl Hp]|(_ & _ & _ & Hlen & Hne)]).
  - rewrite Hp, bool_decide_eq_true_2, andb_true_r in Hc by done. by rewrite He, Hc in Hfl.
  - split; [done|]. intros Hnil. rewrite Hnil in Hlen. simpl in Hlen. nia.
Qed.

Lemma decompress_stored r rec ec comp :
  stores r rec ec comp -> payload ec <> [] ->
  payload_slice r rec = Ok comp /\ decompress_chunk_into comp (length (payload ec)) = Ok (payload ec).
Proof.
  intros Hs Hne. pose proof (st_comp _ _ _ _ Hs) as Hc.
  assert (comp <> []) as Hcn by (by rewrite (compress_payload_nil _ _ Hc)).
  split; [by apply (st_bytes _ _ _ _ Hs)|]. unfold compress_payload in Hc.
  rewrite bool_decide_eq_false_2 in Hc by done.
  unfold decompress_chunk_into. rewrite (zstd_roundtrip _ _ Hc). cbn [map_err mbind result_bind produced clean_end].
  rewrite Nat.ltb_irrefl. by rrun.
Qed.

Lemma try_filled_ok n x : alloc_succeeds -> try_filled_f32 n x = Ok (replicate n x).
Proof. intros Ha. unfold try_filled_f32. by rewrite Ha. Qed.

(** A stored tile decodes as its codec decodes the raw payload. *)
Lemma decode_tile_stored r rec ec comp n :
  alloc_succeeds -> stores r rec ec comp -> chunk_shape 4 n ec -> Z.of_nat (n * 4) < usize_limit ->
  decode_tile r rec n = decode_f32_tile (ec_flags ec) (ec_center ec) (payload ec) n.
Proof.
  intros Halloc Hs Hshape Hn. unfold decode_tile, decode_f32_tile.
  pose proof (stores_payload_free _ _ _ _ Hs) as Hfree.
  rewrite (st_flags _ _ _ _ Hs), (st_center _ _ _ _ Hs), (st_raw _ _ _ _ Hs).
  rewrite !try_filled_ok by done.
  destruct (has_flag (ec_flags ec) FLAG_EMPTY) eqn:He; [done|].
  rewrite Hfree. destruct (has_flag (ec_flags ec) FLAG_CONSTANT && bool_decide (payload ec = [])) eqn:Hc; [done|].
  destruct (shape_dense _ _ _ Hshape ltac:(done) He Hc) as [Hlen Hpn].
  destruct (decompress_stored _ _ _ _ Hs Hpn) as [-> Hd]. rrun.
  rewrite checked_mul_ok by lia. rrun. rewrite <- Hlen. rewrite Nat.eqb_refl, Z.eqb_refl.
  zdecide. rrun. by rewrite Hd.
Qed.

(** The same for a stored column chunk. *)
Lemma decode_column_stored r rec ec comp n :
  alloc_succeeds -> stores r rec ec comp -> chunk_shape 2 n ec ->
  decode_column_chunk r rec n = decode_affine_i16 (ec_flags ec) (ec_center ec) (ec_scale ec) (payload ec) n.
Proof.
  intros Halloc Hs Hshape. unfold decode_column_chunk, decode_affine_i16.
  pose proof (stores_payload_free _ _ _ _ Hs) as Hfree.
  rewrite (st_flags _ _ _ _ Hs), (st_center _ _ _ _ Hs), (st_scale _ _ _ _ Hs), (st_raw _ _ _ _ Hs).
  rewrite !try_filled_ok by done.
  destruct (has_flag (ec_flags ec) FLAG_EMPTY) eqn:He; [done|].
  rewrite Hfree. destruct (has_flag (ec_flags ec) FLAG_CONSTANT && bool_decide (payload ec = [])) eqn:Hc; [done|].
  destruct (shape_dense _ _ _ Hshape ltac:(done) He Hc) as [Hlen Hpn].
  destruct (decompress_stored _ _ _ _ Hs Hpn) as [-> Hd]. rrun.
  rewrite Nat2Z.id. unfold decompress_chunk, try_zeroed_bytes. rewrite Halloc. rrun. rewrite Hd. rrun.
  by rewrite Hc.
Qed.
End decoding.

(** ** The reader of a written file *)

Section written.
Context `{F32Ties, External, !ExternalLaws}.

(** [r] was opened on the file finished after the adds [ops]. *)
Record reads_back (w0 : HourWriter) (ops : list AddOp) (r : HourReader) : Prop := {
  rb_ok : reader_ok r;
  rb_meta : r_meta r = canon_meta w0 ops;
  rb_run : exists w, run_inv w0 ops w;
  rb_fits : grid_fits (w_nx w0) (w_ny w0);
  rb_levels : forall k op, final_ops ops !! k = Some op -> Z.of_nat (length (op_levels op)) <= MAX_PRESSURE_LEVELS;
  rb_lengths : Forall length_recorded (file_chunks (w_nx w0) (w_ny w0) ops);
  rb_bytes : exists pre, r_bytes r = pre ++ mjoin (bytes_of <$> file_chunks (w_nx w0) (w_ny w0) ops) /\
    r_records r = file_records (w_nx w0) (w_ny w0) ops (Z.of_nat (length pre))
}.

Lemma written_file_opens w0 w ops file meta src :
  alloc_succeeds -> run_inv w0 ops w -> finish w = Ok (file, meta) -> within_limits meta file ->
  exists r, open_reader src true file = Ok r /\ r_meta r = meta /\ reads_back w0 ops r.
Proof.
  intros Halloc Hi Hf Hl.
  destruct (finished_file_opens w0 w ops file meta Hi Hf Hl) as (h & Hh & Hm & pre & Hpre & Hlen).
  destruct (open_reader_intro src file h meta _ Halloc Hh) as (r & Hr & Hb & Hrm & Hrr).
  exists r. split_and!; [done..|]. constructor.
  - by eapply open_reader_ok.
  - by rewrite Hrm.
  - eauto.
  - by eapply dims_fit.
  - intros k op. by eapply op_levels_limit.
  - by eapply chunk_lengths.
  - exists pre. rewrite Hb, Hrr, Hlen. done.
Qed.

Context (w0 : HourWriter) (ops : list AddOp) (r : HourReader) (Hrb : reads_back w0 ops r).
Let gnx := w_nx w0.
Let gny := w_ny w0.

Lemma rb_dims : nx (r_meta r) = gnx /\ ny (r_meta r) = gny.
Proof. by rewrite (rb_meta _ _ _ Hrb). Qed.

Lemma rb_variable k op :
  final_ops ops !! k = Some op -> op_meta (Z.of_nat k) op ∈ variables (r_meta r).
Proof.
  intros Hk. rewrite (rb_meta _ _ _ Hrb). apply list_elem_of_lookup. exists k.
  change (variables (canon_meta w0 ops)) with (metas 0 (final_ops ops)). by rewrite lookup_metas, Hk.
Qed.

(** Every record of the reader stores the chunk it was made from. *)
Lemma stored_record rec :
  rec ∈ r_records r -> exists c k op co values ec,
    chunk_source w0 ops c k op co values ec /\ stores r rec ec (compressed c) /\ sort_key rec = chunk_key c.
Proof.
  intros Hrec. destruct (rb_run _ _ _ Hrb) as [w Hi]. destruct (rb_bytes _ _ _ Hrb) as (pre & Hb & Hrr).
  rewrite Hrr in Hrec. apply list_elem_of_lookup in Hrec as [i Hc].
  apply lookup_file_records in Hc as (c & Hc & ->).
  destruct (file_chunk_source w0 w ops Hi c (list_elem_of_lookup_2 _ _ _ Hc)) as (k & op & co & values & ec & Hs).
  exists c, k, op, co, values, ec. split; [done|]. split; [|done].
  destruct (source_sizes w0 w ops Hi _ _ _ _ _ _ Hs) as (_ & _ & Hlen & Hraw).
  { eapply (rb_levels _ _ _ Hrb). apply Hs. }
  pose proof Hs as (_ & _ & _ & _ & _ & Hcomp & Hrc).
  constructor; cbn [set_offset flags center scale len raw_len];
    [by rewrite Hrc|by rewrite Hrc|by rewrite Hrc|done|done|done|].
  intros Hne. pose proof (rok_len _ (rb_ok _ _ _ Hrb)) as Hmax. assert (MAX_HOUR_FILE_LEN < u64_limit) by done.
  destruct (total_len_take _ i (rb_lengths _ _ _ Hrb)) as [Ht1 Ht2]. specialize (Ht2 c Hc).
  pose proof (length_join_bytes _ (rb_lengths _ _ _ Hrb)) as Hj.
  pose proof (slice_payload (E := RwStoreError) _ i c pre (rb_lengths _ _ _ Hrb) Hc) as Hsl.
  unfold payload_slice. cbn [set_offset offset len]. unfold checked_add64.
  rewrite Hb in *. rewrite length_app in Hmax |- *.
  zdecide. rrun. zdecide. rrun. rewrite Hsl. unfold bytes_of.
  destruct (Z.eqb_spec (len (record c)) 0) as [Hzero|]; [|done].
  destruct (compressed c); [done|]. simpl in Hlen. lia.
Qed.

(** The record found for a chunk of the variable added as number [k]. *)
Lemma stored_chunk k op co :
  final_ops ops !! k = Some op -> co ∈ data_coords gnx gny (op_data op) ->
  exists rec comp values ec,
    chunk_record r (op_meta (Z.of_nat k) op) (data_kind (op_data op)) co.1 co.2 = Ok rec /\
    gather gnx gny (op_data op) co = Ok values /\ encode_values (op_data op) values = Ok ec /\
    stores r rec ec comp.
Proof.
  intros Hk Hco. destruct (rb_run _ _ _ Hrb) as [w Hi]. destruct rb_dims as [Hnx Hny].
  destruct co as [cy cx]. pose proof Hco as [Hy Hx]%elem_of_grid_coords.
  destruct (chunk_record_found r (op_meta (Z.of_nat k) op) (op_layout op) cy cx) as (rec & Hrec & Hin & Hkey).
  - apply (rb_ok _ _ _ Hrb).
  - by apply rb_variable.
  - apply op_meta_layout.
  - unfold chunk_rows. by rewrite Hny.
  - unfold chunk_cols. by rewrite Hnx.
  - destruct (stored_record rec Hin) as (c & k' & op' & co' & values & ec & Hs & Hst & Hck).
    destruct (source_coords w0 ops _ _ _ _ _ _ (rb_fits _ _ _ Hrb) Hs) as (Hty & Htx & _).
    pose proof Hs as (Hk' & _ & _ & Hg & He & _ & Hrc).
    assert (k' = k) as ->.
    { rewrite Hkey, op_meta_id in Hck. unfold chunk_key, sort_key in Hck. rewrite Hrc in Hck. simpl in Hck.
      injection Hck. lia. }
    assert (op' = op) as -> by congruence.
    assert (co' = (cy, cx)) as ->.
    { rewrite Hkey in Hck. unfold chunk_key, sort_key in Hck. rewrite Hty, Htx in Hck.
      destruct co' as [y x]. simpl in Hck. injection Hck as _ _ Hy1 Hx1. f_equal; lia. }
    exists rec, (compressed c), values, ec. done.
Qed.
End written.

(** ** Surface variables *)

Section surface.
Context `{F32Ties, External, !ExternalLaws}.

(** A cell that was read for a cell that was written: the same bits, or a
    zero for a zero, or the NaN that stands for a missing value. *)
Definition restored (v o : f32) : Prop :=
  o = v \/ (key v = 0 /\ key o = 0) \/ (o = NAN /\ is_finite v = false).

Lemma tile_decoded_restored values : Forall2 restored values (tile_decoded values).
Proof.
  apply Forall2_same_length_lookup_2; [by eapply Forall2_length, tile_decoded_cells|].
  intros i v o Hv Ho. pose proof (Forall2_lookup_lr _ _ _ _ _ _ (tile_decoded_cells values) Hv Ho) as Hvo.
  simpl in Hvo. destruct Hvo as [->|[?|[-> Hall]]]; [by left|by right; left|right; right].
  split; [done|]. by eapply Hall, list_elem_of_lookup_2.
Qed.

Lemma find_unique {A} (P : A -> bool) l x :
  x ∈ l -> P x = true -> (forall y, y ∈ l -> P y = true -> y = x) -> find P l = Some x.
Proof.
  intros Hx HP Huniq. destruct (find P l) as [y|] eqn:Hf.
  - apply find_some in Hf as [Hin Hy]. f_equal. apply Huniq; [by apply list_elem_of_In|done].
  - apply list_elem_of_In in Hx. pose proof (find_none _ _ Hf x Hx). congruence.
Qed.

Context (w0 : HourWriter) (ops : list AddOp) (r : HourReader) (Hrb : reads_back w0 ops r).
Let gnx := w_nx w0.
Let gny := w_ny w0.

(** A variable is found by the name it was added under. *)
Lemma lookup_added k op :
  final_ops ops !! k = Some op -> lookup_var r (op_name op) = Ok (op_meta (Z.of_nat k) op).
Proof.
  intros Hk. unfold lookup_var, variable.
  rewrite (find_unique _ _ (op_meta (Z.of_nat k) op)); [done|by eapply rb_variable|..].
  - by rewrite op_meta_name, bool_decide_eq_true_2.
  - intros v Hv Hn. breflect. apply list_elem_of_lookup in Hv as [j Hj].
    pose proof (rb_variable w0 ops r Hrb k op Hk) as [i Hi]%list_elem_of_lookup.
    pose proof (ok_names _ (rok_meta _ (rb_ok _ _ _ Hrb))) as Hnd.
    pose proof (NoDup_lookup _ i j (op_name op) Hnd) as Hij.
    rewrite !list_lookup_fmap, Hi, Hj in Hij. simpl in Hij. rewrite op_meta_name, Hn in Hij.
    specialize (Hij eq_refl eq_refl). subst j. congruence.
Qed.

Lemma gathered_values values ty tx tile v :
  gather_tile gnx gny values ty tx = Ok tile -> v ∈ tile -> v ∈ values.
Proof.
  unfold gather_tile, rconcat. cbv zeta. intros Hg Hv. destruct (rmap _ _) as [rows| |] eqn:Hr; [|done..].
  injection Hg as <-. apply list_elem_of_join in Hv as (row & Hv & Hrow).
  apply list_elem_of_lookup in Hrow as [i Hi]. apply rmap_ok_inv in Hr.
  destruct (Forall2_lookup_r _ _ _ _ _ Hr Hi) as (y & _ & Hs). simpl in Hs.
  apply slice_inv in Hs as (_ & _ & ->). apply elem_of_take in Hv as (j & Hj & _).
  rewrite lookup_drop in Hj. by eapply list_elem_of_lookup_2.
Qed.

Lemma tile_coord values ty tx :
  (ty < tiles_high r)%nat -> (tx < tiles_wide r)%nat -> (ty, tx) ∈ data_coords gnx gny (SurfaceData values).
Proof.
  destruct (rb_dims w0 ops r Hrb) as [Hnx Hny]. unfold tiles_high, tiles_wide. rewrite Hnx, Hny.
  intros. by apply elem_of_grid_coords.
Qed.

Lemma written_tile k op values ty tx :
  alloc_succeeds -> final_ops ops !! k = Some op -> op_data op = SurfaceData values ->
  (ty < tiles_high r)%nat -> (tx < tiles_wide r)%nat ->
  exists tile, gather_tile gnx gny values ty tx = Ok tile /\
    tile_at r (op_meta (Z.of_nat k) op) ty tx = Ok (tile_decoded tile).
Proof.
  intros Halloc Hk Hd Hy Hx. destruct (rb_dims w0 ops r Hrb) as [Hnx Hny].
  destruct (stored_chunk w0 ops r Hrb k op (ty, tx) Hk) as (rec & comp & tile & ec & Hrec & Hg & He & Hst).
  { rewrite Hd. by apply tile_coord. }
  rewrite Hd in *. cbn [data_kind fst snd gather encode_values] in *. injection He as <-.
  exists tile. split; [done|]. unfold tile_at. rewrite Hrec. rrun.
  destruct (rb_run _ _ _ Hrb) as [w Hi].
  assert (data_ok gnx gny (SurfaceData values)) as Hok.
  { rewrite <- Hd. apply (op_validate_data _ w0), (final_valid w0 w ops Hi). by eapply list_elem_of_lookup_2. }
  assert ((ty, tx) ∈ data_coords gnx gny (SurfaceData values)) as Hco
    by by apply tile_coord.
  assert (length tile = tile_rows r ty * tile_cols r tx)%nat as Hlen.
  { rewrite (gather_length _ _ _ _ _ Hok Hco Hg). unfold tile_rows, tile_cols, data_rows, data_cols.
    rewrite Hnx, Hny. simpl. lia. }
  rewrite <- Hlen. rewrite (decode_tile_stored r rec (encode_f32_tile tile) comp); [apply decode_encode_f32|done..| |].
  - apply encode_f32_shape.
  - pose proof (chunk_value_bound _ _ _ _ _ Hok Hco Hg). simpl in *. unfold usize_limit, u64_limit. lia.
Qed.

(** The cell of the field read back, from the tile that was written. *)
Lemma written_cell k op values y x :
  alloc_succeeds -> final_ops ops !! k = Some op -> op_data op = SurfaceData values ->
  (y < gny)%nat -> (x < gnx)%nat ->
  exists tile i, gather_tile gnx gny values (y / TILE_Y) (x / TILE_X) = Ok tile /\
    tile !! i = values !! (y * gnx + x)%nat /\
    tile_decoded tile !! i = Some (cell_2d r (op_meta (Z.of_nat k) op) y x).
Proof.
  intros Halloc Hk Hd Hy Hx. destruct (rb_dims w0 ops r Hrb) as [Hnx Hny]. fold gnx in Hnx. fold gny in Hny.
  destruct (cell_in_tile r y x) as (Hty & Htx & Hry & Hrx); [by rewrite Hny|by rewrite Hnx|].
  destruct (written_tile k op values _ _ Halloc Hk Hd Hty Htx) as (tile & Hg & Hat).
  pose proof (Nat.div_mod y TILE_Y ltac:(done)) as Hdy. pose proof (Nat.div_mod x TILE_X ltac:(done)) as Hdx.
  exists tile, (y mod TILE_Y * tile_cols r (x / TILE_X) + x mod TILE_X)%nat. split; [done|]. split.
  - destruct (rb_run _ _ _ Hrb) as [w Hi].
    destruct (gather_ok gnx gny (SurfaceData values) (y / TILE_Y) (x / TILE_X)) as (t & Hgt & _ & Hcell).
    + rewrite <- Hd. apply (op_validate_data _ w0), (final_valid w0 w ops Hi). by eapply list_elem_of_lookup_2.
    + by apply tile_coord.
    + cbn [gather fst snd] in Hgt. rewrite Hg in Hgt. injection Hgt as <-.
      specialize (Hcell (y mod TILE_Y)%nat (x mod TILE_X)%nat 0%nat). unfold data_rows, data_cols in Hcell.
      cbn [data_cy data_cx data_levels data_at] in Hcell. unfold tile_rows, tile_cols in *. rewrite Hnx, Hny in *.
      rewrite !Nat.mul_1_r, Nat.add_0_r in Hcell. rewrite Hcell by (done || lia). f_equal.
      rewrite (Nat.mul_comm _ TILE_Y), <- Hdy, (Nat.mul_comm _ TILE_X), <- Hdx. done.
  - pose proof (tile_cell_lookup r (op_meta (Z.of_nat k) op) _ _ _ y x Hat) as Hl.
    rewrite <- Hl by lia. f_equal. rewrite (Nat.mul_comm _ TILE_Y), (Nat.mul_comm _ TILE_X).
    f_equal; [f_equal|]; lia.
Qed.

Lemma written_surface k op values :
  alloc_succeeds -> final_ops ops !! k = Some op -> op_data op = SurfaceData values ->
  read_full_2d r (op_name op) = Ok (field_2d r (op_meta (Z.of_nat k) op)).
Proof.
  intros Halloc Hk Hd. apply read_full_2d_total; [done|apply (rb_ok _ _ _ Hrb)| |].
  - unfold lookup_2d. rewrite (lookup_added k op Hk). rrun. by destruct op.
  - intros ty tx Hy Hx. destruct (written_tile k op values ty tx Halloc Hk Hd Hy Hx) as (t & _ & Ht). by rewrite Ht; eexists.
Qed.

Lemma surface_cells k op values (R : f32 -> f32 -> Prop) :
  alloc_succeeds -> final_ops ops !! k = Some op -> op_data op = SurfaceData values ->
  (forall ty tx tile, (ty < div_ceil gny TILE_Y)%nat -> (tx < div_ceil gnx TILE_X)%nat ->
     gather_tile gnx gny values ty tx = Ok tile -> Forall2 R tile (tile_decoded tile)) ->
  Forall2 R values (field_2d r (op_meta (Z.of_nat k) op)).
Proof.
  intros Halloc Hk Hd HR. destruct (rb_dims w0 ops r Hrb) as [Hnx Hny]. fold gnx in Hnx. fold gny in Hny. destruct (rb_run _ _ _ Hrb) as [w Hi].
  assert (length values = gnx * gny)%nat as Hlen.
  { pose proof (proj1 (op_validate_data op w0 (final_valid w0 w ops Hi op (list_elem_of_lookup_2 _ _ _ Hk)))) as Ho.
    by rewrite Hd in Ho. }
  apply Forall2_same_length_lookup_2; [rewrite length_field_2d, Hnx, Hny; lia|].
  intros i v o Hv Ho. pose proof (lookup_lt_Some _ _ _ Hv) as Hlt.
  assert (gnx <> 0)%nat as Hne by (intros Hz; rewrite Hz in Hlen; lia).
  pose proof (Nat.div_mod i gnx Hne) as Hdm. pose proof (Nat.mod_upper_bound i gnx Hne) as Hm.
  assert (i / gnx < gny)%nat as Hq by (apply Nat.Div0.div_lt_upper_bound; lia).
  rewrite Nat.mul_comm in Hdm. rewrite Hdm in Hv, Ho.
  destruct (written_cell k op values _ _ Halloc Hk Hd Hq Hm) as (tile & j & Hg & Ht & Hc).
  rewrite <- Hnx in Ho at 2. rewrite lookup_field_2d in Ho by (rewrite ?Hnx, ?Hny; done). injection Ho as <-.
  rewrite Hv in Ht. refine (Forall2_lookup_lr _ _ _ _ _ _ (HR _ _ _ _ _ Hg) Ht Hc); (apply div_lt_div_ceil; [unfold TILE_Y, TILE_X; lia|done]).
Qed.
End surface.

(** ** Pressure variables *)

Section pressure.
Context `{F32Ties, External, !ExternalLaws}.
Context (w0 : HourWriter) (ops : list AddOp) (r : HourReader) (Hrb : reads_back w0 ops r).
Let gnx := w_nx w0.
Let gny := w_ny w0.

Lemma chunk_coord planes cy cx :
  (cy < cols_high r)%nat -> (cx < cols_wide r)%nat -> (cy, cx) ∈ data_coords gnx gny (PressureData planes).
Proof.
  destruct (rb_dims w0 ops r Hrb) as [Hnx Hny]. unfold cols_high, cols_wide. rewrite Hnx, Hny.
  intros. by apply elem_of_grid_coords.
Qed.

(** The levels of the variable are the planes that were added. *)
Lemma added_levels k op planes :
  final_ops ops !! k = Some op -> op_data op = PressureData planes ->
  data_ok gnx gny (PressureData planes) /\ level_count (op_meta (Z.of_nat k) op) = length planes.
Proof.
  intros Hk Hd. destruct (rb_run _ _ _ Hrb) as [w Hi].
  pose proof (op_validate_data op w0 (final_valid w0 w ops Hi op (list_elem_of_lookup_2 _ _ _ Hk))) as [Hok Hl].
  rewrite Hd in Hok, Hl. destruct Hl as (Hl & _). split; [done|]. unfold level_count. by rewrite op_meta_levels.
Qed.

Lemma written_chunk k op planes cy cx :
  alloc_succeeds -> final_ops ops !! k = Some op -> op_data op = PressureData planes ->
  (cy < cols_high r)%nat -> (cx < cols_wide r)%nat ->
  exists values ec, gather_columns gnx gny planes cy cx = Ok values /\ encode_affine_i16 values = Ok ec /\
    chunk_at r (op_meta (Z.of_nat k) op) cy cx = Ok (affine_cell ec <$> values).
Proof.
  intros Halloc Hk Hd Hy Hx. destruct (rb_dims w0 ops r Hrb) as [Hnx Hny]. fold gnx in Hnx. fold gny in Hny.
  destruct (added_levels k op planes Hk Hd) as [Hok Hlev].
  pose proof (chunk_coord planes cy cx Hy Hx) as Hco.
  destruct (stored_chunk w0 ops r Hrb k op (cy, cx) Hk) as (rec & comp & values & ec & Hrec & Hg & He & Hst);
    [by rewrite Hd|].
  rewrite Hd in *. cbn [data_kind fst snd gather encode_values] in *.
  exists values, ec. split_and!; [done..|]. unfold chunk_at. rewrite Hrec. cbn [mbind result_bind]. rewrite Hlev.
  assert (length values = chunk_h r cy * chunk_w r cx * length planes)%nat as Hlen.
  { rewrite (gather_length _ _ _ _ _ Hok Hco Hg). unfold chunk_h, chunk_w, data_rows, data_cols.
    rewrite Hnx, Hny. simpl. lia. }
  rewrite <- Hlen, (decode_column_stored r rec ec comp); [by apply decode_encode_affine|done..|].
  by apply encode_affine_shape.
Qed.

Lemma written_volume k op planes :
  alloc_succeeds -> final_ops ops !! k = Some op -> op_data op = PressureData planes ->
  read_full_3d r (op_name op) = Ok (volume_3d r (op_meta (Z.of_nat k) op)).
Proof.
  intros Halloc Hk Hd. apply read_full_3d_total; [done|apply (rb_ok _ _ _ Hrb)| |].
  - unfold lookup_3d. rewrite (lookup_added w0 ops r Hrb k op Hk). rrun. by destruct op.
  - intros cy cx Hy Hx.
    destruct (written_chunk k op planes cy cx Halloc Hk Hd Hy Hx) as (values & ec & _ & _ & ->). by eexists.
Qed.

Lemma written_level_cell k op planes z y x v :
  alloc_succeeds -> final_ops ops !! k = Some op -> op_data op = PressureData planes ->
  (y < gny)%nat -> (x < gnx)%nat -> data_at gnx (PressureData planes) y x z = Some v ->
  exists values ec, gather_columns gnx gny planes (y / COL_Y) (x / COL_X) = Ok values /\
    encode_affine_i16 values = Ok ec /\ v ∈ values /\
    volume_3d r (op_meta (Z.of_nat k) op) !! (z * (gny * gnx) + (y * gnx + x))%nat = Some (affine_cell ec v).
Proof.
  intros Halloc Hk Hd Hy Hx Hv. destruct (rb_dims w0 ops r Hrb) as [Hnx Hny]. fold gnx in Hnx. fold gny in Hny.
  destruct (added_levels k op planes Hk Hd) as [Hok Hlev].
  assert (z < length planes)%nat as Hz.
  { simpl in Hv. destruct (planes !! z) eqn:Hp; [by eapply lookup_lt_Some|done]. }
  destruct (cell_in_chunk r y x) as (Hcy & Hcx & Hry & Hrx); [by rewrite Hny|by rewrite Hnx|].
  destruct (written_chunk k op planes _ _ Halloc Hk Hd Hcy Hcx) as (values & ec & Hg & He & Hat).
  pose proof (Nat.div_mod y COL_Y ltac:(done)) as Hdy. pose proof (Nat.div_mod x COL_X ltac:(done)) as Hdx.
  assert (values !! ((y mod COL_Y * chunk_w r (x / COL_X) + x mod COL_X) * length planes + z)%nat = Some v) as Hval.
  { destruct (gather_ok gnx gny (PressureData planes) (y / COL_Y) (x / COL_X) Hok) as (t & Hgt & _ & Hcell);
      [by apply chunk_coord|].
    cbn [gather fst snd] in Hgt. rewrite Hg in Hgt. injection Hgt as <-.
    specialize (Hcell (y mod COL_Y)%nat (x mod COL_X)%nat z). unfold data_rows, data_cols in Hcell.
    cbn [data_cy data_cx data_levels] in Hcell. unfold chunk_h, chunk_w in *. rewrite Hnx, Hny in *.
    rewrite (Nat.mul_comm (y / COL_Y)), <- Hdy, (Nat.mul_comm (x / COL_X)), <- Hdx, Hv in Hcell.
    rewrite <- Hcell; [f_equal; lia|lia|lia|lia]. }
  exists values, ec. split_and!; [done..|by eapply list_elem_of_lookup_2|].
  pose proof (lookup_volume_3d r (op_meta (Z.of_nat k) op) z y x) as Hvol. rewrite Hnx, Hny, Hlev in Hvol.
  rewrite Hvol by done.
  pose proof (chunk_cell_local r _ _ _ _ _ _ z Hcy Hcx Hat Hry Hrx) as Hloc.
  rewrite (Nat.mul_comm (y / COL_Y)), <- Hdy, (Nat.mul_comm (x / COL_X)), <- Hdx, Hlev in Hloc.
  rewrite <- Hloc by done. by rewrite list_lookup_fmap, Hval.
Qed.
End pressure.

(** ** Properties *)

(** C7: what is written is what is read. Whatever adds a fresh writer takes
    and however long the run, the file it finishes, if it stays within the
    limits the reader enforces, is opened; the opened metadata is the written
    one; and the full read of every surface variable that was added returns a
    field of the same size in which every cell has the bits that were added,
    except that a zero may change its sign and a non-finite cell may become
    the missing value; and it returns exactly the bits that were added when
    every tile has a finite value and zeros of one sign. *)
Theorem surface_write_read `{F32Ties, External} (Hlaws : ExternalLaws)
    mdl rn hr t gnx gny hash build ops file meta src :
  alloc_succeeds ->
  (w ← run_ops ops (new_with_time mdl rn hr t gnx gny hash build); finish w) = Ok (file, meta) ->
  within_limits meta file ->
  exists r, open_reader src true file = Ok r /\ r_meta r = meta /\
    forall name units sel values, AddSurface name units sel values ∈ ops ->
      exists out, read_full_2d r name = Ok out /\ Forall2 restored values out /\
        ((forall ty tx tile, (ty < div_ceil gny TILE_Y)%nat -> (tx < div_ceil gnx TILE_X)%nat ->
            gather_tile gnx gny values ty tx = Ok tile -> Exists (fun v => is_finite v = true) tile) ->
         (forall u v, u ∈ values -> v ∈ values -> key u = 0 -> key v = 0 -> u = v) -> out = values).
Proof.
  intros Halloc Hf Hl. set (w0 := new_with_time mdl rn hr t gnx gny hash build) in *.
  destruct (run_ops ops w0) as [w| |] eqn:Hrun; [|done..]. cbn [mbind result_bind] in Hf.
  pose proof (run_ops_inv w0 ops w (fresh_new _ _ _ _ _ _ _ _) Hrun) as Hi.
  destruct (written_file_opens w0 w ops file meta src Halloc Hi Hf Hl) as (r & Hr & Hm & Hrb).
  exists r. split_and!; [done..|]. intros name units sel values Hin. rewrite <- final_ops_perm in Hin.
  apply list_elem_of_lookup in Hin as [k Hk]. set (op := AddSurface name units sel values) in *.
  exists (field_2d r (op_meta (Z.of_nat k) op)). split_and!.
  - exact (written_surface w0 ops r Hrb k op values Halloc Hk eq_refl).
  - apply (surface_cells w0 ops r Hrb k op values restored Halloc Hk eq_refl). intros. apply tile_decoded_restored.
  - intros Hfin Hzero. symmetry. apply list_eq_Forall2.
    apply (surface_cells w0 ops r Hrb k op values eq Halloc Hk eq_refl). intros ty tx tile Hty Htx Hg.
    rewrite tile_decoded_id; [by apply list_eq_Forall2|by apply list.Exists_exists, (Hfin ty tx)|].
    intros u v Hu Hv. apply Hzero; by eapply gathered_values.
Qed.

(** C10: the same for pressure variables, deferred or not: the full read of
    every pressure variable that was added returns a volume in which every
    cell of every level is what the affine codec makes of the added value in
    its chunk: the missing value for a value that is not finite, and for a
    finite one the chunk's constant or [center + scale * q]. *)
Theorem pressure_write_read `{F32Ties, External} (Hlaws : ExternalLaws)
    mdl rn hr t gnx gny hash build ops file meta src :
  alloc_succeeds ->
  (w ← run_ops ops (new_with_time mdl rn hr t gnx gny hash build); finish w) = Ok (file, meta) ->
  within_limits meta file ->
  exists r, open_reader src true file = Ok r /\ r_meta r = meta /\
    forall name units sel levels planes,
      AddPressure name units sel levels planes ∈ ops \/ AddDeferred name units sel levels planes ∈ ops ->
      exists out, read_full_3d r name = Ok out /\ length out = (length planes * (gny * gnx))%nat /\
        forall z y x plane v, planes !! z = Some plane -> (y < gny)%nat -> (x < gnx)%nat ->
          plane !! (y * gnx + x)%nat = Some v ->
          exists values ec, gather_columns gnx gny planes (y / COL_Y) (x / COL_X) = Ok values /\
            encode_affine_i16 values = Ok ec /\ v ∈ values /\
            out !! (z * (gny * gnx) + (y * gnx + x))%nat = Some (affine_cell ec v).
Proof.
  intros Halloc Hf Hl. set (w0 := new_with_time mdl rn hr t gnx gny hash build) in *.
  destruct (run_ops ops w0) as [w| |] eqn:Hrun; [|done..]. cbn [mbind result_bind] in Hf.
  pose proof (run_ops_inv w0 ops w (fresh_new _ _ _ _ _ _ _ _) Hrun) as Hi.
  destruct (written_file_opens w0 w ops file meta src Halloc Hi Hf Hl) as (r & Hr & Hm & Hrb).
  exists r. split_and!; [done..|]. intros name units sel levels planes Hin.
  assert (exists k op, final_ops ops !! k = Some op /\ op_name op = name /\ op_data op = PressureData planes)
    as (k & op & Hk & <- & Hd).
  { rewrite <- final_ops_perm in Hin. destruct Hin as [[k Hk]%list_elem_of_lookup|[k Hk]%list_elem_of_lookup];
      eexists k, _; split_and!; done. }
  exists (volume_3d r (op_meta (Z.of_nat k) op)). split_and!.
  - exact (written_volume w0 ops r Hrb k op planes Halloc Hk Hd).
  - rewrite length_volume_3d. destruct (rb_dims w0 ops r Hrb) as [-> ->].
    by destruct (added_levels w0 ops r Hrb k op planes Hk Hd) as [_ ->].
  - intros z y x plane v Hp Hy Hx Hv.
    apply (written_level_cell w0 ops r Hrb k op planes z y x v Halloc Hk Hd Hy Hx). simpl. by rewrite Hp.
Qed.

Lemma sample_within_limits : within_limits sample_meta sample_file.
Proof.
  assert (length sample_file = 308%nat) as Hlen by (vm_compute; reflexivity).
  unfold within_limits. rewrite Hlen. split_and!; [split; done|done| |done| |done].
  - repeat constructor; done.
  - intros mb [= <-]. done.
Qed.

Lemma sample_finish : (w ← run_ops sample_ops sample_writer; finish w) = Ok (sample_file, sample_meta).
Proof. vm_compute. reflexivity. Qed.

Lemma surface_write_read_witness : exists r,
  open_reader 7 true sample_file = Ok r /\ r_meta r = sample_meta /\
  exists out, read_full_2d r "t2m" = Ok out /\ Forall2 restored sample_values out.
Proof.
  destruct (surface_write_read table_laws "hrrr" "20260101_00z" 3 None 3 2 "hash" "build" sample_ops
    sample_file sample_meta 7 table_alloc sample_finish sample_within_limits) as (r & Hr & Hm & Hread).
  exists r. split_and!; [done..|].
  destruct (Hread "t2m" "K" tt sample_values) as (out & Ho & Hv & _); [left|]. eauto.
Defined.

Lemma pressure_write_read_witness : exists r,
  open_reader 7 true sample_file = Ok r /\
  exists out, read_full_3d r "tmp" = Ok out /\ length out = 12%nat.
Proof.
  destruct (pressure_write_read table_laws "hrrr" "20260101_00z" 3 None 3 2 "hash" "build" sample_ops
    sample_file sample_meta 7 table_alloc sample_finish sample_within_limits) as (r & Hr & Hm & Hread).
  exists r. split; [done|].
  destruct (Hread "tmp" "K" tt [850; 500] sample_planes) as (out & Ho & Hl & _); [left; right; left|].
  exists out. split; [done|]. exact Hl.
Defined.
