(* ===== verification/Text.v ===== *)
(** * Strings

    What the repository uses of Rust strings: a [str] is the string of its
    UTF-8 bytes. ASCII classes and case, [trim], number parsing and the
    zero-padded number formats, the order of [String], and the path component
    check of [crates/rw-store/src/run.rs] that guards every name which
    becomes a file or directory. *)
From Stdlib Require Import ZArith Lia Ascii String.
From stdpp Require Import base list strings numbers sets.
From S2P Require Import Prelude Format.

Local Open Scope Z_scope.

(** ** Bytes *)

Definition byte_val (c : ascii) : Z := Z.of_N (N_of_ascii c).
Definition chr (z : Z) : ascii := ascii_of_N (Z.to_N z).

Definition is_ascii_digit (c : ascii) : bool := (48 <=? byte_val c) && (byte_val c <=? 57).
Definition is_ascii_upper (c : ascii) : bool := (65 <=? byte_val c) && (byte_val c <=? 90).
Definition is_ascii_lower (c : ascii) : bool := (97 <=? byte_val c) && (byte_val c <=? 122).
Definition is_ascii_alphanumeric (c : ascii) : bool := is_ascii_digit c || is_ascii_upper c || is_ascii_lower c.
Definition ascii_lower (c : ascii) : ascii := if is_ascii_upper c then chr (byte_val c + 32) else c.
Definition ascii_upper (c : ascii) : ascii := if is_ascii_lower c then chr (byte_val c - 32) else c.

Fixpoint bytes (s : string) : list ascii :=
  match s with EmptyString => [] | String c s => c :: bytes s end.
Fixpoint of_bytes (l : list ascii) : string :=
  match l with [] => EmptyString | c :: l => String c (of_bytes l) end.

(** [str::len], [to_ascii_lowercase], [to_ascii_uppercase], [contains(char)]
    for an ASCII character. *)
Definition str_len (s : string) : Z := Z.of_nat (length (bytes s)).
Definition to_ascii_lowercase (s : string) : string := of_bytes (ascii_lower <$> bytes s).
Definition to_ascii_uppercase (s : string) : string := of_bytes (ascii_upper <$> bytes s).
Definition contains_byte (z : Z) (s : string) : bool := existsb (fun c => byte_val c =? z) (bytes s).
(** [Ord for String]: the lexicographic order of the bytes. *)
Fixpoint bytes_compare (a b : list ascii) : comparison :=
  match a, b with
  | [], [] => Eq
  | [], _ :: _ => Lt
  | _ :: _, [] => Gt
  | c :: a, d :: b => match byte_val c ?= byte_val d with Eq => bytes_compare a b | o => o end
  end.
Definition str_compare (a b : string) : comparison := bytes_compare (bytes a) (bytes b).
Definition str_leb (a b : string) : bool := match str_compare a b with Gt => false | _ => true end.

(** ** [trim] *)

(** The UTF-8 encodings of the characters with the [White_Space] property. *)
Definition whitespace : list (list Z) :=
  [[9]; [10]; [11]; [12]; [13]; [32]; [194; 133]; [194; 160]; [225; 154; 128];
   [226; 128; 128]; [226; 128; 129]; [226; 128; 130]; [226; 128; 131]; [226; 128; 132]; [226; 128; 133];
   [226; 128; 134]; [226; 128; 135]; [226; 128; 136]; [226; 128; 137]; [226; 128; 138];
   [226; 128; 168]; [226; 128; 169]; [226; 128; 175]; [226; 129; 159]; [227; 128; 128]].

Fixpoint strip (p : list Z) (l : list ascii) : option (list ascii) :=
  match p, l with
  | [], l => Some l
  | z :: p, c :: l => if byte_val c =? z then strip p l else None
  | _ :: _, [] => None
  end.
Fixpoint first_some {A B} (f : A -> option B) (l : list A) : option B :=
  match l with
  | [] => None
  | a :: l => match f a with Some b => Some b | None => first_some f l end
  end.
Fixpoint trim_with (ws : list (list Z)) (fuel : nat) (l : list ascii) : list ascii :=
  match fuel with
  | O => l
  | S fuel => match first_some (fun p => strip p l) ws with Some l => trim_with ws fuel l | None => l end
  end.
(** [str::trim]: leading white space, then, on the reversed bytes, trailing
    white space. Each round removes at least one byte. *)
Definition trim (s : string) : string :=
  let l := trim_with whitespace (length (bytes s)) (bytes s) in
  of_bytes (reverse (trim_with (reverse <$> whitespace) (length l) (reverse l))).

(** ** Numbers *)

Definition digit_val (c : ascii) : Z := byte_val c - 48.
Fixpoint digits_from (acc : Z) (l : list ascii) : option Z :=
  match l with
  | [] => Some acc
  | c :: l => if is_ascii_digit c then digits_from (10 * acc + digit_val c) l else None
  end.
(** [str::parse] to an unsigned type with the given limit; one leading plus
    sign is allowed. *)
Definition parse_unsigned (limit : Z) (l : list ascii) : option Z :=
  let l := match l with c :: rest => if byte_val c =? 43 then rest else l | [] => l end in
  if bool_decide (l = []) then None
  else n ← digits_from 0 l; if n <? limit then Some n else None.

(** [str::parse] to [i64]. *)
Definition parse_i64 (l : list ascii) : option Z :=
  match l with
  | c :: rest =>
      if byte_val c =? 45 then
        if bool_decide (rest = []) then None
        else n ← digits_from 0 rest; if n <=? 2 ^ 63 then Some (- n) else None
      else parse_unsigned (2 ^ 63) l
  | [] => None
  end.

(** Decimal digits of a non-negative number, at least one. *)
Fixpoint decimal (fuel : nat) (z : Z) (acc : list ascii) : list ascii :=
  match fuel with
  | O => acc
  | S fuel =>
      let acc := chr (48 + z mod 10) :: acc in
      if z <? 10 then acc else decimal fuel (z / 10) acc
  end.
(** [{:0w}] of an unsigned number; 20 digits hold any [u64]. *)
Definition fmt_padded (w : nat) (z : Z) : list ascii :=
  let d := decimal 20 z [] in replicate (w - length d) (chr 48) ++ d.

(** ** Slices *)

(** [str::is_char_boundary]: not inside a UTF-8 sequence. *)
Definition is_char_boundary (l : list ascii) (i : nat) : bool :=
  (i =? 0)%nat || (i =? length l)%nat
  || match l !! i with Some c => negb ((128 <=? byte_val c) && (byte_val c <? 192)) | None => false end.
(** [&s[a..b]], which panics out of range and inside a character. *)
Definition str_slice {E} (l : list ascii) (a b : nat) : result E (list ascii) :=
  if (a <=? b)%nat && is_char_boundary l a && is_char_boundary l b then Ok (take (b - a) (drop a l)) else Panic.

(** ** Path components *)

Inductive Component := RootDir | CurDir | ParentDir | Normal (name : list ascii).

Fixpoint split_on (z : Z) (l : list ascii) : list (list ascii) :=
  match l with
  | [] => [[]]
  | c :: l =>
      if byte_val c =? z then [] :: split_on z l
      else match split_on z l with part :: parts => (c :: part) :: parts | [] => [[c]] end
  end.
(** [Path::components] on Unix: repeated separators and inner dots vanish. *)
Definition components (l : list ascii) : list Component :=
  let dot := [chr 46] in
  let dotdot := [chr 46; chr 46] in
  let parts := split_on 47 l in
  let inner := parts ≫= (fun p =>
    if bool_decide (p = []) || bool_decide (p = dot) then []
    else if bool_decide (p = dotdot) then [ParentDir] else [Normal p]) in
  match parts with
  | [] :: _ :: _ => RootDir :: inner
  | p :: _ => if bool_decide (p = dot) then CurDir :: inner else inner
  | [] => inner
  end.

(** [char::is_control]: the C0 controls, DEL and the two-byte C1 controls. *)
Fixpoint has_control (l : list ascii) : bool :=
  match l with
  | [] => false
  | c :: l => (byte_val c <? 32) || (byte_val c =? 127)
              || ((byte_val c =? 194) && match l with d :: _ => (128 <=? byte_val d) && (byte_val d <=? 159) | [] => false end)
              || has_control l
  end.

Definition ends_with_byte (z : Z) (l : list ascii) : bool :=
  match reverse l with c :: _ => byte_val c =? z | [] => false end.

Fixpoint trim_end_bytes (zs : list Z) (l : list ascii) : list ascii :=
  match l with
  | [] => []
  | c :: l =>
      match trim_end_bytes zs l with
      | [] => if existsb (Z.eqb (byte_val c)) zs then [] else [c]
      | l => c :: l
      end
  end.

(** [is_windows_device_name]. *)
Definition is_windows_device_name (l : list ascii) : bool :=
  let stem := of_bytes (ascii_upper <$> trim_end_bytes [32; 46] (default [] (head (split_on 46 l)))) in
  existsb (fun d => bool_decide (stem = d)) ["CON"; "PRN"; "AUX"; "NUL"; "CONIN$"; "CONOUT$"; "CLOCK$"]
  || match bytes stem with
     | [a; b; c; d] =>
         let prefix := of_bytes [a; b; c] in
         (bool_decide (prefix = "COM") || bool_decide (prefix = "LPT"))
         && (49 <=? byte_val d) && (byte_val d <=? 57)
     | _ => false
     end.

(** [validate_store_component]. *)
Definition validate_store_component (value : string) : RwResult unit :=
  let l := bytes value in
  let first_is_exact_normal :=
    match head (components l) with Some (Normal component) => bool_decide (component = l) | _ => false end in
  reject (negb first_is_exact_normal
          || bool_decide (tail (components l) <> [])
          || contains_byte 92 value || contains_byte 0 value || contains_byte 58 value
          || existsb (fun c => existsb (Z.eqb (byte_val c)) [60; 62; 34; 124; 63; 42]) l
          || ends_with_byte 46 l || ends_with_byte 32 l || has_control l || is_windows_device_name l)
    (Meta "{} '{}' must be exactly one normal path component").

(** [Path::join] on Unix. *)
Definition path_join (root value : list ascii) : list ascii :=
  match value with
  | c :: _ =>
      if byte_val c =? 47 then value
      else if bool_decide (root = []) || ends_with_byte 47 root then root ++ value else root ++ chr 47 :: value
  | [] => if bool_decide (root = []) || ends_with_byte 47 root then root else root ++ [chr 47]
  end.

(** ** Lemmas on bytes and strings *)

Lemma byte_val_range c : 0 <= byte_val c < 256.
Proof.
  unfold byte_val. pose proof (N_ascii_bounded c). lia.
Qed.

Lemma byte_val_inj c d : byte_val c = byte_val d -> c = d.
Proof.
  unfold byte_val. intros H. apply N2Z.inj in H.
  rewrite <- (ascii_N_embedding c), <- (ascii_N_embedding d), H. done.
Qed.

Lemma byte_val_chr z : 0 <= z < 256 -> byte_val (chr z) = z.
Proof.
  intros H. unfold byte_val, chr. rewrite N_ascii_embedding by lia. lia.
Qed.

Lemma bytes_of_bytes l : bytes (of_bytes l) = l.
Proof. induction l; simpl; congruence. Qed.

Lemma of_bytes_bytes s : of_bytes (bytes s) = s.
Proof. induction s; simpl; congruence. Qed.

#[global] Instance bytes_inj : Inj (=) (=) bytes.
Proof. intros a b H. rewrite <- (of_bytes_bytes a), <- (of_bytes_bytes b), H. done. Qed.

#[global] Instance of_bytes_inj : Inj (=) (=) of_bytes.
Proof. intros a b H. rewrite <- (bytes_of_bytes a), <- (bytes_of_bytes b), H. done. Qed.

Lemma bytes_app a b : bytes (String.append a b) = bytes a ++ bytes b.
Proof. induction a as [|c a IH]; [done|]. simpl. f_equal. exact IH. Qed.

(** The order of strings is total. *)
Lemma bytes_compare_eq a b : bytes_compare a b = Eq <-> a = b.
Proof.
  revert b. induction a as [|c a IH]; intros [|d b]; simpl; try done.
  destruct (Z.compare_spec (byte_val c) (byte_val d)) as [H|H|H].
  - rewrite IH. apply byte_val_inj in H as ->. split; [by intros ->|by intros [= ->]].
  - split; [done|]. intros [= -> ->]. lia.
  - split; [done|]. intros [= -> ->]. lia.
Qed.

Lemma bytes_compare_antisym a b : bytes_compare b a = CompOpp (bytes_compare a b).
Proof.
  revert b. induction a as [|c a IH]; intros [|d b]; simpl; try done.
  rewrite (Z.compare_antisym (byte_val c) (byte_val d)).
  destruct (byte_val c ?= byte_val d); simpl; auto.
Qed.

Lemma bytes_compare_lt_trans a b c :
  bytes_compare a b = Lt -> bytes_compare b c = Lt -> bytes_compare a c = Lt.
Proof.
  revert b c. induction a as [|x a IH]; intros [|y b] [|z c]; simpl; try done.
  destruct (Z.compare_spec (byte_val x) (byte_val y)), (Z.compare_spec (byte_val y) (byte_val z)),
    (Z.compare_spec (byte_val x) (byte_val z)); try done; try lia; eauto.
Qed.

(** Strings of equal length compare part by part. *)
Lemma bytes_compare_app a b a' b' :
  length a = length b ->
  bytes_compare (a ++ a') (b ++ b') = match bytes_compare a b with Eq => bytes_compare a' b' | o => o end.
Proof.
  revert b. induction a as [|c a IH]; intros [|d b]; simpl; try done.
  intros [= H]. destruct (byte_val c ?= byte_val d); auto.
Qed.

(** ** Lemmas on decimal numbers *)

(** The last [w] decimal digits of a number. *)
Fixpoint fixed (w : nat) (z : Z) : list ascii :=
  match w with O => [] | S w => fixed w (z / 10) ++ [chr (48 + z mod 10)] end.

Definition all_digits (l : list ascii) : Prop := Forall (fun c => is_ascii_digit c = true) l.

Lemma is_digit_chr z : 0 <= z < 10 -> is_ascii_digit (chr (48 + z)) = true.
Proof. intros H. unfold is_ascii_digit. rewrite byte_val_chr by lia. lia. Qed.

Lemma digit_val_chr z : 0 <= z < 10 -> digit_val (chr (48 + z)) = z.
Proof. intros H. unfold digit_val. rewrite byte_val_chr by lia. lia. Qed.

Lemma length_fixed w z : length (fixed w z) = w.
Proof. revert z. induction w as [|w IH]; intros z; simpl; [done|]. rewrite length_app, IH. simpl. lia. Qed.

Lemma fixed_zero w : fixed w 0 = replicate w (chr 48).
Proof.
  induction w as [|w IH]; [done|]. simpl. change (0 / 10) with 0. rewrite IH, replicate_cons_app. done.
Qed.

Lemma fixed_digits w z : all_digits (fixed w z).
Proof.
  revert z. induction w as [|w IH]; intros z; [constructor|]. simpl. apply Forall_app_2; [apply IH|].
  repeat constructor. apply is_digit_chr. apply Z.mod_pos_bound. lia.
Qed.

Lemma decimal_acc fuel z acc : decimal fuel z acc = decimal fuel z [] ++ acc.
Proof.
  revert z acc. induction fuel as [|f IH]; intros z acc; simpl; [done|].
  destruct (z <? 10); [done|]. rewrite (IH _ (_ :: acc)), (IH _ [_]), <- app_assoc. done.
Qed.

Lemma decimal_fixed w fuel z :
  (1 <= w <= fuel)%nat -> 0 <= z < 10 ^ Z.of_nat w ->
  (length (decimal fuel z []) <= w)%nat
  /\ replicate (w - length (decimal fuel z [])) (chr 48) ++ decimal fuel z [] = fixed w z.
Proof.
  revert fuel z. induction w as [|w IH]; intros fuel z Hw Hz; [lia|].
  destruct fuel as [|f]; [lia|]. cbn [decimal fixed].
  destruct (Z.ltb_spec z 10) as [Hl|Hl].
  - simpl. split; [lia|]. rewrite Z.div_small, fixed_zero by lia. rewrite Nat.sub_0_r. done.
  - assert (1 <= w)%nat by (destruct w; simpl in Hz; lia).
    rewrite Nat2Z.inj_succ, Z.pow_succ_r in Hz by lia.
    destruct (IH f (z / 10)) as [IHl IHe]; [lia| |].
    { split; [apply Z.div_pos; lia|]. apply Z.div_lt_upper_bound; lia. }
    rewrite decimal_acc, length_app. simpl length. split; [lia|].
    rewrite app_assoc, <- IHe. do 3 f_equal. lia.
Qed.

(** [{:0w}] of a number that fits prints its [w] digits. *)
Lemma fmt_padded_fixed w z : (1 <= w <= 20)%nat -> 0 <= z < 10 ^ Z.of_nat w -> fmt_padded w z = fixed w z.
Proof. intros Hw Hz. unfold fmt_padded. apply decimal_fixed; done. Qed.

Lemma digits_from_snoc acc l c :
  digits_from acc (l ++ [c]) = v ← digits_from acc l; if is_ascii_digit c then Some (10 * v + digit_val c) else None.
Proof.
  revert acc. induction l as [|d l IH]; intros acc; simpl; [done|]. destruct (is_ascii_digit d); [apply IH|done].
Qed.

Lemma digits_from_fixed w z : 0 <= z < 10 ^ Z.of_nat w -> digits_from 0 (fixed w z) = Some z.
Proof.
  revert z. induction w as [|w IH]; intros z Hz; simpl.
  - simpl in Hz. f_equal. lia.
  - rewrite Nat2Z.inj_succ, Z.pow_succ_r in Hz by lia.
    rewrite digits_from_snoc, IH; simpl.
    + rewrite is_digit_chr, digit_val_chr by (apply Z.mod_pos_bound; lia). f_equal. pose proof (Z.div_mod z 10). lia.
    + split; [apply Z.div_pos; lia|]. apply Z.div_lt_upper_bound; lia.
Qed.

Lemma digit_range c : is_ascii_digit c = true -> 0 <= digit_val c < 10 /\ c = chr (48 + digit_val c).
Proof.
  unfold is_ascii_digit, digit_val. intros H. split; [lia|]. apply byte_val_inj. rewrite byte_val_chr; lia.
Qed.

(** A list of digits is the fixed-width print of its value. *)
Lemma all_digits_fixed l :
  all_digits l -> exists z, 0 <= z < 10 ^ Z.of_nat (length l) /\ digits_from 0 l = Some z /\ l = fixed (length l) z.
Proof.
  induction l as [|c l IH] using rev_ind; intros H.
  { exists 0. simpl. split; [lia|done]. }
  apply Forall_app in H as [Hl Hc]. destruct (IH Hl) as (z & Hz & Hv & He).
  inversion Hc as [|? ? Hd _]; subst. pose proof (digit_range c Hd) as [Hr Hcc].
  exists (10 * z + digit_val c). rewrite length_app. simpl length.
  rewrite Nat.add_1_r, Nat2Z.inj_succ, Z.pow_succ_r by lia. split; [lia|]. split.
  - rewrite digits_from_snoc, Hv. simpl. by rewrite Hd.
  - cbn [fixed]. rewrite (Z.mul_comm 10 z), Z.div_add_l, (Z.div_small (digit_val c)), Z.add_0_r by lia.
    rewrite <- He, (Z.add_comm (z * 10)), Z.mod_add, Z.mod_small by lia. by rewrite <- Hcc.
Qed.

Lemma parse_unsigned_digits limit l z :
  all_digits l -> l <> [] -> digits_from 0 l = Some z -> z < limit -> parse_unsigned limit l = Some z.
Proof.
  intros Hd Hn Hv Hz. unfold parse_unsigned. destruct l as [|c l]; [done|].
  inversion Hd as [|? ? Hc _]; subst. pose proof (digit_range c Hc) as [Hr _]. unfold digit_val in Hr.
  rewrite (proj2 (Z.eqb_neq (byte_val c) 43)) by lia. rewrite bool_decide_eq_false_2 by done.
  rewrite Hv. simpl. rewrite (proj2 (Z.ltb_lt _ _) Hz). done.
Qed.

Lemma parse_i64_digits l z :
  all_digits l -> l <> [] -> digits_from 0 l = Some z -> z < 2 ^ 63 -> parse_i64 l = Some z.
Proof.
  intros Hd Hn Hv Hz. unfold parse_i64. destruct l as [|c l]; [done|].
  inversion Hd as [|? ? Hc _]; subst. pose proof (digit_range c Hc) as [Hr _]. unfold digit_val in Hr.
  rewrite (proj2 (Z.eqb_neq (byte_val c) 45)) by lia. by apply parse_unsigned_digits.
Qed.

(** Fixed-width prints compare as their numbers do. *)
Lemma fixed_compare w a b :
  0 <= a < 10 ^ Z.of_nat w -> 0 <= b < 10 ^ Z.of_nat w -> bytes_compare (fixed w a) (fixed w b) = (a ?= b).
Proof.
  revert a b. induction w as [|w IH]; intros a b Ha Hb.
  { simpl in *. replace a with 0 by lia. replace b with 0 by lia. done. }
  rewrite Nat2Z.inj_succ, Z.pow_succ_r in Ha, Hb by lia. cbn [fixed].
  rewrite bytes_compare_app by (rewrite !length_fixed; done).
  rewrite IH by (split; [apply Z.div_pos; lia|apply Z.div_lt_upper_bound; lia]).
  pose proof (Z.div_mod a 10 ltac:(lia)). pose proof (Z.div_mod b 10 ltac:(lia)).
  pose proof (Z.mod_pos_bound a 10 ltac:(lia)). pose proof (Z.mod_pos_bound b 10 ltac:(lia)).
  cbn [bytes_compare]. rewrite !byte_val_chr by lia.
  destruct (Z.compare_spec (a / 10) (b / 10)), (Z.compare_spec (48 + a mod 10) (48 + b mod 10)),
    (Z.compare_spec a b); try done; lia.
Qed.

Lemma forallb_digits l : forallb is_ascii_digit l = true <-> all_digits l.
Proof.
  induction l as [|c l IH]; simpl; [by split; [constructor|]|].
  rewrite andb_true_iff, IH. unfold all_digits. by rewrite list.Forall_cons.
Qed.

#[global] Arguments fixed : simpl never.

(** ** Lemmas on path components *)

Definition no_byte (z : Z) (l : list ascii) : Prop := Forall (fun c => byte_val c <> z) l.

Lemma split_on_none z l : no_byte z l -> split_on z l = [l].
Proof.
  induction 1 as [|c l Hc _ IH]; simpl; [done|].
  rewrite (proj2 (Z.eqb_neq _ _) Hc), IH. done.
Qed.

Lemma split_on_nonnil z l : split_on z l <> [].
Proof.
  destruct l as [|c l]; simpl; [done|]. destruct (byte_val c =? z); [done|]. destruct (split_on z l); done.
Qed.

Lemma split_on_nil z l : split_on z l = [[]] -> l = [].
Proof.
  destruct l as [|c l]; simpl; [done|]. pose proof (split_on_nonnil z l).
  destruct (byte_val c =? z); [naive_solver|]. by destruct (split_on z l).
Qed.

Lemma split_on_app z l c l' : byte_val c = z -> split_on z (l ++ c :: l') = split_on z l ++ split_on z l'.
Proof.
  intros <-. induction l as [|d l IH]; simpl.
  - rewrite Z.eqb_refl. done.
  - rewrite IH. destruct (byte_val d =? byte_val c); [done|].
    destruct (split_on (byte_val c) l) eqn:E; [|done]. by apply split_on_nonnil in E.
Qed.

Lemma split_on_parts z l : Forall (no_byte z) (split_on z l).
Proof.
  induction l as [|c l IH]; simpl; [repeat constructor|].
  destruct (Z.eqb_spec (byte_val c) z); [constructor; [constructor|done]|].
  destruct (split_on z l); inversion IH; subst; repeat constructor; done.
Qed.

(** The components that a split part of a path gives. *)
Definition part_components (p : list ascii) : list Component :=
  if bool_decide (p = []) || bool_decide (p = [chr 46]) then []
  else if bool_decide (p = [chr 46; chr 46]) then [ParentDir] else [Normal p].

Lemma components_eq l :
  components l =
  match split_on 47 l with
  | [] :: _ :: _ => [RootDir]
  | p :: _ => if bool_decide (p = [chr 46]) then [CurDir] else []
  | [] => []
  end ++ (split_on 47 l ≫= part_components).
Proof.
  unfold components. change (fun p : list ascii => _) with part_components.
  destruct (split_on 47 l) as [|[|c p] [|q ps]]; [done|done|done| |]; case_bool_decide; done.
Qed.

(** A name that is one exact normal component is a plain file name. *)
Definition plain_name (l : list ascii) : Prop :=
  l <> [] /\ l <> [chr 46] /\ l <> [chr 46; chr 46] /\ no_byte 47 l.

Lemma part_components_plain l :
  l <> [] -> l <> [chr 46] -> l <> [chr 46; chr 46] -> part_components l = [Normal l].
Proof. intros. unfold part_components. rewrite !bool_decide_eq_false_2 by done. done. Qed.

Lemma components_plain l : plain_name l -> components l = [Normal l].
Proof.
  intros (H1 & H2 & H3 & H4). rewrite components_eq, (split_on_none 47 l H4). simpl.
  rewrite part_components_plain by done. destruct l as [|c l]; [done|].
  rewrite bool_decide_eq_false_2 by done. done.
Qed.

Lemma components_no_byte l p : Normal p ∈ components l -> no_byte 47 p.
Proof.
  rewrite components_eq, elem_of_app. intros [H|H].
  - destruct (split_on 47 l) as [|[|c q] [|q' ps]]; try case_bool_decide;
      first [by apply not_elem_of_nil in H | by apply list_elem_of_singleton in H].
  - apply list_elem_of_bind in H as (q & Hp & Hq).
    unfold part_components in Hp. destruct (_ || _); [by apply not_elem_of_nil in Hp|].
    case_bool_decide; [by apply list_elem_of_singleton in Hp|].
    apply list_elem_of_singleton in Hp. injection Hp as ->.
    by eapply Forall_forall in Hq; [|apply split_on_parts].
Qed.

Lemma first_component_iff l :
  match head (components l) with Some (Normal c) => bool_decide (c = l) | _ => false end = true
  <-> plain_name l.
Proof.
  split.
  - destruct (components l) as [|[| | |p] cs] eqn:E; try done. simpl. rewrite bool_decide_eq_true. intros ->.
    assert (no_byte 47 l) as Hn by (apply (components_no_byte l); rewrite E; left).
    rewrite components_eq, (split_on_none 47 l Hn) in E. simpl in E. unfold part_components in E.
    split_and!; [intros ->|intros ->|intros ->|done]; vm_compute in E; done.
  - intros H. rewrite (components_plain l H). simpl. by apply bool_decide_eq_true.
Qed.

Lemma plain_name_eqb_tail l : plain_name l -> bool_decide (tail (components l) <> []) = false.
Proof. intros H. rewrite (components_plain l H). apply bool_decide_eq_false_2. simpl. tauto. Qed.

Lemma existsb_false {A} (f : A -> bool) l : existsb f l = false <-> Forall (fun a => f a = false) l.
Proof.
  induction l as [|a l IH]; simpl; [by rewrite list.Forall_nil|].
  rewrite orb_false_iff, IH, list.Forall_cons. done.
Qed.

(** The names that may become a file or a directory of a store. *)
Definition store_safe (l : list ascii) : Prop :=
  plain_name l
  /\ Forall (fun c => byte_val c ∉ [92; 0; 58; 60; 62; 34; 124; 63; 42]) l
  /\ ends_with_byte 46 l = false /\ ends_with_byte 32 l = false
  /\ has_control l = false /\ is_windows_device_name l = false.

Lemma contains_byte_false z s : contains_byte z s = false <-> no_byte z (bytes s).
Proof.
  unfold contains_byte, no_byte. rewrite existsb_false.
  apply Forall_iff. intros c. apply Z.eqb_neq.
Qed.

(** [validate_store_component] accepts exactly the names that are one plain
    path component, portable to Windows. *)
Lemma store_component_iff value :
  validate_store_component value = Ok tt <-> store_safe (bytes value).
Proof.
  unfold validate_store_component, store_safe, reject.
  assert (Forall (fun c => byte_val c ∉ [92; 0; 58; 60; 62; 34; 124; 63; 42]) (bytes value)
          <-> no_byte 92 (bytes value) /\ no_byte 0 (bytes value) /\ no_byte 58 (bytes value)
              /\ existsb (fun c => existsb (Z.eqb (byte_val c)) [60; 62; 34; 124; 63; 42]) (bytes value) = false)
    as Hbytes.
  { unfold no_byte. rewrite existsb_false, <- !Forall_and. apply Forall_iff. intros c.
    rewrite existsb_false, !list.Forall_cons, list.Forall_nil, !not_elem_of_cons, !Z.eqb_neq.
    pose proof (not_elem_of_nil (byte_val c)). tauto. }
  rewrite Hbytes, <- !contains_byte_false.
  pose proof (first_component_iff (bytes value)) as Hf.
  destruct (match head (components (bytes value)) with Some (Normal c) => bool_decide (c = bytes value) | _ => false end)
    eqn:E; simpl.
  - apply proj1 in Hf. specialize (Hf eq_refl). rewrite (plain_name_eqb_tail _ Hf). simpl.
    destruct (_ || _) eqn:E'; rewrite ?orb_true_iff, ?orb_false_iff in E'.
    + split; [done|]. intros (_ & (? & ? & ? & ?) & ? & ? & ? & ?). intuition congruence.
    + split; [|done]. intros _. intuition.
  - split; [done|]. intros (H & _). by apply Hf in H.
Qed.

(** Letters, digits, hyphen and underscore. *)
Definition token_char (c : ascii) : bool := is_ascii_alphanumeric c || (byte_val c =? 45) || (byte_val c =? 95).

Lemma token_char_range c :
  token_char c = true ->
  byte_val c = 45 \/ byte_val c = 95 \/ 48 <= byte_val c <= 57 \/ 65 <= byte_val c <= 90 \/ 97 <= byte_val c <= 122.
Proof. unfold token_char, is_ascii_alphanumeric, is_ascii_digit, is_ascii_upper, is_ascii_lower. lia. Qed.

Lemma token_no_byte z l :
  Forall (fun c => token_char c = true) l -> z < 45 \/ z = 46 \/ z = 47 -> no_byte z l.
Proof.
  intros H Hz. eapply Forall_impl; [exact H|]. intros c Hc%token_char_range. lia.
Qed.

Lemma ends_with_byte_in z l : no_byte z l -> ends_with_byte z l = false.
Proof.
  intros H. unfold ends_with_byte. destruct (reverse l) as [|c r] eqn:E; [done|]. apply Z.eqb_neq.
  assert (c ∈ l) as Hc by (rewrite <- (reverse_involutive l), E, elem_of_reverse; left).
  by eapply Forall_forall in Hc; [|exact H].
Qed.

Lemma has_control_token l : Forall (fun c => token_char c = true) l -> has_control l = false.
Proof. induction 1 as [|c l Hc%token_char_range _ IH]; simpl; [done|]. rewrite IH. lia. Qed.

Lemma trim_end_bytes_none zs l : Forall (fun z => no_byte z l) zs -> trim_end_bytes zs l = l.
Proof.
  intros H. induction l as [|c l IH]; simpl; [done|].
  rewrite IH by (eapply Forall_impl; [exact H|]; intros z Hz; by inversion Hz).
  destruct l; [|done]. rewrite (proj2 (existsb_false _ _)); [done|].
  eapply Forall_impl; [exact H|]. intros z Hz. inversion Hz; subst. by apply Z.eqb_neq.
Qed.

(** A long name of letters, digits, hyphens and underscores is safe. *)
Lemma token_safe l : Forall (fun c => token_char c = true) l -> (8 <= length l)%nat -> store_safe l.
Proof.
  intros Ht Hl. split_and!.
  - split_and!; [intros ->; simpl in Hl; lia..|]. apply token_no_byte; [done|lia].
  - eapply Forall_impl; [exact Ht|]. intros c Hc%token_char_range Hin.
    repeat (apply elem_of_cons in Hin as [Hin|Hin]; [lia|]). by apply not_elem_of_nil in Hin.
  - apply ends_with_byte_in, token_no_byte; [done|lia].
  - apply ends_with_byte_in, token_no_byte; [done|lia].
  - by apply has_control_token.
  - unfold is_windows_device_name. rewrite split_on_none by (apply token_no_byte; [done|lia]). cbn [head default].
    rewrite trim_end_bytes_none by (repeat constructor; apply token_no_byte; done || lia).
    rewrite bytes_of_bytes, (proj2 (existsb_false _ _)).
    + assert (length (ascii_upper <$> l) = length l) as Hu by apply length_fmap. simpl.
      destruct (ascii_upper <$> l) as [|a [|b [|c [|d [|e u]]]]]; try done. simpl in Hu. lia.
    + repeat constructor; apply bool_decide_eq_false_2; intros E; apply (f_equal (fun s => length (bytes s))) in E;
        rewrite bytes_of_bytes, length_fmap in E; simpl in E; lia.
Qed.

Lemma ends_with_byte_true z l : ends_with_byte z l = true -> exists l' c, l = l' ++ [c] /\ byte_val c = z.
Proof.
  unfold ends_with_byte. destruct (reverse l) as [|c r] eqn:E; [done|]. intros H%Z.eqb_eq.
  exists (reverse r), c. rewrite <- (reverse_involutive l), E, reverse_cons. done.
Qed.

(** A name that [validate_store_component] accepts never leaves the
    directory it is joined to: for every directory, the components of the
    joined path are those of the directory followed by exactly that name. *)
Theorem component_stays_inside root value :
  validate_store_component value = Ok tt ->
  components (path_join root (bytes value)) = components root ++ [Normal (bytes value)].
Proof.
  intros (Hp & _)%store_component_iff. set (v := bytes value) in *. clearbody v.
  pose proof Hp as (Hn & H1 & H2 & Hs).
  assert (split_on 47 v = [v]) as Hv by by apply split_on_none.
  unfold path_join. destruct v as [|c v']; [done|]. inversion Hs; subst.
  rewrite (proj2 (Z.eqb_neq (byte_val c) 47)) by done.
  case_bool_decide as Hr; [by subst; cbn [orb app]; rewrite (components_plain (c :: v') Hp)|].
  destruct (ends_with_byte 47 root) eqn:E; simpl.
  - apply ends_with_byte_true in E as (r & d & -> & Hd).
    rewrite <- app_assoc. simpl. rewrite !components_eq, !(split_on_app 47) by done. rewrite Hv. simpl.
    rewrite !bind_app. simpl. rewrite part_components_plain by done.
    destruct (split_on 47 r) as [|[|e p] [|q ps]] eqn:E'; [by apply split_on_nonnil in E'| | | |]; simpl; by rewrite ?app_nil_r, ?app_assoc.
  - rewrite !components_eq, !(split_on_app 47) by (apply byte_val_chr; lia). rewrite Hv. simpl.
    rewrite !bind_app. simpl. rewrite part_components_plain by done.
    destruct (split_on 47 root) as [|[|e p] [|q ps]] eqn:E'; simpl; rewrite ?app_assoc; try done.
    + by apply split_on_nonnil in E'.
    + by apply split_on_nil in E'.
Qed.

Theorem component_stays_inside_witness :
  components (path_join (bytes "/srv/store") (bytes "hrrr")) = components (bytes "/srv/store") ++ [Normal (bytes "hrrr")].
Proof. apply (component_stays_inside (bytes "/srv/store") "hrrr"). vm_compute. reflexivity. Defined.
