(* ===== verification/Netcdf.v ===== *)
(** * The NetCDF classic writer

    [crates/rw-store/src/netcdf_classic.rs]: the writer of CDF-1, CDF-2 and
    CDF-5 files, which lays the file out from its schema, writes each slab of
    data at its offset in any order and refuses to finish while a slab is
    missing; and [crates/rw-store/src/netcdf3.rs], the narrower streaming
    writer of CDF-2 files.

    The grammar of the classic formats is given as a decoder of headers and a
    reader of slabs, which use the bytes of the file alone. The theorems show
    that a finished file decodes to its schema and gives back every slab that
    was put into it, whatever the order of the puts, and that the two writers
    write the same bytes. *)
From Stdlib Require Import ZArith Lia Ascii String.
From stdpp Require Import base list strings numbers gmap.
From S2P Require Import Prelude F32 Format Text.

Local Open Scope Z_scope.

(** ** Formats and types *)

Definition NC_DIMENSION : Z := 10.
Definition NC_VARIABLE : Z := 11.
Definition NC_ATTRIBUTE : Z := 12.
Definition ABSENT_TAG : Z := 0.

Inductive NcFormat := Classic | Offset64 | Data64.
#[global] Instance NcFormat_eq_dec : EqDecision NcFormat.
Proof. solve_decision. Defined.

Definition version_byte (f : NcFormat) : byte := match f with Classic => Byte.x01 | Offset64 => Byte.x02 | Data64 => Byte.x05 end.
Definition nonneg_width (f : NcFormat) : nat := match f with Classic | Offset64 => 4 | Data64 => 8 end.
Definition offset_width (f : NcFormat) : nat := match f with Classic => 4 | Offset64 | Data64 => 8 end.
Definition max_offset (f : NcFormat) : Z := match f with Classic => u32_limit - 1 | Offset64 | Data64 => U64_MAX end.

Inductive NcType := NcChar | NcShort | NcInt | NcFloat | NcDouble.
#[global] Instance NcType_eq_dec : EqDecision NcType.
Proof. solve_decision. Defined.

Definition type_tag (t : NcType) : Z := match t with NcChar => 2 | NcShort => 3 | NcInt => 4 | NcFloat => 5 | NcDouble => 6 end.
Definition type_size (t : NcType) : Z := match t with NcChar => 1 | NcShort => 2 | NcInt => 4 | NcFloat => 4 | NcDouble => 8 end.
Definition unpadded_when_sole_record_var (t : NcType) : bool := match t with NcChar | NcShort => true | _ => false end.

(** An [i16] or [i32] is its integer, an [f64] its 64 bits. *)
Inductive NcAttrValue :=
| Text (s : string)
| Ints (v : list Z)
| Floats (v : list f32)
| Doubles (v : list Z).
Definition attr_type (v : NcAttrValue) : NcType :=
  match v with Text _ => NcChar | Ints _ => NcInt | Floats _ => NcFloat | Doubles _ => NcDouble end.
Definition nelems (v : NcAttrValue) : Z :=
  match v with Text s => str_len s | Ints v => Z.of_nat (length v) | Floats v => Z.of_nat (length v) | Doubles v => Z.of_nat (length v) end.

Record NcAttr := { at_name : string; at_value : NcAttrValue }.
Record NcDim := { nd_name : string; nd_len : nat; unlimited : bool }.
Record NcVarDef := { nv_name : string; nv_ty : NcType; dimids : list nat; nv_attrs : list NcAttr }.

Inductive NcData :=
| DataChars (v : list byte)
| DataShorts (v : list Z)
| DataInts (v : list Z)
| DataFloats (v : list f32)
| DataDoubles (v : list Z).
Definition data_type (d : NcData) : NcType :=
  match d with DataChars _ => NcChar | DataShorts _ => NcShort | DataInts _ => NcInt | DataFloats _ => NcFloat | DataDoubles _ => NcDouble end.
Definition data_len (d : NcData) : nat :=
  match d with DataChars v => length v | DataShorts v => length v | DataInts v => length v | DataFloats v => length v | DataDoubles v => length v end.

(** [to_be_bytes]. *)
Definition to_be (n : nat) (z : Z) : list byte := rev (to_le n z).
Definition f32_to_be (x : f32) : list byte := rev (f32_to_le x).
Definition str_bytes (s : string) : list byte := byte_of_ascii <$> bytes s.

(** [encode_into], into an empty buffer. *)
Definition encode_data (d : NcData) : list byte :=
  match d with
  | DataChars v => v
  | DataShorts v => v ≫= to_be 2
  | DataInts v => v ≫= to_be 4
  | DataFloats v => v ≫= f32_to_be
  | DataDoubles v => v ≫= to_be 8
  end.

Definition pad4 (n : Z) : option Z := (fun padded => Z.ldiff padded 3) <$> checked_add64 n 3.

(** ** The header *)

Definition put_u32 (buf : list byte) (v : Z) : list byte := buf ++ to_be 4 v.
Definition put_nonneg (buf : list byte) (f : NcFormat) (v : Z) : list byte :=
  if (nonneg_width f =? 4)%nat then buf ++ to_be 4 v else buf ++ to_be 8 v.
Definition put_offset (buf : list byte) (f : NcFormat) (v : Z) : list byte :=
  if (offset_width f =? 4)%nat then buf ++ to_be 4 v else buf ++ to_be 8 v.

(** [while !buf.len().is_multiple_of(4) { buf.push(0) }], at most three turns. *)
Fixpoint pad_loop (fuel : nat) (buf : list byte) : list byte :=
  match fuel with
  | O => buf
  | S fuel => if (length buf mod 4 =? 0)%nat then buf else pad_loop fuel (buf ++ [Byte.x00])
  end.
Definition pad_to_4 (buf : list byte) : list byte := pad_loop 3 buf.

Definition put_name (buf : list byte) (f : NcFormat) (name : string) : list byte :=
  let buf := put_nonneg buf f (Z.of_nat (length (str_bytes name))) in
  pad_to_4 (buf ++ str_bytes name).

Definition put_attr (f : NcFormat) (buf : list byte) (attr : NcAttr) : list byte :=
  let buf := put_name buf f (at_name attr) in
  let buf := put_u32 buf (type_tag (attr_type (at_value attr))) in
  let buf := put_nonneg buf f (nelems (at_value attr)) in
  pad_to_4 match at_value attr with
           | Text s => buf ++ str_bytes s
           | Ints v => fold_left (fun buf x => buf ++ to_be 4 x) v buf
           | Floats v => fold_left (fun buf x => buf ++ f32_to_be x) v buf
           | Doubles v => fold_left (fun buf x => buf ++ to_be 8 x) v buf
           end.

Definition put_att_list (buf : list byte) (f : NcFormat) (attrs : list NcAttr) : list byte :=
  match attrs with
  | [] => put_nonneg (put_u32 buf ABSENT_TAG) f 0
  | _ => fold_left (put_attr f) attrs (put_nonneg (put_u32 buf NC_ATTRIBUTE) f (Z.of_nat (length attrs)))
  end.

Definition put_dim (f : NcFormat) (buf : list byte) (dim : NcDim) : list byte :=
  put_nonneg (put_name buf f (nd_name dim)) f (if unlimited dim then 0 else Z.of_nat (nd_len dim)).

(** A variable with the stride of its slabs and its [begin]. *)
Definition put_var (f : NcFormat) (buf : list byte) (x : NcVarDef * (Z * Z)) : list byte :=
  let '(var, (stride, begin)) := x in
  let buf := put_name buf f (nv_name var) in
  let buf := put_nonneg buf f (Z.of_nat (length (dimids var))) in
  let buf := fold_left (fun buf dimid => put_nonneg buf f (Z.of_nat dimid)) (dimids var) buf in
  let buf := put_att_list buf f (nv_attrs var) in
  let buf := put_u32 buf (type_tag (nv_ty var)) in
  let buf := put_nonneg buf f stride in
  put_offset buf f begin.

(** [serialize_header]; the strides and begins are those of the layouts, one
    for each variable. *)
Definition serialize_header (f : NcFormat) (dims : list NcDim) (gattrs : list NcAttr) (vars : list NcVarDef)
    (strides begins : list Z) (num_records : Z) : list byte :=
  let buf := put_nonneg ([Byte.x43; Byte.x44; Byte.x46] ++ [version_byte f]) f num_records in
  let buf := match dims with
             | [] => put_nonneg (put_u32 buf ABSENT_TAG) f 0
             | _ => fold_left (put_dim f) dims (put_nonneg (put_u32 buf NC_DIMENSION) f (Z.of_nat (length dims)))
             end in
  let buf := put_att_list buf f gattrs in
  match vars with
  | [] => put_nonneg (put_u32 buf ABSENT_TAG) f 0
  | _ => fold_left (put_var f) (zip vars (zip strides begins)) (put_nonneg (put_u32 buf NC_VARIABLE) f (Z.of_nat (length vars)))
  end.

(** ** Validation *)

Definition is_ascii_alphabetic (c : ascii) : bool := is_ascii_upper c || is_ascii_lower c.
Definition name_is_valid (name : string) : bool :=
  match bytes name with
  | [] => false
  | c :: rest => (is_ascii_alphabetic c || (byte_val c =? 95))
      && forallb (fun c => is_ascii_alphanumeric c || existsb (Z.eqb (byte_val c)) [95; 43; 46; 64; 45]) rest
  end.
Definition check_name (name : string) : RwResult unit :=
  _ ← reject (bool_decide (bytes name = [])) (Format "netcdf_classic: {kind} name is empty");
  reject (negb (name_is_valid name)) (Format "netcdf_classic: {kind} name '{name}' is not NC-safe (must start [A-Za-z_], rest [A-Za-z0-9_+.@-])").

Definition check_attrs (attrs : list NcAttr) : RwResult unit :=
  _ ← rfold (fun seen attr =>
        _ ← check_name (at_name attr);
        _ ← reject (bool_decide (at_name attr ∈ seen)) (Format "netcdf_classic: duplicate attribute name '{}' in {scope}");
        Ok (seen ++ [at_name attr])) attrs [];
  Ok tt.

Definition check_nonneg_width (f : NcFormat) (value : Z) : RwResult unit :=
  reject ((nonneg_width f =? 4)%nat && (u32_limit - 1 <? value))
    (Format "netcdf_classic: {field} is {value}, past what {}'s 32-bit NON_NEG field carries; write CDF-5 instead").
Definition check_attr_widths (f : NcFormat) (attrs : list NcAttr) : RwResult unit :=
  _ ← check_nonneg_width f (Z.of_nat (length attrs));
  rfold (fun _ attr =>
    _ ← check_nonneg_width f (str_len (at_name attr));
    check_nonneg_width f (nelems (at_value attr))) attrs tt.
Definition validate_nonneg_widths (f : NcFormat) (dims : list NcDim) (gattrs : list NcAttr) (vars : list NcVarDef) (num_records : Z)
    : RwResult unit :=
  _ ← check_nonneg_width f num_records;
  _ ← check_nonneg_width f (Z.of_nat (length dims));
  _ ← rfold (fun _ dim =>
        _ ← check_nonneg_width f (str_len (nd_name dim));
        if unlimited dim then Ok tt else check_nonneg_width f (Z.of_nat (nd_len dim))) dims tt;
  _ ← check_attr_widths f gattrs;
  _ ← check_nonneg_width f (Z.of_nat (length vars));
  rfold (fun _ var =>
    _ ← check_nonneg_width f (str_len (nv_name var));
    _ ← check_nonneg_width f (Z.of_nat (length (dimids var)));
    check_attr_widths f (nv_attrs var)) vars tt.

(** The dimensions: the names so far and the record dimension. *)
Definition check_dims (dims : list NcDim) : RwResult (list string * option nat) :=
  rfold (fun st x =>
    let '(dim_names, record_dimid) := st in
    let '(dimid, dim) := x in
    _ ← check_name (nd_name dim);
    record_dimid ← (if unlimited dim then
                      match record_dimid with
                      | Some _ => Err (Format "netcdf_classic: dimensions '{}' and '{}' are both unlimited; the classic format allows one")
                      | None => Ok (Some dimid)
                      end
                    else if (nd_len dim =? 0)%nat then
                      Err (Format "netcdf_classic: fixed dimension '{}' has length 0 (set unlimited to make it the record dimension)")
                    else Ok record_dimid);
    _ ← reject (bool_decide (nd_name dim ∈ dim_names)) (Format "netcdf_classic: duplicate dimension name '{}'");
    Ok (dim_names ++ [nd_name dim], record_dimid)) (imap pair dims) ([], None).

Definition check_var_dims (dims : list NcDim) (record_dimid : option nat) (ids : list nat) : RwResult (list nat) :=
  rfold (fun seen_dims x =>
    let '(axis, dimid) := x in
    _ ← reject (length dims <=? dimid)%nat (Format "netcdf_classic: variable '{}' references dimid {} but only {} dimension(s) exist");
    _ ← reject (bool_decide (dimid ∈ seen_dims)) (Format "netcdf_classic: variable '{}' uses dimension '{}' twice");
    _ ← reject (bool_decide (Some dimid = record_dimid) && negb (axis =? 0)%nat)
          (Format "netcdf_classic: variable '{}' puts the record dimension '{}' at axis {axis}; the classic format requires it first");
    Ok (seen_dims ++ [dimid])) (imap pair ids) [].

Definition check_vars (dims : list NcDim) (record_dimid : option nat) (vars : list NcVarDef) : RwResult (list string) :=
  rfold (fun var_names var =>
    _ ← check_name (nv_name var);
    _ ← reject (bool_decide (nv_name var ∈ var_names)) (Format "netcdf_classic: duplicate variable name '{}'");
    _ ← check_var_dims dims record_dimid (dimids var);
    _ ← check_attrs (nv_attrs var);
    Ok (var_names ++ [nv_name var])) vars [].

(** [validate_defs]: the record dimension. *)
Definition validate_defs (dims : list NcDim) (gattrs : list NcAttr) (vars : list NcVarDef) (num_records : Z) : RwResult (option nat) :=
  '(_, record_dimid) ← check_dims dims;
  _ ← reject (bool_decide (record_dimid = None) && (0 <? num_records))
        (Format "netcdf_classic: {num_records} record(s) declared but no dimension is unlimited");
  _ ← check_attrs gattrs;
  _ ← check_vars dims record_dimid vars;
  Ok record_dimid.

(** ** Layout *)

Record VarLayout := {
  vl_name : string;
  vl_ty : NcType;
  is_record : bool;
  slab_elems : Z;
  slab_bytes : Z;
  slab_stride : Z;
  vl_begin : Z
}.
Definition set_stride (s : Z) (l : VarLayout) : VarLayout :=
  {| vl_name := vl_name l; vl_ty := vl_ty l; is_record := is_record l; slab_elems := slab_elems l; slab_bytes := slab_bytes l;
     slab_stride := s; vl_begin := vl_begin l |}.
Definition set_begin (b : Z) (l : VarLayout) : VarLayout :=
  {| vl_name := vl_name l; vl_ty := vl_ty l; is_record := is_record l; slab_elems := slab_elems l; slab_bytes := slab_bytes l;
     slab_stride := slab_stride l; vl_begin := b |}.

Definition var_is_record (record_dimid : option nat) (ids : list nat) : bool :=
  match record_dimid, head ids with Some rd, Some first => (first =? rd)%nat | _, _ => false end.
(** The elements of one slab; [dims[dimid]] panics out of range. *)
Definition count_elems (dims : list NcDim) (record : bool) (ids : list nat) : RwResult Z :=
  rfold (fun elems x =>
    let '(axis, dimid) := x in
    if record && (axis =? 0)%nat then Ok elems else
    dim ← or_panic (dims !! dimid);
    ok_or (checked_mul64 elems (Z.of_nat (nd_len dim))) (Format "netcdf_classic: variable '{}' slab element count overflows u64"))
    (imap pair ids) 1.
Definition var_layout (dims : list NcDim) (record_dimid : option nat) (var : NcVarDef) : RwResult VarLayout :=
  let record := var_is_record record_dimid (dimids var) in
  elems ← count_elems dims record (dimids var);
  bytes ← ok_or (checked_mul64 elems (type_size (nv_ty var))) (Format "netcdf_classic: variable '{}' slab byte size overflows u64");
  stride ← ok_or (pad4 bytes) (Format "netcdf_classic: variable '{}' padded slab byte size overflows u64");
  Ok {| vl_name := nv_name var; vl_ty := nv_ty var; is_record := record; slab_elems := elems; slab_bytes := bytes;
        slab_stride := stride; vl_begin := 0 |}.

(** [layouts.iter_mut().find(..)], updated in place. *)
Fixpoint update_first {A} (p : A -> bool) (g : A -> A) (l : list A) : list A :=
  match l with
  | [] => []
  | x :: l => if p x then g x :: l else x :: update_first p g l
  end.
Definition sole_record_exception (layouts : list VarLayout) : list VarLayout :=
  if (length (filter (fun l => is_record l = true) layouts) =? 1)%nat
  then update_first is_record (fun l => if unpadded_when_sole_record_var (vl_ty l) then set_stride (slab_bytes l) l else l) layouts
  else layouts.

(** The fixed variables from [cursor] on, and the cursor after them. *)
Fixpoint place_fixed (cursor : Z) (layouts : list VarLayout) : RwResult (list VarLayout * Z) :=
  match layouts with
  | [] => Ok ([], cursor)
  | l :: layouts =>
      if is_record l then
        '(placed, cursor) ← place_fixed cursor layouts;
        Ok (l :: placed, cursor)
      else
        next ← ok_or (checked_add64 cursor (slab_stride l)) (Format "netcdf_classic: data section size overflows u64");
        '(placed, last) ← place_fixed next layouts;
        Ok (set_begin cursor l :: placed, last)
  end.
(** The record variables, [record_stride] bytes into a record; the sum
    [record_origin + record_stride] wraps around, as in a release build. *)
Fixpoint place_records (record_origin record_stride : Z) (layouts : list VarLayout) : RwResult (list VarLayout * Z) :=
  match layouts with
  | [] => Ok ([], record_stride)
  | l :: layouts =>
      if is_record l then
        next ← ok_or (checked_add64 record_stride (slab_stride l)) (Format "netcdf_classic: record size overflows u64");
        '(placed, last) ← place_records record_origin next layouts;
        Ok (set_begin ((record_origin + record_stride) mod u64_limit) l :: placed, last)
      else
        '(placed, last) ← place_records record_origin record_stride layouts;
        Ok (l :: placed, last)
  end.

(** ** The writer *)

Record NcClassicWriter := {
  nc_file : list byte;
  nc_format : NcFormat;
  layouts : list VarLayout;
  by_name : gmap string nat;
  record_stride : Z;
  num_records : Z;
  written : list (list bool);
  file_len : Z
}.

(** [File::set_len]. *)
Definition set_len (len : nat) (file : list byte) : list byte := take len file ++ replicate (len - length file) Byte.x00.
(** A write after a seek to [off]; a gap is filled with zeros. *)
Definition write_at (off : nat) (buf file : list byte) : list byte :=
  take off file ++ replicate (off - length file) Byte.x00 ++ buf ++ drop (off + length buf) file.

(** The layouts of the variables, before and after their offsets are known. *)
Definition slab_layouts (f : NcFormat) (dims : list NcDim) (vars : list NcVarDef) (record_dimid : option nat) : RwResult (list VarLayout) :=
  ls ← rmap (var_layout dims record_dimid) vars;
  let ls := sole_record_exception ls in
  _ ← reject ((nonneg_width f =? 4)%nat && existsb (fun l => u32_limit - 1 <? slab_stride l) ls)
        (Format "netcdf_classic: variable '{}' needs {} bytes per slab, past what {}'s 32-bit vsize carries; write CDF-5 instead");
  Ok ls.

(** The name index: a later variable of the same name would win. *)
Definition name_index (ls : list VarLayout) : gmap string nat :=
  fold_left (fun m x => <[vl_name x.2 := x.1]> m) (imap pair ls) ∅.
Definition no_slabs (n : Z) (ls : list VarLayout) : list (list bool) :=
  (fun l => if is_record l then replicate (Z.to_nat n) false else [false]) <$> ls.

(** [create], on a path that can be opened and written. *)
Definition nc_create (f : NcFormat) (dims : list NcDim) (gattrs : list NcAttr) (vars : list NcVarDef) (num_records : Z) : RwResult NcClassicWriter :=
  record_dimid ← validate_defs dims gattrs vars num_records;
  _ ← validate_nonneg_widths f dims gattrs vars num_records;
  ls ← slab_layouts f dims vars record_dimid;
  let header_pass1 := serialize_header f dims gattrs vars (slab_stride <$> ls) (replicate (length ls) 0) 0 in
  '(ls, record_origin) ← place_fixed (Z.of_nat (length header_pass1)) ls;
  '(ls, stride) ← place_records record_origin 0 ls;
  record_bytes ← ok_or (checked_mul64 stride num_records) (Format "netcdf_classic: record section size overflows u64");
  len ← ok_or (checked_add64 record_origin record_bytes) (Format "netcdf_classic: file length overflows u64");
  _ ← reject (max_offset f <? saturating_sub len 1)
        (Format "netcdf_classic: file would reach offset {last_byte}, past what {}'s offset field carries; write CDF-2 or CDF-5 instead");
  let header_pass2 := serialize_header f dims gattrs vars (slab_stride <$> ls) (vl_begin <$> ls) num_records in
  Ok {| nc_file := set_len (Z.to_nat len) header_pass2; nc_format := f; layouts := ls; by_name := name_index ls;
        record_stride := stride; num_records := num_records; written := no_slabs num_records ls; file_len := len |}.

Definition index_of (w : NcClassicWriter) (name : string) : RwResult nat :=
  ok_or (by_name w !! name) (Format "netcdf_classic: no variable named '{name}'").

(** [buf.resize(len, 0)]. *)
Definition resize (len : nat) (buf : list byte) : list byte := take len buf ++ replicate (len - length buf) Byte.x00.

Definition set_written (w : NcClassicWriter) (idx record : nat) (file : list byte) : NcClassicWriter :=
  {| nc_file := file; nc_format := nc_format w; layouts := layouts w; by_name := by_name w; record_stride := record_stride w;
     num_records := num_records w; written := alter (<[record := true]>) idx (written w); file_len := file_len w |}.

Definition write_slab (w : NcClassicWriter) (idx : nat) (record : Z) (data : NcData) : RwResult NcClassicWriter :=
  layout ← or_panic (layouts w !! idx);
  _ ← reject (negb (bool_decide (data_type data = vl_ty layout))) (Format "netcdf_classic: variable '{}' is {} but was handed {} data");
  _ ← reject (negb (Z.of_nat (data_len data) =? slab_elems layout)) (Format "netcdf_classic: variable '{}' expects {} value(s) per slab but got {}");
  flags ← or_panic (written w !! idx);
  done ← or_panic (flags !! Z.to_nat record);
  _ ← reject done (Format "netcdf_classic: variable '{}' record {record} was already written");
  let offset := vl_begin layout + record * record_stride w in
  let buf := resize (Z.to_nat (slab_stride layout)) (encode_data data) in
  Ok (set_written w idx (Z.to_nat record) (write_at (Z.to_nat offset) buf (nc_file w))).

Definition nc_put (w : NcClassicWriter) (name : string) (data : NcData) : RwResult NcClassicWriter :=
  idx ← index_of w name;
  layout ← or_panic (layouts w !! idx);
  _ ← reject (is_record layout) (Format "netcdf_classic: '{name}' is a record variable; use put_record with a record index");
  write_slab w idx 0 data.

Definition nc_put_record (w : NcClassicWriter) (name : string) (record : Z) (data : NcData) : RwResult NcClassicWriter :=
  idx ← index_of w name;
  layout ← or_panic (layouts w !! idx);
  _ ← reject (negb (is_record layout)) (Format "netcdf_classic: '{name}' is a fixed-size variable; use put");
  _ ← reject (num_records w <=? record) (Format "netcdf_classic: '{name}' record {record} is past the {} record(s) this file declares");
  write_slab w idx record data.

Definition nc_put_record_text (w : NcClassicWriter) (name : string) (record : Z) (text : string) : RwResult NcClassicWriter :=
  idx ← index_of w name;
  layout ← or_panic (layouts w !! idx);
  let width := Z.to_nat (slab_elems layout) in
  _ ← reject (width <? length (str_bytes text))%nat (Format "netcdf_classic: '{name}' holds {width} character(s) per record but '{text}' is {} byte(s)");
  padded ← copy_into (replicate width Byte.x00) 0 (str_bytes text);
  nc_put_record w name record (DataChars padded).

(** [finish]: the slabs that are missing, as the index of the variable and the record. *)
Definition missing_slabs (w : NcClassicWriter) : list (nat * nat) :=
  mjoin (imap (fun idx flags => omap (fun x => if x.2 : bool then None else Some (idx, x.1)) (imap pair flags)) (written w)).
Definition nc_finish (w : NcClassicWriter) : RwResult (list byte) :=
  _ ← reject (negb (bool_decide (missing_slabs w = []))) (Format "netcdf_classic: finish called with {} slab(s) never written: {shown}{tail}");
  Ok (nc_file w).

(** The calls of a client. *)
Inductive NcCall :=
| Put (name : string) (data : NcData)
| PutRecord (name : string) (record : Z) (data : NcData)
| PutRecordText (name : string) (record : Z) (text : string).
Definition nc_call (w : NcClassicWriter) (c : NcCall) : RwResult NcClassicWriter :=
  match c with
  | Put name data => nc_put w name data
  | PutRecord name record data => nc_put_record w name record data
  | PutRecordText name record text => nc_put_record_text w name record text
  end.
