(* ===== verification/NetcdfRead.v ===== *)
(** * Reading the NetCDF classic formats

    The grammar of the classic formats as a decoder of headers, which follows
    the layout described at the top of [netcdf_classic.rs], and the place of a
    slab in a file, computed from the decoded header. Both look at the bytes
    of a file alone: they are the specification the writer is checked against.
    The header that the writer serialises decodes to the schema it was given. *)
From Stdlib Require Import ZArith Lia Ascii String.
From stdpp Require Import base list strings numbers gmap.
From S2P Require Import Prelude F32 Format Text Netcdf.

Local Open Scope Z_scope.

(** ** The grammar *)

Definition parser (A : Type) : Type := list byte -> option (A * list byte).
#[global] Instance parser_ret : MRet parser := fun A a bs => Some (a, bs).
#[global] Instance parser_bind : MBind parser := fun A B k p bs => match p bs with Some (a, rest) => k a rest | None => None end.
Definition p_fail {A} : parser A := fun _ => None.

Definition from_be (bs : list byte) : Z := from_le (rev bs).
Definition p_bytes (n : nat) : parser (list byte) := fun bs => if (n <=? length bs)%nat then Some (take n bs, drop n bs) else None.
Definition p_be (n : nat) : parser Z := bs ← p_bytes n; mret (from_be bs).
Definition p_nonneg (f : NcFormat) : parser Z := p_be (nonneg_width f).
Definition p_offset (f : NcFormat) : parser Z := p_be (offset_width f).
Fixpoint p_times {A} (n : nat) (p : parser A) : parser (list A) :=
  match n with
  | O => mret []
  | S n => x ← p; xs ← p_times n p; mret (x :: xs)
  end.

(** [n] bytes are followed by zeros up to a multiple of four. *)
Definition padding (n : nat) : list byte := replicate ((4 - n mod 4) mod 4) Byte.x00.
Definition p_padding (n : nat) : parser unit :=
  pad ← p_bytes (length (padding n)); if bool_decide (pad = padding n) then mret tt else p_fail.

Definition string_of (bs : list byte) : string := of_bytes (ascii_of_byte <$> bs).
Definition p_name (f : NcFormat) : parser string :=
  n ← p_nonneg f; bs ← p_bytes (Z.to_nat n); _ ← p_padding (Z.to_nat n); mret (string_of bs).

Definition p_type : parser NcType :=
  t ← p_be 4;
  if t =? 2 then mret NcChar else if t =? 3 then mret NcShort else if t =? 4 then mret NcInt
  else if t =? 5 then mret NcFloat else if t =? 6 then mret NcDouble else p_fail.

Definition p_i32 : parser Z := z ← p_be 4; mret (if z <? 2 ^ 31 then z else z - 2 ^ 32).
Definition p_f32 : parser f32 :=
  bs ← p_bytes 4; match f32_from_le (rev bs) with Some v => mret v | None => p_fail end.

Definition p_values (ty : NcType) (n : nat) : parser NcAttrValue :=
  match ty with
  | NcChar => bs ← p_bytes n; mret (Text (string_of bs))
  | NcInt => v ← p_times n p_i32; mret (Ints v)
  | NcFloat => v ← p_times n p_f32; mret (Floats v)
  | NcDouble => v ← p_times n (p_be 8); mret (Doubles v)
  | NcShort => p_fail
  end.
Definition p_attr (f : NcFormat) : parser NcAttr :=
  name ← p_name f; ty ← p_type; n ← p_nonneg f; v ← p_values ty (Z.to_nat n);
  _ ← p_padding (Z.to_nat (n * type_size ty)); mret {| at_name := name; at_value := v |}.

(** A list: absent, or its tag, its count and its items. *)
Definition p_list {A} (f : NcFormat) (tag : Z) (p : parser A) : parser (list A) :=
  t ← p_be 4; n ← p_nonneg f;
  if t =? tag then p_times (Z.to_nat n) p else if (t =? 0) && (n =? 0) then mret [] else p_fail.

Record DimSpec := { ds_name : string; ds_len : Z }.
Record VarSpec := { vs_name : string; vs_dimids : list Z; vs_attrs : list NcAttr; vs_type : NcType; vsize : Z; begin : Z }.
Record HeaderSpec := { hs_format : NcFormat; numrecs : Z; hs_dims : list DimSpec; hs_gattrs : list NcAttr; hs_vars : list VarSpec }.

Definition p_dim (f : NcFormat) : parser DimSpec := name ← p_name f; len ← p_nonneg f; mret {| ds_name := name; ds_len := len |}.
Definition p_var (f : NcFormat) : parser VarSpec :=
  name ← p_name f; ndims ← p_nonneg f; ids ← p_times (Z.to_nat ndims) (p_nonneg f); attrs ← p_list f NC_ATTRIBUTE (p_attr f);
  ty ← p_type; size ← p_nonneg f; off ← p_offset f;
  mret {| vs_name := name; vs_dimids := ids; vs_attrs := attrs; vs_type := ty; vsize := size; begin := off |}.
Definition p_magic : parser NcFormat :=
  m ← p_bytes 4;
  if bool_decide (m = [Byte.x43; Byte.x44; Byte.x46; Byte.x01]) then mret Classic
  else if bool_decide (m = [Byte.x43; Byte.x44; Byte.x46; Byte.x02]) then mret Offset64
  else if bool_decide (m = [Byte.x43; Byte.x44; Byte.x46; Byte.x05]) then mret Data64 else p_fail.
Definition p_header : parser HeaderSpec :=
  f ← p_magic; n ← p_nonneg f; dims ← p_list f NC_DIMENSION (p_dim f); gattrs ← p_list f NC_ATTRIBUTE (p_attr f);
  vars ← p_list f NC_VARIABLE (p_var f);
  mret {| hs_format := f; numrecs := n; hs_dims := dims; hs_gattrs := gattrs; hs_vars := vars |}.

(** ** The place of a slab *)

(** The record dimension has length zero. *)
Definition spec_record (h : HeaderSpec) (v : VarSpec) : bool :=
  match vs_dimids v with
  | [] => false
  | d :: _ => match hs_dims h !! Z.to_nat d with Some dim => ds_len dim =? 0 | None => false end
  end.
(** The bytes of one record of all the record variables. *)
Definition recsize (h : HeaderSpec) : Z := foldr Z.add 0 (vsize <$> filter (fun v => spec_record h v = true) (hs_vars h)).
(** The elements of a slab: the product of the lengths of the dimensions, the
    record dimension left out. *)
Definition spec_elems (h : HeaderSpec) (v : VarSpec) : Z :=
  foldr Z.mul 1 ((fun d => match hs_dims h !! Z.to_nat d with Some dim => ds_len dim | None => 0 end)
                   <$> (if spec_record h v then drop 1 (vs_dimids v) else vs_dimids v)).
Definition read_slab (h : HeaderSpec) (file : list byte) (v : VarSpec) (record : Z) : option (list byte) :=
  let off := begin v + (if spec_record h v then record * recsize h else 0) in
  let len := spec_elems h v * type_size (vs_type v) in
  fst <$> p_bytes (Z.to_nat len) (drop (Z.to_nat off) file).

(** ** What the writer appends *)

Definition aligned (l : list byte) : Prop := (length l mod 4 = 0)%nat.

Definition enc_nonneg (f : NcFormat) (v : Z) : list byte := to_be (nonneg_width f) v.
Definition enc_offset (f : NcFormat) (v : Z) : list byte := to_be (offset_width f) v.
Definition enc_padded (bs : list byte) : list byte := bs ++ padding (length bs).
Definition enc_name (f : NcFormat) (name : string) : list byte :=
  enc_nonneg f (Z.of_nat (length (str_bytes name))) ++ enc_padded (str_bytes name).
Definition enc_values (v : NcAttrValue) : list byte :=
  match v with Text s => str_bytes s | Ints v => v ≫= to_be 4 | Floats v => v ≫= f32_to_be | Doubles v => v ≫= to_be 8 end.
Definition enc_attr (f : NcFormat) (a : NcAttr) : list byte :=
  enc_name f (at_name a) ++ to_be 4 (type_tag (attr_type (at_value a))) ++ enc_nonneg f (nelems (at_value a)) ++ enc_padded (enc_values (at_value a)).
Definition enc_list {A} (f : NcFormat) (tag : Z) (enc : A -> list byte) (l : list A) : list byte :=
  match l with [] => to_be 4 ABSENT_TAG ++ enc_nonneg f 0 | _ => to_be 4 tag ++ enc_nonneg f (Z.of_nat (length l)) ++ (l ≫= enc) end.
Definition enc_dim (f : NcFormat) (d : NcDim) : list byte :=
  enc_name f (nd_name d) ++ enc_nonneg f (if unlimited d then 0 else Z.of_nat (nd_len d)).
Definition enc_var (f : NcFormat) (x : NcVarDef * (Z * Z)) : list byte :=
  let '(v, (stride, off)) := x in
  enc_name f (nv_name v) ++ enc_nonneg f (Z.of_nat (length (dimids v))) ++ (dimids v ≫= (fun d => enc_nonneg f (Z.of_nat d)))
  ++ enc_list f NC_ATTRIBUTE (enc_attr f) (nv_attrs v) ++ to_be 4 (type_tag (nv_ty v)) ++ enc_nonneg f stride ++ enc_offset f off.
Definition enc_header (f : NcFormat) (dims : list NcDim) (gattrs : list NcAttr) (vars : list NcVarDef) (strides begins : list Z) (n : Z) : list byte :=
  [Byte.x43; Byte.x44; Byte.x46; version_byte f] ++ enc_nonneg f n ++ enc_list f NC_DIMENSION (enc_dim f) dims
  ++ enc_list f NC_ATTRIBUTE (enc_attr f) gattrs ++ enc_list f NC_VARIABLE (enc_var f) (zip vars (zip strides begins)).

(** A function that appends [e], which is a whole number of words, to a buffer
    of whole words. *)
Definition appends (g : list byte -> list byte) (e : list byte) : Prop := aligned e /\ forall buf, aligned buf -> g buf = buf ++ e.

Lemma aligned_app a b : aligned a -> aligned b -> aligned (a ++ b).
Proof. unfold aligned. rewrite length_app. intros Ha Hb. rewrite Nat.Div0.add_mod, Ha, Hb. done. Qed.
Lemma length_to_be n z : length (to_be n z) = n.
Proof. unfold to_be. by rewrite length_rev, length_to_le. Qed.
Lemma aligned_be4 z : aligned (to_be 4 z).
Proof. unfold aligned. by rewrite length_to_be. Qed.
Lemma aligned_nonneg f v : aligned (enc_nonneg f v).
Proof. unfold aligned, enc_nonneg. rewrite length_to_be. by destruct f. Qed.
Lemma aligned_offset f v : aligned (enc_offset f v).
Proof. unfold aligned, enc_offset. rewrite length_to_be. by destruct f. Qed.
Lemma length_padding n : length (padding n) = ((4 - n mod 4) mod 4)%nat.
Proof. apply length_replicate. Qed.
Lemma aligned_padded bs : aligned (enc_padded bs).
Proof.
  unfold aligned, enc_padded. rewrite length_app, length_padding. pose proof (Nat.mod_upper_bound (length bs) 4 ltac:(lia)).
  rewrite Nat.Div0.add_mod, Nat.Div0.mod_mod. destruct (length bs mod 4)%nat as [|[|[|[|n]]]]; try done. lia.
Qed.
Lemma aligned_bind {A} (e : A -> list byte) l : (forall x, aligned (e x)) -> aligned (l ≫= e).
Proof. intros He. induction l as [|x l IH]; [done|]. cbn. apply aligned_app; [apply He|apply IH]. Qed.
#[export] Hint Resolve aligned_app aligned_be4 aligned_nonneg aligned_offset aligned_padded aligned_bind : rw.

Lemma pad_to_4_spec buf : pad_to_4 buf = enc_padded buf.
Proof.
  unfold pad_to_4, enc_padded, padding. pose proof (Nat.mod_upper_bound (length buf) 4 ltac:(lia)).
  assert (Hs : forall l : list byte, ((length (l ++ [Byte.x00])) mod 4 = (length l mod 4 + 1) mod 4)%nat).
  { intros l. rewrite length_app. cbn [length]. by rewrite Nat.Div0.add_mod_idemp_l. }
  destruct (length buf mod 4)%nat as [|[|[|[|n]]]] eqn:E; [..|lia]; cbn [pad_loop]; rewrite ?Hs, ?E; cbn;
    rewrite ?Hs, ?E; cbn; rewrite ?app_nil_r, <- ?app_assoc; done.
Qed.

Lemma padded_app a b : aligned a -> enc_padded (a ++ b) = a ++ enc_padded b.
Proof.
  unfold aligned, enc_padded, padding. intros Ha. rewrite <- app_assoc, length_app. do 3 f_equal.
  by rewrite Nat.Div0.add_mod, Ha, Nat.add_0_l, Nat.Div0.mod_mod.
Qed.

Lemma fold_append {A} (e : A -> list byte) l buf : fold_left (fun buf x => buf ++ e x) l buf = buf ++ (l ≫= e).
Proof. revert buf. induction l as [|x l IH]; intros buf; cbn; [by rewrite app_nil_r|]. by rewrite IH, app_assoc. Qed.

Lemma fold_appends {A} (g : list byte -> A -> list byte) (e : A -> list byte) l :
  (forall x, appends (fun buf => g buf x) (e x)) -> appends (fold_left g l) (l ≫= e).
Proof.
  intros Hg. split; [apply aligned_bind; intros x; apply Hg|]. induction l as [|x l IH]; intros buf Hb; cbn; [by rewrite app_nil_r|].
  destruct (Hg x) as [Hx Ha]. rewrite (Ha buf Hb), IH by eauto with rw. by rewrite app_assoc.
Qed.

Lemma put_nonneg_spec buf f v : put_nonneg buf f v = buf ++ enc_nonneg f v.
Proof. by destruct f. Qed.
Lemma put_offset_spec buf f v : put_offset buf f v = buf ++ enc_offset f v.
Proof. by destruct f. Qed.

Lemma put_name_spec buf f name : aligned buf -> put_name buf f name = buf ++ enc_name f name.
Proof.
  intros Hb. unfold put_name, enc_name. rewrite pad_to_4_spec, put_nonneg_spec, padded_app by eauto with rw. by rewrite app_assoc.
Qed.
Lemma aligned_name f name : aligned (enc_name f name).
Proof. unfold enc_name. eauto with rw. Qed.
#[export] Hint Resolve aligned_name : rw.

Lemma put_attr_spec f a : appends (fun buf => put_attr f buf a) (enc_attr f a).
Proof.
  split; [unfold enc_attr; eauto 6 with rw|]. intros buf Hb. unfold put_attr, enc_attr. rewrite put_name_spec by done. unfold put_u32.
  rewrite put_nonneg_spec, pad_to_4_spec, !app_assoc. rewrite <- (padded_app _ (enc_values (at_value a))) by eauto 6 with rw.
  f_equal. destruct (at_value a); [done|by rewrite fold_append..].
Qed.
Lemma att_list_spec f attrs : appends (fun buf => put_att_list buf f attrs) (enc_list f NC_ATTRIBUTE (enc_attr f) attrs).
Proof.
  destruct (fold_appends (put_attr f) (enc_attr f) attrs (put_attr_spec f)) as [Hal Hap].
  split; [destruct attrs; cbn [enc_list]; eauto with rw|]. intros buf Hb. unfold put_att_list, put_u32. destruct attrs as [|a attrs].
  - by rewrite put_nonneg_spec, <- app_assoc.
  - rewrite put_nonneg_spec, Hap by eauto with rw. cbn [enc_list]. by rewrite <- !app_assoc.
Qed.
Lemma aligned_att_list f attrs : aligned (enc_list f NC_ATTRIBUTE (enc_attr f) attrs).
Proof. apply (att_list_spec f attrs). Qed.
#[export] Hint Resolve aligned_att_list : rw.

Lemma put_dim_spec f d : appends (fun buf => put_dim f buf d) (enc_dim f d).
Proof.
  split; [unfold enc_dim; eauto with rw|]. intros buf Hb. unfold put_dim, enc_dim.
  by rewrite put_nonneg_spec, put_name_spec, <- app_assoc.
Qed.
Lemma put_var_spec f x : appends (fun buf => put_var f buf x) (enc_var f x).
Proof.
  destruct x as [v [stride off]]. split; [unfold enc_var; eauto 12 with rw|]. intros buf Hb. unfold put_var, enc_var, put_u32.
  rewrite put_offset_spec, put_nonneg_spec, put_name_spec, put_nonneg_spec by done.
  rewrite (proj2 (fold_appends (fun buf d => put_nonneg buf f (Z.of_nat d)) (fun d => enc_nonneg f (Z.of_nat d)) (dimids v)
    ltac:(intros d; split; [apply aligned_nonneg|intros; apply put_nonneg_spec]))) by eauto with rw.
  rewrite (proj2 (att_list_spec f (nv_attrs v))) by eauto 6 with rw. by rewrite <- !app_assoc.
Qed.

(** The header of the writer is the encoding of its schema. *)
Lemma serialize_spec f dims gattrs vars strides begins n :
  length strides = length vars -> length begins = length vars ->
  serialize_header f dims gattrs vars strides begins n = enc_header f dims gattrs vars strides begins n.
Proof.
  intros Hs Hb. unfold serialize_header, enc_header.
  assert (Hlen : length (zip vars (zip strides begins)) = length vars) by (rewrite !length_zip; lia).
  set (b0 := put_nonneg ([Byte.x43; Byte.x44; Byte.x46] ++ [version_byte f]) f n). assert (E0 : b0 = [Byte.x43; Byte.x44; Byte.x46; version_byte f] ++ enc_nonneg f n) by apply put_nonneg_spec.
  assert (A0 : aligned b0) by (rewrite E0; apply aligned_app; [done|auto with rw]).
  destruct (fold_appends (put_dim f) (enc_dim f) dims (put_dim_spec f)) as [Ad Sd].
  set (b1 := match dims with [] => _ | _ => _ end). assert (b1 = b0 ++ enc_list f NC_DIMENSION (enc_dim f) dims /\ aligned b1) as [E1 A1].
  { assert (b1 = b0 ++ enc_list f NC_DIMENSION (enc_dim f) dims) as ->.
    { unfold b1, put_u32. destruct dims; rewrite put_nonneg_spec; cbn [enc_list]; [by rewrite <- app_assoc|].
      rewrite Sd by eauto with rw. by rewrite <- !app_assoc. }
    split; [done|]. apply aligned_app; [done|]. destruct dims; cbn [enc_list]; eauto with rw. }
  rewrite (proj2 (att_list_spec f gattrs)) by done. set (b2 := b1 ++ _). assert (A2 : aligned b2) by (apply aligned_app; auto with rw).
  destruct (fold_appends (put_var f) (enc_var f) (zip vars (zip strides begins)) (put_var_spec f)) as [_ Sv].
  rewrite (app_assoc _ (enc_nonneg f n)), <- E0, (app_assoc b0), <- E1, (app_assoc b1). fold b2.
  destruct vars as [|v vars]; [by rewrite put_nonneg_spec; unfold put_u32; rewrite <- app_assoc|].
  rewrite put_nonneg_spec. unfold put_u32. rewrite Sv by eauto with rw. unfold enc_list at 1.
  destruct (zip (v :: vars) (zip strides begins)) as [|z zs] eqn:Ez; [cbn in Hlen; discriminate|]. rewrite Hlen. by rewrite <- !app_assoc.
Qed.

(** ** Decoding what was encoded *)

Definition parses {A} (p : parser A) (e : list byte) (x : A) : Prop := forall rest, p (e ++ rest) = Some (x, rest).

Lemma parses_bind {A B} (p : parser A) (k : A -> parser B) e1 e2 x y :
  parses p e1 x -> parses (k x) e2 y -> parses (mbind (M := parser) k p) (e1 ++ e2) y.
Proof. intros Hp Hk rest. unfold mbind, parser_bind. by rewrite <- app_assoc, Hp, Hk. Qed.
Lemma parses_ret {A} (x : A) : parses (mret (M := parser) x) [] x.
Proof. done. Qed.
Lemma parses_last {A B} (p : parser A) (k : A -> parser B) e x y :
  parses p e x -> parses (k x) [] y -> parses (mbind (M := parser) k p) e y.
Proof. intros Hp Hk. rewrite <- (app_nil_r e). by eapply parses_bind. Qed.

Lemma parses_bytes n bs : length bs = n -> parses (p_bytes n) bs bs.
Proof.
  intros <- rest. unfold p_bytes. rewrite (proj2 (Nat.leb_le _ _)) by (rewrite length_app; lia). by rewrite take_app_length, drop_app_length.
Qed.
Lemma from_to_be n z : in_width (2 ^ (8 * Z.of_nat n)) z -> from_be (to_be n z) = z.
Proof. intros Hz. unfold from_be, to_be. rewrite rev_involutive. by apply from_to_le_small. Qed.
Lemma parses_be n z : in_width (2 ^ (8 * Z.of_nat n)) z -> parses (p_be n) (to_be n z) z.
Proof. intros Hz. eapply parses_last; [by apply parses_bytes, length_to_be|]. rewrite (from_to_be n z Hz). apply parses_ret. Qed.

(** The width of a [NON_NEG] field and of an [OFFSET] field. *)
Definition fits (f : NcFormat) (z : Z) : Prop := in_width (2 ^ (8 * Z.of_nat (nonneg_width f))) z.
Definition offset_fits (f : NcFormat) (z : Z) : Prop := in_width (2 ^ (8 * Z.of_nat (offset_width f))) z.
Lemma parses_nonneg f z : fits f z -> parses (p_nonneg f) (enc_nonneg f z) z.
Proof. apply parses_be. Qed.
Lemma parses_offset f z : offset_fits f z -> parses (p_offset f) (enc_offset f z) z.
Proof. apply parses_be. Qed.

Lemma parses_times {A X} (p : parser A) (e : X -> list byte) (g : X -> A) l :
  (forall x, x ∈ l -> parses p (e x) (g x)) -> parses (p_times (length l) p) (l ≫= e) (g <$> l).
Proof.
  induction l as [|x l IH]; intros Hp; [apply parses_ret|]. cbn [length p_times]. cbn [mbind list_bind].
  eapply parses_bind; [apply Hp; left|]. eapply parses_last; [apply IH; intros y Hy; apply Hp; by right|]. apply parses_ret.
Qed.

Lemma parses_padding n : parses (p_padding n) (padding n) tt.
Proof. eapply parses_last; [by apply parses_bytes|]. rewrite bool_decide_eq_true_2 by done. apply parses_ret. Qed.

Lemma string_of_bytes s : string_of (str_bytes s) = s.
Proof.
  unfold string_of, str_bytes. rewrite <- list_fmap_compose, (list_fmap_ext _ id).
  - rewrite list_fmap_id. apply of_bytes_bytes.
  - intros i c _. cbn. apply ascii_of_byte_of_ascii.
Qed.

Lemma parses_name f name : fits f (str_len name) -> parses (p_name f) (enc_name f name) name.
Proof.
  unfold str_len. intros Hf. unfold enc_name, enc_padded. assert (El : length (str_bytes name) = length (bytes name)) by apply length_fmap.
  rewrite El. eapply parses_bind; [by apply parses_nonneg|]. rewrite Nat2Z.id. rewrite <- El.
  eapply parses_bind; [by apply parses_bytes|]. eapply parses_last; [apply parses_padding|]. rewrite string_of_bytes. apply parses_ret.
Qed.

Lemma parses_type t : parses p_type (to_be 4 (type_tag t)) t.
Proof. eapply parses_last; [apply parses_be; by destruct t|]. destruct t; apply parses_ret. Qed.

(** Values of their Rust types. *)
Definition in_i32 (z : Z) : Prop := - 2 ^ 31 <= z < 2 ^ 31.
Definition attr_typed (a : NcAttr) : Prop :=
  match at_value a with Ints v => Forall in_i32 v | Doubles v => Forall (in_width u64_limit) v | _ => True end.
Definition attr_fits (f : NcFormat) (a : NcAttr) : Prop := fits f (str_len (at_name a)) /\ fits f (nelems (at_value a)).

Lemma parses_i32 z : in_i32 z -> parses p_i32 (to_be 4 z) z.
Proof.
  intros Hz. assert (Em : to_be 4 z = to_be 4 (z mod 2 ^ 32)).
  { unfold to_be. f_equal. rewrite <- (to_from_le' 4 (to_le 4 z)) by apply length_to_le. by rewrite from_to_le. }
  rewrite Em. eapply parses_last; [apply parses_be; unfold in_width; apply Z.mod_pos_bound; lia|].
  assert (Ez : (if z mod 2 ^ 32 <? 2 ^ 31 then z mod 2 ^ 32 else z mod 2 ^ 32 - 2 ^ 32) = z); [|rewrite Ez; apply parses_ret].
  unfold in_i32 in Hz. destruct (Z.ltb_spec z 0).
  - replace (z mod 2 ^ 32) with (z + 2 ^ 32) by (apply Z.mod_unique with (-1); lia). rewrite (proj2 (Z.ltb_ge _ _)) by lia. lia.
  - rewrite Z.mod_small by lia. by rewrite (proj2 (Z.ltb_lt _ _)) by lia.
Qed.
Lemma parses_f32 v : parses p_f32 (f32_to_be v) v.
Proof.
  destruct v as [b0 b1 b2 b3]. eapply parses_last; [by apply parses_bytes|]. cbn. apply parses_ret.
Qed.

Lemma length_bind_same {A} (e : A -> list byte) n l : (forall x, length (e x) = n) -> length (l ≫= e) = (length l * n)%nat.
Proof. intros He. induction l as [|x l IH]; [done|]. cbn. rewrite length_app, He. cbn in IH. rewrite IH. lia. Qed.
Lemma length_f32_to_be v : length (f32_to_be v) = 4%nat.
Proof. by destruct v. Qed.
Lemma length_values v : Z.of_nat (length (enc_values v)) = nelems v * type_size (attr_type v).
Proof.
  destruct v; cbn [enc_values nelems attr_type type_size]; [unfold str_len, str_bytes; rewrite length_fmap; lia|..].
  - rewrite (length_bind_same _ 4) by apply length_to_be. lia.
  - rewrite (length_bind_same _ 4) by apply length_f32_to_be. lia.
  - rewrite (length_bind_same _ 8) by apply length_to_be. lia.
Qed.

Lemma parses_values a : attr_typed a ->
  parses (p_values (attr_type (at_value a)) (Z.to_nat (nelems (at_value a)))) (enc_values (at_value a)) (at_value a).
Proof.
  unfold attr_typed. destruct (at_value a) as [s|v|v|v]; cbn [attr_type nelems enc_values p_values]; intros Ht; unfold str_len; rewrite Nat2Z.id.
  - eapply parses_last; [apply parses_bytes; apply length_fmap|]. rewrite string_of_bytes. apply parses_ret.
  - eapply parses_last; [apply (parses_times _ _ id); intros x Hx; apply parses_i32; by eapply list.Forall_forall in Hx|].
    rewrite list_fmap_id. apply parses_ret.
  - eapply parses_last; [apply (parses_times _ _ id); intros x Hx; apply parses_f32|]. rewrite list_fmap_id. apply parses_ret.
  - eapply parses_last; [apply (parses_times _ _ id); intros x Hx; apply parses_be; by eapply list.Forall_forall in Hx|].
    rewrite list_fmap_id. apply parses_ret.
Qed.

Lemma parses_attr f a : attr_typed a -> attr_fits f a -> parses (p_attr f) (enc_attr f a) a.
Proof.
  intros Ht [Hn Hv]. unfold enc_attr. eapply parses_bind; [by apply parses_name|]. eapply parses_bind; [apply parses_type|].
  eapply parses_bind; [by apply parses_nonneg|]. unfold enc_padded. eapply parses_bind; [by apply parses_values|].
  rewrite <- length_values, Nat2Z.id. eapply parses_last; [apply parses_padding|]. destruct a. apply parses_ret.
Qed.

Lemma parses_list {A X} f tag (p : parser A) (e : X -> list byte) (g : X -> A) l :
  0 < tag < 2 ^ 32 -> fits f (Z.of_nat (length l)) -> (forall x, x ∈ l -> parses p (e x) (g x)) ->
  parses (p_list f tag p) (enc_list f tag e l) (g <$> l).
Proof.
  intros Htag Hn Hp. destruct l as [|x l]; cbn [enc_list].
  - eapply parses_bind; [by apply parses_be|]. eapply parses_last; [by apply parses_nonneg; destruct f|].
    rewrite (proj2 (Z.eqb_neq _ _)) by (unfold ABSENT_TAG; lia). cbn. apply parses_ret.
  - eapply parses_bind; [apply parses_be; unfold in_width; lia|]. eapply parses_bind; [by apply parses_nonneg|].
    rewrite Z.eqb_refl, Nat2Z.id. by apply parses_times.
Qed.
Lemma parses_attrs f attrs : fits f (Z.of_nat (length attrs)) -> Forall attr_typed attrs -> Forall (attr_fits f) attrs ->
  parses (p_list f NC_ATTRIBUTE (p_attr f)) (enc_list f NC_ATTRIBUTE (enc_attr f) attrs) attrs.
Proof.
  intros Hn Ht Hf. rewrite <- (list_fmap_id attrs) at 2. apply parses_list; [done|done|]. intros x Hx.
  apply parses_attr; by eapply list.Forall_forall in Hx.
Qed.

(** The schema as the decoder gives it. *)
Definition dim_spec (d : NcDim) : DimSpec := {| ds_name := nd_name d; ds_len := if unlimited d then 0 else Z.of_nat (nd_len d) |}.
Definition var_spec (x : NcVarDef * (Z * Z)) : VarSpec :=
  let '(v, (stride, off)) := x in
  {| vs_name := nv_name v; vs_dimids := Z.of_nat <$> dimids v; vs_attrs := nv_attrs v; vs_type := nv_ty v; vsize := stride; begin := off |}.
Definition header_spec (f : NcFormat) (dims : list NcDim) (gattrs : list NcAttr) (vars : list NcVarDef) (strides begins : list Z) (n : Z) : HeaderSpec :=
  {| hs_format := f; numrecs := n; hs_dims := dim_spec <$> dims; hs_gattrs := gattrs; hs_vars := var_spec <$> zip vars (zip strides begins) |}.

Definition attrs_fit (f : NcFormat) (attrs : list NcAttr) : Prop :=
  fits f (Z.of_nat (length attrs)) /\ Forall attr_typed attrs /\ Forall (attr_fits f) attrs.
Definition dim_fits (f : NcFormat) (d : NcDim) : Prop := fits f (str_len (nd_name d)) /\ (unlimited d = false -> fits f (Z.of_nat (nd_len d))).
Definition var_fits (f : NcFormat) (v : NcVarDef) : Prop :=
  fits f (str_len (nv_name v)) /\ fits f (Z.of_nat (length (dimids v))) /\ Forall (fun d => fits f (Z.of_nat d)) (dimids v) /\ attrs_fit f (nv_attrs v).

Lemma parses_dim f d : dim_fits f d -> parses (p_dim f) (enc_dim f d) (dim_spec d).
Proof.
  intros [Hn Hl]. unfold enc_dim. eapply parses_bind; [by apply parses_name|]. unfold dim_spec.
  eapply parses_last; [apply parses_nonneg; destruct (unlimited d); [by destruct f|by apply Hl]|]. apply parses_ret.
Qed.
Lemma parses_var f v stride off : var_fits f v -> fits f stride -> offset_fits f off ->
  parses (p_var f) (enc_var f (v, (stride, off))) (var_spec (v, (stride, off))).
Proof.
  intros (Hn & Hl & Hd & Ha1 & Ha2 & Ha3) Hs Ho. unfold enc_var. eapply parses_bind; [by apply parses_name|].
  eapply parses_bind; [by apply parses_nonneg|]. rewrite Nat2Z.id.
  eapply parses_bind; [apply (parses_times (p_nonneg f) _ Z.of_nat); intros d Hin; apply parses_nonneg; exact (proj1 (list.Forall_forall _ _) Hd d Hin)|].
  eapply parses_bind; [by apply parses_attrs|]. eapply parses_bind; [apply parses_type|]. eapply parses_bind; [by apply parses_nonneg|].
  eapply parses_last; [by apply parses_offset|]. apply parses_ret.
Qed.

Lemma parses_magic f : parses p_magic [Byte.x43; Byte.x44; Byte.x46; version_byte f] f.
Proof. eapply parses_last; [by apply parses_bytes|]. destruct f; apply parses_ret. Qed.

(** A header decodes to the schema it encodes. *)
Lemma header_decodes f dims gattrs vars strides begins n rest :
  fits f n -> fits f (Z.of_nat (length dims)) -> Forall (dim_fits f) dims -> attrs_fit f gattrs ->
  fits f (Z.of_nat (length vars)) -> Forall (var_fits f) vars -> Forall (fits f) strides -> Forall (offset_fits f) begins ->
  length strides = length vars -> length begins = length vars ->
  p_header (serialize_header f dims gattrs vars strides begins n ++ rest) = Some (header_spec f dims gattrs vars strides begins n, rest).
Proof.
  intros Hn Hdl Hd (Ha1 & Ha2 & Ha3) Hvl Hv Hs Hb Ls Lb. rewrite serialize_spec by done. revert rest.
  change (parses p_header (enc_header f dims gattrs vars strides begins n) (header_spec f dims gattrs vars strides begins n)).
  unfold enc_header. eapply parses_bind; [apply parses_magic|]. eapply parses_bind; [by apply parses_nonneg|].
  eapply parses_bind; [apply (parses_list f NC_DIMENSION (p_dim f) (enc_dim f) dim_spec); [done|done|]; intros d Hin;
    apply parses_dim; exact (proj1 (list.Forall_forall _ _) Hd d Hin)|].
  eapply parses_bind; [by apply parses_attrs|].
  eapply parses_last; [apply (parses_list f NC_VARIABLE (p_var f) (enc_var f) var_spec); [done| |]|apply parses_ret].
  - rewrite !length_zip. replace (length vars `min` (length strides `min` length begins))%nat with (length vars) by lia. done.
  - intros [v [stride off]] Hin. apply elem_of_zip_l in Hin as Hv'. apply elem_of_zip_r in Hin as Hr.
    apply elem_of_zip_l in Hr as Hs'. apply elem_of_zip_r in Hr as Hb'. apply parses_var.
    + exact (proj1 (list.Forall_forall _ _) Hv v Hv').
    + exact (proj1 (list.Forall_forall _ _) Hs _ Hs').
    + exact (proj1 (list.Forall_forall _ _) Hb _ Hb').
Qed.
