(* ===== verification/NetcdfFile.v ===== *)
(** * The files of the NetCDF classic writer

    The layout that [NcClassicWriter::create] computes: slabs that do not
    overlap and that lie between the header and the end of the file. Any
    sequence of puts that [finish] accepts gives a file that decodes to its
    schema and holds every slab that was put, whatever the order. *)
From Stdlib Require Import ZArith Lia Ascii String.
From stdpp Require Import base list strings numbers gmap.
From S2P Require Import Prelude F32 Format Text Netcdf NetcdfRead.

Local Open Scope Z_scope.

(** ** The geometry of the slabs *)

(** A layout before it has an offset. *)
Definition geometry (l : VarLayout) : VarLayout := set_begin 0 l.
Record slab_ok (l : VarLayout) : Prop := {
  so_bytes : slab_bytes l = slab_elems l * type_size (vl_ty l);
  so_elems : 1 <= slab_elems l;
  so_stride : slab_bytes l <= slab_stride l < u64_limit
}.

Lemma size_pos t : 1 <= type_size t.
Proof. by destruct t. Qed.

Lemma ldiff_3 q : Z.ldiff q 3 = q / 4 * 4.
Proof. change 3 with (Z.ones 2). by rewrite Z.ldiff_ones_r, Z.shiftl_mul_pow2, Z.shiftr_div_pow2 by lia. Qed.
Lemma pad4_spec n p : 0 <= n -> pad4 n = Some p -> n <= p < u64_limit /\ p mod 4 = 0 /\ p < n + 4.
Proof.
  unfold pad4. intros Hn E. destruct (checked_add64 n 3) as [q|] eqn:Eq; [|done]. injection E as <-. apply checked_add64_inv in Eq as [-> Hq].
  rewrite ldiff_3. rewrite Z.mod_mul by lia. pose proof (Z.div_mod (n + 3) 4 ltac:(lia)). pose proof (Z.mod_pos_bound (n + 3) 4 ltac:(lia)). lia.
Qed.

(** The elements of a slab, as the product of the lengths of its axes. *)
Definition axes (record : bool) (ids : list nat) : list nat := if record then drop 1 ids else ids.
Definition dim_len (dims : list NcDim) (d : nat) : Z := match dims !! d with Some dim => Z.of_nat (nd_len dim) | None => 0 end.

(** ** What validation ensures *)

Lemma imap_pair_snoc {A} (l : list A) x : imap pair (l ++ [x]) = imap pair l ++ [(length l, x)].
Proof. rewrite imap_app. cbn. by rewrite Nat.add_0_r. Qed.

Lemma dims_checked dims names rd : check_dims dims = Ok (names, rd) ->
  (forall i d, dims !! i = Some d -> (unlimited d = true <-> rd = Some i) /\ (unlimited d = false -> nd_len d <> 0%nat))
  /\ (forall i, rd = Some i -> (i < length dims)%nat).
Proof.
  revert names rd. induction dims as [|d dims IH] using rev_ind; intros names rd; unfold check_dims.
  - intros [= <- <-]. split; [by intros i d|done].
  - rewrite imap_pair_snoc, rfold_app. fold (check_dims dims). intros E. bind_step E E1. destruct a as [names' rd'].
    destruct (IH _ _ eq_refl) as [IH1 IH2]. cbn [rfold] in E. bind_step E E2. injection E as ->. bind_step E2 E3. bind_step E2 E4. bind_step E2 E5.
    injection E2 as <- <-. rewrite length_app. cbn [length]. split.
    + intros i x [Hx|[Hi Hx]]%lookup_snoc_Some.
      * destruct Hx as [Hlt Hx]. destruct (IH1 i x Hx) as [I1 I2]. split; [|done]. rewrite I1. clear I1 I2.
        destruct (unlimited d); [destruct rd' as [j|]; [done|]|destruct (nd_len d =? 0)%nat; [done|]]; injection E4 as <-; [|done].
        split; [done|]. intros [= <-]. lia.
      * subst x i. destruct (unlimited d); [destruct rd' as [j|]; [done|]|destruct (nd_len d =? 0)%nat eqn:El; [done|]]; injection E4 as <-; (split; [|]).
        -- done.
        -- done.
        -- split; [done|]. intros Er. apply IH2 in Er. lia.
        -- intros _. by apply Nat.eqb_neq.
    + intros i Hi. destruct (unlimited d); [destruct rd' as [j|]; [done|]|destruct (nd_len d =? 0)%nat; [done|]]; injection E4 as <-.
      * injection Hi as <-. lia.
      * apply IH2 in Hi. lia.
Qed.

Lemma var_dims_checked dims rd ids seen : check_var_dims dims rd ids = Ok seen ->
  forall axis d, ids !! axis = Some d -> (d < length dims)%nat /\ (rd = Some d -> axis = 0%nat).
Proof.
  revert seen. induction ids as [|d ids IH] using rev_ind; intros seen; unfold check_var_dims; [by intros _ axis d|].
  rewrite imap_pair_snoc, rfold_app. fold (check_var_dims dims rd ids). intros E. bind_step E E1. cbn [rfold] in E. bind_step E E2. injection E as ->.
  bind_step E2 E3. bind_step E2 E4. bind_step E2 E5. apply reject_inv, Nat.leb_gt in E3. apply reject_inv in E5.
  intros axis x [Hx|[Hi Hx]]%lookup_snoc_Some; [destruct Hx as [_ Hx]; by eapply IH|]. subst. split; [done|]. intros ->.
  rewrite bool_decide_eq_true_2 in E5 by done. by apply negb_false_iff, Nat.eqb_eq in E5.
Qed.

Lemma vars_checked dims rd vars names : check_vars dims rd vars = Ok names -> Forall (fun v => exists seen, check_var_dims dims rd (dimids v) = Ok seen) vars.
Proof.
  revert names. induction vars as [|v vars IH] using rev_ind; intros names; unfold check_vars; [done|].
  rewrite rfold_app. fold (check_vars dims rd vars). intros E. bind_step E E1. cbn [rfold] in E. bind_step E E2. injection E as ->.
  bind_step E2 E3. bind_step E2 E4. bind_step E2 E5. apply Forall_app. split; [by eapply IH|]. constructor; [by eexists|constructor].
Qed.

(** The record dimension is the only unlimited one, and it leads every
    variable that uses it. *)
Record schema_ok (dims : list NcDim) (vars : list NcVarDef) (rd : option nat) (n : Z) : Prop := {
  sc_dims : forall i d, dims !! i = Some d -> (unlimited d = true <-> rd = Some i) /\ (unlimited d = false -> nd_len d <> 0%nat);
  sc_vars : forall v axis d, v ∈ vars -> dimids v !! axis = Some d -> (d < length dims)%nat /\ (rd = Some d -> axis = 0%nat)
}.
Lemma defs_valid dims gattrs vars n rd : validate_defs dims gattrs vars n = Ok rd -> schema_ok dims vars rd n.
Proof.
  unfold validate_defs. intros E. bind_step E E1. destruct a as [names rd']. bind_step E E2. bind_step E E3. bind_step E E4. injection E as ->.
  destruct (dims_checked _ _ _ E1) as [Hd _]. split; [exact Hd|]. intros v axis d Hv Hx. apply vars_checked in E4.
  destruct (proj1 (list.Forall_forall _ _) E4 v Hv) as [seen Hs]. by eapply var_dims_checked.
Qed.

(** ** The layouts of the slabs *)

Lemma count_spec dims record xs e0 e :
  rfold (fun elems x => let '(axis, dimid) := x in
    if record && (axis =? 0)%nat then Ok elems else
    dim ← or_panic (dims !! dimid);
    ok_or (checked_mul64 elems (Z.of_nat (nd_len dim))) (Format "netcdf_classic: variable '{}' slab element count overflows u64"))
    xs e0 = Ok e ->
  e = e0 * foldr Z.mul 1 ((fun x : nat * nat => dim_len dims x.2) <$> filter (fun x : nat * nat => record && (x.1 =? 0)%nat = false) xs).
Proof.
  revert e0. induction xs as [|[axis d] xs IH]; intros e0; cbn [rfold].
  - intros [= <-]. cbn. lia.
  - intros E. bind_step E E1. apply IH in E as ->. rewrite filter_cons. cbn [fst]. destruct (record && (axis =? 0)%nat).
    + injection E1 as <-. by rewrite decide_False by done.
    + rewrite decide_True by done. cbn. unfold dim_len at 2. bind_step E1 E2. destruct (dims !! d) as [dim|]; [|done]. injection E2 as <-.
      apply ok_or_inv, checked_mul64_inv in E1 as [-> _]. lia.
Qed.

Lemma kept_axes record ids : (filter (fun x : nat * nat => record && (x.1 =? 0)%nat = false) (imap pair ids)).*2 = axes record ids.
Proof.
  destruct ids as [|d ids]; [by destruct record|]. rewrite imap_cons. rewrite filter_cons. cbn [fst].
  assert (Hrest : (filter (fun x : nat * nat => record && (x.1 =? 0)%nat = false) (imap (pair ∘ S) ids)).*2 = ids).
  { assert (forall k, (filter (fun x : nat * nat => record && (x.1 =? 0)%nat = false) (imap (fun i x => (S (k + i), x)) ids)).*2 = ids) as H.
    { induction ids as [|x ids IH]; intros k; [done|]. rewrite imap_cons, filter_cons_True by (cbn; by destruct record). cbn. f_equal.
      erewrite imap_ext; [apply (IH (S k))|]. intros i y _. cbn. do 2 f_equal. lia. }
    erewrite imap_ext; [apply (H 0%nat)|]. done. }
  destruct record; cbn.
  - by rewrite decide_False by done.
  - rewrite decide_True by done. cbn in *. by rewrite Hrest.
Qed.

Lemma elems_spec dims record ids e : count_elems dims record ids = Ok e -> e = foldr Z.mul 1 (dim_len dims <$> axes record ids).
Proof.
  unfold count_elems. intros E%count_spec. rewrite E, <- kept_axes, <- list_fmap_compose. unfold compose. lia.
Qed.

(** A layout is that of its variable. *)
Record layout_of (dims : list NcDim) (rd : option nat) (v : NcVarDef) (l : VarLayout) : Prop := {
  lo_name : vl_name l = nv_name v;
  lo_type : vl_ty l = nv_ty v;
  lo_record : is_record l = var_is_record rd (dimids v);
  lo_elems : slab_elems l = foldr Z.mul 1 (dim_len dims <$> axes (is_record l) (dimids v));
  lo_slab : slab_ok l
}.

Lemma record_head rd ids : var_is_record rd ids = true <-> exists d, rd = Some d /\ head ids = Some d.
Proof.
  unfold var_is_record. destruct rd as [r|], (head ids) as [d|]; try (split; [done|intros (? & ? & ?); congruence]).
  rewrite Nat.eqb_eq. split; [intros ->; eauto|intros (? & [= <-] & [= <-]); done].
Qed.

Lemma axes_fixed dims vars rd n v : schema_ok dims vars rd n -> v ∈ vars ->
  Forall (fun d => exists dim, dims !! d = Some dim /\ unlimited dim = false /\ nd_len dim <> 0%nat) (axes (var_is_record rd (dimids v)) (dimids v)).
Proof.
  intros Hs Hv. apply list.Forall_forall. intros d Hd. unfold axes in Hd.
  assert (exists axis, dimids v !! axis = Some d /\ (rd = Some d -> False)) as (axis & Ha & Hne).
  { destruct (var_is_record rd (dimids v)) eqn:E.
    - apply list_elem_of_lookup in Hd as [k Hk]. rewrite lookup_drop in Hk. exists (1 + k)%nat. split; [done|]. intros Hr.
      by destruct (sc_vars _ _ _ _ Hs v (1 + k) d Hv Hk) as [_ H0]; apply H0 in Hr.
    - apply list_elem_of_lookup in Hd as [k Hk]. exists k. split; [done|]. intros Hr. destruct (sc_vars _ _ _ _ Hs v k d Hv Hk) as [_ H0].
      apply H0 in Hr as Hk0. subst k. apply not_true_iff_false in E. apply E. apply record_head. exists d. split; [done|]. by destruct (dimids v). }
  destruct (sc_vars _ _ _ _ Hs v axis d Hv Ha) as [Hlt _]. destruct (lookup_lt_is_Some_2 dims d Hlt) as [dim Hdim].
  destruct (sc_dims _ _ _ _ Hs d dim Hdim) as [Hu Hl]. exists dim.
  assert (unlimited dim = false) by (destruct (unlimited dim); [exfalso; by apply Hne, Hu|done]). auto.
Qed.
Lemma axes_positive dims vars rd n v : schema_ok dims vars rd n -> v ∈ vars ->
  Forall (fun d => 1 <= dim_len dims d) (axes (var_is_record rd (dimids v)) (dimids v)).
Proof.
  intros Hs Hv. eapply list.Forall_impl; [by eapply axes_fixed|]. intros d (dim & Hd & _ & Hl). unfold dim_len. rewrite Hd. lia.
Qed.

Lemma product_positive l : Forall (fun x => 1 <= x) l -> 1 <= foldr Z.mul 1 l.
Proof. induction 1 as [|x l Hx _ IH]; cbn; [lia|]. nia. Qed.

Lemma var_layout_spec dims vars rd n v l : schema_ok dims vars rd n -> v ∈ vars -> var_layout dims rd v = Ok l -> layout_of dims rd v l.
Proof.
  intros Hs Hv. unfold var_layout. intros E. bind_step E E1. bind_step E E2. bind_step E E3. injection E as <-. apply elems_spec in E1.
  apply ok_or_inv, checked_mul64_inv in E2 as [-> Hb]. split; cbn [vl_name vl_ty is_record slab_elems]; try done.
  assert (1 <= a). { rewrite E1. apply product_positive. apply Forall_fmap. by eapply axes_positive. }
  pose proof (size_pos (nv_ty v)). apply ok_or_inv, pad4_spec in E3 as (H1 & H2 & _); [|nia]. split; cbn; [done|done|lia].
Qed.

Lemma update_first_spec {A} (p : A -> bool) g (l : list A) : Forall2 (fun x y => y = x \/ y = g x) l (update_first p g l).
Proof. induction l as [|x l IH]; [constructor|]. cbn. destruct (p x); constructor; auto. clear. induction l; constructor; auto. Qed.

Lemma sole_record_spec ls : Forall2 (fun x y => y = x \/ y = set_stride (slab_bytes x) x) ls (sole_record_exception ls).
Proof.
  unfold sole_record_exception. destruct (_ =? _)%nat.
  - eapply Forall2_impl; [apply update_first_spec|]. intros x y [E|E]; subst y; [by left|]. cbn. destruct (unpadded_when_sole_record_var _); auto.
  - clear. induction ls; constructor; auto.
Qed.

Lemma layout_of_stride dims rd v l : layout_of dims rd v l -> layout_of dims rd v (set_stride (slab_bytes l) l).
Proof.
  intros [? ? ? ? [H1 H2 H3]]. split; cbn; try done. split; cbn; [done|done|lia].
Qed.

Lemma slab_layouts_spec f dims vars rd n ls : schema_ok dims vars rd n -> slab_layouts f dims vars rd = Ok ls ->
  Forall2 (layout_of dims rd) vars ls /\ Forall (fun l => fits f (slab_stride l)) ls.
Proof.
  intros Hs. unfold slab_layouts. intros E. bind_step E E1. bind_step E E2. injection E as <-. apply reject_inv in E2.
  assert (HF : Forall2 (layout_of dims rd) vars (sole_record_exception a)).
  { apply rmap_ok_inv in E1. pose proof (sole_record_spec a) as Hx. revert Hx. generalize (sole_record_exception a) as ys.
    assert (HF : Forall2 (layout_of dims rd) vars a).
    { apply Forall2_same_length_lookup. split; [by eapply Forall2_length|]. intros i v l Hv Hl.
      eapply var_layout_spec; [exact Hs|by eapply list_elem_of_lookup_2|]. by eapply Forall2_lookup_lr in E1. }
    clear E1 E2 Hs. induction HF as [|v l vars a Hl _ IH]; intros ys Hx; inversion Hx as [|? y ? ys' Hy Hr]; subst; constructor; [|by apply IH].
    destruct Hy as [-> | ->]; [done|by apply layout_of_stride]. }
  split; [done|]. apply list.Forall_forall. intros l Hl. apply list_elem_of_lookup in Hl as [i Hi].
  destruct (Forall2_lookup_r _ _ _ _ _ HF Hi) as (v & _ & Hlo). destruct (lo_slab _ _ _ _ Hlo) as [H1 H2 H3]. pose proof (size_pos (vl_ty l)).
  unfold fits, in_width. destruct (nonneg_width f =? 4)%nat eqn:Ew.
  - cbn [andb] in E2. assert (slab_stride l <= u32_limit - 1).
    { apply Z.leb_le. destruct (Z.leb_spec (slab_stride l) (u32_limit - 1)); [done|]. exfalso. apply not_true_iff_false in E2. apply E2.
      apply existsb_exists. exists l. split; [apply list_elem_of_In; by eapply list_elem_of_lookup_2|]. apply Z.ltb_lt. lia. }
    apply Nat.eqb_eq in Ew. rewrite Ew. unfold u32_limit in *. nia.
  - destruct f; try done. change (2 ^ (8 * Z.of_nat (nonneg_width Data64))) with u64_limit. nia.
Qed.

(** ** Offsets *)

(** The bytes of the slabs of one kind. *)
Definition kind_sum (record : bool) (ls : list VarLayout) : Z :=
  foldr Z.add 0 ((fun l => if Bool.eqb (is_record l) record then slab_stride l else 0) <$> ls).

Lemma kind_sum_app record a b : kind_sum record (a ++ b) = kind_sum record a + kind_sum record b.
Proof. unfold kind_sum. rewrite fmap_app, foldr_app. induction a as [|x a IH]; cbn in *; lia. Qed.
Lemma kind_sum_cons record l ls : kind_sum record (l :: ls) = (if Bool.eqb (is_record l) record then slab_stride l else 0) + kind_sum record ls.
Proof. done. Qed.
Lemma kind_sum_nonneg record ls : Forall (fun l => 0 <= slab_stride l) ls -> 0 <= kind_sum record ls.
Proof. induction 1 as [|l ls Hl _ IH]; [done|]. rewrite kind_sum_cons. destruct (Bool.eqb _ _); lia. Qed.
Lemma kind_sum_take record ls i l : Forall (fun l => 0 <= slab_stride l) ls -> ls !! i = Some l -> is_record l = record ->
  kind_sum record (take i ls) + slab_stride l <= kind_sum record ls.
Proof.
  intros Hf Hl Hr. rewrite <- (take_drop_middle ls i l Hl) at 2. rewrite kind_sum_app, kind_sum_cons, Hr, eqb_reflx.
  pose proof (kind_sum_nonneg record (drop (S i) ls) ltac:(by apply Forall_drop)). lia.
Qed.
(** Slabs of one kind follow each other. *)
Lemma kind_sum_before record ls i j l : Forall (fun l => 0 <= slab_stride l) ls -> ls !! i = Some l -> is_record l = record -> (i < j)%nat ->
  kind_sum record (take i ls) + slab_stride l <= kind_sum record (take j ls).
Proof.
  intros Hf Hl Hr Hij. pose proof (kind_sum_take record (take j ls) i l ltac:(by apply Forall_take)) as H. rewrite lookup_take_lt in H by done.
  rewrite take_take in H. replace (i `min` j)%nat with i in H by lia. by apply H.
Qed.

Lemma place_fixed_spec c ls ls' c' : place_fixed c ls = Ok (ls', c') ->
  c' = c + kind_sum false ls /\ geometry <$> ls' = geometry <$> ls
  /\ (forall i l', ls' !! i = Some l' -> is_record l' = false -> vl_begin l' = c + kind_sum false (take i ls))
  /\ (c < u64_limit -> c' < u64_limit).
Proof.
  revert c ls' c'. induction ls as [|l ls IH]; intros c ls' c'; cbn [place_fixed].
  - intros [= <- <-]. split_and!; [cbn; lia|done|done|done].
  - destruct (is_record l) eqn:Er; intros E.
    + bind_step E E1. destruct a as [p c1]. injection E as <- <-. destruct (IH _ _ _ E1) as (-> & Hg & Hp & Hlt). rewrite kind_sum_cons, Er. cbn [Bool.eqb].
      split_and!; [lia|cbn; by rewrite Hg| |done]. intros [|i] l' Hl Hr; cbn in Hl; [congruence|]. cbn [take]. rewrite kind_sum_cons, Er. cbn [Bool.eqb].
      rewrite (Hp i l' Hl Hr). lia.
    + bind_step E E0. bind_step E E1. destruct a0 as [p c1]. injection E as <- <-. apply ok_or_inv, checked_add64_inv in E0 as [-> Hlt0].
      destruct (IH _ _ _ E1) as (-> & Hg & Hp & Hlt). rewrite kind_sum_cons, Er. cbn [Bool.eqb]. split_and!; [lia|cbn; by rewrite Hg| |].
      * intros [|i] l' Hl Hr; cbn in Hl; [injection Hl as <-; cbn; lia|]. cbn [take]. rewrite kind_sum_cons, Er. cbn [Bool.eqb]. rewrite (Hp i l' Hl Hr). lia.
      * intros _. specialize (Hlt Hlt0). lia.
Qed.

Lemma place_records_spec o s ls ls' s' : place_records o s ls = Ok (ls', s') ->
  s' = s + kind_sum true ls /\ geometry <$> ls' = geometry <$> ls
  /\ (forall i l', ls' !! i = Some l' -> vl_begin l' = if is_record l' then (o + (s + kind_sum true (take i ls))) mod u64_limit
                                                       else match ls !! i with Some l => vl_begin l | None => 0 end).
Proof.
  revert s ls' s'. induction ls as [|l ls IH]; intros s ls' s'; cbn [place_records].
  - intros [= <- <-]. split_and!; [cbn; lia|done|done].
  - destruct (is_record l) eqn:Er; intros E.
    + bind_step E E0. bind_step E E1. destruct a0 as [p c1]. injection E as <- <-. apply ok_or_inv, checked_add64_inv in E0 as [-> _].
      destruct (IH _ _ _ E1) as (-> & Hg & Hp). rewrite kind_sum_cons, Er. cbn [Bool.eqb]. split_and!; [lia|cbn; by rewrite Hg|].
      intros [|i] l' Hl; cbn in Hl; [injection Hl as <-; cbn [set_begin is_record vl_begin]; rewrite Er; cbn; by rewrite Z.add_0_r|].
      rewrite (Hp i l' Hl). cbn [take lookup list_lookup]. destruct (is_record l'); [|done]. rewrite kind_sum_cons, Er. cbn [Bool.eqb]; f_equal; lia.
    + bind_step E E1. destruct a as [p c1]. injection E as <- <-. destruct (IH _ _ _ E1) as (-> & Hg & Hp). rewrite kind_sum_cons, Er. cbn [Bool.eqb].
      split_and!; [lia|cbn; by rewrite Hg|]. intros [|i] l' Hl; cbn in Hl; [injection Hl as <-; by rewrite Er|].
      rewrite (Hp i l' Hl). cbn [take lookup list_lookup]. destruct (is_record l'); [|done]. rewrite kind_sum_cons, Er. cbn [Bool.eqb]; f_equal; lia.
Qed.

Lemma geometry_eq l l' : geometry l = geometry l' -> l' = set_begin (vl_begin l') l.
Proof. destruct l, l'. cbn. by intros [= -> -> -> -> -> ->]. Qed.
Lemma geometry_sum record ls ls' : geometry <$> ls' = geometry <$> ls -> kind_sum record ls' = kind_sum record ls.
Proof.
  intros E. unfold kind_sum. f_equal. assert (H : forall l : list VarLayout, (fun l => if Bool.eqb (is_record l) record then slab_stride l else 0) <$> l
    = (fun l => if Bool.eqb (is_record l) record then slab_stride l else 0) <$> (geometry <$> l)).
  { intros l. by rewrite <- list_fmap_compose. }
  by rewrite H, E, <- H.
Qed.

(** The places of the slabs of a file whose header has [c0] bytes. *)
Record placed (c0 : Z) (ls : list VarLayout) (origin stride : Z) : Prop := {
  pl_origin : origin = c0 + kind_sum false ls;
  pl_stride : stride = kind_sum true ls;
  pl_fixed : forall i l, ls !! i = Some l -> is_record l = false -> vl_begin l = c0 + kind_sum false (take i ls);
  pl_record : forall i l, ls !! i = Some l -> is_record l = true -> vl_begin l = (origin + kind_sum true (take i ls)) mod u64_limit
}.
Lemma place_spec c0 ls0 ls1 ls origin stride : place_fixed c0 ls0 = Ok (ls1, origin) -> place_records origin 0 ls1 = Ok (ls, stride) ->
  placed c0 ls origin stride /\ geometry <$> ls = geometry <$> ls0 /\ (c0 < u64_limit -> origin < u64_limit).
Proof.
  intros (-> & Hg1 & Hp1 & Hlt)%place_fixed_spec (-> & Hg2 & Hp2)%place_records_spec.
  assert (Ht : forall i, geometry <$> take i ls = geometry <$> take i ls0) by (intros i; rewrite !fmap_take; congruence).
  assert (Ht1 : forall i, geometry <$> take i ls = geometry <$> take i ls1) by (intros i; rewrite !fmap_take; congruence).
  split; [|split; [congruence|done]]. split.
  - by rewrite <- (geometry_sum false ls0 ls) by congruence.
  - rewrite Z.add_0_l. symmetry. by apply geometry_sum.
  - intros i l Hl Hr. rewrite (Hp2 i l Hl), Hr.
    assert (is_Some (ls1 !! i)) as [l1 Hl1]. { apply lookup_lt_is_Some. apply (f_equal length) in Hg2. rewrite !length_fmap in Hg2. rewrite <- Hg2. by eapply lookup_lt_Some. }
    rewrite Hl1. rewrite (Hp1 i l1 Hl1).
    + by rewrite (geometry_sum false (take i ls0) (take i ls)) by apply Ht.
    + assert (geometry l1 = geometry l) as Eg.
      { apply (f_equal (.!! i)) in Hg2. rewrite !list_lookup_fmap, Hl, Hl1 in Hg2. symmetry. by apply (inj Some). }
      apply (f_equal is_record) in Eg. cbn in Eg. congruence.
  - intros i l Hl Hr. rewrite (Hp2 i l Hl), Hr, Z.add_0_l. by rewrite (geometry_sum true (take i ls1) (take i ls)) by apply Ht1.
Qed.

(** ** Widths *)

(** The sizes of a schema are [usize] and [u64] values. *)
Definition attrs_typed (attrs : list NcAttr) : Prop :=
  in_width u64_limit (Z.of_nat (length attrs))
  /\ Forall (fun a => attr_typed a /\ in_width u64_limit (str_len (at_name a)) /\ in_width u64_limit (nelems (at_value a))) attrs.
Record schema_typed (dims : list NcDim) (gattrs : list NcAttr) (vars : list NcVarDef) (n : Z) : Prop := {
  st_records : in_width u64_limit n;
  st_dims : in_width u64_limit (Z.of_nat (length dims))
            /\ Forall (fun d => in_width u64_limit (str_len (nd_name d)) /\ in_width u64_limit (Z.of_nat (nd_len d))) dims;
  st_gattrs : attrs_typed gattrs;
  st_vars : in_width u64_limit (Z.of_nat (length vars))
            /\ Forall (fun v => in_width u64_limit (str_len (nv_name v)) /\ in_width u64_limit (Z.of_nat (length (dimids v))) /\ attrs_typed (nv_attrs v)) vars
}.

Lemma width_checked f z u : in_width u64_limit z -> check_nonneg_width f z = Ok u -> fits f z.
Proof.
  unfold check_nonneg_width, fits, in_width. intros Hz E%reject_inv. destruct f; cbn in *; unfold u32_limit, u64_limit in *;
    first [apply Z.ltb_ge in E; lia|lia].
Qed.

Lemma rfold_unit_checked {A E} (P : A -> Prop) (step : unit -> A -> result E unit) l u : rfold step l tt = Ok u ->
  (forall x u', x ∈ l -> step tt x = Ok u' -> P x) -> Forall P l.
Proof.
  induction l as [|x l IH]; intros H Hp; [constructor|]. cbn [rfold] in H. bind_step H E1. destruct a. constructor.
  - eapply Hp; [left|done].
  - apply IH; [done|]. intros y u' Hy. apply Hp. by right.
Qed.

Lemma attr_widths_checked f attrs u : attrs_typed attrs -> check_attr_widths f attrs = Ok u -> attrs_fit f attrs.
Proof.
  intros [Hl Ht]. unfold check_attr_widths. intros E. bind_step E E1. split_and!; [by eapply width_checked|..].
  - eapply list.Forall_impl; [exact Ht|]. intros a' H. apply H.
  - eapply rfold_unit_checked; [exact E|]. intros x u' Hx Hs. destruct (proj1 (list.Forall_forall _ _) Ht x Hx) as (_ & T1 & T2).
    cbn beta in Hs. bind_step Hs E2. split; by eapply width_checked.
Qed.

Lemma widths_checked f dims gattrs vars n rd u : schema_typed dims gattrs vars n -> schema_ok dims vars rd n ->
  validate_nonneg_widths f dims gattrs vars n = Ok u ->
  fits f n /\ fits f (Z.of_nat (length dims)) /\ Forall (dim_fits f) dims /\ attrs_fit f gattrs
  /\ fits f (Z.of_nat (length vars)) /\ Forall (var_fits f) vars.
Proof.
  intros [Tn [Tdl Td] Tg [Tvl Tv]] Hs. unfold validate_nonneg_widths. intros E.
  bind_step E E1. bind_step E E2. bind_step E E3. bind_step E E4. bind_step E E5.
  assert (Hd : fits f (Z.of_nat (length dims))) by (by eapply width_checked).
  split_and!; [by eapply width_checked|done| |by eapply attr_widths_checked|by eapply width_checked|].
  - destruct a1. eapply rfold_unit_checked; [exact E3|]. intros d u' Hin Hst. destruct (proj1 (list.Forall_forall _ _) Td d Hin) as [T1 T2].
    cbn beta in Hst. bind_step Hst E6. split; [by eapply width_checked|]. intros Hu. rewrite Hu in Hst. by eapply width_checked.
  - eapply rfold_unit_checked; [exact E|]. intros v u' Hin Hst. destruct (proj1 (list.Forall_forall _ _) Tv v Hin) as (T1 & T2 & T3).
    cbn beta in Hst. bind_step Hst E6. bind_step Hst E7. split_and!; [by eapply width_checked..| |by eapply attr_widths_checked].
    apply list.Forall_forall. intros d Hdin. apply list_elem_of_lookup in Hdin as [k Hk]. destruct (sc_vars _ _ _ _ Hs v k d Hin Hk) as [Hlt _].
    unfold fits, in_width in *. lia.
Qed.

(** The length of a header depends on neither the strides, the offsets nor the
    number of records. *)
Lemma length_enc_vars f vars s b s' b' : length s = length vars -> length b = length vars -> length s' = length vars -> length b' = length vars ->
  length (zip vars (zip s b) ≫= enc_var f) = length (zip vars (zip s' b') ≫= enc_var f).
Proof.
  revert s b s' b'. induction vars as [|v vars IH]; intros [|x s] [|y b] [|x' s'] [|y' b']; try done. intros [= L1] [= L2] [= L3] [= L4].
  cbn [zip zip_with]. cbn [mbind list_bind]. rewrite !length_app. cbn [mbind] in IH. rewrite (IH s b s' b') by done. f_equal.
  unfold enc_var. rewrite !length_app. unfold enc_nonneg, enc_offset. by rewrite !length_to_be.
Qed.
Lemma length_nonneg f z : length (enc_nonneg f z) = nonneg_width f.
Proof. apply length_to_be. Qed.
Lemma length_header f dims gattrs vars s b n s' b' n' : length s = length vars -> length b = length vars -> length s' = length vars -> length b' = length vars ->
  length (serialize_header f dims gattrs vars s b n) = length (serialize_header f dims gattrs vars s' b' n').
Proof.
  intros L1 L2 L3 L4. rewrite !serialize_spec by done. unfold enc_header. rewrite !length_app. rewrite !length_nonneg.
  do 4 f_equal. pose proof (length_enc_vars f vars s b s' b' L1 L2 L3 L4) as H.
  assert (E1 : length (zip vars (zip s b)) = length vars) by (rewrite !length_zip; lia).
  assert (E2 : length (zip vars (zip s' b')) = length vars) by (rewrite !length_zip; lia).
  unfold enc_list. rewrite E1, E2.
  destruct (zip vars (zip s b)), (zip vars (zip s' b')); cbn [length] in *; try lia. rewrite !length_app. unfold enc_nonneg. rewrite !length_to_be.
  by rewrite H.
Qed.

(** ** A writer that was created *)

Record created (f : NcFormat) (dims : list NcDim) (gattrs : list NcAttr) (vars : list NcVarDef) (n : Z) (rd : option nat)
    (origin : Z) (w : NcClassicWriter) : Prop := {
  cr_schema : schema_ok dims vars rd n;
  cr_layouts : Forall2 (layout_of dims rd) vars (layouts w);
  cr_strides : Forall (fun l => fits f (slab_stride l)) (layouts w);
  cr_placed : placed (Z.of_nat (length (serialize_header f dims gattrs vars (slab_stride <$> layouts w) (vl_begin <$> layouts w) n)))
                (layouts w) origin (record_stride w);
  cr_len : file_len w = origin + record_stride w * n;
  cr_limit : file_len w < u64_limit /\ file_len w - 1 <= max_offset f;
  cr_records : num_records w = n
}.
Definition writer_header (f : NcFormat) (dims : list NcDim) (gattrs : list NcAttr) (vars : list NcVarDef) (n : Z) (w : NcClassicWriter) : list byte :=
  serialize_header f dims gattrs vars (slab_stride <$> layouts w) (vl_begin <$> layouts w) n.

Lemma layout_of_geometry dims rd v l l' : geometry l' = geometry l -> layout_of dims rd v l -> layout_of dims rd v l'.
Proof. intros E. symmetry in E. apply geometry_eq in E. rewrite E. intros [? ? ? ? [? ? ?]]. split; cbn; try done. Qed.

Lemma strides_nonneg dims rd vars ls : Forall2 (layout_of dims rd) vars ls -> Forall (fun l => 0 <= slab_stride l) ls.
Proof.
  induction 1 as [|v l vars ls Hl _ IH]; constructor; [|done]. destruct (lo_slab _ _ _ _ Hl) as [H1 H2 H3]. pose proof (size_pos (vl_ty l)). nia.
Qed.

Lemma create_inv f dims gattrs vars n w : schema_typed dims gattrs vars n -> nc_create f dims gattrs vars n = Ok w ->
  (exists u, validate_nonneg_widths f dims gattrs vars n = Ok u)
  /\ exists rd origin, created f dims gattrs vars n rd origin w /\ by_name w = name_index (layouts w) /\ written w = no_slabs n (layouts w)
     /\ nc_file w = set_len (Z.to_nat (file_len w)) (writer_header f dims gattrs vars n w).
Proof.
  intros Hty. unfold nc_create. intros E. bind_step E E1. bind_step E E2. bind_step E E3. bind_step E E4. destruct a2 as [ls1 origin].
  bind_step E E5. destruct a2 as [ls stride]. bind_step E E6. bind_step E E7. bind_step E E8. injection E as <-. cbn.
  split; [by eexists|]. exists a, origin. split; [|done].
  apply ok_or_inv, checked_mul64_inv in E6 as [-> _]. apply ok_or_inv, checked_add64_inv in E7 as [-> Hlt]. apply reject_inv, Z.ltb_ge in E8.
  apply defs_valid in E1 as Hs. destruct (slab_layouts_spec _ _ _ _ _ _ Hs E3) as [HL HS].
  destruct (place_spec _ _ _ _ _ _ E4 E5) as (Hp & Hg & Ho).
  assert (Hll : length a1 = length vars) by (symmetry; by eapply Forall2_length).
  assert (Hls : length ls = length vars) by (apply (f_equal length) in Hg; rewrite !length_fmap in Hg; congruence).
  assert (HL' : Forall2 (layout_of dims a) vars ls).
  { apply Forall2_same_length_lookup. split; [done|]. intros i v l Hv Hl. apply (f_equal (.!! i)) in Hg. rewrite !list_lookup_fmap, Hl in Hg.
    destruct (a1 !! i) as [l1|] eqn:El; [|done]. apply (inj Some) in Hg. eapply layout_of_geometry; [exact Hg|]. by eapply Forall2_lookup_lr in HL. }
  assert (Hst : slab_stride <$> ls = slab_stride <$> a1).
  { assert (forall l : list VarLayout, slab_stride <$> l = slab_stride <$> (geometry <$> l)) as H by (intros; by rewrite <- list_fmap_compose).
    by rewrite H, Hg, <- H. }
  split; cbn [layouts record_stride file_len num_records]; try done.
  - apply list.Forall_forall. intros l Hl. assert (slab_stride l ∈ slab_stride <$> a1) as (l1 & -> & Hl1)%list_elem_of_fmap.
    { rewrite <- Hst. apply list_elem_of_fmap. eauto. }
    exact (proj1 (list.Forall_forall _ _) HS _ Hl1).
  - rewrite Hst. erewrite length_header; [exact Hp|rewrite ?length_fmap, ?length_replicate; done..].
  - unfold saturating_sub in E8. lia.
Qed.

Section slabs.
Context (f : NcFormat) (dims : list NcDim) (gattrs : list NcAttr) (vars : list NcVarDef) (n : Z) (rd : option nat) (origin : Z) (w : NcClassicWriter).
Context (Hc : created f dims gattrs vars n rd origin w).
Let header := writer_header f dims gattrs vars n w.
Let c0 := Z.of_nat (length header).

(** A slab: a variable and a record of it. *)
Definition valid_slab (i : nat) (r : Z) (l : VarLayout) : Prop :=
  layouts w !! i = Some l /\ 0 <= r /\ (if is_record l then r < n else r = 0).
Definition slab_off (r : Z) (l : VarLayout) : Z := vl_begin l + r * record_stride w.

Lemma all_nonneg : Forall (fun l => 0 <= slab_stride l) (layouts w).
Proof using Hc. eapply strides_nonneg, (cr_layouts _ _ _ _ _ _ _ _ Hc). Qed.

Lemma slab_place i r l : valid_slab i r l ->
  (is_record l = false /\ slab_off r l = c0 + kind_sum false (take i (layouts w)) /\ slab_off r l + slab_stride l <= origin)
  \/ (is_record l = true /\ slab_off r l = origin + r * record_stride w + kind_sum true (take i (layouts w))
      /\ slab_off r l + slab_stride l <= origin + (r + 1) * record_stride w /\ origin + (r + 1) * record_stride w <= file_len w).
Proof using Hc.
  intros (Hl & Hr0 & Hr). destruct (cr_placed _ _ _ _ _ _ _ _ Hc) as [Po Ps Pf Pr]. pose proof all_nonneg as Hnn.
  unfold slab_off. destruct (is_record l) eqn:E; [right|left]; (split; [done|]).
  - pose proof (kind_sum_take true (layouts w) i l Hnn Hl E). pose proof (kind_sum_nonneg true (take i (layouts w)) ltac:(by apply Forall_take)).
    pose proof (kind_sum_nonneg false (layouts w) Hnn). pose proof (Forall_lookup_1 _ _ _ _ Hnn Hl) as Hsl. cbn beta in Hsl.
    assert (HRS : (r + 1) * record_stride w <= n * record_stride w) by (apply Z.mul_le_mono_nonneg_r; lia).
    pose proof (cr_len _ _ _ _ _ _ _ _ Hc) as HL. destruct (cr_limit _ _ _ _ _ _ _ _ Hc) as [Hlim _].
    rewrite (Pr i l Hl E), Z.mod_small by nia. nia.
  - subst r. rewrite (Pf i l Hl E). pose proof (kind_sum_take false (layouts w) i l Hnn Hl E). unfold c0, header, writer_header in *. lia.
Qed.
Lemma origin_bounds : c0 <= origin /\ (0 <= n -> origin <= file_len w).
Proof using Hc.
  destruct (cr_placed _ _ _ _ _ _ _ _ Hc) as [Po Ps _ _]. pose proof (kind_sum_nonneg false _ all_nonneg). pose proof (kind_sum_nonneg true _ all_nonneg).
  split; [unfold c0, header, writer_header in *; lia|]. intros Hn. rewrite (cr_len _ _ _ _ _ _ _ _ Hc). nia.
Qed.

(** A slab lies between the header and the end of the file. *)
Lemma slab_inside i r l : 0 <= n -> valid_slab i r l -> c0 <= slab_off r l /\ slab_off r l + slab_stride l <= file_len w.
Proof using Hc.
  intros Hn Hv. destruct origin_bounds as [Ho1 Ho2]. pose proof (kind_sum_nonneg false _ (Forall_take _ i _ all_nonneg)).
  pose proof (kind_sum_nonneg true _ (Forall_take _ i _ all_nonneg)). specialize (Ho2 Hn).
  pose proof (kind_sum_nonneg true _ all_nonneg) as Hk. rewrite <- (pl_stride _ _ _ _ (cr_placed _ _ _ _ _ _ _ _ Hc)) in Hk.
  destruct (slab_place i r l Hv) as [(_ & E & Hle)|(_ & E & Hle & Hle')]; rewrite E in *; destruct Hv as (_ & Hr & _); nia.
Qed.

(** Two slabs do not overlap. *)
Lemma slabs_disjoint i r l j r' l' : valid_slab i r l -> valid_slab j r' l' -> (i, r) <> (j, r') ->
  slab_off r l + slab_stride l <= slab_off r' l' \/ slab_off r' l' + slab_stride l' <= slab_off r l.
Proof using Hc.
  intros Hv Hv' Hne. pose proof all_nonneg as Hnn. pose proof (kind_sum_nonneg true _ Hnn) as Hk.
  rewrite <- (pl_stride _ _ _ _ (cr_placed _ _ _ _ _ _ _ _ Hc)) in Hk.
  pose proof (kind_sum_nonneg true _ (Forall_take _ i _ Hnn)). pose proof (kind_sum_nonneg true _ (Forall_take _ j _ Hnn)).
  assert (Hone : forall i j r l l', valid_slab i r l -> valid_slab j r l' -> is_record l = is_record l' -> (i < j)%nat ->
    slab_off r l + slab_stride l <= slab_off r l').
  { intros i1 j1 r1 l1 l1' V V' Ek Hlt. pose proof (kind_sum_before (is_record l1) (layouts w) i1 j1 l1 Hnn (proj1 V) eq_refl Hlt).
    destruct (slab_place _ _ _ V) as [(K & E & _)|(K & E & _)], (slab_place _ _ _ V') as [(K' & E' & _)|(K' & E' & _)]; try congruence;
      rewrite E, E', K in *; lia. }
  destruct (slab_place _ _ _ Hv) as [(K & E & Hle)|(K & E & Hle & _)], (slab_place _ _ _ Hv') as [(K' & E' & Hle')|(K' & E' & Hle' & _)].
  - assert (r = 0 /\ r' = 0) as [-> ->] by (destruct Hv as (_ & _ & Hr), Hv' as (_ & _ & Hr'); rewrite K in Hr; rewrite K' in Hr'; done).
    destruct (lt_eq_lt_dec i j) as [[Hlt|<-]|Hlt]; [left|done|right]; eapply Hone; eauto; congruence.
  - left. destruct Hv' as (_ & Hr' & _). nia.
  - right. destruct Hv as (_ & Hr & _). nia.
  - destruct (Z.lt_trichotomy r r') as [Hlt|[<-|Hlt]]; [left; nia| |right; nia].
    destruct (lt_eq_lt_dec i j) as [[Hlt|<-]|Hlt]; [left|done|right]; eapply Hone; eauto; congruence.
Qed.

(** Every [begin] can be named in the header, when the file has a record or no
    record variable. *)
Lemma begins_fit : 0 <= n -> 0 < n \/ Forall (fun l => is_record l = false) (layouts w) -> Forall (offset_fits f) (vl_begin <$> layouts w).
Proof using Hc.
  intros Hn Hrec. apply Forall_fmap. apply Forall_lookup. intros i l Hl. unfold compose.
  assert (Hv : valid_slab i 0 l).
  { split; [done|]. split; [done|]. destruct (is_record l) eqn:E; [|done]. destruct Hrec as [?|Hf]; [done|]. by rewrite (Forall_lookup_1 _ _ _ _ Hf Hl) in E. }
  destruct (slab_inside i 0 l Hn Hv) as [H1 H2]. unfold slab_off in *.
  assert (1 <= slab_stride l).
  { destruct (Forall2_lookup_r _ _ _ _ _ (cr_layouts _ _ _ _ _ _ _ _ Hc) Hl) as (v & _ & Hlo). destruct (lo_slab _ _ _ _ Hlo) as [S1 S2 S3].
    pose proof (size_pos (vl_ty l)). nia. }
  destruct (cr_limit _ _ _ _ _ _ _ _ Hc) as [L1 L2]. unfold offset_fits, in_width, c0 in *.
  destruct f; cbn in *; unfold u64_limit, u32_limit, U64_MAX in *; lia.
Qed.
End slabs.

(** ** Writing into a file *)

Definition sub (file : list byte) (off len : nat) : list byte := take len (drop off file).

Lemma write_at_inside off buf file : (off + length buf <= length file)%nat -> write_at off buf file = take off file ++ buf ++ drop (off + length buf) file.
Proof. intros H. unfold write_at. by replace (off - length file)%nat with 0%nat by lia. Qed.
Lemma length_write_at off buf file : (off + length buf <= length file)%nat -> length (write_at off buf file) = length file.
Proof. intros H. rewrite write_at_inside, !length_app, length_take, length_drop by done. lia. Qed.
Lemma sub_write_same off buf file : (off + length buf <= length file)%nat -> sub (write_at off buf file) off (length buf) = buf.
Proof.
  intros H. unfold sub. rewrite write_at_inside by done. rewrite drop_app_length' by (rewrite length_take; lia). by rewrite take_app_length.
Qed.
Lemma sub_write_other off buf file a len : (off + length buf <= length file)%nat -> (a + len <= off \/ off + length buf <= a)%nat ->
  sub (write_at off buf file) a len = sub file a len.
Proof.
  intros H Hd. unfold sub. rewrite write_at_inside by done. apply list_eq. intros k.
  destruct (decide (k < len)%nat) as [Hk|Hk]; [|rewrite !lookup_ge_None_2 by (rewrite length_take; lia); done].
  rewrite !lookup_take_lt, !lookup_drop by done. destruct Hd as [Hd|Hd].
  - rewrite lookup_app_l by (rewrite length_take; lia). by rewrite lookup_take_lt by lia.
  - rewrite lookup_app_r by (rewrite length_take; lia). rewrite lookup_app_r by (rewrite length_take; lia). rewrite length_take, lookup_drop. f_equal. lia.
Qed.

Lemma lookup_write_at off buf file k : (off + length buf <= length file)%nat ->
  write_at off buf file !! k = if decide (off <= k < off + length buf)%nat then buf !! (k - off)%nat else file !! k.
Proof.
  intros H. rewrite write_at_inside by done. destruct (decide _) as [Hd|Hd].
  - rewrite lookup_app_r by (rewrite length_take; lia). rewrite length_take, lookup_app_l by lia. f_equal. lia.
  - destruct (decide (k < off)%nat); [rewrite lookup_app_l, lookup_take_lt by (rewrite ?length_take; lia); done|].
    rewrite lookup_app_r by (rewrite length_take; lia). rewrite lookup_app_r, lookup_drop by (rewrite length_take; lia). rewrite length_take. f_equal. lia.
Qed.
Lemma write_at_commute o1 b1 o2 b2 file : (o1 + length b1 <= length file)%nat -> (o2 + length b2 <= length file)%nat ->
  (o1 + length b1 <= o2 \/ o2 + length b2 <= o1)%nat -> write_at o2 b2 (write_at o1 b1 file) = write_at o1 b1 (write_at o2 b2 file).
Proof.
  intros H1 H2 Hd. apply list_eq. intros k. rewrite !lookup_write_at by (rewrite ?length_write_at; done).
  repeat destruct (decide _); try done; lia.
Qed.

(** ** Calls *)

Lemma name_index_snoc ls l : name_index (ls ++ [l]) = <[vl_name l := length ls]> (name_index ls).
Proof. unfold name_index. rewrite imap_pair_snoc, fold_left_app. done. Qed.
Lemma name_index_some ls name i : name_index ls !! name = Some i -> exists l, ls !! i = Some l /\ vl_name l = name.
Proof.
  induction ls as [|l ls IH] using rev_ind; [done|]. rewrite name_index_snoc. intros [[<- <-]|[_ Hi]]%lookup_insert_Some.
  - exists l. split; [|done]. by rewrite lookup_app_r, Nat.sub_diag by lia.
  - apply IH in Hi as (x & Hx & Hn). exists x. split; [|done]. by apply lookup_app_l_Some.
Qed.

(** The slab a call writes: a variable by its name, a record and the data. *)
Definition call_is (c : NcCall) (name : string) (r : Z) (d : NcData) : Prop :=
  match c with
  | Put nm data => nm = name /\ r = 0 /\ d = data
  | PutRecord nm record data => nm = name /\ r = record /\ d = data
  | PutRecordText nm record text => nm = name /\ r = record /\ exists k, d = DataChars (str_bytes text ++ replicate k Byte.x00)
  end.
Definition call_typed (c : NcCall) : Prop :=
  match c with Put _ _ => True | PutRecord _ r _ | PutRecordText _ r _ => 0 <= r end.

Lemma call_inv w c w' : by_name w = name_index (layouts w) -> call_typed c -> nc_call w c = Ok w' ->
  exists i r d l, layouts w !! i = Some l /\ call_is c (vl_name l) r d /\ 0 <= r /\ (if is_record l then r < num_records w else r = 0)
    /\ write_slab w i r d = Ok w'.
Proof.
  intros Hb Ht.
  assert (Hrec : forall name r d, 0 <= r -> nc_put_record w name r d = Ok w' -> exists i l, layouts w !! i = Some l /\ vl_name l = name
    /\ is_record l = true /\ r < num_records w /\ write_slab w i r d = Ok w').
  { intros name r d Hr. unfold nc_put_record. intros E. bind_step E E1. bind_step E E2. bind_step E E3. bind_step E E4.
    apply reject_inv, negb_false_iff in E3. apply reject_inv, Z.leb_gt in E4. apply ok_or_inv in E1. rewrite Hb in E1.
    apply name_index_some in E1 as (l & Hl & Hn). exists a, l. apply or_panic_inv in E2. rewrite Hl in E2. injection E2 as <-. done. }
  destruct c as [name d|name r d|name r text]; cbn [nc_call].
  - unfold nc_put. intros E. bind_step E E1. bind_step E E2. bind_step E E3. apply reject_inv in E3. apply ok_or_inv in E1. rewrite Hb in E1.
    apply name_index_some in E1 as (l & Hl & Hn). apply or_panic_inv in E2. rewrite Hl in E2. injection E2 as <-.
    exists a, 0, d, l. rewrite E3. done.
  - intros E. apply Hrec in E as (i & l & Hl & Hn & Hr & Hlt & Hw); [|done]. exists i, r, d, l. rewrite Hr. done.
  - unfold nc_put_record_text. intros E. bind_step E E1. bind_step E E2. bind_step E E3. bind_step E E4. apply reject_inv, Nat.ltb_ge in E3.
    apply Hrec in E as (i & l & Hl & Hn & Hr & Hlt & Hw); [|done]. exists i, r, (DataChars a2), l. rewrite Hr. split_and!; try done.
    unfold copy_into in E4. destruct (bool_decide _); [|done]. injection E4 as <-. cbn [take app Nat.add].
    split; [done|]. split; [done|]. eexists. by rewrite drop_replicate.
Qed.

Lemma length_encode d : Z.of_nat (length (encode_data d)) = Z.of_nat (data_len d) * type_size (data_type d).
Proof.
  destruct d; cbn [encode_data data_len data_type type_size]; [lia|..].
  - rewrite (length_bind_same _ 2) by apply length_to_be. lia.
  - rewrite (length_bind_same _ 4) by apply length_to_be. lia.
  - rewrite (length_bind_same _ 4) by apply length_f32_to_be. lia.
  - rewrite (length_bind_same _ 8) by apply length_to_be. lia.
Qed.
Lemma length_resize len buf : length (resize len buf) = len.
Proof. unfold resize. rewrite length_app, length_take, length_replicate. lia. Qed.

Section writes.
Context (f : NcFormat) (dims : list NcDim) (gattrs : list NcAttr) (vars : list NcVarDef) (n : Z) (rd : option nat) (origin : Z) (w0 : NcClassicWriter).
Context (Hc : created f dims gattrs vars n rd origin w0) (Hn : 0 <= n).
Let header := writer_header f dims gattrs vars n w0.

(** What a writer has done since it was created: the slabs it wrote. *)
Record writes (w : NcClassicWriter) (slabs : list (nat * Z * NcData)) : Prop := {
  wr_same : layouts w = layouts w0 /\ by_name w = name_index (layouts w0) /\ record_stride w = record_stride w0 /\ num_records w = n;
  wr_length : Z.of_nat (length (nc_file w)) = file_len w0;
  wr_header : take (length header) (nc_file w) = header;
  wr_flags : forall i l, layouts w0 !! i = Some l -> exists fl, written w !! i = Some fl /\ length fl = (if is_record l then Z.to_nat n else 1%nat)
    /\ forall r, fl !! r = Some true -> exists d, (i, Z.of_nat r, d) ∈ slabs;
  wr_marked : forall i r d, (i, r, d) ∈ slabs -> exists fl, written w !! i = Some fl /\ fl !! Z.to_nat r = Some true;
  wr_data : forall i r d, (i, r, d) ∈ slabs -> exists l, valid_slab n w0 i r l /\ data_type d = vl_ty l /\ Z.of_nat (data_len d) = slab_elems l
    /\ sub (nc_file w) (Z.to_nat (slab_off w0 r l)) (Z.to_nat (slab_stride l)) = resize (Z.to_nat (slab_stride l)) (encode_data d)
}.

Lemma write_slab_inv w i r d l w' : layouts w !! i = Some l -> write_slab w i r d = Ok w' ->
  data_type d = vl_ty l /\ Z.of_nat (data_len d) = slab_elems l
  /\ (exists fl, written w !! i = Some fl /\ fl !! Z.to_nat r = Some false)
  /\ w' = set_written w i (Z.to_nat r) (write_at (Z.to_nat (vl_begin l + r * record_stride w)) (resize (Z.to_nat (slab_stride l)) (encode_data d)) (nc_file w)).
Proof.
  intros Hl. unfold write_slab. rewrite Hl. cbn [or_panic mbind result_bind]. intros E. bind_step E E1. bind_step E E2. bind_step E E3. bind_step E E4. bind_step E E5.
  injection E as <-. apply reject_inv, negb_false_iff, bool_decide_eq_true in E1. apply reject_inv, negb_false_iff, Z.eqb_eq in E2.
  apply or_panic_inv in E3, E4. apply reject_inv in E5. subst. split_and!; try done. by exists a1.
Qed.

Lemma write_step w slabs i r d l w' : writes w slabs -> valid_slab n w0 i r l -> write_slab w i r d = Ok w' -> writes w' (slabs ++ [(i, r, d)]).
Proof using Hc Hn.
  intros [(S1 & S2 & S3 & S4) Hlen Hhead Hflags Hmark Hdata] Hv E. destruct (Hv) as (Hl & Hr0 & Hr). rewrite <- S1 in Hl.
  destruct (write_slab_inv w i r d l w' Hl E) as (Hty & Hcnt & (fl & Hfl & Hfr) & ->). rewrite S3 in *. fold (slab_off w0 r l).
  destruct (slab_inside _ _ _ _ _ _ _ _ Hc i r l Hn Hv) as [I1 I2].
  pose proof (Forall_lookup_1 _ _ _ _ (all_nonneg _ _ _ _ _ _ _ _ Hc) (proj1 Hv)) as Hst. cbn beta in Hst.
  set (off := Z.to_nat (slab_off w0 r l)). set (buf := resize (Z.to_nat (slab_stride l)) (encode_data d)).
  assert (Hbuf : length buf = Z.to_nat (slab_stride l)) by apply length_resize.
  assert (Hin : (off + length buf <= length (nc_file w))%nat) by (unfold off; lia).
  assert (Hnew : forall d', (i, r, d') ∉ slabs).
  { intros d' Hd'. apply Hmark in Hd' as (fl' & Hfl' & Hm). rewrite Hfl in Hfl'. injection Hfl' as <-. congruence. }
  split; cbn [set_written layouts by_name record_stride num_records nc_file written].
  - done.
  - by rewrite length_write_at.
  - rewrite <- Hhead at 2. change (sub (write_at off buf (nc_file w)) 0 (length header) = sub (nc_file w) 0 (length header)).
    apply sub_write_other; [done|]. left. unfold off, header. lia.
  - intros j lj Hj. destruct (Hflags j lj Hj) as (flj & Hflj & Hlj & Hex). destruct (decide (j = i)) as [->|Hne].
    + rewrite Hflj in Hfl. injection Hfl as ->. exists (<[Z.to_nat r := true]> fl). rewrite list_lookup_alter_eq, Hflj. split; [done|].
      split; [by rewrite length_insert|]. intros r' [[<- _]|[_ Hr']]%list_lookup_insert_Some.
      * exists d. apply elem_of_app. right. rewrite Z2Nat.id by done. by apply list_elem_of_singleton.
      * apply Hex in Hr' as [d' Hd']. exists d'. apply elem_of_app. by left.
    + exists flj. rewrite list_lookup_alter_ne by done. split; [done|]. split; [done|]. intros r' Hr'. apply Hex in Hr' as [d' Hd']. exists d'. apply elem_of_app. by left.
  - intros j rj dj [Hj|[= -> -> ->]%list_elem_of_singleton]%elem_of_app.
    + apply Hmark in Hj as (flj & Hflj & Hm). destruct (decide (j = i)) as [->|Hne].
      * rewrite Hflj in Hfl. injection Hfl as ->. exists (<[Z.to_nat r := true]> fl). rewrite list_lookup_alter_eq, Hflj. split; [done|].
        destruct (decide (Z.to_nat r = Z.to_nat rj)) as [Eq|]; [rewrite <- Eq in Hm; congruence|by rewrite list_lookup_insert_ne].
      * exists flj. by rewrite list_lookup_alter_ne.
    + exists (<[Z.to_nat r := true]> fl). rewrite list_lookup_alter_eq, Hfl. split; [done|]. apply list_lookup_insert_eq. by eapply lookup_lt_Some.
  - intros j rj dj [Hj|[= -> -> ->]%list_elem_of_singleton]%elem_of_app.
    + pose proof Hj as Hin'. apply Hdata in Hj as (lj & Vj & Tj & Cj & Dj). exists lj.
      pose proof (Forall_lookup_1 _ _ _ _ (all_nonneg _ _ _ _ _ _ _ _ Hc) (proj1 Vj)) as Hstj. cbn beta in Hstj. split_and!; try done. rewrite <- Dj. apply sub_write_other; [done|].
      destruct (slabs_disjoint _ _ _ _ _ _ _ _ Hc i r l j rj lj Hv Vj) as [D|D]; [intros [= -> ->]; by apply Hnew in Hin'|..];
        destruct (slab_inside _ _ _ _ _ _ _ _ Hc j rj lj Hn Vj); unfold off; rewrite Hbuf; [right|left]; lia.
    + exists l. split_and!; try done. fold off buf. rewrite <- Hbuf at 1. by apply sub_write_same.
Qed.
Lemma writes_start : by_name w0 = name_index (layouts w0) -> written w0 = no_slabs n (layouts w0) ->
  nc_file w0 = set_len (Z.to_nat (file_len w0)) header -> writes w0 [].
Proof using Hc Hn.
  intros Hb Hw Hf. destruct (origin_bounds _ _ _ _ _ _ _ _ Hc) as [Ho1 Ho2]. specialize (Ho2 Hn). fold header in Ho1.
  assert (Hle : (length header <= Z.to_nat (file_len w0))%nat) by lia.
  assert (Hfile : nc_file w0 = header ++ replicate (Z.to_nat (file_len w0) - length header) Byte.x00).
  { rewrite Hf. unfold set_len. by rewrite take_ge by lia. }
  split.
  - split_and!; try done. apply (cr_records _ _ _ _ _ _ _ _ Hc).
  - rewrite Hfile, length_app, length_replicate. lia.
  - rewrite Hfile. by rewrite take_app_length.
  - intros i l Hl. rewrite Hw. unfold no_slabs. rewrite list_lookup_fmap, Hl. cbn. eexists. split; [done|]. destruct (is_record l).
    + rewrite length_replicate. split; [done|]. intros r Hr. by apply lookup_replicate_1 in Hr as [? _].
    + split; [done|]. intros [|r] Hr; done.
  - intros i r d Hd. by apply not_elem_of_nil in Hd.
  - intros i r d Hd. by apply not_elem_of_nil in Hd.
Qed.

(** The slabs of a sequence of calls. *)
Definition call_slab (c : NcCall) (s : nat * Z * NcData) : Prop :=
  exists l, layouts w0 !! s.1.1 = Some l /\ call_is c (vl_name l) s.1.2 s.2.
Lemma writes_run calls w : writes w0 [] -> Forall call_typed calls -> rfold nc_call calls w0 = Ok w ->
  exists slabs, writes w slabs /\ Forall2 call_slab calls slabs.
Proof using Hc Hn.
  intros H0. revert w. induction calls as [|c calls IH] using rev_ind; intros w Ht.
  - intros [= <-]. by exists [].
  - rewrite rfold_app. apply Forall_app in Ht as [Ht Htc]. inversion Htc as [|? ? Hc1 _]; subst. intros E. bind_step E E1.
    destruct (IH a Ht eq_refl) as (slabs & Hw & HF). cbn [rfold] in E. bind_step E E2. injection E as ->.
    destruct (wr_same _ _ Hw) as (S1 & S2 & S3 & S4). rewrite <- S1 in S2.
    destruct (call_inv a c w S2 Hc1 E2) as (i & r & d & l & Hl & Hcall & Hr0 & Hr & Hws). rewrite S1 in Hl. rewrite S4 in Hr.
    exists (slabs ++ [(i, r, d)]). split; [eapply write_step; [exact Hw| |exact Hws]; done|]. apply Forall2_app; [done|]. constructor; [|constructor]. by exists l.
Qed.

(** A writer that [finish] accepts has written every slab. *)
Lemma finished_all w slabs i r l : writes w slabs -> missing_slabs w = [] -> valid_slab n w0 i r l -> exists d, (i, r, d) ∈ slabs.
Proof using Hc Hn.
  intros Hw Hm (Hl & Hr0 & Hr). destruct (wr_flags _ _ Hw i l Hl) as (fl & Hfl & Hlen & Hex).
  assert (is_Some (fl !! Z.to_nat r)) as [b Hb]. { apply lookup_lt_is_Some. rewrite Hlen. destruct (is_record l); lia. }
  destruct b; [apply Hex in Hb as [d Hd]; exists d; by rewrite Z2Nat.id in Hd|].
  exfalso. assert ((i, Z.to_nat r) ∈ missing_slabs w) as Hin; [|rewrite Hm in Hin; by apply not_elem_of_nil in Hin].
  unfold missing_slabs. apply list_elem_of_join. eexists. split; [|apply list_elem_of_lookup; exists i; rewrite list_lookup_imap, Hfl; reflexivity].
  apply list_elem_of_omap. exists (Z.to_nat r, false). split; [|done]. apply list_elem_of_lookup. exists (Z.to_nat r). by rewrite list_lookup_imap, Hb.
Qed.
End writes.

(** ** The order of the calls *)

(** The slab a call is for; it depends on what [create] fixed alone. *)
Definition resolve (w : NcClassicWriter) (c : NcCall) : RwResult (nat * Z * NcData) :=
  let record name r d :=
    idx ← index_of w name;
    layout ← or_panic (layouts w !! idx);
    _ ← reject (negb (is_record layout)) (Format "netcdf_classic: '{name}' is a fixed-size variable; use put");
    _ ← reject (num_records w <=? r) (Format "netcdf_classic: '{name}' record {record} is past the {} record(s) this file declares");
    Ok (idx, r, d) in
  match c with
  | Put name d =>
      idx ← index_of w name;
      layout ← or_panic (layouts w !! idx);
      _ ← reject (is_record layout) (Format "netcdf_classic: '{name}' is a record variable; use put_record with a record index");
      Ok (idx, 0, d)
  | PutRecord name r d => record name r d
  | PutRecordText name r text =>
      idx ← index_of w name;
      layout ← or_panic (layouts w !! idx);
      let width := Z.to_nat (slab_elems layout) in
      _ ← reject (width <? length (str_bytes text))%nat (Format "netcdf_classic: '{name}' holds {width} character(s) per record but '{text}' is {} byte(s)");
      padded ← copy_into (replicate width Byte.x00) 0 (str_bytes text);
      record name r (DataChars padded)
  end.
Lemma call_resolve w c : nc_call w c = ('(i, r, d) ← resolve w c; write_slab w i r d).
Proof.
  destruct c as [name d|name r d|name r text]; cbn [nc_call resolve]; unfold nc_put, nc_put_record_text, nc_put_record;
    repeat (match goal with |- mbind _ ?m = _ => destruct m end; cbn [mbind result_bind]; try done).
Qed.
Lemma resolve_same w w' c : layouts w' = layouts w -> by_name w' = by_name w -> num_records w' = num_records w -> resolve w' c = resolve w c.
Proof. intros H1 H2 H3. unfold resolve, index_of. by rewrite H1, H2, H3. Qed.

Lemma write_slab_intro w i r d l fl : layouts w !! i = Some l -> data_type d = vl_ty l -> Z.of_nat (data_len d) = slab_elems l ->
  written w !! i = Some fl -> fl !! Z.to_nat r = Some false ->
  write_slab w i r d = Ok (set_written w i (Z.to_nat r)
    (write_at (Z.to_nat (vl_begin l + r * record_stride w)) (resize (Z.to_nat (slab_stride l)) (encode_data d)) (nc_file w))).
Proof.
  intros Hl Ht Hn Hf Hr. unfold write_slab. rewrite Hl. cbn [or_panic mbind result_bind]. rewrite bool_decide_eq_true_2 by done.
  rewrite Hn, Z.eqb_refl. cbn [negb reject mbind result_bind]. rewrite Hf. cbn [or_panic mbind result_bind]. rewrite Hr. done.
Qed.

Lemma alter_twice (ws : list (list bool)) i j r r' : i <> j \/ r <> r' ->
  alter (<[r' := true]>) j (alter (<[r := true]>) i ws) = alter (<[r := true]>) i (alter (<[r' := true]>) j ws).
Proof.
  intros Hne. apply list_eq. intros k. destruct (decide (i = j)) as [->|Hij].
  - destruct (decide (k = j)) as [->|Hk]; [|by rewrite !list_lookup_alter_ne].
    rewrite !list_lookup_alter_eq. destruct (ws !! j) as [fl|]; [|done]. cbn. f_equal. apply list_insert_insert_ne. by destruct Hne as [?|?%not_eq_sym].
  - destruct (decide (k = i)) as [->|Hi]; [by rewrite list_lookup_alter_ne, !list_lookup_alter_eq, list_lookup_alter_ne|].
    rewrite (list_lookup_alter_ne _ _ i k) by done. destruct (decide (k = j)) as [->|Hj].
    + by rewrite !list_lookup_alter_eq, list_lookup_alter_ne.
    + by rewrite !list_lookup_alter_ne.
Qed.

Section order.
Context (f : NcFormat) (dims : list NcDim) (gattrs : list NcAttr) (vars : list NcVarDef) (n : Z) (rd : option nat) (origin : Z) (w0 : NcClassicWriter).
Context (Hc : created f dims gattrs vars n rd origin w0) (Hn : 0 <= n).

Lemma slabs_commute w slabs i r d l j r' d' l' w1 w2 : writes f dims gattrs vars n w0 w slabs ->
  valid_slab n w0 i r l -> valid_slab n w0 j r' l' -> write_slab w i r d = Ok w1 -> write_slab w1 j r' d' = Ok w2 ->
  exists w1', write_slab w j r' d' = Ok w1' /\ write_slab w1' i r d = Ok w2.
Proof using Hc Hn.
  intros Hw Hv Hv' E1 E2. destruct (wr_same _ _ _ _ _ _ _ _ Hw) as (S1 & S2 & S3 & S4). pose proof (wr_length _ _ _ _ _ _ _ _ Hw) as HL.
  destruct (Hv) as (Hl & Hr & _). destruct (Hv') as (Hl' & Hr' & _). rewrite <- S1 in Hl, Hl'.
  destruct (write_slab_inv _ _ _ _ l _ Hl E1) as (T1 & C1 & (fl & Hfl & Hb) & Ew1).
  assert (Hl1 : layouts w1 !! j = Some l') by (by rewrite Ew1).
  destruct (write_slab_inv _ _ _ _ l' _ Hl1 E2) as (T2 & C2 & (fl' & Hfl' & Hb') & ->). clear E1 E2 Hl1. subst w1. cbn [set_written written] in Hfl'.
  assert (Hne : i <> j \/ Z.to_nat r <> Z.to_nat r').
  { destruct (decide (i = j)) as [<-|]; [|by left]. right. intros E. rewrite list_lookup_alter_eq, Hfl in Hfl'. injection Hfl' as <-.
    rewrite <- E, list_lookup_insert_eq in Hb' by (by eapply lookup_lt_Some). done. }
  assert (Hflj : exists flj, written w !! j = Some flj /\ flj !! Z.to_nat r' = Some false).
  { destruct (decide (i = j)) as [<-|Hij]; [|rewrite list_lookup_alter_ne in Hfl' by done; eauto]. exists fl. split; [done|].
    rewrite list_lookup_alter_eq, Hfl in Hfl'. injection Hfl' as <-. destruct Hne as [?|Hne]; [done|]. by rewrite list_lookup_insert_ne in Hb'. }
  destruct Hflj as (flj & Hflj & Hbj). rewrite (write_slab_intro w j r' d' l' flj) by done. eexists. split; [done|].
  assert (Hfi : exists fli, alter (<[Z.to_nat r' := true]>) j (written w) !! i = Some fli /\ fli !! Z.to_nat r = Some false).
  { destruct (decide (i = j)) as [<-|Hij]; [|rewrite list_lookup_alter_ne by done; eauto]. rewrite list_lookup_alter_eq, Hfl. eexists. split; [done|].
    destruct Hne as [?|Hne]; [done|]. by rewrite list_lookup_insert_ne. }
  destruct Hfi as (fli & Hfi & Hbi). rewrite (write_slab_intro _ i r d l fli) by done. cbn [set_written record_stride nc_file]. rewrite S3.
  fold (slab_off w0 r l) (slab_off w0 r' l'). unfold set_written. cbn [written nc_file]. f_equal. f_equal; [|symmetry; by apply alter_twice].
  pose proof (Forall_lookup_1 _ _ _ _ (all_nonneg _ _ _ _ _ _ _ _ Hc) (proj1 Hv)) as N1. pose proof (Forall_lookup_1 _ _ _ _ (all_nonneg _ _ _ _ _ _ _ _ Hc) (proj1 Hv')) as N2.
  cbn beta in N1, N2. destruct (slab_inside _ _ _ _ _ _ _ _ Hc i r l Hn Hv) as [I1 I2]. destruct (slab_inside _ _ _ _ _ _ _ _ Hc j r' l' Hn Hv') as [I3 I4].
  apply write_at_commute; rewrite ?length_resize; [lia..|].
  destruct (slabs_disjoint _ _ _ _ _ _ _ _ Hc j r' l' i r l Hv' Hv) as [D|D]; [intros [= -> ->]; by destruct Hne|lia..].
Qed.
Lemma resolve_valid w slabs c i r d : writes f dims gattrs vars n w0 w slabs -> call_typed c -> resolve w c = Ok (i, r, d) ->
  exists l, valid_slab n w0 i r l.
Proof.
  intros Hw Ht. destruct (wr_same _ _ _ _ _ _ _ _ Hw) as (S1 & _ & _ & S4). unfold valid_slab. rewrite <- S1, <- S4.
  destruct c as [name d1|name r1 d1|name r1 text]; cbn [resolve]; intros E; res_inv E; res_clean; breflect; simplify_eq;
    eexists; (split; [eassumption|]); cbn in Ht;
    match goal with X : is_record _ = _ |- _ => rewrite X end; lia.
Qed.

Lemma nc_call_step w slabs c w' : writes f dims gattrs vars n w0 w slabs -> call_typed c -> nc_call w c = Ok w' ->
  exists s, writes f dims gattrs vars n w0 w' (slabs ++ [s]).
Proof using Hc Hn.
  intros Hw Ht. rewrite call_resolve. intros E. bind_step E Er. destruct a as [[i r] d]. destruct (resolve_valid _ _ _ _ _ _ Hw Ht Er) as [l Hv].
  exists (i, r, d). by eapply write_step.
Qed.

Lemma calls_commute w slabs c1 c2 w1 w2 : writes f dims gattrs vars n w0 w slabs -> call_typed c1 -> call_typed c2 ->
  nc_call w c1 = Ok w1 -> nc_call w1 c2 = Ok w2 -> exists w1', nc_call w c2 = Ok w1' /\ nc_call w1' c1 = Ok w2.
Proof using Hc Hn.
  intros Hw T1 T2 E1 E2. destruct (nc_call_step _ _ _ _ Hw T1 E1) as [s1 Hw1]. rewrite call_resolve in E1, E2.
  bind_step E1 R1. destruct a as [[i r] d]. bind_step E2 R2. destruct a as [[j r'] d'].
  destruct (resolve_valid _ _ _ _ _ _ Hw T1 R1) as [l Hv]. destruct (resolve_valid _ _ _ _ _ _ Hw1 T2 R2) as [l' Hv'].
  destruct (slabs_commute w slabs i r d l j r' d' l' w1 w2 Hw Hv Hv' E1 E2) as (w1' & E3 & E4). exists w1'.
  pose proof (write_step _ _ _ _ _ _ _ _ Hc Hn w slabs j r' d' l' w1' Hw Hv' E3) as Hw1'.
  destruct (wr_same _ _ _ _ _ _ _ _ Hw) as (A1 & A2 & _ & A4), (wr_same _ _ _ _ _ _ _ _ Hw1) as (B1 & B2 & _ & B4), (wr_same _ _ _ _ _ _ _ _ Hw1') as (C1 & C2 & _ & C4).
  rewrite !call_resolve. rewrite (resolve_same w1 w c2) by congruence. rewrite R2. cbn [mbind result_bind]. split; [done|].
  rewrite (resolve_same w w1' c1) by congruence. by rewrite R1.
Qed.

Lemma calls_permute calls calls' : calls ≡ₚ calls' -> Forall call_typed calls -> forall w slabs wf, writes f dims gattrs vars n w0 w slabs ->
  rfold nc_call calls w = Ok wf -> rfold nc_call calls' w = Ok wf.
Proof using Hc Hn.
  intros HP. induction HP as [|c l l' HP IH|c1 c2 l|l1 l2 l3 HP1 IH1 HP2 IH2]; intros Ht w slabs wf Hw; [done|..].
  - inversion Ht; subst. cbn [rfold]. intros E. bind_step E E1. cbn [mbind result_bind]. destruct (nc_call_step _ _ _ _ Hw ltac:(done) E1) as [s Hs]. by eapply IH.
  - inversion Ht as [|? ? T1 Ht']; subst. inversion Ht' as [|? ? T2 _]; subst. cbn [rfold]. intros E. bind_step E E1. bind_step E E2.
    destruct (calls_commute _ _ _ _ _ _ Hw T1 T2 E1 E2) as (w1' & E3 & E4). rewrite E3. cbn [mbind result_bind]. rewrite E4. done.
  - intros E. eapply IH2; [by rewrite <- HP1|exact Hw|]. by eapply IH1.
Qed.
End order.

(** ** The decoded header *)

Lemma sum_filter {A} (p : A -> bool) (g : A -> Z) l :
  foldr Z.add 0 (g <$> filter (fun x => p x = true) l) = foldr Z.add 0 ((fun x => if p x then g x else 0) <$> l).
Proof.
  induction l as [|x l IH]; [done|]. rewrite filter_cons, (fmap_cons (fun x => if p x then g x else 0)). destruct (p x) eqn:E.
  - rewrite decide_True, fmap_cons by done. cbn [foldr]. by rewrite IH.
  - rewrite decide_False by done. cbn [foldr]. by rewrite IH.
Qed.

Section decoded.
Context (f : NcFormat) (dims : list NcDim) (gattrs : list NcAttr) (vars : list NcVarDef) (n : Z) (rd : option nat) (origin : Z) (w0 : NcClassicWriter).
Context (Hc : created f dims gattrs vars n rd origin w0).

(** The header of the file, as it decodes. *)
Definition file_spec (w : NcClassicWriter) : HeaderSpec := header_spec f dims gattrs vars (slab_stride <$> layouts w) (vl_begin <$> layouts w) n.
Let h := file_spec w0.

Lemma spec_var i v : hs_vars h !! i = Some v -> exists var l, vars !! i = Some var /\ layouts w0 !! i = Some l /\ layout_of dims rd var l
  /\ v = var_spec (var, (slab_stride l, vl_begin l)).
Proof using Hc.
  unfold h, file_spec, header_spec. cbn [hs_vars]. rewrite list_lookup_fmap. intros E. destruct (zip vars _ !! i) as [[var [s b]]|] eqn:Ez; [|done].
  apply lookup_zip_with_Some in Ez as (x & y & [= <- <-] & Hx & Hy). apply lookup_zip_with_Some in Hy as (s' & b' & [= <- <-] & Hs & Hb).
  rewrite list_lookup_fmap in Hs, Hb. destruct (layouts w0 !! i) as [l|] eqn:El; [|done]. injection Hs as <-. injection Hb as <-.
  injection E as <-. exists var, l. split_and!; try done. exact (Forall2_lookup_lr _ _ _ _ _ _ (cr_layouts _ _ _ _ _ _ _ _ Hc) Hx El).
Qed.
Lemma spec_var_of i l : layouts w0 !! i = Some l -> exists var, vars !! i = Some var /\ layout_of dims rd var l
  /\ hs_vars h !! i = Some (var_spec (var, (slab_stride l, vl_begin l))).
Proof using Hc.
  intros Hl. destruct (Forall2_lookup_r _ _ _ _ _ (cr_layouts _ _ _ _ _ _ _ _ Hc) Hl) as (var & Hv & Hlo). exists var. split_and!; try done.
  unfold h, file_spec, header_spec. cbn [hs_vars]. rewrite list_lookup_fmap. rewrite !lookup_zip_with, Hv. cbn. rewrite !list_lookup_fmap, Hl. done.
Qed.

Lemma spec_record_of var l : var ∈ vars -> layout_of dims rd var l -> spec_record h (var_spec (var, (slab_stride l, vl_begin l))) = is_record l.
Proof using Hc.
  intros Hin Hlo. rewrite (lo_record _ _ _ _ Hlo). unfold spec_record. cbn [var_spec vs_dimids]. pose proof (cr_schema _ _ _ _ _ _ _ _ Hc) as Hs.
  destruct (dimids var) as [|d ids] eqn:Ed; cbn; [unfold var_is_record; by destruct rd|]. rewrite Nat2Z.id. unfold h, file_spec, header_spec. cbn [hs_dims].
  rewrite list_lookup_fmap. destruct (sc_vars _ _ _ _ Hs var 0 d Hin ltac:(by rewrite Ed)) as [Hlt _].
  destruct (lookup_lt_is_Some_2 dims d Hlt) as [dim Hd]. rewrite Hd. cbn. destruct (sc_dims _ _ _ _ Hs d dim Hd) as [Hu Hl].
  unfold var_is_record. cbn [head]. destruct (unlimited dim) eqn:Eu.
  - rewrite (proj1 Hu eq_refl). by rewrite Nat.eqb_refl.
  - rewrite (proj2 (Z.eqb_neq _ _)) by (specialize (Hl eq_refl); lia). destruct rd as [r|]; [|done]. destruct (Nat.eqb_spec d r) as [->|]; [|done].
    exfalso. assert (false = true) by (by apply Hu). done.
Qed.

Lemma spec_elems_of var l : var ∈ vars -> layout_of dims rd var l -> spec_elems h (var_spec (var, (slab_stride l, vl_begin l))) = slab_elems l.
Proof using Hc.
  intros Hin Hlo. unfold spec_elems. rewrite spec_record_of, (lo_elems _ _ _ _ Hlo) by done. f_equal. cbn [var_spec vs_dimids].
  assert (Hax : (if is_record l then drop 1 (Z.of_nat <$> dimids var) else Z.of_nat <$> dimids var) = Z.of_nat <$> axes (is_record l) (dimids var)).
  { unfold axes. destruct (is_record l); [by rewrite fmap_drop|done]. }
  rewrite Hax, <- list_fmap_compose. apply list_fmap_ext. intros k d Hk. unfold compose. rewrite Nat2Z.id. unfold h, file_spec, header_spec. cbn [hs_dims].
  rewrite list_lookup_fmap. rewrite (lo_record _ _ _ _ Hlo) in Hk.
  destruct (Forall_lookup_1 _ _ _ _ (axes_fixed _ _ _ _ _ (cr_schema _ _ _ _ _ _ _ _ Hc) Hin) Hk) as (dim & Hd & Hu & _).
  unfold dim_len. rewrite Hd. cbn. by rewrite Hu.
Qed.

Lemma recsize_of : recsize h = record_stride w0.
Proof using Hc.
  rewrite (pl_stride _ _ _ _ (cr_placed _ _ _ _ _ _ _ _ Hc)). unfold recsize, kind_sum. rewrite sum_filter. f_equal. apply list_eq. intros i.
  rewrite !list_lookup_fmap. destruct (layouts w0 !! i) as [l|] eqn:El.
  - destruct (spec_var_of i l El) as (var & Hv & Hlo & Hs). rewrite Hs. cbn [fmap option_fmap option_map].
    rewrite spec_record_of by (try done; by eapply list_elem_of_lookup_2). cbn [var_spec vsize]. by destruct (is_record l).
  - destruct (hs_vars h !! i) as [v|] eqn:Ev; [|done]. apply spec_var in Ev as (var & l & _ & Hl & _). congruence.
Qed.

Lemma read_slab_of w slabs i r d : 0 <= n -> writes f dims gattrs vars n w0 w slabs -> (i, r, d) ∈ slabs ->
  exists l v, layouts w0 !! i = Some l /\ hs_vars h !! i = Some v /\ vs_name v = vl_name l /\ read_slab h (nc_file w) v r = Some (encode_data d).
Proof using Hc.
  intros Hn Hw Hin. destruct (wr_data _ _ _ _ _ _ _ _ Hw i r d Hin) as (l & Hv & Hty & Hcnt & Hsub). destruct (Hv) as (Hl & Hr0 & Hr).
  destruct (spec_var_of i l Hl) as (var & Hvar & Hlo & Hs). exists l, (var_spec (var, (slab_stride l, vl_begin l))).
  assert (Hvin : var ∈ vars) by (by eapply list_elem_of_lookup_2). split_and!; [done|done|by rewrite (lo_name _ _ _ _ Hlo)|].
  unfold read_slab. rewrite spec_record_of, spec_elems_of, recsize_of by done. cbn [var_spec begin vs_type]. rewrite <- (lo_type _ _ _ _ Hlo).
  destruct (lo_slab _ _ _ _ Hlo) as [B1 B2 B3]. rewrite <- B1. pose proof (length_encode d) as Hle. rewrite Hcnt, Hty, <- B1 in Hle.
  assert (Eoff : vl_begin l + (if is_record l then r * record_stride w0 else 0) = slab_off w0 r l).
  { unfold slab_off. destruct (is_record l); [done|]. subst r. lia. }
  rewrite Eoff. destruct (slab_inside _ _ _ _ _ _ _ _ Hc i r l Hn Hv) as [I1 I2]. pose proof (wr_length _ _ _ _ _ _ _ _ Hw) as HL.
  unfold p_bytes. rewrite (proj2 (Nat.leb_le _ _)) by (rewrite length_drop; lia). cbn [fmap option_fmap option_map fst]. f_equal.
  unfold sub in Hsub. apply (f_equal (take (Z.to_nat (slab_bytes l)))) in Hsub. rewrite take_take in Hsub.
  replace (Z.to_nat (slab_bytes l) `min` Z.to_nat (slab_stride l))%nat with (Z.to_nat (slab_bytes l)) in Hsub by lia. rewrite Hsub.
  unfold resize. rewrite (take_ge (encode_data d)) by lia. by rewrite take_app_length' by lia.
Qed.
End decoded.

(** ** Properties *)

(** C27: a NetCDF classic file that the writer finishes holds what was put into
    it. For each of the three formats, when the schema is accepted (and has a
    record or no record variable), every call succeeds and [finish] accepts,
    the header of the file decodes by the grammar to the schema, the number of
    records and the layout; every slab that a call put is read back, at the
    place that the decoded header gives, as the big-endian bytes of its
    values; and every slab the schema declares was put by a call. *)
Theorem classic_file_reads_back f dims gattrs vars n w0 calls w file :
  schema_typed dims gattrs vars n -> nc_create f dims gattrs vars n = Ok w0 ->
  0 < n \/ Forall (fun l => is_record l = false) (layouts w0) ->
  Forall call_typed calls -> rfold nc_call calls w0 = Ok w -> nc_finish w = Ok file ->
  exists rest, let h := file_spec f dims gattrs vars n w0 in
    p_header file = Some (h, rest)
    /\ (forall c, c ∈ calls -> exists i v r d, hs_vars h !! i = Some v /\ call_is c (vs_name v) r d /\ read_slab h file v r = Some (encode_data d))
    /\ (forall i v r, hs_vars h !! i = Some v -> 0 <= r < (if spec_record h v then n else 1) ->
          exists c d, c ∈ calls /\ call_is c (vs_name v) r d /\ read_slab h file v r = Some (encode_data d)).
Proof.
  intros Hty Hcr Hrec Hct Hrun Hfin. pose proof (st_records _ _ _ _ Hty) as [Hn _].
  destruct (create_inv _ _ _ _ _ _ Hty Hcr) as ((u & Hw) & rd & origin & Hc & Hb & Hwr & Hfile).
  pose proof (writes_start _ _ _ _ _ _ _ _ Hc Hn Hb Hwr Hfile) as H0.
  destruct (writes_run _ _ _ _ _ _ _ _ Hc Hn calls w H0 Hct Hrun) as (slabs & Hws & HF).
  unfold nc_finish in Hfin. bind_step Hfin E1. injection Hfin as <-. apply reject_inv, negb_false_iff, bool_decide_eq_true in E1.
  exists (drop (length (writer_header f dims gattrs vars n w0)) (nc_file w)). split; [|split].
  - destruct (widths_checked _ _ _ _ _ _ _ Hty (cr_schema _ _ _ _ _ _ _ _ Hc) Hw) as (F1 & F2 & F3 & F4 & F5 & F6).
    pose proof (Forall2_length _ _ _ (cr_layouts _ _ _ _ _ _ _ _ Hc)) as Hlen.
    rewrite <- (take_drop (length (writer_header f dims gattrs vars n w0)) (nc_file w)) at 1. rewrite (wr_header _ _ _ _ _ _ _ _ Hws).
    apply header_decodes; try done; [|by eapply begins_fit|by rewrite length_fmap..]. apply Forall_fmap. exact (cr_strides _ _ _ _ _ _ _ _ Hc).
  - intros c Hcin. apply list_elem_of_lookup in Hcin as [k Hk]. destruct (Forall2_lookup_l _ _ _ _ _ HF Hk) as ([[i r] d] & Hs & l & Hl & Hcall).
    apply list_elem_of_lookup_2 in Hs. destruct (read_slab_of _ _ _ _ _ _ _ _ Hc w slabs i r d Hn Hws Hs) as (l' & v & Hl' & Hv & Hname & Hread).
    cbn [fst snd] in *. rewrite Hl in Hl'. injection Hl' as <-. exists i, v, r, d. by rewrite Hname.
  - intros i v r Hv Hr. destruct (spec_var _ _ _ _ _ _ _ _ Hc i v Hv) as (var & l & Hvar & Hl & Hlo & ->).
    rewrite (spec_record_of _ _ _ _ _ _ _ _ Hc) in Hr by (try done; by eapply list_elem_of_lookup_2).
    assert (Hvs : valid_slab n w0 i r l) by (split; [done|]; destruct (is_record l); lia).
    destruct (finished_all _ _ _ _ _ _ _ _ Hc Hn w slabs i r l Hws E1 Hvs) as [d Hd].
    apply list_elem_of_lookup in Hd as Hk. destruct Hk as [k Hk]. destruct (Forall2_lookup_r _ _ _ _ _ HF Hk) as (c & Hcin & l' & Hl' & Hcall).
    destruct (read_slab_of _ _ _ _ _ _ _ _ Hc w slabs i r d Hn Hws Hd) as (l2 & v2 & Hl2 & Hv2 & Hname & Hread).
    cbn [fst snd] in *. rewrite Hl in Hl', Hl2. injection Hl' as <-. injection Hl2 as <-. rewrite Hv in Hv2. apply (inj Some) in Hv2 as <-.
    exists c, d. rewrite Hname. split; [by eapply list_elem_of_lookup_2|done].
Qed.

(** C28: the order of the puts does not matter. When a sequence of calls
    succeeds on a fresh writer, every permutation of it succeeds and leaves
    the same file, byte for byte, and the same state of the writer. *)
Theorem slabs_in_any_order f dims gattrs vars n w0 calls calls' w :
  schema_typed dims gattrs vars n -> nc_create f dims gattrs vars n = Ok w0 -> Forall call_typed calls -> calls ≡ₚ calls' ->
  rfold nc_call calls w0 = Ok w -> rfold nc_call calls' w0 = Ok w.
Proof.
  intros Hty Hcr Ht HP. pose proof (st_records _ _ _ _ Hty) as [Hn _].
  destruct (create_inv _ _ _ _ _ _ Hty Hcr) as (_ & rd & origin & Hc & Hb & Hwr & Hfile).
  eapply (calls_permute _ _ _ _ _ _ _ _ Hc Hn); [done..|]. by eapply writes_start.
Qed.

(** ** The reference files of netCDF-C

    The schema and the data of the tests of [netcdf_classic.rs]; the writer
    gives, in each format, the file that the netCDF-C library wrote. *)

Definition hex_val (c : ascii) : Z := let z := byte_val c in if z <? 58 then z - 48 else z - 87.
Fixpoint of_hex (l : list ascii) : list byte := match l with a :: b :: l => byte_of_Z (16 * hex_val a + hex_val b) :: of_hex l | _ => [] end.
Definition golden_dims : list NcDim :=
  [{| nd_name := "Time"; nd_len := 0; unlimited := true |}; {| nd_name := "DateStrLen"; nd_len := 19; unlimited := false |};
   {| nd_name := "west_east"; nd_len := 3; unlimited := false |}; {| nd_name := "south_north"; nd_len := 2; unlimited := false |}].
Definition golden_gattrs : list NcAttr :=
  [{| at_name := "TITLE"; at_value := Text " OUTPUT FROM GOLDEN" |}; {| at_name := "DX"; at_value := Floats [f32_of_int 22000] |};
   {| at_name := "MAP_PROJ"; at_value := Ints [1] |}].
Definition golden_vars : list NcVarDef :=
  [{| nv_name := "Times"; nv_ty := NcChar; dimids := [0; 1]%nat; nv_attrs := [] |};
   {| nv_name := "ITIMESTEP"; nv_ty := NcInt; dimids := [0]%nat; nv_attrs := [] |};
   {| nv_name := "XLAT"; nv_ty := NcFloat; dimids := [0; 3; 2]%nat;
      nv_attrs := [{| at_name := "units"; at_value := Text "degree_north" |}; {| at_name := "FieldType"; at_value := Ints [104] |}] |};
   {| nv_name := "HGT_M"; nv_ty := NcFloat; dimids := [3; 2]%nat; nv_attrs := [] |}].
Definition golden_calls : list NcCall :=
  [Put "HGT_M" (DataFloats ((fun i => f32_mul (f32_of_int i) f32_half) <$> [0; 1; 2; 3; 4; 5]));
   PutRecordText "Times" 0 "2026-08-10_13:00:00"; PutRecord "ITIMESTEP" 0 (DataInts [100]);
   PutRecord "XLAT" 0 (DataFloats (f32_of_int <$> [0; 1; 2; 3; 4; 5]));
   PutRecordText "Times" 1 "2026-08-10_14:00:00"; PutRecord "ITIMESTEP" 1 (DataInts [101]);
   PutRecord "XLAT" 1 (DataFloats (f32_of_int <$> [10; 11; 12; 13; 14; 15]))].
Definition golden_file (f : NcFormat) : RwResult (list byte) :=
  w ← nc_create f golden_dims golden_gattrs golden_vars 2; w ← rfold nc_call golden_calls w; nc_finish w.

Definition cdf1_bytes : list byte := mjoin ((fun s => of_hex (bytes s)) <$>
  ["43444601000000020000000a000000040000000454696d65000000000000000a446174655374724c656e00000000001300000009776573745f656173";
   "74000000000000030000000b736f7574685f6e6f72746800000000020000000c00000003000000055449544c450000000000000200000013204f5554";
   "5055542046524f4d20474f4c44454e000000000244580000000000050000000146abe000000000084d41505f50524f4a000000040000000100000001";
   "0000000b000000040000000554696d657300000000000002000000000000000100000000000000000000000200000014000001c0000000094954494d";
   "4553544550000000000000010000000000000000000000000000000400000004000001d400000004584c415400000003000000000000000300000002";
   "0000000c0000000200000005756e697473000000000000020000000c6465677265655f6e6f727468000000094669656c645479706500000000000004";
   "00000001000000680000000500000018000001d8000000054847545f4d00000000000002000000030000000200000000000000000000000500000018";
   "000001a8000000003f0000003f8000003fc000004000000040200000323032362d30382d31305f31333a30303a30300000000064000000003f800000";
   "40000000404000004080000040a00000323032362d30382d31305f31343a30303a303000000000654120000041300000414000004150000041600000";
   "41700000"]).
Example golden_cdf1 : golden_file Classic = Ok cdf1_bytes.
Proof. vm_compute. reflexivity. Qed.
Definition cdf2_bytes : list byte := mjoin ((fun s => of_hex (bytes s)) <$>
  ["43444602000000020000000a000000040000000454696d65000000000000000a446174655374724c656e00000000001300000009776573745f656173";
   "74000000000000030000000b736f7574685f6e6f72746800000000020000000c00000003000000055449544c450000000000000200000013204f5554";
   "5055542046524f4d20474f4c44454e000000000244580000000000050000000146abe000000000084d41505f50524f4a000000040000000100000001";
   "0000000b000000040000000554696d65730000000000000200000000000000010000000000000000000000020000001400000000000001d000000009";
   "4954494d455354455000000000000001000000000000000000000000000000040000000400000000000001e400000004584c41540000000300000000";
   "00000003000000020000000c0000000200000005756e697473000000000000020000000c6465677265655f6e6f727468000000094669656c64547970";
   "65000000000000040000000100000068000000050000001800000000000001e8000000054847545f4d00000000000002000000030000000200000000";
   "00000000000000050000001800000000000001b8000000003f0000003f8000003fc000004000000040200000323032362d30382d31305f31333a3030";
   "3a30300000000064000000003f80000040000000404000004080000040a00000323032362d30382d31305f31343a30303a3030000000006541200000";
   "4130000041400000415000004160000041700000"]).
Example golden_cdf2 : golden_file Offset64 = Ok cdf2_bytes.
Proof. vm_compute. reflexivity. Qed.
Definition cdf5_bytes : list byte := mjoin ((fun s => of_hex (bytes s)) <$>
  ["4344460500000000000000020000000a0000000000000004000000000000000454696d650000000000000000000000000000000a446174655374724c";
   "656e000000000000000000130000000000000009776573745f656173740000000000000000000003000000000000000b736f7574685f6e6f72746800";
   "00000000000000020000000c000000000000000300000000000000055449544c45000000000000020000000000000013204f55545055542046524f4d";
   "20474f4c44454e0000000000000000024458000000000005000000000000000146abe00000000000000000084d41505f50524f4a0000000400000000";
   "00000001000000010000000b0000000000000004000000000000000554696d6573000000000000000000000200000000000000000000000000000001";
   "000000000000000000000000000000020000000000000014000000000000028800000000000000094954494d45535445500000000000000000000001";
   "0000000000000000000000000000000000000000000000040000000000000004000000000000029c0000000000000004584c41540000000000000003";
   "0000000000000000000000000000000300000000000000020000000c00000000000000020000000000000005756e6974730000000000000200000000";
   "0000000c6465677265655f6e6f72746800000000000000094669656c6454797065000000000000040000000000000001000000680000000500000000";
   "0000001800000000000002a000000000000000054847545f4d0000000000000000000002000000000000000300000000000000020000000000000000";
   "000000000000000500000000000000180000000000000270000000003f0000003f8000003fc000004000000040200000323032362d30382d31305f31";
   "333a30303a30300000000064000000003f80000040000000404000004080000040a00000323032362d30382d31305f31343a30303a30300000000065";
   "412000004130000041400000415000004160000041700000"]).
Example golden_cdf5 : golden_file Data64 = Ok cdf5_bytes.
Proof. vm_compute. reflexivity. Qed.

Definition golden_writer (f : NcFormat) : NcClassicWriter :=
  match nc_create f golden_dims golden_gattrs golden_vars 2 with
  | Ok w => w
  | _ => {| nc_file := []; nc_format := f; layouts := []; by_name := ∅; record_stride := 0; num_records := 0; written := []; file_len := 0 |}
  end.
Lemma golden_created : nc_create Classic golden_dims golden_gattrs golden_vars 2 = Ok (golden_writer Classic).
Proof. vm_compute. reflexivity. Qed.
Lemma golden_typed : schema_typed golden_dims golden_gattrs golden_vars 2.
Proof. split; repeat constructor; vm_compute; (reflexivity || discriminate). Qed.
Definition golden_end (calls : list NcCall) : NcClassicWriter :=
  match rfold nc_call calls (golden_writer Classic) with Ok w => w | _ => golden_writer Classic end.
Lemma golden_run : rfold nc_call golden_calls (golden_writer Classic) = Ok (golden_end golden_calls).
Proof. vm_compute. reflexivity. Qed.
Lemma golden_calls_typed : Forall call_typed golden_calls.
Proof. repeat constructor; vm_compute; discriminate. Qed.

Theorem classic_file_reads_back_witness : exists h v rest,
  p_header cdf1_bytes = Some (h, rest) /\ vs_name v = "ITIMESTEP"%string /\ read_slab h cdf1_bytes v 1 = Some (encode_data (DataInts [101])).
Proof.
  destruct (classic_file_reads_back Classic golden_dims golden_gattrs golden_vars 2 (golden_writer Classic) golden_calls (golden_end golden_calls) cdf1_bytes
    golden_typed golden_created ltac:(left; lia) golden_calls_typed golden_run ltac:(vm_compute; reflexivity)) as (rest & Hh & Hput & _).
  destruct (Hput (PutRecord "ITIMESTEP" 1 (DataInts [101]))) as (i & v & r & d & Hv & (Hname & -> & ->) & Hread); [right; right; right; right; right; left|].
  exists (file_spec Classic golden_dims golden_gattrs golden_vars 2 (golden_writer Classic)), v, rest. split; [exact Hh|]. split; [by symmetry|exact Hread].
Defined.

Theorem slabs_in_any_order_witness : rfold nc_call (rev golden_calls) (golden_writer Classic) = Ok (golden_end golden_calls).
Proof.
  apply (slabs_in_any_order Classic golden_dims golden_gattrs golden_vars 2 (golden_writer Classic) golden_calls (rev golden_calls) (golden_end golden_calls)
    golden_typed golden_created golden_calls_typed).
  - apply Permutation_rev.
  - exact golden_run.
Defined.

(** ** A header that does not name its offsets *)

(** Three record variables of nearly four gibibytes a record, in a CDF-1 file
    that has no records yet. *)
Definition wide_dims : list NcDim :=
  [{| nd_name := "Time"; nd_len := 0; unlimited := true |}; {| nd_name := "y"; nd_len := 256 * 256; unlimited := false |};
   {| nd_name := "x"; nd_len := 255 * 257; unlimited := false |}].
Definition wide_vars : list NcVarDef :=
  (fun name => {| nv_name := name; nv_ty := NcChar; dimids := [0; 1; 2]%nat; nv_attrs := [] |}) <$> ["a"; "b"; "c"]%string.

(** The check of the offsets looks at the last byte of the file alone. A
    CDF-1 file that has record variables and no records is created and
    finished although the offset of a record variable does not fit the
    header, which names another one. *)
Lemma no_records_truncate_offsets : exists w file h rest v l,
  nc_create Classic wide_dims [] wide_vars 0 = Ok w /\ nc_finish w = Ok file /\ p_header file = Some (h, rest)
  /\ hs_vars h !! 2%nat = Some v /\ layouts w !! 2%nat = Some l /\ begin v <> vl_begin l /\ max_offset Classic < vl_begin l.
Proof. do 6 eexists. split_and!; [vm_compute; reflexivity..|vm_compute; discriminate|vm_compute; reflexivity]. Qed.
