(* ===== verification/Netcdf3.v ===== *)
(** * The streaming NetCDF writer

    [crates/rw-store/src/netcdf3.rs]: the CDF-2 writer of the hour export,
    with fixed dimensions and floats only. It validates its schema, serialises
    the header twice and streams the variables in order. It writes the same
    file as the classic writer for every schema that one accepts. *)
From Stdlib Require Import ZArith Lia Ascii String.
From stdpp Require Import base list strings numbers gmap.
From S2P Require Import Prelude F32 Format Text Netcdf NetcdfRead NetcdfFile.

Local Open Scope Z_scope.

Definition NC_CHAR : Z := 2.
Definition NC_FLOAT : Z := 5.

Inductive Nc3AttrValue := Nc3Text (s : string) | Nc3Floats (v : list f32).
Record Nc3Attr := { a3_name : string; a3_value : Nc3AttrValue }.
Record Nc3Dim := { d3_name : string; d3_len : nat }.
Record Nc3VarDef := { v3_name : string; v3_dimids : list nat; v3_attrs : list Nc3Attr }.

(** [out] is the bytes of the file; names are for messages only. *)
Record Nc3Writer := { out : list byte; var_elems : list Z; n3_written : nat }.

(** ** Validation *)

Definition nc3_check_name (name : string) : RwResult unit :=
  _ ← reject (bool_decide (bytes name = [])) (Format "netcdf3: {kind} name is empty");
  reject (negb (name_is_valid name)) (Format "netcdf3: {kind} name '{name}' is not NC-safe (must start [A-Za-z_], rest [A-Za-z0-9_+.@-])").
Definition nc3_check_attrs (attrs : list Nc3Attr) : RwResult unit :=
  _ ← rfold (fun seen attr =>
        _ ← nc3_check_name (a3_name attr);
        _ ← reject (bool_decide (a3_name attr ∈ seen)) (Format "netcdf3: duplicate attribute name '{}' in {scope}");
        Ok (seen ++ [a3_name attr])) attrs [];
  Ok tt.
Definition nc3_check_dims (dims : list Nc3Dim) : RwResult (list string) :=
  rfold (fun dim_names dim =>
    _ ← nc3_check_name (d3_name dim);
    _ ← reject (d3_len dim =? 0)%nat (Format "netcdf3: dimension '{}' has length 0 (record/unlimited dims unsupported)");
    _ ← reject (bool_decide (d3_name dim ∈ dim_names)) (Format "netcdf3: duplicate dimension name '{}'");
    Ok (dim_names ++ [d3_name dim])) dims [].
Definition nc3_check_vars (dims : list Nc3Dim) (vars : list Nc3VarDef) : RwResult (list string) :=
  rfold (fun var_names var =>
    _ ← nc3_check_name (v3_name var);
    _ ← reject (bool_decide (v3_name var ∈ var_names)) (Format "netcdf3: duplicate variable name '{}'");
    _ ← rfold (fun _ dimid => reject (length dims <=? dimid)%nat
          (Format "netcdf3: variable '{}' references dimid {} but only {} dimension(s) exist")) (v3_dimids var) tt;
    _ ← nc3_check_attrs (v3_attrs var);
    Ok (var_names ++ [v3_name var])) vars [].
Definition nc3_validate_defs (dims : list Nc3Dim) (gattrs : list Nc3Attr) (vars : list Nc3VarDef) : RwResult unit :=
  _ ← nc3_check_dims dims;
  _ ← nc3_check_attrs gattrs;
  _ ← nc3_check_vars dims vars;
  Ok tt.

(** ** The header *)

Definition put_u64 (buf : list byte) (v : Z) : list byte := buf ++ to_be 8 v.
Definition nc3_put_name (buf : list byte) (name : string) : list byte :=
  let buf := put_u32 buf (Z.of_nat (length (str_bytes name))) in
  pad_to_4 (buf ++ str_bytes name).
Definition nc3_put_attr (buf : list byte) (attr : Nc3Attr) : list byte :=
  let buf := nc3_put_name buf (a3_name attr) in
  match a3_value attr with
  | Nc3Text s =>
      let buf := put_u32 buf NC_CHAR in
      let buf := put_u32 buf (Z.of_nat (length (str_bytes s))) in
      pad_to_4 (buf ++ str_bytes s)
  | Nc3Floats vals =>
      let buf := put_u32 buf NC_FLOAT in
      let buf := put_u32 buf (Z.of_nat (length vals)) in
      pad_to_4 (fold_left (fun buf v => buf ++ f32_to_be v) vals buf)
  end.
Definition nc3_put_att_list (buf : list byte) (attrs : list Nc3Attr) : list byte :=
  match attrs with
  | [] => put_u32 (put_u32 buf ABSENT_TAG) 0
  | _ => fold_left nc3_put_attr attrs (put_u32 (put_u32 buf NC_ATTRIBUTE) (Z.of_nat (length attrs)))
  end.
(** [as u32] truncates; [vsize_field] is clamped. *)
Definition vsize_field (elems : Z) : Z :=
  let bytes := saturating_mul elems 4 in
  let padded := Z.ldiff (saturating_add bytes 3) 3 in
  if (u32_limit - 1) - 3 <? padded then u32_limit - 1 else padded.
Definition nc3_put_var (buf : list byte) (x : Nc3VarDef * (Z * Z)) : list byte :=
  let '(var, (elems, begin)) := x in
  let buf := nc3_put_name buf (v3_name var) in
  let buf := put_u32 buf (Z.of_nat (length (v3_dimids var))) in
  let buf := fold_left (fun buf dimid => put_u32 buf (Z.of_nat dimid)) (v3_dimids var) buf in
  let buf := nc3_put_att_list buf (v3_attrs var) in
  let buf := put_u32 buf NC_FLOAT in
  let buf := put_u32 buf (vsize_field elems) in
  put_u64 buf begin.
Definition nc3_serialize_header (dims : list Nc3Dim) (gattrs : list Nc3Attr) (vars : list Nc3VarDef) (elems begins : list Z) : list byte :=
  let buf := put_u32 ([Byte.x43; Byte.x44; Byte.x46] ++ [Byte.x02]) 0 in
  let buf := match dims with
             | [] => put_u32 (put_u32 buf ABSENT_TAG) 0
             | _ => fold_left (fun buf dim => put_u32 (nc3_put_name buf (d3_name dim)) (Z.of_nat (d3_len dim))) dims
                      (put_u32 (put_u32 buf NC_DIMENSION) (Z.of_nat (length dims)))
             end in
  let buf := nc3_put_att_list buf gattrs in
  match vars with
  | [] => put_u32 (put_u32 buf ABSENT_TAG) 0
  | _ => fold_left nc3_put_var (zip vars (zip elems begins)) (put_u32 (put_u32 buf NC_VARIABLE) (Z.of_nat (length vars)))
  end.

(** ** The writer *)

Definition nc3_elems (dims : list Nc3Dim) (var : Nc3VarDef) : RwResult Z :=
  rfold (fun elems dimid =>
    dim ← or_panic (dims !! dimid);
    ok_or (checked_mul64 elems (Z.of_nat (d3_len dim))) (Format "netcdf3: variable '{}' element count overflows u64")) (v3_dimids var) 1.
(** [pad4]: the sum does not overflow on a multiple of 4, as here. *)
Definition nc3_pad4 (n : Z) : Z := Z.ldiff (n + 3) 3.
(** The offsets, and the cursor after the last variable. *)
Definition nc3_begins (header_len : Z) (elems : list Z) : RwResult (list Z * Z) :=
  rfold (fun st elems =>
    let '(begins, cursor) := st in
    bytes ← ok_or (checked_mul64 elems 4) (Format "netcdf3: variable byte size overflows u64");
    let padded := nc3_pad4 bytes in
    next ← ok_or (checked_add64 cursor padded) (Format "netcdf3: data section size overflows u64");
    Ok (begins ++ [cursor], next)) elems ([], header_len).
Definition nc3_create (dims : list Nc3Dim) (gattrs : list Nc3Attr) (vars : list Nc3VarDef) : RwResult Nc3Writer :=
  _ ← nc3_validate_defs dims gattrs vars;
  elems ← rmap (nc3_elems dims) vars;
  let header_pass1 := nc3_serialize_header dims gattrs vars elems (replicate (length vars) 0) in
  '(begins, _) ← nc3_begins (Z.of_nat (length header_pass1)) elems;
  let header_pass2 := nc3_serialize_header dims gattrs vars elems begins in
  Ok {| out := header_pass2; var_elems := elems; n3_written := 0 |}.

Definition write_var (w : Nc3Writer) (values : list f32) : RwResult Nc3Writer :=
  _ ← reject (length (var_elems w) <=? n3_written w)%nat (Format "netcdf3: write_var called {} time(s) but only {} variable(s) were defined");
  expected ← or_panic (var_elems w !! n3_written w);
  _ ← reject (negb (Z.of_nat (length values) =? expected)) (Format "netcdf3: variable '{}' expects {} value(s) but got {}");
  let buf := fold_left (fun buf v => buf ++ f32_to_be v) values [] in
  Ok {| out := out w ++ buf; var_elems := var_elems w; n3_written := n3_written w + 1 |}.
Definition nc3_finish (w : Nc3Writer) : RwResult (list byte) :=
  _ ← reject (negb (n3_written w =? length (var_elems w))%nat) (Format "netcdf3: finish called after writing {} of {} variable(s)");
  Ok (out w).
Definition nc3_write_file (dims : list Nc3Dim) (gattrs : list Nc3Attr) (vars : list Nc3VarDef) (data : list (list f32)) : RwResult (list byte) :=
  w ← nc3_create dims gattrs vars;
  w ← rfold write_var data w;
  nc3_finish w.

(** ** The same schema for the classic writer *)

Definition attr_of (a : Nc3Attr) : NcAttr :=
  {| at_name := a3_name a; at_value := match a3_value a with Nc3Text s => Text s | Nc3Floats v => Floats v end |}.
Definition dim_of (d : Nc3Dim) : NcDim := {| nd_name := d3_name d; nd_len := d3_len d; unlimited := false |}.
Definition var_of (v : Nc3VarDef) : NcVarDef :=
  {| nv_name := v3_name v; nv_ty := NcFloat; dimids := v3_dimids v; nv_attrs := attr_of <$> v3_attrs v |}.

Lemma fold_left_ext {A B} (g h : A -> B -> A) l a : (forall x y, g x y = h x y) -> fold_left g l a = fold_left h l a.
Proof. intros H. revert a. induction l as [|x l IH]; intros a; [done|]. cbn. by rewrite H, IH. Qed.
Lemma fold_left_fmap {A B C} (g : A -> B -> A) (h : C -> B) l a : fold_left g (h <$> l) a = fold_left (fun x y => g x (h y)) l a.
Proof. revert a. induction l as [|x l IH]; intros a; [done|]. cbn. apply IH. Qed.

Lemma nc3_attr_same buf a : nc3_put_attr buf a = put_attr Offset64 buf (attr_of a).
Proof.
  unfold nc3_put_attr, put_attr, attr_of. cbn [at_name at_value]. destruct (a3_value a) as [s|v]; cbn [attr_type nelems type_tag]; [|done].
  unfold str_len, str_bytes. by rewrite length_fmap.
Qed.
Lemma nc3_att_list_same buf attrs : nc3_put_att_list buf attrs = put_att_list buf Offset64 (attr_of <$> attrs).
Proof.
  destruct attrs as [|a attrs]; [done|]. unfold nc3_put_att_list.
  transitivity (fold_left (put_attr Offset64) (attr_of <$> a :: attrs) (put_nonneg (put_u32 buf NC_ATTRIBUTE) Offset64 (Z.of_nat (length (attr_of <$> a :: attrs))))).
  - rewrite fold_left_fmap, length_fmap. apply fold_left_ext, nc3_attr_same.
  - done.
Qed.

(** The header of the streaming writer is the classic one, with its sizes. *)
Lemma nc3_header_same dims gattrs vars elems begins :
  length elems = length vars -> length begins = length vars ->
  nc3_serialize_header dims gattrs vars elems begins
  = serialize_header Offset64 (dim_of <$> dims) (attr_of <$> gattrs) (var_of <$> vars) (vsize_field <$> elems) begins 0.
Proof.
  intros Le Lb. unfold nc3_serialize_header, serialize_header.
  assert (Hd : forall buf, match dims with
      | [] => put_u32 (put_u32 buf ABSENT_TAG) 0
      | _ => fold_left (fun buf dim => put_u32 (nc3_put_name buf (d3_name dim)) (Z.of_nat (d3_len dim))) dims
               (put_u32 (put_u32 buf NC_DIMENSION) (Z.of_nat (length dims))) end
    = match dim_of <$> dims with
      | [] => put_nonneg (put_u32 buf ABSENT_TAG) Offset64 0
      | _ => fold_left (put_dim Offset64) (dim_of <$> dims) (put_nonneg (put_u32 buf NC_DIMENSION) Offset64 (Z.of_nat (length (dim_of <$> dims)))) end).
  { intros buf. destruct dims as [|d dims]; [done|].
    transitivity (fold_left (put_dim Offset64) (dim_of <$> d :: dims) (put_nonneg (put_u32 buf NC_DIMENSION) Offset64 (Z.of_nat (length (dim_of <$> d :: dims))))); [|done].
    by rewrite fold_left_fmap, length_fmap. }
  rewrite Hd, nc3_att_list_same. set (buf := put_att_list _ _ _).
  assert (Hz : zip (var_of <$> vars) (zip (vsize_field <$> elems) begins) = (fun x => (var_of x.1, (vsize_field x.2.1, x.2.2))) <$> zip vars (zip elems begins)).
  { revert elems begins Le Lb. clear. induction vars as [|v vars IH]; intros [|e elems] [|b begins]; try done. intros [= Le] [= Lb]. cbn. f_equal. by apply IH. }
  destruct vars as [|v vars]; [done|].
  transitivity (fold_left (put_var Offset64) (zip (var_of <$> v :: vars) (zip (vsize_field <$> elems) begins))
    (put_nonneg (put_u32 buf NC_VARIABLE) Offset64 (Z.of_nat (length (var_of <$> v :: vars))))); [|done].
  rewrite Hz, fold_left_fmap, length_fmap. apply fold_left_ext. intros b [x [e o]]. cbn [fst snd]. unfold nc3_put_var, put_var. cbn [var_of nv_name dimids nv_attrs nv_ty].
  by rewrite nc3_att_list_same.
Qed.

(** ** What the classic writer accepts, the streaming writer accepts *)

Lemma name_checked name u : check_name name = Ok u -> nc3_check_name name = Ok tt.
Proof. unfold check_name, nc3_check_name. destruct (bool_decide _); [done|]. cbn. by destruct (negb _). Qed.

Lemma attrs_checked attrs u : check_attrs (attr_of <$> attrs) = Ok u -> nc3_check_attrs attrs = Ok tt.
Proof.
  unfold check_attrs, nc3_check_attrs. intros E. bind_step E E1. clear E. rewrite rfold_fmap in E1.
  revert E1. match goal with |- rfold ?s _ _ = _ -> mbind _ (rfold ?t _ _) = _ =>
    enough (forall seen, rfold s attrs seen = Ok a -> rfold t attrs seen = Ok a) as H by (intros E1; by rewrite (H _ E1)) end.
  induction attrs as [|x attrs IH]; intros seen; [done|]. cbn [rfold]. intros E. bind_step E E1. bind_step E1 E2. bind_step E1 E3. injection E1 as <-.
  cbn [attr_of at_name] in *. rewrite (name_checked _ _ E2). apply reject_inv in E3. cbn [mbind result_bind]. rewrite E3. cbn [reject mbind result_bind]. by apply IH.
Qed.

Lemma dims_accepted dims names rd : check_dims (dim_of <$> dims) = Ok (names, rd) -> nc3_check_dims dims = Ok names /\ rd = None.
Proof.
  revert names rd. induction dims as [|d dims IH] using rev_ind; intros names rd; [by intros [= <- <-]|].
  unfold check_dims, nc3_check_dims. rewrite fmap_app. cbn [fmap list_fmap]. rewrite imap_pair_snoc, !rfold_app. fold (check_dims (dim_of <$> dims)) (nc3_check_dims dims).
  intros E. bind_step E E1. destruct a as [names' rd']. destruct (IH _ _ eq_refl) as [-> ->]. cbn [rfold mbind result_bind] in *. bind_step E E2. injection E as ->.
  bind_step E2 E3. bind_step E2 E4. bind_step E2 E5. injection E2 as <- <-. cbn [dim_of nd_name unlimited nd_len] in *. rewrite (name_checked _ _ E3). cbn [mbind result_bind].
  destruct (d3_len d =? 0)%nat; [done|]. injection E4 as <-. cbn [reject mbind result_bind]. apply reject_inv in E5. by rewrite E5.
Qed.

Lemma rfold_all_ok {A E} (step : unit -> A -> result E unit) l : (forall x, x ∈ l -> step tt x = Ok tt) -> rfold step l tt = Ok tt.
Proof. intros H. induction l as [|x l IH]; [done|]. cbn. rewrite H by left. cbn. apply IH. intros y Hy. apply H. by right. Qed.

Lemma vars_accepted dims vars names : check_vars (dim_of <$> dims) None (var_of <$> vars) = Ok names -> nc3_check_vars dims vars = Ok names /\ names = v3_name <$> vars /\ NoDup names.
Proof.
  revert names. induction vars as [|v vars IH] using rev_ind; intros names; [intros [= <-]; split_and!; [done|done|constructor]|].
  unfold check_vars, nc3_check_vars. rewrite fmap_app. cbn [fmap list_fmap]. rewrite !rfold_app. fold (check_vars (dim_of <$> dims) None (var_of <$> vars)) (nc3_check_vars dims vars).
  intros E. bind_step E E1. destruct (IH _ eq_refl) as (-> & Hn & Hnd). cbn [rfold mbind result_bind] in *. bind_step E E2. injection E as ->.
  bind_step E2 E3. bind_step E2 E4. bind_step E2 E5. bind_step E2 E6. injection E2 as <-. cbn [var_of nv_name dimids nv_attrs] in *.
  rewrite (name_checked _ _ E3). cbn [mbind result_bind]. apply reject_inv in E4. rewrite E4. cbn [reject mbind result_bind].
  rewrite (rfold_all_ok _ (v3_dimids v)).
  - cbn [mbind result_bind]. rewrite (attrs_checked _ _ E6). cbn [mbind result_bind]. split; [done|]. rewrite fmap_app, Hn. split; [done|].
    apply NoDup_app. split; [by rewrite <- Hn|]. split; [|apply NoDup_singleton]. intros x Hx ->%list_elem_of_singleton. apply bool_decide_eq_false in E4. by rewrite Hn in E4.
  - intros d Hd. apply list_elem_of_lookup in Hd as [k Hk]. destruct (var_dims_checked _ _ _ _ E5 k d Hk) as [Hlt _]. rewrite length_fmap in Hlt.
    by rewrite (proj2 (Nat.leb_gt _ _)).
Qed.

Lemma imap_pair_snd {A} (l : list A) : (imap pair l).*2 = l.
Proof. apply list_eq. intros i. rewrite list_lookup_fmap, list_lookup_imap. by destruct (l !! i). Qed.

Lemma elems_same dims v e : count_elems (dim_of <$> dims) false (v3_dimids v) = Ok e -> nc3_elems dims v = Ok e.
Proof.
  unfold count_elems, nc3_elems. rewrite <- (imap_pair_snd (v3_dimids v)) at 2. rewrite rfold_fmap. generalize (imap pair (v3_dimids v)) as xs, 1.
  induction xs as [|[k d] xs IH]; intros e0; [done|]. cbn [rfold]. intros E. bind_step E E1. cbn [andb snd] in *. rewrite list_lookup_fmap in E1.
  destruct (dims !! d) as [dim|]; [|done]. cbn [fmap option_fmap option_map or_panic mbind result_bind dim_of nd_len] in *.
  apply ok_or_inv in E1. rewrite E1. cbn [ok_or mbind result_bind]. by apply IH.
Qed.

(** ** The layout of a schema with fixed dimensions *)

Lemma name_index_lookup ls i l : NoDup (vl_name <$> ls) -> ls !! i = Some l -> name_index ls !! vl_name l = Some i.
Proof.
  induction ls as [|x ls IH] using rev_ind; [done|]. rewrite fmap_app, name_index_snoc. intros (Hn & Hx & _)%NoDup_app Hl.
  apply lookup_app_Some in Hl as [Hl|[Hge Hl]].
  - rewrite lookup_insert_ne; [by apply IH|]. intros E. apply (Hx (vl_name l)); [|cbn; rewrite E; by left].
    apply list_elem_of_fmap. exists l. split; [done|]. by eapply list_elem_of_lookup_2.
  - destruct (i - length ls)%nat eqn:Ei; [|done]. injection Hl as ->. rewrite lookup_insert_eq. f_equal. lia.
Qed.

(** One slab of floats. *)
Definition float_slab (l : VarLayout) : Prop := is_record l = false /\ vl_ty l = NcFloat /\ slab_stride l = slab_elems l * 4.

Lemma no_sole_record ls : Forall (fun l => is_record l = false) ls -> sole_record_exception ls = ls.
Proof.
  intros H. unfold sole_record_exception. assert (filter (fun l => is_record l = true) ls = []) as ->; [|done].
  induction H as [|l ls Hl _ IH]; [done|]. by rewrite filter_cons_False by congruence.
Qed.

Lemma float_layout dims v l : var_layout (dim_of <$> dims) None (var_of v) = Ok l ->
  nc3_elems dims v = Ok (slab_elems l) /\ float_slab l /\ vl_name l = v3_name v.
Proof.
  unfold var_layout. cbn [var_is_record var_of dimids nv_ty nv_name type_size]. intros E. bind_step E E1. bind_step E E2. bind_step E E3. injection E as <-.
  apply ok_or_inv, checked_mul64_inv in E2 as [-> _]. split; [by apply elems_same|]. split; [|done]. split; [done|]. split; [done|]. cbn [slab_stride slab_elems].
  apply ok_or_inv in E3. unfold pad4 in E3. destruct (checked_add64 _ 3) as [q|] eqn:Eq; [|done]. apply checked_add64_inv in Eq as [-> _].
  injection E3 as <-. rewrite ldiff_3. Z.to_euclidean_division_equations. lia.
Qed.

Lemma float_layouts f dims vars ls : slab_layouts f (dim_of <$> dims) (var_of <$> vars) None = Ok ls ->
  rmap (nc3_elems dims) vars = Ok (slab_elems <$> ls) /\ Forall float_slab ls /\ vl_name <$> ls = v3_name <$> vars.
Proof.
  unfold slab_layouts. intros E. bind_step E E1. bind_step E E2. injection E as <-.
  enough (rmap (nc3_elems dims) vars = Ok (slab_elems <$> a) /\ Forall float_slab a /\ vl_name <$> a = v3_name <$> vars) as (H1 & H2 & H3).
  { rewrite no_sole_record; [done|]. eapply Forall_impl; [exact H2|]. by intros l []. }
  clear E2. revert a E1. induction vars as [|v vars IH]; intros ls E; [by injection E as <-|]. cbn [fmap list_fmap rmap] in *.
  bind_step E E1. bind_step E E2. injection E as <-. apply float_layout in E1 as (H1 & H2 & H3). destruct (IH _ eq_refl) as (H4 & H5 & H6).
  rewrite H1. cbn [mbind result_bind]. rewrite H4. cbn [mbind result_bind fmap list_fmap]. split; [done|]. split; [by constructor|]. by rewrite H3; f_equal.
Qed.

Lemma float_sum ls l : float_slab l -> kind_sum false (ls ++ [l]) = kind_sum false ls + slab_elems l * 4.
Proof. intros (Hr & _ & Hs). rewrite kind_sum_app, kind_sum_cons, Hr, Hs. cbn [Bool.eqb]. unfold kind_sum at 2. cbn [fmap list_fmap foldr]. lia. Qed.

Lemma begins_same c ls : 0 <= c -> Forall float_slab ls -> Forall (fun l => 0 <= slab_elems l) ls -> c + kind_sum false ls < u64_limit ->
  (forall i l, ls !! i = Some l -> vl_begin l = c + kind_sum false (take i ls)) ->
  nc3_begins c (slab_elems <$> ls) = Ok (vl_begin <$> ls, c + kind_sum false ls).
Proof.
  intros Hc Hf He. induction ls as [|l ls IH] using rev_ind; intros Hlt Hb; [unfold kind_sum; cbn; by rewrite Z.add_0_r|].
  apply Forall_app in Hf as [Hf Hl%Forall_inv]. apply Forall_app in He as [He Hle%Forall_inv]. rewrite (float_sum _ _ Hl) in *.
  assert (0 <= kind_sum false ls).
  { apply kind_sum_nonneg. apply list.Forall_forall. intros x Hx. destruct (proj1 (list.Forall_forall _ _) Hf x Hx) as (_ & _ & ->).
    pose proof (proj1 (list.Forall_forall _ _) He x Hx). cbn in *. lia. }
  unfold nc3_begins in *. rewrite !fmap_app, rfold_app, IH; [|done|done|lia|].
  - cbn [mbind result_bind fmap list_fmap rfold]. unfold checked_mul64. rewrite (proj2 (Z.ltb_lt _ _)) by lia. cbn [ok_or mbind result_bind].
    unfold nc3_pad4. rewrite ldiff_3. replace ((slab_elems l * 4 + 3) / 4 * 4) with (slab_elems l * 4) by (Z.to_euclidean_division_equations; lia).
    unfold checked_add64. rewrite (proj2 (Z.ltb_lt _ _)) by lia. cbn [ok_or mbind result_bind].
    rewrite (Hb (length ls) l) by (by rewrite lookup_app_r, Nat.sub_diag by lia). rewrite take_app_length. do 2 f_equal. lia.
  - intros i x Hx. rewrite (Hb i x) by (by apply lookup_app_l_Some). rewrite take_app_le; [done|]. apply lookup_lt_Some in Hx. lia.
Qed.

Lemma vsize_same l : float_slab l -> 0 <= slab_elems l -> fits Offset64 (slab_stride l) -> vsize_field (slab_elems l) = slab_stride l.
Proof.
  intros (_ & _ & Hs) He. unfold fits, in_width. cbn [nonneg_width]. rewrite Hs. intros [_ Hlt]. change (2 ^ (8 * Z.of_nat 4)) with u32_limit in Hlt.
  change u32_limit with 4294967296 in Hlt. unfold vsize_field, saturating_mul, saturating_add. change (u32_limit - 1 - 3) with 4294967292.
  assert (slab_elems l * 4 + 3 < U64_MAX) by (change U64_MAX with 18446744073709551615; lia).
  rewrite ldiff_3, (Z.min_l (slab_elems l * 4)), Z.min_l by lia.
  destruct (Z.ltb_spec 4294967292 ((slab_elems l * 4 + 3) / 4 * 4)); Z.to_euclidean_division_equations; lia.
Qed.

Lemma geometry_transfer {A} (g : VarLayout -> A) (ls ls' : list VarLayout) : (forall l, g (geometry l) = g l) -> geometry <$> ls = geometry <$> ls' -> g <$> ls = g <$> ls'.
Proof.
  intros Hg H. transitivity (g <$> (geometry <$> ls)); [|rewrite H]; rewrite <- list_fmap_compose; apply list_fmap_ext; intros; cbn; by rewrite Hg.
Qed.

Record fixed_writer (dims : list Nc3Dim) (vars : list Nc3VarDef) (w : NcClassicWriter) : Prop := {
  fw_elems : rmap (nc3_elems dims) vars = Ok (slab_elems <$> layouts w);
  fw_slabs : Forall float_slab (layouts w);
  fw_names : vl_name <$> layouts w = v3_name <$> vars;
  fw_nodup : NoDup (v3_name <$> vars)
}.
Lemma fixed_created dims gattrs vars w : nc_create Offset64 (dim_of <$> dims) (attr_of <$> gattrs) (var_of <$> vars) 0 = Ok w ->
  nc3_validate_defs dims gattrs vars = Ok tt /\ fixed_writer dims vars w.
Proof.
  unfold nc_create. intros E. bind_step E E1. bind_step E E2. bind_step E E3. bind_step E E4. destruct a2 as [ls1 origin].
  bind_step E E5. destruct a2 as [ls stride]. bind_step E E6. bind_step E E7. bind_step E E8. injection E as <-.
  unfold validate_defs in E1. bind_step E1 F1. destruct a5 as [names rd]. bind_step E1 F2. bind_step E1 F3. bind_step E1 F4. injection E1 as ->.
  apply dims_accepted in F1 as [D1 ->]. apply attrs_checked in F3. apply vars_accepted in F4 as (V1 & V2 & V3). apply float_layouts in E3 as (L1 & L2 & L3).
  destruct (place_spec _ _ _ _ _ _ E4 E5) as (_ & Hg & _). split.
  - unfold nc3_validate_defs. rewrite D1. cbn [mbind result_bind]. rewrite F3. cbn [mbind result_bind]. by rewrite V1.
  - split; cbn [layouts].
    + by rewrite (geometry_transfer slab_elems _ _ (fun _ => eq_refl) Hg).
    + apply list.Forall_forall. intros l Hl. assert (geometry l ∈ geometry <$> a1) as (l1 & Eg & Hl1)%list_elem_of_fmap.
      { rewrite <- Hg. apply list_elem_of_fmap. eauto. }
      apply (proj1 (list.Forall_forall _ _) L2) in Hl1. destruct Hl1 as (H1 & H2 & H3). unfold float_slab.
      change (is_record (geometry l) = false /\ vl_ty (geometry l) = NcFloat /\ slab_stride (geometry l) = slab_elems (geometry l) * 4). by rewrite Eg.
    + by rewrite (geometry_transfer vl_name _ _ (fun _ => eq_refl) Hg).
    + by rewrite <- V2.
Qed.

(** ** The data *)

Section streaming.
Context (dims : list Nc3Dim) (vars : list Nc3VarDef) (w0 : NcClassicWriter) (c0 : Z).
Context (Hc0 : 0 <= c0) (Hw : fixed_writer dims vars w0) (Hpos : Forall (fun l => 1 <= slab_elems l) (layouts w0)).
Context (Hb : by_name w0 = name_index (layouts w0)).
Context (Hpl : forall i l, layouts w0 !! i = Some l -> vl_begin l = c0 + kind_sum false (take i (layouts w0))).

(** The classic writer after the first [k] variables; the streaming writer has
    written [pre]. *)
Record streamed (k : nat) (pre : list byte) (w : NcClassicWriter) : Prop := {
  sm_layouts : layouts w = layouts w0;
  sm_names : by_name w = by_name w0;
  sm_len : Z.of_nat (length pre) = c0 + kind_sum false (take k (layouts w0));
  sm_file : nc_file w = pre ++ replicate (Z.to_nat (kind_sum false (drop k (layouts w0)))) Byte.x00;
  sm_written : written w = replicate k [true] ++ replicate (length (layouts w0) - k) [false]
}.
Definition put_of (v : Nc3VarDef) (p : list f32) : NcCall := Put (v3_name v) (DataFloats p).

Lemma slab_facts k l : layouts w0 !! k = Some l -> float_slab l /\ 1 <= slab_elems l /\ name_index (layouts w0) !! vl_name l = Some k.
Proof using Hw Hpos.
  intros Hl. split; [|split].
  - exact (Forall_lookup_1 _ _ _ _ (fw_slabs _ _ _ Hw) Hl).
  - exact (Forall_lookup_1 _ _ _ _ Hpos Hl).
  - apply name_index_lookup; [|done]. rewrite (fw_names _ _ _ Hw). exact (fw_nodup _ _ _ Hw).
Qed.
Lemma drop_sum k l : layouts w0 !! k = Some l -> kind_sum false (drop k (layouts w0)) = slab_elems l * 4 + kind_sum false (drop (S k) (layouts w0))
  /\ 0 <= kind_sum false (drop (S k) (layouts w0)).
Proof using Hw Hpos.
  intros Hl. destruct (slab_facts _ _ Hl) as ((Hr & _ & Hs) & _). split.
  - rewrite (drop_S _ _ _ Hl), kind_sum_cons, Hr, Hs. done.
  - apply kind_sum_nonneg. apply list.Forall_forall. intros x Hx. apply list_elem_of_lookup in Hx as [i Hi]. rewrite lookup_drop in Hi.
    destruct (slab_facts _ _ Hi) as ((_ & _ & Hx) & He & _). lia.
Qed.

Lemma written_next k l : layouts w0 !! k = Some l ->
  (replicate k [true] ++ replicate (length (layouts w0) - k) [false]) !! k = Some [false]
  /\ alter (<[0%nat := true]>) k (replicate k [true] ++ replicate (length (layouts w0) - k) [false])
     = replicate (S k) [true] ++ replicate (length (layouts w0) - S k) [false].
Proof.
  intros Hl%lookup_lt_Some. replace (length (layouts w0) - k)%nat with (S (length (layouts w0) - S k)) by lia. cbn [replicate]. split.
  - by rewrite lookup_app_r, length_replicate, Nat.sub_diag by (by rewrite length_replicate).
  - rewrite alter_app_r_alt by (by rewrite length_replicate). rewrite length_replicate, Nat.sub_diag. cbn [alter list_alter].
    change ([true] :: replicate k [true]) with (replicate (S k) [true]). rewrite (replicate_S_end k), <- app_assoc. done.
Qed.

Lemma put_next k pre w l p : streamed k pre w -> layouts w0 !! k = Some l -> Z.of_nat (length p) = slab_elems l ->
  exists w', nc_put w (vl_name l) (DataFloats p) = Ok w' /\ streamed (S k) (pre ++ encode_data (DataFloats p)) w'.
Proof using Hw Hpos Hb Hpl Hc0.
  intros [S1 S2 S3 S4 S5] Hl Hp. destruct (slab_facts _ _ Hl) as ((Hr & Ht & Hs) & He & Hi). destruct (written_next _ _ Hl) as [W1 W2].
  destruct (drop_sum _ _ Hl) as [D1 D2]. pose proof (length_encode (DataFloats p)) as Hlen. cbn [data_len data_type type_size] in Hlen.
  eexists. split.
  - unfold nc_put, index_of. rewrite S2, Hb, Hi. cbn [ok_or mbind result_bind]. rewrite S1, Hl. cbn [or_panic mbind result_bind]. rewrite Hr. cbn [reject mbind result_bind].
    apply (write_slab_intro _ _ _ _ l [false]); [by rewrite S1|done|done|by rewrite S5|done].
  - split; cbn [set_written layouts by_name nc_file written]; [done|done|..].
    + rewrite (take_S_r _ _ _ Hl), float_sum by done. rewrite length_app. lia.
    + rewrite Hs, Hpl with (i := k), <- S3 by done. rewrite Z.mul_0_l, Z.add_0_r, Nat2Z.id.
      replace (resize (Z.to_nat (slab_elems l * 4)) (encode_data (DataFloats p))) with (encode_data (DataFloats p)).
      * unfold write_at. rewrite S4, take_app_length, length_app, length_replicate. replace (_ - (_ + _))%nat with 0%nat by lia.
        cbn [replicate app]. rewrite <- app_assoc. f_equal. f_equal. rewrite drop_app, (drop_ge pre) by lia. cbn [app]. rewrite drop_replicate. f_equal. lia.
      * unfold resize. rewrite take_ge by lia. replace (_ - _)%nat with 0%nat by lia. by rewrite app_nil_r.
    + rewrite S5. exact W2.
Qed.

Lemma put_needs k pre w l p w' : streamed k pre w -> layouts w0 !! k = Some l -> nc_put w (vl_name l) (DataFloats p) = Ok w' -> Z.of_nat (length p) = slab_elems l.
Proof using Hw Hpos Hb.
  intros [S1 S2 _ _ _] Hl E. destruct (slab_facts _ _ Hl) as (_ & _ & Hi). unfold nc_put, index_of in E. rewrite S2, Hb, Hi in E. cbn [ok_or mbind result_bind] in E.
  rewrite S1, Hl in E. cbn [or_panic mbind result_bind] in E. bind_step E E1. apply write_slab_inv with (l := l) in E; [|by rewrite S1].
  tauto.
Qed.

Definition nc3_at (k : nat) (pre : list byte) : Nc3Writer := {| out := pre; var_elems := slab_elems <$> layouts w0; n3_written := k |}.

Lemma write_var_step k pre l p : layouts w0 !! k = Some l ->
  write_var (nc3_at k pre) p = if bool_decide (Z.of_nat (length p) = slab_elems l) then Ok (nc3_at (S k) (pre ++ encode_data (DataFloats p)))
                               else Err (Format "netcdf3: variable '{}' expects {} value(s) but got {}").
Proof.
  intros Hl. unfold write_var, nc3_at. cbn [var_elems n3_written out]. rewrite length_fmap. apply lookup_lt_Some in Hl as Hlt.
  rewrite (proj2 (Nat.leb_gt _ _)) by done. cbn [reject mbind result_bind]. rewrite list_lookup_fmap, Hl. cbn [fmap option_fmap option_map or_panic mbind result_bind].
  case_bool_decide as Hd.
  - rewrite Hd, Z.eqb_refl. cbn [negb reject mbind result_bind]. rewrite Nat.add_1_r. do 3 f_equal. cbn [encode_data]. by rewrite fold_append.
  - by rewrite (proj2 (Z.eqb_neq _ _)).
Qed.

(** The two writers run in step. *)
Lemma streams_agree data k pre w : streamed k pre w -> (k + length data <= length vars)%nat ->
  (forall st, rfold write_var data (nc3_at k pre) = Ok st ->
     exists w' pre', rfold nc_call (zip_with put_of (drop k vars) data) w = Ok w' /\ st = nc3_at (k + length data) pre' /\ streamed (k + length data) pre' w')
  /\ (forall w', rfold nc_call (zip_with put_of (drop k vars) data) w = Ok w' -> exists st, rfold write_var data (nc3_at k pre) = Ok st).
Proof using Hw Hpos Hb Hpl Hc0.
  revert k pre w. induction data as [|p data IH]; intros k pre w Hs Hle.
  { cbn [length] in *. rewrite Nat.add_0_r. destruct (drop k vars); cbn [zip_with rfold]; (split; [intros st [= <-]; by eauto|eauto]). }
  cbn [length] in Hle. destruct (lookup_lt_is_Some_2 vars k) as [v Hv]; [lia|].
  pose proof (f_equal (.!! k) (fw_names _ _ _ Hw)) as Hn. rewrite !list_lookup_fmap, Hv in Hn. destruct (layouts w0 !! k) as [l|] eqn:Hl; [|done].
  injection Hn as Hn. rewrite (drop_S _ _ _ Hv). cbn [zip_with rfold length put_of nc_call]. rewrite <- Hn, (write_var_step _ _ _ _ Hl).
  replace (k + S (length data))%nat with (S k + length data)%nat by lia. case_bool_decide as Hd.
  - destruct (put_next _ _ _ _ _ Hs Hl Hd) as (w1 & -> & Hs1). cbn [mbind result_bind]. apply IH; [done|lia].
  - split; [done|]. intros w' E. bind_step E E1. by apply (put_needs _ _ _ _ _ _ Hs Hl) in E1.
Qed.
End streaming.

Lemma write_vars_count data st st' : rfold write_var data st = Ok st' -> n3_written st' = (n3_written st + length data)%nat /\ var_elems st' = var_elems st.
Proof.
  revert st. induction data as [|p data IH]; intros st E; [injection E as <-; cbn; split; [lia|done]|]. cbn [rfold] in E. bind_step E E1.
  apply IH in E as [-> ->]. unfold write_var in E1. bind_step E1 E2. bind_step E1 E3. bind_step E1 E4. injection E1 as <-. cbn. split; [lia|done].
Qed.

Lemma fmap_const_replicate {A B} (g : A -> B) l y : (forall x, x ∈ l -> g x = y) -> g <$> l = replicate (length l) y.
Proof. intros H. induction l as [|x l IH]; [done|]. cbn. f_equal; [apply H; left|]. apply IH. intros z Hz. apply H. by right. Qed.

(** Both writers after [create]: the same header. *)
Lemma nc3_start dims gattrs vars w0 :
  schema_typed (dim_of <$> dims) (attr_of <$> gattrs) (var_of <$> vars) 0 ->
  nc_create Offset64 (dim_of <$> dims) (attr_of <$> gattrs) (var_of <$> vars) 0 = Ok w0 ->
  exists c0 header, 0 <= c0 /\ fixed_writer dims vars w0 /\ Forall (fun l => 1 <= slab_elems l) (layouts w0) /\ by_name w0 = name_index (layouts w0)
  /\ (forall i l, layouts w0 !! i = Some l -> vl_begin l = c0 + kind_sum false (take i (layouts w0)))
  /\ nc3_create dims gattrs vars = Ok (nc3_at w0 0 header) /\ streamed w0 c0 0 header w0.
Proof.
  intros Hty Hcr. destruct (fixed_created _ _ _ _ Hcr) as [Hv Hw]. destruct (create_inv _ _ _ _ _ _ Hty Hcr) as (_ & rd & origin & Hc & Hb & Hwr & Hfile).
  set (header := writer_header _ _ _ _ _ _) in Hfile. destruct Hc as [C1 C2 C3 C4 C5 C6 C7]. change (placed (Z.of_nat (length header)) (layouts w0) origin (record_stride w0)) in C4. destruct C4 as [P1 P2 P3 P4].
  assert (Hfix : forall l, l ∈ layouts w0 -> float_slab l) by exact (proj1 (list.Forall_forall _ _) (fw_slabs _ _ _ Hw)).
  assert (Hpos : Forall (fun l => 1 <= slab_elems l) (layouts w0)).
  { apply list.Forall_forall. intros l Hl. apply list_elem_of_lookup in Hl as [i Hi]. destruct (Forall2_lookup_r _ _ _ _ _ C2 Hi) as (v & _ & Hlo). exact (so_elems _ (lo_slab _ _ _ _ Hlo)). }
  assert (Hlen : length (layouts w0) = length vars) by (rewrite <- (length_fmap vl_name), (fw_names _ _ _ Hw); apply length_fmap).
  assert (Hpl : forall i l, layouts w0 !! i = Some l -> vl_begin l = Z.of_nat (length header) + kind_sum false (take i (layouts w0))).
  { intros i l Hl. apply P3; [done|]. apply Hfix. by eapply list_elem_of_lookup_2. }
  exists (Z.of_nat (length header)), header. split; [lia|]. split; [done|]. split; [done|]. split; [done|]. split; [done|]. split.
  - unfold nc3_create. rewrite Hv. cbn [mbind result_bind]. rewrite (fw_elems _ _ _ Hw). cbn [mbind result_bind].
    assert (Hvs : vsize_field <$> (slab_elems <$> layouts w0) = slab_stride <$> layouts w0).
    { rewrite <- list_fmap_compose. apply list_fmap_ext. intros i l Hl. cbn. apply list_elem_of_lookup_2 in Hl as Hin. apply vsize_same; [by apply Hfix| |].
      - pose proof (proj1 (list.Forall_forall _ _) Hpos l Hin). cbn in *. lia.
      - exact (proj1 (list.Forall_forall _ _) C3 l Hin). }
    assert (Hh : forall begins, length begins = length vars -> nc3_serialize_header dims gattrs vars (slab_elems <$> layouts w0) begins
      = serialize_header Offset64 (dim_of <$> dims) (attr_of <$> gattrs) (var_of <$> vars) (slab_stride <$> layouts w0) begins 0).
    { intros begins Hbl. rewrite nc3_header_same by (by rewrite ?length_fmap). by rewrite Hvs. }
    rewrite !Hh by (by rewrite ?length_replicate, ?length_fmap).
    rewrite (length_header _ _ _ _ _ _ _ (slab_stride <$> layouts w0) (vl_begin <$> layouts w0) 0) by (by rewrite ?length_replicate, ?length_fmap).
    fold (writer_header Offset64 (dim_of <$> dims) (attr_of <$> gattrs) (var_of <$> vars) 0 w0). fold header.
    rewrite begins_same; [cbn [mbind result_bind]; by rewrite Hh by (by rewrite ?length_fmap)|lia|exact (fw_slabs _ _ _ Hw)| |lia|done].
    eapply Forall_impl; [exact Hpos|]. intros l Hl. cbn in *. lia.
  - assert (0 <= kind_sum false (layouts w0)).
    { apply kind_sum_nonneg. apply list.Forall_forall. intros l Hl. destruct (Hfix l Hl) as (_ & _ & ->). pose proof (proj1 (list.Forall_forall _ _) Hpos l Hl). cbn in *. lia. }
    split; [done|done|rewrite take_0; unfold kind_sum; cbn; lia| |].
    + rewrite drop_0, Hfile. unfold set_len. rewrite take_ge by lia. do 2 f_equal. lia.
    + rewrite Nat.sub_0_r, Hwr. unfold no_slabs. cbn [replicate app]. apply fmap_const_replicate. intros l Hl. by destruct (Hfix l Hl) as [-> _].
Qed.

Lemma join_imap_nil {A B} (g : nat -> A -> list B) n x : (forall i, g i x = []) -> mjoin (imap g (replicate n x)) = [].
Proof. revert g. induction n as [|n IH]; intros g H; [done|]. cbn [replicate]. rewrite imap_cons. cbn [mjoin list_join]. rewrite H. cbn [app]. apply IH. intros i. apply H. Qed.

(** C29: the streaming writer and the classic writer write the same file. For a
    schema that the classic writer accepts as a CDF-2 file without records,
    the streaming writer finishes the file exactly when the classic writer
    does, on the same variables in the order of the schema, and the two files
    are equal byte for byte. *)
Theorem nc3_same_file dims gattrs vars w0 data file :
  schema_typed (dim_of <$> dims) (attr_of <$> gattrs) (var_of <$> vars) 0 ->
  nc_create Offset64 (dim_of <$> dims) (attr_of <$> gattrs) (var_of <$> vars) 0 = Ok w0 ->
  nc3_write_file dims gattrs vars data = Ok file
  <-> length data = length vars /\ exists w, rfold nc_call (zip_with put_of vars data) w0 = Ok w /\ nc_finish w = Ok file.
Proof.
  intros Hty Hcr. destruct (nc3_start _ _ _ _ Hty Hcr) as (c0 & header & Hc0 & Hw & Hpos & Hb & Hpl & Hcreate & Hs).
  unfold nc3_write_file. rewrite Hcreate. cbn [mbind result_bind].
  assert (Hlen : length (layouts w0) = length vars) by (rewrite <- (length_fmap vl_name), (fw_names _ _ _ Hw); apply length_fmap).
  pose proof (streams_agree dims vars w0 c0 Hc0 Hw Hpos Hb Hpl data 0 header w0 Hs) as Hag. rewrite drop_0, Nat.add_0_l in Hag.
  assert (Hfin : forall pre w, streamed w0 c0 (length vars) pre w -> nc_finish w = Ok pre).
  { intros pre w [_ _ _ S4 S5]. unfold nc_finish. rewrite bool_decide_eq_true_2.
    - cbn. rewrite S4, drop_ge, app_nil_r by lia. done.
    - unfold missing_slabs. rewrite S5, Hlen, Nat.sub_diag, app_nil_r. by apply join_imap_nil. }
  split.
  - intros E. bind_step E E1. unfold nc3_finish in E. bind_step E E2. injection E as <-. apply reject_inv, negb_false_iff, Nat.eqb_eq in E2.
    destruct (write_vars_count _ _ _ E1) as [Hc1 Hc2]. cbn [nc3_at n3_written var_elems] in *. rewrite Hc2, length_fmap, Hlen in E2.
    assert (length data = length vars) as Hd by lia. split; [done|]. destruct (Hag ltac:(lia)) as [H1 _]. destruct (H1 _ eq_refl) as (w & pre & Hr & -> & Hst).
    exists w. split; [done|]. rewrite Hd in Hst. by apply Hfin.
  - intros (Hd & w & Hr & Hf). destruct (Hag ltac:(lia)) as [H1 H2]. destruct (H2 _ Hr) as [st Est]. destruct (H1 _ Est) as (w' & pre & Hr' & -> & Hst).
    rewrite Est. cbn [mbind result_bind]. rewrite Hr in Hr'. injection Hr' as <-. rewrite Hd in *. rewrite (Hfin _ _ Hst) in Hf. injection Hf as <-.
    unfold nc3_finish, nc3_at. cbn [n3_written var_elems]. by rewrite length_fmap, Hlen, Nat.eqb_refl.
Qed.

Definition export_dims : list Nc3Dim := [{| d3_name := "y"; d3_len := 2 |}; {| d3_name := "x"; d3_len := 3 |}].
Definition export_gattrs : list Nc3Attr :=
  [{| a3_name := "Conventions"; a3_value := Nc3Text "CF-1.8" |}; {| a3_name := "levels"; a3_value := Nc3Floats (f32_of_int <$> [850; 500]) |}].
Definition export_vars : list Nc3VarDef :=
  [{| v3_name := "lat"; v3_dimids := [0]%nat; v3_attrs := [] |};
   {| v3_name := "t2m"; v3_dimids := [0; 1]%nat; v3_attrs := [{| a3_name := "units"; a3_value := Nc3Text "K" |}] |}].
Definition export_data : list (list f32) := [f32_of_int <$> [40; 41]; f32_of_int <$> [280; 281; 282; 283; 284; 285]].
Definition export_writer : NcClassicWriter :=
  match nc_create Offset64 (dim_of <$> export_dims) (attr_of <$> export_gattrs) (var_of <$> export_vars) 0 with Ok w => w | _ => golden_writer Offset64 end.
Definition export_file : list byte := match nc3_write_file export_dims export_gattrs export_vars export_data with Ok file => file | _ => [] end.

Theorem nc3_same_file_witness : exists w,
  rfold nc_call (zip_with put_of export_vars export_data) export_writer = Ok w /\ nc_finish w = Ok export_file /\ length export_file = 256%nat.
Proof.
  destruct (proj1 (nc3_same_file export_dims export_gattrs export_vars export_writer export_data export_file
    ltac:(split; repeat constructor; vm_compute; (reflexivity || discriminate)) ltac:(vm_compute; reflexivity)) ltac:(vm_compute; reflexivity)) as (_ & w & Hr & Hf).
  exists w. split; [exact Hr|]. split; [exact Hf|]. vm_compute. reflexivity.
Defined.

(** The streaming writer does not check the width of a dimension. A
    dimension of 2^32 cells is accepted and the header says that its length is
    zero, which is how the format marks the record dimension. *)
Theorem long_dimension_reads_as_record : exists w h rest,
  nc3_create [{| d3_name := "x"; d3_len := Z.to_nat u32_limit |}] [] [{| v3_name := "v"; v3_dimids := [0%nat]; v3_attrs := [] |}] = Ok w
  /\ var_elems w = [u32_limit] /\ p_header (out w) = Some (h, rest) /\ hs_dims h = [{| ds_name := "x"; ds_len := 0 |}]
  /\ exists v, hs_vars h = [v] /\ spec_record h v = true.
Proof.
  assert (H : Z.of_nat (Z.to_nat u32_limit) = u32_limit) by (apply Z2Nat.id; unfold u32_limit; lia). revert H. generalize (Z.to_nat u32_limit) as len. intros len H.
  set (dims := [{| d3_name := "x"; d3_len := len |}]). set (vars := [{| v3_name := "v"; v3_dimids := [0%nat]; v3_attrs := [] |}]).
  assert (H1 : nc3_validate_defs dims [] vars = Ok tt) by (destruct len; [done|]; vm_compute; reflexivity).
  assert (H2 : rmap (nc3_elems dims) vars = Ok [u32_limit]).
  { unfold vars. cbn [rmap]. unfold nc3_elems. cbn [v3_dimids rfold]. change (dims !! 0%nat) with (Some {| d3_name := "x"; d3_len := len |}).
    cbn [or_panic mbind result_bind d3_len]. rewrite H. vm_compute. reflexivity. }
  assert (H3 : forall b, nc3_serialize_header dims [] vars [u32_limit] b = nc3_serialize_header [{| d3_name := "x"; d3_len := 0 |}] [] vars [u32_limit] b).
  { intros b. unfold nc3_serialize_header, dims. cbn [fold_left d3_len d3_name].
    assert (Hz : forall buf, put_u32 buf (Z.of_nat len) = put_u32 buf (Z.of_nat 0)) by (intros buf; unfold put_u32; rewrite H; f_equal; vm_compute; reflexivity).
    by rewrite Hz. }
  unfold nc3_create. rewrite H1. cbn [mbind result_bind]. rewrite H2. cbn [mbind result_bind]. rewrite H3.
  eexists _, _, _. split; [vm_compute nc3_begins; cbn [mbind result_bind]; rewrite H3; reflexivity|].
  split; [done|]. split; [vm_compute; reflexivity|]. split; [vm_compute; reflexivity|]. eexists. split; vm_compute; reflexivity.
Qed.
