(* ===== verification/Atomic.v ===== *)
(** * Atomic file replacement

    [crates/rw-store/src/atomic.rs]: a file is written under a hidden
    temporary name of the same directory, synced, renamed over the destination
    and the directory synced. Several writers, of one process or of many, run
    these system calls in any order; each call may fail, and the machine may
    stop between any two of them. The Unix versions of [replace_file] and
    [sync_parent] are modelled, from the point where the directory exists. *)
From Stdlib Require Import ZArith Lia Ascii String.
From stdpp Require Import base list strings numbers gmap.
From S2P Require Import Prelude Format Text.

Local Open Scope Z_scope.

(** ** A directory *)

(** What a name stands for. Files are inodes, which keep their number for as
    long as anyone may have them open. *)
Inductive Node := FileNode (inode : nat) | LinkNode | DirNode | SpecialNode.

#[global] Instance Node_eq_dec : EqDecision Node.
Proof. solve_decision. Defined.

(** The content of a file, and the content the last [sync_all] made durable. *)
Record Inode := { data : list byte; synced : option (list byte) }.

(** [history]: the names as they were since the last sync of the directory,
    which of them a crash leaves is open. *)
Record Dir := {
  names : gmap string Node;
  inodes : list Inode;
  history : list (gmap string Node)
}.

Definition set_names (m : gmap string Node) (d : Dir) : Dir :=
  {| names := m; inodes := inodes d; history := m :: history d |}.

(** [OpenOptions::create_new]. *)
Definition create_new (name : string) (d : Dir) : option (nat * Dir) :=
  match names d !! name with
  | Some _ => None
  | None =>
      let i := length (inodes d) in
      Some (i, set_names (<[name := FileNode i]> (names d))
                 {| names := names d; inodes := inodes d ++ [{| data := []; synced := None |}]; history := history d |})
  end.

Definition set_inode (i : nat) (f : Inode -> Inode) (d : Dir) : Dir :=
  {| names := names d; inodes := alter f i (inodes d); history := history d |}.

(** A [write] of some bytes through the open handle. *)
Definition append (i : nat) (bs : list byte) : Dir -> Dir :=
  set_inode i (fun n => {| data := data n ++ bs; synced := synced n |}).
(** [File::sync_all]. *)
Definition sync_file (i : nat) : Dir -> Dir := set_inode i (fun n => {| data := data n; synced := Some (data n) |}).

(** [fs::rename] within the directory: it replaces anything but a directory. *)
Definition rename (source destination : string) (d : Dir) : option Dir :=
  match names d !! source, names d !! destination with
  | None, _ | _, Some DirNode => None
  | Some n, _ => Some (set_names (<[destination := n]> (delete source (names d))) d)
  end.

(** [fs::remove_file]; nothing happens when the name is gone or a directory. *)
Definition remove_file (name : string) (d : Dir) : Dir :=
  match names d !! name with
  | None | Some DirNode => d
  | Some _ => set_names (delete name (names d)) d
  end.

(** [sync_all] of the directory. *)
Definition sync_names (d : Dir) : Dir := {| names := names d; inodes := inodes d; history := [names d] |}.

(** ** Writers *)

(** [temp_path_for]: [.{file_name}.tmp-{pid}-{seq}]. *)
Definition temp_name (file_name : string) (pid seq : Z) : string :=
  of_bytes (bytes "." ++ bytes file_name ++ bytes ".tmp-" ++ fmt_padded 0 pid ++ bytes "-" ++ fmt_padded 0 seq).

(** A call of [atomic_write_bytes]. *)
Record Writer := { w_pid : Z; w_file : string; w_bytes : list byte }.

(** Where [atomic_write_with] is: opening the temporary file, writing and
    syncing it, renaming it, syncing the directory, or removing it after a
    failure. *)
Inductive Pc :=
| Opening
| Writing (tmp : string) (inode : nat) (todo : list byte)
| Synced (tmp : string) (inode : nat)
| Replaced (tmp : string) (inode : nat)
| CleaningUp (tmp : string)
| Returned (result : RwResult unit).

(** [seqs]: the counter [SEQ] of each process. *)
Record World := { dir : Dir; seqs : Z -> Z; pcs : list (Writer * Pc) }.

(** The system calls; [CallFails] and [CallRemoveFails] return an error and
    change nothing. *)
Inductive Call := CallOpen | CallWrite (n : nat) | CallSync | CallRename | CallSyncDir | CallRemove | CallFails | CallRemoveFails.

Definition io_error : RwStoreError := Io "{0}".

Definition bump (pid : Z) (s : Z -> Z) : Z -> Z := fun p => if p =? pid then (s p + 1) mod u64_limit else s p.

(** One call of one writer: the place it gets to, the directory and the
    counters. [None] when the code does not make this call here. *)
Definition call_step (w : Writer) (pc : Pc) (c : Call) (d : Dir) (s : Z -> Z) : option (Pc * Dir * (Z -> Z)) :=
  match pc, c with
  | Opening, CallOpen =>
      let candidate := temp_name (w_file w) (w_pid w) (s (w_pid w)) in
      let s := bump (w_pid w) s in
      match create_new candidate d with
      | Some (i, d) => Some (Writing candidate i (w_bytes w), d, s)
      | None => Some (Opening, d, s)
      end
  | Opening, CallFails => Some (Returned (Err io_error), d, bump (w_pid w) s)
  | Writing tmp i todo, CallWrite n => Some (Writing tmp i (drop n todo), append i (take n todo) d, s)
  | Writing tmp i todo, CallSync => match todo with [] => Some (Synced tmp i, sync_file i d, s) | _ :: _ => None end
  | Writing tmp i _, CallFails => Some (CleaningUp tmp, d, s)
  | Synced tmp i, CallRename => d ← rename tmp (w_file w) d; Some (Replaced tmp i, d, s)
  | Synced tmp i, CallFails => Some (CleaningUp tmp, d, s)
  | Replaced tmp i, CallSyncDir => Some (Returned (Ok tt), sync_names d, s)
  | Replaced tmp i, CallFails => Some (CleaningUp tmp, d, s)
  | CleaningUp tmp, CallRemove => Some (Returned (Err io_error), remove_file tmp d, s)
  | CleaningUp tmp, CallRemoveFails => Some (Returned (Err io_error), d, s)
  | _, _ => None
  end.

(** One call of writer [k]. *)
Definition world_step (u : World) (x : nat * Call) : option World :=
  '(w, pc) ← pcs u !! x.1;
  '(pc, d, s) ← call_step w pc x.2 (dir u) (seqs u);
  Some {| dir := d; seqs := s; pcs := <[x.1 := (w, pc)]> (pcs u) |}.

Fixpoint run_calls (calls : list (nat * Call)) (u : World) : option World :=
  match calls with
  | [] => Some u
  | x :: calls => u ← world_step u x; run_calls calls u
  end.

(** All writers about to start in a directory. *)
Definition start_world (d : Dir) (s : Z -> Z) (ws : list Writer) : World :=
  {| dir := d; seqs := s; pcs := (fun w => (w, Opening)) <$> ws |}.

(** ** What a crash leaves *)

(** Each name keeps one of the entries it had since the directory was last
    synced; files keep what was synced. *)
Definition crash_entry (d : Dir) (name : string) (e : option Node) : Prop :=
  e = names d !! name \/ exists m, m ∈ history d /\ e = m !! name.

(** ** Temporary names *)

Definition visible (name : string) : Prop := head (bytes name) <> Some (chr 46).

Lemma temp_name_hidden f pid seq : ~ visible (temp_name f pid seq).
Proof. intros H. apply H. unfold temp_name. rewrite bytes_of_bytes. reflexivity. Qed.

Lemma decimal_digits z : 0 <= z < u64_limit -> all_digits (fmt_padded 0 z)
  /\ exists n, fixed 20 z = replicate n (chr 48) ++ fmt_padded 0 z /\ (n + length (fmt_padded 0 z) = 20)%nat.
Proof.
  intros Hz. assert (fmt_padded 0 z = decimal 20 z []) as -> by done.
  destruct (decimal_fixed 20 20 z) as [Hl He]; [lia|unfold u64_limit in Hz; change (10 ^ Z.of_nat 20) with 100000000000000000000; lia|].
  split.
  - pose proof (fixed_digits 20 z) as Hf. rewrite <- He in Hf. by apply Forall_app in Hf as [_ Hf].
  - eexists. split; [symmetry; exact He|]. lia.
Qed.

Lemma decimal_inj a b : 0 <= a < u64_limit -> 0 <= b < u64_limit -> fmt_padded 0 a = fmt_padded 0 b -> a = b.
Proof.
  intros Ha Hb E. destruct (decimal_digits a Ha) as (_ & n & En & Ln). destruct (decimal_digits b Hb) as (_ & m & Em & Lm).
  rewrite E in *. assert (n = m) as -> by lia. rewrite <- Em in En.
  assert (forall z, 0 <= z < u64_limit -> digits_from 0 (fixed 20 z) = Some z) as H.
  { intros z Hz. apply digits_from_fixed. unfold u64_limit in Hz. change (10 ^ Z.of_nat 20) with 100000000000000000000. lia. }
  pose proof (H a Ha) as E1. rewrite En, (H b Hb) in E1. congruence.
Qed.

Lemma digits_no_dash l : all_digits l -> chr 45 ∉ l.
Proof. intros H Hin. pose proof (proj1 (list.Forall_forall _ _) H _ Hin) as E. vm_compute in E. discriminate. Qed.

(** The last separator splits a text in one way. *)
Lemma split_last {A} (c : A) x y x' y' : (c ∉ y) -> (c ∉ y') -> x ++ c :: y = x' ++ c :: y' -> x = x' /\ y = y'.
Proof.
  revert x'. induction x as [|a x IH]; intros [|a' x'] Hy Hy' E; simpl in E.
  - by injection E as ->.
  - injection E as -> ->. exfalso. apply Hy. rewrite elem_of_app. right. left.
  - injection E as -> <-. exfalso. apply Hy'. rewrite elem_of_app. right. left.
  - injection E as -> E. apply IH in E as [-> ->]; done.
Qed.

Lemma temp_name_inj f p q f' p' q' :
  0 <= p < u64_limit -> 0 <= q < u64_limit -> 0 <= p' < u64_limit -> 0 <= q' < u64_limit ->
  temp_name f p q = temp_name f' p' q' -> p = p' /\ q = q'.
Proof.
  intros Hp Hq Hp' Hq' E. apply of_bytes_inj in E.
  assert (forall g a b, bytes "." ++ bytes g ++ bytes ".tmp-" ++ fmt_padded 0 a ++ bytes "-" ++ fmt_padded 0 b
    = ((bytes "." ++ bytes g ++ bytes ".tmp") ++ chr 45 :: fmt_padded 0 a) ++ chr 45 :: fmt_padded 0 b) as R.
  { intros. rewrite <- !app_assoc. reflexivity. }
  rewrite !R in E. pose proof (fun z Hz => digits_no_dash _ (proj1 (decimal_digits z Hz))) as Hd.
  apply split_last in E as [E E2]; [|by apply Hd..]. apply split_last in E as [_ E1]; [|by apply Hd..].
  split; by apply decimal_inj.
Qed.

(** ** One call *)

Definition tmp_of (pc : Pc) : option string :=
  match pc with Writing t _ _ | Synced t _ | Replaced t _ | CleaningUp t => Some t | _ => None end.
(** The inode that is not published yet. *)
Definition owner_of (pc : Pc) : option nat := match pc with Writing _ i _ | Synced _ i => Some i | _ => None end.
Definition complete (w : Writer) : Inode := {| data := w_bytes w; synced := Some (w_bytes w) |}.

Definition pc_ok (d : Dir) (w : Writer) (pc : Pc) : Prop :=
  match pc with
  | Writing t i todo => names d !! t = Some (FileNode i) /\ exists x, inodes d !! i = Some x /\ data x ++ todo = w_bytes w
  | Synced t i => names d !! t = Some (FileNode i) /\ inodes d !! i = Some (complete w)
  | Replaced t _ => names d !! t = None
  | CleaningUp t => names d !! t = None \/ exists i, names d !! t = Some (FileNode i)
  | _ => True
  end.

Lemma create_new_inv n d i d' : create_new n d = Some (i, d') -> names d !! n = None /\ i = length (inodes d)
  /\ d' = {| names := <[n := FileNode i]> (names d); inodes := inodes d ++ [{| data := []; synced := None |}];
             history := <[n := FileNode i]> (names d) :: history d |}.
Proof. unfold create_new. destruct (names d !! n); [done|]. by intros [= <- <-]. Qed.

Lemma rename_inv a b d d' : rename a b d = Some d' -> exists n, names d !! a = Some n /\ names d !! b <> Some DirNode
  /\ d' = set_names (<[b := n]> (delete a (names d))) d.
Proof.
  unfold rename. destruct (names d !! a) as [n|]; [|done].
  destruct (names d !! b) as [[]|] eqn:E; try done; intros [= <-]; exists n; done.
Qed.

(** The cases of a call that is made. *)
Ltac call_cases H :=
  match type of H with call_step _ ?pc ?c ?d _ = Some (_, ?d', _) =>
    destruct pc as [|t i todo|t i|t i|t|r]; destruct c as [|m| | | | | |]; cbn [call_step] in H; try discriminate H;
    try (lazymatch type of H with context [match ?x with [] => _ | _ :: _ => _ end] => destruct x; try discriminate H end);
    [destruct (create_new _ d) as [[? ?]|] eqn:Ec in H; [apply create_new_inv in Ec as (Hnew & -> & ->)|]|..];
    try (destruct (rename _ _ d) as [?|] eqn:Er in H; cbn [mbind option_bind] in H; [|discriminate H]; apply rename_inv in Er as (node & Hsrc & Hdst & ->));
    injection H as <- <- <-
  end.

Lemma alter_inode (i j : nat) (f : Inode -> Inode) (l : list Inode) : i <> j -> alter f i l !! j = l !! j.
Proof. apply list_lookup_alter_ne. Qed.

Section calls.
Variables (w : Writer) (pc pc' : Pc) (c : Call) (d d' : Dir) (s s' : Z -> Z).
Hypothesis Hstep : call_step w pc c d s = Some (pc', d', s').

(** Only the own temporary name and the destination change. *)
Lemma call_names n : tmp_of pc <> Some n -> tmp_of pc' <> Some n -> n <> w_file w -> names d' !! n = names d !! n.
Proof using Hstep.
  intros H1 H2 H3. call_cases Hstep; cbn in *; try done.
  - rewrite lookup_insert_ne; congruence.
  - rewrite lookup_insert_ne, lookup_delete_ne; congruence.
  - unfold remove_file. destruct (names d !! t) as [[]|]; try done; cbn; rewrite lookup_delete_ne; congruence.
Qed.

(** Only the own inode changes. *)
Lemma call_inodes j : owner_of pc <> Some j -> (j < length (inodes d))%nat -> inodes d' !! j = inodes d !! j.
Proof using Hstep.
  intros H1 H2. call_cases Hstep; cbn in *; try done.
  - by rewrite lookup_app_l.
  - apply alter_inode. congruence.
  - apply alter_inode. congruence.
  - by unfold remove_file; destruct (names d !! t) as [[]|].
Qed.

Lemma call_inodes_grow : (length (inodes d) <= length (inodes d'))%nat.
Proof using Hstep.
  call_cases Hstep; cbn; rewrite ?length_app, ?length_alter; try lia.
  unfold remove_file; destruct (names d !! t) as [[]|]; cbn; lia.
Qed.

Lemma call_history h : h ∈ history d' -> h = names d' \/ h ∈ names d :: history d.
Proof using Hstep.
  assert (Hold : h ∈ history d -> h = names d' \/ h ∈ names d :: history d) by (intros H; right; by right).
  assert (Hset : history d' = names d' :: history d -> h ∈ history d' -> h = names d' \/ h ∈ names d :: history d).
  { intros -> [->|H]%elem_of_cons; auto. }
  call_cases Hstep; cbn in *; auto.
  - intros ->%list_elem_of_singleton. by left.
  - revert Hold Hset. unfold remove_file. destruct (names d !! t) as [[]|]; cbn; auto.
Qed.

Lemma call_pc_ok : pc_ok d w pc -> visible (w_file w) -> (forall t, tmp_of pc = Some t -> ~ visible t) -> pc_ok d' w pc'.
Proof using Hstep.
  intros Hok Hv Ht. call_cases Hstep; cbn in *; try done.
  - split; [apply lookup_insert_eq|]. exists {| data := []; synced := None |}.
    split; [|done]. by rewrite lookup_app_r, Nat.sub_diag by lia.
  - destruct Hok as (Hn & x & Hx & E). split; [done|].
    exists {| data := data x ++ take m todo; synced := synced x |}. rewrite list_lookup_alter_eq, Hx. split; [done|].
    cbn [data]. by rewrite <- app_assoc, take_drop.
  - destruct Hok as (Hn & x & Hx & E). split; [done|]. rewrite list_lookup_alter_eq, Hx. unfold complete. simpl.
    by rewrite <- E, app_nil_r.
  - right. destruct Hok as [Hn _]. eauto.
  - destruct Hok as (Hn & Hx). rewrite lookup_insert_ne; [apply lookup_delete_eq|].
    intros E. apply (Ht t); [done|]. by rewrite <- E.
  - right. destruct Hok as [Hn _]. eauto.
  - by left.
Qed.

(** A visible name changes only by the rename of the temporary file. *)
Lemma call_visible n : visible n -> (forall t, tmp_of pc = Some t \/ tmp_of pc' = Some t -> ~ visible t) ->
  names d' !! n = names d !! n
  \/ n = w_file w /\ exists t i, pc = Synced t i /\ pc' = Replaced t i /\ names d' !! n = names d !! t.
Proof using Hstep.
  intros Hv Ht. destruct (decide (n = w_file w)) as [->|Hn].
  2:{ left. apply call_names; [..|done]; intros E; eapply Ht; eauto. }
  assert (forall t, tmp_of pc = Some t \/ tmp_of pc' = Some t -> t <> w_file w) as Hne.
  { intros t H ->. by eapply Ht. }
  call_cases Hstep; cbn in *; try (by left).
  - left. rewrite lookup_insert_ne; [done|]. apply Hne. by right.
  - right. split; [done|]. exists t, i. rewrite lookup_insert_eq. by rewrite Hsrc.
  - left. unfold remove_file. destruct (names d !! t) as [[]|]; try done; cbn; rewrite lookup_delete_ne; [done|apply Hne; by left|done|apply Hne; by left|done|apply Hne; by left].
Qed.

Lemma call_tmp n : tmp_of pc' = Some n ->
  tmp_of pc = Some n \/ pc = Opening /\ n = temp_name (w_file w) (w_pid w) (s (w_pid w)) /\ names d !! n = None.
Proof using Hstep. intros Ht. call_cases Hstep; cbn in *; simplify_eq; auto. Qed.

Lemma call_owner j : owner_of pc' = Some j -> owner_of pc = Some j \/ pc = Opening /\ j = length (inodes d).
Proof using Hstep. intros Hj. call_cases Hstep; cbn in *; simplify_eq; auto. Qed.

(** A temporary name that is given up is gone, unless it could not be removed. *)
Lemma call_tmp_gone n : c <> CallRemoveFails -> pc_ok d w pc -> tmp_of pc = Some n -> tmp_of pc' = None -> names d' !! n = None.
Proof using Hstep.
  intros Hc Hok Ht Ht'. call_cases Hstep; cbn in *; simplify_eq; try done.
  unfold remove_file. destruct Hok as [E|[i E]]; rewrite E; cbn; [done|apply lookup_delete_eq].
Qed.

(** The counters only count up. *)
Lemma call_seqs p : 0 <= s p -> s p + 1 < u64_limit -> s p <= s' p <= s p + 1.
Proof using Hstep.
  intros H1 H2. assert (s p <= bump (w_pid w) s p <= s p + 1).
  { unfold bump. destruct (p =? w_pid w); [|lia]. rewrite Z.mod_small; lia. }
  call_cases Hstep; lia || done.
Qed.

Lemma call_seq_taken n : 0 <= s (w_pid w) -> s (w_pid w) + 1 < u64_limit -> tmp_of pc' = Some n -> tmp_of pc = None -> s (w_pid w) < s' (w_pid w).
Proof using Hstep.
  intros H1 H2 Ht Ht'. assert (s (w_pid w) < bump (w_pid w) s (w_pid w)).
  { unfold bump. rewrite Z.eqb_refl, Z.mod_small; lia. }
  call_cases Hstep; cbn in *; done.
Qed.

Lemma call_returns_ok : pc' = Returned (Ok tt) -> (exists t i, pc = Replaced t i) /\ d' = sync_names d.
Proof using Hstep. intros E. call_cases Hstep; cbn in *; simplify_eq; eauto. Qed.

Lemma call_replaced n j : pc' = Replaced n j -> pc = Synced n j.
Proof using Hstep. intros E. call_cases Hstep; cbn in *; by simplify_eq. Qed.
End calls.

(** ** The invariant of all writers *)

Definition writer_ok (w : Writer) : Prop := visible (w_file w) /\ 0 <= w_pid w < u32_limit.

(** An entry that is the complete file of some writer. *)
Definition published (d0 : Dir) (ws : list Writer) (d : Dir) (n : string) (e : option Node) : Prop :=
  exists w i, w ∈ ws /\ w_file w = n /\ e = Some (FileNode i) /\ (length (inodes d0) <= i)%nat /\ inodes d !! i = Some (complete w).

Record writers_inv (d0 : Dir) (ws : list Writer) (u : World) : Prop := {
  wi_writers : (pcs u).*1 = ws;
  wi_old : forall i, (i < length (inodes d0))%nat -> inodes (dir u) !! i = inodes d0 !! i;
  wi_grow : (length (inodes d0) <= length (inodes (dir u)))%nat;
  wi_pc : forall k w pc, pcs u !! k = Some (w, pc) -> pc_ok (dir u) w pc;
  wi_tmp : forall k w pc t, pcs u !! k = Some (w, pc) -> tmp_of pc = Some t ->
    exists q, 0 <= q < seqs u (w_pid w) /\ t = temp_name (w_file w) (w_pid w) q;
  wi_tmp_distinct : forall j k w pc w' pc' t, j <> k -> pcs u !! j = Some (w, pc) -> pcs u !! k = Some (w', pc') ->
    tmp_of pc = Some t -> tmp_of pc' <> Some t;
  wi_owned : forall k w pc i, pcs u !! k = Some (w, pc) -> owner_of pc = Some i ->
    (length (inodes d0) <= i < length (inodes (dir u)))%nat
    /\ (forall j w' pc', j <> k -> pcs u !! j = Some (w', pc') -> owner_of pc' <> Some i)
    /\ forall n, visible n -> ~ crash_entry (dir u) n (Some (FileNode i));
  wi_names : forall n e, visible n -> crash_entry (dir u) n e -> crash_entry d0 n e \/ published d0 ws (dir u) n e;
  wi_replaced : forall k w t i, pcs u !! k = Some (w, Replaced t i) -> published d0 ws (dir u) (w_file w) (names (dir u) !! w_file w);
  wi_ok : forall k w e, pcs u !! k = Some (w, Returned (Ok tt)) -> crash_entry (dir u) (w_file w) e ->
    published d0 ws (dir u) (w_file w) e
}.

Lemma crash_entry_names d n : crash_entry d n (names d !! n).
Proof. by left. Qed.

(** What a crash may leave after a call: what it could before, or the new entry. *)
Lemma crash_entry_call w pc c d s pc' d' s' n e : call_step w pc c d s = Some (pc', d', s') ->
  crash_entry d' n e -> e = names d' !! n \/ crash_entry d n e.
Proof.
  intros Hs [->|(m & Hm & ->)]; [by left|]. apply (call_history _ _ _ _ _ _ _ _ Hs) in Hm as [->|[->|Hm]%elem_of_cons].
  - by left.
  - right. by left.
  - right. right. eauto.
Qed.

Section preservation.
Variables (d0 : Dir) (ws : list Writer) (u : World).
Hypothesis Hws : Forall writer_ok ws.
Hypothesis Hinv : writers_inv d0 ws u.
Hypothesis Hd0 : forall n i, crash_entry d0 n (Some (FileNode i)) -> (i < length (inodes d0))%nat.
Hypothesis Hseq : forall p, 0 <= seqs u p /\ seqs u p + 1 < u64_limit.

Variables (k : nat) (w : Writer) (pc pc' : Pc) (c : Call) (d' : Dir) (s' : Z -> Z).
Hypothesis Hk : pcs u !! k = Some (w, pc).
Hypothesis Hstep : call_step w pc c (dir u) (seqs u) = Some (pc', d', s').

Let u' : World := {| dir := d'; seqs := s'; pcs := <[k := (w, pc')]> (pcs u) |}.

Lemma writer_elem j v q : pcs u !! j = Some (v, q) -> v ∈ ws.
Proof using Hinv.
  intros H. rewrite <- (wi_writers _ _ _ Hinv). apply list_elem_of_fmap. exists (v, q). split; [done|]. by eapply list_elem_of_lookup_2.
Qed.
Lemma writer_good j v q : pcs u !! j = Some (v, q) -> writer_ok v.
Proof using Hinv Hws. intros H%writer_elem. by eapply (proj1 (list.Forall_forall _ _) Hws). Qed.

Lemma lookup_pcs j v q : pcs u' !! j = Some (v, q) -> (j = k /\ v = w /\ q = pc') \/ (j <> k /\ pcs u !! j = Some (v, q)).
Proof using Hk.
  unfold u'. cbn [pcs]. destruct (decide (j = k)) as [->|Hj].
  - rewrite list_lookup_insert_eq by (by eapply lookup_lt_Some). intros [= <- <-]. by left.
  - rewrite list_lookup_insert_ne by done. by right.
Qed.

Lemma tmp_hidden j v q t : pcs u !! j = Some (v, q) -> tmp_of q = Some t -> ~ visible t.
Proof using Hinv. intros H Ht. destruct (wi_tmp _ _ _ Hinv _ _ _ _ H Ht) as (x & _ & ->). apply temp_name_hidden. Qed.

Lemma new_tmp_hidden t : tmp_of pc = Some t \/ tmp_of pc' = Some t -> ~ visible t.
Proof using Hinv Hk Hstep.
  intros [H|H]; [by eapply tmp_hidden|]. apply (call_tmp _ _ _ _ _ _ _ _ Hstep) in H as [H|(_ & -> & _)]; [by eapply tmp_hidden|apply temp_name_hidden].
Qed.

(** The name the writer takes is no other writer's. *)
Lemma tmp_not_shared j v q t : j <> k -> pcs u !! j = Some (v, q) -> tmp_of q = Some t -> tmp_of pc' <> Some t.
Proof using Hinv Hk Hstep Hseq Hws.
  intros Hj Hv Ht Ht'. apply (call_tmp _ _ _ _ _ _ _ _ Hstep) in Ht' as [H|(_ & E & _)].
  - by eapply (wi_tmp_distinct _ _ _ Hinv j k).
  - destruct (wi_tmp _ _ _ Hinv _ _ _ _ Hv Ht) as (x & Hx & ->).
    destruct (writer_good _ _ _ Hv) as [_ Hp]. destruct (writer_good _ _ _ Hk) as [_ Hp'].
    pose proof (Hseq (w_pid v)). pose proof (Hseq (w_pid w)). unfold u32_limit, u64_limit in *.
    apply temp_name_inj in E as [E1 E2]; [|unfold u64_limit; lia..]. rewrite E1 in *. lia.
Qed.

(** A name or an inode of another writer is left alone. *)
Lemma other_name j v q t : j <> k -> pcs u !! j = Some (v, q) -> tmp_of q = Some t -> names d' !! t = names (dir u) !! t.
Proof using Hinv Hk Hstep Hseq Hws.
  intros Hj Hv Ht. eapply call_names; [exact Hstep|..].
  - intros H. by eapply (wi_tmp_distinct _ _ _ Hinv j k).
  - by eapply tmp_not_shared.
  - intros ->. eapply tmp_hidden; [exact Hv|exact Ht|]. by apply (writer_good _ _ _ Hk).
Qed.

(** Whatever a visible name stands for keeps its content. *)
Lemma visible_inode n i : visible n -> crash_entry (dir u) n (Some (FileNode i)) -> (i < length (inodes (dir u)))%nat ->
  inodes d' !! i = inodes (dir u) !! i.
Proof using Hinv Hk Hstep.
  intros Hn Hc Hi. eapply call_inodes; [exact Hstep| |done]. intros E. by apply (wi_owned _ _ _ Hinv _ _ _ _ Hk E) in Hc.
Qed.

Lemma published_stable n e : visible n -> crash_entry (dir u) n e -> published d0 ws (dir u) n e -> published d0 ws d' n e.
Proof using Hinv Hk Hstep.
  intros Hn Hc (v & i & Hv & Hf & -> & Hi & Hx). exists v, i. repeat split; try done.
  rewrite (visible_inode n i); [done..|]. by eapply lookup_lt_Some.
Qed.

(** A changed visible name is published. *)
Lemma changed_published n : visible n -> names d' !! n = names (dir u) !! n
  \/ published d0 ws d' n (names d' !! n) /\ exists t i, pc = Synced t i /\ names d' !! n = Some (FileNode i).
Proof using Hinv Hk Hstep.
  intros Hn. destruct (call_visible _ _ _ _ _ _ _ _ Hstep n Hn new_tmp_hidden) as [E|(-> & t & i & -> & E' & E)]; [by left|].
  right. pose proof (wi_pc _ _ _ Hinv _ _ _ Hk) as (H1 & H2). cbn in H1. rewrite H1 in E. split; [|eauto].
  destruct (wi_owned _ _ _ Hinv _ _ _ i Hk eq_refl) as ([Hi Hl] & _).
  exists w, i. repeat split; [by eapply writer_elem|done|done|].
  clear E Hn. revert Hstep. rewrite E'. cbn. destruct c; try done. destruct (rename _ _ _) eqn:Er; [|done]. cbn. intros [= <- <-].
  apply rename_inv in Er as (? & _ & _ & ->). done.
Qed.

Lemma entry_stable n e : visible n -> crash_entry d' n e -> crash_entry (dir u) n e \/ published d0 ws d' n e.
Proof using Hinv Hk Hstep.
  intros Hn He. destruct (crash_entry_call _ _ _ _ _ _ _ _ _ _ Hstep He) as [->|H]; [|by left].
  destruct (changed_published n Hn) as [->|[H _]]; [left; apply crash_entry_names|by right].
Qed.

Lemma owned_preserved j v q i : pcs u' !! j = Some (v, q) -> owner_of q = Some i ->
    (length (inodes d0) <= i < length (inodes d'))%nat
    /\ (forall j' v' q', j' <> j -> pcs u' !! j' = Some (v', q') -> owner_of q' <> Some i)
    /\ forall n, visible n -> ~ crash_entry d' n (Some (FileNode i)).
Proof using Hinv Hk Hstep Hd0.
  pose proof (call_inodes_grow _ _ _ _ _ _ _ _ Hstep) as Hg. pose proof (wi_grow _ _ _ Hinv) as Hg0.
  assert (Hlt : forall j v q i, pcs u !! j = Some (v, q) -> owner_of q = Some i -> (i < length (inodes (dir u)))%nat).
  { intros ? ? ? ? H1 H2. apply (wi_owned _ _ _ Hinv _ _ _ _ H1 H2). }
  assert (Hfresh : forall n, visible n -> ~ crash_entry (dir u) n (Some (FileNode (length (inodes (dir u)))))).
  { intros n Hn He. destruct (wi_names _ _ _ Hinv _ _ Hn He) as [H%Hd0|(? & y & _ & _ & [= <-] & _ & H%lookup_lt_Some)]; lia. }
  assert (Hnot : forall n, visible n -> crash_entry d' n (Some (FileNode i)) -> crash_entry (dir u) n (Some (FileNode i))
            \/ exists t, pc = Synced t i /\ names d' !! n = Some (FileNode i)).
  { intros n Hn He. destruct (crash_entry_call _ _ _ _ _ _ _ _ _ _ Hstep He) as [E|H]; [|by left].
    destruct (changed_published n Hn) as [E'|[_ (t & x & -> & E')]]; [left; left; congruence|].
    right. exists t. rewrite E' in E. injection E as ->. done. }
  intros [(-> & -> & ->)|[Hj Hv]]%lookup_pcs Ho.
  - destruct (call_owner _ _ _ _ _ _ _ _ Hstep _ Ho) as [Ho'|[Eo ->]].
    + destruct (wi_owned _ _ _ Hinv _ _ _ _ Hk Ho') as (H1 & H2 & H3). split; [lia|]. split.
      * intros j' v' q' Hne [(-> & _)|[_ H]]%lookup_pcs; [done|by eapply H2].
      * intros n Hn He. destruct (Hnot n Hn He) as [He'|(x & E & _)]; [by eapply H3|].
        clear -Hstep E Ho. rename i into y. call_cases Hstep; done.
    + assert (length (inodes (dir u)) < length (inodes d'))%nat.
      { clear -Hstep Eo Ho. call_cases Hstep; cbn in *; try done. rewrite length_app. cbn. lia. }
      split; [lia|]. split.
      * intros j' v' q' Hne [(-> & _)|[_ H']]%lookup_pcs Ho'; [done|]. eapply Hlt in H'; [|exact Ho']. lia.
      * intros n Hn He. destruct (Hnot n Hn He) as [He'|(t & E & _)]; [by eapply Hfresh|by rewrite Eo in E].
  - destruct (wi_owned _ _ _ Hinv _ _ _ _ Hv Ho) as (H1 & H2 & H3). split; [lia|]. split.
    + intros j' v' q' Hne [(-> & -> & ->)|[_ H']]%lookup_pcs Ho'; [|by eapply H2].
      destruct (call_owner _ _ _ _ _ _ _ _ Hstep _ Ho') as [Ho''|[_ ->]]; [by eapply (H2 k)|lia].
    + intros n Hn He. destruct (Hnot n Hn He) as [He'|(t & E & _)]; [by eapply H3|]. subst pc. by eapply (H2 k).
Qed.

Lemma writers_inv_step : writers_inv d0 ws u'.
Proof using All.
  pose proof (call_inodes_grow _ _ _ _ _ _ _ _ Hstep) as Hg. pose proof (wi_grow _ _ _ Hinv) as Hg0.
  assert (Hsq : forall p, seqs u p <= s' p). { intros p. pose proof (Hseq p). eapply call_seqs; [exact Hstep|lia..]. }
  assert (Hvis : forall j v q, pcs u !! j = Some (v, q) -> visible (w_file v)). { intros j v q H. by apply (writer_good _ _ _ H). }
  split; change (dir u') with d'; change (seqs u') with s'.
  - rewrite <- (wi_writers _ _ _ Hinv). unfold u'. cbn [pcs]. rewrite list_fmap_insert. apply list_insert_id. by rewrite list_lookup_fmap, Hk.
  - intros i Hi. rewrite <- (wi_old _ _ _ Hinv) by done. eapply call_inodes; [exact Hstep| |lia].
    intros E. apply (wi_owned _ _ _ Hinv _ _ _ _ Hk) in E as [? _]. lia.
  - lia.
  - intros j v q [(-> & -> & ->)|[Hj Hv]]%lookup_pcs.
    + eapply call_pc_ok; [exact Hstep|by eapply (wi_pc _ _ _ Hinv)|by eapply Hvis|]. intros t Ht. by eapply tmp_hidden.
    + pose proof (wi_pc _ _ _ Hinv _ _ _ Hv) as Hok. pose proof (other_name j v q) as Hn.
      assert (Hi : forall i, owner_of q = Some i -> inodes d' !! i = inodes (dir u) !! i).
      { intros i Hi. destruct (wi_owned _ _ _ Hinv _ _ _ _ Hv Hi) as (H1 & H2 & _).
        eapply call_inodes; [exact Hstep|by eapply (H2 k)|lia]. }
      destruct q as [|t i todo|t i|t i|t|r]; cbn in *; rewrite ?(Hn t), ?(Hi i) by done; done.
  - intros j v q t [(-> & -> & ->)|[Hj Hv]]%lookup_pcs Ht.
    + destruct (call_tmp _ _ _ _ _ _ _ _ Hstep _ Ht) as [H|(E & -> & _)].
      * destruct (wi_tmp _ _ _ Hinv _ _ _ _ Hk H) as (x & Hx & ->). pose proof (Hsq (w_pid w)). exists x. split; [lia|done].
      * exists (seqs u (w_pid w)). pose proof (Hseq (w_pid w)). split; [|done]. split; [lia|].
        eapply call_seq_taken; [exact Hstep|lia|lia|exact Ht|by subst pc].
    + destruct (wi_tmp _ _ _ Hinv _ _ _ _ Hv Ht) as (x & Hx & ->). pose proof (Hsq (w_pid v)). exists x. split; [lia|done].
  - intros j l v q v' q' t Hne [(-> & -> & ->)|[Hj Hv]]%lookup_pcs [(-> & -> & ->)|[Hl Hv']]%lookup_pcs Ht Ht'; [done| | |].
    + by eapply (tmp_not_shared l).
    + by eapply (tmp_not_shared j).
    + by eapply (wi_tmp_distinct _ _ _ Hinv j l).
  - intros j v q i. apply owned_preserved.
  - intros n e Hn He. destruct (entry_stable n e Hn He) as [H|H]; [|by right].
    destruct (wi_names _ _ _ Hinv _ _ Hn H) as [H'|H']; [by left|]. right. by apply published_stable.
  - intros j v t i Hj. apply lookup_pcs in Hj as [(-> & -> & E)|[Hj Hv]].
    + assert (Hr : names d' !! w_file w = Some (FileNode i)).
      { pose proof (wi_pc _ _ _ Hinv _ _ _ Hk) as Hok. symmetry in E. pose proof (call_replaced _ _ _ _ _ _ _ _ Hstep _ _ E) as Epc.
        rewrite Epc in Hok. destruct Hok as [Hok _]. clear -Hstep Hok Epc E. revert Hstep. rewrite Epc, E. destruct c; try done. cbn.
        destruct (rename _ _ _) eqn:Er; [|done]. cbn. intros [= <- <-]. apply rename_inv in Er as (m & Hm & _ & ->). cbn. rewrite lookup_insert_eq. congruence. }
      destruct (changed_published (w_file w)) as [E'|[H _]]; [by eapply Hvis| |done]. exfalso.
      symmetry in E. apply (call_replaced _ _ _ _ _ _ _ _ Hstep) in E.
      apply (wi_owned _ _ _ Hinv _ _ _ i Hk ltac:(by rewrite E)) with (w_file w); [by eapply Hvis|]. left. congruence.
    + destruct (changed_published (w_file v)) as [->|[H _]]; [by eapply Hvis| |done].
      apply published_stable; [by eapply Hvis|apply crash_entry_names|by eapply (wi_replaced _ _ _ Hinv)].
  - intros j v e Hj He. apply lookup_pcs in Hj as [(-> & -> & E)|[Hj Hv]].
    + symmetry in E. apply (call_returns_ok _ _ _ _ _ _ _ _ Hstep) in E as [(t & i & ->) ->].
      destruct He as [->|(m & Hm & ->)]; [|cbn in Hm; apply list_elem_of_singleton in Hm as ->]; by eapply (wi_replaced _ _ _ Hinv).
    + destruct (entry_stable (w_file v) e) as [H|H]; [by eapply Hvis|done| |done].
      apply published_stable; [by eapply Hvis|done|by eapply (wi_ok _ _ _ Hinv)].
Qed.
End preservation.

(** ** Runs *)

Definition dir_wf (d : Dir) : Prop := forall n i, crash_entry d n (Some (FileNode i)) -> (i < length (inodes d))%nat.
(** The counters do not wrap during a run of [n] calls. *)
Definition seqs_fit (s : Z -> Z) (n : nat) : Prop := forall p, 0 <= s p /\ s p + Z.of_nat n < u64_limit.

Lemma world_step_inv u k c u' : world_step u (k, c) = Some u' -> exists w pc pc' d' s',
  pcs u !! k = Some (w, pc) /\ call_step w pc c (dir u) (seqs u) = Some (pc', d', s')
  /\ u' = {| dir := d'; seqs := s'; pcs := <[k := (w, pc')]> (pcs u) |}.
Proof.
  unfold world_step. cbn. destruct (pcs u !! k) as [[w pc]|]; [|done]. cbn. intros H.
  destruct (call_step w pc c (dir u) (seqs u)) as [[[pc' d'] s']|] eqn:E; [|done]. injection H as <-. by exists w, pc, pc', d', s'.
Qed.

Lemma start_inv d s ws : writers_inv d ws (start_world d s ws).
Proof.
  assert (H : forall k w pc, pcs (start_world d s ws) !! k = Some (w, pc) -> pc = Opening).
  { intros k w pc. cbn. rewrite list_lookup_fmap. destruct (ws !! k); [|done]. by intros [= <- <-]. }
  split; cbn [dir seqs start_world].
  - cbn. rewrite <- list_fmap_compose. apply list_fmap_id.
  - done.
  - lia.
  - by intros k w pc ->%H.
  - by intros k w pc t ->%H.
  - by intros j k w pc w' pc' t _ ->%H.
  - by intros k w pc i ->%H.
  - by left.
  - by intros k w t i ?%H.
  - by intros k w e ?%H.
Qed.

(** Induction over the calls of a run: what holds before and is kept by every
    call holds after. *)
Lemma run_calls_ind (P : World -> Prop) d0 ws : Forall writer_ok ws -> dir_wf d0 ->
  forall calls u u', 
  (forall u k c u', (k, c) ∈ calls -> writers_inv d0 ws u -> seqs_fit (seqs u) 1 -> P u -> world_step u (k, c) = Some u' -> P u') ->
  writers_inv d0 ws u -> seqs_fit (seqs u) (length calls) -> P u ->
  run_calls calls u = Some u' -> writers_inv d0 ws u' /\ P u'.
Proof.
  intros Hws Hd. induction calls as [|[k c] calls IH]; intros u u' Hstep Hinv Hfit HP; cbn [run_calls length] in *; [by intros [= <-]|].
  destruct (world_step u (k, c)) as [u1|] eqn:E; [|done]. cbn [mbind option_bind]. intros Hrun.
  assert (Hfit1 : seqs_fit (seqs u) 1). { intros p. specialize (Hfit p). lia. }
  assert (HP1 : P u1). { eapply Hstep; [by left|done|done|exact HP|exact E]. }
  apply world_step_inv in E as (w & pc & pc' & d' & s' & Hk & Hc & ->). apply IH in Hrun; [done| | | |done].
  - intros v j c' v' Hin. apply Hstep. by right.
  - eapply writers_inv_step; done.
  - intros p. cbn. specialize (Hfit p). pose proof (call_seqs _ _ _ _ _ _ _ _ Hc p). lia.
Qed.

Lemma run_calls_inv d0 ws calls u u' : Forall writer_ok ws -> dir_wf d0 -> writers_inv d0 ws u ->
  seqs_fit (seqs u) (length calls) -> run_calls calls u = Some u' -> writers_inv d0 ws u'.
Proof. intros Hws Hd Hinv Hfit Hr. by destruct (run_calls_ind (fun _ => True) d0 ws Hws Hd calls u u'). Qed.

Lemma run_calls_app c1 c2 u : run_calls (c1 ++ c2) u = (u1 ← run_calls c1 u; run_calls c2 u1).
Proof. revert u. induction c1 as [|x c1 IH]; intros u; [done|]. cbn. destruct (world_step u x); [apply IH|done]. Qed.

Lemma run_calls_rest c1 c2 u u1 u2 : run_calls c1 u = Some u1 -> run_calls (c1 ++ c2) u = Some u2 -> run_calls c2 u1 = Some u2.
Proof. intros H1 H2. by rewrite run_calls_app, H1 in H2. Qed.

Lemma run_calls_seqs d0 ws calls u u' : Forall writer_ok ws -> dir_wf d0 -> writers_inv d0 ws u ->
  seqs_fit (seqs u) (length calls) -> run_calls calls u = Some u' -> forall p, 0 <= seqs u p <= seqs u' p /\ seqs u' p <= seqs u p + Z.of_nat (length calls).
Proof.
  revert u. induction calls as [|[k c] calls IH]; intros u Hws Hd Hinv Hfit; cbn [run_calls length] in *.
  { intros [= <-] p. specialize (Hfit p). lia. }
  destruct (world_step u (k, c)) as [u1|] eqn:E; [|done]. cbn [mbind option_bind]. intros Hrun p.
  assert (writers_inv d0 ws u1).
  { eapply (run_calls_inv d0 ws [(k, c)]); [done..| |cbn; by rewrite E]. intros q. specialize (Hfit q). cbn. lia. }
  assert (Hq : forall q, seqs u q <= seqs u1 q <= seqs u q + 1).
  { intros q. apply world_step_inv in E as (w & pc & pc' & d' & s' & Hk & Hc & ->). specialize (Hfit q). eapply call_seqs; [exact Hc|lia..]. }
  specialize (IH u1). pose proof (Hq p). pose proof (Hfit p). destruct IH with p; try done; [|lia].
  intros q. specialize (Hfit q). specialize (Hq q). lia.
Qed.

(** What a visible name stands for keeps its content, whoever is writing. *)
Lemma published_file_stable d0 ws calls u u' n i : Forall writer_ok ws -> dir_wf d0 -> writers_inv d0 ws u ->
  seqs_fit (seqs u) (length calls) -> run_calls calls u = Some u' -> visible n -> names (dir u) !! n = Some (FileNode i) ->
  inodes (dir u') !! i = inodes (dir u) !! i.
Proof.
  intros Hws Hd Hinv Hfit Hr Hn Hi.
  assert (Hl : (i < length (inodes (dir u)))%nat).
  { destruct (wi_names _ _ _ Hinv n (Some (FileNode i))) as [H|(v & j & _ & _ & [= <-] & _ & H)]; [done|left; congruence| |by eapply lookup_lt_Some].
    apply Hd in H. pose proof (wi_grow _ _ _ Hinv). lia. }
  set (P := fun v : World => inodes (dir v) !! i = inodes (dir u) !! i /\ (i < length (inodes (dir v)))%nat
              /\ forall k w pc, pcs v !! k = Some (w, pc) -> owner_of pc <> Some i).
  destruct (run_calls_ind P d0 ws Hws Hd calls u u') as [_ [HP _]]; try done.
  - clear. intros v k c v' _ Hinv Hs (HP & Hl & Ho) (w & pc & pc' & d' & s' & Hk & Hc & ->)%world_step_inv. unfold P. cbn [dir pcs].
    pose proof (call_inodes_grow _ _ _ _ _ _ _ _ Hc). split; [|split; [lia|]].
    + rewrite <- HP. eapply call_inodes; [exact Hc|by eapply Ho|done].
    + intros j x q [(-> & -> & ->)|[Hj Hv]]%(lookup_pcs v k w pc pc' d' s' Hk) Hq; [|by eapply Ho].
      destruct (call_owner _ _ _ _ _ _ _ _ Hc _ Hq) as [H1|[_ ->]]; [by eapply Ho|lia].
  - split; [done|split; [done|]]. intros k w pc Hk Ho. destruct (wi_owned _ _ _ Hinv _ _ _ _ Hk Ho) as (_ & _ & H).
    eapply H; [exact Hn|]. left. congruence.
Qed.

(** C14: atomic publication. While any number of writers replace files of a
    directory, their system calls interleaved in any order and failing
    anywhere, at every moment, also when the machine stops there: a
    destination is what it was before, its content untouched, or the file of
    some writer with exactly the bytes given to that writer, all of them
    synced; a file that a destination stands for never changes afterwards, so
    that a reader that has it open keeps reading one complete version; and
    once a call has returned success no crash brings back the old entry. *)
Theorem atomic_publication d s ws calls1 u1 calls2 u2 :
  Forall writer_ok ws -> dir_wf d -> seqs_fit s (length calls1 + length calls2) ->
  run_calls calls1 (start_world d s ws) = Some u1 -> run_calls calls2 u1 = Some u2 ->
  (forall n e, visible n -> crash_entry (dir u1) n e ->
     crash_entry d n e /\ (forall i, e = Some (FileNode i) -> inodes (dir u1) !! i = inodes d !! i) \/ published d ws (dir u1) n e)
  /\ (forall n i, visible n -> names (dir u1) !! n = Some (FileNode i) -> inodes (dir u2) !! i = inodes (dir u1) !! i)
  /\ (forall k w e, pcs u1 !! k = Some (w, Returned (Ok tt)) -> crash_entry (dir u1) (w_file w) e -> published d ws (dir u1) (w_file w) e).
Proof.
  intros Hws Hd Hfit H1 H2. pose proof (start_inv d s ws) as Hs.
  assert (Hfit1 : seqs_fit (seqs (start_world d s ws)) (length calls1)). { intros p. specialize (Hfit p). cbn. lia. }
  pose proof (run_calls_inv d ws _ _ _ Hws Hd Hs Hfit1 H1) as Hinv.
  split; [|split].
  - intros n e Hn He. destruct (wi_names _ _ _ Hinv _ _ Hn He) as [H|H]; [left|by right]. split; [done|].
    intros i ->. apply (wi_old _ _ _ Hinv). by eapply Hd.
  - intros n i. eapply published_file_stable; try done. intros p.
    pose proof (run_calls_seqs d ws _ _ _ Hws Hd Hs Hfit1 H1 p) as Hq. specialize (Hfit p). cbn in Hq. lia.
  - apply (wi_ok _ _ _ Hinv).
Qed.

(** ** Nothing is left behind *)

Definition returned (pc : Pc) : Prop := match pc with Returned _ => True | _ => False end.

(** A hidden name is as before, or the temporary file of a writer at work. *)
Record hidden_inv (d0 : Dir) (u : World) : Prop := {
  hi_new : forall k w pc t, pcs u !! k = Some (w, pc) -> tmp_of pc = Some t -> names d0 !! t = None;
  hi_names : forall n, ~ visible n -> names (dir u) !! n = names d0 !! n
    \/ exists k w pc, pcs u !! k = Some (w, pc) /\ tmp_of pc = Some n
}.

Lemma hidden_inv_step d0 ws u k c u' : Forall writer_ok ws -> c <> CallRemoveFails -> writers_inv d0 ws u -> hidden_inv d0 u ->
  world_step u (k, c) = Some u' -> hidden_inv d0 u'.
Proof.
  intros Hws Hc Hinv [Hnew Hh] (w & pc & pc' & d' & s' & Hk & Hs & ->)%world_step_inv.
  pose proof (lookup_pcs u k w pc pc' d' s' Hk) as Hlk. cbn [pcs] in Hlk.
  assert (Hself : <[k:=(w, pc')]> (pcs u) !! k = Some (w, pc')) by (apply list_lookup_insert_eq; by eapply lookup_lt_Some).
  split; cbn [dir pcs].
  - intros j v q t [(-> & -> & ->)|[Hj Hv]]%Hlk Ht; [|by eapply Hnew].
    destruct (call_tmp _ _ _ _ _ _ _ _ Hs _ Ht) as [H|(_ & E & Hnone)]; [by eapply Hnew|].
    destruct (Hh t) as [<-|(j & v & q & Hj & Hq)]; [rewrite E; apply temp_name_hidden|done|by eapply Hnew].
  - intros n Hn. destruct (decide (tmp_of pc' = Some n)) as [E|E]; [right; by eauto|].
    destruct (decide (tmp_of pc = Some n)) as [E1|E1].
    + left. rewrite (Hnew _ _ _ _ Hk E1). destruct (tmp_of pc') as [t|] eqn:Et.
      * destruct (call_tmp _ _ _ _ _ _ _ _ Hs _ Et) as [H|(-> & _)]; [congruence|done].
      * eapply call_tmp_gone; [exact Hs|done|by eapply (wi_pc _ _ _ Hinv)|done|done].
    + rewrite (call_names _ _ _ _ _ _ _ _ Hs n); [|done|done|].
      * destruct (Hh n Hn) as [H|(j & v & q & Hj & Hq)]; [by left|right]. exists j, v, q. split; [|done].
        rewrite list_lookup_insert_ne; [done|]. intros <-. congruence.
      * intros ->. apply Hn. by apply (writer_good d0 ws u Hws Hinv k w pc Hk).
Qed.

(** When every writer has returned and no removal of a temporary file
    failed, the hidden names of the directory are those it had before: no
    temporary file is left by a success or by a failure at any point, and no
    hidden file of anyone else is touched. *)
Theorem no_temporary_left d s ws calls u :
  Forall writer_ok ws -> dir_wf d -> seqs_fit s (length calls) -> run_calls calls (start_world d s ws) = Some u ->
  Forall (fun x => x.2 <> CallRemoveFails) calls -> Forall (fun x => returned x.2) (pcs u) ->
  forall n, ~ visible n -> names (dir u) !! n = names d !! n.
Proof.
  intros Hws Hd Hfit Hr Hc Hret n Hn.
  destruct (run_calls_ind (hidden_inv d) d ws Hws Hd calls (start_world d s ws) u) as [_ H]; [|apply start_inv|done| |done|].
  - intros v k c v' Hin Hinv _ Hh Hstep. eapply hidden_inv_step; [done| |done..].
    by eapply (proj1 (list.Forall_forall _ _) Hc (k, c)).
  - split; cbn; [|by left]. intros k w pc t Hk. rewrite list_lookup_fmap in Hk. destruct (ws !! k); [|done]. by injection Hk as <- <-.
  - destruct (hi_names _ _ H n Hn) as [|(k & w & pc & Hk & Ht)]; [done|].
    apply list_elem_of_lookup_2 in Hk. apply (proj1 (list.Forall_forall _ _) Hret) in Hk. by destruct pc.
Qed.

(** ** One writer alone *)

(** The entries of a directory, as one who lists and reads them finds them. *)
Inductive DirEntry := RegularFile (content : list byte) | SymlinkEntry | DirectoryEntry | SpecialEntry.

Definition entry_of (l : list Inode) (n : Node) : DirEntry :=
  match n with
  | FileNode i => RegularFile (default [] (data <$> l !! i))
  | LinkNode => SymlinkEntry
  | DirNode => DirectoryEntry
  | SpecialNode => SpecialEntry
  end.
Definition listing (d : Dir) : gmap string DirEntry := entry_of (inodes d) <$> names d.

(** The next call of a writer when none fails that need not. *)
Definition next_call (w : Writer) (pc : Pc) (d : Dir) : Call :=
  match pc with
  | Opening => CallOpen
  | Writing _ _ [] => CallSync
  | Writing _ _ todo => CallWrite (length todo)
  | Synced _ _ => match names d !! w_file w with Some DirNode => CallFails | _ => CallRename end
  | Replaced _ _ => CallSyncDir
  | _ => CallRemove
  end.

(** [atomic_write_bytes] without interference. *)
Fixpoint alone (fuel : nat) (u : World) : option (RwResult unit * Dir) :=
  '(w, pc) ← pcs u !! 0%nat;
  match pc with
  | Returned r => Some (r, dir u)
  | _ => match fuel with O => None | S fuel => u ← world_step u (0%nat, next_call w pc (dir u)); alone fuel u end
  end.

(** How a call of [atomic_write_bytes] ends: all its system calls went
    through; one failed before the rename, and the temporary file may be left
    behind when it cannot be removed either, with some of the bytes; or the
    directory could not be synced after the rename. *)
Inductive WriteFault :=
| NoFault
| BeforeRename (left_behind : option (Z * Z * nat))     (* pid, seq and the bytes written *)
| AfterRename.

Definition leave_temp (name : string) (content : list byte) (left_behind : option (Z * Z * nat)) (m : gmap string DirEntry) : gmap string DirEntry :=
  match left_behind with
  | Some (pid, seq, n) =>
      let tmp := temp_name name pid seq in
      match m !! tmp with None => <[tmp := RegularFile (take n content)]> m | Some _ => m end
  | None => m
  end.

(** The effect of the whole call on the entries of the directory. *)
Definition replace_with (fault : WriteFault) (name : string) (content : list byte) (m : gmap string DirEntry)
    : RwResult unit * gmap string DirEntry :=
  match fault, m !! name with
  | BeforeRename left_behind, _ => (Err io_error, leave_temp name content left_behind m)
  | _, Some DirectoryEntry => (Err io_error, m)
  | AfterRename, _ => (Err io_error, <[name := RegularFile content]> m)
  | NoFault, _ => (Ok tt, <[name := RegularFile content]> m)
  end.

(** Which writes the file system fails, and how. A write is told apart by its
    name, its bytes and the entries it meets. *)
Class WriteFaults := { write_fault : string -> list byte -> gmap string DirEntry -> WriteFault }.
Definition no_faults : WriteFaults := {| write_fault _ _ _ := NoFault |}.
Class Faultless `{WriteFaults} := { never_fails : forall name content m, write_fault name content m = NoFault }.
Lemma no_faults_faultless : @Faultless no_faults.
Proof. by split. Qed.

(** [atomic_write_bytes] as the other files use it. *)
Definition replace_entry `{WriteFaults} (name : string) (content : list byte) (m : gmap string DirEntry) : RwResult unit * gmap string DirEntry :=
  replace_with (write_fault name content m) name content m.

(** The names that temporary files take. *)
Definition temporary (name : string) : Prop := exists file pid seq, name = temp_name file pid seq.

Lemma temp_name_last f p q : last (bytes (temp_name f p q)) = Some (chr (48 + q mod 10)).
Proof.
  assert (exists l, fmt_padded 0 q = l ++ [chr (48 + q mod 10)]) as [l El].
  { unfold fmt_padded. cbn [Nat.sub replicate app]. change (decimal 20 q []) with
      (if q <? 10 then [chr (48 + q mod 10)] else decimal 19 (q / 10) [chr (48 + q mod 10)]).
    destruct (q <? 10); [by exists []|]. rewrite decimal_acc. eauto. }
  unfold temp_name. by rewrite bytes_of_bytes, El, !app_assoc, last_snoc.
Qed.

(** A name that does not end in a digit is not temporary, nor is one that is
    not hidden. *)
Lemma not_temporary_last n b : last (bytes n) = Some b -> is_ascii_digit b = false -> ~ temporary n.
Proof.
  intros Hl Hb (f & p & q & ->). rewrite temp_name_last in Hl. injection Hl as <-.
  by rewrite is_digit_chr in Hb by (apply Z.mod_pos_bound; lia).
Qed.
Lemma visible_not_temporary n : visible n -> ~ temporary n.
Proof. intros Hv (f & p & q & ->). by eapply temp_name_hidden. Qed.

Lemma leave_temp_other name content l m n : ~ temporary n -> leave_temp name content l m !! n = m !! n.
Proof.
  intros Hn. destruct l as [[[p q] k]|]; [|done]. unfold leave_temp. cbv zeta. destruct (m !! temp_name name p q) as [e|]; [reflexivity|]. rewrite lookup_insert_ne; [done|].
  intros <-. apply Hn. by exists name, p, q.
Qed.

Section replace.
Context `{WriteFaults} (name : string) (content : list byte) (m m' : gmap string DirEntry) (r : RwResult unit).
Hypothesis Hrun : replace_entry name content m = (r, m').

(** The outcomes of a replacement. *)
Lemma replace_cases : (m' = <[name := RegularFile content]> m /\ m !! name <> Some DirectoryEntry /\ (r = Ok tt \/ r = Err io_error))
  \/ (r = Err io_error /\ exists l, m' = leave_temp name content l m).
Proof using Hrun.
  revert Hrun. unfold replace_entry, replace_with. destruct (write_fault name content m) as [|l|].
  - destruct (m !! name) as [[]|] eqn:E; intros [= <- <-]; first [left; split_and!; [done|done|by auto]|right; split; [done|by exists None]].
  - intros [= <- <-]. right. eauto.
  - destruct (m !! name) as [[]|] eqn:E; intros [= <- <-]; first [left; split_and!; [done|done|by auto]|right; split; [done|by exists None]].
Qed.

Lemma replace_ok : r = Ok tt -> m' = <[name := RegularFile content]> m /\ m !! name <> Some DirectoryEntry.
Proof using Hrun. intros Hr. destruct replace_cases as [(E & ? & _)|[E _]]; [done|]. congruence. Qed.

Lemma replace_frame n : n <> name -> ~ temporary n -> m' !! n = m !! n.
Proof using Hrun.
  intros Hn Ht. destruct replace_cases as [(-> & _)|(_ & l & ->)]; [by rewrite lookup_insert_ne|by apply leave_temp_other].
Qed.

(** What the destination holds afterwards. *)
Lemma replace_destination : ~ temporary name -> m' !! name = m !! name \/ m' !! name = Some (RegularFile content).
Proof using Hrun.
  intros Ht. destruct replace_cases as [(-> & _)|(_ & l & ->)]; [right; apply lookup_insert_eq|left; by apply leave_temp_other].
Qed.
End replace.

Lemma replace_faultless `{Faultless} name content m : m !! name <> Some DirectoryEntry ->
  replace_entry name content m = (Ok tt, <[name := RegularFile content]> m).
Proof. intros Hd. unfold replace_entry, replace_with. rewrite never_fails. by destruct (m !! name) as [[]|]. Qed.

(** Some temporary name among the next ones is free. *)
Lemma free_temp (m : gmap string Node) f p q : 0 <= p < u64_limit -> 0 <= q -> q + Z.of_nat (size m) < u64_limit ->
  exists j, (j <= size m)%nat /\ m !! temp_name f p (q + Z.of_nat j) = None
    /\ forall j', (j' < j)%nat -> m !! temp_name f p (q + Z.of_nat j') <> None.
Proof.
  intros Hp Hq Hs. set (free := fun j : nat => m !! temp_name f p (q + Z.of_nat j) = None).
  assert (Hdec : forall n, (exists j, (j < n)%nat /\ free j /\ forall j', (j' < j)%nat -> ~ free j') \/ forall j, (j < n)%nat -> ~ free j).
  { induction n as [|n [(j & ? & ? & ?)|IH]]; [right; lia|left; exists j; eauto with lia|].
    destruct (m !! temp_name f p (q + Z.of_nat n)) eqn:E.
    - right. intros j Hj. destruct (decide (j = n)) as [->|]; [unfold free; congruence|apply IH; lia].
    - left. exists n. eauto. }
  destruct (Hdec (S (size m))) as [(j & Hj & H1 & H2)|H]; [exists j; split; [lia|done]|]. exfalso.
  set (l := (fun j : nat => temp_name f p (q + Z.of_nat j)) <$> seq 0 (S (size m))).
  assert (Hnd : NoDup l).
  { apply NoDup_fmap_2_strong; [|apply NoDup_seq]. intros x y [_ Hx]%elem_of_seq [_ Hy]%elem_of_seq E.
    apply temp_name_inj in E as [_ E]; lia. }
  assert (Hsub : list_to_set l ⊆ (dom m : gset string)).
  { intros n Hn. apply elem_of_list_to_set, list_elem_of_fmap in Hn as (x & -> & [_ Hx]%elem_of_seq).
    apply elem_of_dom. destruct (m !! _) eqn:E; [done|]. destruct (H x); [lia|done]. }
  apply subseteq_size in Hsub. rewrite size_list_to_set, size_dom in Hsub by done.
  unfold l in Hsub. rewrite length_fmap, length_seq in Hsub. lia.
Qed.

Lemma alone_step w pc c d s pc' d' s' fuel : ~ returned pc -> next_call w pc d = c -> call_step w pc c d s = Some (pc', d', s') ->
  alone (S fuel) {| dir := d; seqs := s; pcs := [(w, pc)] |} = alone fuel {| dir := d'; seqs := s'; pcs := [(w, pc')] |}.
Proof.
  intros Hpc <- Hs. destruct pc; try (by destruct Hpc); cbn [alone pcs lookup list_lookup mbind option_bind];
    unfold world_step; cbn [pcs lookup list_lookup mbind option_bind fst snd dir seqs] in *; by rewrite Hs.
Qed.

Lemma open_step w d s : call_step w Opening CallOpen d s =
  let t := temp_name (w_file w) (w_pid w) (s (w_pid w)) in
  match names d !! t with
  | Some _ => Some (Opening, d, bump (w_pid w) s)
  | None => Some (Writing t (length (inodes d)) (w_bytes w),
                  {| names := <[t := FileNode (length (inodes d))]> (names d); inodes := inodes d ++ [{| data := []; synced := None |}];
                     history := <[t := FileNode (length (inodes d))]> (names d) :: history d |}, bump (w_pid w) s)
  end.
Proof. unfold call_step, create_new. cbn zeta. by destruct (names d !! _). Qed.

Lemma alone_opens w d s m fuel : writer_ok w -> 0 <= s (w_pid w) -> s (w_pid w) + Z.of_nat m + 1 < u64_limit ->
  (forall j, (j < m)%nat -> names d !! temp_name (w_file w) (w_pid w) (s (w_pid w) + Z.of_nat j) <> None) ->
  let t := temp_name (w_file w) (w_pid w) (s (w_pid w) + Z.of_nat m) in
  names d !! t = None ->
  exists s', alone (m + S fuel) {| dir := d; seqs := s; pcs := [(w, Opening)] |}
    = alone fuel {| dir := {| names := <[t := FileNode (length (inodes d))]> (names d);
                              inodes := inodes d ++ [{| data := []; synced := None |}];
                              history := <[t := FileNode (length (inodes d))]> (names d) :: history d |};
                    seqs := s'; pcs := [(w, Writing t (length (inodes d)) (w_bytes w))] |}.
Proof.
  intros Hw. revert s. induction m as [|m IH]; intros s Hs0 Hs Htaken t Hfree.
  - exists (bump (w_pid w) s). cbn [Nat.add]. apply (alone_step _ _ CallOpen); [by intros []|done|].
    rewrite open_step. cbn zeta. unfold t in *. change (Z.of_nat 0) with 0 in *. rewrite Z.add_0_r in *. by rewrite Hfree.
  - pose proof (Htaken 0%nat ltac:(lia)) as H0. change (Z.of_nat 0) with 0 in H0. rewrite Z.add_0_r in H0.
    assert (Hb : bump (w_pid w) s (w_pid w) = s (w_pid w) + 1). { unfold bump. rewrite Z.eqb_refl, Z.mod_small; lia. }
    destruct (IH (bump (w_pid w) s)) as [s' E]; rewrite ?Hb in *; try lia.
    + intros j Hj. replace (s (w_pid w) + 1 + Z.of_nat j) with (s (w_pid w) + Z.of_nat (S j)) by lia. apply Htaken. lia.
    + unfold t in Hfree. by replace (s (w_pid w) + 1 + Z.of_nat m) with (s (w_pid w) + Z.of_nat (S m)) by lia.
    + exists s'. replace (s (w_pid w) + 1 + Z.of_nat m) with (s (w_pid w) + Z.of_nat (S m)) in E by lia. fold t in E. rewrite <- E.
      cbn [Nat.add]. apply (alone_step _ _ CallOpen); [by intros []|done|]. rewrite open_step. cbn zeta.
      by destruct (names d !! temp_name (w_file w) (w_pid w) (s (w_pid w))).
Qed.

Lemma append_nil i d : append i [] d = d.
Proof.
  destruct d as [m l h]. unfold append, set_inode. cbn. f_equal. apply list_eq. intros j.
  destruct (decide (i = j)) as [<-|Hj]; [|by rewrite alter_inode]. rewrite list_lookup_alter_eq.
  destruct (l !! i) as [[]|]; [|done]. cbn. by rewrite app_nil_r.
Qed.

(** The rest of the calls of a writer alone. *)
Lemma alone_finishes w d t i s fuel : names d !! t = Some (FileNode i) -> inodes d !! i = Some {| data := []; synced := None |} ->
  exists d', alone (4 + fuel) {| dir := d; seqs := s; pcs := [(w, Writing t i (w_bytes w))] |}
    = Some (match names d !! w_file w with Some DirNode => Err io_error | _ => Ok tt end, d')
  /\ inodes d' = alter (fun _ => complete w) i (inodes d)
  /\ names d' = match names d !! w_file w with
                | Some DirNode => delete t (names d)
                | _ => <[w_file w := FileNode i]> (delete t (names d))
                end.
Proof.
  intros Hn Hi. set (d1 := {| names := names d; inodes := alter (fun _ => complete w) i (inodes d); history := history d |}).
  assert (H1 : exists f, alone (4 + fuel) {| dir := d; seqs := s; pcs := [(w, Writing t i (w_bytes w))] |}
                 = alone (2 + f) {| dir := d1; seqs := s; pcs := [(w, Synced t i)] |}).
  { assert (Hc : forall l, w_bytes w = l -> sync_file i (append i l d) = d1).
    { intros l <-. unfold sync_file, append, set_inode, d1. cbn. f_equal. apply list_eq. intros j.
      destruct (decide (i = j)) as [<-|Hj]; [|by rewrite !alter_inode]. rewrite !list_lookup_alter_eq, Hi. done. }
    destruct (w_bytes w) as [|b l] eqn:Eb.
    - exists (S fuel). cbn [Nat.add]. rewrite (alone_step w _ CallSync d s (Synced t i) (sync_file i d) s); [|by intros []|done|done].
      by rewrite <- (Hc [] eq_refl), append_nil.
    - exists fuel. cbn [Nat.add]. rewrite (alone_step w _ (CallWrite (length (b :: l))) d s (Writing t i []) (append i (b :: l) d) s); [|by intros []|done|].
      2:{ cbn [call_step]. by rewrite drop_all, firstn_all. }
      rewrite (alone_step w _ CallSync _ s (Synced t i) (sync_file i (append i (b :: l) d)) s); [|by intros []|done|done].
      by rewrite (Hc (b :: l) eq_refl). }
  destruct H1 as [f ->]. clear Hi. cbn [Nat.add].
  destruct (decide (names d !! w_file w = Some DirNode)) as [E|E].
  - rewrite E. exists (remove_file t d1). rewrite (alone_step w _ CallFails d1 s (CleaningUp t) d1 s); [|by intros []| |done].
    2:{ cbn [next_call d1 names]. by rewrite E. }
    rewrite (alone_step w _ CallRemove d1 s (Returned (Err io_error)) (remove_file t d1) s); [|by intros []|done|done].
    unfold remove_file. cbn [names d1]. rewrite Hn. by destruct f.
  - exists (sync_names (set_names (<[w_file w := FileNode i]> (delete t (names d))) d1)).
    rewrite (alone_step w _ CallRename d1 s (Replaced t i) (set_names (<[w_file w := FileNode i]> (delete t (names d))) d1) s); [|by intros []| |].
    + rewrite (alone_step w _ CallSyncDir _ s (Returned (Ok tt)) (sync_names (set_names (<[w_file w := FileNode i]> (delete t (names d))) d1)) s); [|by intros []|done|done].
      destruct (names d !! w_file w) as [[]|]; by destruct f.
    + cbn [next_call d1 names]. by destruct (names d !! w_file w) as [[]|].
    + cbn [call_step]. unfold rename. cbn [d1 names]. rewrite Hn. by destruct (names d !! w_file w) as [[]|].
Qed.

(** Alone, and when no call fails that need not, [atomic_write_bytes] always
    finds a free temporary name within as many attempts as the directory has
    names, returns, and refines the replacement of one entry in a single step:
    the destination holds exactly the bytes and every other entry is as it
    was; a destination that is a directory is an error that leaves the
    directory as it was. *)
Lemma alone_replaces_entry d s w :
  writer_ok w -> dir_wf d -> seqs_fit s (size (names d) + 1) ->
  exists r d', alone (size (names d) + 5) (start_world d s [w]) = Some (r, d')
    /\ (r, listing d') = replace_with NoFault (w_file w) (w_bytes w) (listing d).
Proof.
  intros Hw Hd Hfit. pose proof Hw as [Hv Hp]. specialize (Hfit (w_pid w)).
  destruct (free_temp (names d) (w_file w) (w_pid w) (s (w_pid w))) as (m & Hm & Hfree & Htaken); [unfold u32_limit, u64_limit in *; lia|lia|lia|].
  replace (size (names d) + 5)%nat with (m + S (4 + (size (names d) - m)))%nat by lia.
  destruct (alone_opens w d s m (4 + (size (names d) - m)) Hw) as [s' E]; [lia|lia|done|done|].
  unfold start_world. cbn [fmap list_fmap]. rewrite E. clear E.
  set (t := temp_name _ _ _) in *.
  assert (Ht : t <> w_file w). { intros E. apply (temp_name_hidden (w_file w) (w_pid w) (s (w_pid w) + Z.of_nat m)). fold t. by rewrite E. }
  match goal with |- context [alone _ {| dir := ?d1; seqs := _; pcs := _ |}] => destruct (alone_finishes w d1 t (length (inodes d)) s' (size (names d) - m)) as (d' & -> & Hi & Hns) end.
  { apply lookup_insert_eq. }
  { cbn. by rewrite lookup_app_r, Nat.sub_diag by lia. }
  eexists _, d'. split; [done|]. cbn [names inodes] in *.
  rewrite lookup_insert_ne in Hns |- * by done. rewrite delete_insert_id in Hns by done.
  assert (Hold : forall n, entry_of (inodes d') <$> names d !! n = entry_of (inodes d) <$> names d !! n).
  { intros n. destruct (names d !! n) as [[i| | |]|] eqn:En; try done. cbn. rewrite Hi.
    assert (i < length (inodes d))%nat by (apply (Hd n); left; congruence).
    rewrite alter_inode, lookup_app_l by lia. done. }
  assert (Hnew : entry_of (inodes d') (FileNode (length (inodes d))) = RegularFile (w_bytes w)).
  { cbn. rewrite Hi, list_lookup_alter_eq, lookup_app_r, Nat.sub_diag by lia. done. }
  unfold replace_with, listing. rewrite lookup_fmap.
  assert (Hl : entry_of (inodes d') <$> names d = entry_of (inodes d) <$> names d).
  { apply map_eq. intros n. rewrite !lookup_fmap. apply Hold. }
  assert (Hl2 : entry_of (inodes d') <$> <[w_file w := FileNode (length (inodes d))]> (names d)
                = <[w_file w := RegularFile (w_bytes w)]> (entry_of (inodes d) <$> names d)).
  { by rewrite fmap_insert, Hnew, Hl. }
  destruct (names d !! w_file w) as [[]|] eqn:En; cbn; rewrite Hns; f_equal; done.
Qed.

(** *** Any calls of a lone writer *)

(** The temporary file is in the directory, with the first [n] bytes. *)
Record temp_staged (d0 d : Dir) (w : Writer) (t : string) (i n : nat) : Prop := {
  sg_names : names d = <[t := FileNode i]> (names d0);
  sg_free : names d0 !! t = None;
  sg_temp : exists q, t = temp_name (w_file w) (w_pid w) q;
  sg_data : data <$> inodes d !! i = Some (take n (w_bytes w))
}.
(** It has taken the place of the destination. *)
Record temp_placed (d0 d : Dir) (w : Writer) (i : nat) : Prop := {
  pl_names : names d = <[w_file w := FileNode i]> (names d0);
  pl_entry : names d0 !! w_file w <> Some DirNode;
  pl_data : data <$> inodes d !! i = Some (w_bytes w)
}.
(** The inodes from before are as they were, the own one is not among them. *)
Definition old_inodes (d0 d : Dir) : Prop :=
  (length (inodes d0) <= length (inodes d))%nat /\ forall j, (j < length (inodes d0))%nat -> inodes d !! j = inodes d0 !! j.

(** What a lone writer has done to the directory, wherever it is. *)
Definition lone_inv (d0 : Dir) (w : Writer) (pc : Pc) (d : Dir) : Prop :=
  old_inodes d0 d /\
  match pc with
  | Opening => names d = names d0
  | Writing t i todo => (length (inodes d0) <= i)%nat
      /\ exists n, temp_staged d0 d w t i n /\ todo = drop n (w_bytes w)
  | Synced t i => (length (inodes d0) <= i)%nat /\ temp_staged d0 d w t i (length (w_bytes w))
  | Replaced t i => (length (inodes d0) <= i)%nat /\ names d0 !! t = None /\ t <> w_file w /\ temp_placed d0 d w i
  | CleaningUp t => exists i, (length (inodes d0) <= i)%nat
      /\ ((exists n, temp_staged d0 d w t i n) \/ (names d0 !! t = None /\ t <> w_file w /\ temp_placed d0 d w i))
  | Returned r => exists fault, (r, listing d) = replace_with fault (w_file w) (w_bytes w) (listing d0)
  end.

Lemma old_listing d0 d : dir_wf d0 -> old_inodes d0 d -> entry_of (inodes d) <$> names d0 = listing d0.
Proof.
  intros Hwf [_ Hold]. apply map_eq. intros n. unfold listing. rewrite !lookup_fmap. destruct (names d0 !! n) as [[i| | |]|] eqn:En; try done.
  cbn. rewrite Hold; [done|]. apply (Hwf n). left. congruence.
Qed.

Lemma staged_listing d0 d w t i n : dir_wf d0 -> old_inodes d0 d -> temp_staged d0 d w t i n ->
  exists q, (Err io_error, listing d) = replace_with (BeforeRename (Some (w_pid w, q, n))) (w_file w) (w_bytes w) (listing d0).
Proof.
  intros Hwf Hold [Hn Hf (q & ->) Hd]. exists q.
  assert (Hl : listing d0 !! temp_name (w_file w) (w_pid w) q = None) by (unfold listing; by rewrite lookup_fmap, Hf).
  unfold replace_with, leave_temp. cbv zeta. rewrite Hl. f_equal. unfold listing at 1. rewrite Hn, fmap_insert, (old_listing d0 d Hwf Hold). cbn. by rewrite Hd.
Qed.

Lemma placed_listing d0 d w i : dir_wf d0 -> old_inodes d0 d -> temp_placed d0 d w i ->
  listing d0 !! w_file w <> Some DirectoryEntry /\ listing d = <[w_file w := RegularFile (w_bytes w)]> (listing d0).
Proof.
  intros Hwf Hold [Hn He Hd]. split.
  - unfold listing. rewrite lookup_fmap. by destruct (names d0 !! w_file w) as [[]|].
  - unfold listing at 1. rewrite Hn, fmap_insert, (old_listing d0 d Hwf Hold). cbn. by rewrite Hd.
Qed.

(** A destination that was replaced, with and without the directory synced. *)
Lemma placed_replaces d0 d w i (synced_too : bool) : dir_wf d0 -> old_inodes d0 d -> temp_placed d0 d w i ->
  (if synced_too then Ok tt else Err io_error, listing d)
  = replace_with (if synced_too then NoFault else AfterRename) (w_file w) (w_bytes w) (listing d0).
Proof.
  intros Hwf Hold Hp. destruct (placed_listing d0 d w i Hwf Hold Hp) as [He ->]. unfold replace_with.
  by destruct synced_too, (listing d0 !! w_file w) as [[]|].
Qed.

Lemma remove_staged d0 d w t i n : temp_staged d0 d w t i n -> names (remove_file t d) = names d0 /\ inodes (remove_file t d) = inodes d.
Proof.
  intros [Hn Hf _ _]. unfold remove_file. rewrite Hn, lookup_insert_eq. cbn. by rewrite delete_insert_id.
Qed.

(** A file of the writer's own grows. *)
Lemma grown_inodes d0 d i f : (length (inodes d0) <= i)%nat -> old_inodes d0 d -> old_inodes d0 (set_inode i f d).
Proof.
  intros Hi [Hl Ho]. split; cbn; [by rewrite length_alter|]. intros j Hj. rewrite alter_inode by lia. by apply Ho.
Qed.

Lemma lone_step d0 w pc c d s pc' d' s' : writer_ok w -> dir_wf d0 -> lone_inv d0 w pc d ->
  call_step w pc c d s = Some (pc', d', s') -> lone_inv d0 w pc' d'.
Proof.
  intros [Hvis _] Hwf [Hold Hpc] Hs.
  assert (Hnt : forall q, temp_name (w_file w) (w_pid w) q <> w_file w).
  { intros q E. apply (temp_name_hidden (w_file w) (w_pid w) q). by rewrite E. }
  call_cases Hs; unfold lone_inv in *; cbn [names inodes] in *.
  - rewrite Hpc in *. destruct Hold as [Hl Ho]. split.
    + split; cbn; [rewrite length_app; lia|]. intros j Hj. rewrite lookup_app_l by lia. by apply Ho.
    + split; [done|]. exists 0%nat. split; [|by rewrite drop_0]. split; cbn; [done|done|by eexists|].
      by rewrite lookup_app_r, Nat.sub_diag by lia.
  - done.
  - split; [done|]. exists (BeforeRename None). cbn. unfold listing at 1. by rewrite Hpc, (old_listing d0 d Hwf Hold).
  - destruct Hpc as (Hi & n & [H1 H2 H3 H4] & ->). split; [by apply grown_inodes|]. split; [done|]. exists (n + m)%nat.
    rewrite drop_drop. split; [|done]. split; [done|done|done|]. cbn. rewrite list_lookup_alter_eq.
    destruct (inodes d !! i) as [x|]; [|done]. cbn in *. injection H4 as ->. by rewrite take_take_drop.
  - destruct Hpc as (Hi & n & [H1 H2 H3 H4] & E). split; [by apply grown_inodes|]. split; [done|]. split; [done|done|done|].
    cbn. rewrite list_lookup_alter_eq. destruct (inodes d !! i) as [x|]; [|done]. cbn in *. rewrite H4. f_equal. rewrite firstn_all.
    symmetry in E. apply skipn_all_iff in E. by rewrite take_ge.
  - destruct Hpc as (Hi & n & Hst & _). split; [done|]. exists i. eauto.
  - destruct Hpc as (Hi & [H1 H2 (q & ->) H4]). split; [done|]. rewrite H1, lookup_insert_eq in Hsrc. injection Hsrc as <-.
    rewrite H1, lookup_insert_ne in Hdst by apply Hnt.
    split; [done|]. split; [done|]. split; [apply Hnt|]. split; cbn; [|done|by rewrite H4, firstn_all].
    by rewrite H1, delete_insert_id.
  - destruct Hpc as (Hi & Hst). split; [done|]. exists i. eauto.
  - destruct Hpc as (Hi & _ & _ & Hp). split; [done|]. exists NoFault. apply (placed_replaces d0 (sync_names d) w i true Hwf Hold). by destruct Hp.
  - destruct Hpc as (Hi & Hp). split; [done|]. exists i. eauto.
  - destruct Hpc as (i & Hi & [(n & Hst)|(H1 & H2 & Hp)]).
    + destruct (remove_staged _ _ _ _ _ _ Hst) as [Hn Hin]. unfold old_inodes. rewrite Hin. split; [done|]. exists (BeforeRename None). cbn.
      unfold listing at 1. by rewrite Hn, Hin, (old_listing d0 d Hwf Hold).
    + assert (remove_file t d = d) as ->. { unfold remove_file. by rewrite (pl_names _ _ _ _ Hp), lookup_insert_ne, H1. }
      split; [done|]. exists AfterRename. exact (placed_replaces d0 d w i false Hwf Hold Hp).
  - destruct Hpc as (i & Hi & [(n & Hst)|(_ & _ & Hp)]); (split; [done|]).
    + destruct (staged_listing d0 d w t i n Hwf Hold Hst) as (q & E). eauto.
    + exists AfterRename. exact (placed_replaces d0 d w i false Hwf Hold Hp).
Qed.

(** Whatever calls a lone writer makes and whichever of them fail, when it has
    returned the directory and the result are those of [replace_with] for one
    of the faults. *)
Lemma lone_refines_replace d s w calls u r : writer_ok w -> dir_wf d ->
  run_calls calls (start_world d s [w]) = Some u -> pcs u = [(w, Returned r)] ->
  exists fault, (r, listing (dir u)) = replace_with fault (w_file w) (w_bytes w) (listing d).
Proof.
  intros Hw Hd Hr Hret.
  assert (Hinv : forall calls u0, (exists pc, pcs u0 = [(w, pc)] /\ lone_inv d w pc (dir u0)) -> run_calls calls u0 = Some u ->
            exists pc, pcs u = [(w, pc)] /\ lone_inv d w pc (dir u)).
  { clear Hr calls. induction calls as [|[k c] calls IH]; intros u0 (pc & Hpc & Hi) E; [injection E as <-; eauto|]. cbn [run_calls] in E.
    destruct (world_step u0 (k, c)) as [u1|] eqn:E1; [|done]. apply (IH u1); [|done]. clear IH E. unfold world_step in E1. cbn [fst snd] in E1. rewrite Hpc in E1.
    destruct k as [|k]; [|done]. cbn in E1. destruct (call_step w pc c (dir u0) (seqs u0)) as [[[pc' d'] s']|] eqn:Ec; [|done].
    injection E1 as <-. cbn. exists pc'. split; [done|]. by eapply lone_step. }
  destruct (Hinv calls (start_world d s [w])) as (pc & Hpc & Hl); [|done|].
  { exists Opening. split; [done|]. by repeat split. }
  rewrite Hret in Hpc. injection Hpc as <-. by destruct Hl as [_ Hl].
Qed.

(** ** A run *)

(** A directory with a state file and a temporary file that a process with
    the same identifier left when it was killed. *)
Definition sample_names : gmap string Node :=
  <["state.json"%string := FileNode 0]> (<[".state.json.tmp-7-0"%string := FileNode 1]> ∅).
Definition sample_dir : Dir := {|
  names := sample_names;
  inodes := [{| data := [Byte.x61]; synced := Some [Byte.x61] |}; {| data := []; synced := None |}];
  history := [sample_names]
|}.
Definition sample_writers : list Writer := [
  {| w_pid := 7; w_file := "state.json"; w_bytes := [Byte.x62; Byte.x63] |};
  {| w_pid := 8; w_file := "state.json"; w_bytes := [Byte.x64; Byte.x65; Byte.x66] |}
].
(** The first writer finds its first name taken and publishes; the second is
    in the middle of its file. *)
Definition sample_calls : list (nat * Call) :=
  [(0, CallOpen); (1, CallOpen); (0, CallOpen); (0, CallWrite 1); (1, CallWrite 2); (0, CallWrite 1); (0, CallSync); (0, CallRename);
   (0, CallSyncDir)]%nat.
(** The disk is full for the second, which removes its file. *)
Definition sample_failure : list (nat * Call) := [(1, CallFails); (1, CallRemove)]%nat.
Definition sample_world (calls : list (nat * Call)) : World :=
  default (start_world sample_dir (fun _ => 0) sample_writers) (run_calls calls (start_world sample_dir (fun _ => 0) sample_writers)).

Definition runs (calls : list (nat * Call)) : bool :=
  match run_calls calls (start_world sample_dir (fun _ => 0) sample_writers) with Some _ => true | None => false end.
Lemma sample_runs_to calls : runs calls = true ->
  run_calls calls (start_world sample_dir (fun _ => 0) sample_writers) = Some (sample_world calls).
Proof. unfold runs, sample_world. by destruct (run_calls calls _). Qed.

Lemma sample_dir_wf : dir_wf sample_dir.
Proof.
  assert (H : forall n i, sample_names !! n = Some (FileNode i) -> (i < 2)%nat).
  { intros n i. unfold sample_names. rewrite lookup_insert_Some, lookup_insert_Some, lookup_empty.
    intros [[_ [= <-]]|[_ [[_ [= <-]]|[_ ?]]]]; [lia|lia|done]. }
  intros n i [E|(m & Hm & E)]; cbn in *; [|apply list_elem_of_singleton in Hm as ->]; symmetry in E; by eapply H.
Qed.
Lemma sample_writers_ok : Forall writer_ok sample_writers.
Proof. repeat constructor; done. Qed.

Definition all_returned (u : World) : bool := forallb (fun x => match x.2 with Returned _ => true | _ => false end) (pcs u).
Lemma sample_returned u : all_returned u = true -> Forall (fun x => returned x.2) (pcs u).
Proof.
  unfold all_returned. rewrite forallb_forall. intros H. apply list.Forall_forall. intros [w pc] Hin.
  specialize (H (w, pc)). cbn in *. destruct pc; try done; discriminate H; by apply list_elem_of_In.
Qed.

Theorem atomic_publication_witness :
  names (dir (sample_world sample_calls)) !! "state.json"%string = Some (FileNode 3)
  /\ inodes (dir (sample_world (sample_calls ++ sample_failure))) !! 3%nat = inodes (dir (sample_world sample_calls)) !! 3%nat
  /\ published sample_dir sample_writers (dir (sample_world sample_calls)) "state.json" (Some (FileNode 3)).
Proof.
  pose proof (sample_runs_to sample_calls ltac:(vm_compute; reflexivity)) as E1.
  pose proof (sample_runs_to (sample_calls ++ sample_failure) ltac:(vm_compute; reflexivity)) as E2.
  apply (run_calls_rest _ _ _ _ _ E1) in E2.
  assert (names (dir (sample_world sample_calls)) !! "state.json"%string = Some (FileNode 3)) as E3 by (vm_compute; reflexivity).
  destruct (atomic_publication sample_dir (fun _ => 0) sample_writers sample_calls _ sample_failure _ sample_writers_ok sample_dir_wf
              ltac:(intros p; vm_compute; split; [discriminate|reflexivity]) E1 E2) as (_ & H2 & H3).
  split; [exact E3|]. split; [apply (H2 "state.json"%string); [vm_compute; discriminate|exact E3]|].
  rewrite <- E3. apply (H3 0%nat {| w_pid := 7; w_file := "state.json"; w_bytes := [Byte.x62; Byte.x63] |}); [vm_compute; reflexivity|].
  apply crash_entry_names.
Defined.

Theorem no_temporary_left_witness :
  names (dir (sample_world (sample_calls ++ sample_failure))) !! ".state.json.tmp-7-0"%string = Some (FileNode 1)
  /\ names (dir (sample_world (sample_calls ++ sample_failure))) !! ".state.json.tmp-8-0"%string = None.
Proof.
  pose proof (sample_runs_to (sample_calls ++ sample_failure) ltac:(vm_compute; reflexivity)) as E.
  pose proof (no_temporary_left sample_dir (fun _ => 0) sample_writers (sample_calls ++ sample_failure) _ sample_writers_ok sample_dir_wf
              ltac:(intros p; vm_compute; split; [discriminate|reflexivity]) E
              ltac:(repeat constructor; discriminate) ltac:(apply sample_returned; vm_compute; reflexivity)) as H.
  split; rewrite H; [vm_compute; reflexivity|apply (temp_name_hidden "state.json" 7 0)|vm_compute; reflexivity|apply (temp_name_hidden "state.json" 8 0)].
Defined.
