(* ===== verification/Order.v ===== *)
(** * Ordered sets and maps

    [BTreeSet] and [BTreeMap] as the strictly sorted lists of what they hold,
    in the order the standard library iterates them, for any type with a
    total comparison ([Ord]). The comparisons derived in the repository are
    lexicographic. *)
From Stdlib Require Import ZArith Lia Ascii String.
From stdpp Require Import base list strings numbers sorting.
From S2P Require Import Prelude Format Text.

(** ** Comparisons *)

Class TotalCmp {A} (cmp : A -> A -> comparison) : Prop := {
  cmp_eq : forall a b, cmp a b = Eq <-> a = b;
  cmp_antisym : forall a b, cmp b a = CompOpp (cmp a b);
  cmp_lt_trans : forall a b c, cmp a b = Lt -> cmp b c = Lt -> cmp a c = Lt
}.

Definition pair_cmp {A B} (ca : A -> A -> comparison) (cb : B -> B -> comparison) (x y : A * B) : comparison :=
  match ca x.1 y.1 with Eq => cb x.2 y.2 | o => o end.
Definition option_cmp {A} (ca : A -> A -> comparison) (x y : option A) : comparison :=
  match x, y with None, None => Eq | None, Some _ => Lt | Some _, None => Gt | Some a, Some b => ca a b end.
Definition bool_cmp (x y : bool) : comparison :=
  match x, y with false, true => Lt | true, false => Gt | _, _ => Eq end.

#[global] Instance Z_total : TotalCmp Z.compare.
Proof.
  split; [apply Z.compare_eq_iff|intros; apply Z.compare_antisym|].
  intros a b c. rewrite !Z.compare_lt_iff. lia.
Qed.

#[global] Instance str_total : TotalCmp str_compare.
Proof.
  unfold str_compare. split.
  - intros a b. rewrite bytes_compare_eq. split; [apply (inj bytes)|by intros ->].
  - intros a b. apply bytes_compare_antisym.
  - intros a b c. apply bytes_compare_lt_trans.
Qed.

#[global] Instance bool_total : TotalCmp bool_cmp.
Proof. split; [intros [] []|intros [] []|intros [] [] []]; simpl; split || idtac; done. Qed.

#[global] Instance option_total {A} (ca : A -> A -> comparison) `{!TotalCmp ca} : TotalCmp (option_cmp ca).
Proof.
  split.
  - intros [a|] [b|]; simpl; try done. rewrite cmp_eq. split; [by intros ->|by intros [= ->]].
  - intros [a|] [b|]; simpl; try done. apply cmp_antisym.
  - intros [a|] [b|] [c|]; simpl; try done. apply cmp_lt_trans.
Qed.

#[global] Instance pair_total {A B} (ca : A -> A -> comparison) (cb : B -> B -> comparison)
  `{!TotalCmp ca, !TotalCmp cb} : TotalCmp (pair_cmp ca cb).
Proof.
  unfold pair_cmp. split.
  - intros [a b] [a' b']. simpl. destruct (ca a a') eqn:E.
    + apply cmp_eq in E as ->. rewrite cmp_eq. split; [by intros ->|by intros [= ->]].
    + split; [done|]. intros [= <- <-]. pose proof (proj2 (cmp_eq a a) eq_refl). congruence.
    + split; [done|]. intros [= <- <-]. pose proof (proj2 (cmp_eq a a) eq_refl). congruence.
  - intros [a b] [a' b']. simpl. rewrite (cmp_antisym a a'). destruct (ca a a') eqn:E; simpl; [apply cmp_antisym|done..].
  - intros [a b] [a' b'] [a'' b'']. simpl. destruct (ca a a') eqn:E1; [|intros _|done].
    + apply cmp_eq in E1 as ->. destruct (ca a' a''); [apply cmp_lt_trans|done..].
    + destruct (ca a' a'') eqn:E2; [|intros _|done].
      * apply cmp_eq in E2 as ->. by rewrite E1.
      * by rewrite (cmp_lt_trans a a' a'' E1 E2).
Qed.

(** A comparison through an injective key. *)
Definition key_cmp {A B} (f : A -> B) (cb : B -> B -> comparison) (x y : A) : comparison := cb (f x) (f y).
Lemma key_total {A B} (f : A -> B) (cb : B -> B -> comparison) `{!TotalCmp cb, !Inj (=) (=) f} : TotalCmp (key_cmp f cb).
Proof.
  unfold key_cmp. split; intros.
  - rewrite cmp_eq. split; [apply (inj f)|by intros ->].
  - apply cmp_antisym.
  - by eapply cmp_lt_trans.
Qed.

(** ** Sets and maps *)

Section ordered.
Context {K : Type} (cmp : K -> K -> comparison) `{!TotalCmp cmp}.

Definition key_lt (a b : K) : Prop := cmp a b = Lt.

(** [BTreeSet::insert], [contains], [collect], [intersection], [difference]. *)
Fixpoint bset_insert (x : K) (l : list K) : list K :=
  match l with
  | [] => [x]
  | y :: l' => match cmp x y with Lt => x :: l | Eq => l | Gt => y :: bset_insert x l' end
  end.
Definition bset_contains (x : K) (l : list K) : bool :=
  existsb (fun y => match cmp x y with Eq => true | _ => false end) l.
Definition bset_of (l : list K) : list K := foldl (fun s x => bset_insert x s) [] l.
Definition bset_inter (a b : list K) : list K := List.filter (fun x => bset_contains x b) a.
Definition bset_diff (a b : list K) : list K := List.filter (fun x => negb (bset_contains x b)) a.

(** [BTreeMap::insert], [get], and [entry(k).or_default()] with an update. *)
Fixpoint bmap_alter {V} (f : option V -> V) (k : K) (l : list (K * V)) : list (K * V) :=
  match l with
  | [] => [(k, f None)]
  | (k', v) :: l' =>
      match cmp k k' with
      | Lt => (k, f None) :: l
      | Eq => (k', f (Some v)) :: l'
      | Gt => (k', v) :: bmap_alter f k l'
      end
  end.
Definition bmap_insert {V} (k : K) (v : V) (l : list (K * V)) : list (K * V) := bmap_alter (fun _ => v) k l.
Fixpoint bmap_get {V} (k : K) (l : list (K * V)) : option V :=
  match l with
  | [] => None
  | (k', v) :: l => match cmp k k' with Eq => Some v | _ => bmap_get k l end
  end.

Definition bset_wf (l : list K) : Prop := StronglySorted key_lt l.
Definition bmap_wf {V} (l : list (K * V)) : Prop := StronglySorted key_lt l.*1.

Lemma cmp_refl a : cmp a a = Eq.
Proof using TotalCmp0. by apply cmp_eq. Qed.

Lemma cmp_gt_lt a b : cmp a b = Gt -> cmp b a = Lt.
Proof using TotalCmp0. intros H. by rewrite cmp_antisym, H. Qed.

Lemma key_lt_irrefl a : ~ key_lt a a.
Proof using TotalCmp0. unfold key_lt. by rewrite cmp_refl. Qed.

Lemma elem_of_bset_insert x y l : y ∈ bset_insert x l <-> y = x \/ y ∈ l.
Proof using TotalCmp0.
  induction l as [|z l IH]; simpl; [rewrite list_elem_of_singleton; pose proof (not_elem_of_nil x); pose proof (not_elem_of_nil y); tauto|].
  destruct (cmp x z) eqn:E.
  - apply cmp_eq in E as ->. rewrite elem_of_cons. tauto.
  - rewrite elem_of_cons. done.
  - rewrite !elem_of_cons, IH. tauto.
Qed.

Lemma bset_insert_wf x l : bset_wf l -> bset_wf (bset_insert x l).
Proof using TotalCmp0.
  induction 1 as [|z l Hs IH Hlt]; simpl; [repeat constructor|].
  destruct (cmp x z) eqn:E; [by constructor|constructor; [by constructor|]|constructor; [done|]].
  - constructor; [done|]. eapply list.Forall_impl; [exact Hlt|]. intros y Hy. by eapply cmp_lt_trans.
  - apply list.Forall_forall. intros y [->|Hy]%elem_of_bset_insert; [by apply cmp_gt_lt|].
    by apply (proj1 (list.Forall_forall _ _) Hlt).
Qed.

Lemma bset_contains_iff x l : bset_contains x l = true <-> x ∈ l.
Proof using TotalCmp0.
  unfold bset_contains. rewrite existsb_exists. split.
  - intros (y & Hin & H). destruct (cmp x y) eqn:E; try done. apply cmp_eq in E as ->. by apply list_elem_of_In.
  - intros H. exists x. rewrite cmp_refl, <- list_elem_of_In. done.
Qed.

Lemma bset_of_acc acc l : bset_wf acc ->
  bset_wf (foldl (fun s x => bset_insert x s) acc l)
  /\ forall y, y ∈ foldl (fun s x => bset_insert x s) acc l <-> y ∈ acc \/ y ∈ l.
Proof using TotalCmp0.
  revert acc. induction l as [|x l IH]; intros acc Hwf; simpl.
  { split; [done|]. intros y. pose proof (not_elem_of_nil y). tauto. }
  destruct (IH (bset_insert x acc)) as [H1 H2]; [by apply bset_insert_wf|]. split; [done|].
  intros y. rewrite H2, elem_of_bset_insert, elem_of_cons. tauto.
Qed.

Lemma bset_of_wf l : bset_wf (bset_of l).
Proof using TotalCmp0. apply bset_of_acc. constructor. Qed.

Lemma elem_of_bset_of y l : y ∈ bset_of l <-> y ∈ l.
Proof using TotalCmp0.
  unfold bset_of. destruct (bset_of_acc [] l) as [_ H]; [constructor|]. rewrite H. pose proof (not_elem_of_nil y). tauto.
Qed.

(** Sets with the same elements are the same list. *)
Lemma bset_ext a b : bset_wf a -> bset_wf b -> (forall x, x ∈ a <-> x ∈ b) -> a = b.
Proof using TotalCmp0.
  intros Ha. revert b. induction Ha as [|x a Hs IH Hlt]; intros b Hb Hx.
  { destruct b as [|y b]; [done|]. exfalso. apply (not_elem_of_nil y), Hx. left. }
  destruct Hb as [|y b Hsb Hltb]. { exfalso. apply (not_elem_of_nil x), Hx. left. }
  assert (x = y) as <-.
  { assert (x ∈ y :: b) as [->|H1]%elem_of_cons by (apply Hx; left); [done|].
    assert (y ∈ x :: a) as [->|H2]%elem_of_cons by (apply Hx; left); [done|].
    pose proof (proj1 (list.Forall_forall _ _) Hlt _ H2) as E1. pose proof (proj1 (list.Forall_forall _ _) Hltb _ H1) as E2.
    by destruct (key_lt_irrefl x); apply (cmp_lt_trans x y x). }
  f_equal. apply IH; [done|]. intros z. split; intros Hz.
  - assert (z ∈ x :: b) as [->|H1]%elem_of_cons by (apply Hx; by right); [|done].
    by destruct (key_lt_irrefl x); apply (proj1 (list.Forall_forall _ _) Hlt).
  - assert (z ∈ x :: a) as [->|H1]%elem_of_cons by (apply Hx; by right); [|done].
    by destruct (key_lt_irrefl x); apply (proj1 (list.Forall_forall _ _) Hltb).
Qed.

Lemma filter_wf (f : K -> bool) l : bset_wf l -> bset_wf (List.filter f l).
Proof using.
  induction 1 as [|x l Hs IH Hlt]; simpl; [constructor|]. destruct (f x); [|done]. constructor; [done|].
  apply list.Forall_forall. intros y Hy. apply (proj1 (list.Forall_forall _ _) Hlt).
  apply list_elem_of_In in Hy. apply filter_In in Hy as [Hy _]. by apply list_elem_of_In.
Qed.

Lemma elem_of_bset_inter x a b : x ∈ bset_inter a b <-> x ∈ a /\ x ∈ b.
Proof using TotalCmp0.
  unfold bset_inter. by rewrite list_elem_of_In, filter_In, <- list_elem_of_In, bset_contains_iff.
Qed.
Lemma elem_of_bset_diff x a b : x ∈ bset_diff a b <-> x ∈ a /\ x ∉ b.
Proof using TotalCmp0.
  unfold bset_diff. rewrite list_elem_of_In, filter_In, <- list_elem_of_In, negb_true_iff, <- not_true_iff_false, bset_contains_iff. done.
Qed.

(** A strictly sorted list collects to itself. *)
Lemma bset_of_sorted l : bset_wf l -> bset_of l = l.
Proof using TotalCmp0. intros H. apply bset_ext; [apply bset_of_wf|done|]. intros x. apply elem_of_bset_of. Qed.

(** Maps. *)
Lemma bmap_alter_keys {V} (f : option V -> V) x l y : y ∈ (bmap_alter f x l).*1 <-> y = x \/ y ∈ l.*1.
Proof using TotalCmp0.
  induction l as [|[k' v] l IH]; simpl; [rewrite list_elem_of_singleton; pose proof (not_elem_of_nil x); pose proof (not_elem_of_nil y); tauto|].
  destruct (cmp x k') eqn:E; simpl.
  - apply cmp_eq in E as ->. rewrite elem_of_cons. tauto.
  - rewrite elem_of_cons. done.
  - rewrite !elem_of_cons, IH. tauto.
Qed.

Lemma bmap_alter_wf {V} (f : option V -> V) k l : bmap_wf l -> bmap_wf (bmap_alter f k l).
Proof using TotalCmp0.
  unfold bmap_wf. induction l as [|[k' v] l IH]; simpl; [repeat constructor|]. intros H. inversion H as [|? ? Hs Hlt]; subst.
  destruct (cmp k k') eqn:E; simpl; [done|constructor; [done|]|constructor; [by apply IH|]].
  - constructor; [done|]. eapply list.Forall_impl; [exact Hlt|]. intros y Hy. by eapply cmp_lt_trans.
  - apply list.Forall_forall. intros y [->|Hy]%bmap_alter_keys; [by apply cmp_gt_lt|].
    by apply (proj1 (list.Forall_forall _ _) Hlt).
Qed.

Lemma bmap_get_elem {V} k (v : V) l : bmap_get k l = Some v -> (k, v) ∈ l.
Proof using TotalCmp0.
  induction l as [|[k' v'] l IH]; simpl; [done|]. destruct (cmp k k') eqn:E.
  - apply cmp_eq in E as ->. intros [= ->]. left.
  - intros H. right. by apply IH.
  - intros H. right. by apply IH.
Qed.

Lemma elem_bmap_get {V} k (v : V) l : bmap_wf l -> (k, v) ∈ l -> bmap_get k l = Some v.
Proof using TotalCmp0.
  unfold bmap_wf. induction l as [|[k' v'] l IH]; simpl; [by intros _ H%not_elem_of_nil|].
  intros H. inversion H as [|? ? Hs Hlt]; subst. intros [[= -> ->]|Hin]%elem_of_cons; [by rewrite cmp_refl|].
  assert (cmp k' k = Lt) as E.
  { apply (proj1 (list.Forall_forall _ _) Hlt). apply list_elem_of_fmap. by exists (k, v). }
  rewrite cmp_antisym, E. simpl. by apply IH.
Qed.

Lemma bmap_get_alter {V} (f : option V -> V) k l : bmap_wf l -> bmap_get k (bmap_alter f k l) = Some (f (bmap_get k l)).
Proof using TotalCmp0.
  unfold bmap_wf. induction l as [|[k' v] l IH]; simpl; intros H; [by rewrite cmp_refl|].
  inversion H as [|? ? Hs Hlt]; subst. destruct (cmp k k') eqn:E; simpl; rewrite ?cmp_refl, ?E; [done| |by apply IH].
  destruct (bmap_get k l) as [v'|] eqn:Eg; [|done]. apply bmap_get_elem in Eg.
  assert (cmp k' k = Lt) as E'.
  { apply (proj1 (list.Forall_forall _ _) Hlt). apply list_elem_of_fmap. by exists (k, v'). }
  rewrite cmp_antisym, E in E'. done.
Qed.

Lemma bmap_get_alter_ne {V} (f : option V -> V) k k' l : k <> k' -> bmap_get k' (bmap_alter f k l) = bmap_get k' l.
Proof using TotalCmp0.
  intros Hn. assert (cmp k' k <> Eq) as Hne by (rewrite cmp_eq; congruence).
  induction l as [|[k1 v] l IH]; simpl; [by destruct (cmp k' k)|].
  destruct (cmp k k1) eqn:E; simpl.
  - apply cmp_eq in E as ->. by destruct (cmp k' k1).
  - destruct (cmp k' k); done.
  - by destruct (cmp k' k1).
Qed.
End ordered.
