(* ===== verification/Ids.v ===== *)
(** * Model and source identifiers

    [ModelId] and [SourceId] of [crates/rustwx-core/src/lib.rs]: the variants,
    their stable spelling and the parser with its aliases. The spelling of a
    model names directories of a store and job files of the scheduler. *)
From Stdlib Require Import ZArith Lia Ascii String.
From stdpp Require Import base list strings numbers countable finite.
From S2P Require Import Prelude Format Text.

Local Open Scope Z_scope.

(** [RustwxError], less the variants of levels and field data. *)
Inductive RustwxError :=
| UnknownModel (name : string)
| UnknownSource (name : string)
| InvalidCycleDate (date : string)
| InvalidCycleHour (hour : Z)
| InvalidForecastHour (hour : Z)
| InvalidGridShape (nx ny : nat)
| GridTooLarge (nx ny cells : nat).

(** [ModelId]. *)
Inductive ModelId :=
  | Hrrr | HrrrAk | Gfs | Gdps | GdpsGeml | CmaGeps | Rdps | Hrdps | HrdpsWest | Reps | IconEu | IconD2
  | IconRu | Geps | WrfCptec7km | BramsCptec8km | EtaCptec8km | Gdas | Gefs | Aigfs | Aigefs | Hgefs
  | EcmwfOpenData | Aifs | Rap | Nam | Hiresw | Href | Sref | Rtma | Urma | Nbm | RrfsA | RrfsPublic | Refs
  | RrfsFireWx | WrfGdex | AromeFrance001 | AromeFrance0025.

#[global] Instance ModelId_eq_dec : EqDecision ModelId.
Proof. solve_decision. Defined.

(** Every model, in declaration order. *)
Definition all_model : list ModelId :=
  [Hrrr; HrrrAk; Gfs; Gdps; GdpsGeml; CmaGeps; Rdps; Hrdps; HrdpsWest; Reps; IconEu; IconD2; IconRu; Geps;
   WrfCptec7km; BramsCptec8km; EtaCptec8km; Gdas; Gefs; Aigfs; Aigefs; Hgefs; EcmwfOpenData; Aifs; Rap; Nam;
   Hiresw; Href; Sref; Rtma; Urma; Nbm; RrfsA; RrfsPublic; Refs; RrfsFireWx; WrfGdex; AromeFrance001;
   AromeFrance0025].

(** [ModelId::as_str]. *)
Definition model_as_str (id : ModelId) : string :=
  match id with
  | Hrrr => "hrrr"
  | HrrrAk => "hrrr-ak"
  | Gfs => "gfs"
  | Gdps => "gdps"
  | GdpsGeml => "gdps-geml"
  | CmaGeps => "cma-geps"
  | Rdps => "rdps"
  | Hrdps => "hrdps"
  | HrdpsWest => "hrdps-west"
  | Reps => "reps"
  | IconEu => "icon-eu"
  | IconD2 => "icon-d2"
  | IconRu => "icon-ru"
  | AromeFrance001 => "arome-france-0p01"
  | AromeFrance0025 => "arome-france-0p025"
  | Geps => "geps"
  | WrfCptec7km => "wrf-cptec-7km"
  | BramsCptec8km => "brams-cptec-8km"
  | EtaCptec8km => "eta-cptec-8km"
  | Gdas => "gdas"
  | Gefs => "gefs"
  | Aigfs => "aigfs"
  | Aigefs => "aigefs"
  | Hgefs => "hgefs"
  | EcmwfOpenData => "ecmwf-open-data"
  | Aifs => "aifs"
  | Rap => "rap"
  | Nam => "nam"
  | Hiresw => "hiresw"
  | Href => "href"
  | Sref => "sref"
  | Rtma => "rtma"
  | Urma => "urma"
  | Nbm => "nbm"
  | RrfsA => "rrfs-a"
  | RrfsPublic => "rrfs-public"
  | Refs => "refs"
  | RrfsFireWx => "rrfs-firewx"
  | WrfGdex => "wrf"
  end.

(** The arms of [FromStr for ModelId]. *)
Definition model_names : list (list string * ModelId) :=
  [(["hrrr"], Hrrr);
   (["hrrr-ak"; "hrrrak"; "hrrr_ak"; "hrrr-alaska"; "hrrr_alaska"], HrrrAk);
   (["gfs"; "gfs-0p25"; "gfs_0p25"; "gfs-0.25"; "gfs_0.25"], Gfs);
   (["gdps"; "gem"; "gem-global"; "gem_global"; "cmc-gdps"; "cmc_gdps"], Gdps);
   (["gdps-geml"; "gdps_geml"; "gdpsgeml"; "geml"; "cmc-gdps-geml"; "cmc_gdps_geml"], GdpsGeml);
   (["cma-geps"; "cma_geps"; "cmageps"; "grapes-geps"; "grapes_geps"], CmaGeps);
   (["rdps"; "gem-regional"; "gem_regional"; "cmc-rdps"; "cmc_rdps"], Rdps);
   (["hrdps"; "gem-high-resolution"; "gem_high_resolution"; "cmc-hrdps"; "cmc_hrdps"], Hrdps);
   (["hrdps-west"; "hrdps_west"; "hrdpswest"; "cmc-hrdps-west"; "cmc_hrdps_west"], HrdpsWest);
   (["reps"; "gem-regional-ensemble"; "gem_regional_ensemble"; "cmc-reps"; "cmc_reps"], Reps);
   (["icon-eu"; "icon_eu"; "iconeu"; "dwd-icon-eu"; "dwd_icon_eu"], IconEu);
   (["icon-d2"; "icon_d2"; "icond2"; "dwd-icon-d2"; "dwd_icon_d2"], IconD2);
   (["icon-ru"; "icon_ru"; "iconru"; "icon-ru13"; "icon_ru13"], IconRu);
   (["arome-france-0p01"; "arome_france_0p01"; "arome-france-0.01"; "arome_france_0.01"; "arome-0p01";
     "arome_0p01"; "arome-0.01"; "arome_0.01"; "arome-france"; "arome"], AromeFrance001);
   (["arome-france-0p025"; "arome_france_0p025"; "arome-france-0.025"; "arome_france_0.025"; "arome-0p025";
     "arome_0p025"; "arome-0.025"; "arome_0.025"], AromeFrance0025);
   (["geps"; "gem-ensemble"; "gem_ensemble"; "cmc-geps"; "cmc_geps"], Geps);
   (["wrf-cptec-7km"; "wrf_cptec_7km"; "cptec-wrf"; "cptec_wrf"; "wrf-ams-07km"; "wrf_ams_07km"], WrfCptec7km);
   (["brams-cptec-8km"; "brams_cptec_8km"; "cptec-brams"; "cptec_brams"; "brams-ams-08km"; "brams_ams_08km"], BramsCptec8km);
   (["eta-cptec-8km"; "eta_cptec_8km"; "cptec-eta"; "cptec_eta"; "eta-ams-08km"; "eta_ams_08km"], EtaCptec8km);
   (["gdas"; "gdas-0p25"; "gdas_0p25"; "gdas-0.25"; "gdas_0.25"], Gdas);
   (["gefs"; "gefs-ens"; "gefs_ens"; "gefs-ensemble"], Gefs);
   (["aigfs"; "ai-gfs"; "ai_gfs"], Aigfs);
   (["aigefs"; "ai-gefs"; "ai_gefs"], Aigefs);
   (["hgefs"; "hybrid-gefs"; "hybrid_gefs"; "hybrid-ai-gefs"; "hybrid_ai_gefs"], Hgefs);
   (["ecmwf"; "ifs"; "euro"; "european"; "ecmwf-ifs"; "ecmwf_ifs"; "ecmwf-open-data"; "ecmwf_open_data"], EcmwfOpenData);
   (["aifs"; "aifs-v2"; "aifsv2"; "aifs_single_v2"; "aifs-single"; "aifs_single"; "aifs-single-1.1"], Aifs);
   (["rap"], Rap);
   (["nam"], Nam);
   (["hiresw"; "hires"; "hires-window"; "hires_window"], Hiresw);
   (["href"; "hrefconus"; "href-conus"; "href_conus"], Href);
   (["sref"], Sref);
   (["rtma"; "rtma2p5"; "rtma-2p5"; "rtma_2p5"], Rtma);
   (["urma"; "urma2p5"; "urma-2p5"; "urma_2p5"], Urma);
   (["nbm"; "blend"; "national-blend"; "national_blend"], Nbm);
   (["rrfs-a"; "rrfsa"; "rrfs_a"], RrfsA);
   (["rrfs-public"; "rrfspublic"; "rrfs_public"; "rrfs-prototype"; "rrfs_prototype"], RrfsPublic);
   (["refs"; "rrfs-ensemble"; "rrfs_ensemble"], Refs);
   (["rrfs-firewx"; "rrfs_firewx"; "rrfsfirewx"; "firewx"; "fire-weather"], RrfsFireWx);
   (["wrf"; "wrf-arw"; "wrf_arw"; "wrf-gdex"; "wrf_gdex"; "wrfgdex"], WrfGdex)].

(** [FromStr for ModelId]: the first arm that lists the trimmed lower-case name. *)
Definition model_from_str (value : string) : result RustwxError ModelId :=
  let value := to_ascii_lowercase (trim value) in
  match list_find (fun arm : list string * ModelId => value ∈ arm.1) model_names with
  | Some (_, (_, id)) => Ok id
  | None => Err (UnknownModel value)
  end.

(** [SourceId]. *)
Inductive SourceId :=
  | SrcAws | SrcNomads | SrcGoogle | SrcAzure | SrcEcmwf | SrcEccc | SrcCma | SrcDwd | SrcRoshydrometWis2Cache
  | SrcRoshydrometWis2Origin | SrcCptec | SrcNcei | SrcGdex | SrcAifsInference | SrcEarth2Archive
  | SrcMeteoFrancePnt.

#[global] Instance SourceId_eq_dec : EqDecision SourceId.
Proof. solve_decision. Defined.

(** Every source, in declaration order. *)
Definition all_source : list SourceId :=
  [SrcAws; SrcNomads; SrcGoogle; SrcAzure; SrcEcmwf; SrcEccc; SrcCma; SrcDwd; SrcRoshydrometWis2Cache;
   SrcRoshydrometWis2Origin; SrcCptec; SrcNcei; SrcGdex; SrcAifsInference; SrcEarth2Archive; SrcMeteoFrancePnt].

(** [SourceId::as_str]. *)
Definition source_as_str (id : SourceId) : string :=
  match id with
  | SrcAws => "aws"
  | SrcNomads => "nomads"
  | SrcGoogle => "google"
  | SrcAzure => "azure"
  | SrcEcmwf => "ecmwf"
  | SrcEccc => "eccc"
  | SrcCma => "cma"
  | SrcDwd => "dwd"
  | SrcRoshydrometWis2Cache => "roshydromet-wis2-cache"
  | SrcRoshydrometWis2Origin => "roshydromet-wis2-origin"
  | SrcCptec => "cptec"
  | SrcMeteoFrancePnt => "meteo-france-pnt"
  | SrcNcei => "ncei"
  | SrcGdex => "gdex"
  | SrcAifsInference => "aifs-inference"
  | SrcEarth2Archive => "earth2-archive"
  end.

(** The arms of [FromStr for SourceId]. *)
Definition source_names : list (list string * SourceId) :=
  [(["aws"], SrcAws);
   (["nomads"], SrcNomads);
   (["google"], SrcGoogle);
   (["azure"], SrcAzure);
   (["ecmwf"], SrcEcmwf);
   (["eccc"; "msc"; "cmc"; "msc-datamart"; "msc_datamart"], SrcEccc);
   (["cma"; "cma-wis2"; "cma_wis2"; "wis2-cma"; "wis2_cma"], SrcCma);
   (["dwd"; "dwd-open-data"; "dwd_open_data"; "deutscher-wetterdienst"], SrcDwd);
   (["roshydromet-wis2-cache"; "roshydromet_wis2_cache"; "wis2-global-cache"], SrcRoshydrometWis2Cache);
   (["roshydromet-wis2-origin"; "roshydromet_wis2_origin"; "roshydromet"], SrcRoshydrometWis2Origin);
   (["cptec"; "cptec-inpe"; "cptec_inpe"; "inpe"], SrcCptec);
   (["meteo-france-pnt"; "meteo_france_pnt"; "meteofrance-pnt"; "meteofrance_pnt"; "meteo-france"; "meteo_france";
     "meteofrance"; "mf-pnt"; "mf_pnt"], SrcMeteoFrancePnt);
   (["ncei"], SrcNcei);
   (["gdex"], SrcGdex);
   (["aifs-inference"; "aifs_inference"; "aifsinference"; "inferenced-aifs"; "inferenced_aifs";
     "aifsv2-inference"; "aifsv2_inference"], SrcAifsInference);
   (["earth2-archive"; "earth2_archive"; "earth2archive"; "earth2"], SrcEarth2Archive)].

(** [FromStr for SourceId]: the first arm that lists the trimmed lower-case name. *)
Definition source_from_str (value : string) : result RustwxError SourceId :=
  let value := to_ascii_lowercase (trim value) in
  match list_find (fun arm : list string * SourceId => value ∈ arm.1) source_names with
  | Some (_, (_, id)) => Ok id
  | None => Err (UnknownSource value)
  end.

#[global] Program Instance ModelId_finite : Finite ModelId := {| enum := all_model |}.
Next Obligation. apply (bool_decide_unpack _). vm_compute. exact I. Qed.
Next Obligation. intros []; apply (bool_decide_unpack _); vm_compute; exact I. Qed.

#[global] Program Instance SourceId_finite : Finite SourceId := {| enum := all_source |}.
Next Obligation. apply (bool_decide_unpack _). vm_compute. exact I. Qed.
Next Obligation. intros []; apply (bool_decide_unpack _); vm_compute; exact I. Qed.

(** ** Spelling and parsing agree *)

(** The stable spelling of every model and of every source parses back
    to it, no name is claimed by two arms of a parser, and every model's
    spelling is one safe path component. *)
Theorem identifiers_roundtrip :
  (forall m, model_from_str (model_as_str m) = Ok m /\ validate_store_component (model_as_str m) = Ok tt)
  /\ (forall s, source_from_str (source_as_str s) = Ok s)
  /\ NoDup (model_names ≫= fst) /\ NoDup (source_names ≫= fst).
Proof.
  split_and!.
  - intros m. split; destruct m; vm_compute; reflexivity.
  - intros []; vm_compute; reflexivity.
  - apply (bool_decide_unpack _). vm_compute. exact I.
  - apply (bool_decide_unpack _). vm_compute. exact I.
Qed.

#[global] Instance model_as_str_inj : Inj (=) (=) model_as_str.
Proof.
  intros a b H.
  assert (model_from_str (model_as_str a) = Ok a) as Ha by (destruct a; vm_compute; reflexivity).
  assert (model_from_str (model_as_str b) = Ok b) as Hb by (destruct b; vm_compute; reflexivity).
  rewrite H in Ha. congruence.
Qed.

Lemma model_as_str_safe m : validate_store_component (model_as_str m) = Ok tt.
Proof. destruct m; vm_compute; reflexivity. Qed.
