(* ===== verification/Grid.v ===== *)
(** * The grid file

    [crates/rw-store/src/grid.rs]: the [.rwg] file that every hour of a run
    refers to by the hash of its bytes. Its layout is parsed with checked
    arithmetic, its two coordinate arrays are compressed one by one. The
    locator of the same file is floating-point geometry and is left out. *)
From stdpp Require Import base list strings numbers.
From Stdlib Require Import ZArith Lia SpecFloat Ascii.
From S2P Require Import Prelude F32 Format Header Codec Reader Concrete Text Ids.

Local Open Scope Z_scope.

(** ** The grid of the data model ([crates/rustwx-core/src/lib.rs]) *)

Record GridShape := { gs_nx : nat; gs_ny : nat }.

Definition checked_len (s : GridShape) : result RustwxError nat :=
  _ ← reject ((gs_nx s =? 0)%nat || (gs_ny s =? 0)%nat) (InvalidGridShape (gs_nx s) (gs_ny s));
  cells ← ok_or (checked_mul (gs_nx s) (gs_ny s)) (InvalidGridShape (gs_nx s) (gs_ny s));
  _ ← reject (MAX_GRID_CELLS <? Z.of_nat cells) (GridTooLarge (gs_nx s) (gs_ny s) cells);
  Ok cells.
Definition grid_shape_new (nx ny : nat) : result RustwxError GridShape :=
  let shape := {| gs_nx := nx; gs_ny := ny |} in
  _ ← checked_len shape;
  Ok shape.

Inductive GridProjection :=
| Geographic
| LambertConformal (standard_parallel_1_deg standard_parallel_2_deg central_meridian_deg : f64)
| PolarStereographic (true_latitude_deg central_meridian_deg : f64) (south_pole_on_projection_plane : bool)
| Mercator (latitude_of_true_scale_deg central_meridian_deg : f64)
| Other (template : Z).

Record LatLonGrid := { shape : GridShape; lat_deg : list f32; lon_deg : list f32 }.

(** ** Constants *)

Definition GRID_MAGIC : list byte := [Byte.x52; Byte.x57; Byte.x53; Byte.x47; Byte.x52; Byte.x49; Byte.x44; Byte.x31].
Definition GRID_VERSION : Z := 1.
Definition GRID_SUPPORTED_VERSIONS : list Z := [1].
Definition SCHEMA_GRID : string := "rw-store.grid.v1".
Definition MAX_GRID_META_LEN : Z := 1024 * 1024.
Definition MAX_COORD_RAW_LEN : Z := MAX_GRID_CELLS * 4.
Definition MAX_COORD_COMP_LEN : Z := MAX_COORD_RAW_LEN + 1024 * 1024.
Definition MAX_GRID_FILE_LEN : Z := Z.of_nat HEADER_LEN + MAX_GRID_META_LEN + 2 * MAX_COORD_COMP_LEN.

(** ** Metadata and code outside the repository *)

Record RwsGridMeta := {
  gm_schema : string;
  gm_nx : nat;
  gm_ny : nat;
  lat_raw_len : Z;
  lon_raw_len : Z;
  gm_projection : option GridProjection
}.

(** The 64-bit numbers that JSON can represent. *)
Definition f64_finite (v : f64) : bool :=
  match v with S754_zero _ => true | S754_finite _ m e => SpecFloat.bounded 53 1024 m e | _ => false end.
Definition projection_finite (p : GridProjection) : bool :=
  match p with
  | Geographic | Other _ => true
  | LambertConformal a b c => f64_finite a && f64_finite b && f64_finite c
  | PolarStereographic a b _ | Mercator a b => f64_finite a && f64_finite b
  end.

(** sha2, serde_json and the zstd decoder with a window of [2^27]. *)
Class GridExternal := {
  sha256_digest : list byte -> list byte;
  grid_json_to_vec : RwsGridMeta -> RwResult (list byte);
  grid_json_from_slice : list byte -> RwResult RwsGridMeta;
  grid_zstd_decoder : list byte -> RwResult ZstdStream
}.
(** serde_json is built with [float_roundtrip], so finite numbers come back
    as they were; the text of a grid's metadata is four integers, a schema
    and at most three numbers. *)
Class GridExternalLaws `{External, GridExternal} := {
  grid_json_roundtrip : forall m bytes, match gm_projection m with Some p => projection_finite p = true | None => True end ->
    grid_json_to_vec m = Ok bytes -> grid_json_from_slice bytes = Ok m;
  grid_json_short : forall m bytes, gm_schema m = SCHEMA_GRID -> grid_json_to_vec m = Ok bytes -> Z.of_nat (length bytes) <= MAX_GRID_META_LEN;
  grid_json_no_panic : forall bytes, grid_json_from_slice bytes <> Panic;
  grid_zstd_roundtrip : forall raw comp, zstd_encode_all raw = Ok comp ->
    grid_zstd_decoder comp = Ok {| produced := raw; clean_end := true |};
  grid_zstd_no_panic : forall comp, grid_zstd_decoder comp <> Panic
}.

(** ** Layout *)

Record GridLayout := { meta_end : nat; lat_end : nat; file_end : nat }.

(** [parse_grid_layout]; a [u64] below its limit is a [usize]. *)
Definition parse_grid_layout (header : list byte) (file_len : Z) : RwResult GridLayout :=
  magic ← slice header 0 8;
  _ ← reject (negb (bool_decide (magic = GRID_MAGIC))) (Format "bad grid magic: expected {:?}, got {:?}");
  version ← from_le <$> slice header 8 12;
  _ ← reject (negb (existsb (Z.eqb version) GRID_SUPPORTED_VERSIONS)) (UnsupportedVersion version GRID_SUPPORTED_VERSIONS);
  meta_len ← from_le <$> slice header 12 16;
  lat_comp_len ← from_le <$> slice header 16 24;
  lon_comp_len ← from_le <$> slice header 24 32;
  _ ← reject (MAX_GRID_META_LEN <? meta_len) (Format "grid meta JSON is {} bytes; limit is {} bytes");
  _ ← rfold (fun _ len => reject (MAX_COORD_COMP_LEN <? len) (Format "grid {} compressed section is {} bytes; limit is {} bytes"))
        [lat_comp_len; lon_comp_len] tt;
  '(me, le, fe) ← ok_or (me ← checked_add64 (Z.of_nat HEADER_LEN) meta_len;
                          le ← checked_add64 me lat_comp_len;
                          fe ← checked_add64 le lon_comp_len;
                          Some (me, le, fe))
                    (Format "grid section lengths overflow the file layout");
  _ ← reject (negb (fe =? file_len)) (Format "grid file length mismatch: header describes {} bytes, have {}");
  Ok {| meta_end := Z.to_nat me; lat_end := Z.to_nat le; file_end := Z.to_nat fe |}.

Definition validate_grid_file_len (file_len : Z) : RwResult unit :=
  _ ← reject (file_len <? Z.of_nat HEADER_LEN) (Format "grid header requires {} bytes, got {}");
  reject (MAX_GRID_FILE_LEN <? file_len) (Format "grid file is {} bytes; limit is {} bytes").

(** ** Encoding *)

(** [{byte:02x}]. *)
Definition hex_digit (z : Z) : ascii := if z <? 10 then chr (48 + z) else chr (87 + z).
Definition hex_byte (b : byte) : list ascii := [hex_digit (byte_to_Z b / 16); hex_digit (byte_to_Z b mod 16)].

Definition f32s_to_le_bytes (values : list f32) : list byte := values ≫= f32_to_le.

(** The header [encode_grid_bytes] fills in. *)
Definition grid_header (meta_len lat_comp_len lon_comp_len : Z) : list byte :=
  GRID_MAGIC ++ to_le 4 GRID_VERSION ++ to_le 4 meta_len ++ to_le 8 lat_comp_len ++ to_le 8 lon_comp_len ++ replicate 32 Byte.x00.

Record GridFile := {
  gf_nx : nat;
  gf_ny : nat;
  lat : list f32;
  lon : list f32;
  projection : option GridProjection;
  hash : string
}.

Section grid.
Context `{F32Ties, External, !GridExternal}.

Definition sha256_hex (bs : list byte) : string := of_bytes (sha256_digest bs ≫= hex_byte).

(** [try_zeroed_bytes], for a buffer that is filled afterwards. *)
Definition reserve_bytes (len : nat) : RwResult unit :=
  reject (negb (try_reserve (Z.of_nat len))) (Format "cannot allocate {} bytes for {}: {}").

(** [read_grid_bytes], for a file that does not change while it is read. *)
Definition read_grid_bytes (content : list byte) : RwResult (list byte * GridLayout) :=
  let file_len := Z.of_nat (length content) in
  _ ← validate_grid_file_len file_len;
  header ← slice content 0 HEADER_LEN;
  layout ← parse_grid_layout header file_len;
  _ ← reserve_bytes (file_end layout);
  rest ← slice content HEADER_LEN (file_end layout);
  _ ← reject (file_end layout <? length content)%nat (Format "grid file grew while it was being read");
  Ok (header ++ rest, layout).

Definition encode_grid_bytes (grid : LatLonGrid) (proj : option GridProjection) : RwResult (list byte * string) :=
  let nx := gs_nx (shape grid) in
  let ny := gs_ny (shape grid) in
  _ ← reject ((nx =? 0)%nat || (ny =? 0)%nat) (Grid "degenerate grid {}x{} (nx and ny must be nonzero)");
  cells ← ok_or (checked_mul nx ny) (Grid "grid {}x{} overflows the cell count");
  _ ← reject (MAX_GRID_CELLS <? Z.of_nat cells) (Grid "grid {}x{} has {} cells; limit is {}");
  _ ← reject (negb (length (lat_deg grid) =? cells)%nat || negb (length (lon_deg grid) =? cells)%nat)
        (Grid "coordinate arrays must hold {} values ({} x {}), got lat {} / lon {}");
  let lat_raw := f32s_to_le_bytes (lat_deg grid) in
  let lon_raw := f32s_to_le_bytes (lon_deg grid) in
  lat_comp ← zstd_encode_all lat_raw;
  lon_comp ← zstd_encode_all lon_raw;
  let meta := {| gm_schema := SCHEMA_GRID; gm_nx := nx; gm_ny := ny; lat_raw_len := Z.of_nat (length lat_raw);
                 lon_raw_len := Z.of_nat (length lon_raw); gm_projection := proj |} in
  meta_bytes ← map_err (fun _ => Meta "{err}") (grid_json_to_vec meta);
  _ ← reject (negb (Z.of_nat (length meta_bytes) <? u32_limit)) (Format "grid meta JSON too large: {} bytes");
  let bs := grid_header (Z.of_nat (length meta_bytes)) (Z.of_nat (length lat_comp)) (Z.of_nat (length lon_comp))
            ++ meta_bytes ++ lat_comp ++ lon_comp in
  Ok (bs, sha256_hex bs).

(** [decompress_coords]. *)
Definition decompress_coords (comp : list byte) (raw_len : nat) : RwResult (list f32) :=
  _ ← reserve_bytes raw_len;
  stream ← map_err (fun _ => Format "grid {} array decompress: {}") (grid_zstd_decoder comp);
  _ ← reject (length (produced stream) <? raw_len)%nat (Format "grid {} array decompress: {}");
  _ ← reject (raw_len <? length (produced stream))%nat (Format "grid {} array decompressed beyond the expected {} bytes");
  _ ← reject (negb (clean_end stream)) (Format "grid {} array decompress: {}");
  let raw := produced stream in
  _ ← reject (negb (try_reserve (4 * Z.of_nat (raw_len / 4)))) (Format "cannot allocate {} f32 values for grid {} coordinates: {}");
  rmap (fun chunk => or_panic (f32_from_le chunk)) (chunks_exact 4 raw).

(** [GridFile::open]. *)
Definition grid_open (content : list byte) : RwResult GridFile :=
  '(data, layout) ← read_grid_bytes content;
  meta_text ← slice data HEADER_LEN (meta_end layout);
  meta ← map_err (fun _ => Meta "grid meta JSON: {err}") (grid_json_from_slice meta_text);
  _ ← reject (negb (bool_decide (gm_schema meta = SCHEMA_GRID))) (Meta "unexpected schema '{}' (expected '{}')");
  _ ← reject ((gm_nx meta =? 0)%nat || (gm_ny meta =? 0)%nat) (Meta "degenerate grid {}x{} (nx and ny must be nonzero)");
  cells ← ok_or (cells ← checked_mul (gm_nx meta) (gm_ny meta); if Z.of_nat cells <=? MAX_GRID_CELLS then Some cells else None)
            (Meta "grid {}x{} exceeds the supported ceiling of {} cells");
  raw_len ← ok_or (len ← checked_mul64 (Z.of_nat cells) 4; if len <=? MAX_COORD_RAW_LEN then Some len else None)
              (Meta "grid {}x{} exceeds the supported coordinate array size");
  _ ← reject (negb (lat_raw_len meta =? raw_len) || negb (lon_raw_len meta =? raw_len))
        (Meta "coordinate raw lengths (lat {}, lon {}) do not match {}x{} grid ({})");
  lat_comp ← slice data (meta_end layout) (lat_end layout);
  lat ← decompress_coords lat_comp (Z.to_nat raw_len);
  lon_comp ← slice data (lat_end layout) (file_end layout);
  lon ← decompress_coords lon_comp (Z.to_nat raw_len);
  Ok {| gf_nx := gm_nx meta; gf_ny := gm_ny meta; lat := lat; lon := lon; projection := gm_projection meta; hash := sha256_hex data |}.

(** [lat_descending]: the scan of one column, then of all. *)
Fixpoint column_descending (g : GridFile) (x : nat) (first : option f32) (ys : list nat) : RwResult (option bool) :=
  match ys with
  | [] => Ok None
  | y :: ys =>
      l ← or_panic (lat g !! (y * gf_nx g + x)%nat);
      if negb (is_finite l) then column_descending g x first ys
      else match first with
           | None => column_descending g x (Some l) ys
           | Some earlier => if negb (f32_eqb l earlier) then Ok (Some (f32_ltb l earlier)) else column_descending g x first ys
           end
  end.
Fixpoint columns_descending (g : GridFile) (xs : list nat) : RwResult (option bool) :=
  match xs with
  | [] => Ok None
  | x :: xs =>
      r ← column_descending g x None (seq 0 (gf_ny g));
      match r with Some b => Ok (Some b) | None => columns_descending g xs end
  end.
Definition lat_descending (g : GridFile) : RwResult (option bool) := columns_descending g (seq 0 (gf_nx g)).
End grid.

(** ** Layout *)

Lemma length_grid_header a b c : length (grid_header a b c) = HEADER_LEN.
Proof. reflexivity. Qed.

Lemma comp_limit : MAX_COORD_COMP_LEN < 2 ^ 62.
Proof. reflexivity. Qed.

Lemma parse_grid_header ml la lo : 0 <= ml <= MAX_GRID_META_LEN -> 0 <= la <= MAX_COORD_COMP_LEN -> 0 <= lo <= MAX_COORD_COMP_LEN ->
  parse_grid_layout (grid_header ml la lo) (64 + ml + la + lo)
  = Ok {| meta_end := Z.to_nat (64 + ml); lat_end := Z.to_nat (64 + ml + la); file_end := Z.to_nat (64 + ml + la + lo) |}.
Proof.
  intros Hm Ha Ho. pose proof comp_limit as Hc. unfold parse_grid_layout.
  change (slice (grid_header ml la lo) 0 8) with (Ok (E := RwStoreError) GRID_MAGIC).
  change (slice (grid_header ml la lo) 8 12) with (Ok (E := RwStoreError) (to_le 4 GRID_VERSION)).
  change (slice (grid_header ml la lo) 12 16) with (Ok (E := RwStoreError) (to_le 4 ml)).
  change (slice (grid_header ml la lo) 16 24) with (Ok (E := RwStoreError) (to_le 8 la)).
  change (slice (grid_header ml la lo) 24 32) with (Ok (E := RwStoreError) (to_le 8 lo)).
  cbn [mbind result_bind fmap result_fmap]. rewrite bool_decide_eq_true_2 by done. cbn [negb reject mbind result_bind].
  assert (MAX_GRID_META_LEN < 2 ^ 31) by done.
  rewrite !from_to_le_small by (unfold GRID_VERSION; simpl; lia). cbn [existsb GRID_SUPPORTED_VERSIONS GRID_VERSION Z.eqb Pos.eqb orb negb reject mbind result_bind rfold].
  rewrite !(proj2 (Z.ltb_ge _ _)) by lia. cbn [reject mbind result_bind]. change (Z.of_nat HEADER_LEN) with 64.
  unfold checked_add64, u64_limit. rewrite !(proj2 (Z.ltb_lt _ _)) by lia. cbn [mbind option_bind].
  rewrite (proj2 (Z.ltb_lt _ _)) by lia. cbn [mbind option_bind]. rewrite (proj2 (Z.ltb_lt _ _)) by lia. cbn [ok_or mbind option_bind result_bind].
  rewrite Z.eqb_refl. done.
Qed.

Lemma layout_ordered header len l : parse_grid_layout header len = Ok l ->
  (HEADER_LEN <= meta_end l <= lat_end l)%nat /\ (lat_end l <= file_end l)%nat /\ Z.of_nat (file_end l) = len.
Proof.
  unfold parse_grid_layout. intros H. res_inv H. res_clean. subst.
  repeat match goal with X : slice header _ _ = Ok ?s |- _ => pose proof (from_le_range s); clear X end.
  repeat match goal with X : checked_add64 _ _ = Some _ |- _ => apply checked_add64_inv in X as [? ?] end.
  unfold HEADER_LEN in *. breflect.
  match goal with X : Some _ = Some ?p |- _ => injection X as <- end. res_inv H. res_clean. breflect. subst.
  cbn [meta_end lat_end file_end]. lia.
Qed.

Section facts.
Context `{F32Ties, External, !ExternalLaws, !GridExternal, !GridExternalLaws}.

Lemma read_bytes_inv content data l : read_grid_bytes content = Ok (data, l) ->
  data = content /\ (HEADER_LEN <= meta_end l <= lat_end l)%nat /\ (lat_end l <= file_end l)%nat /\ file_end l = length content.
Proof.
  unfold read_grid_bytes. intros E. res_inv E. res_clean. subst.
  match goal with X : parse_grid_layout _ _ = Ok l |- _ => apply layout_ordered in X as (Hm & Hf & Hl) end.
  assert (file_end l = length content) as El by lia. split_and!; try lia.
  rewrite El in *. repeat match goal with X : slice content _ _ = Ok _ |- _ => apply slice_inv in X as (? & ? & ->) end.
  rewrite drop_0, !Nat.sub_0_r, (take_ge (drop _ _)) by (rewrite length_drop; lia). apply take_drop.
Qed.

Lemma length_raw values : length (f32s_to_le_bytes values) = (length values * 4)%nat.
Proof. apply length_bind_const. apply length_f32_to_le. Qed.

Lemma decompress_encoded values comp : alloc_succeeds -> zstd_encode_all (f32s_to_le_bytes values) = Ok comp ->
  decompress_coords comp (length values * 4) = Ok values.
Proof.
  intros Ha Hc. unfold decompress_coords, reserve_bytes. rewrite !Ha. cbn [negb reject mbind result_bind].
  rewrite (grid_zstd_roundtrip _ _ Hc). cbn [map_err mbind result_bind produced clean_end negb].
  rewrite length_raw, Nat.ltb_irrefl. cbn [reject mbind result_bind].
  unfold f32s_to_le_bytes. rewrite chunks_exact_bind by (auto using length_f32_to_le with lia). apply rmap_f32_from_le.
Qed.

(** The coordinate sections of a grid of this size fit the reader's limits. *)
Lemma comp_fits values comp : Z.of_nat (length values) <= 2 ^ 59 -> zstd_encode_all (f32s_to_le_bytes values) = Ok comp ->
  0 <= Z.of_nat (length comp) <= MAX_COORD_COMP_LEN.
Proof.
  intros Hv Hc. apply zstd_bound in Hc. rewrite length_raw in Hc. split; [lia|].
  assert (length values * 4 / 256 <= length values)%nat by (apply Nat.Div0.div_le_upper_bound; lia).
  transitivity (2 ^ 59 * 5 + 64); [lia|]. vm_compute. discriminate.
Qed.

(** What [GridFile::open] makes of an encoded grid. *)
Definition grid_file_of (grid : LatLonGrid) (proj : option GridProjection) (h : string) : GridFile :=
  {| gf_nx := gs_nx (shape grid); gf_ny := gs_ny (shape grid); lat := lat_deg grid; lon := lon_deg grid; projection := proj; hash := h |}.

Lemma encode_inv grid proj bs h : encode_grid_bytes grid proj = Ok (bs, h) ->
  exists cells lat_comp lon_comp meta_bytes,
    cells = (gs_nx (shape grid) * gs_ny (shape grid))%nat /\ (0 < cells)%nat /\ Z.of_nat cells <= MAX_GRID_CELLS
    /\ length (lat_deg grid) = cells /\ length (lon_deg grid) = cells
    /\ zstd_encode_all (f32s_to_le_bytes (lat_deg grid)) = Ok lat_comp /\ zstd_encode_all (f32s_to_le_bytes (lon_deg grid)) = Ok lon_comp
    /\ grid_json_to_vec {| gm_schema := SCHEMA_GRID; gm_nx := gs_nx (shape grid); gm_ny := gs_ny (shape grid);
         lat_raw_len := Z.of_nat (cells * 4); lon_raw_len := Z.of_nat (cells * 4); gm_projection := proj |} = Ok meta_bytes
    /\ bs = grid_header (Z.of_nat (length meta_bytes)) (Z.of_nat (length lat_comp)) (Z.of_nat (length lon_comp)) ++ meta_bytes ++ lat_comp ++ lon_comp
    /\ h = sha256_hex bs.
Proof.
  unfold encode_grid_bytes. intros E. res_inv E. res_clean. breflect. subst.
  match goal with X : map_err _ (grid_json_to_vec ?m) = Ok ?mb |- _ =>
    destruct (grid_json_to_vec m) as [mb'| |] eqn:Ej; [|done..]; injection X as -> end.
  rewrite !length_raw in Ej. repeat match goal with X : length _ = _ |- _ => rewrite X in Ej end.
  exists (gs_nx (shape grid) * gs_ny (shape grid))%nat. do 3 eexists. split_and!; try done. nia.
Qed.

Lemma encoded_opens grid proj bs h :
  alloc_succeeds -> Z.of_nat (length (lat_deg grid)) <= 2 ^ 59 ->
  match proj with Some p => projection_finite p = true | None => True end ->
  encode_grid_bytes grid proj = Ok (bs, h) -> grid_open bs = Ok (grid_file_of grid proj h).
Proof.
  intros Ha Hsz Hp (cells & lc & oc & mb & Ec & Hpos & Hmax & Hla & Hlo & Hlc & Hoc & Hj & Hb & Hh)%encode_inv.
  assert (Hml : 0 <= Z.of_nat (length mb) <= MAX_GRID_META_LEN) by (split; [lia|by eapply grid_json_short in Hj]).
  assert (Hl1 := comp_fits _ _ Hsz Hlc). assert (Hl2 := comp_fits (lon_deg grid) oc ltac:(lia) Hoc).
  set (ml := Z.of_nat (length mb)) in *. set (la := Z.of_nat (length lc)) in *. set (lo := Z.of_nat (length oc)) in *.
  assert (Hlen : Z.of_nat (length bs) = 64 + ml + la + lo).
  { rewrite Hb, !length_app, length_grid_header. unfold HEADER_LEN. lia. }
  assert (Hread : read_grid_bytes bs = Ok (bs, {| meta_end := (64 + length mb); lat_end := (64 + length mb + length lc);
      file_end := (64 + length mb + length lc + length oc) |}%nat)).
  { unfold read_grid_bytes, validate_grid_file_len, reserve_bytes. rewrite Hlen. unfold MAX_GRID_FILE_LEN, HEADER_LEN.
    rewrite !(proj2 (Z.ltb_ge _ _)) by lia. cbn [reject mbind result_bind negb].
    rewrite (slice_ok bs 0 64) by lia. cbn [mbind result_bind Nat.sub]. rewrite drop_0, Hb.
    rewrite (take_app_le _ _ 64) by (rewrite length_grid_header; done). rewrite take_ge by (rewrite length_grid_header; done).
    rewrite parse_grid_header by done. cbn [mbind result_bind file_end]. rewrite Ha. cbn [negb reject mbind result_bind].
    rewrite slice_ok; [|lia|rewrite <- Hb; lia]. cbn [mbind result_bind]. rewrite <- Hb, (proj2 (Nat.ltb_ge _ _)) by lia.
    cbn [reject mbind result_bind]. f_equal. f_equal; [|f_equal; lia].
    rewrite take_ge by (rewrite length_drop; lia). rewrite Hb, drop_app_ge by (rewrite length_grid_header; done).
    by rewrite length_grid_header. }
  assert (Hmeta : slice (E := RwStoreError) bs HEADER_LEN (64 + length mb) = Ok mb).
  { rewrite Hb. apply slice_app_exact; by rewrite length_grid_header. }
  assert (Hlat : slice (E := RwStoreError) bs (64 + length mb) (64 + length mb + length lc) = Ok lc).
  { rewrite Hb, app_assoc. apply slice_app_exact; rewrite length_app, length_grid_header; unfold HEADER_LEN; lia. }
  assert (Hlon : slice (E := RwStoreError) bs (64 + length mb + length lc) (64 + length mb + length lc + length oc) = Ok oc).
  { rewrite Hb, !app_assoc, <- (app_nil_r oc) at 1. apply slice_app_exact; rewrite !length_app, length_grid_header; unfold HEADER_LEN; lia. }
  unfold grid_open. rewrite Hread. cbn [mbind result_bind meta_end lat_end file_end].
  rewrite Hmeta. cbn [mbind result_bind]. pose proof Hj as ->%grid_json_roundtrip; [|exact Hp].
  cbn [map_err mbind result_bind gm_schema gm_nx gm_ny lat_raw_len lon_raw_len gm_projection].
  rewrite bool_decide_eq_true_2 by done. cbn [negb reject mbind result_bind].
  rewrite (proj2 (Nat.eqb_neq (gs_nx _) 0)), (proj2 (Nat.eqb_neq (gs_ny _) 0)) by nia. cbn [orb reject mbind result_bind].
  assert (Hlim : MAX_GRID_CELLS * 4 < 2 ^ 64) by done.
  unfold checked_mul, checked_mul64, usize_limit, u64_limit, MAX_COORD_RAW_LEN in *.
  rewrite <- Nat2Z.inj_mul, <- Ec, (proj2 (Z.ltb_lt _ _)) by lia. cbn [mbind option_bind].
  rewrite (proj2 (Z.leb_le _ _)) by lia. cbn [ok_or mbind option_bind result_bind].
  rewrite (proj2 (Z.ltb_lt _ _)) by lia. cbn [mbind option_bind]. rewrite (proj2 (Z.leb_le _ _)) by lia. cbn [ok_or mbind result_bind].
  rewrite (proj2 (Z.eqb_eq (Z.of_nat (cells * 4)) _)) by lia. cbn [negb orb reject mbind result_bind].
  rewrite Hlat. cbn [mbind result_bind]. replace (Z.to_nat (Z.of_nat cells * 4)) with (cells * 4)%nat by lia.
  rewrite <- Hla at 1. rewrite (decompress_encoded _ _ Ha Hlc). cbn [mbind result_bind]. rewrite Hlon. cbn [mbind result_bind].
  rewrite <- Hlo at 1. rewrite (decompress_encoded _ _ Ha Hoc). cbn [mbind result_bind]. unfold grid_file_of. by rewrite Hh.
Qed.

Lemma decompress_length comp n values : decompress_coords comp n = Ok values -> length values = (n / 4)%nat.
Proof.
  unfold decompress_coords. intros E. res_inv E. res_clean. breflect.
  apply rmap_ok_inv, Forall2_length in E. rewrite <- E. unfold chunks_exact. rewrite length_fmap, length_seq. f_equal. lia.
Qed.

Lemma decompress_no_panic comp n : decompress_coords comp n <> Panic.
Proof.
  unfold decompress_coords, reserve_bytes. no_panic.
  - pose proof (grid_zstd_no_panic comp). destruct (grid_zstd_decoder comp); done.
  - apply rmap_no_panic. intros c Hc. unfold chunks_exact in Hc. apply list_elem_of_fmap in Hc as (i & -> & [_ Hi]%elem_of_seq).
    pose proof (Nat.Div0.mul_div_le (length (produced a0)) 4).
    destruct (f32_from_le_is_Some (take 4 (drop (i * 4) (produced a0)))) as [x ->]; [|done]. rewrite length_take, length_drop. lia.
Qed.

(** A grid file that opens. *)
Definition grid_ok (g : GridFile) : Prop :=
  (0 < gf_nx g)%nat /\ (0 < gf_ny g)%nat /\ Z.of_nat (gf_nx g * gf_ny g) <= MAX_GRID_CELLS
  /\ length (lat g) = (gf_nx g * gf_ny g)%nat /\ length (lon g) = (gf_nx g * gf_ny g)%nat.

Lemma open_ok content g : grid_open content = Ok g -> grid_ok g /\ hash g = sha256_hex content.
Proof.
  unfold grid_open. intros E. res_inv E. destruct a as [data l]. res_inv E.
  match goal with X : read_grid_bytes _ = Ok _ |- _ => apply read_bytes_inv in X as (-> & _) end. res_clean. breflect. subst.
  cbn. split; [|done]. unfold grid_ok. cbn.
  repeat match goal with X : decompress_coords _ _ = Ok _ |- _ => apply decompress_length in X; rewrite X end.
  repeat match goal with X : (if ?b then Some _ else None) = Some _ |- _ => destruct b eqn:?; [injection X as X|done] end. breflect.
  match goal with X : (_ * _)%nat = ?c, Y : Z.of_nat ?c * 4 = lat_raw_len _ |- _ => rewrite <- Y, <- X in * end.
  replace (Z.to_nat (Z.of_nat (gm_nx a0 * gm_ny a0) * 4)) with (gm_nx a0 * gm_ny a0 * 4)%nat by lia. rewrite Nat.div_mul by lia.
  split_and!; lia.
Qed.

Lemma read_no_panic content : read_grid_bytes content <> Panic.
Proof.
  unfold read_grid_bytes, validate_grid_file_len, reserve_bytes. apply bind_no_panic; [no_panic|].
  intros u Hv. res_inv Hv. res_clean. breflect. unfold HEADER_LEN in *. rewrite slice_ok by lia. cbn [mbind result_bind].
  apply bind_no_panic.
  - unfold parse_grid_layout. assert (length (take (64 - 0) (drop 0 content)) = 64)%nat by (rewrite drop_0, length_take; lia).
    no_panic; auto with rw lia.
    + cbn [rfold]. no_panic.
    + match goal with |- context [match ?x with (_, _) => _ end] => destruct x as [[? ?] ?] end. no_panic.
  - intros l Hl%layout_ordered. no_panic. apply slice_no_panic; unfold HEADER_LEN in *; lia.
Qed.

Lemma open_no_panic content : grid_open content <> Panic.
Proof.
  unfold grid_open. apply bind_no_panic; [apply read_no_panic|]. intros [data l] (-> & H1' & H2' & H3')%read_bytes_inv.
  apply bind_no_panic; [apply slice_no_panic; lia|]. intros text Ht. clear Ht.
  apply bind_no_panic; [pose proof (grid_json_no_panic text); by destruct (grid_json_from_slice text)|]. intros meta Hm. clear Hm.
  no_panic; try apply decompress_no_panic; apply slice_no_panic; lia.
Qed.
End facts.

(** C24: a grid that is encoded is the grid that is opened: the bytes
    [encode_grid_bytes] returns for any grid of up to [2^59] cells, with no
    projection or one whose parameters are finite, open as that grid, bit for
    bit, with that projection and the hash the encoder returned. *)
Theorem encoded_grid_opens `{F32Ties, External, !ExternalLaws, !GridExternal, !GridExternalLaws} grid proj bs h :
  alloc_succeeds -> Z.of_nat (length (lat_deg grid)) <= 2 ^ 59 ->
  match proj with Some p => projection_finite p = true | None => True end ->
  encode_grid_bytes grid proj = Ok (bs, h) ->
  grid_open bs = Ok {| gf_nx := gs_nx (shape grid); gf_ny := gs_ny (shape grid); lat := lat_deg grid; lon := lon_deg grid;
                       projection := proj; hash := h |}.
Proof. intros. by apply encoded_opens. Qed.

(** C26: whatever bytes a grid file holds, [GridFile::open] does not panic, and
    when it accepts them the grid it returns is well formed: both dimensions
    positive, their product within the cell limit, one latitude and one
    longitude per cell, and the hash that of the whole file. *)
Theorem opened_grid_wellformed `{F32Ties, External, !ExternalLaws, !GridExternal, !GridExternalLaws} content :
  grid_open content <> Panic
  /\ forall g, grid_open content = Ok g -> grid_ok g /\ hash g = sha256_hex content.
Proof. split; [apply open_no_panic|apply open_ok]. Qed.

(** ** An example *)

#[global] Instance spec_float_eq_dec : EqDecision spec_float.
Proof. intros a b. unfold Decision. repeat decide equality. Defined.
#[global] Instance GridProjection_eq_dec : EqDecision GridProjection.
Proof. solve_decision. Defined.
#[global] Instance RwsGridMeta_eq_dec : EqDecision RwsGridMeta.
Proof. solve_decision. Defined.

Definition sample_grid : LatLonGrid :=
  {| shape := {| gs_nx := 3; gs_ny := 2 |};
     lat_deg := [f32_one; f32_one; f32_one; f32_half; f32_half; f32_half];
     lon_deg := [f32_zero; f32_half; f32_one; f32_zero; f32_half; f32_one] |}.
Definition sample_projection : GridProjection := Mercator (S754_zero false) f64_half.
Definition known_grid_meta : RwsGridMeta :=
  {| gm_schema := SCHEMA_GRID; gm_nx := 3; gm_ny := 2; lat_raw_len := 24; lon_raw_len := 24; gm_projection := Some sample_projection |}.

(** A digest of one byte, and a JSON encoding that knows one grid. *)
#[global] Instance one_grid : GridExternal := {|
  sha256_digest bs := [byte_of_Z (Z.of_nat (length bs) mod 256)];
  grid_json_to_vec m := if bool_decide (m = known_grid_meta) then Ok [Byte.x67] else Err (Meta "unknown");
  grid_json_from_slice bs := if bool_decide (bs = [Byte.x67]) then Ok known_grid_meta else Err (Meta "unknown");
  grid_zstd_decoder := zstd_decoder
|}.
#[global] Instance one_grid_laws : GridExternalLaws.
Proof.
  split.
  - intros m bs _. cbn. case_bool_decide as E; intros [= <-]. by rewrite E.
  - intros m bs _. cbn. case_bool_decide as E; intros [= <-]. vm_compute. discriminate.
  - intros bs. cbn. by case_bool_decide.
  - intros raw comp [= <-]. done.
  - apply table_laws.
Qed.

Theorem encoded_grid_opens_witness : exists bs h,
  encode_grid_bytes sample_grid (Some sample_projection) = Ok (bs, h)
  /\ grid_open bs = Ok {| gf_nx := 3; gf_ny := 2; lat := lat_deg sample_grid; lon := lon_deg sample_grid;
                          projection := Some sample_projection; hash := h |}.
Proof.
  do 2 eexists. split; [vm_compute; reflexivity|].
  apply (encoded_grid_opens sample_grid (Some sample_projection)); [done|vm_compute; discriminate|reflexivity|vm_compute; reflexivity].
Defined.

Theorem opened_grid_wellformed_witness : grid_open sample_file <> Panic.
Proof. apply opened_grid_wellformed. Defined.
