(* ===== verification/Cycle.v ===== *)
(** * Cycles and their calendar

    [CycleSpec] of [crates/rustwx-core/src/lib.rs] (a [YYYYMMDD] date and an
    hour of the day) with its validation, and what
    [crates/rw-scheduler/src/plan.rs] derives from a cycle: the run and job
    identifiers and the Unix time of its origin. The theorems relate the
    days-from-civil arithmetic to a calendar that counts days one year and
    one month at a time, and the text order of run identifiers to time. *)
From Stdlib Require Import ZArith Lia Ascii String.
From stdpp Require Import base list strings numbers.
From S2P Require Import Prelude Format Text Ids.

Local Open Scope Z_scope.

(** ** Errors of the scheduler *)

(** [SchedulerError]. Variants that carry foreign errors keep only what the
    model produces. *)
Inductive SchedulerError :=
| InvalidConfig (msg : string)
| UnsupportedModel (model : ModelId)
| UnsupportedCycle (model : ModelId) (cycle_hour : Z)
| InvalidPlan (msg : string)
| InvalidState (msg : string)
| InvalidCoverage (msg : string)
| Capacity (msg : string)
| IngestFailed (msg : string)
| Core (e : RustwxError)
| SchedulerIo (msg : string)
| Json (msg : string)
| Store (e : RwStoreError).

Definition SchedulerResult := result SchedulerError.

(** ** [i64] arithmetic *)

Definition i64_ok (z : Z) : bool := (- 2 ^ 63 <=? z) && (z <? 2 ^ 63).
Definition checked_add_i64 (a b : Z) : option Z := if i64_ok (a + b) then Some (a + b) else None.
Definition checked_mul_i64 (a b : Z) : option Z := if i64_ok (a * b) then Some (a * b) else None.
(** [i64::try_from(u64)]. *)
Definition i64_try_from (z : Z) : option Z := if z <? 2 ^ 63 then Some z else None.

(** ** [CycleSpec] *)

Record CycleSpec := { date_yyyymmdd : string; hour_utc : Z }.

#[global] Instance CycleSpec_eq_dec : EqDecision CycleSpec.
Proof. solve_decision. Defined.

Definition is_leap_year (year : Z) : bool :=
  ((year mod 4 =? 0) && negb (year mod 100 =? 0)) || (year mod 400 =? 0).

(** The [max_day] of [validate_cycle_date]; [None] is its early return. *)
Definition max_day (year month : Z) : option Z :=
  if bool_decide (month ∈ [1; 3; 5; 7; 8; 10; 12]) then Some 31
  else if bool_decide (month ∈ [4; 6; 9; 11]) then Some 30
  else if month =? 2 then Some (if is_leap_year year then 29 else 28)
  else None.

Definition validate_cycle_date (date_yyyymmdd : string) : result RustwxError unit :=
  let bad := InvalidCycleDate date_yyyymmdd in
  let l := bytes date_yyyymmdd in
  s ← str_slice l 0 4; year ← ok_or (parse_unsigned (2 ^ 32) s) bad;
  s ← str_slice l 4 6; month ← ok_or (parse_unsigned (2 ^ 32) s) bad;
  s ← str_slice l 6 8; day ← ok_or (parse_unsigned (2 ^ 32) s) bad;
  max_day ← ok_or (max_day year month) bad;
  reject ((day =? 0) || (max_day <? day)) bad.

(** [CycleSpec::new]; [hour_utc] is a [u8]. *)
Definition cycle_spec_new (date_yyyymmdd : string) (hour_utc : Z) : result RustwxError CycleSpec :=
  let l := bytes date_yyyymmdd in
  _ ← reject (negb (length l =? 8)%nat || negb (forallb is_ascii_digit l)) (InvalidCycleDate date_yyyymmdd);
  _ ← validate_cycle_date date_yyyymmdd;
  _ ← reject (23 <? hour_utc) (InvalidCycleHour hour_utc);
  Ok {| date_yyyymmdd := date_yyyymmdd; hour_utc := hour_utc |}.

#[global] Arguments validate_cycle_date : simpl never.
#[global] Arguments cycle_spec_new : simpl never.

(** ** What the scheduler derives from a cycle *)

Definition revalidate_cycle (cycle : CycleSpec) : SchedulerResult CycleSpec :=
  map_err Core (cycle_spec_new (date_yyyymmdd cycle) (hour_utc cycle)).

Definition canonical_run_id (cycle : CycleSpec) : string :=
  of_bytes (bytes (date_yyyymmdd cycle) ++ [chr 95] ++ fmt_padded 2 (hour_utc cycle) ++ [chr 122]).

Definition canonical_job_id (model : ModelId) (cycle : CycleSpec) : string :=
  of_bytes (bytes (model_as_str model) ++ [chr 45] ++ bytes (date_yyyymmdd cycle) ++ [chr 45]
            ++ fmt_padded 2 (hour_utc cycle) ++ [chr 122]).

(** [cycle_origin_unix]; [/] on [i64] truncates. *)
Definition cycle_origin_unix (cycle : CycleSpec) : SchedulerResult Z :=
  cycle ← revalidate_cycle cycle;
  let l := bytes (date_yyyymmdd cycle) in
  s ← str_slice l 0 4; year ← ok_or (parse_i64 s) (InvalidPlan "cycle year is not numeric");
  s ← str_slice l 4 6; month ← ok_or (parse_i64 s) (InvalidPlan "cycle month is not numeric");
  s ← str_slice l 6 8; day ← ok_or (parse_i64 s) (InvalidPlan "cycle day is not numeric");
  let adjusted_year := year - (if month <=? 2 then 1 else 0) in
  let era := Z.quot (if 0 <=? adjusted_year then adjusted_year else adjusted_year - 399) 400 in
  let year_of_era := adjusted_year - era * 400 in
  let month_prime := month + (if 2 <? month then - 3 else 9) in
  let day_of_year := Z.quot (153 * month_prime + 2) 5 + day - 1 in
  let day_of_era := year_of_era * 365 + Z.quot year_of_era 4 - Z.quot year_of_era 100 + day_of_year in
  let days_since_epoch := era * 146097 + day_of_era - 719468 in
  ok_or (seconds ← checked_mul_i64 days_since_epoch 86400; checked_add_i64 seconds (hour_utc cycle * 3600))
    (InvalidPlan "cycle timestamp overflow").

(** ** The calendar, counted *)

Definition year_len (year : Z) : Z := if is_leap_year year then 366 else 365.
Definition month_len (year month : Z) : Z := default 0 (max_day year month).

(** The days of the years before [year], from year 0. *)
Fixpoint days_before_year (year : nat) : Z :=
  match year with O => 0 | S y => days_before_year y + year_len (Z.of_nat y) end.
(** The days of the months before [month]. *)
Fixpoint days_before_month (year : Z) (month : nat) : Z :=
  match month with
  | O => 0
  | S m => days_before_month year m + (if (m =? 0)%nat then 0 else month_len year (Z.of_nat m))
  end.
(** The number of days between the first of January of year 0 and a date. *)
Definition day_number (year month day : Z) : Z :=
  days_before_year (Z.to_nat year) + days_before_month year (Z.to_nat month) + day - 1.

Definition valid_date (year month day : Z) : Prop :=
  0 <= year < 10000 /\ 1 <= month <= 12 /\ 1 <= day <= month_len year month.

Definition date_text (year month day : Z) : list ascii := fixed 4 year ++ fixed 2 month ++ fixed 2 day.
Definition cycle_of (year month day hour : Z) : CycleSpec :=
  {| date_yyyymmdd := of_bytes (date_text year month day); hour_utc := hour |}.

(** ** Accepted cycles *)

Ltac month_cases month :=
  let H := fresh in
  assert (month = 1 \/ month = 2 \/ month = 3 \/ month = 4 \/ month = 5 \/ month = 6 \/ month = 7 \/ month = 8
          \/ month = 9 \/ month = 10 \/ month = 11 \/ month = 12) as H by lia;
  destruct H as [->|[->|[->|[->|[->|[->|[->|[->|[->|[->|[->| ->]]]]]]]]]]].

Lemma max_day_some year month : 1 <= month <= 12 -> max_day year month = Some (month_len year month).
Proof.
  intros H. unfold month_len. month_cases month; unfold max_day; simpl; done.
Qed.

Lemma max_day_inv year month d : max_day year month = Some d -> 1 <= month <= 12 /\ d = month_len year month.
Proof.
  intros H. unfold month_len. rewrite H. split; [|done]. revert H. unfold max_day.
  case_bool_decide as H1; [intros _; repeat (apply elem_of_cons in H1 as [->|H1]; [lia|]); by apply not_elem_of_nil in H1|].
  case_bool_decide as H2; [intros _; repeat (apply elem_of_cons in H2 as [->|H2]; [lia|]); by apply not_elem_of_nil in H2|].
  destruct (Z.eqb_spec month 2); [lia|done].
Qed.

Lemma length_date_text y m d : length (date_text y m d) = 8%nat.
Proof. unfold date_text. rewrite !length_app, !length_fixed. done. Qed.

Lemma date_text_digits y m d : all_digits (date_text y m d).
Proof. apply Forall_app_2; [|apply Forall_app_2]; apply fixed_digits. Qed.

Lemma digit_boundary l i : all_digits l -> (i <= length l)%nat -> is_char_boundary l i = true.
Proof.
  intros Hd Hi. unfold is_char_boundary. destruct (l !! i) as [c|] eqn:E.
  - apply (Forall_lookup_1 _ _ _ _ Hd) in E. unfold is_ascii_digit in E.
    rewrite (proj2 (negb_true_iff _)); [by rewrite orb_true_r|]. lia.
  - apply lookup_ge_None_1 in E. replace i with (length l) by lia. rewrite Nat.eqb_refl, orb_true_r. done.
Qed.

Lemma digit_slice {E} l a b :
  all_digits l -> (a <= b <= length l)%nat -> str_slice (E := E) l a b = Ok (take (b - a) (drop a l)).
Proof.
  intros Hd Hi. unfold str_slice. rewrite !digit_boundary by (done || lia).
  rewrite (proj2 (Nat.leb_le a b)) by lia. done.
Qed.

(** The three fields of a printed date. *)
Lemma date_text_slices {E} y m d :
  str_slice (E := E) (date_text y m d) 0 4 = Ok (fixed 4 y)
  /\ str_slice (E := E) (date_text y m d) 4 6 = Ok (fixed 2 m)
  /\ str_slice (E := E) (date_text y m d) 6 8 = Ok (fixed 2 d).
Proof.
  pose proof (date_text_digits y m d) as Hd. pose proof (length_date_text y m d) as Hl.
  rewrite !(digit_slice (date_text y m d)) by (done || lia). unfold date_text. split_and!; f_equal.
Qed.

Lemma parse_fixed w limit z :
  w <> 0%nat -> 0 <= z < 10 ^ Z.of_nat w -> z < limit -> parse_unsigned limit (fixed w z) = Some z.
Proof.
  intros Hw Hz Hl. apply parse_unsigned_digits; [apply fixed_digits| |by apply digits_from_fixed|done].
  intros H. apply (f_equal length) in H. rewrite length_fixed in H. done.
Qed.

Lemma parse_i64_fixed w z :
  w <> 0%nat -> 0 <= z < 10 ^ Z.of_nat w -> z < 2 ^ 63 -> parse_i64 (fixed w z) = Some z.
Proof.
  intros Hw Hz Hl. apply parse_i64_digits; [apply fixed_digits| |by apply digits_from_fixed|done].
  intros H. apply (f_equal length) in H. rewrite length_fixed in H. done.
Qed.

Lemma validate_date_text y m d :
  0 <= y < 10000 -> 0 <= m < 100 -> 0 <= d < 100 ->
  validate_cycle_date (of_bytes (date_text y m d)) =
  (max_day ← ok_or (max_day y m) (InvalidCycleDate (of_bytes (date_text y m d)));
   reject ((d =? 0) || (max_day <? d)) (InvalidCycleDate (of_bytes (date_text y m d)))).
Proof.
  intros Hy Hm Hd. unfold validate_cycle_date. rewrite bytes_of_bytes.
  pose proof (date_text_slices (E := RustwxError) y m d) as (E1 & E2 & E3). rewrite E1, E2, E3. simpl.
  rewrite !parse_fixed by (done || lia). done.
Qed.

Lemma cycle_of_accepted y m d h :
  valid_date y m d -> 0 <= h <= 23 -> cycle_spec_new (of_bytes (date_text y m d)) h = Ok (cycle_of y m d h).
Proof.
  intros (Hy & Hm & Hd) Hh. unfold cycle_spec_new.
  assert (month_len y m <= 31) by (unfold month_len; month_cases m; unfold max_day; simpl; repeat case_match; simpl; lia).
  rewrite validate_date_text, max_day_some by lia. rewrite bytes_of_bytes, length_date_text.
  rewrite (proj2 (forallb_digits _) (date_text_digits y m d)).
  simpl. unfold reject. rewrite (proj2 (Z.eqb_neq d 0)), (proj2 (Z.ltb_ge (month_len y m) d)) by lia. simpl.
  rewrite (proj2 (Z.ltb_ge 23 h)) by lia. done.
Qed.

Lemma all_digits_date l :
  length l = 8%nat -> all_digits l ->
  exists y m d, 0 <= y < 10000 /\ 0 <= m < 100 /\ 0 <= d < 100 /\ l = date_text y m d.
Proof.
  intros Hl Hd. rewrite <- (take_drop 4 l), <- (take_drop 2 (drop 4 l)) in Hd |- *.
  apply Forall_app in Hd as [H1 Hd]. apply Forall_app in Hd as [H2 H3].
  apply all_digits_fixed in H1 as (y & Hy & _ & E1). apply all_digits_fixed in H2 as (m & Hm & _ & E2).
  apply all_digits_fixed in H3 as (d & Hdd & _ & E3).
  rewrite length_take, ?length_drop, ?Hl in E1, Hy. rewrite length_take, length_drop, Hl in E2, Hm.
  rewrite !length_drop, Hl in E3, Hdd. simpl in *. exists y, m, d. unfold date_text. rewrite <- E1, <- E2, <- E3.
  split_and!; lia || done.
Qed.

(** [CycleSpec::new] accepts exactly the eight-digit dates of the Gregorian
    calendar, with an hour of the day. *)
Lemma cycle_accepted_iff date h c :
  0 <= h ->
  cycle_spec_new date h = Ok c
  <-> exists y m d, valid_date y m d /\ h <= 23 /\ date = of_bytes (date_text y m d) /\ c = cycle_of y m d h.
Proof.
  intros Hh. split.
  - intros H. pose proof H as H'. unfold cycle_spec_new in H'. unfold reject in H' at 1.
    destruct (negb _ || _) eqn:E; [done|]. apply orb_false_iff in E as [E1 E2].
    apply negb_false_iff, Nat.eqb_eq in E1. apply negb_false_iff in E2.
    destruct (all_digits_date (bytes date)) as (y & m & d & Hy & Hm & Hd & Ht); [done|by apply forallb_digits|].
    assert (date = of_bytes (date_text y m d)) as -> by (by rewrite <- Ht, of_bytes_bytes).
    rewrite validate_date_text in H' by done. cbn [mbind result_bind] in H'.
    destruct (max_day y m) as [md|] eqn:Em; [|done]. apply max_day_inv in Em as [Hm' ->]. simpl in H'.
    unfold reject in H'. destruct ((d =? 0) || _) eqn:Ed; [done|]. simpl in H'.
    destruct (23 <? h) eqn:E23; [done|]. injection H' as <-.
    exists y, m, d. unfold valid_date. split_and!; done || lia.
  - intros (y & m & d & Hv & Hh' & -> & ->). by apply cycle_of_accepted.
Qed.

(** ** The origin of a cycle *)

Lemma days_before_year_closed n :
  days_before_year n = 365 * Z.of_nat n + (Z.of_nat n + 3) / 4 - (Z.of_nat n + 99) / 100 + (Z.of_nat n + 399) / 400.
Proof.
  induction n as [|n IH]; [done|]. cbn [days_before_year]. rewrite IH, Nat2Z.inj_succ. unfold year_len, is_leap_year.
  generalize (Z.of_nat n). intros y.
  destruct (Z.eqb_spec (y mod 4) 0), (Z.eqb_spec (y mod 100) 0), (Z.eqb_spec (y mod 400) 0); cbn [andb orb negb];
    Z.to_euclidean_division_equations; lia.
Qed.

(** The days before a month, for the months of the calendar. *)
Lemma days_before_month_closed y m :
  1 <= m <= 12 ->
  days_before_month y (Z.to_nat m) =
  if m <=? 2 then 31 * (m - 1)
  else (153 * (m - 3) + 2) / 5 + 59 + (if is_leap_year y then 1 else 0).
Proof.
  intros Hm. month_cases m; cbv -[is_leap_year]; destruct (is_leap_year y); reflexivity.
Qed.

(** Days from civil agrees with counting. *)
Lemma days_from_civil_counts y m d :
  0 <= y -> 1 <= m <= 12 ->
  let adjusted_year := y - (if m <=? 2 then 1 else 0) in
  let era := Z.quot (if 0 <=? adjusted_year then adjusted_year else adjusted_year - 399) 400 in
  let year_of_era := adjusted_year - era * 400 in
  let month_prime := m + (if 2 <? m then - 3 else 9) in
  let day_of_year := Z.quot (153 * month_prime + 2) 5 + d - 1 in
  let day_of_era := year_of_era * 365 + Z.quot year_of_era 4 - Z.quot year_of_era 100 + day_of_year in
  era * 146097 + day_of_era - 719468 = day_number y m d - day_number 1970 1 1.
Proof.
  intros Hy Hm. unfold day_number. rewrite days_before_month_closed, days_before_year_closed, Z2Nat.id by lia.
  replace (days_before_year (Z.to_nat 1970)) with 719528 by (vm_compute; reflexivity).
  replace (days_before_month 1970 (Z.to_nat 1)) with 0 by reflexivity.
  destruct (Z.leb_spec m 2) as [H|H].
  - rewrite (proj2 (Z.ltb_ge 2 m)) by lia. cbn zeta.
    assert (m = 1 \/ m = 2) as [-> | ->] by lia; (destruct (Z.leb_spec 0 (y - 1));
      [|replace y with 0 by lia]); Z.to_euclidean_division_equations; lia.
  - rewrite (proj2 (Z.ltb_lt 2 m)) by lia. cbn zeta. rewrite Z.sub_0_r, (proj2 (Z.leb_le 0 y)) by lia.
    rewrite (Z.quot_div_nonneg (153 * _ + 2)) by lia.
    replace (m + - 3) with (m - 3) by lia. generalize ((153 * (m - 3) + 2) / 5). intros k. clear H Hm.
    unfold is_leap_year.
    destruct (Z.eqb_spec (y mod 4) 0), (Z.eqb_spec (y mod 100) 0), (Z.eqb_spec (y mod 400) 0); cbn [andb orb negb];
      Z.to_euclidean_division_equations; lia.
Qed.

Lemma revalidate_cycle_of y m d h :
  valid_date y m d -> 0 <= h <= 23 -> revalidate_cycle (cycle_of y m d h) = Ok (cycle_of y m d h).
Proof. intros Hv Hh. unfold revalidate_cycle. cbn [cycle_of date_yyyymmdd hour_utc]. by rewrite (cycle_of_accepted y m d h Hv Hh). Qed.

Lemma month_len_range y m : 1 <= m <= 12 -> 28 <= month_len y m <= 31.
Proof.
  intros Hm. unfold month_len. month_cases m; unfold max_day; simpl; repeat case_match; simpl; lia.
Qed.

Lemma days_before_year_mono a b : (a <= b)%nat -> days_before_year a + 365 * Z.of_nat (b - a) <= days_before_year b.
Proof.
  induction 1 as [|b H IH]; [rewrite Nat.sub_diag; lia|]. cbn [days_before_year]. unfold year_len.
  case_match; lia.
Qed.

Lemma days_before_month_mono y a b :
  (1 <= a <= b)%nat -> (b <= 13)%nat -> days_before_month y a + 28 * Z.of_nat (b - a) <= days_before_month y b.
Proof.
  intros [Ha H] Hb. induction H as [|b H IH]; [rewrite Nat.sub_diag; lia|].
  cbn [days_before_month]. rewrite (proj2 (Nat.eqb_neq b 0)) by lia.
  pose proof (month_len_range y (Z.of_nat b)). lia.
Qed.

Lemma days_before_month_end y : days_before_month y 13 = year_len y.
Proof. cbv -[is_leap_year]. destruct (is_leap_year y); reflexivity. Qed.

(** The day of the year of a valid date. *)
Lemma day_of_year_range y m d :
  valid_date y m d -> 0 <= days_before_month y (Z.to_nat m) + d - 1 < year_len y.
Proof.
  intros (_ & Hm & Hd).
  pose proof (days_before_month_mono y 1 (Z.to_nat m)) as H1.
  pose proof (days_before_month_mono y (S (Z.to_nat m)) 13) as H2. rewrite days_before_month_end in H2.
  cbn [days_before_month] in H2. rewrite (proj2 (Nat.eqb_neq (Z.to_nat m) 0)), Z2Nat.id in H2 by lia.
  change (days_before_month y 1) with 0 in H1. lia.
Qed.

Lemma day_number_range y m d :
  valid_date y m d -> 0 <= day_number y m d < 3652425.
Proof.
  intros Hv. pose proof (day_of_year_range y m d Hv). destruct Hv as (Hy & _). unfold day_number.
  pose proof (days_before_year_mono 0 (Z.to_nat y)) as H1. simpl days_before_year in H1.
  pose proof (days_before_year_closed (S (Z.to_nat y))) as H2. cbn [days_before_year] in H2.
  rewrite Z2Nat.id in H2 by lia. Z.to_euclidean_division_equations. lia.
Qed.

(** The origin of a cycle in seconds, counted on the calendar. *)
Definition origin_of (y m d h : Z) : Z := 86400 * (day_number y m d - day_number 1970 1 1) + 3600 * h.

Lemma cycle_origin_counts y m d h :
  valid_date y m d -> 0 <= h <= 23 -> cycle_origin_unix (cycle_of y m d h) = Ok (origin_of y m d h).
Proof.
  intros Hv Hh. unfold cycle_origin_unix. rewrite revalidate_cycle_of by done. cbn [mbind result_bind].
  pose proof Hv as (Hy & Hm & Hd). pose proof (month_len_range y m Hm).
  cbn [cycle_of date_yyyymmdd hour_utc]. rewrite bytes_of_bytes.
  pose proof (date_text_slices (E := SchedulerError) y m d) as (E1 & E2 & E3). rewrite E1, E2, E3.
  cbn [mbind result_bind]. rewrite !parse_i64_fixed by (done || lia). cbn [ok_or mbind result_bind].
  rewrite (days_from_civil_counts y m d) by lia. unfold origin_of.
  pose proof (day_number_range y m d Hv) as Hr.
  replace (day_number 1970 1 1) with 719528 by (vm_compute; reflexivity).
  unfold checked_mul_i64, checked_add_i64, i64_ok.
  rewrite (proj2 (andb_true_iff _ _)) by lia. cbn [mbind option_bind].
  rewrite (proj2 (andb_true_iff _ _)) by lia. cbn [ok_or]. f_equal. lia.
Qed.

(** [CycleSpec::new] accepts exactly the eight-digit Gregorian dates with
    an hour of the day, and for every accepted cycle [cycle_origin_unix]
    returns the seconds from 1970-01-01 00z obtained by counting the days of
    whole years and months one by one. *)
Theorem cycle_origin_is_calendar date h c :
  0 <= h ->
  cycle_spec_new date h = Ok c <->
  exists y m d, valid_date y m d /\ h <= 23 /\ date = of_bytes (date_text y m d) /\ c = cycle_of y m d h
    /\ cycle_origin_unix c = Ok (86400 * (day_number y m d - day_number 1970 1 1) + 3600 * h).
Proof.
  intros Hh. rewrite cycle_accepted_iff by done. split.
  - intros (y & m & d & Hv & H23 & -> & ->). exists y, m, d. split_and!; try done.
    by apply cycle_origin_counts.
  - intros (y & m & d & Hv & H23 & -> & -> & _). by exists y, m, d.
Qed.

Theorem cycle_origin_is_calendar_witness :
  exists y m d, valid_date y m d /\ 6 <= 23 /\ "20240229"%string = of_bytes (date_text y m d)
    /\ {| date_yyyymmdd := "20240229"; hour_utc := 6 |} = cycle_of y m d 6
    /\ cycle_origin_unix {| date_yyyymmdd := "20240229"; hour_utc := 6 |} = Ok (86400 * (day_number y m d - day_number 1970 1 1) + 3600 * 6).
Proof. apply (cycle_origin_is_calendar "20240229" 6); [lia|]. vm_compute. reflexivity. Defined.

(** ** Order of cycles *)

(** The calendar order of dates and hours. *)
Definition lex4 (a b : Z * Z * Z * Z) : comparison :=
  let '(y, m, d, h) := a in let '(y', m', d', h') := b in
  match y ?= y' with Eq => match m ?= m' with Eq => match d ?= d' with Eq => h ?= h' | o => o end | o => o end | o => o end.

Lemma origin_lt y m d h y' m' d' h' :
  valid_date y m d -> valid_date y' m' d' -> 0 <= h <= 23 -> 0 <= h' <= 23 ->
  lex4 (y, m, d, h) (y', m', d', h') = Lt -> origin_of y m d h < origin_of y' m' d' h'.
Proof.
  intros Hv Hv' Hh Hh' Hl. unfold origin_of, day_number.
  pose proof (day_of_year_range y m d Hv) as Hd. pose proof (day_of_year_range y' m' d' Hv') as Hd'.
  destruct Hv as (Hy & Hm & Hd1), Hv' as (Hy' & Hm' & Hd1'). simpl in Hl.
  destruct (Z.compare_spec y y') as [->|Hlt|]; [|clear Hl|done].
  - destruct (Z.compare_spec m m') as [->|Hlt|]; [|clear Hl|done].
    + destruct (Z.compare_spec d d') as [->|Hlt|]; [|clear Hl; lia|done].
      rewrite Z.compare_lt_iff in Hl. lia.
    + pose proof (days_before_month_mono y' (S (Z.to_nat m)) (Z.to_nat m')) as H2.
      cbn [days_before_month] in H2. rewrite (proj2 (Nat.eqb_neq (Z.to_nat m) 0)), Z2Nat.id in H2 by lia. lia.
  - pose proof (days_before_year_mono (S (Z.to_nat y)) (Z.to_nat y')) as H1. cbn [days_before_year] in H1.
    rewrite Z2Nat.id in H1 by lia. lia.
Qed.

Lemma lex4_antisym a b : lex4 b a = CompOpp (lex4 a b).
Proof.
  destruct a as [[[y m] d] h], b as [[[y' m'] d'] h']. simpl.
  rewrite (Z.compare_antisym y y'), (Z.compare_antisym m m'), (Z.compare_antisym d d'), (Z.compare_antisym h h').
  destruct (y ?= y'), (m ?= m'), (d ?= d'); done.
Qed.

Lemma lex4_eq a b : lex4 a b = Eq -> a = b.
Proof.
  destruct a as [[[y m] d] h], b as [[[y' m'] d'] h']. simpl.
  destruct (Z.compare_spec y y'), (Z.compare_spec m m'), (Z.compare_spec d d'); try done.
  intros ?%Z.compare_eq_iff. by subst.
Qed.

Lemma origin_compare y m d h y' m' d' h' :
  valid_date y m d -> valid_date y' m' d' -> 0 <= h <= 23 -> 0 <= h' <= 23 ->
  (origin_of y m d h ?= origin_of y' m' d' h') = lex4 (y, m, d, h) (y', m', d', h').
Proof.
  intros Hv Hv' Hh Hh'. destruct (lex4 _ _) eqn:E.
  - apply lex4_eq in E as [= -> -> -> ->]. apply Z.compare_refl.
  - apply Z.compare_lt_iff. by apply origin_lt.
  - apply Z.compare_gt_iff. apply origin_lt; try done. by rewrite lex4_antisym, E.
Qed.

Lemma run_id_text y m d h :
  0 <= h <= 23 -> bytes (canonical_run_id (cycle_of y m d h)) = date_text y m d ++ [chr 95] ++ fixed 2 h ++ [chr 122].
Proof.
  intros Hh. unfold canonical_run_id. cbn [cycle_of date_yyyymmdd hour_utc].
  rewrite !bytes_of_bytes, fmt_padded_fixed by lia. done.
Qed.

Lemma run_id_compare y m d h y' m' d' h' :
  valid_date y m d -> valid_date y' m' d' -> 0 <= h <= 23 -> 0 <= h' <= 23 ->
  str_compare (canonical_run_id (cycle_of y m d h)) (canonical_run_id (cycle_of y' m' d' h'))
  = lex4 (y, m, d, h) (y', m', d', h').
Proof.
  intros (Hy & Hm & Hd) (Hy' & Hm' & Hd') Hh Hh'.
  pose proof (month_len_range y m Hm). pose proof (month_len_range y' m' Hm').
  unfold str_compare. rewrite !run_id_text by done. unfold date_text. rewrite <- !app_assoc.
  rewrite !bytes_compare_app by (rewrite ?length_fixed; done).
  rewrite !fixed_compare by lia. simpl.
  destruct (y ?= y'), (m ?= m'), (d ?= d'), (h ?= h'); done.
Qed.

(** The text order of run identifiers is the order of time: for any two
    accepted cycles the canonical run identifiers compare exactly as the
    origins of the cycles do, so equal identifiers are equal cycles. *)
Theorem run_ids_sort_by_time date h c date' h' c' :
  0 <= h -> 0 <= h' -> cycle_spec_new date h = Ok c -> cycle_spec_new date' h' = Ok c' ->
  exists t t', cycle_origin_unix c = Ok t /\ cycle_origin_unix c' = Ok t'
    /\ str_compare (canonical_run_id c) (canonical_run_id c') = (t ?= t') /\ (t = t' -> c = c').
Proof.
  intros Hh Hh' (y & m & d & Hv & H23 & _ & ->)%cycle_accepted_iff (y' & m' & d' & Hv' & H23' & _ & ->)%cycle_accepted_iff;
    [|done..].
  exists (origin_of y m d h), (origin_of y' m' d' h'). rewrite !cycle_origin_counts by (done || lia).
  rewrite run_id_compare, origin_compare by (done || lia). split_and!; try done.
  intros E. apply Z.compare_eq_iff in E. rewrite origin_compare in E by (done || lia). by apply lex4_eq in E as [= -> -> -> ->].
Qed.

Theorem run_ids_sort_by_time_witness :
  exists t t', cycle_origin_unix {| date_yyyymmdd := "20231231"; hour_utc := 18 |} = Ok t
    /\ cycle_origin_unix {| date_yyyymmdd := "20240101"; hour_utc := 0 |} = Ok t'
    /\ str_compare (canonical_run_id {| date_yyyymmdd := "20231231"; hour_utc := 18 |})
         (canonical_run_id {| date_yyyymmdd := "20240101"; hour_utc := 0 |}) = (t ?= t')
    /\ (t = t' -> {| date_yyyymmdd := "20231231"; hour_utc := 18 |} = {| date_yyyymmdd := "20240101"; hour_utc := 0 |}).
Proof.
  apply (run_ids_sort_by_time "20231231" 18 _ "20240101" 0); [lia|lia|vm_compute; reflexivity|vm_compute; reflexivity].
Defined.

(** ** Identifiers of runs and jobs *)

Lemma job_id_text model y m d h :
  0 <= h <= 23 ->
  bytes (canonical_job_id model (cycle_of y m d h)) =
  bytes (model_as_str model) ++ [chr 45] ++ date_text y m d ++ [chr 45] ++ fixed 2 h ++ [chr 122].
Proof.
  intros Hh. unfold canonical_job_id. cbn [cycle_of date_yyyymmdd hour_utc].
  rewrite !bytes_of_bytes, fmt_padded_fixed by lia. done.
Qed.

Lemma digits_token l : all_digits l -> Forall (fun c => token_char c = true) l.
Proof.
  intros H. eapply list.Forall_impl; [exact H|]. intros c Hc. unfold token_char, is_ascii_alphanumeric. by rewrite Hc.
Qed.

Lemma model_as_str_token model : Forall (fun c => token_char c = true) (bytes (model_as_str model)).
Proof. destruct model; repeat constructor. Qed.

Lemma fixed_inj w a b :
  0 <= a < 10 ^ Z.of_nat w -> 0 <= b < 10 ^ Z.of_nat w -> fixed w a = fixed w b -> a = b.
Proof.
  intros Ha Hb E. apply Z.compare_eq_iff. rewrite <- (fixed_compare w) by done. by apply bytes_compare_eq.
Qed.

Lemma date_text_inj y m d y' m' d' :
  valid_date y m d -> valid_date y' m' d' -> date_text y m d = date_text y' m' d' -> y = y' /\ m = m' /\ d = d'.
Proof.
  intros (Hy & Hm & Hd) (Hy' & Hm' & Hd') E.
  pose proof (month_len_range y m Hm). pose proof (month_len_range y' m' Hm').
  apply app_inj_1 in E as [E1 E]; [|by rewrite !length_fixed].
  apply app_inj_1 in E as [E2 E3]; [|by rewrite !length_fixed].
  apply fixed_inj in E1; [|lia..]. apply fixed_inj in E2; [|lia..]. apply fixed_inj in E3; [|lia..]. done.
Qed.

(** The identifiers are safe names for the files and directories they become. *)
Lemma run_id_safe y m d h :
  0 <= h <= 23 -> validate_store_component (canonical_run_id (cycle_of y m d h)) = Ok tt.
Proof.
  intros Hh. apply store_component_iff. rewrite run_id_text by done. apply token_safe.
  - apply Forall_app_2; [apply digits_token, date_text_digits|]. apply Forall_app_2; [repeat constructor|].
    apply Forall_app_2; [apply digits_token, fixed_digits|repeat constructor].
  - rewrite !length_app, length_date_text, length_fixed. simpl. lia.
Qed.

Lemma job_id_safe model y m d h :
  0 <= h <= 23 -> validate_store_component (canonical_job_id model (cycle_of y m d h)) = Ok tt.
Proof.
  intros Hh. apply store_component_iff. rewrite job_id_text by done. apply token_safe.
  - apply Forall_app_2; [apply model_as_str_token|].
    apply Forall_app_2; [repeat constructor|]. apply Forall_app_2; [apply digits_token, date_text_digits|].
    apply Forall_app_2; [repeat constructor|].
    apply Forall_app_2; [apply digits_token, fixed_digits|repeat constructor].
  - rewrite !length_app, length_date_text, length_fixed. simpl. lia.
Qed.

(** Two jobs share an identifier, and so a state file, only if they are
    the same model and the same cycle; both identifiers of every accepted
    cycle are single safe path components. *)
Theorem job_ids_identify_jobs model model' date h c date' h' c' :
  0 <= h -> 0 <= h' -> cycle_spec_new date h = Ok c -> cycle_spec_new date' h' = Ok c' ->
  (canonical_job_id model c = canonical_job_id model' c' <-> model = model' /\ c = c')
  /\ validate_store_component (canonical_job_id model c) = Ok tt
  /\ validate_store_component (canonical_run_id c) = Ok tt.
Proof.
  intros Hh Hh' (y & m & d & Hv & H23 & _ & ->)%cycle_accepted_iff (y' & m' & d' & Hv' & H23' & _ & ->)%cycle_accepted_iff;
    [|done..].
  split_and!; [|apply job_id_safe; lia|apply run_id_safe; lia]. split; [|by intros [-> ->]].
  intros E. apply (f_equal bytes) in E. rewrite !job_id_text in E by lia.
  apply app_inj_2 in E as [E1 E]; [|rewrite !length_app, !length_date_text, !length_fixed; done].
  apply (inj bytes), (inj model_as_str) in E1 as ->. apply app_inj_1 in E as [_ E]; [|done].
  apply app_inj_1 in E as [E1 E]; [|by rewrite !length_date_text].
  apply date_text_inj in E1 as (-> & -> & ->); [|done..].
  apply app_inj_1 in E as [_ E]; [|done]. apply app_inj_1 in E as [E _]; [|by rewrite !length_fixed].
  apply fixed_inj in E as ->; [done|lia..].
Qed.

Theorem job_ids_identify_jobs_witness :
  (canonical_job_id Hrrr {| date_yyyymmdd := "20240229"; hour_utc := 6 |}
   = canonical_job_id Gfs {| date_yyyymmdd := "20240229"; hour_utc := 12 |}
   <-> Hrrr = Gfs /\ {| date_yyyymmdd := "20240229"; hour_utc := 6 |} = {| date_yyyymmdd := "20240229"; hour_utc := 12 |})
  /\ validate_store_component (canonical_job_id Hrrr {| date_yyyymmdd := "20240229"; hour_utc := 6 |}) = Ok tt
  /\ validate_store_component (canonical_run_id {| date_yyyymmdd := "20240229"; hour_utc := 6 |}) = Ok tt.
Proof.
  apply (job_ids_identify_jobs Hrrr Gfs "20240229" 6 _ "20240229" 12); [lia|lia|vm_compute; reflexivity|vm_compute; reflexivity].
Defined.
