(* ===== verification/Models.v ===== *)
(** * The model catalog

    The tables of [crates/rustwx-models/src/lib.rs] that say which sources
    publish a model, at which cycle hours and for which forecast hours
    ([model_summary], [supported_forecast_hours]), and the search for the
    latest published run ([latest_available_run_..._as_of] with
    [resolve_urls]). *)
From Stdlib Require Import ZArith Lia Ascii String.
From stdpp Require Import base list strings numbers sorting.
From S2P Require Import Prelude Format Text Ids Cycle.

Local Open Scope Z_scope.

(** ** Catalog types *)

Inductive ModelRuntimeFamily := Grib2Forecast | LocalNetcdfForecast | WrfNetcdfArchive.

Inductive EnsembleMode :=
| Deterministic | MemberGribFiles | PostProcessedStatisticsGribFiles | MemberDimensionNetcdf.

Record SourceDescriptor := {
  sd_id : SourceId;
  idx_available : bool;
  priority : Z;
  max_age_hours : option Z;
  notes : string
}.

Record ModelSummary := {
  ms_id : ModelId;
  description : string;
  default_product : string;
  cycle_hours_utc : list Z;
  max_forecast_hour : Z;
  sources : list SourceDescriptor;
  runtime_family : ModelRuntimeFamily;
  ensemble_mode : EnsembleMode
}.

(** [ModelError], less the variants of plot recipes. *)
Inductive ModelError :=
| ModelCore (e : RustwxError)
| UnsupportedProduct (model : ModelId) (product : string)
| UnsupportedForecastHour (model : ModelId) (cycle_hour forecast_hour : Z) (reason : string)
| NoAvailableRun (model : ModelId).

(** ** Cycle hours *)

Definition HRRR_CYCLE_HOURS : list Z := [0; 1; 2; 3; 4; 5; 6; 7; 8; 9; 10; 11; 12; 13; 14; 15; 16; 17; 18; 19; 20; 21; 22; 23].
Definition GFS_CYCLE_HOURS : list Z := [0; 6; 12; 18].
Definition GDPS_CYCLE_HOURS : list Z := [0; 12].
Definition GDPS_GEML_CYCLE_HOURS : list Z := [0; 12].
Definition CMA_GEPS_CYCLE_HOURS : list Z := [0; 12].
Definition RDPS_CYCLE_HOURS : list Z := [0; 6; 12; 18].
Definition HRDPS_CYCLE_HOURS : list Z := [0; 6; 12; 18].
Definition HRDPS_WEST_CYCLE_HOURS : list Z := [0; 12].
Definition REPS_CYCLE_HOURS : list Z := [0; 6; 12; 18].
Definition DWD_ICON_CYCLE_HOURS : list Z := [0; 3; 6; 9; 12; 15; 18; 21].
Definition ICON_RU_CYCLE_HOURS : list Z := [0; 12].
Definition AROME_FRANCE_CYCLE_HOURS : list Z := [0; 3; 6; 9; 12; 15; 18; 21].
Definition GEPS_CYCLE_HOURS : list Z := [0; 12].
Definition CPTEC_CYCLE_HOURS : list Z := [0].
Definition GDAS_CYCLE_HOURS : list Z := [0; 6; 12; 18].
Definition GEFS_CYCLE_HOURS : list Z := [0; 6; 12; 18].
Definition AI_MODEL_CYCLE_HOURS : list Z := [0; 6; 12; 18].
Definition ECMWF_CYCLE_HOURS : list Z := [0; 6; 12; 18].
Definition AIFS_CYCLE_HOURS : list Z := [0; 6; 12; 18].
Definition RAP_CYCLE_HOURS : list Z := [0; 1; 2; 3; 4; 5; 6; 7; 8; 9; 10; 11; 12; 13; 14; 15; 16; 17; 18; 19; 20; 21; 22; 23].
Definition NAM_CYCLE_HOURS : list Z := [0; 6; 12; 18].
Definition HIRESW_CYCLE_HOURS : list Z := [0; 12].
Definition HREF_CYCLE_HOURS : list Z := [0; 6; 12; 18].
Definition SREF_CYCLE_HOURS : list Z := [3; 9; 15; 21].
Definition HOURLY_ANALYSIS_CYCLE_HOURS : list Z := [0; 1; 2; 3; 4; 5; 6; 7; 8; 9; 10; 11; 12; 13; 14; 15; 16; 17; 18; 19; 20; 21; 22; 23].
Definition RRFS_A_CYCLE_HOURS : list Z := [0; 1; 2; 3; 4; 5; 6; 7; 8; 9; 10; 11; 12; 13; 14; 15; 16; 17; 18; 19; 20; 21; 22; 23].
Definition RRFS_PUBLIC_CYCLE_HOURS : list Z := [0; 3; 6; 9; 12; 15; 18; 21].
Definition REFS_CYCLE_HOURS : list Z := [0; 6; 12; 18].
Definition RRFS_FIREWX_CYCLE_HOURS : list Z := [0; 6; 12; 18].
Definition WRF_GDEX_CYCLE_HOURS : list Z := [0; 1; 2; 3; 4; 5; 6; 7; 8; 9; 10; 11; 12; 13; 14; 15; 16; 17; 18; 19; 20; 21; 22; 23].
Definition AIFS_OPEN_DATA_MAX_FORECAST_HOUR : Z := 360.
Definition WRF_GDEX_DEFAULT_SURFACE_PRODUCT : string := "d612005-hist2d".
Definition WRF_GDEX_DEFAULT_PRESSURE_PRODUCT : string := "d612005-hist3d".

(** ** Sources *)

Definition HRRR_SOURCES : list SourceDescriptor :=
  [{| sd_id := SrcNomads; idx_available := true; priority := 1; max_age_hours := Some 48;
      notes := "Operational NOMADS feed" |};
   {| sd_id := SrcAws; idx_available := true; priority := 2; max_age_hours := None;
      notes := "AWS open data archive" |};
   {| sd_id := SrcGoogle; idx_available := true; priority := 3; max_age_hours := None;
      notes := "Google mirror" |};
   {| sd_id := SrcAzure; idx_available := false; priority := 4; max_age_hours := None;
      notes := "Azure mirror without .idx coverage" |}].
Definition NOMADS_ONLY_SOURCES : list SourceDescriptor :=
  [{| sd_id := SrcNomads; idx_available := true; priority := 1; max_age_hours := Some 72;
      notes := "Operational NOMADS GRIB2 feed" |}].
Definition NOMADS_AWS_SOURCES : list SourceDescriptor :=
  [{| sd_id := SrcNomads; idx_available := true; priority := 1; max_age_hours := Some 72;
      notes := "Operational NOMADS GRIB2 feed" |};
   {| sd_id := SrcAws; idx_available := true; priority := 2; max_age_hours := None;
      notes := "NOAA public S3 open-data archive" |}].
Definition GFS_SOURCES : list SourceDescriptor :=
  [{| sd_id := SrcNomads; idx_available := true; priority := 1; max_age_hours := Some 48;
      notes := "Operational NOMADS feed" |};
   {| sd_id := SrcAws; idx_available := true; priority := 2; max_age_hours := None;
      notes := "AWS open data archive" |};
   {| sd_id := SrcGoogle; idx_available := true; priority := 3; max_age_hours := None;
      notes := "Google mirror" |};
   {| sd_id := SrcNcei; idx_available := false; priority := 4; max_age_hours := None;
      notes := "Historical NCEI archive" |}].
Definition GDPS_SOURCES : list SourceDescriptor :=
  [{| sd_id := SrcEccc; idx_available := false; priority := 1; max_age_hours := Some 36;
      notes := "Environment and Climate Change Canada MSC Datamart" |}].
Definition HRDPS_WEST_SOURCES : list SourceDescriptor :=
  [{| sd_id := SrcEccc; idx_available := false; priority := 1; max_age_hours := Some 24;
      notes := "Experimental ECCC MSC DD-Alpha feed; non-operational test service with 24-hour source retention" |}].
Definition CMA_GEPS_SOURCES : list SourceDescriptor :=
  [{| sd_id := SrcCma; idx_available := false; priority := 1; max_age_hours := Some (24 * 30);
      notes := "CMA WIS2 core-data node (GRAPES GEPS provider statistics)" |}].
Definition DWD_SOURCES : list SourceDescriptor :=
  [{| sd_id := SrcDwd; idx_available := false; priority := 1; max_age_hours := Some 30;
      notes := "Deutscher Wetterdienst Open Data" |}].
Definition ICON_RU_SOURCES : list SourceDescriptor :=
  [{| sd_id := SrcRoshydrometWis2Cache; idx_available := false; priority := 1; max_age_hours := Some 24;
      notes := "WIS2 Global Cache HTTPS object transport (preferred when cached)" |};
   {| sd_id := SrcRoshydrometWis2Origin; idx_available := false; priority := 2; max_age_hours := Some 48;
      notes := "Roshydromet WIS2 canonical object transport (HTTP fallback)" |}].
Definition CPTEC_SOURCES : list SourceDescriptor :=
  [{| sd_id := SrcCptec; idx_available := true; priority := 1; max_age_hours := None;
      notes := "CPTEC/INPE operational model data server" |}].
Definition AROME_FRANCE_SOURCES : list SourceDescriptor :=
  [{| sd_id := SrcMeteoFrancePnt; idx_available := false; priority := 1; max_age_hours := Some (24 * 15);
      notes := "Météo-France PNT anonymous public object storage (Open Licence 2.0)" |}].
Definition GEFS_SOURCES : list SourceDescriptor :=
  [{| sd_id := SrcNomads; idx_available := true; priority := 1; max_age_hours := Some 48;
      notes := "Operational NOAA GEFS feed" |};
   {| sd_id := SrcAws; idx_available := true; priority := 2; max_age_hours := None;
      notes := "NOAA GEFS AWS open-data archive" |}].
Definition ECMWF_SOURCES : list SourceDescriptor :=
  [{| sd_id := SrcEcmwf; idx_available := true; priority := 1; max_age_hours := None;
      notes := "ECMWF open data" |}].
Definition AIFS_SOURCES : list SourceDescriptor :=
  [{| sd_id := SrcEcmwf; idx_available := true; priority := 1; max_age_hours := None;
      notes := "ECMWF AIFS Single v2 open-data GRIB2 feed" |};
   {| sd_id := SrcAifsInference; idx_available := false; priority := 2; max_age_hours := None;
      notes := "Local NetCDF archive disseminated by an active AIFS-v2 inference harness" |};
   {| sd_id := SrcEarth2Archive; idx_available := false; priority := 3; max_age_hours := None;
      notes := "Legacy local NetCDF archive name for Earth2Studio or older inference harnesses" |}].
Definition RRFS_A_SOURCES : list SourceDescriptor :=
  [{| sd_id := SrcAws; idx_available := true; priority := 1; max_age_hours := None;
      notes := "NOAA RRFS AWS bucket" |}].
Definition RRFS_PUBLIC_SOURCES : list SourceDescriptor :=
  [{| sd_id := SrcAws; idx_available := true; priority := 1; max_age_hours := None;
      notes := "NOAA RRFS public prototype AWS bucket" |}].
Definition REFS_SOURCES : list SourceDescriptor :=
  [{| sd_id := SrcAws; idx_available := true; priority := 1; max_age_hours := None;
      notes := "NOAA REFS ensemble post-processing AWS bucket" |}].
Definition NO_REMOTE_SOURCES : list SourceDescriptor :=
  [].

(** ** Models *)

Definition MODELS : list ModelSummary :=
  [{| ms_id := Hrrr; description := "HRRR 3 km CONUS rapid-refresh forecast";
      default_product := "sfc"; cycle_hours_utc := HRRR_CYCLE_HOURS; max_forecast_hour := 48;
      sources := HRRR_SOURCES; runtime_family := Grib2Forecast; ensemble_mode := Deterministic |};
   {| ms_id := HrrrAk; description := "HRRR Alaska rapid-refresh forecast";
      default_product := "sfc"; cycle_hours_utc := HRRR_CYCLE_HOURS; max_forecast_hour := 48;
      sources := HRRR_SOURCES; runtime_family := Grib2Forecast; ensemble_mode := Deterministic |};
   {| ms_id := Gfs; description := "GFS global 0.25 degree atmospheric grid";
      default_product := "pgrb2.0p25"; cycle_hours_utc := GFS_CYCLE_HOURS; max_forecast_hour := 384;
      sources := GFS_SOURCES; runtime_family := Grib2Forecast; ensemble_mode := Deterministic |};
   {| ms_id := Gdps; description := "ECCC GDPS global 0.15 degree deterministic forecast";
      default_product := "rws-surface"; cycle_hours_utc := GDPS_CYCLE_HOURS; max_forecast_hour := 240;
      sources := GDPS_SOURCES; runtime_family := Grib2Forecast; ensemble_mode := Deterministic |};
   {| ms_id := GdpsGeml; description := "Experimental ECCC GDPS-GEML global 0.25 degree AI emulator forecast";
      default_product := "rws-surface"; cycle_hours_utc := GDPS_GEML_CYCLE_HOURS; max_forecast_hour := 240;
      sources := GDPS_SOURCES; runtime_family := Grib2Forecast; ensemble_mode := Deterministic |};
   {| ms_id := CmaGeps; description := "CMA GRAPES GEPS v1.3 global 0.25 degree provider statistics";
      default_product := "stats"; cycle_hours_utc := CMA_GEPS_CYCLE_HOURS; max_forecast_hour := 360;
      sources := CMA_GEPS_SOURCES; runtime_family := Grib2Forecast; ensemble_mode := PostProcessedStatisticsGribFiles |};
   {| ms_id := Rdps; description := "ECCC RDPS 10 km North American rotated-grid deterministic forecast";
      default_product := "rws-surface"; cycle_hours_utc := RDPS_CYCLE_HOURS; max_forecast_hour := 84;
      sources := GDPS_SOURCES; runtime_family := Grib2Forecast; ensemble_mode := Deterministic |};
   {| ms_id := Hrdps; description := "ECCC HRDPS 2.5 km pan-Canadian rotated-grid deterministic forecast";
      default_product := "rws-surface"; cycle_hours_utc := HRDPS_CYCLE_HOURS; max_forecast_hour := 48;
      sources := GDPS_SOURCES; runtime_family := Grib2Forecast; ensemble_mode := Deterministic |};
   {| ms_id := HrdpsWest; description := "Experimental ECCC HRDPS-West 1 km British Columbia / western Alberta rotated-grid deterministic forecast";
      default_product := "rws-surface"; cycle_hours_utc := HRDPS_WEST_CYCLE_HOURS; max_forecast_hour := 48;
      sources := HRDPS_WEST_SOURCES; runtime_family := Grib2Forecast; ensemble_mode := Deterministic |};
   {| ms_id := Reps; description := "ECCC REPS 10 km regional provider-published ensemble statistics";
      default_product := "rws-reps-provider-statistics"; cycle_hours_utc := REPS_CYCLE_HOURS; max_forecast_hour := 72;
      sources := GDPS_SOURCES; runtime_family := Grib2Forecast; ensemble_mode := PostProcessedStatisticsGribFiles |};
   {| ms_id := IconEu; description := "DWD ICON-EU regular latitude/longitude deterministic forecast";
      default_product := "rws-surface"; cycle_hours_utc := DWD_ICON_CYCLE_HOURS; max_forecast_hour := 120;
      sources := DWD_SOURCES; runtime_family := Grib2Forecast; ensemble_mode := Deterministic |};
   {| ms_id := IconD2; description := "DWD ICON-D2 regular latitude/longitude deterministic forecast";
      default_product := "rws-surface"; cycle_hours_utc := DWD_ICON_CYCLE_HOURS; max_forecast_hour := 48;
      sources := DWD_SOURCES; runtime_family := Grib2Forecast; ensemble_mode := Deterministic |};
   {| ms_id := IconRu; description := "Roshydromet ICON-Ru13/6N29 North Eurasia deterministic forecast";
      default_product := "rws-surface"; cycle_hours_utc := ICON_RU_CYCLE_HOURS; max_forecast_hour := 72;
      sources := ICON_RU_SOURCES; runtime_family := Grib2Forecast; ensemble_mode := Deterministic |};
   {| ms_id := AromeFrance001; description := "Météo-France AROME-France 0.01 degree (~1.3 km) deterministic forecast; 2801x1791 regular lat/lon domain 37.5-55.4N, 12W-16E";
      default_product := "SP1"; cycle_hours_utc := AROME_FRANCE_CYCLE_HOURS; max_forecast_hour := 51;
      sources := AROME_FRANCE_SOURCES; runtime_family := Grib2Forecast; ensemble_mode := Deterministic |};
   {| ms_id := AromeFrance0025; description := "Météo-France AROME-France 0.025 degree (~2.5 km) deterministic forecast; 1121x717 regular lat/lon domain 37.5-55.4N, 12W-16E";
      default_product := "SP1"; cycle_hours_utc := AROME_FRANCE_CYCLE_HOURS; max_forecast_hour := 51;
      sources := AROME_FRANCE_SOURCES; runtime_family := Grib2Forecast; ensemble_mode := Deterministic |};
   {| ms_id := Geps; description := "ECCC GEPS global 0.5 degree provider-published ensemble statistics";
      default_product := "rws-published-statistics"; cycle_hours_utc := GEPS_CYCLE_HOURS; max_forecast_hour := 384;
      sources := GDPS_SOURCES; runtime_family := Grib2Forecast; ensemble_mode := PostProcessedStatisticsGribFiles |};
   {| ms_id := WrfCptec7km; description := "CPTEC/INPE WRF 7 km South America deterministic forecast";
      default_product := "raw"; cycle_hours_utc := CPTEC_CYCLE_HOURS; max_forecast_hour := 180;
      sources := CPTEC_SOURCES; runtime_family := Grib2Forecast; ensemble_mode := Deterministic |};
   {| ms_id := BramsCptec8km; description := "CPTEC/INPE BRAMS 8 km South America deterministic forecast";
      default_product := "raw"; cycle_hours_utc := CPTEC_CYCLE_HOURS; max_forecast_hour := 180;
      sources := CPTEC_SOURCES; runtime_family := Grib2Forecast; ensemble_mode := Deterministic |};
   {| ms_id := EtaCptec8km; description := "CPTEC/INPE Eta 8 km South America deterministic forecast";
      default_product := "raw"; cycle_hours_utc := CPTEC_CYCLE_HOURS; max_forecast_hour := 264;
      sources := CPTEC_SOURCES; runtime_family := Grib2Forecast; ensemble_mode := Deterministic |};
   {| ms_id := Gdas; description := "GDAS global data-assimilation analysis/forecast grids";
      default_product := "pgrb2.0p25"; cycle_hours_utc := GDAS_CYCLE_HOURS; max_forecast_hour := 9;
      sources := NOMADS_AWS_SOURCES; runtime_family := Grib2Forecast; ensemble_mode := Deterministic |};
   {| ms_id := Gefs; description := "GEFS global 0.5 degree ensemble forecast (00z extends to 35 days)";
      default_product := "pgrb2ap5/gec00"; cycle_hours_utc := GEFS_CYCLE_HOURS; max_forecast_hour := 840;
      sources := GEFS_SOURCES; runtime_family := Grib2Forecast; ensemble_mode := MemberGribFiles |};
   {| ms_id := Aigfs; description := "NOAA AI-GFS global data-driven forecast";
      default_product := "sfc"; cycle_hours_utc := AI_MODEL_CYCLE_HOURS; max_forecast_hour := 384;
      sources := NOMADS_ONLY_SOURCES; runtime_family := Grib2Forecast; ensemble_mode := Deterministic |};
   {| ms_id := Aigefs; description := "NOAA AI-GEFS ensemble-stat global data-driven forecast";
      default_product := "sfc/avg"; cycle_hours_utc := AI_MODEL_CYCLE_HOURS; max_forecast_hour := 384;
      sources := NOMADS_ONLY_SOURCES; runtime_family := Grib2Forecast; ensemble_mode := PostProcessedStatisticsGribFiles |};
   {| ms_id := Hgefs; description := "NOAA HGEFS hybrid AI/GEFS ensemble-stat global forecast";
      default_product := "sfc/avg"; cycle_hours_utc := AI_MODEL_CYCLE_HOURS; max_forecast_hour := 240;
      sources := NOMADS_ONLY_SOURCES; runtime_family := Grib2Forecast; ensemble_mode := PostProcessedStatisticsGribFiles |};
   {| ms_id := EcmwfOpenData; description := "ECMWF IFS Cycle 50r1 open-data 0.25 degree feed";
      default_product := "oper"; cycle_hours_utc := ECMWF_CYCLE_HOURS; max_forecast_hour := 360;
      sources := ECMWF_SOURCES; runtime_family := Grib2Forecast; ensemble_mode := Deterministic |};
   {| ms_id := Aifs; description := "ECMWF AIFS Single v2 open-data 0.25 degree forecast";
      default_product := "oper"; cycle_hours_utc := AIFS_CYCLE_HOURS; max_forecast_hour := AIFS_OPEN_DATA_MAX_FORECAST_HOUR;
      sources := AIFS_SOURCES; runtime_family := Grib2Forecast; ensemble_mode := Deterministic |};
   {| ms_id := Rap; description := "RAP hourly North America forecast grids";
      default_product := "awp130pgrb"; cycle_hours_utc := RAP_CYCLE_HOURS; max_forecast_hour := 51;
      sources := NOMADS_AWS_SOURCES; runtime_family := Grib2Forecast; ensemble_mode := Deterministic |};
   {| ms_id := Nam; description := "NAM CONUS/North America/nest regional forecast grids";
      default_product := "awip12"; cycle_hours_utc := NAM_CYCLE_HOURS; max_forecast_hour := 84;
      sources := NOMADS_AWS_SOURCES; runtime_family := Grib2Forecast; ensemble_mode := Deterministic |};
   {| ms_id := Hiresw; description := "HIRESW high-resolution regional ARW/FV3 forecast grids";
      default_product := "arw_2p5km/conus"; cycle_hours_utc := HIRESW_CYCLE_HOURS; max_forecast_hour := 48;
      sources := NOMADS_ONLY_SOURCES; runtime_family := Grib2Forecast; ensemble_mode := MemberGribFiles |};
   {| ms_id := Href; description := "HREF CONUS ensemble products";
      default_product := "ensprod/conus/sprd"; cycle_hours_utc := HREF_CYCLE_HOURS; max_forecast_hour := 48;
      sources := NOMADS_ONLY_SOURCES; runtime_family := Grib2Forecast; ensemble_mode := MemberGribFiles |};
   {| ms_id := Sref; description := "SREF regional ensemble member/statistic forecast grids";
      default_product := "ensprod/pgrb212/mean_3hrly"; cycle_hours_utc := SREF_CYCLE_HOURS; max_forecast_hour := 87;
      sources := NOMADS_ONLY_SOURCES; runtime_family := Grib2Forecast; ensemble_mode := MemberGribFiles |};
   {| ms_id := Rtma; description := "RTMA 2.5 km hourly surface analysis";
      default_product := "2dvaranl_ndfd"; cycle_hours_utc := HOURLY_ANALYSIS_CYCLE_HOURS; max_forecast_hour := 0;
      sources := NOMADS_AWS_SOURCES; runtime_family := Grib2Forecast; ensemble_mode := Deterministic |};
   {| ms_id := Urma; description := "URMA 2.5 km hourly surface analysis";
      default_product := "2dvaranl_ndfd"; cycle_hours_utc := HOURLY_ANALYSIS_CYCLE_HOURS; max_forecast_hour := 0;
      sources := NOMADS_AWS_SOURCES; runtime_family := Grib2Forecast; ensemble_mode := Deterministic |};
   {| ms_id := Nbm; description := "National Blend of Models gridded core forecast";
      default_product := "core/co"; cycle_hours_utc := HOURLY_ANALYSIS_CYCLE_HOURS; max_forecast_hour := 264;
      sources := NOMADS_AWS_SOURCES; runtime_family := Grib2Forecast; ensemble_mode := Deterministic |};
   {| ms_id := RrfsA; description := "RRFS-A AWS open data feed with CONUS/NA/HI/PR variants";
      default_product := "prs-conus"; cycle_hours_utc := RRFS_A_CYCLE_HOURS; max_forecast_hour := 60;
      sources := RRFS_A_SOURCES; runtime_family := Grib2Forecast; ensemble_mode := Deterministic |};
   {| ms_id := RrfsPublic; description := "RRFS public prototype 3 km CONUS deterministic forecast";
      default_product := "prs-conus"; cycle_hours_utc := RRFS_PUBLIC_CYCLE_HOURS; max_forecast_hour := 84;
      sources := RRFS_PUBLIC_SOURCES; runtime_family := Grib2Forecast; ensemble_mode := Deterministic |};
   {| ms_id := Refs; description := "REFS RRFS ensemble post-processed mean/spread/probability products";
      default_product := "mean-conus"; cycle_hours_utc := REFS_CYCLE_HOURS; max_forecast_hour := 60;
      sources := REFS_SOURCES; runtime_family := Grib2Forecast; ensemble_mode := MemberGribFiles |};
   {| ms_id := RrfsFireWx; description := "Legacy RRFS nested-product identifier (no public acquisition lane)";
      default_product := "2dfld-firewx"; cycle_hours_utc := RRFS_FIREWX_CYCLE_HOURS; max_forecast_hour := 36;
      sources := NO_REMOTE_SOURCES; runtime_family := Grib2Forecast; ensemble_mode := Deterministic |};
   {| ms_id := WrfGdex; description := "User-provided WRF NetCDF/wrfout local import";
      default_product := WRF_GDEX_DEFAULT_SURFACE_PRODUCT; cycle_hours_utc := WRF_GDEX_CYCLE_HOURS; max_forecast_hour := 0;
      sources := NO_REMOTE_SOURCES; runtime_family := WrfNetcdfArchive; ensemble_mode := Deterministic |}].

(** [model_summary]: panics when the table has no entry. *)
Definition model_summary {E} (model : ModelId) : result E ModelSummary :=
  or_panic (snd <$> list_find (fun entry => ms_id entry = model) MODELS).

(** ** Forecast hours *)

(** [(a..=b).step_by(k).collect()], for [a <= b]. *)
Definition hours_by (k a b : Z) : list Z := (fun i => a + k * i) <$> seqZ 0 ((b - a) / k + 1).
Notation "a ..= b" := (hours_by 1 a b) (at level 35, no associativity).

Definition is_in (h : Z) (l : list Z) : bool := existsb (Z.eqb h) l.
Definition rap_extended_forecast_cycle (h : Z) : bool := is_in h [3; 9; 15; 21].

Definition supported_forecast_hours (model : ModelId) (cycle_hour_utc : Z) : list Z :=
  let on hours l := if is_in cycle_hour_utc hours then l else [] in
  match model with
  | Hrrr | HrrrAk => if cycle_hour_utc mod 6 =? 0 then 0 ..= 48 else 0 ..= 18
  | Gfs => (0 ..= 120) ++ hours_by 3 123 384
  | Gdps => on GDPS_CYCLE_HOURS ((0 ..= 84) ++ hours_by 3 87 240)
  | GdpsGeml => on GDPS_GEML_CYCLE_HOURS (hours_by 6 0 240)
  | CmaGeps => on CMA_GEPS_CYCLE_HOURS (hours_by 3 0 78 ++ hours_by 6 84 360)
  | Rdps => on RDPS_CYCLE_HOURS (0 ..= 84)
  | Hrdps => on HRDPS_CYCLE_HOURS (0 ..= 48)
  | HrdpsWest => on HRDPS_WEST_CYCLE_HOURS (0 ..= 48)
  | Reps => on REPS_CYCLE_HOURS (hours_by 3 3 72)
  | IconEu =>
      on DWD_ICON_CYCLE_HOURS
        (if cycle_hour_utc mod 6 =? 0 then (0 ..= 78) ++ hours_by 3 81 120 else (0 ..= 30) ++ [36; 42; 48])
  | IconD2 => on DWD_ICON_CYCLE_HOURS (0 ..= 48)
  | IconRu => on ICON_RU_CYCLE_HOURS (hours_by 3 3 72)
  | AromeFrance001 | AromeFrance0025 => on AROME_FRANCE_CYCLE_HOURS (0 ..= 51)
  | WrfCptec7km => on CPTEC_CYCLE_HOURS (0 ..= 180)
  | Geps => on GEPS_CYCLE_HOURS (hours_by 3 3 192 ++ hours_by 6 198 384)
  | BramsCptec8km => on CPTEC_CYCLE_HOURS (1 ..= 180)
  | EtaCptec8km => on CPTEC_CYCLE_HOURS (0 ..= 264)
  | Gdas => 0 ..= 9
  | Gefs => hours_by 3 0 240 ++ hours_by 6 246 384 ++ (if cycle_hour_utc =? 0 then hours_by 6 390 840 else [])
  | Aigfs => hours_by 6 0 384
  | Aigefs => hours_by 6 6 384
  | Hgefs => hours_by 6 0 240
  | EcmwfOpenData =>
      if is_in cycle_hour_utc [0; 12] then hours_by 3 0 144 ++ hours_by 6 150 360
      else if is_in cycle_hour_utc [6; 18] then hours_by 3 0 144 else []
  | Aifs => if is_in cycle_hour_utc [0; 6; 12; 18] then hours_by 6 0 AIFS_OPEN_DATA_MAX_FORECAST_HOUR else []
  | Rap => if rap_extended_forecast_cycle cycle_hour_utc then 0 ..= 51 else 0 ..= 21
  | Nam => (0 ..= 36) ++ hours_by 3 39 84
  | Hiresw => on HIRESW_CYCLE_HOURS (0 ..= 48)
  | Href => on HREF_CYCLE_HOURS (1 ..= 48)
  | Sref => on SREF_CYCLE_HOURS (hours_by 3 0 87)
  | Rtma | Urma => [0]
  | Nbm => (1 ..= 36) ++ hours_by 3 39 192 ++ hours_by 6 198 264
  | RrfsA => 0 ..= 60
  | RrfsPublic => on RRFS_PUBLIC_CYCLE_HOURS (0 ..= (if cycle_hour_utc mod 6 =? 0 then 84 else 18))
  | Refs => on REFS_CYCLE_HOURS (1 ..= 60)
  | RrfsFireWx | WrfGdex => []
  end.

Definition forecast_hour_supported (model : ModelId) (cycle_hour_utc forecast_hour : Z) : bool :=
  is_in forecast_hour (supported_forecast_hours model cycle_hour_utc).

(** [Iterator::min] and [Iterator::max]. *)
Definition list_min (l : list Z) : option Z :=
  match l with [] => None | z :: l => Some (foldl Z.min z l) end.
Definition list_max (l : list Z) : option Z :=
  match l with [] => None | z :: l => Some (foldl Z.max z l) end.

Definition earliest_supported_forecast_hour (model : ModelId) : result ModelError Z :=
  summary ← model_summary model;
  ok_or (list_min (omap (fun h => head (supported_forecast_hours model h)) (cycle_hours_utc summary)))
    (NoAvailableRun model).

Definition availability_probe_forecast_hour (model : ModelId) : result ModelError Z :=
  if bool_decide (model = HrdpsWest) then
    summary ← model_summary model;
    ok_or (list_max (cycle_hours_utc summary ≫= supported_forecast_hours model)) (NoAvailableRun model)
  else earliest_supported_forecast_hour model.

(** ** Dates around a date *)

Definition days_in_month (year month : Z) : Z :=
  if is_in month [1; 3; 5; 7; 8; 10; 12] then 31
  else if is_in month [4; 6; 9; 11] then 30
  else if month =? 2 then
    if ((Z.rem year 4 =? 0) && negb (Z.rem year 100 =? 0)) || (Z.rem year 400 =? 0) then 29 else 28
  else 30.

(** [parse::<i32>] of digits. *)
Definition parse_i32 (l : list ascii) : option Z :=
  n ← parse_i64 l; if (- 2 ^ 31 <=? n) && (n <? 2 ^ 31) then Some n else None.

(** The three fields of an eight-digit date; the slices cannot panic there. *)
Definition date_fields (date : string) : option (Z * Z * Z) :=
  let l := bytes date in
  if negb (length l =? 8)%nat || negb (forallb is_ascii_digit l) then None
  else
    year ← parse_i32 (take 4 l);
    month ← parse_unsigned (2 ^ 32) (take 2 (drop 4 l));
    day ← parse_unsigned (2 ^ 32) (take 2 (drop 6 l));
    Some (year, month, day).

Definition format_date (year month day : Z) : string :=
  of_bytes (fmt_padded 4 year ++ fmt_padded 2 month ++ fmt_padded 2 day).

Definition previous_day_yyyymmdd (date : string) : option string :=
  '(year, month, day) ← date_fields date;
  let '(new_year, new_month, new_day) :=
    if 1 <? day then (year, month, day - 1)
    else if 1 <? month then (year, month - 1, days_in_month year (month - 1))
    else (year - 1, 12, 31) in
  if new_year <? 1 then None else Some (format_date new_year new_month new_day).

Definition next_day_yyyymmdd (date : string) : option string :=
  '(year, month, day) ← date_fields date;
  let month_days := days_in_month year month in
  let '(new_year, new_month, new_day) :=
    if day <? month_days then (year, month, day + 1)
    else if month <? 12 then (year, month + 1, 1)
    else (year + 1, 1, 1) in
  Some (format_date new_year new_month new_day).

Definition advance_yyyymmddhh (date : string) (hour_utc forecast_hour : Z) : option (string * Z) :=
  let total_hours := hour_utc + forecast_hour in
  date ← Nat.iter (Z.to_nat (total_hours / 24)) (fun d => d ≫= next_day_yyyymmdd) (Some date);
  Some (date, total_hours mod 24).

Definition cycle_date_rollback_candidates (date : string) : list string :=
  date :: match previous_day_yyyymmdd date with Some previous => [previous] | None => [] end.

(** ** Resolving and probing *)

Record ModelRunRequest := {
  rq_model : ModelId;
  rq_cycle : CycleSpec;
  rq_forecast_hour : Z;
  rq_product : string
}.

Definition AIFS_MAX_FORECAST_HOUR : Z := 43848.
Definition forecast_hour_allowed_for_model (model : ModelId) (forecast_hour : Z) : bool :=
  match model with Aifs => forecast_hour <=? AIFS_MAX_FORECAST_HOUR | _ => forecast_hour <=? 999 end.

Definition model_run_request_new (model : ModelId) (cycle : CycleSpec) (forecast_hour : Z) (product : string)
    : result RustwxError ModelRunRequest :=
  _ ← reject (negb (forecast_hour_allowed_for_model model forecast_hour)) (InvalidForecastHour forecast_hour);
  Ok {| rq_model := model; rq_cycle := cycle; rq_forecast_hour := forecast_hour; rq_product := product |}.

Record ResolvedUrl := { ru_source : SourceId; grib_url : string; idx_url : option string }.

Record LatestRun := { lr_model : ModelId; lr_cycle : CycleSpec; lr_source : SourceId }.

Definition strip_suffix (suffix l : list ascii) : option (list ascii) :=
  let n := (length l - length suffix)%nat in
  if bool_decide (drop n l = suffix) then Some (take n l) else None.

Definition companion_index_url (source : SourceId) (grib_url : string) : string :=
  let replace suffix :=
    match strip_suffix (bytes ".grib2") (bytes grib_url) with
    | Some base => of_bytes (base ++ bytes suffix)
    | None => of_bytes (bytes grib_url ++ bytes suffix)
    end in
  if bool_decide (source = SrcEcmwf) then replace ".index"
  else if bool_decide (source = SrcCptec) then replace ".inv"
  else of_bytes (bytes grib_url ++ bytes ".idx").

Definition default_availability_products (model : ModelId) : result ModelError (list string) :=
  match model with
  | HrdpsWest => Ok ["rws-pressure"; "rws-surface"]
  | AromeFrance001 => Ok ["SP1"; "SP2"; "SP3"]
  | AromeFrance0025 => Ok ["IP1"; "SP1"; "SP2"]
  | _ => summary ← model_summary model; Ok [default_product summary]
  end.

Definition source_priority (summary : ModelSummary) (entry : ResolvedUrl) : Z :=
  match list_find (fun source => sd_id source = ru_source entry) (sources summary) with
  | Some (_, source) => priority source
  | None => 255
  end.
Definition by_priority (summary : ModelSummary) (a b : ResolvedUrl) : Prop :=
  source_priority summary a <= source_priority summary b.
#[global] Instance by_priority_dec summary a b : Decision (by_priority summary a b).
Proof. unfold by_priority. apply _. Defined.

Definition starts_with (prefix s : list ascii) : bool := bool_decide (take (length prefix) s = prefix).

(** The sources and products a search uses: [source] restricts the sources;
    of the products the first occurrence of each counts, and no products
    stand for the model's default ones. *)
Definition allowed_sources (summary : ModelSummary) (source : option SourceId) : list SourceId :=
  let ids := sd_id <$> sources summary in
  match source with Some wanted => filter (fun id => id = wanted) ids | None => ids end.
Definition dedup_products (products : list string) : list string :=
  foldl (fun deduped product => if bool_decide (product ∈ deduped) then deduped else deduped ++ [product]) [] products.
Definition required_products (model : ModelId) (products : list string) : result ModelError (list string) :=
  if bool_decide (products = []) then default_availability_products model else Ok (dedup_products products).

(** The run search; [candidate_dates] are visited in order, then the cycle
    hours of each date from the last one back. *)
Section discovery.
(** The URL of a request at one provider, and whether the provider has the
    object (the probe's answers during one search are those of one moment). *)
Context (build_grib_url : SourceId -> ModelRunRequest -> string + ModelError).
Context (probe_available : ResolvedUrl -> bool).

(** The loop body of [resolve_urls]. *)
Definition resolve_source (request : ModelRunRequest) (acc : list ResolvedUrl * list ModelError)
    (source : SourceDescriptor) : list ResolvedUrl * list ModelError :=
  let '(urls, errors) := acc in
  match build_grib_url (sd_id source) request with
  | inl url =>
      if starts_with (bytes "unsupported://") (bytes url) then (urls, errors)
      else
        let idx_url := if idx_available source then Some (companion_index_url (sd_id source) url) else None in
        (urls ++ [{| ru_source := sd_id source; grib_url := url; idx_url := idx_url |}], errors)
  | inr err => (urls, errors ++ [err])
  end.

Definition resolve_urls (request : ModelRunRequest) : result ModelError (list ResolvedUrl) :=
  summary ← model_summary (rq_model request);
  let '(urls, errors) := foldl (resolve_source request) ([], []) (sources summary) in
  if bool_decide (urls = []) then
    Err (match errors with err :: _ => err | [] => UnsupportedProduct (rq_model request) (rq_product request) end)
  else Ok (merge_sort (by_priority summary) urls).

(** One product of one cycle is there at one source. *)
Definition product_available (model : ModelId) (cycle : CycleSpec) (forecast_hour : Z) (source : SourceId)
    (product : string) : result ModelError bool :=
  match model_run_request_new model cycle forecast_hour product with
  | Ok request =>
      match resolve_urls request with
      | Ok resolved_urls =>
          Ok (existsb (fun resolved => bool_decide (ru_source resolved = source) && probe_available resolved) resolved_urls)
      | Err _ => Ok false
      | Panic => Panic
      end
  | _ => Ok false
  end.

(** [required_products.iter().all(..)]. *)
Fixpoint all_available (model : ModelId) (cycle : CycleSpec) (forecast_hour : Z) (source : SourceId)
    (products : list string) : result ModelError bool :=
  match products with
  | [] => Ok true
  | product :: products =>
      ok ← product_available model cycle forecast_hour source product;
      if ok : bool then all_available model cycle forecast_hour source products else Ok false
  end.

(** [allowed_sources.iter().copied().find(..)]. *)
Fixpoint find_source (model : ModelId) (cycle : CycleSpec) (forecast_hour : Z) (products : list string)
    (allowed : list SourceId) : result ModelError (option SourceId) :=
  match allowed with
  | [] => Ok None
  | source :: allowed =>
      ok ← all_available model cycle forecast_hour source products;
      if ok : bool then Ok (Some source) else find_source model cycle forecast_hour products allowed
  end.

(** The loop over the cycle hours of one date. *)
Fixpoint search_hours (model : ModelId) (allowed : list SourceId) (products : list string) (forecast_hour : Z)
    (as_of_date : string) (as_of_hour : Z) (candidate_date : string) (hours : list Z)
    : result ModelError (option LatestRun) :=
  match hours with
  | [] => Ok None
  | hour_utc :: hours =>
      let continue_ := search_hours model allowed products forecast_hour as_of_date as_of_hour candidate_date hours in
      if bool_decide (candidate_date = as_of_date) && (as_of_hour <? hour_utc) then continue_
      else if negb (forecast_hour_supported model hour_utc forecast_hour) then continue_
      else
        match cycle_spec_new candidate_date hour_utc with
        | Ok cycle =>
            found ← find_source model cycle forecast_hour products allowed;
            match found with
            | Some source => Ok (Some {| lr_model := model; lr_cycle := cycle; lr_source := source |})
            | None => continue_
            end
        | Err _ => continue_
        | Panic => Panic
        end
  end.

(** The loop over the candidate dates. *)
Fixpoint search_dates (model : ModelId) (allowed : list SourceId) (products : list string) (forecast_hour : Z)
    (as_of_date : string) (as_of_hour : Z) (hours : list Z) (dates : list string)
    : result ModelError (option LatestRun) :=
  match dates with
  | [] => Ok None
  | candidate_date :: dates =>
      let continue_ := search_dates model allowed products forecast_hour as_of_date as_of_hour hours dates in
      match str_compare candidate_date as_of_date with
      | Gt => continue_
      | _ =>
          found ← search_hours model allowed products forecast_hour as_of_date as_of_hour candidate_date hours;
          match found with Some run => Ok (Some run) | None => continue_ end
      end
  end.

(** [latest_available_run_for_products_with_probe_at_forecast_hour_as_of]. *)
Definition latest_available_run_as_of (model : ModelId) (source : option SourceId) (date_yyyymmdd : string)
    (products : list string) (forecast_hour : Z) (as_of_date : string) (as_of_hour : Z)
    : result ModelError LatestRun :=
  summary ← model_summary model;
  let allowed := allowed_sources summary source in
  if bool_decide (allowed = []) then Err (NoAvailableRun model)
  else
    required ← required_products model products;
    found ← search_dates model allowed required forecast_hour as_of_date as_of_hour
              (reverse (cycle_hours_utc summary)) (cycle_date_rollback_candidates date_yyyymmdd);
    ok_or found (NoAvailableRun model).

(** [latest_available_run_with_probe], [latest_available_run_for_products_with_probe]. *)
Definition latest_available_run_with_probe (model : ModelId) (source : option SourceId) (date : string)
    (as_of_date : string) (as_of_hour : Z) : result ModelError LatestRun :=
  forecast_hour ← availability_probe_forecast_hour model;
  required ← default_availability_products model;
  latest_available_run_as_of model source date required forecast_hour as_of_date as_of_hour.
Definition latest_available_run_for_products_with_probe (model : ModelId) (source : option SourceId) (date : string)
    (products : list string) (as_of_date : string) (as_of_hour : Z) : result ModelError LatestRun :=
  forecast_hour ← availability_probe_forecast_hour model;
  latest_available_run_as_of model source date products forecast_hour as_of_date as_of_hour.
End discovery.

(** ** The catalog is consistent *)

(** Strictly increasing. *)
Definition increasing (l : list Z) : bool := forallb (fun '(a, b) => a <? b) (zip l (tail l)).

Definition summary_of (model : ModelId) : option ModelSummary := snd <$> list_find (fun entry => ms_id entry = model) MODELS.

Definition model_consistent (model : ModelId) : bool :=
  match summary_of model with
  | Some summary =>
      increasing (cycle_hours_utc summary)
      && forallb (fun h => (0 <=? h) && (h <=? 23)) (cycle_hours_utc summary)
      && increasing (priority <$> sources summary)
      && forallb (fun h =>
           let hours := supported_forecast_hours model h in
           increasing hours
           && forallb (fun f => (0 <=? f) && (f <=? max_forecast_hour summary) && forecast_hour_allowed_for_model model f) hours
           && (bool_decide (sources summary = []) || negb (bool_decide (hours = [])))) (cycle_hours_utc summary)
  | None => false
  end.

Lemma increasing_sorted l : increasing l = true -> StronglySorted Z.lt l.
Proof.
  intros H. apply Sorted_StronglySorted; [intros a b c; lia|].
  induction l as [|a l IH]; [constructor|]. destruct l as [|b l]; [repeat constructor|].
  unfold increasing in H. simpl in H. apply andb_true_iff in H as [H1 H2].
  constructor; [apply IH; exact H2|]. constructor. lia.
Qed.

Lemma forallb_elem {A} (f : A -> bool) l x : forallb f l = true -> x ∈ l -> f x = true.
Proof. intros H Hx. rewrite forallb_forall in H. apply H. by apply list_elem_of_In. Qed.

Lemma summary_of_ok {E} model summary : summary_of model = Some summary -> model_summary (E := E) model = Ok summary.
Proof. unfold summary_of, model_summary. intros ->. done. Qed.

Lemma models_consistent model : model_consistent model = true.
Proof. destruct model; vm_compute; reflexivity. Qed.

(** The catalog entry of a model. *)
Lemma catalog_entry model :
  exists summary, summary_of model = Some summary /\ ms_id summary = model
    /\ StronglySorted Z.lt (cycle_hours_utc summary) /\ Forall (fun h => 0 <= h <= 23) (cycle_hours_utc summary)
    /\ StronglySorted Z.lt (priority <$> sources summary)
    /\ forall h, h ∈ cycle_hours_utc summary ->
         StronglySorted Z.lt (supported_forecast_hours model h)
         /\ Forall (fun f => 0 <= f <= max_forecast_hour summary /\ forecast_hour_allowed_for_model model f = true)
              (supported_forecast_hours model h)
         /\ (sources summary = [] \/ supported_forecast_hours model h <> []).
Proof.
  pose proof (models_consistent model) as H. unfold model_consistent in H.
  destruct (summary_of model) as [summary|] eqn:E; [|done]. exists summary.
  rewrite !andb_true_iff in H. destruct H as [[[H1 H2] H3] H4].
  split_and!; [done| |by apply increasing_sorted| |by apply increasing_sorted|].
  - unfold summary_of in E. apply fmap_Some in E as ([i s] & Hf & ->). by apply list_find_Some in Hf as (_ & ? & _).
  - apply list.Forall_forall. intros h Hh. pose proof (forallb_elem _ _ h H2 Hh) as Hx. cbn beta in Hx. lia.
  - intros h Hh. pose proof (forallb_elem _ _ h H4 Hh) as H. cbn zeta in H. rewrite !andb_true_iff in H.
    destruct H as [[Ha Hb] Hc]. split_and!; [by apply increasing_sorted| |].
    + apply list.Forall_forall. intros f Hf. pose proof (forallb_elem _ _ f Hb Hf) as Hx. cbn beta in Hx.
      rewrite !andb_true_iff in Hx. destruct Hx as [[? ?] ?]. split; [lia|done].
    + apply orb_true_iff in Hc as [Hc|Hc]; [left; by apply bool_decide_eq_true in Hc|right].
      apply negb_true_iff, bool_decide_eq_false in Hc. done.
Qed.

(** The catalog describes every model: the summary of each is found, its
    cycle hours and its source priorities strictly increase, and at every
    cycle hour the scheduled forecast hours strictly increase from zero to at
    most the declared maximum and are accepted in requests; a model that some
    source publishes has at least one forecast hour at every cycle. *)
Theorem catalog_consistent model :
  exists summary, model_summary (E := ModelError) model = Ok summary /\ ms_id summary = model
    /\ StronglySorted Z.lt (cycle_hours_utc summary) /\ Forall (fun h => 0 <= h <= 23) (cycle_hours_utc summary)
    /\ StronglySorted Z.lt (priority <$> sources summary)
    /\ forall h, h ∈ cycle_hours_utc summary ->
         StronglySorted Z.lt (supported_forecast_hours model h)
         /\ Forall (fun f => 0 <= f <= max_forecast_hour summary /\ forecast_hour_allowed_for_model model f = true)
              (supported_forecast_hours model h)
         /\ (sources summary = [] \/ supported_forecast_hours model h <> []).
Proof.
  destruct (catalog_entry model) as (summary & Hs & H). exists summary. split; [by apply summary_of_ok|exact H].
Qed.
