(* ===== verification/Discovery.v ===== *)
(** * Stepping dates and finding the latest run

    The theorems about the date arithmetic and the run search of
    [crates/rustwx-models/src/lib.rs]: a step of a date is one day of the
    calendar, a forecast lead is a shift in time, and the search returns the
    newest run that the provider has. *)
From Stdlib Require Import ZArith Lia Ascii String.
From stdpp Require Import base list strings numbers sorting.
From S2P Require Import Prelude Format Text Ids Cycle Models.

Local Open Scope Z_scope.

(** ** Days *)

Lemma days_in_month_len y m : 0 <= y -> 1 <= m <= 12 -> days_in_month y m = month_len y m.
Proof.
  intros Hy Hm. unfold days_in_month, month_len, max_day, is_leap_year.
  rewrite !Z.rem_mod_nonneg by lia. month_cases m; reflexivity.
Qed.

Lemma parse_i32_fixed w z : w <> 0%nat -> 0 <= z < 10 ^ Z.of_nat w -> z < 2 ^ 31 -> parse_i32 (fixed w z) = Some z.
Proof.
  intros Hw Hz Hl. unfold parse_i32. rewrite parse_i64_fixed by (done || lia). simpl.
  rewrite (proj2 (andb_true_iff _ _)) by lia. done.
Qed.

Lemma date_fields_text y m d :
  0 <= y < 10000 -> 0 <= m < 100 -> 0 <= d < 100 -> date_fields (of_bytes (date_text y m d)) = Some (y, m, d).
Proof.
  intros Hy Hm Hd. unfold date_fields. rewrite bytes_of_bytes, length_date_text.
  rewrite (proj2 (forallb_digits _) (date_text_digits y m d)). cbn [Nat.eqb negb orb].
  change (take 4 (date_text y m d)) with (fixed 4 y). change (take 2 (drop 4 (date_text y m d))) with (fixed 2 m).
  change (take 2 (drop 6 (date_text y m d))) with (fixed 2 d).
  rewrite parse_i32_fixed, !parse_fixed by (done || lia). done.
Qed.

Lemma format_date_text y m d :
  0 <= y < 10000 -> 0 <= m < 100 -> 0 <= d < 100 -> format_date y m d = of_bytes (date_text y m d).
Proof. intros. unfold format_date, date_text. rewrite !fmt_padded_fixed by lia. done. Qed.

Lemma days_before_month_succ y m :
  1 <= m -> days_before_month y (Z.to_nat (m + 1)) = days_before_month y (Z.to_nat m) + month_len y m.
Proof.
  intros Hm. replace (Z.to_nat (m + 1)) with (S (Z.to_nat m)) by lia. cbn [days_before_month].
  rewrite (proj2 (Nat.eqb_neq (Z.to_nat m) 0)), Z2Nat.id by lia. done.
Qed.

Lemma days_before_year_succ y : 0 <= y -> days_before_year (Z.to_nat (y + 1)) = days_before_year (Z.to_nat y) + year_len y.
Proof.
  intros Hy. replace (Z.to_nat (y + 1)) with (S (Z.to_nat y)) by lia. cbn [days_before_year]. by rewrite Z2Nat.id.
Qed.

Lemma last_day_of_year y : 0 <= y -> day_number y 12 31 + 1 = day_number (y + 1) 1 1.
Proof.
  intros Hy. unfold day_number. rewrite days_before_year_succ by lia.
  pose proof (days_before_month_succ y 12) as H. change (Z.to_nat (12 + 1)) with 13%nat in H.
  rewrite days_before_month_end in H. change (month_len y 12) with 31 in H.
  change (days_before_month (y + 1) (Z.to_nat 1)) with 0. lia.
Qed.

(** The date one day earlier. *)
Lemma previous_day_text y m d :
  valid_date y m d ->
  match previous_day_yyyymmdd (of_bytes (date_text y m d)) with
  | Some p => exists y' m' d', valid_date y' m' d' /\ p = of_bytes (date_text y' m' d')
                /\ day_number y' m' d' = day_number y m d - 1
  | None => y < 1 \/ y = 1 /\ m = 1 /\ d = 1
  end.
Proof.
  intros (Hy & Hm & Hd). pose proof (month_len_range y m Hm) as Hl.
  unfold previous_day_yyyymmdd. rewrite date_fields_text by lia. cbn [mbind option_bind].
  destruct (Z.ltb_spec 1 d).
  { destruct (Z.ltb_spec y 1); [lia|]. exists y, m, (d - 1). unfold valid_date.
    split_and!; try lia; [by rewrite format_date_text by lia|]. unfold day_number. lia. }
  destruct (Z.ltb_spec 1 m).
  { destruct (Z.ltb_spec y 1); [lia|]. rewrite days_in_month_len by lia.
    pose proof (month_len_range y (m - 1)). exists y, (m - 1), (month_len y (m - 1)). unfold valid_date.
    split_and!; try lia; [by rewrite format_date_text by lia|].
    unfold day_number. pose proof (days_before_month_succ y (m - 1)) as Hs. replace (m - 1 + 1) with m in Hs by lia. lia. }
  destruct (Z.ltb_spec (y - 1) 1); [lia|]. exists (y - 1), 12, 31. unfold valid_date.
  change (month_len (y - 1) 12) with 31. split_and!; try lia; [by rewrite format_date_text by lia|].
  pose proof (last_day_of_year (y - 1)) as Hs. replace (y - 1 + 1) with y in Hs by lia.
  replace m with 1 by lia. replace d with 1 by lia. lia.
Qed.

(** The date one day later, within the four-digit years. *)
Lemma next_day_text y m d :
  valid_date y m d -> day_number y m d + 1 < day_number 10000 1 1 ->
  exists y' m' d', valid_date y' m' d' /\ next_day_yyyymmdd (of_bytes (date_text y m d)) = Some (of_bytes (date_text y' m' d'))
    /\ day_number y' m' d' = day_number y m d + 1.
Proof.
  intros (Hy & Hm & Hd) Hn. pose proof (month_len_range y m Hm) as Hl.
  unfold next_day_yyyymmdd. rewrite date_fields_text by lia. cbn [mbind option_bind].
  rewrite days_in_month_len by lia. destruct (Z.ltb_spec d (month_len y m)).
  { exists y, m, (d + 1). unfold valid_date. rewrite format_date_text by lia. split_and!; try lia; [done|].
    unfold day_number. lia. }
  destruct (Z.ltb_spec m 12).
  { pose proof (month_len_range y (m + 1)). exists y, (m + 1), 1. unfold valid_date. rewrite format_date_text by lia.
    split_and!; try lia; [done|]. unfold day_number. rewrite days_before_month_succ by lia. lia. }
  assert (m = 12) as -> by lia. change (month_len y 12) with 31 in *. replace d with 31 in * by lia.
  pose proof (last_day_of_year y (proj1 Hy)) as Hs.
  assert (y <> 9999) by (intros ->; rewrite Hs in Hn; change (9999 + 1) with 10000 in Hn; lia).
  exists (y + 1), 1, 1. unfold valid_date. pose proof (month_len_range (y + 1) 1).
  rewrite format_date_text by lia. split_and!; try lia; done.
Qed.

Lemma iter_next_day n y m d :
  valid_date y m d -> day_number y m d + Z.of_nat n < day_number 10000 1 1 ->
  exists y' m' d', valid_date y' m' d'
    /\ Nat.iter n (fun o => o ≫= next_day_yyyymmdd) (Some (of_bytes (date_text y m d))) = Some (of_bytes (date_text y' m' d'))
    /\ day_number y' m' d' = day_number y m d + Z.of_nat n.
Proof.
  intros Hv. induction n as [|n IH]; intros Hn.
  { exists y, m, d. simpl. split_and!; [done|done|lia]. }
  destruct IH as (y1 & m1 & d1 & Hv1 & E1 & Hd1); [lia|].
  destruct (next_day_text y1 m1 d1 Hv1) as (y2 & m2 & d2 & Hv2 & E2 & Hd2); [lia|].
  exists y2, m2, d2. cbn [Nat.iter nat_rect]. change (nat_rect _ _ _ n) with (Nat.iter n (fun o => o ≫= next_day_yyyymmdd) (Some (of_bytes (date_text y m d)))).
  rewrite E1. cbn [mbind option_bind]. rewrite E2. split_and!; [done|done|lia].
Qed.

(** Advancing a cycle by a forecast lead is a shift in time: for every
    accepted cycle whose valid time is before the year 10000 the returned
    date and hour are an accepted cycle whose origin is the lead later. *)
Theorem advance_shifts_time date h c lead t :
  0 <= h -> 0 <= lead -> cycle_spec_new date h = Ok c -> cycle_origin_unix c = Ok t ->
  t + 3600 * lead < 86400 * (day_number 10000 1 1 - day_number 1970 1 1) ->
  exists date' h' c', advance_yyyymmddhh date h lead = Some (date', h') /\ cycle_spec_new date' h' = Ok c'
    /\ cycle_origin_unix c' = Ok (t + 3600 * lead).
Proof.
  intros Hh Hl (y & m & d & Hv & H23 & -> & ->)%cycle_accepted_iff Ht Hb; [|done].
  rewrite cycle_origin_counts in Ht by lia || done. injection Ht as <-. unfold origin_of in Hb.
  pose proof (Z.div_mod (h + lead) 24 ltac:(lia)) as Hdm. pose proof (Z.mod_pos_bound (h + lead) 24 ltac:(lia)) as Hmb.
  assert (0 <= (h + lead) / 24) by (apply Z.div_pos; lia).
  destruct (iter_next_day (Z.to_nat ((h + lead) / 24)) y m d Hv) as (y' & m' & d' & Hv' & E & Hd'); [lia|].
  exists (of_bytes (date_text y' m' d')), ((h + lead) mod 24), (cycle_of y' m' d' ((h + lead) mod 24)).
  unfold advance_yyyymmddhh. rewrite E. split_and!; [done|apply cycle_of_accepted; done || lia|].
  rewrite cycle_origin_counts by done || lia. f_equal. unfold origin_of. lia.
Qed.

Theorem advance_shifts_time_witness :
  exists date' h' c', advance_yyyymmddhh "20240228" 18 48 = Some (date', h') /\ cycle_spec_new date' h' = Ok c'
    /\ cycle_origin_unix c' = Ok (1709143200 + 3600 * 48).
Proof.
  apply (advance_shifts_time "20240228" 18 {| date_yyyymmdd := "20240228"; hour_utc := 18 |} 48 1709143200);
    [lia|lia|vm_compute; reflexivity|vm_compute; reflexivity|vm_compute; reflexivity].
Defined.

(** ** The search *)

Lemma cycle_spec_new_no_panic date h : cycle_spec_new date h <> Panic.
Proof.
  unfold cycle_spec_new, reject at 1. destruct (negb _ || _) eqn:E; [done|].
  apply orb_false_iff in E as [E1 E2]. apply negb_false_iff, Nat.eqb_eq in E1. apply negb_false_iff, forallb_digits in E2.
  destruct (all_digits_date _ E1 E2) as (y & m & d & Hy & Hm & Hd & Ht).
  rewrite <- (of_bytes_bytes date), Ht, validate_date_text by done.
  destruct (max_day y m); [|done]. simpl. unfold reject. repeat case_match; done.
Qed.

Section search.
Context (build_grib_url : SourceId -> ModelRunRequest -> string + ModelError).
Context (probe_available : ResolvedUrl -> bool).
Context (model : ModelId) (products : list string) (forecast_hour : Z).

Let product_available := product_available build_grib_url probe_available model.
Let all_available := all_available build_grib_url probe_available model.

(** A source has every product of a cycle. *)
Definition source_has (cycle : CycleSpec) (source : SourceId) : Prop :=
  all_available cycle forecast_hour source products = Ok true.

Lemma model_summary_ok : exists summary, model_summary (E := ModelError) model = Ok summary.
Proof using. destruct (catalog_entry model) as (s & H & _). exists s. by apply summary_of_ok. Qed.

Lemma resolve_urls_no_panic request : rq_model request = model -> resolve_urls build_grib_url request <> Panic.
Proof using.
  intros Hr. unfold resolve_urls. destruct model_summary_ok as (s & Hs). rewrite Hr, Hs. simpl.
  destruct (foldl _ _ _) as [urls errors]. case_bool_decide; done.
Qed.

Lemma product_available_total cycle source product :
  exists b, product_available cycle forecast_hour source product = Ok b.
Proof using.
  unfold product_available, Models.product_available, model_run_request_new, reject.
  destruct (negb _); simpl; [by eexists|].
  pose proof (resolve_urls_no_panic {| rq_model := model; rq_cycle := cycle; rq_forecast_hour := forecast_hour; rq_product := product |} eq_refl).
  destruct (resolve_urls _ _); [by eexists|by eexists|done].
Qed.

Lemma all_available_total cycle source l : exists b, all_available cycle forecast_hour source l = Ok b.
Proof using.
  induction l as [|product l (b & IH)]; [by exists true|].
  destruct (product_available_total cycle source product) as (b' & E). unfold all_available. simpl.
  unfold product_available in E. rewrite E. simpl. destruct b'; [by exists b|by exists false].
Qed.

Lemma find_source_spec cycle allowed :
  match find_source build_grib_url probe_available model cycle forecast_hour products allowed with
  | Ok (Some source) => source ∈ allowed /\ source_has cycle source
  | Ok None => forall source, source ∈ allowed -> ~ source_has cycle source
  | _ => False
  end.
Proof using.
  induction allowed as [|source allowed IH]; simpl; [by intros ? ?%not_elem_of_nil|].
  destruct (all_available_total cycle source products) as (b & E). unfold all_available in E. rewrite E. simpl.
  destruct b; [split; [left|done]|].
  destruct (find_source _ _ _ _ _ _ allowed) as [[s|]| |]; [|intros s'|done|done].
  - split; [right|]; apply IH.
  - rewrite elem_of_cons. intros [->|Hs]; [|by apply IH]. unfold source_has, all_available. rewrite E. done.
Qed.

Context (as_of_date : string) (as_of_hour : Z) (allowed : list SourceId).
Let search_hours := search_hours build_grib_url probe_available model allowed products forecast_hour as_of_date as_of_hour.
Let search_dates := search_dates build_grib_url probe_available model allowed products forecast_hour as_of_date as_of_hour.

(** A cycle the search may return: its hour is one of the model's, at which
    the forecast hour is scheduled, and it is not after the current hour. *)
Definition may_return (hours : list Z) (date : string) (cycle : CycleSpec) : Prop :=
  hour_utc cycle ∈ hours /\ cycle_spec_new date (hour_utc cycle) = Ok cycle
  /\ forecast_hour_supported model (hour_utc cycle) forecast_hour = true
  /\ (date = as_of_date -> hour_utc cycle <= as_of_hour).
Definition published (cycle : CycleSpec) : Prop := exists source, source ∈ allowed /\ source_has cycle source.

Lemma cycle_spec_new_fields date h cycle :
  cycle_spec_new date h = Ok cycle -> date_yyyymmdd cycle = date /\ hour_utc cycle = h.
Proof using.
  unfold cycle_spec_new, reject. destruct (negb _ || _); [done|]. simpl.
  destruct (validate_cycle_date date); [|done..]. simpl. case_match; [done|]. by intros [= <-].
Qed.

(** The search of one date returns its latest published cycle. *)
Lemma search_hours_spec date hours :
  StronglySorted (fun a b => b < a) hours ->
  match search_hours date hours with
  | Ok (Some run) =>
      lr_model run = model /\ may_return hours date (lr_cycle run)
      /\ lr_source run ∈ allowed /\ source_has (lr_cycle run) (lr_source run)
      /\ forall cycle, may_return hours date cycle -> published cycle -> hour_utc cycle <= hour_utc (lr_cycle run)
  | Ok None => forall cycle, may_return hours date cycle -> ~ published cycle
  | _ => False
  end.
Proof using.
  induction 1 as [|h hours Hs IH Hlt]; unfold search_hours at 1; simpl; [intros cycle (H & _); by apply not_elem_of_nil in H|].
  assert (forall cycle, may_return (h :: hours) date cycle ->
            may_return hours date cycle
            \/ hour_utc cycle = h /\ cycle_spec_new date h = Ok cycle
               /\ forecast_hour_supported model h forecast_hour = true /\ (date = as_of_date -> h <= as_of_hour)) as Hcase.
  { intros cycle (Hin & Hc & Hf & Ha). apply elem_of_cons in Hin as [Hin|Hin]; [right|left; split_and!; done].
    rewrite Hin in *. split_and!; done. }
  fold search_hours. set (continue_ := search_hours date hours) in *.
  assert (Hskip : (forall cycle, may_return (h :: hours) date cycle -> published cycle -> may_return hours date cycle) ->
     match continue_ with
     | Ok (Some run) => lr_model run = model /\ may_return (h :: hours) date (lr_cycle run)
         /\ lr_source run ∈ allowed /\ source_has (lr_cycle run) (lr_source run)
         /\ forall cycle, may_return (h :: hours) date cycle -> published cycle -> hour_utc cycle <= hour_utc (lr_cycle run)
     | Ok None => forall cycle, may_return (h :: hours) date cycle -> ~ published cycle
     | _ => False
     end).
  { intros Hsub. destruct continue_ as [[run|]| |]; [|intros cycle Hm Hp; by apply (IH cycle); auto|done|done].
    destruct IH as (H1 & (Hin & H2) & H3 & H4 & H5). split_and!; try done; [split; [by right|done]|]. intros cycle Hm Hp. apply H5; auto. }
  destruct (bool_decide (date = as_of_date) && _) eqn:E1.
  { apply Hskip. intros cycle Hm _. destruct (Hcase cycle Hm) as [?|(_ & _ & _ & Ha)]; [done|].
    apply andb_true_iff in E1 as [->%bool_decide_eq_true E1%Z.ltb_lt]. specialize (Ha eq_refl). lia. }
  destruct (forecast_hour_supported model h forecast_hour) eqn:E2; simpl.
  2: { apply Hskip. intros cycle Hm _. by destruct (Hcase cycle Hm) as [?|(_ & _ & ? & _)]. }
  destruct (cycle_spec_new date h) as [cycle|e|] eqn:E3; [| |by apply cycle_spec_new_no_panic in E3].
  2: { apply Hskip. intros cycle Hm _. by destruct (Hcase cycle Hm) as [?|(_ & ? & _)]. }
  pose proof (find_source_spec cycle allowed) as Hf.
  destruct (find_source _ _ _ _ _ _ _) as [[source|]| |]; simpl; [| |done|done].
  - destruct (cycle_spec_new_fields _ _ _ E3) as [_ Eh]. destruct Hf as [Hf1 Hf2]. split_and!; try done.
    + split_and!; rewrite ?Eh; try done; [left|]. intros ->. rewrite bool_decide_eq_true_2 in E1 by done. simpl in E1. lia.
    + intros cycle' Hm _. simpl. rewrite Eh. destruct (Hcase cycle' Hm) as [(Hin & _)|(-> & _)]; [|lia].
      pose proof (proj1 (list.Forall_forall _ _) Hlt _ Hin). simpl in *. lia.
  - apply Hskip. intros cycle' Hm (source & Hs1 & Hs2). destruct (Hcase cycle' Hm) as [?|(_ & Hc & _)]; [done|].
    assert (cycle' = cycle) as -> by congruence. by apply Hf in Hs2.
Qed.

(** Of two dates of a search the first is the later day. *)
Definition descending (dates : list string) : Prop :=
  StronglySorted (fun a b => forall ha hb ca cb ta tb,
    cycle_spec_new a ha = Ok ca -> cycle_spec_new b hb = Ok cb -> 0 <= ha -> 0 <= hb ->
    cycle_origin_unix ca = Ok ta -> cycle_origin_unix cb = Ok tb -> tb < ta) dates.

(** A cycle on one of the dates that are not in the future. *)
Definition on_dates (hours : list Z) (dates : list string) (cycle : CycleSpec) : Prop :=
  exists date, date ∈ dates /\ str_compare date as_of_date <> Gt /\ may_return hours date cycle.

Lemma may_return_origin hours date cycle :
  Forall (fun h => 0 <= h <= 23) hours -> may_return hours date cycle ->
  exists y m d, valid_date y m d /\ date = of_bytes (date_text y m d) /\ 0 <= hour_utc cycle <= 23
    /\ cycle = cycle_of y m d (hour_utc cycle) /\ cycle_origin_unix cycle = Ok (origin_of y m d (hour_utc cycle)).
Proof using.
  intros Hh (Hin & Hc & _). pose proof (proj1 (list.Forall_forall _ _) Hh _ Hin) as Hr. simpl in Hr.
  apply cycle_accepted_iff in Hc as (y & m & d & Hv & _ & Ed & Ec); [|lia].
  exists y, m, d. split_and!; try done || lia. rewrite Ec at 1. by apply cycle_origin_counts.
Qed.

Lemma search_dates_spec hours dates :
  StronglySorted (fun a b => b < a) hours -> Forall (fun h => 0 <= h <= 23) hours -> descending dates ->
  match search_dates hours dates with
  | Ok (Some run) =>
      lr_model run = model /\ on_dates hours dates (lr_cycle run)
      /\ lr_source run ∈ allowed /\ source_has (lr_cycle run) (lr_source run)
      /\ forall cycle t t', on_dates hours dates cycle -> published cycle ->
           cycle_origin_unix cycle = Ok t -> cycle_origin_unix (lr_cycle run) = Ok t' -> t <= t'
  | Ok None => forall cycle, on_dates hours dates cycle -> ~ published cycle
  | _ => False
  end.
Proof using.
  intros Hs Hh. induction 1 as [|date dates Hd IH Hlt]; unfold search_dates at 1; simpl.
  { intros cycle (? & H%not_elem_of_nil & _). done. }
  fold search_dates. fold search_hours.
  assert (Hskip : (forall cycle, str_compare date as_of_date <> Gt -> may_return hours date cycle -> ~ published cycle) ->
     match search_dates hours dates with
     | Ok (Some run) => lr_model run = model /\ on_dates hours (date :: dates) (lr_cycle run)
         /\ lr_source run ∈ allowed /\ source_has (lr_cycle run) (lr_source run)
         /\ forall cycle t t', on_dates hours (date :: dates) cycle -> published cycle ->
              cycle_origin_unix cycle = Ok t -> cycle_origin_unix (lr_cycle run) = Ok t' -> t <= t'
     | Ok None => forall cycle, on_dates hours (date :: dates) cycle -> ~ published cycle
     | _ => False
     end).
  { intros Hno.
    assert (forall cycle, on_dates hours (date :: dates) cycle -> published cycle -> on_dates hours dates cycle) as Hsub.
    { intros cycle (dt & Hin & Hc & Hm) Hp. apply elem_of_cons in Hin as [->|Hin]; [by apply Hno in Hp|by exists dt]. }
    destruct (search_dates hours dates) as [[run|]| |]; [|intros cycle Ho Hp; by apply (IH cycle); auto|done|done].
    destruct IH as (H1 & (dt & Hin & H2) & H3 & H4 & H5). split_and!; try done; [exists dt; split; [by right|done]|].
    intros cycle t t' Ho Hp. apply H5; auto. }
  destruct (str_compare date as_of_date) eqn:Ec; [| |apply Hskip; intros ? H; by destruct H].
  all: pose proof (search_hours_spec date hours Hs) as Hsh; destruct (search_hours date hours) as [[run|]| |]; simpl;
    [|apply Hskip; intros cycle _; apply Hsh|done|done].
  all: destruct Hsh as (H1 & H2 & H3 & H4 & H5); split_and!; try done;
    [exists date; split_and!; [left|by rewrite Ec|done]|];
    intros cycle t t' (dt & Hin & _ & Hm) Hp Ht Ht';
    destruct (may_return_origin _ _ _ Hh H2) as (y & m & d & Hv & -> & Hr & Er & Et); rewrite Et in Ht'; injection Ht' as <-;
    destruct (may_return_origin _ _ _ Hh Hm) as (y' & m' & d' & Hv' & -> & Hr' & Er' & Et'); rewrite Et' in Ht; injection Ht as <-;
    (apply elem_of_cons in Hin as [Hin|Hin];
     [apply (inj of_bytes) in Hin; apply date_text_inj in Hin as (-> & -> & ->); [|done..];
      specialize (H5 cycle Hm Hp); unfold origin_of; lia
     |pose proof (proj1 (list.Forall_forall _ _) Hlt _ Hin) as Hl; simpl in Hl;
      specialize (Hl _ _ _ _ _ _ (proj1 (proj2 H2)) (proj1 (proj2 Hm)) (proj1 Hr) (proj1 Hr') Et Et'); lia]).
Qed.
End search.

Lemma rollback_descending date : descending (cycle_date_rollback_candidates date).
Proof.
  unfold cycle_date_rollback_candidates.
  destruct (previous_day_yyyymmdd date) as [p|] eqn:E; [|repeat constructor].
  constructor; [repeat constructor|]. constructor; [|constructor].
  intros ha hb ca cb ta tb Hc Hb Ha Hb0 Ea Eb.
  apply cycle_accepted_iff in Hc as (y & m & d & Hv & H23 & -> & ->); [|done].
  pose proof (previous_day_text y m d Hv) as Hp. rewrite E in Hp. destruct Hp as (y' & m' & d' & Hv' & -> & Hd).
  apply cycle_accepted_iff in Hb as (y2 & m2 & d2 & Hv2 & H23b & Eq & ->); [|done].
  apply (inj of_bytes), date_text_inj in Eq as (-> & -> & ->); [|done..].
  rewrite cycle_origin_counts in Ea, Eb by done || lia. injection Ea as <-. injection Eb as <-. unfold origin_of. lia.
Qed.

Lemma StronglySorted_reverse (l : list Z) : StronglySorted Z.lt l -> StronglySorted (fun a b => b < a) (reverse l).
Proof.
  induction 1 as [|a l Hs IH Hlt]; [constructor|]. rewrite reverse_cons.
  apply StronglySorted_app_2; [|done|repeat constructor].
  intros x y Hx Hy. rewrite elem_of_reverse in Hx. apply list_elem_of_singleton in Hy as ->.
  pose proof (proj1 (list.Forall_forall _ _) Hlt _ Hx). simpl in *. done.
Qed.

(** The cycles a search on [date] may return. *)
Definition candidate (model : ModelId) (forecast_hour : Z) (date as_of_date : string) (as_of_hour : Z)
    (summary : ModelSummary) (cycle : CycleSpec) : Prop :=
  on_dates model forecast_hour as_of_date as_of_hour (reverse (cycle_hours_utc summary))
    (cycle_date_rollback_candidates date) cycle.

(** C34: the run search is exact for any provider: it returns a run of the
    model on the requested date or the day before, not after the current
    hour, that some allowed source has with every required product, and no
    such run is newer; it reports that there is no run only when no allowed
    source has any such run; it never panics. *)
Theorem latest_run_is_newest build_grib_url probe model summary source date products required forecast_hour as_of_date as_of_hour :
  model_summary (E := ModelError) model = Ok summary -> required_products model products = Ok required ->
  let has := source_has build_grib_url probe model required forecast_hour in
  let is_candidate := candidate model forecast_hour date as_of_date as_of_hour summary in
  match latest_available_run_as_of build_grib_url probe model source date products forecast_hour as_of_date as_of_hour with
  | Ok run =>
      lr_model run = model /\ is_candidate (lr_cycle run)
      /\ lr_source run ∈ allowed_sources summary source /\ has (lr_cycle run) (lr_source run)
      /\ forall cycle s t t', is_candidate cycle -> s ∈ allowed_sources summary source -> has cycle s ->
           cycle_origin_unix cycle = Ok t -> cycle_origin_unix (lr_cycle run) = Ok t' -> t <= t'
  | Err e => e = NoAvailableRun model
      /\ forall cycle s, is_candidate cycle -> s ∈ allowed_sources summary source -> ~ has cycle s
  | Panic => False
  end.
Proof.
  intros Hs Hreq has is_candidate. unfold latest_available_run_as_of. rewrite Hs. cbn [mbind result_bind].
  case_bool_decide as Ha.
  { split; [done|]. intros cycle s _ Hin. rewrite Ha in Hin. by apply not_elem_of_nil in Hin. }
  rewrite Hreq. cbn [mbind result_bind].
  destruct (catalog_entry model) as (summary' & Hs' & _ & Hsort & Hr & _).
  apply (summary_of_ok (E := ModelError)) in Hs'. rewrite Hs in Hs'. injection Hs' as <-.
  pose proof (search_dates_spec build_grib_url probe model required forecast_hour as_of_date as_of_hour
    (allowed_sources summary source) (reverse (cycle_hours_utc summary)) (cycle_date_rollback_candidates date)
    (StronglySorted_reverse _ Hsort) (proj2 (Forall_reverse _ _) Hr) (rollback_descending date)) as H.
  destruct (search_dates _ _ _ _ _ _ _ _ _ _) as [[run|]| |]; cbn [mbind result_bind ok_or]; [|split; [done|]|done|done].
  - destruct H as (H1 & H2 & H3 & H4 & H5). split_and!; try done.
    intros cycle s t t' Hc Hin Hh. apply H5; [done|]. by exists s.
  - intros cycle s Hc Hin Hh. apply (H cycle Hc). by exists s.
Qed.

(** A provider whose only object is the 06z run of one day, at one source. *)
Definition example_url (source : SourceId) (request : ModelRunRequest) : string + ModelError :=
  inl (of_bytes (bytes (date_yyyymmdd (rq_cycle request)) ++ fmt_padded 2 (hour_utc (rq_cycle request)))).
Definition example_probe (url : ResolvedUrl) : bool :=
  bool_decide (grib_url url = "2023123106"%string) && bool_decide (ru_source url = SrcAws).

Theorem latest_run_is_newest_witness :
  exists run, latest_available_run_as_of example_url example_probe Gfs None "20240101" [] 0 "20240101" 5 = Ok run
    /\ lr_source run = SrcAws /\ lr_cycle run = {| date_yyyymmdd := "20231231"; hour_utc := 6 |}
    /\ forall summary, model_summary (E := ModelError) Gfs = Ok summary ->
       candidate Gfs 0 "20240101" "20240101" 5 summary (lr_cycle run).
Proof.
  eexists. split; [vm_compute; reflexivity|]. split; [reflexivity|]. split; [reflexivity|]. intros summary Hs.
  pose proof (latest_run_is_newest example_url example_probe Gfs summary None "20240101" [] ["pgrb2.0p25"] 0 "20240101" 5
    Hs ltac:(vm_compute; reflexivity)) as H.
  replace (latest_available_run_as_of example_url example_probe Gfs None "20240101" [] 0 "20240101" 5)
    with (Ok (E := ModelError) {| lr_model := Gfs; lr_cycle := {| date_yyyymmdd := "20231231"; hour_utc := 6 |}; lr_source := SrcAws |}) in H
    by (vm_compute; reflexivity).
  apply H.
Defined.
