(* ===== verification/Profile.v ===== *)
(** * Ingest profiles

    [crates/rw-ingest/src/ingest_profile.rs] with the field selectors of
    [crates/rustwx-core/src/lib.rs] it names: which volumes, surface fields
    and compute stages of a model's hour are fetched and stored, the presets,
    and the validation that runs before any ingest. *)
From Stdlib Require Import ZArith Lia Ascii String.
From stdpp Require Import base list strings numbers.
From S2P Require Import Prelude Format Text Ids Cycle Models.

Local Open Scope Z_scope.

(** ** Field selectors *)

Inductive CanonicalField :=
  | FPressure | FGeopotentialHeight | FVerticalVelocity | FTemperature | FRelativeHumidity | FDewpoint
  | FPressureReducedToMeanSeaLevel | FAbsoluteVorticity | FRelativeVorticity | FUWind | FVWind | FWindSpeed
  | FWindGust | FTotalCloudCover | FLowCloudCover | FMiddleCloudCover | FHighCloudCover | FPrecipitableWater
  | FTotalPrecipitation | FProbabilityOfPrecipitation | FVisibility | FSimulatedInfraredBrightnessTemperature
  | FRadarReflectivity | FLightningFlashDensity | FCategoricalRain | FCategoricalFreezingRain
  | FCategoricalIcePellets | FCategoricalSnow | FLandSeaMask | FCompositeReflectivity | FUpdraftHelicity
  | FSmokeMassDensity | FColumnIntegratedSmoke.

Inductive VerticalSelector :=
| Surface | MeanSeaLevel | AltitudeMeters (height_m : Z) | HeightAboveGroundMeters (height_m : Z)
| HeightAboveGroundLayerMeters (bottom_m top_m : Z) | HybridLevel (level : Z) | IsobaricHpa (level_hpa : Z)
| EntireAtmosphere | NominalTop.

Record ProbabilitySelection := {
  probability_type : option Z;
  lower_limit_milli : option Z;
  upper_limit_milli : option Z
}.

Inductive FieldProduct :=
| DefaultProduct | EnsembleMean | EnsembleStandardDeviation | EnsembleSpread | EnsembleMinimum | EnsembleMaximum
| Percentile (p : Z) | Probability (selection : ProbabilitySelection).

Record FieldSelector := { field : CanonicalField; vertical : VerticalSelector; product_of : FieldProduct }.

#[global] Instance CanonicalField_eq_dec : EqDecision CanonicalField.
Proof. solve_decision. Defined.
#[global] Instance VerticalSelector_eq_dec : EqDecision VerticalSelector.
Proof. solve_decision. Defined.
#[global] Instance ProbabilitySelection_eq_dec : EqDecision ProbabilitySelection.
Proof. solve_decision. Defined.
#[global] Instance FieldProduct_eq_dec : EqDecision FieldProduct.
Proof. solve_decision. Defined.
#[global] Instance FieldSelector_eq_dec : EqDecision FieldSelector.
Proof. solve_decision. Defined.

Definition selector_new (f : CanonicalField) (v : VerticalSelector) : FieldSelector :=
  {| field := f; vertical := v; product_of := DefaultProduct |}.
Definition with_product (s : FieldSelector) (p : FieldProduct) : FieldSelector :=
  {| field := field s; vertical := vertical s; product_of := p |}.
Definition with_ensemble_mean (s : FieldSelector) : FieldSelector := with_product s EnsembleMean.
Definition with_ensemble_spread (s : FieldSelector) : FieldSelector := with_product s EnsembleSpread.
Definition with_percentile (s : FieldSelector) (p : Z) : FieldSelector := with_product s (Percentile p).
Definition with_probability (s : FieldSelector) (p : ProbabilitySelection) : FieldSelector := with_product s (Probability p).
Definition isobaric (f : CanonicalField) (level_hpa : Z) : FieldSelector := selector_new f (IsobaricHpa level_hpa).
Definition sel_surface (f : CanonicalField) : FieldSelector := selector_new f Surface.
Definition mean_sea_level (f : CanonicalField) : FieldSelector := selector_new f MeanSeaLevel.
Definition height_agl (f : CanonicalField) (height_m : Z) : FieldSelector := selector_new f (HeightAboveGroundMeters height_m).
Definition entire_atmosphere (f : CanonicalField) : FieldSelector := selector_new f EntireAtmosphere.
Definition nominal_top (f : CanonicalField) : FieldSelector := selector_new f NominalTop.
Definition height_layer_agl (f : CanonicalField) (bottom_m top_m : Z) : FieldSelector :=
  selector_new f (HeightAboveGroundLayerMeters bottom_m top_m).
(** [ProbabilitySelection::new(Some(3), Some(threshold), None)]. *)
Definition above_type3 (threshold_milli : Z) : ProbabilitySelection :=
  {| probability_type := Some 3; lower_limit_milli := Some threshold_milli; upper_limit_milli := None |}.

(** ** Surface plans *)

Definition base_surface_plan : list (string * FieldSelector) :=
  [("temperature_2m", height_agl FTemperature 2);
   ("dewpoint_2m", height_agl FDewpoint 2);
   ("u_10m", height_agl FUWind 10);
   ("v_10m", height_agl FVWind 10);
   ("composite_reflectivity", entire_atmosphere FCompositeReflectivity);
   ("mslp", mean_sea_level FPressureReducedToMeanSeaLevel);
   ("rh_2m", height_agl FRelativeHumidity 2);
   ("wind_gust_10m", height_agl FWindGust 10);
   ("surface_pressure", sel_surface FPressure);
   ("orography", sel_surface FGeopotentialHeight);
   ("apcp_run_total", sel_surface FTotalPrecipitation);
   ("categorical_rain", sel_surface FCategoricalRain);
   ("categorical_freezing_rain", sel_surface FCategoricalFreezingRain);
   ("categorical_ice_pellets", sel_surface FCategoricalIcePellets);
   ("categorical_snow", sel_surface FCategoricalSnow);
   ("pwat", entire_atmosphere FPrecipitableWater);
   ("cloud_cover_low", entire_atmosphere FLowCloudCover);
   ("cloud_cover_mid", entire_atmosphere FMiddleCloudCover);
   ("cloud_cover_high", entire_atmosphere FHighCloudCover);
   ("cloud_cover_total", entire_atmosphere FTotalCloudCover);
   ("visibility", sel_surface FVisibility);
   ("reflectivity_1km", height_agl FRadarReflectivity 1000);
   ("uh_2to5km", height_layer_agl FUpdraftHelicity 2000 5000);
   ("smoke_8m", height_agl FSmokeMassDensity 8);
   ("smoke_column", entire_atmosphere FColumnIntegratedSmoke);
   ("simulated_ir", nominal_top FSimulatedInfraredBrightnessTemperature)].

Definition cptec_eta_surface_plan : list (string * FieldSelector) :=
  [("temperature_2m", height_agl FTemperature 2);
   ("dewpoint_2m", height_agl FDewpoint 2);
   ("u_10m", height_agl FUWind 10);
   ("v_10m", height_agl FVWind 10);
   ("mslp", mean_sea_level FPressureReducedToMeanSeaLevel);
   ("rh_2m", height_agl FRelativeHumidity 2);
   ("surface_pressure", sel_surface FPressure);
   ("apcp_native_interval", sel_surface FTotalPrecipitation)].

Definition arome_france_001_surface_plan : list (string * FieldSelector) :=
  [("temperature_2m", height_agl FTemperature 2);
   ("rh_2m", height_agl FRelativeHumidity 2);
   ("u_10m", height_agl FUWind 10);
   ("v_10m", height_agl FVWind 10);
   ("surface_pressure", sel_surface FPressure);
   ("orography", sel_surface FGeopotentialHeight);
   ("composite_reflectivity", sel_surface FCompositeReflectivity);
   ("cloud_cover_low", sel_surface FLowCloudCover);
   ("cloud_cover_mid", sel_surface FMiddleCloudCover);
   ("cloud_cover_high", sel_surface FHighCloudCover);
   ("simulated_ir", sel_surface FSimulatedInfraredBrightnessTemperature)].

Definition arome_france_0025_surface_plan : list (string * FieldSelector) :=
  [("temperature_2m", height_agl FTemperature 2);
   ("dewpoint_2m", height_agl FDewpoint 2);
   ("rh_2m", height_agl FRelativeHumidity 2);
   ("u_10m", height_agl FUWind 10);
   ("v_10m", height_agl FVWind 10);
   ("wind_gust_10m", height_agl FWindGust 10);
   ("mslp", mean_sea_level FPressureReducedToMeanSeaLevel);
   ("surface_pressure", sel_surface FPressure);
   ("orography", sel_surface FGeopotentialHeight);
   ("apcp_run_total", sel_surface FTotalPrecipitation);
   ("pwat", entire_atmosphere FPrecipitableWater);
   ("cloud_cover_low", sel_surface FLowCloudCover);
   ("cloud_cover_mid", sel_surface FMiddleCloudCover);
   ("cloud_cover_high", sel_surface FHighCloudCover);
   ("cloud_cover_total", sel_surface FTotalCloudCover)].

(** The percentile labels of the CMA GEPS names ([p00] for 0). *)
Definition PERCENTILES : list (Z * string) := [(0, "_p00"); (25, "_p25"); (50, "_p50"); (75, "_p75"); (100, "_p100")].
Definition PERCENTILE_FAMILIES : list (string * FieldSelector) :=
  [("temperature_2m", height_agl FTemperature 2);
   ("temperature_850hpa", isobaric FTemperature 850);
   ("wind_speed_10m", height_agl FWindSpeed 10);
   ("wind_speed_850hpa", isobaric FWindSpeed 850);
   ("wind_speed_250hpa", isobaric FWindSpeed 250);
   ("wind_gust_10m", height_agl FWindGust 10);
   ("cloud_cover_total", sel_surface FTotalCloudCover)].
Definition percentile_entries (family : string) (selector : FieldSelector) : list (string * FieldSelector) :=
  (fun '(p, suffix) => (String.append family suffix, with_percentile selector p)) <$> PERCENTILES.
Definition probability_entries (selector : FieldSelector) (thresholds : list (Z * string)) : list (string * FieldSelector) :=
  (fun '(threshold_milli, name) => (name, with_probability selector (above_type3 threshold_milli))) <$> thresholds.

Definition cma_geps_statistics_surface_plan : list (string * FieldSelector) :=
  [("height_500hpa_ensemble_mean", with_ensemble_mean (isobaric FGeopotentialHeight 500));
   ("height_500hpa_ensemble_spread", with_ensemble_spread (isobaric FGeopotentialHeight 500));
   ("mslp_ensemble_mean", with_ensemble_mean (mean_sea_level FPressureReducedToMeanSeaLevel));
   ("mslp_ensemble_spread", with_ensemble_spread (mean_sea_level FPressureReducedToMeanSeaLevel))]
  ++ (PERCENTILE_FAMILIES ≫= fun '(family, selector) => percentile_entries family selector)
  ++ probability_entries (height_agl FWindSpeed 10)
       [(10000, "wind_speed_10m_probability_gt_10ms");
        (15000, "wind_speed_10m_probability_gt_15ms");
        (20000, "wind_speed_10m_probability_gt_20ms");
        (25000, "wind_speed_10m_probability_gt_25ms")]
  ++ probability_entries (height_agl FWindGust 10)
       [(15000, "wind_gust_10m_probability_gt_15ms");
        (25000, "wind_gust_10m_probability_gt_25ms");
        (35000, "wind_gust_10m_probability_gt_35ms")]
  ++ percentile_entries "apcp_run_total" (sel_surface FTotalPrecipitation)
  ++ probability_entries (sel_surface FTotalPrecipitation)
       [(1000, "apcp_run_total_probability_gt_1mm");
        (5000, "apcp_run_total_probability_gt_5mm");
        (10000, "apcp_run_total_probability_gt_10mm");
        (25000, "apcp_run_total_probability_gt_25mm");
        (50000, "apcp_run_total_probability_gt_50mm");
        (100000, "apcp_run_total_probability_gt_100mm")].

(** [append_reps_full_statistics]: the nine statistics of one field. *)
Definition reps_full_statistics (names : list string) (selector : FieldSelector) : list (string * FieldSelector) :=
  zip_with (fun name product => (name, with_product selector product)) names
    [Percentile 10; Percentile 25; Percentile 50; Percentile 75; Percentile 90; EnsembleSpread; EnsembleMean;
     EnsembleMinimum; EnsembleMaximum].

Definition reps_statistics_surface_plan : list (string * FieldSelector) :=
  reps_full_statistics
       ["temperature_2m_p10";
        "temperature_2m_p25";
        "temperature_2m_p50";
        "temperature_2m_p75";
        "temperature_2m_p90";
        "temperature_2m_ensemble_spread";
        "temperature_2m_ensemble_mean";
        "temperature_2m_ensemble_min";
        "temperature_2m_ensemble_max"]
       (height_agl FTemperature 2)
  ++ reps_full_statistics
       ["wind_speed_10m_p10";
        "wind_speed_10m_p25";
        "wind_speed_10m_p50";
        "wind_speed_10m_p75";
        "wind_speed_10m_p90";
        "wind_speed_10m_ensemble_spread";
        "wind_speed_10m_ensemble_mean";
        "wind_speed_10m_ensemble_min";
        "wind_speed_10m_ensemble_max"]
       (height_agl FWindSpeed 10)
  ++ reps_full_statistics
       ["total_precipitation_3h_p10";
        "total_precipitation_3h_p25";
        "total_precipitation_3h_p50";
        "total_precipitation_3h_p75";
        "total_precipitation_3h_p90";
        "total_precipitation_3h_ensemble_spread";
        "total_precipitation_3h_ensemble_mean";
        "total_precipitation_3h_ensemble_min";
        "total_precipitation_3h_ensemble_max"]
       (sel_surface FTotalPrecipitation)
  ++ probability_entries (sel_surface FTotalPrecipitation)
       [(1000, "total_precipitation_3h_probability_gt_1mm");
        (2500, "total_precipitation_3h_probability_gt_2p5mm");
        (5000, "total_precipitation_3h_probability_gt_5mm");
        (10000, "total_precipitation_3h_probability_gt_10mm");
        (15000, "total_precipitation_3h_probability_gt_15mm");
        (20000, "total_precipitation_3h_probability_gt_20mm");
        (25000, "total_precipitation_3h_probability_gt_25mm");
        (30000, "total_precipitation_3h_probability_gt_30mm");
        (40000, "total_precipitation_3h_probability_gt_40mm");
        (50000, "total_precipitation_3h_probability_gt_50mm")].

Definition surface_plan : list (string * FieldSelector) :=
  base_surface_plan ++ cma_geps_statistics_surface_plan ++ reps_statistics_surface_plan ++ cptec_eta_surface_plan
  ++ arome_france_001_surface_plan ++ arome_france_0025_surface_plan.

Definition model_surface_plan (model : ModelId) : list (string * FieldSelector) :=
  match model with
  | CmaGeps => cma_geps_statistics_surface_plan
  | Reps => reps_statistics_surface_plan
  | EtaCptec8km => cptec_eta_surface_plan
  | AromeFrance001 => arome_france_001_surface_plan
  | AromeFrance0025 => arome_france_0025_surface_plan
  | GdpsGeml => [("temperature_2m", height_agl FTemperature 2);
       ("u_10m", height_agl FUWind 10);
       ("v_10m", height_agl FVWind 10);
       ("mslp", mean_sea_level FPressureReducedToMeanSeaLevel)]
  | _ => base_surface_plan
  end.

(** ** Profiles *)

Inductive VolumeChoice := Temperature | Dewpoint | UWind | VWind | GeopotentialHeight.

#[global] Instance VolumeChoice_eq_dec : EqDecision VolumeChoice.
Proof. solve_decision. Defined.

Definition ALL_VOLUMES : list VolumeChoice := [Temperature; Dewpoint; UWind; VWind; GeopotentialHeight].

Definition volume_field (choice : VolumeChoice) : CanonicalField :=
  match choice with
  | Temperature => FTemperature
  | Dewpoint => FDewpoint
  | UWind => FUWind
  | VWind => FVWind
  | GeopotentialHeight => FGeopotentialHeight
  end.

Definition store_name (choice : VolumeChoice) : string :=
  match choice with
  | Temperature => "temperature_iso"
  | Dewpoint => "dewpoint_iso"
  | UWind => "u_iso"
  | VWind => "v_iso"
  | GeopotentialHeight => "height_iso"
  end.

Inductive FieldSet := AllFields | Named (names : list string).

#[global] Instance FieldSet_eq_dec : EqDecision FieldSet.
Proof. solve_decision. Defined.

Record IngestProfile := {
  volumes : list VolumeChoice;
  level_step_hpa : Z;
  surface_fields : FieldSet;
  derived : bool;
  heavy : bool
}.

#[global] Instance IngestProfile_eq_dec : EqDecision IngestProfile.
Proof. solve_decision. Defined.

Definition LEVEL_STEPS_HPA : list Z := [25; 50].
Definition SOUNDING_SURFACE_FIELDS : list string :=
  ["temperature_2m"; "dewpoint_2m"; "u_10m"; "v_10m"; "surface_pressure"; "mslp"; "orography"].
Definition ANALYSIS_SURFACE_FIELDS : list string :=
  ["temperature_2m"; "dewpoint_2m"; "u_10m"; "v_10m"; "wind_gust_10m"; "surface_pressure"; "orography";
   "cloud_cover_total"; "visibility"].

(** *** Presets *)

Definition profile_full : IngestProfile :=
  {| volumes := ALL_VOLUMES; level_step_hpa := 25; surface_fields := AllFields; derived := true; heavy := true |}.
Definition profile_sounding : IngestProfile :=
  {| volumes := ALL_VOLUMES; level_step_hpa := 25; surface_fields := Named SOUNDING_SURFACE_FIELDS;
     derived := false; heavy := false |}.
Definition profile_view : IngestProfile :=
  {| volumes := []; level_step_hpa := 25; surface_fields := AllFields; derived := true; heavy := false |}.
Definition profile_view_profiles : IngestProfile :=
  {| volumes := ALL_VOLUMES; level_step_hpa := 25; surface_fields := AllFields; derived := true; heavy := false |}.
Definition surface_with_plan (plan : list (string * FieldSelector)) : IngestProfile :=
  {| volumes := []; level_step_hpa := 25; surface_fields := Named (fst <$> plan); derived := false; heavy := false |}.
Definition profile_surface : IngestProfile := surface_with_plan base_surface_plan.
Definition surface_for_model (model : ModelId) : IngestProfile := surface_with_plan (model_surface_plan model).
Definition profile_analysis : IngestProfile :=
  {| volumes := []; level_step_hpa := 25; surface_fields := Named ANALYSIS_SURFACE_FIELDS;
     derived := false; heavy := false |}.
Definition sounding_for_model (model : ModelId) : IngestProfile :=
  if bool_decide (model = EtaCptec8km) then
    {| volumes := volumes profile_sounding; level_step_hpa := level_step_hpa profile_sounding;
       surface_fields := surface_fields (surface_for_model model);
       derived := derived profile_sounding; heavy := heavy profile_sounding |}
  else profile_sounding.

Definition preset (name : string) : result string IngestProfile :=
  if bool_decide (name = "full") then Ok profile_full
  else if bool_decide (name = "sounding") then Ok profile_sounding
  else if bool_decide (name = "view") then Ok profile_view
  else if bool_decide (name = "view_profiles") then Ok profile_view_profiles
  else if bool_decide (name = "surface") then Ok profile_surface
  else if bool_decide (name = "analysis") then Ok profile_analysis
  else Err "--profile: unknown preset".

(** *** Queries *)

(** [(100..=1000).step_by(step)]; [step_by] panics on zero. *)
Definition candidate_levels (p : IngestProfile) : result string (list Z) :=
  if level_step_hpa p =? 0 then Panic else Ok (hours_by (level_step_hpa p) 100 1000).
Definition includes_full_2d (p : IngestProfile) : bool :=
  match surface_fields p with AllFields => true | Named _ => false end.
Definition includes_surface_field (p : IngestProfile) (name : string) : bool :=
  match surface_fields p with AllFields => true | Named names => existsb (String.eqb name) names end.
Definition includes_volume_field (p : IngestProfile) (f : CanonicalField) : bool :=
  existsb (fun choice => bool_decide (volume_field choice = f)) (volumes p).
Definition needs_prs (p : IngestProfile) : bool :=
  negb (bool_decide (volumes p = [])) || includes_full_2d p || derived p || heavy p.

(** [IngestProfile::validate]: the checks in order. The loop over volumes
    compares each with those before it. *)
Fixpoint check_volumes (before rest : list VolumeChoice) : result string unit :=
  match rest with
  | [] => Ok tt
  | choice :: rest =>
      _ ← reject (bool_decide (choice ∈ before)) "profile: duplicate volume";
      check_volumes (before ++ [choice]) rest
  end.
Fixpoint check_names (names : list string) : result string unit :=
  match names with
  | [] => Ok tt
  | name :: names =>
      _ ← reject (negb (existsb (fun '(have, _) => bool_decide (have = name)) surface_plan)) "profile: unknown surface field";
      check_names names
  end.
Definition profile_validate (p : IngestProfile) : result string unit :=
  _ ← reject (negb (bool_decide (level_step_hpa p ∈ LEVEL_STEPS_HPA))) "profile: level step is not supported";
  _ ← check_volumes [] (volumes p);
  _ ← match surface_fields p with
      | Named names =>
          _ ← reject (bool_decide (names = [])) "profile: the named surface field set is empty";
          check_names names
      | AllFields => Ok tt
      end;
  _ ← reject ((derived p || heavy p) && negb (includes_full_2d p)) "profile: the derived/heavy stages need the full 2D surface set";
  reject (heavy p && negb (derived p)) "profile: the heavy stage builds on the derived stage".

(** *** Overrides *)

Record ProfileOverrides := { ov_level_step_hpa : option Z; no_derived : bool; ov_heavy : option bool }.

Definition apply_profile_overrides (p : IngestProfile) (ov : ProfileOverrides) : result string IngestProfile :=
  step ← match ov_level_step_hpa ov with
         | Some step => _ ← reject (negb (bool_decide (step ∈ LEVEL_STEPS_HPA))) "--level-step: not supported"; Ok step
         | None => Ok (level_step_hpa p)
         end;
  let p := {| volumes := volumes p; level_step_hpa := step; surface_fields := surface_fields p;
              derived := if no_derived ov then false else derived p;
              heavy := default (heavy p) (ov_heavy ov) |} in
  _ ← profile_validate p;
  Ok p.

Definition resolve_profile (name : string) (ov : ProfileOverrides) : result string IngestProfile :=
  p ← preset name; apply_profile_overrides p ov.

Definition resolve_profile_for_model (name : string) (ov : ProfileOverrides) (model : ModelId) : result string IngestProfile :=
  p ← (if bool_decide (name = "surface") then Ok (surface_for_model model)
       else if bool_decide (name = "sounding") then Ok (sounding_for_model model)
       else preset name);
  apply_profile_overrides p ov.

(** ** What validation accepts *)

Definition known_field (name : string) : Prop := name ∈ fst <$> surface_plan.

Record profile_wf (p : IngestProfile) : Prop := {
  wf_step : level_step_hpa p = 25 \/ level_step_hpa p = 50;
  wf_volumes : NoDup (volumes p);
  wf_names : forall names, surface_fields p = Named names -> names <> [] /\ Forall known_field names;
  wf_stages : derived p = true -> surface_fields p = AllFields;
  wf_heavy : heavy p = true -> derived p = true
}.

Lemma check_volumes_ok before rest :
  check_volumes before rest = Ok tt <-> NoDup rest /\ forall c, c ∈ rest -> c ∉ before.
Proof.
  revert before. induction rest as [|c rest IH]; intros before; simpl.
  { split; [|done]. intros _. split; [constructor|]. intros c Hc. by apply not_elem_of_nil in Hc. }
  unfold reject. case_bool_decide as H; simpl.
  { split; [done|]. intros [_ Hn]. by specialize (Hn c ltac:(left)). }
  rewrite IH, list.NoDup_cons. split.
  - intros [Hn Hb]. split_and!; [|done|].
    + intros Hc. apply (Hb c Hc), elem_of_app. right. by apply list_elem_of_singleton.
    + intros c' [->|Hc]%elem_of_cons; [done|]. intros Hin. apply (Hb c' Hc), elem_of_app. by left.
  - intros [[Hc Hn] Hb]. split; [done|]. intros c' Hc' [Hin|Hin]%elem_of_app; [by apply (Hb c'); [right|]|].
    apply list_elem_of_singleton in Hin as ->. done.
Qed.

Lemma check_names_ok names : check_names names = Ok tt <-> Forall known_field names.
Proof.
  induction names as [|name names IH]; cbn [check_names]; [by rewrite list.Forall_nil|].
  rewrite list.Forall_cons, <- IH. unfold reject.
  assert (existsb (fun '(have, _) => bool_decide (have = name)) surface_plan = true <-> known_field name) as Hk.
  { unfold known_field. rewrite list_elem_of_fmap, existsb_exists. split.
    - intros ([have s] & Hin & ->%bool_decide_eq_true). exists (name, s). split; [done|]. by apply list_elem_of_In.
    - intros ([have s] & -> & Hin). exists (have, s). rewrite <- list_elem_of_In. split; [done|]. by apply bool_decide_eq_true. }
  rewrite <- Hk. destruct (existsb _ surface_plan); cbn [negb mbind result_bind]; (split; [|intros [H1 H2]; done]); done.
Qed.

(** [IngestProfile::validate] accepts exactly the well-formed profiles. *)
Lemma profile_validate_iff p : profile_validate p = Ok tt <-> profile_wf p.
Proof.
  unfold profile_validate, reject at 1.
  destruct (bool_decide (level_step_hpa p ∈ LEVEL_STEPS_HPA)) eqn:Es; simpl.
  2: { split; [done|]. intros [[H|H] _ _ _ _]; rewrite H in Es; done. }
  apply bool_decide_eq_true in Es.
  assert (level_step_hpa p = 25 \/ level_step_hpa p = 50) as Hs.
  { apply elem_of_cons in Es as [->|Es]; [by left|]. apply list_elem_of_singleton in Es as ->. by right. }
  destruct (check_volumes [] (volumes p)) as [[]|e|] eqn:Ev; simpl.
  2, 3: split; [done|]; intros Hwf; assert (check_volumes [] (volumes p) = Ok tt) as Hok
    by (apply check_volumes_ok; split; [apply Hwf|]; intros c _ Hc; by apply not_elem_of_nil in Hc); congruence.
  apply check_volumes_ok in Ev as [Ev _].
  destruct (surface_fields p) as [|names] eqn:Ef; simpl.
  { unfold includes_full_2d, reject. rewrite Ef, andb_false_r. simpl. destruct (heavy p) eqn:Eh, (derived p) eqn:Ed; simpl.
    all: split; try done; intros H.
    2: by pose proof (wf_heavy p H Eh); congruence.
    all: constructor; rewrite ?Ef, ?Eh, ?Ed; done. }
  unfold reject at 1. case_bool_decide as En; simpl.
  { split; [done|]. intros Hwf. by destruct (wf_names p Hwf names Ef) as [? _]. }
  destruct (check_names names) as [[]|e|] eqn:Ek; simpl.
  2, 3: split; [done|]; intros Hwf; pose proof (proj2 (wf_names p Hwf names Ef)) as Hk%check_names_ok; congruence.
  apply check_names_ok in Ek. unfold includes_full_2d, reject. rewrite Ef, andb_true_r.
  destruct (derived p) eqn:Ed, (heavy p) eqn:Eh; simpl; split; try done; intros H.
  1, 2: by pose proof (wf_stages p H Ed); congruence.
  { by pose proof (wf_heavy p H Eh); congruence. }
  constructor; rewrite ?Ed, ?Eh, ?Ef; try done. intros names' [= <-]. done.
Qed.

Lemma apply_overrides_ok p ov q :
  apply_profile_overrides p ov = Ok q ->
  profile_wf q /\ surface_fields q = surface_fields p /\ volumes q = volumes p
  /\ level_step_hpa q = default (level_step_hpa p) (ov_level_step_hpa ov)
  /\ derived q = negb (no_derived ov) && derived p /\ heavy q = default (heavy p) (ov_heavy ov).
Proof.
  unfold apply_profile_overrides, reject. intros H.
  destruct (ov_level_step_hpa ov) as [step|]; [destruct (negb _); [done|]|]; simpl in H.
  all: match type of H with context [profile_validate ?q] => destruct (profile_validate q) as [[]| |] eqn:E; [|done..] end.
  all: simpl in H; injection H as <-; apply profile_validate_iff in E; split_and!; try done; by destruct (no_derived ov).
Qed.

Lemma candidate_levels_wf p :
  profile_wf p ->
  candidate_levels p = Ok (hours_by (level_step_hpa p) 100 1000)
  /\ length (hours_by (level_step_hpa p) 100 1000) = (if (level_step_hpa p =? 25)%Z then 37 else 19)%nat.
Proof. intros [Hs _ _ _ _]. unfold candidate_levels. destruct Hs as [-> | ->]; split; reflexivity. Qed.

Lemma surface_for_model_valid model : profile_validate (surface_for_model model) = Ok tt.
Proof. destruct model; vm_compute; reflexivity. Qed.

Lemma sounding_for_model_valid model : profile_validate (sounding_for_model model) = Ok tt.
Proof. destruct model; vm_compute; reflexivity. Qed.

Lemma preset_valid name p : preset name = Ok p -> profile_validate p = Ok tt.
Proof.
  unfold preset. intros H.
  do 6 (destruct (bool_decide _); [injection H as <-; vm_compute; reflexivity|]). discriminate H.
Qed.

Lemma presets_wf model name p :
  (if bool_decide (name = "surface") then Ok (surface_for_model model)
   else if bool_decide (name = "sounding") then Ok (sounding_for_model model) else preset name) = Ok p -> profile_wf p.
Proof.
  intros H. apply profile_validate_iff.
  destruct (bool_decide _); [injection H as <-; apply surface_for_model_valid|].
  destruct (bool_decide _); [injection H as <-; apply sounding_for_model_valid|]. by apply preset_valid in H.
Qed.

(** Profiles are well-formed by construction: every built-in preset
    validates for every model, and whatever a preset with overrides resolves
    to has a supported level step, distinct volumes, known and nonempty
    surface fields, compute stages only with the full surface set, the
    overrides applied, and 37 or 19 candidate levels. *)
Theorem resolved_profiles_wellformed name ov model p :
  resolve_profile_for_model name ov model = Ok p ->
  profile_wf p
  /\ (forall step, ov_level_step_hpa ov = Some step -> level_step_hpa p = step)
  /\ (no_derived ov = true -> derived p = false) /\ (forall h, ov_heavy ov = Some h -> heavy p = h)
  /\ (exists levels, candidate_levels p = Ok levels /\ length levels = (if (level_step_hpa p =? 25)%Z then 37 else 19)%nat)
  /\ (exists q, resolve_profile_for_model name {| ov_level_step_hpa := None; no_derived := false; ov_heavy := None |} model = Ok q
        /\ surface_fields p = surface_fields q /\ volumes p = volumes q).
Proof.
  unfold resolve_profile_for_model. intros H.
  destruct (if bool_decide (name = "surface") then _ else _) as [p0| |] eqn:E0; [|done..]. cbn [mbind result_bind] in *.
  apply presets_wf in E0. apply apply_overrides_ok in H as (Hwf & Hf & Hv & Hs & Hd & Hh). split_and!; try done.
  - intros step Es. by rewrite Hs, Es.
  - intros Ed. by rewrite Hd, Ed.
  - intros h Eh. by rewrite Hh, Eh.
  - destruct (candidate_levels_wf p Hwf) as [Hc Hl]. eauto.
  - unfold apply_profile_overrides. simpl. exists p0. destruct p0 as [vs st sf dv hv]. simpl in *.
    apply profile_validate_iff in E0. rewrite E0. done.
Qed.

Theorem resolved_profiles_wellformed_witness :
  exists p, resolve_profile_for_model "view_profiles" {| ov_level_step_hpa := Some 50; no_derived := false; ov_heavy := None |} Hrrr = Ok p
    /\ profile_wf p /\ level_step_hpa p = 50.
Proof.
  eexists. split; [vm_compute; reflexivity|]. split; [|reflexivity].
  eapply (resolved_profiles_wellformed "view_profiles" {| ov_level_step_hpa := Some 50; no_derived := false; ov_heavy := None |} Hrrr).
  vm_compute. reflexivity.
Defined.
