(* ===== verification/Capability.v ===== *)
(** * Ingest capabilities

    [crates/rw-ingest/src/lib.rs]: which product files one hour of a model
    downloads ([fetch_plan] with its index patterns), the typed limitations of
    each model ([model_ingest_capability]), and the check of a profile against
    a model's plan ([validate_ingest_profile_for_model]). *)
From Stdlib Require Import ZArith Lia Ascii String.
From stdpp Require Import base list strings numbers.
From S2P Require Import Prelude Format Text Ids Cycle Models Profile.

Local Open Scope Z_scope.

Record ProductFetch := {
  product : string;
  surface_source : bool;
  pressure_source : bool;
  idx_patterns : list string
}.

Inductive IngestSupportStatus := Ready | Unsupported.
Inductive IngestVerificationLevel := LiveVerified | FixtureVerified | ImplementedUnverified | UnsupportedLevel.
Inductive IngestCapabilityLimitation :=
  | AnalysisOnly | SurfaceOnly | EnsembleMeanOnly | ProviderStatisticsOnly | EnsembleControlMemberOnly
  | SparsePressureLevels | TwoDimensionalStatisticsOnly | DerivedProductsDisabled | ConusOnly
  | PreOperationalFeed | ShortSourceRetention | ExtendedRangeNotScheduled.

#[global] Instance IngestSupportStatus_eq_dec : EqDecision IngestSupportStatus.
Proof. solve_decision. Defined.
#[global] Instance IngestCapabilityLimitation_eq_dec : EqDecision IngestCapabilityLimitation.
Proof. solve_decision. Defined.

Record ModelIngestCapability := {
  cap_model : ModelId;
  status : IngestSupportStatus;
  verification : IngestVerificationLevel;
  products : list ProductFetch;
  limitations : list IngestCapabilityLimitation
}.

Definition limitation_as_str (l : IngestCapabilityLimitation) : string :=
  match l with
  | AnalysisOnly => "analysis_only"
  | SurfaceOnly => "surface_only"
  | EnsembleMeanOnly => "ensemble_mean_only"
  | ProviderStatisticsOnly => "provider_statistics_only"
  | EnsembleControlMemberOnly => "ensemble_control_member_only"
  | SparsePressureLevels => "sparse_pressure_levels"
  | TwoDimensionalStatisticsOnly => "two_dimensional_statistics_only"
  | DerivedProductsDisabled => "derived_products_disabled"
  | ConusOnly => "conus_only"
  | PreOperationalFeed => "pre_operational_feed"
  | ShortSourceRetention => "short_source_retention"
  | ExtendedRangeNotScheduled => "extended_range_not_scheduled"
  end.

(** ** Index patterns *)

(** [rustwx_io::IDX_DETERMINISTIC_ONLY]. *)
Definition IDX_DETERMINISTIC_ONLY : string := "!deterministic".
Definition GEFS_CONTROL_IDX_PATTERNS : list string :=
  ["HGT"; "TMP"; "RH"; "UGRD"; "VGRD"; "PRES"; "PRMSL"; "APCP"; "PWAT"; "TCDC"; "CRAIN"; "CSNOW"; "CICEP";
   "CFRZR"].
Definition CPTEC_WRF_7KM_IDX_PATTERNS : list string :=
  ["HGT"; "TMP"; "RH"; "UGRD"; "VGRD"; "DPT:2 m above ground"; "PRES:surface"; "PRMSL:mean sea level";
   "MSLET:mean sea level"; "APCP:surface"; "PWAT:entire atmosphere"; "TCDC:entire atmosphere"; "LCDC"; "MCDC";
   "HCDC"; "REFC"; "GUST:surface"; "VIS:surface"].
Definition CPTEC_BRAMS_8KM_IDX_PATTERNS : list string :=
  ["HGT"; "TMP"; "RH"; "UGRD"; "VGRD"; "DPT:2 m above ground"; "PRES:surface"; "PRMSL:mean sea level";
   "APCP:surface"].
Definition CPTEC_ETA_8KM_IDX_PATTERNS : list string :=
  ["HGT:mb"; "TMP:mb"; "RH:mb"; "UGRD:mb"; "VGRD:mb"; "TMP:2 m above ground"; "DPT:2 m above ground";
   "RH:2 m above ground"; "UGRD:10 m above ground"; "VGRD:10 m above ground"; "PRES:surface";
   "PRMSL:mean sea level"; "APCP:surface"].
Definition NOAA_AI_PRESSURE_IDX_PATTERNS : list string :=
  ["HGT"; "TMP"; "SPFH"; "UGRD"; "VGRD"].
Definition NOAA_AI_SURFACE_IDX_PATTERNS : list string :=
  ["TMP:2 m above ground"; "UGRD:10 m above ground"; "VGRD:10 m above ground"; "PRMSL:mean sea level";
   "APCP:surface"].
Definition IFS_OPER_IDX_PATTERNS : list string :=
  ["param=2t"; "param=2d"; "param=10u"; "param=10v"; "param=10fg"; "param=msl"; "param=sp"; "param=tp";
   "param=tcc"; "param=tcwv"; "param=t"; "param=q"; "param=u"; "param=v"; "param=gh"].
Definition AIFS_OPER_IDX_PATTERNS : list string :=
  ["param=2t"; "param=2d"; "param=10u"; "param=10v"; "param=msl"; "param=sp"; "param=tp"; "param=tcc";
   "param=lcc"; "param=mcc"; "param=hcc"; "param=t"; "param=q"; "param=u"; "param=v"; "param=gh"].
Definition SURFACE_ANALYSIS_IDX_PATTERNS : list string :=
  ["HGT:surface"; "PRES:surface"; "TMP:2 m above ground"; "DPT:2 m above ground"; "UGRD:10 m above ground";
   "VGRD:10 m above ground"; "GUST:10 m above ground"; "VIS:surface"; "TCDC:entire atmosphere"].
Definition HIRESW_CONUS_IDX_PATTERNS : list string :=
  ["MSLET"; "RH:2 m above ground"; "PWAT:entire atmosphere"; "APCP:surface"; "REFD:1000 m above ground";
   "MXUPHL:5000-2000 m above ground"; "TCDC:entire atmosphere"; "TMP:2 m above ground";
   "DPT:2 m above ground"; "UGRD:10 m above ground"; "VGRD:10 m above ground"; "PRES:surface"; "HGT:surface";
   "GUST:surface"; "CRAIN:surface"; "REFC:entire atmosphere"; "VIS:surface"].
Definition HREF_MEAN_IDX_PATTERNS : list string :=
  ["MSLET"; "HGT"; "UGRD"; "VGRD"; "TMP"; "DPT"; "RH"; "PWAT"; "VIS"; "LCDC"; "MCDC"; "HCDC"; "TCDC"; "APCP";
   "CRAIN"; "CFRZR"; "CICEP"; "CSNOW"].
Definition SREF_MEAN_IDX_PATTERNS : list string :=
  ["PRMSL"; "HGT"; "UGRD"; "VGRD"; "ABSV"; "TMP"; "DPT"; "RH"; "CAPE"; "CIN"; "PWAT"; "VIS"; "APCP"; "CRAIN";
   "CFRZR"; "CICEP"; "CSNOW"].
Definition REFS_MEAN_IDX_PATTERNS : list string :=
  ["MSLET"; "HGT"; "UGRD"; "VGRD"; "TMP"; "DPT"; "RH"; "PWAT"; "VIS"; "LCDC"; "MCDC"; "HCDC"; "TCDC"; "APCP";
   "CRAIN"; "CFRZR"; "CICEP"; "CSNOW"].
Definition NBM_CORE_IDX_PATTERNS : list string :=
  [IDX_DETERMINISTIC_ONLY; "TMP:2 m above ground"; "DPT:2 m above ground"; "RH:2 m above ground";
   "GUST:10 m above ground"; "WIND:10 m above ground"; "WDIR:10 m above ground"; "APCP:surface";
   "PWAT:entire atmosphere"; "VIS:surface"].
Definition RRFS_PRS_IDX_PATTERNS : list string :=
  ["TMP"; "RH"; "DPT"; "UGRD"; "VGRD"; "HGT"; "ABSV"].
Definition RRFS_NAT_IDX_PATTERNS : list string :=
  ["TMP:2 m above ground"; "DPT:2 m above ground"; "RH:2 m above ground"; "SPFH:2 m above ground";
   "UGRD:10 m above ground"; "VGRD:10 m above ground"; "REFC"; "MSLET"; "PRES:surface"; "HGT:surface";
   "GUST:surface"; "PWAT"; "APCP:surface"; "CRAIN"; "CSNOW"; "CICEP"; "CFRZR"; "VIS:surface";
   "MXUPHL:5000-2000 m above ground"; "MXUPHL:3000-0 m above ground"; "WIND:10 m above ground";
   "MAXUW:10 m above ground"; "MAXVW:10 m above ground"; "CAPE"; "TCDC:entire atmosphere"; "LCDC"; "MCDC";
   "HCDC"].

(** ** Fetch plans *)

(** One downloaded product: its surface and pressure roles. *)
Definition fetch (product : string) (surface_source pressure_source : bool) (idx_patterns : list string) : ProductFetch :=
  {| product := product; surface_source := surface_source; pressure_source := pressure_source; idx_patterns := idx_patterns |}.

(** [fetch_plan]; [None] is its error. *)
Definition fetch_plan (model : ModelId) : option (list ProductFetch) :=
  match model with
  | Hrrr | HrrrAk => Some [fetch "prs" false true [];
      fetch "sfc" true false []]
  | Gfs | Gdas => Some [fetch "pgrb2.0p25" true true []]
  | AromeFrance001 => Some [fetch "rws-arome-surface" true false []]
  | AromeFrance0025 => Some [fetch "rws-arome-pressure" false true [];
      fetch "rws-arome-surface" true false []]
  | Gdps | GdpsGeml | Rdps | Hrdps | HrdpsWest => Some [fetch "rws-pressure" false true [];
      fetch "rws-surface" true false []]
  | CmaGeps => Some [fetch "stats" true false []]
  | Geps => Some [fetch "rws-published-statistics" true false []]
  | Reps => Some [fetch "rws-reps-provider-statistics" true false []]
  | IconEu | IconD2 => Some [fetch "rws-pressure" false true [];
      fetch "rws-surface" true false []]
  | IconRu => Some [fetch "rws-pressure" false true [];
      fetch "rws-surface" true false []]
  | WrfCptec7km => Some [fetch "raw" true true CPTEC_WRF_7KM_IDX_PATTERNS]
  | BramsCptec8km => Some [fetch "raw" true true CPTEC_BRAMS_8KM_IDX_PATTERNS]
  | EtaCptec8km => Some [fetch "raw" true true CPTEC_ETA_8KM_IDX_PATTERNS]
  | Gefs => Some [fetch "pgrb2ap5/gec00" true true GEFS_CONTROL_IDX_PATTERNS]
  | Aigfs => Some [fetch "pres" false true NOAA_AI_PRESSURE_IDX_PATTERNS;
      fetch "sfc" true false NOAA_AI_SURFACE_IDX_PATTERNS]
  | Aigefs => Some [fetch "pres/avg" false true NOAA_AI_PRESSURE_IDX_PATTERNS;
      fetch "sfc/avg" true false NOAA_AI_SURFACE_IDX_PATTERNS]
  | Hgefs => Some [fetch "pres/avg" false true NOAA_AI_PRESSURE_IDX_PATTERNS;
      fetch "sfc/avg" true false NOAA_AI_SURFACE_IDX_PATTERNS]
  | EcmwfOpenData => Some [fetch "oper" true true IFS_OPER_IDX_PATTERNS]
  | Aifs => Some [fetch "oper" true true AIFS_OPER_IDX_PATTERNS]
  | Rap => Some [fetch "awp130pgrb" true true []]
  | Hiresw => Some [fetch "arw_2p5km/conus" true false HIRESW_CONUS_IDX_PATTERNS]
  | Href => Some [fetch "ensprod/conus/mean" true true HREF_MEAN_IDX_PATTERNS]
  | Sref => Some [fetch "ensprod/pgrb212/mean_3hrly" true true SREF_MEAN_IDX_PATTERNS]
  | Refs => Some [fetch "mean-conus" true true REFS_MEAN_IDX_PATTERNS]
  | Rtma | Urma => Some [fetch "2dvaranl_ndfd" true false SURFACE_ANALYSIS_IDX_PATTERNS]
  | Nbm => Some [fetch "core/co" true false NBM_CORE_IDX_PATTERNS]
  | Nam => Some [fetch "awip3d" true true []]
  | RrfsA => Some [fetch "prs-na" false true RRFS_PRS_IDX_PATTERNS;
      fetch "nat-na" true false RRFS_NAT_IDX_PATTERNS]
  | RrfsPublic => Some [fetch "prs-conus" false true RRFS_PRS_IDX_PATTERNS;
      fetch "2dfld-conus" true false RRFS_NAT_IDX_PATTERNS]
  | _ => None
  end.

(** ** Limitations *)

Definition model_limitations (model : ModelId) : list IngestCapabilityLimitation :=
  match model with
  | Rtma | Urma => [AnalysisOnly; SurfaceOnly]
  | Hiresw => [SurfaceOnly; ConusOnly]
  | Nbm => [SurfaceOnly; ConusOnly]
  | Gefs => [EnsembleControlMemberOnly; SparsePressureLevels; DerivedProductsDisabled]
  | Aigfs | EcmwfOpenData => [SparsePressureLevels; DerivedProductsDisabled]
  | Aigefs | Hgefs => [EnsembleMeanOnly; SparsePressureLevels; DerivedProductsDisabled]
  | Href | Sref => [EnsembleMeanOnly; SparsePressureLevels; DerivedProductsDisabled; ConusOnly]
  | Refs => [EnsembleMeanOnly; SparsePressureLevels; DerivedProductsDisabled; ConusOnly; PreOperationalFeed]
  | RrfsPublic => [ConusOnly; PreOperationalFeed]
  | Aifs => [SparsePressureLevels; DerivedProductsDisabled]
  | Gdps => [SparsePressureLevels]
  | GdpsGeml => [SparsePressureLevels; DerivedProductsDisabled; PreOperationalFeed]
  | CmaGeps => [ProviderStatisticsOnly; SparsePressureLevels; DerivedProductsDisabled]
  | Reps => [ProviderStatisticsOnly; SurfaceOnly; DerivedProductsDisabled]
  | Rdps | Hrdps => [SparsePressureLevels; DerivedProductsDisabled]
  | HrdpsWest => [SparsePressureLevels; DerivedProductsDisabled; PreOperationalFeed; ShortSourceRetention]
  | IconEu | IconD2 | IconRu => [SparsePressureLevels; DerivedProductsDisabled]
  | Geps => [ProviderStatisticsOnly; SparsePressureLevels; TwoDimensionalStatisticsOnly; DerivedProductsDisabled; ExtendedRangeNotScheduled]
  | WrfCptec7km | BramsCptec8km | EtaCptec8km => [SparsePressureLevels; DerivedProductsDisabled]
  | AromeFrance001 => [SurfaceOnly; DerivedProductsDisabled; ShortSourceRetention]
  | AromeFrance0025 => [SparsePressureLevels; DerivedProductsDisabled; ShortSourceRetention]
  | _ => []
  end.

Definition verification_level (model : ModelId) : IngestVerificationLevel :=
  match model with
  | Hrrr | Gfs | Gdps | GdpsGeml | CmaGeps | Rdps | Hrdps | Reps | IconRu | Geps | Rap | Nam | RrfsA | Gefs
  | Aigfs | Aigefs | Hgefs | EcmwfOpenData | IconEu | IconD2 | WrfCptec7km | BramsCptec8km | AromeFrance001
  | AromeFrance0025 => LiveVerified
  | EtaCptec8km | HrdpsWest | HrrrAk | Gdas | Nbm | Rtma | Urma | Hiresw | Href | Sref | Refs | RrfsPublic
  | Aifs => FixtureVerified
  | _ => ImplementedUnverified
  end.

Definition model_ingest_capability (model : ModelId) : ModelIngestCapability :=
  match fetch_plan model with
  | Some products =>
      {| cap_model := model; status := Ready; verification := verification_level model; products := products;
         limitations := model_limitations model |}
  | None =>
      {| cap_model := model; status := Unsupported; verification := UnsupportedLevel; products := [];
         limitations := model_limitations model |}
  end.

Definition ingest_supported (model : ModelId) : bool := match fetch_plan model with Some _ => true | None => false end.

(** [model_source_ingest_supported]; [model_summary] has every model. *)
Definition model_source_ingest_supported (model : ModelId) (source : SourceId) : bool :=
  ingest_supported model
  && match summary_of model with
     | Some summary => existsb (fun candidate => bool_decide (sd_id candidate = source)) (sources summary)
     | None => false
     end
  && (negb (bool_decide (model = Aifs)) || bool_decide (source = SrcEcmwf)).

Definition has_limitation (l : IngestCapabilityLimitation) (ls : list IngestCapabilityLimitation) : bool := bool_decide (l ∈ ls).

(** [validate_ingest_profile_for_model]; the error is its message. *)
Definition validate_ingest_profile_for_model (model : ModelId) (profile : IngestProfile) : result string unit :=
  let stages := derived profile || heavy profile in
  _ ← profile_validate profile;
  _ ← reject (has_limitation ProviderStatisticsOnly (limitations (model_ingest_capability model))
              && negb (bool_decide (profile = surface_for_model model)))
        "model exposes only its exact typed provider-statistics inventory";
  plan ← ok_or (fetch_plan model) "model has no ingest fetch plan (not ingest-supported)";
  _ ← reject (negb (existsb surface_source plan)) "model has no surface-source product in its ingest plan";
  _ ← reject (needs_prs profile && negb (existsb pressure_source plan)) "model is surface-only";
  _ ← reject (bool_decide (model ∈ [Aigefs; Hgefs; Href; Sref; Refs]) && stages) "model ingests a post-processed ensemble mean";
  _ ← reject (bool_decide (model ∈ [GdpsGeml; IconEu; IconD2]) && stages) "derived/heavy diagnostics remain disabled";
  _ ← reject (bool_decide (model ∈ [WrfCptec7km; BramsCptec8km; EtaCptec8km]) && stages) "derived/heavy diagnostics remain disabled";
  _ ← reject (bool_decide (model ∈ [Gefs; Aigfs; EcmwfOpenData; Aifs; IconRu]) && stages) "no native surface orography in each forecast file";
  _ ← reject (bool_decide (model ∈ [Rdps; Hrdps; HrdpsWest]) && stages) "winds relative to its rotated grid";
  reject (bool_decide (model ∈ [AromeFrance001; AromeFrance0025]) && stages) "bounded direct-field contract".
