(* ===== verification/Plan.v ===== *)
(** * Job plans

    [crates/rw-scheduler/src/plan.rs]: the durable plan of one model run (its
    identifiers, the valid times it must produce, the products it downloads
    and the profile it stores), how a plan is built from the registries, and
    the validation a persisted plan passes before it is used again. *)
From Stdlib Require Import ZArith Lia Ascii String.
From stdpp Require Import base list strings numbers sorting.
From S2P Require Import Prelude Format Text Ids Cycle Models Profile Capability.

Local Open Scope Z_scope.

Definition JOB_PLAN_SCHEMA : string := "rw-scheduler.job-plan.v1".

Record IngestProductPlan := {
  ip_product : string;
  ip_surface_source : bool;
  ip_pressure_source : bool;
  ip_idx_patterns : list string
}.

Record PersistedIngestProfile := {
  pp_volumes : list string;
  pp_level_step_hpa : Z;
  pp_surface_fields : option (list string);
  pp_derived : bool;
  pp_heavy : bool
}.

Record ExpectedValidTime := {
  ev_storage_slot : Z;
  ev_forecast_hour : Z;
  ev_lead_seconds : Z;
  ev_valid_unix : Z
}.

Record JobPlan := {
  jp_schema : string;
  job_id : string;
  jp_model : ModelId;
  jp_cycle : CycleSpec;
  run_id : string;
  expected_valid_times : list ExpectedValidTime;
  ingest_products : list IngestProductPlan;
  capability_limitations : list string;
  ingest_profile : PersistedIngestProfile;
  source_override : option SourceId
}.

(** ** The persisted profile *)

Definition from_profile (profile : IngestProfile) : SchedulerResult PersistedIngestProfile :=
  _ ← map_err InvalidPlan (profile_validate profile);
  Ok {| pp_volumes := store_name <$> volumes profile;
        pp_level_step_hpa := level_step_hpa profile;
        pp_surface_fields := match surface_fields profile with AllFields => None | Named names => Some names end;
        pp_derived := derived profile;
        pp_heavy := heavy profile |}.

Definition volume_of_name (name : string) : SchedulerResult VolumeChoice :=
  if bool_decide (name = "temperature_iso") then Ok Temperature
  else if bool_decide (name = "dewpoint_iso") then Ok Dewpoint
  else if bool_decide (name = "u_iso") then Ok UWind
  else if bool_decide (name = "v_iso") then Ok VWind
  else if bool_decide (name = "height_iso") then Ok GeopotentialHeight
  else Err (InvalidPlan "unknown persisted volume").

Definition to_profile (pp : PersistedIngestProfile) : SchedulerResult IngestProfile :=
  volumes ← rmap volume_of_name (pp_volumes pp);
  let profile := {| volumes := volumes;
                    level_step_hpa := pp_level_step_hpa pp;
                    surface_fields := match pp_surface_fields pp with Some names => Named names | None => AllFields end;
                    derived := pp_derived pp;
                    heavy := pp_heavy pp |} in
  _ ← map_err InvalidPlan (profile_validate profile);
  Ok profile.

(** ** Checks of a model *)

Definition KNOWN_LIMITATION_SLUGS : list string :=
  ["analysis_only"; "surface_only"; "ensemble_mean_only"; "provider_statistics_only"; "ensemble_control_member_only";
   "sparse_pressure_levels"; "two_dimensional_statistics_only"; "derived_products_disabled"; "conus_only";
   "pre_operational_feed"; "short_source_retention"; "extended_range_not_scheduled"].

Definition limitation_slug (limitation : IngestCapabilityLimitation) : string :=
  match limitation with
  | AnalysisOnly => "analysis_only"
  | SurfaceOnly => "surface_only"
  | EnsembleMeanOnly => "ensemble_mean_only"
  | ProviderStatisticsOnly => "provider_statistics_only"
  | EnsembleControlMemberOnly => "ensemble_control_member_only"
  | SparsePressureLevels => "sparse_pressure_levels"
  | TwoDimensionalStatisticsOnly => "two_dimensional_statistics_only"
  | DerivedProductsDisabled => "derived_products_disabled"
  | ConusOnly => "conus_only"
  | PreOperationalFeed => "pre_operational_feed"
  | ShortSourceRetention => "short_source_retention"
  | ExtendedRangeNotScheduled => "extended_range_not_scheduled"
  end.

Definition validate_model_cycle (model : ModelId) (cycle : CycleSpec) : SchedulerResult unit :=
  summary ← model_summary model;
  reject (negb (is_in (hour_utc cycle) (cycle_hours_utc summary))) (UnsupportedCycle model (hour_utc cycle)).

Definition validate_source_for_model (model : ModelId) (source : option SourceId) : SchedulerResult unit :=
  match source with
  | Some source => reject (negb (model_source_ingest_supported model source)) (InvalidPlan "source is not supported by remote ingest")
  | None => Ok tt
  end.

Definition validate_profile_for_capability (model : ModelId) (profile : IngestProfile)
    (limitations : list IngestCapabilityLimitation) : SchedulerResult unit :=
  _ ← map_err InvalidPlan (profile_validate profile);
  let has_pressure := existsb pressure_source (products (model_ingest_capability model)) in
  _ ← reject (needs_prs profile && negb has_pressure) (InvalidPlan "model is surface-only");
  _ ← reject (has_limitation TwoDimensionalStatisticsOnly limitations && negb (bool_decide (profile = profile_surface)))
        (InvalidPlan "model requires the complete surface profile");
  _ ← reject (has_limitation ProviderStatisticsOnly limitations && negb (bool_decide (profile = surface_for_model model)))
        (InvalidPlan "model requires its complete typed provider-statistics profile");
  reject (has_limitation DerivedProductsDisabled limitations && (derived profile || heavy profile))
    (InvalidPlan "model forbids derived/heavy diagnostics").

(** ** Building a plan *)

(** [u16::try_from(usize)]. *)
Definition u16_try_from (n : nat) : option Z := if Z.of_nat n <? u16_limit then Some (Z.of_nat n) else None.

(** The lead and valid time of a forecast hour; [err] is the error variant of
    the caller. *)
Definition valid_time_of (err : string -> SchedulerError) (origin_unix forecast_hour : Z) : SchedulerResult (Z * Z) :=
  lead_seconds ← ok_or (checked_mul64 forecast_hour 3600) (err "forecast lead overflow");
  lead ← ok_or (i64_try_from lead_seconds) (err "forecast lead exceeds timestamp range");
  valid_unix ← ok_or (checked_add_i64 origin_unix lead) (err "valid timestamp overflow");
  Ok (lead_seconds, valid_unix).

Definition expected_time (origin_unix : Z) (entry : nat * Z) : SchedulerResult ExpectedValidTime :=
  let '(slot, forecast_hour) := entry in
  storage_slot ← ok_or (u16_try_from slot) (InvalidPlan "model has more schedulable files than slots");
  '(lead_seconds, valid_unix) ← valid_time_of InvalidPlan origin_unix forecast_hour;
  Ok {| ev_storage_slot := storage_slot; ev_forecast_hour := forecast_hour; ev_lead_seconds := lead_seconds; ev_valid_unix := valid_unix |}.

(** [JobPlan::build_with_profile_and_source]. *)
Definition build_with_profile_and_source (model : ModelId) (cycle : CycleSpec) (profile : IngestProfile)
    (source_override : option SourceId) : SchedulerResult JobPlan :=
  cycle ← revalidate_cycle cycle;
  _ ← validate_model_cycle model cycle;
  _ ← validate_source_for_model model source_override;
  let capability := model_ingest_capability model in
  _ ← reject (negb (bool_decide (status capability = Ready)) || bool_decide (products capability = [])) (UnsupportedModel model);
  _ ← validate_profile_for_capability model profile (limitations capability);
  ingest_profile ← from_profile profile;
  let capability_limitations := limitation_slug <$> limitations capability in
  origin_unix ← cycle_origin_unix cycle;
  let forecast_hours := supported_forecast_hours model (hour_utc cycle) in
  _ ← reject (bool_decide (forecast_hours = [])) (InvalidPlan "model cycle has no expected forecast times");
  expected_valid_times ← rmap (expected_time origin_unix) (imap pair forecast_hours);
  let run_id := canonical_run_id cycle in
  let job_id := canonical_job_id model cycle in
  _ ← map_err Store (validate_store_component run_id);
  _ ← map_err Store (validate_store_component job_id);
  let ingest_products :=
    (fun p => {| ip_product := product p; ip_surface_source := surface_source p;
                 ip_pressure_source := pressure_source p; ip_idx_patterns := idx_patterns p |}) <$> products capability in
  Ok {| jp_schema := JOB_PLAN_SCHEMA; job_id := job_id; jp_model := model; jp_cycle := cycle; run_id := run_id;
        expected_valid_times := expected_valid_times; ingest_products := ingest_products;
        capability_limitations := capability_limitations; ingest_profile := ingest_profile;
        source_override := source_override |}.

Definition build_with_profile (model : ModelId) (cycle : CycleSpec) (profile : IngestProfile) : SchedulerResult JobPlan :=
  build_with_profile_and_source model cycle profile None.

(** The profile [JobPlan::build] chooses for a model. *)
Definition default_profile (model : ModelId) : IngestProfile :=
  let ls := limitations (model_ingest_capability model) in
  if bool_decide (model = GdpsGeml) then profile_sounding
  else if has_limitation AnalysisOnly ls then profile_analysis
  else if has_limitation ProviderStatisticsOnly ls then surface_for_model model
  else if has_limitation SurfaceOnly ls || has_limitation TwoDimensionalStatisticsOnly ls then profile_surface
  else if has_limitation DerivedProductsDisabled ls then
    {| volumes := volumes profile_full; level_step_hpa := level_step_hpa profile_full;
       surface_fields := surface_fields profile_full; derived := false; heavy := false |}
  else profile_full.

(** [JobPlan::build]. *)
Definition build (model : ModelId) (cycle : CycleSpec) : SchedulerResult JobPlan :=
  build_with_profile model cycle (default_profile model).

(** ** Validating a persisted plan *)

(** The loop over the expected times. *)
Fixpoint check_times (origin_unix : Z) (index : nat) (prior : option Z) (times : list ExpectedValidTime) : SchedulerResult unit :=
  match times with
  | [] => Ok tt
  | expected :: times =>
      slot ← ok_or (u16_try_from index) (InvalidPlan "job has too many expected valid times");
      _ ← reject (negb (ev_storage_slot expected =? slot)) (InvalidPlan "expected time uses another storage slot");
      _ ← reject (match prior with Some prior => ev_forecast_hour expected <=? prior | None => false end)
            (InvalidPlan "forecast hours must be strictly increasing");
      '(lead, valid) ← valid_time_of InvalidPlan origin_unix (ev_forecast_hour expected);
      _ ← reject (negb (ev_lead_seconds expected =? lead) || negb (ev_valid_unix expected =? valid))
            (InvalidPlan "expected time at storage slot is inconsistent");
      check_times origin_unix (S index) (Some (ev_forecast_hour expected)) times
  end.

(** The loop over the limitations, with the set of those seen. *)
Fixpoint check_limitations (seen : list string) (ls : list string) : SchedulerResult unit :=
  match ls with
  | [] => Ok tt
  | l :: ls =>
      _ ← reject (negb (bool_decide (l ∈ KNOWN_LIMITATION_SLUGS)) || bool_decide (l ∈ seen))
            (InvalidPlan "persisted capability limitations are invalid");
      check_limitations (l :: seen) ls
  end.

(** The loop over the products, with the set of the names seen. *)
Fixpoint check_products (seen : list string) (ps : list IngestProductPlan) : SchedulerResult unit :=
  match ps with
  | [] => Ok tt
  | p :: ps =>
      _ ← reject (bool_decide (trim (ip_product p) = EmptyString)
                  || negb (bool_decide (trim (ip_product p) = ip_product p))
                  || (negb (ip_surface_source p) && negb (ip_pressure_source p))
                  || bool_decide (ip_product p ∈ seen)
                  || existsb (fun pattern => bool_decide (pattern = EmptyString) || negb (bool_decide (trim pattern = pattern)))
                       (ip_idx_patterns p))
            (InvalidPlan "persisted ingest product contract is invalid");
      check_products (ip_product p :: seen) ps
  end.

(** [JobPlan::validate]. *)
Definition plan_validate (plan : JobPlan) : SchedulerResult unit :=
  _ ← reject (negb (bool_decide (jp_schema plan = JOB_PLAN_SCHEMA))) (InvalidPlan "unexpected job-plan schema");
  cycle ← revalidate_cycle (jp_cycle plan);
  _ ← validate_source_for_model (jp_model plan) (source_override plan);
  _ ← reject (negb (bool_decide (run_id plan = canonical_run_id cycle))
              || negb (bool_decide (job_id plan = canonical_job_id (jp_model plan) cycle)))
        (InvalidPlan "job or run identifier does not match its model cycle");
  _ ← map_err Store (validate_store_component (run_id plan));
  _ ← map_err Store (validate_store_component (job_id plan));
  _ ← reject (bool_decide (expected_valid_times plan = [])) (InvalidPlan "job has no expected valid times");
  origin_unix ← cycle_origin_unix cycle;
  _ ← check_times origin_unix 0 None (expected_valid_times plan);
  _ ← reject (bool_decide (ingest_products plan = [])) (InvalidPlan "job has no persisted ingest products");
  profile ← to_profile (ingest_profile plan);
  let ls := capability_limitations plan in
  _ ← check_limitations [] ls;
  _ ← reject (needs_prs profile && negb (existsb ip_pressure_source (ingest_products plan)))
        (InvalidPlan "persisted profile requires pressure data absent from its product plan");
  _ ← reject (bool_decide ("derived_products_disabled"%string ∈ ls) && (derived profile || heavy profile))
        (InvalidPlan "persisted profile violates its derived-products limitation");
  _ ← reject (bool_decide ("provider_statistics_only"%string ∈ ls)
              && negb (bool_decide (profile = surface_for_model (jp_model plan))))
        (InvalidPlan "persisted profile does not match its provider-statistics inventory");
  check_products [] (ingest_products plan).

Definition origin_unix_of (plan : JobPlan) : SchedulerResult Z := cycle_origin_unix (jp_cycle plan).

(** ** Round trip of the persisted profile *)

Lemma volume_of_store_name choice : volume_of_name (store_name choice) = Ok choice.
Proof. destruct choice; reflexivity. Qed.

Lemma rmap_volume_names vs : rmap volume_of_name (store_name <$> vs) = Ok vs.
Proof.
  induction vs as [|v vs IH]; [done|]. cbn [fmap list_fmap rmap]. rewrite volume_of_store_name.
  cbn [mbind result_bind]. change (list_fmap _ _ store_name vs) with (store_name <$> vs). by rewrite IH.
Qed.

Lemma persisted_profile_roundtrip profile pp : from_profile profile = Ok pp -> to_profile pp = Ok profile.
Proof.
  unfold from_profile. destruct (profile_validate profile) as [[]| |] eqn:E; [|done..]. cbn [map_err mbind result_bind].
  intros [= <-]. unfold to_profile. cbn [pp_volumes]. rewrite rmap_volume_names. cbn [mbind result_bind].
  destruct profile as [vs st sf dv hv]. cbn in *. destruct sf; rewrite E; done.
Qed.

(** ** The registries are well formed *)

Lemma limitation_slugs_ok model : check_limitations [] (limitation_slug <$> model_limitations model) = Ok tt.
Proof. destruct model; vm_compute; reflexivity. Qed.

Definition product_plan (p : ProductFetch) : IngestProductPlan :=
  {| ip_product := product p; ip_surface_source := surface_source p;
     ip_pressure_source := pressure_source p; ip_idx_patterns := idx_patterns p |}.

Lemma fetch_products_ok model :
  check_products [] (product_plan <$> products (model_ingest_capability model)) = Ok tt.
Proof. destruct model; vm_compute; reflexivity. Qed.

Lemma capability_limitations_eq model : limitations (model_ingest_capability model) = model_limitations model.
Proof. destruct model; reflexivity. Qed.

#[global] Instance limitation_slug_inj : Inj (=) (=) limitation_slug.
Proof. intros [] [] H; reflexivity || discriminate H. Qed.

Lemma slug_elem l ls : bool_decide (limitation_slug l ∈ limitation_slug <$> ls) = has_limitation l ls.
Proof.
  unfold has_limitation. apply bool_decide_ext. rewrite list_elem_of_fmap. split.
  - by intros (l' & ->%(inj limitation_slug) & H).
  - intros H. by exists l.
Qed.

Lemma existsb_product_plan ps : existsb ip_pressure_source (product_plan <$> ps) = existsb pressure_source ps.
Proof. induction ps as [|p ps IH]; [done|]. simpl. by rewrite <- IH. Qed.

(** ** Expected times *)

Lemma valid_time_of_inv err origin f lead valid :
  valid_time_of err origin f = Ok (lead, valid) -> lead = f * 3600 /\ valid = origin + f * 3600.
Proof.
  unfold valid_time_of, checked_mul64, i64_try_from, checked_add_i64. intros H.
  repeat (case_match; simpl in H; try done). by injection H as <- <-.
Qed.

Lemma expected_time_inv origin slot h e :
  expected_time origin (slot, h) = Ok e ->
  u16_try_from slot = Some (ev_storage_slot e) /\ ev_forecast_hour e = h
  /\ valid_time_of InvalidPlan origin h = Ok (ev_lead_seconds e, ev_valid_unix e).
Proof.
  unfold expected_time. destruct (u16_try_from slot) as [s|]; [|done]. cbn [ok_or mbind result_bind].
  destruct (valid_time_of _ _ _) as [[lead valid]| |]; [|done..]. by intros [= <-].
Qed.

(** The expected times built from increasing hours pass the loop of [validate]. *)
Lemma built_times_check origin hours index prior times :
  StronglySorted Z.lt hours -> (forall p, prior = Some p -> Forall (Z.lt p) hours) ->
  rmap (expected_time origin) (imap (fun i h => (index + i, h)%nat) hours) = Ok times ->
  check_times origin index prior times = Ok tt.
Proof.
  revert index prior times. induction hours as [|h hours IH]; intros index prior times Hs Hp H.
  { by injection H as <-. }
  inversion Hs as [|? ? Hs' Hlt]; subst. cbn [imap rmap] in H. rewrite Nat.add_0_r in H.
  destruct (expected_time origin (index, h)) as [e| |] eqn:Ee; cbn [mbind result_bind] in H; [|done..].
  destruct (rmap _ _) as [ts| |] eqn:Er; cbn [mbind result_bind] in H; [|done..]. injection H as <-.
  apply expected_time_inv in Ee as (Eu & Eh & Ev). cbn [check_times]. rewrite Eu, Eh, Ev. unfold reject.
  cbn [ok_or mbind result_bind]. rewrite !Z.eqb_refl. cbn [negb orb mbind result_bind].
  assert (match prior with Some p => h <=? p | None => false end = false) as ->.
  { destruct prior as [p|]; [|done]. specialize (Hp p eq_refl). inversion Hp; subst. lia. }
  cbn [mbind result_bind]. apply IH; [done|by intros p [= <-]|]. rewrite <- Er. f_equal.
  apply imap_ext. intros i x _. simpl. f_equal. lia.
Qed.

(** The lead and the slot of every expected time. *)
Lemma built_times_spec origin hours index times :
  rmap (expected_time origin) (imap (fun i h => (index + i, h)%nat) hours) = Ok times ->
  length times = length hours
  /\ forall i e, times !! i = Some e ->
       hours !! i = Some (ev_forecast_hour e) /\ ev_storage_slot e = Z.of_nat (index + i)
       /\ ev_lead_seconds e = ev_forecast_hour e * 3600 /\ ev_valid_unix e = origin + ev_forecast_hour e * 3600.
Proof.
  revert index times. induction hours as [|h hours IH]; intros index times H.
  { injection H as <-. split; [done|]. by intros i e. }
  cbn [imap rmap] in H.
  destruct (expected_time origin (index + 0, h)%nat) as [e| |] eqn:Ee; cbn [mbind result_bind] in H; [|done..].
  destruct (rmap _ _) as [ts| |] eqn:Er; cbn [mbind result_bind] in H; [|done..]. injection H as <-.
  destruct (IH (S index) ts) as [Hl Hi].
  { rewrite <- Er. f_equal. apply imap_ext. intros i x _. simpl. f_equal. lia. }
  split; [simpl; by rewrite Hl|]. intros [|i] e' He; simpl in He.
  - injection He as <-. apply expected_time_inv in Ee as (Eu & Eh & Ev). apply valid_time_of_inv in Ev as [-> ->].
    rewrite Eh. split_and!; try done. unfold u16_try_from in Eu. case_match; [|done]. by injection Eu as <-.
  - destruct (Hi i e' He) as (H1 & H2 & H3). split; [done|]. split; [rewrite H2; lia|done].
Qed.

(** ** Built plans validate *)

(** Everything [build_with_profile_and_source] went through when it succeeds. *)
Record built (model : ModelId) (cycle : CycleSpec) (profile : IngestProfile) (source : option SourceId) (plan : JobPlan)
    (origin : Z) : Prop := {
  b_schema : jp_schema plan = JOB_PLAN_SCHEMA;
  b_model : jp_model plan = model;
  b_cycle : revalidate_cycle cycle = Ok (jp_cycle plan);
  b_hour : validate_model_cycle model (jp_cycle plan) = Ok tt;
  b_source : validate_source_for_model model source = Ok tt /\ source_override plan = source;
  b_ready : products (model_ingest_capability model) <> [];
  b_profile : validate_profile_for_capability model profile (limitations (model_ingest_capability model)) = Ok tt;
  b_persisted : from_profile profile = Ok (ingest_profile plan);
  b_limits : capability_limitations plan = limitation_slug <$> limitations (model_ingest_capability model);
  b_origin : cycle_origin_unix (jp_cycle plan) = Ok origin;
  b_hours : supported_forecast_hours model (hour_utc (jp_cycle plan)) <> [];
  b_times : rmap (expected_time origin) (imap pair (supported_forecast_hours model (hour_utc (jp_cycle plan))))
            = Ok (expected_valid_times plan);
  b_run_id : run_id plan = canonical_run_id (jp_cycle plan)
             /\ validate_store_component (canonical_run_id (jp_cycle plan)) = Ok tt;
  b_job_id : job_id plan = canonical_job_id model (jp_cycle plan)
             /\ validate_store_component (canonical_job_id model (jp_cycle plan)) = Ok tt;
  b_products : ingest_products plan = product_plan <$> products (model_ingest_capability model)
}.

Lemma build_inv model cycle profile source plan :
  build_with_profile_and_source model cycle profile source = Ok plan -> exists origin, built model cycle profile source plan origin.
Proof.
  unfold build_with_profile_and_source. intros H. cbv zeta in H.
  destruct (revalidate_cycle cycle) as [c| |] eqn:E1; cbn [mbind result_bind] in H; [|done..].
  destruct (validate_model_cycle model c) as [[]| |] eqn:E2; cbn [mbind result_bind] in H; [|done..].
  destruct (validate_source_for_model model source) as [[]| |] eqn:E3; cbn [mbind result_bind] in H; [|done..].
  unfold reject at 1 in H. destruct (_ || bool_decide (products _ = [])) eqn:E4; cbn [mbind result_bind] in H; [done|].
  destruct (validate_profile_for_capability _ _ _) as [[]| |] eqn:E5; cbn [mbind result_bind] in H; [|done..].
  destruct (from_profile profile) as [pp| |] eqn:E6; cbn [mbind result_bind] in H; [|done..].
  destruct (cycle_origin_unix c) as [origin| |] eqn:E7; cbn [mbind result_bind] in H; [|done..].
  unfold reject in H. case_bool_decide as E8; cbn [mbind result_bind] in H; [done|].
  destruct (rmap _ _) as [times| |] eqn:E9; cbn [mbind result_bind] in H; [|done..].
  destruct (validate_store_component (canonical_run_id c)) as [[]| |] eqn:E10; cbn [map_err mbind result_bind] in H; [|done..].
  destruct (validate_store_component (canonical_job_id model c)) as [[]| |] eqn:E11; cbn [map_err mbind result_bind] in H; [|done..].
  injection H as <-. exists origin. apply orb_false_iff in E4 as [_ E4%bool_decide_eq_false]. by constructor.
Qed.

Lemma cycle_hours_sorted model cycle :
  validate_model_cycle model cycle = Ok tt -> StronglySorted Z.lt (supported_forecast_hours model (hour_utc cycle)).
Proof.
  unfold validate_model_cycle. destruct (catalog_entry model) as (summary & Hs & _ & _ & _ & _ & Hf).
  rewrite (summary_of_ok (E := SchedulerError) model summary Hs). cbn [mbind result_bind]. unfold reject.
  destruct (is_in _ _) eqn:E; [|done]. intros _. apply Hf. unfold is_in in E.
  apply existsb_exists in E as (h & Hin & ->%Z.eqb_eq). by apply list_elem_of_In.
Qed.

Lemma revalidate_idem cycle c : 0 <= hour_utc cycle -> revalidate_cycle cycle = Ok c -> revalidate_cycle c = Ok c.
Proof.
  unfold revalidate_cycle. intros Hh H.
  destruct (cycle_spec_new _ _) as [c'| |] eqn:E; [|done..]. injection H as ->.
  apply cycle_accepted_iff in E as (y & m & d & Hv & H23 & _ & ->); [|done].
  cbn [cycle_of date_yyyymmdd hour_utc]. by rewrite cycle_of_accepted.
Qed.

(** C20: every plan the scheduler builds, for any model, cycle, profile and
    source, passes the validation a persisted plan must pass after a restart;
    it has one expected time per scheduled forecast hour, in slot order, whose
    valid time is the cycle's origin plus the lead; and its persisted profile
    is the given profile. *)
Theorem built_plan_validates model cycle profile source plan :
  0 <= hour_utc cycle -> build_with_profile_and_source model cycle profile source = Ok plan ->
  plan_validate plan = Ok tt /\ to_profile (ingest_profile plan) = Ok profile
  /\ exists origin, cycle_origin_unix (jp_cycle plan) = Ok origin
     /\ length (expected_valid_times plan) = length (supported_forecast_hours model (hour_utc (jp_cycle plan)))
     /\ forall i e, expected_valid_times plan !! i = Some e ->
          supported_forecast_hours model (hour_utc (jp_cycle plan)) !! i = Some (ev_forecast_hour e)
          /\ ev_storage_slot e = Z.of_nat i /\ ev_valid_unix e = origin + ev_forecast_hour e * 3600.
Proof.
  intros Hh (origin & B)%build_inv. pose proof (persisted_profile_roundtrip _ _ (b_persisted _ _ _ _ _ _ B)) as Hpp.
  pose proof (b_times _ _ _ _ _ _ B) as Ht. split; [|split; [done|]].
  2: { exists origin. split; [apply B|]. destruct (built_times_spec origin _ 0 _ Ht) as [Hl Hi]. split; [done|].
       intros i e He. destruct (Hi i e He) as (? & ? & _ & ?). done. }
  unfold plan_validate. destruct B as [-> Hm Hc Hhour [Hs ->] Hr Hp _ Hl Ho Hn _ [-> Hrun] [-> Hjob] ->].
  rewrite Hm, Hl, (revalidate_idem cycle) by done. cbn [mbind result_bind]. rewrite Hs, Hrun, Hjob, Ho, Hpp.
  rewrite (bool_decide_eq_true_2 (JOB_PLAN_SCHEMA = _)), (bool_decide_eq_true_2 (canonical_run_id _ = _)),
    (bool_decide_eq_true_2 (canonical_job_id _ _ = _)) by done.
  cbn [negb orb reject mbind result_bind map_err].
  rewrite (bool_decide_eq_false_2 (expected_valid_times plan = [])).
  2: { intros E. destruct (built_times_spec origin _ 0 _ Ht) as [Hlen _]. rewrite E in Hlen.
       destruct (supported_forecast_hours _ _); done. }
  cbn [reject mbind result_bind]. rewrite (built_times_check origin _ 0 None _ (cycle_hours_sorted _ _ Hhour)) by done.
  cbn [mbind result_bind]. rewrite (bool_decide_eq_false_2 (product_plan <$> _ = [])) by (destruct (products _); done).
  cbn [reject mbind result_bind]. rewrite capability_limitations_eq, limitation_slugs_ok. cbn [mbind result_bind].
  change "derived_products_disabled"%string with (limitation_slug DerivedProductsDisabled).
  change "provider_statistics_only"%string with (limitation_slug ProviderStatisticsOnly).
  rewrite !slug_elem, existsb_product_plan, fetch_products_ok.
  unfold validate_profile_for_capability in Hp. rewrite capability_limitations_eq in Hp.
  destruct (profile_validate profile); [|done..]. cbn [map_err mbind result_bind] in Hp. unfold reject in Hp |- *.
  destruct (needs_prs profile && _); [done|]. cbn [mbind result_bind] in Hp |- *.
  destruct (has_limitation TwoDimensionalStatisticsOnly _ && _); [done|]. cbn [mbind result_bind] in Hp.
  destruct (has_limitation ProviderStatisticsOnly _ && _); [done|]. cbn [mbind result_bind] in Hp.
  destruct (has_limitation DerivedProductsDisabled _ && _); done.
Qed.

Theorem built_plan_validates_witness :
  exists plan, build Rtma {| date_yyyymmdd := "20240229"; hour_utc := 7 |} = Ok plan /\ plan_validate plan = Ok tt
    /\ length (expected_valid_times plan) = 1%nat.
Proof.
  eexists. split; [vm_compute; reflexivity|]. split; [|reflexivity].
  eapply (built_plan_validates Rtma {| date_yyyymmdd := "20240229"; hour_utc := 7 |} (default_profile Rtma) None);
    [vm_compute; discriminate|vm_compute; reflexivity].
Defined.

(** ** The scheduler and the ingest agree *)

Lemma stages_need_limitation model :
  bool_decide (model ∈ [Aigefs; Hgefs; Href; Sref; Refs]) || bool_decide (model ∈ [GdpsGeml; IconEu; IconD2])
  || bool_decide (model ∈ [WrfCptec7km; BramsCptec8km; EtaCptec8km])
  || bool_decide (model ∈ [Gefs; Aigfs; EcmwfOpenData; Aifs; IconRu]) || bool_decide (model ∈ [Rdps; Hrdps; HrdpsWest])
  || bool_decide (model ∈ [AromeFrance001; AromeFrance0025]) = true ->
  has_limitation DerivedProductsDisabled (model_limitations model) = true.
Proof. destruct model; vm_compute; done. Qed.

Lemma fetch_plan_facts model plan :
  fetch_plan model = Some plan ->
  plan = products (model_ingest_capability model) /\ status (model_ingest_capability model) = Ready /\ plan <> []
  /\ existsb surface_source plan = true.
Proof. destruct model; intros [= <-]; done. Qed.

(** A profile that the scheduler admits for a model passes the ingest's own
    check. *)
Lemma admitted_profile_ingests model profile plan :
  fetch_plan model = Some plan ->
  validate_profile_for_capability model profile (limitations (model_ingest_capability model)) = Ok tt ->
  validate_ingest_profile_for_model model profile = Ok tt.
Proof.
  intros Hf H. destruct (fetch_plan_facts model plan Hf) as (Ep & _ & _ & Hsurf).
  unfold validate_profile_for_capability in H. unfold validate_ingest_profile_for_model.
  rewrite capability_limitations_eq in H |- *. rewrite Hf.
  destruct (profile_validate profile) as [[]| |]; [|done..]. cbn [map_err mbind result_bind ok_or] in H |- *.
  rewrite <- Ep in H. unfold reject in H |- *.
  destruct (needs_prs profile && _); [done|]. cbn [mbind result_bind] in H.
  destruct (has_limitation TwoDimensionalStatisticsOnly _ && _); [done|]. cbn [mbind result_bind] in H.
  destruct (has_limitation ProviderStatisticsOnly _ && _); [done|]. cbn [mbind result_bind] in H |- *.
  rewrite Hsurf. cbn [negb mbind result_bind].
  destruct (derived profile || heavy profile); [|by rewrite !andb_false_r].
  rewrite andb_true_r in H. pose proof (stages_need_limitation model) as Hl.
  destruct (has_limitation DerivedProductsDisabled _); [done|]. rewrite !andb_true_r.
  repeat (destruct (bool_decide _); [by specialize (Hl eq_refl)|]). done.
Qed.

Lemma default_profile_admitted model plan :
  fetch_plan model = Some plan ->
  validate_profile_for_capability model (default_profile model) (limitations (model_ingest_capability model)) = Ok tt.
Proof. destruct model; try done; intros _; vm_compute; reflexivity. Qed.

Lemma ready_hours_bounded model :
  match fetch_plan model, summary_of model with
  | Some _, Some summary =>
      forallb (fun h => let hours := supported_forecast_hours model h in
        negb (bool_decide (hours = [])) && (length hours <? 1000)%nat && forallb (fun f => (0 <=? f) && (f <? 1000)) hours)
        (cycle_hours_utc summary)
  | _, _ => true
  end = true.
Proof. destruct model; vm_compute; reflexivity. Qed.

Lemma expected_time_ok origin i f :
  0 <= f < 1000 -> (i < 1000)%nat -> - 2 ^ 60 <= origin < 2 ^ 60 -> exists e, expected_time origin (i, f) = Ok e.
Proof.
  intros Hf Hi Ho. unfold expected_time, u16_try_from, valid_time_of, checked_mul64, i64_try_from, checked_add_i64, i64_ok, u16_limit, u64_limit.
  rewrite (proj2 (Z.ltb_lt (Z.of_nat i) _)) by lia. cbn [ok_or mbind result_bind].
  rewrite (proj2 (Z.ltb_lt (f * 3600) (2 ^ 64))) by lia. cbn [ok_or mbind result_bind].
  rewrite (proj2 (Z.ltb_lt (f * 3600) (2 ^ 63))) by lia. cbn [ok_or mbind result_bind].
  rewrite (proj2 (andb_true_iff _ _)) by lia. cbn [ok_or mbind result_bind]. by eexists.
Qed.

(** A plan is built for every model with a fetch plan, at each of its cycle
    hours, on every date, from any profile and source the scheduler admits. *)
Lemma admitted_plan_builds model plan summary profile source y m d h :
  fetch_plan model = Some plan -> summary_of model = Some summary -> valid_date y m d -> h ∈ cycle_hours_utc summary ->
  validate_profile_for_capability model profile (limitations (model_ingest_capability model)) = Ok tt -> validate_source_for_model model source = Ok tt ->
  exists job, build_with_profile_and_source model (cycle_of y m d h) profile source = Ok job.
Proof.
  intros Hf Hs Hv Hh Hadm Hsrc.
  destruct (catalog_entry model) as (summary' & Hs' & _ & _ & Hr & _). rewrite Hs in Hs'. injection Hs' as <-.
  pose proof (proj1 (list.Forall_forall _ _) Hr h Hh) as Hh23. cbn beta in Hh23.
  destruct (fetch_plan_facts model plan Hf) as (Ep & Est & Hne & _).
  pose proof (ready_hours_bounded model) as Hb. rewrite Hf, Hs in Hb. pose proof (forallb_elem _ _ h Hb Hh) as Hx. cbv zeta beta in Hx.
  rewrite !andb_true_iff in Hx. destruct Hx as [[Hne' Hlen] Hall]. apply negb_true_iff, bool_decide_eq_false in Hne'. apply Nat.ltb_lt in Hlen.
  unfold build_with_profile_and_source. rewrite revalidate_cycle_of by done. cbn [mbind result_bind].
  unfold validate_model_cycle. rewrite (summary_of_ok (E := SchedulerError) model summary Hs). cbn [mbind result_bind cycle_of hour_utc].
  unfold reject at 1. assert (is_in h (cycle_hours_utc summary) = true) as ->
    by (unfold is_in; apply existsb_exists; exists h; split; [by apply list_elem_of_In|apply Z.eqb_refl]).
  cbn [negb mbind result_bind]. rewrite Hsrc. cbn [mbind result_bind]. rewrite Est, <- Ep, (bool_decide_eq_true_2 (Ready = Ready)) by done.
  rewrite (bool_decide_eq_false_2 (plan = [])) by done. cbn [negb orb reject mbind result_bind]. rewrite Hadm. cbn [mbind result_bind].
  unfold from_profile. unfold validate_profile_for_capability in Hadm.
  destruct (profile_validate profile) as [[]| |]; [|done..]. cbn [map_err mbind result_bind].
  rewrite cycle_origin_counts by done. cbn [mbind result_bind]. rewrite (bool_decide_eq_false_2 (supported_forecast_hours model h = [])) by done. cbn [reject mbind result_bind].
  destruct (rmap_total (expected_time (origin_of y m d h)) (imap pair (supported_forecast_hours model h))) as (times & Ht).
  { intros [i f] Hin. apply elem_of_lookup_imap in Hin as (j & f' & [= -> ->] & Hj).
    pose proof (day_number_range y m d Hv). apply expected_time_ok.
    - pose proof (forallb_elem _ _ f' Hall ltac:(by eapply list_elem_of_lookup_2)). cbn beta in *. lia.
    - apply lookup_lt_Some in Hj. lia.
    - unfold origin_of. replace (day_number 1970 1 1) with 719528 by (vm_compute; reflexivity). lia. }
  rewrite Ht. cbn [mbind result_bind]. rewrite run_id_safe, job_id_safe by done. cbn [map_err mbind result_bind]. by eexists.
Qed.

(** Every model with a fetch plan can be scheduled: at each of its cycle
    hours, on every date, [JobPlan::build] succeeds, and the ingest accepts
    the profile the scheduler chose. *)
Theorem ready_models_schedule model plan summary y m d h :
  fetch_plan model = Some plan -> summary_of model = Some summary -> valid_date y m d -> h ∈ cycle_hours_utc summary ->
  (exists job, build model (cycle_of y m d h) = Ok job)
  /\ validate_ingest_profile_for_model model (default_profile model) = Ok tt.
Proof.
  intros Hf Hs Hv Hh. pose proof (default_profile_admitted model plan Hf) as Hadm.
  split; [by eapply admitted_plan_builds|by apply (admitted_profile_ingests model _ plan)].
Qed.
