(* ===== verification/Manifest.v ===== *)
(** * The run manifest

    [crates/rw-store/src/run.rs]: the provenance labels of a run and their
    normal form, the manifest [run.json] with the checks a parsed manifest
    must pass, registering an hour, and loading and saving it. The JSON
    encoding itself belongs to serde_json. *)
From Stdlib Require Import ZArith Lia Ascii String.
From stdpp Require Import base list strings numbers sorting.
From S2P Require Import Prelude F32 Format Text Order.

Local Open Scope Z_scope.

Definition SCHEMA_RUN : string := "rw-store.run.v1".
Definition SCHEMA_RUN_V2 : string := "rw-store.run.v2".
Definition MAX_RUN_MANIFEST_BYTES : Z := 16 * 1024 * 1024.
Definition MAX_GRID_COORD_RAW_BYTES : Z := MAX_GRID_CELLS * 4.
Definition MAX_SOURCE_TOKEN_BYTES : Z := 96.

(** ** Source provenance *)

Record RwsSourceProvenance := {
  provider : string;
  forecast_producer : option string;
  licensing_publisher : option string;
  transport_provider : option string;
  transport_is_mirror : bool;
  roles : list string;
  prov_products : list string
}.

#[global] Instance RwsSourceProvenance_eq_dec : EqDecision RwsSourceProvenance.
Proof. solve_decision. Defined.

Definition token_byte (c : ascii) : bool :=
  is_ascii_alphanumeric c || (byte_val c =? 45) || (byte_val c =? 95) || (byte_val c =? 46).

Definition normalize_source_token (value : string) : RwResult string :=
  let value := to_ascii_lowercase (trim value) in
  _ ← reject (bool_decide (value = EmptyString) || (MAX_SOURCE_TOKEN_BYTES <? str_len value)
              || negb (forallb token_byte (bytes value)))
        (Meta "source provenance {label} must be a 1..=96 byte ASCII identifier");
  Ok value.

Definition normalize_optional_source_token (value : option string) : RwResult (option string) :=
  match value with Some value => token ← normalize_source_token value; Ok (Some token) | None => Ok None end.

(** [normalize_source_tokens]: [sort] and [dedup] of the normal tokens. *)
Definition normalize_source_tokens (values : list string) : RwResult (list string) :=
  normalized ← rmap normalize_source_token values;
  Ok (bset_of str_compare normalized).

Definition is_some {A} (o : option A) : bool := match o with Some _ => true | None => false end.

Definition normalize_source_entry (entry : RwsSourceProvenance) : RwResult RwsSourceProvenance :=
  provider ← normalize_source_token (provider entry);
  let structured_fields := [is_some (forecast_producer entry); is_some (licensing_publisher entry); is_some (transport_provider entry)] in
  _ ← reject (existsb id structured_fields && existsb negb structured_fields)
        (Meta "source provenance forecast_producer, licensing_publisher, and transport_provider must be supplied together");
  _ ← reject (negb (is_some (forecast_producer entry)) && transport_is_mirror entry)
        (Meta "source provenance transport_is_mirror requires complete structured identity");
  forecast_producer ← normalize_optional_source_token (forecast_producer entry);
  licensing_publisher ← normalize_optional_source_token (licensing_publisher entry);
  transport_provider ← normalize_optional_source_token (transport_provider entry);
  roles ← normalize_source_tokens (roles entry);
  products ← normalize_source_tokens (prov_products entry);
  Ok {| provider := provider; forecast_producer := forecast_producer; licensing_publisher := licensing_publisher;
        transport_provider := transport_provider; transport_is_mirror := transport_is_mirror entry;
        roles := roles; prov_products := products |}.

(** [RwsSourceProvenance::new] and [new_structured]. *)
Definition provenance_new (provider : string) (roles products : list string) : RwResult RwsSourceProvenance :=
  normalize_source_entry
    {| provider := provider; forecast_producer := None; licensing_publisher := None; transport_provider := None;
       transport_is_mirror := false; roles := roles; prov_products := products |}.
Definition provenance_new_structured (provider producer publisher transport : string) (mirror : bool)
    (roles products : list string) : RwResult RwsSourceProvenance :=
  normalize_source_entry
    {| provider := provider; forecast_producer := Some producer; licensing_publisher := Some publisher;
       transport_provider := Some transport; transport_is_mirror := mirror; roles := roles; prov_products := products |}.

Definition has_structured_identity (e : RwsSourceProvenance) : bool := is_some (forecast_producer e).
Definition effective_forecast_producer (e : RwsSourceProvenance) : string := default (provider e) (forecast_producer e).
Definition effective_licensing_publisher (e : RwsSourceProvenance) : string := default (provider e) (licensing_publisher e).
Definition effective_transport_provider (e : RwsSourceProvenance) : string := default (provider e) (transport_provider e).

(** [SourceIdentity], the key of the merge, and its order. *)
Definition SourceIdentity : Type := string * option string * option string * option string * bool.
Definition identity_cmp : SourceIdentity -> SourceIdentity -> comparison :=
  pair_cmp (pair_cmp (pair_cmp (pair_cmp str_compare (option_cmp str_compare)) (option_cmp str_compare)) (option_cmp str_compare)) bool_cmp.
Definition identity_of (e : RwsSourceProvenance) : SourceIdentity :=
  (provider e, forecast_producer e, licensing_publisher e, transport_provider e, transport_is_mirror e).

(** The map from an identity to its roles and products. *)
Definition Merged : Type := list (SourceIdentity * (list string * list string)).

(** [BTreeSet::extend]. *)
Definition bset_extend (s : list string) (l : list string) : list string := foldl (fun s x => bset_insert str_compare x s) s l.

Definition merge_entry (merged : Merged) (e : RwsSourceProvenance)
    : Merged :=
  bmap_alter identity_cmp
    (fun o => let '(roles', products') := default ([], []) o in (bset_extend roles' (roles e), bset_extend products' (prov_products e)))
    (identity_of e) merged.

Definition provenance_of (entry : SourceIdentity * (list string * list string)) : RwsSourceProvenance :=
  let '(p, f, l, t, m, (rs, ps)) := entry in
  {| provider := p; forecast_producer := f; licensing_publisher := l; transport_provider := t;
     transport_is_mirror := m; roles := rs; prov_products := ps |}.

Definition unmerge (merged : Merged) : list RwsSourceProvenance := provenance_of <$> merged.

(** One pass of the loop: the entry in normal form joins the merged ones. *)
Definition merge_normalized (merged : Merged) (entry : RwsSourceProvenance)
    : RwResult (Merged) :=
  normalized ← normalize_source_entry entry;
  Ok (merge_entry merged normalized).

(** [normalize_source_provenance]; the failure of an allocation is left out. *)
Definition normalize_source_provenance (entries : list RwsSourceProvenance) : RwResult (list RwsSourceProvenance) :=
  merged ← rfold merge_normalized entries [];
  Ok (unmerge merged).

(** ** The manifest *)

Record RwsHourEntry := {
  file : string;
  he_lead_seconds : option Z;
  he_valid_unix : option Z;
  written_unix : Z;
  encode_ms : Z;
  he_variables : list string;
  source_provenance : list RwsSourceProvenance
}.

Record RwsRunManifest := {
  mf_schema : string;
  mf_model : string;
  mf_run : string;
  mf_grid_hash : string;
  mf_nx : nat;
  mf_ny : nat;
  hours : list (Z * RwsHourEntry);   (* a [BTreeMap<u16, _>] *)
  mf_writer : RwsWriterInfo
}.

(** [RwsHourEntry::exact_time]. *)
Definition entry_exact_time (e : RwsHourEntry) : option RwsExactTime :=
  lead ← he_lead_seconds e; valid ← he_valid_unix e; Some {| lead_seconds := lead; valid_unix := valid |}.

Definition is_exact_time_axis (m : RwsRunManifest) : bool := bool_decide (mf_schema m = SCHEMA_RUN_V2).

Definition exact_times (m : RwsRunManifest) : list (Z * RwsExactTime) :=
  omap (fun '(slot, entry) => time ← entry_exact_time entry; Some (slot, time)) (hours m).

Definition validate_identity (m : RwsRunManifest) (model run : string) : RwResult unit :=
  _ ← validate_store_component model;
  _ ← validate_store_component run;
  reject (negb (bool_decide (mf_model m = model)) || negb (bool_decide (mf_run m = run))) (Meta "manifest identity is model='{}' run='{}'").

Definition validate_grid (m : RwsRunManifest) (grid_hash : string) (nx ny : nat) : RwResult unit :=
  reject (negb (bool_decide (mf_grid_hash m = grid_hash)) || negb (bool_decide (mf_nx m = nx)) || negb (bool_decide (mf_ny m = ny)))
    (Meta "manifest grid is {}x{} hash='{}'").

(** The two timestamps of an entry together, or an error. *)
Definition paired_time (e : RwsHourEntry) : RwResult (option RwsExactTime) :=
  match he_lead_seconds e, he_valid_unix e with
  | Some lead, Some valid => Ok (Some {| lead_seconds := lead; valid_unix := valid |})
  | None, None => Ok None
  | _, _ => Err (Meta "manifest slot {slot} must contain both lead_seconds and valid_unix or neither")
  end.

(** [f{slot:03}.rws]. *)
Definition ordinal_file (slot : Z) : string := of_bytes (bytes "f" ++ fmt_padded 3 slot ++ bytes ".rws").

(** The state of the loop of [validate_contents]. *)
Record contents_state := {
  cs_files : list string;
  cs_previous : option (Z * Z);
  cs_origin : option Z
}.

Definition check_entry (exact_axis : bool) (st : contents_state) (entry : Z * RwsHourEntry) : RwResult contents_state :=
  let '(slot, e) := entry in
  _ ← validate_store_component (file e);
  normalized_sources ← normalize_source_provenance (source_provenance e);
  _ ← reject (negb (bool_decide (normalized_sources = source_provenance e)))
        (Meta "manifest slot {slot} source provenance must be normalized, sorted, and deduplicated");
  _ ← reject (bool_decide (file e ∈ cs_files st)) (Meta "manifest slot {slot} reuses file");
  let files := file e :: cs_files st in
  exact_time ← paired_time e;
  if negb exact_axis then
    _ ← reject (is_some exact_time) (Meta "v1 manifest slot {slot} must not contain exact-time metadata");
    Ok {| cs_files := files; cs_previous := cs_previous st; cs_origin := cs_origin st |}
  else
    t ← ok_or exact_time (Meta "v2 manifest slot {slot} requires lead_seconds and valid_unix");
    _ ← reject (negb (bool_decide (file e = ordinal_file slot))) (Meta "v2 manifest slot {slot} must use its ordinal filename");
    this_origin ← ok_or (origin_unix t) (Meta "v2 manifest slot {slot} exact time cannot represent valid_unix - lead_seconds");
    _ ← reject (match cs_origin st with Some expected => negb (this_origin =? expected) | None => false end)
          (Meta "v2 manifest slot {slot} implies another origin");
    _ ← reject (match cs_previous st with
                | Some (lead, valid) => (lead_seconds t <=? lead) || (valid_unix t <=? valid)
                | None => false
                end)
          (Meta "v2 manifest exact times must increase strictly by storage slot");
    Ok {| cs_files := files; cs_previous := Some (lead_seconds t, valid_unix t);
          cs_origin := match cs_origin st with Some o => Some o | None => Some this_origin end |}.

Definition validate_contents (m : RwsRunManifest) : RwResult unit :=
  _ ← reject (negb (bool_decide (mf_schema m = SCHEMA_RUN)) && negb (bool_decide (mf_schema m = SCHEMA_RUN_V2))) (Meta "unexpected schema '{}'");
  _ ← validate_store_component (mf_model m);
  _ ← validate_store_component (mf_run m);
  _ ← reject (bool_decide (trim (mf_grid_hash m) = EmptyString)) (Meta "manifest grid_hash must not be empty");
  _ ← reject ((mf_nx m =? 0)%nat || (mf_ny m =? 0)%nat) (Meta "degenerate manifest grid {}x{}");
  _ ← ok_or (cells ← checked_mul (mf_nx m) (mf_ny m);
             bytes ← checked_mul64 (Z.of_nat cells) 4;
             if bytes <=? MAX_GRID_COORD_RAW_BYTES then Some bytes else None)
        (Meta "manifest grid {}x{} exceeds the supported coordinate array size");
  _ ← rfold (check_entry (is_exact_time_axis m)) (hours m) {| cs_files := []; cs_previous := None; cs_origin := None |};
  Ok tt.

(** [validate_hour_meta]. *)
Definition manifest_validate_hour_meta `{JsonValue} (m : RwsRunManifest) (storage_slot : Z) (meta : RwsHourMeta) : RwResult RwsHourEntry :=
  entry ← ok_or (bmap_get Z.compare storage_slot (hours m)) (Meta "storage slot {storage_slot} is absent from the run manifest");
  expected_hour_schema ← (if bool_decide (mf_schema m = SCHEMA_RUN) then Ok SCHEMA_HOUR
                          else if bool_decide (mf_schema m = SCHEMA_RUN_V2) then Ok SCHEMA_HOUR_V2
                          else Err (Meta "unexpected manifest schema '{other}'"));
  _ ← reject (negb (bool_decide (schema meta = expected_hour_schema))) (Meta "hour schema does not match manifest schema");
  meta_time ← map_err Meta (validate_time_schema meta);
  entry_time ← paired_time entry;
  _ ← reject (negb (Bool.eqb (is_exact_time_axis m) (is_some entry_time))) (Meta "timing does not satisfy manifest schema '{}'");
  _ ← reject (negb (forecast_hour meta =? storage_slot)) (Meta "storage slot {storage_slot} contains hour metadata slot {}");
  _ ← reject (negb (bool_decide (model meta = mf_model m)) || negb (bool_decide (run meta = mf_run m))) (Meta "hour identity does not match manifest");
  _ ← reject (negb (bool_decide (grid_hash meta = mf_grid_hash m)) || negb (bool_decide (nx meta = mf_nx m)) || negb (bool_decide (ny meta = mf_ny m)))
        (Meta "hour grid does not match manifest");
  _ ← reject (match meta_time, entry_time with
              | None, None => false
              | Some a, Some b => negb ((lead_seconds a =? lead_seconds b) && (valid_unix a =? valid_unix b))
              | _, _ => true
              end)
        (Meta "hour exact time does not match manifest");
  Ok entry.

(** [source_provenance]: the union over the hours. The count of the entries
    cannot overflow [usize]. *)
Definition run_source_provenance (m : RwsRunManifest) : RwResult (list RwsSourceProvenance) :=
  normalize_source_provenance ((hours m).*2 ≫= source_provenance).

(** [register_hour]. *)
Definition register_hour (hour : Z) (entry : RwsHourEntry) (m : RwsRunManifest) : RwsRunManifest :=
  {| mf_schema := mf_schema m; mf_model := mf_model m; mf_run := mf_run m; mf_grid_hash := mf_grid_hash m;
     mf_nx := mf_nx m; mf_ny := mf_ny m; hours := bmap_insert Z.compare hour entry (hours m); mf_writer := mf_writer m |}.

(** ** Loading and saving *)

(** The JSON encoding of manifests (serde_json): [to_vec_pretty] and
    [from_slice], which skips white space after the value. *)
Class ManifestJson := {
  manifest_to_vec_pretty : RwsRunManifest -> RwResult (list byte);
  manifest_from_slice : list byte -> RwResult RwsRunManifest
}.
Class ManifestJsonLaws `{ManifestJson} := {
  manifest_json_roundtrip : forall m bytes,
    manifest_to_vec_pretty m = Ok bytes -> manifest_from_slice (bytes ++ [Byte.x0a]) = Ok m;
  (* the hours are read into a [BTreeMap] *)
  manifest_hours_sorted : forall bytes m, manifest_from_slice bytes = Ok m -> bmap_wf Z.compare (hours m)
}.

(** What a path names. *)
Inductive PathState := Missing | NotAFile | Regular (content : list byte).

Section io.
Context `{ManifestJson}.

Definition load_bounded (path : PathState) : RwResult RwsRunManifest :=
  match path with
  | Missing => Err (Io "not found")
  | NotAFile => Err (Meta "run manifest {} is not a regular file")
  | Regular content =>
      _ ← reject (MAX_RUN_MANIFEST_BYTES <? Z.of_nat (length content)) (Meta "run manifest {} is too long");
      let bytes := take (Z.to_nat (MAX_RUN_MANIFEST_BYTES + 1)) content in
      _ ← reject (MAX_RUN_MANIFEST_BYTES <? Z.of_nat (length bytes)) (Meta "run manifest {} grew beyond the limit while reading");
      map_err (fun _ => Meta "run manifest JSON: {err}") (manifest_from_slice bytes)
  end.

Definition load (path : PathState) : RwResult RwsRunManifest :=
  manifest ← load_bounded path;
  _ ← validate_contents manifest;
  Ok manifest.

Definition load_for_run (path : PathState) (model run : string) : RwResult RwsRunManifest :=
  _ ← validate_store_component model;
  _ ← validate_store_component run;
  manifest ← load path;
  _ ← validate_identity manifest model run;
  Ok manifest.

Definition load_or_new_schema (path : PathState) (model run grid_hash : string) (nx ny : nat) (writer : RwsWriterInfo)
    (schema : string) : RwResult RwsRunManifest :=
  match path with
  | Missing =>
      let manifest := {| mf_schema := schema; mf_model := model; mf_run := run; mf_grid_hash := grid_hash;
                         mf_nx := nx; mf_ny := ny; hours := []; mf_writer := writer |} in
      _ ← validate_contents manifest;
      Ok manifest
  | _ =>
      manifest ← load_for_run path model run;
      _ ← validate_grid manifest grid_hash nx ny;
      _ ← reject (negb (bool_decide (mf_schema manifest = schema))) (Meta "existing manifest schema '{}' cannot be opened");
      Ok manifest
  end.
Definition load_or_new (path : PathState) (model run grid_hash : string) (nx ny : nat) (writer : RwsWriterInfo) :=
  load_or_new_schema path model run grid_hash nx ny writer SCHEMA_RUN.
Definition load_or_new_exact (path : PathState) (model run grid_hash : string) (nx ny : nat) (writer : RwsWriterInfo) :=
  load_or_new_schema path model run grid_hash nx ny writer SCHEMA_RUN_V2.

(** [save]: the bytes that replace the file. *)
Definition save (m : RwsRunManifest) : RwResult (list byte) :=
  _ ← validate_contents m;
  bytes ← map_err (fun _ => Meta "{err}") (manifest_to_vec_pretty m);
  let bytes := bytes ++ [Byte.x0a] in
  _ ← reject (MAX_RUN_MANIFEST_BYTES <? Z.of_nat (length bytes)) (Meta "serialized run manifest is too long");
  Ok bytes.
End io.

(** ** The normal form of provenance *)

Lemma token_byte_range c : token_byte c = true -> 45 <= byte_val c <= 122.
Proof. unfold token_byte, is_ascii_alphanumeric, is_ascii_digit, is_ascii_upper, is_ascii_lower. lia. Qed.

Lemma ascii_lower_idem c : ascii_lower (ascii_lower c) = ascii_lower c.
Proof. destruct c as [[] [] [] [] [] [] [] []]; reflexivity. Qed.

(** White space is removed only from bytes that no token has. *)
Definition ws_head (p : list Z) : bool := match p with z :: _ => (z <? 45) || (122 <? z) | [] => false end.

Lemma trim_with_token ws fuel l :
  forallb ws_head ws = true -> Forall (fun c => token_byte c = true) l -> trim_with ws fuel l = l.
Proof.
  intros Hws Hl. destruct fuel as [|fuel]; simpl; [done|].
  assert (first_some (fun p => strip p l) ws = None) as ->; [|done].
  induction ws as [|p ws IH]; simpl in *; [done|]. apply andb_true_iff in Hws as [Hp Hws].
  destruct p as [|z p]; [done|]. simpl in Hp. destruct Hl as [|c l Hc Hl]; simpl; [by apply IH|].
  apply token_byte_range in Hc. destruct (byte_val c =? z) eqn:E; [lia|]. by apply IH.
Qed.

Lemma trim_token s : Forall (fun c => token_byte c = true) (bytes s) -> trim s = s.
Proof.
  intros H. unfold trim. rewrite (trim_with_token whitespace) by done.
  rewrite trim_with_token by (done || by apply Forall_reverse). by rewrite reverse_involutive, of_bytes_bytes.
Qed.

Lemma normalize_token_idem v t : normalize_source_token v = Ok t -> normalize_source_token t = Ok t.
Proof.
  unfold normalize_source_token. intros H. res_inv H. subst. res_clean. breflect.
  set (t := to_ascii_lowercase (trim v)) in *.
  assert (forallb token_byte (bytes t) = true) as Hb by (by destruct (forallb token_byte (bytes t))).
  rewrite (trim_token t) by (apply list.Forall_forall; intros c Hc; rewrite forallb_forall in Hb; by apply Hb, list_elem_of_In).
  assert (to_ascii_lowercase t = t) as ->.
  { unfold t, to_ascii_lowercase. rewrite bytes_of_bytes, <- list_fmap_compose. f_equal.
    apply list_fmap_ext. intros ? c _. apply ascii_lower_idem. }
  rewrite Hb. rewrite bool_decide_eq_false_2 by done.
  rewrite (proj2 (Z.ltb_ge _ _)) by lia. done.
Qed.

Lemma rmap_elem {E A B} (f : A -> result E B) l bs b : rmap f l = Ok bs -> (b ∈ bs <-> exists a, a ∈ l /\ f a = Ok b).
Proof.
  intros H%rmap_ok_inv. induction H as [|a b' l bs Ha Hl IH].
  - split; [intros H; by apply not_elem_of_nil in H|]. intros (a & H & _). by apply not_elem_of_nil in H.
  - rewrite elem_of_cons, IH. split.
    + intros [->|(a' & Hin & E')]; [exists a|exists a']; (split; [by (left + right)|done]).
    + intros (a' & [->|Hin]%elem_of_cons & E'); [left; congruence|right; by exists a'].
Qed.

Lemma rmap_fixed {E A} (f : A -> result E A) l : (forall a, a ∈ l -> f a = Ok a) -> rmap f l = Ok l.
Proof.
  intros H. apply rmap_ok_intro. induction l as [|a l IH]; constructor; [apply H; left|]. apply IH. intros b Hb. apply H. by right.
Qed.

Lemma normalize_tokens_idem vs ts : normalize_source_tokens vs = Ok ts ->
  normalize_source_tokens ts = Ok ts /\ bset_wf str_compare ts.
Proof.
  unfold normalize_source_tokens. intros H. res_inv H. subst. split; [|apply (bset_of_wf str_compare)].
  rewrite rmap_fixed; simpl.
  - rewrite (bset_of_sorted str_compare); [done|apply (bset_of_wf str_compare)].
  - intros t Ht. rewrite (elem_of_bset_of str_compare) in Ht. rewrite (rmap_elem _ _ _ _ E) in Ht. destruct Ht as (v & _ & Hv). by eapply normalize_token_idem.
Qed.

Lemma normalize_optional_idem v t : normalize_optional_source_token v = Ok t ->
  normalize_optional_source_token t = Ok t /\ is_some t = is_some v.
Proof.
  destruct v as [v|]; simpl; intros H; [|by injection H as <-]. res_inv H. subst. simpl.
  by erewrite normalize_token_idem by done.
Qed.

Definition entry_normal (e : RwsSourceProvenance) : Prop := normalize_source_entry e = Ok e.

Lemma normalize_entry_normal e n : normalize_source_entry e = Ok n ->
  entry_normal n /\ bset_wf str_compare (roles n) /\ bset_wf str_compare (prov_products n).
Proof.
  unfold entry_normal, normalize_source_entry. intros H. res_inv H. subst.
  cbn [provider forecast_producer licensing_publisher transport_provider transport_is_mirror roles prov_products existsb id].
  repeat match goal with
  | H : normalize_source_token ?a = Ok ?b |- _ => assert_fails (constr_eq a b); apply normalize_token_idem in H
  | H : normalize_optional_source_token ?a = Ok ?b |- _ => assert_fails (constr_eq a b); apply normalize_optional_idem in H as [? ?]
  | H : normalize_source_tokens ?a = Ok ?b |- _ => assert_fails (constr_eq a b); apply normalize_tokens_idem in H as [? ?]
  end.
  repeat match goal with H : is_some _ = _ |- _ => rewrite H; clear H end.
  repeat match goal with H : _ = Ok _ |- _ => rewrite H; clear H; cbn [mbind result_bind] end. done.
Qed.

(** A normal entry: its identity is normal, and its labels are sorted sets of
    normal tokens. *)
Definition identity_normal (i : SourceIdentity) : Prop :=
  let '(p, f, l, t, m) := i in
  exists rs ps, entry_normal {| provider := p; forecast_producer := f; licensing_publisher := l; transport_provider := t;
                                transport_is_mirror := m; roles := rs; prov_products := ps |}.
Definition labels_normal (l : list string) : Prop :=
  bset_wf str_compare l /\ forall r, r ∈ l -> normalize_source_token r = Ok r.

Lemma labels_normal_iff l : normalize_source_tokens l = Ok l <-> labels_normal l.
Proof.
  split.
  - intros H. split; [by eapply normalize_tokens_idem|]. unfold normalize_source_tokens in H. res_inv H.
    intros r Hr. rewrite <- H, (elem_of_bset_of str_compare), (rmap_elem _ _ _ _ E) in Hr.
    destruct Hr as (v & _ & Hv). by eapply normalize_token_idem.
  - intros [Hwf Hn]. unfold normalize_source_tokens. rewrite rmap_fixed by done. simpl. by rewrite (bset_of_sorted str_compare).
Qed.

Lemma entry_normal_iff e : entry_normal e <->
  identity_normal (identity_of e) /\ labels_normal (roles e) /\ labels_normal (prov_products e).
Proof.
  rewrite <- !labels_normal_iff. destruct e as [p f l t m rs ps]. unfold identity_of, identity_normal.
  cbn [provider forecast_producer licensing_publisher transport_provider transport_is_mirror roles prov_products]. split.
  - intros H. split; [by exists rs, ps|]. unfold entry_normal, normalize_source_entry in H. res_inv H.
    subst. done.
  - intros ((rs' & ps' & H) & Hr & Hp). unfold entry_normal, normalize_source_entry in *.
    cbn [provider forecast_producer licensing_publisher transport_provider transport_is_mirror roles prov_products] in *.
    res_inv H. subst. cbn [provider existsb id] in *.
    repeat match goal with H : _ = Ok _ |- _ => rewrite H; clear H; cbn [mbind result_bind] end. done.
Qed.

(** What the merge of normal entries produces: one entry per identity, in
    order, with the union of the labels of the entries of that identity. *)
Definition labels_of (f : RwsSourceProvenance -> list string) (es : list RwsSourceProvenance) (i : SourceIdentity) (r : string) : Prop :=
  exists e, e ∈ es /\ identity_of e = i /\ r ∈ f e.

Record merge_result (es ns : list RwsSourceProvenance) : Prop := {
  mr_sorted : StronglySorted (key_lt identity_cmp) (identity_of <$> ns);
  mr_sets : forall n, n ∈ ns -> bset_wf str_compare (roles n) /\ bset_wf str_compare (prov_products n);
  mr_identities : forall i, i ∈ identity_of <$> ns <-> i ∈ identity_of <$> es;
  mr_roles : forall n r, n ∈ ns -> (r ∈ roles n <-> labels_of roles es (identity_of n) r);
  mr_products : forall n r, n ∈ ns -> (r ∈ prov_products n <-> labels_of prov_products es (identity_of n) r)
}.

Lemma identity_inj a b : a ≠ b -> identity_cmp a b <> Eq.
Proof. intros H E. by apply (cmp_eq (cmp := identity_cmp)) in E. Qed.

Lemma merge_result_unique es ns ns' : merge_result es ns -> merge_result es ns' -> ns = ns'.
Proof.
  intros [S1 W1 I1 R1 P1] [S2 W2 I2 R2 P2].
  assert (identity_of <$> ns = identity_of <$> ns') as Hi.
  { apply (bset_ext identity_cmp); [done|done|]. intros i. by rewrite I1, I2. }
  apply list_eq. intros k. apply (f_equal (.!! k)) in Hi. rewrite !list_lookup_fmap in Hi.
  destruct (ns !! k) as [a|] eqn:Ea, (ns' !! k) as [b|] eqn:Eb; simpl in Hi; try done. apply (inj Some) in Hi. f_equal.
  apply list_elem_of_lookup_2 in Ea, Eb. destruct (W1 a Ea), (W2 b Eb).
  assert (roles a = roles b) as Hr.
  { apply (bset_ext str_compare); [done|done|]. intros r. rewrite R1, R2 by done. by rewrite Hi. }
  assert (prov_products a = prov_products b) as Hp.
  { apply (bset_ext str_compare); [done|done|]. intros r. rewrite P1, P2 by done. by rewrite Hi. }
  destruct a, b. simpl in *. unfold identity_of in Hi. simpl in Hi. congruence.
Qed.

Lemma bset_extend_spec s l : bset_wf str_compare s ->
  bset_wf str_compare (bset_extend s l) /\ forall y, y ∈ bset_extend s l <-> y ∈ s \/ y ∈ l.
Proof. apply (bset_of_acc str_compare). Qed.

(** The invariant of the loop, read through lookups. *)
Definition merge_inv (es : list RwsSourceProvenance) (m : Merged) : Prop :=
  bmap_wf identity_cmp m /\
  forall i, match bmap_get identity_cmp i m with
            | None => i ∉ identity_of <$> es
            | Some (rs, ps) => i ∈ identity_of <$> es /\ bset_wf str_compare rs /\ bset_wf str_compare ps
                /\ (forall r, r ∈ rs <-> labels_of roles es i r) /\ (forall r, r ∈ ps <-> labels_of prov_products es i r)
            end.

Lemma labels_of_snoc f es e i r : labels_of f (es ++ [e]) i r <-> labels_of f es i r \/ (identity_of e = i /\ r ∈ f e).
Proof.
  unfold labels_of. split.
  - intros (x & [Hx|Hx]%elem_of_app & Hi & Hr); [left; by exists x|]. apply list_elem_of_singleton in Hx as ->. by right.
  - intros [(x & Hx & Hi & Hr)|[Hi Hr]]; [exists x|exists e]; rewrite elem_of_app, list_elem_of_singleton; auto.
Qed.

Lemma labels_of_absent f es i r : i ∉ identity_of <$> es -> ~ labels_of f es i r.
Proof. intros Hn (e & He & Hi & _). apply Hn. apply list_elem_of_fmap. by exists e. Qed.

Lemma merge_entry_inv es m e : merge_inv es m -> merge_inv (es ++ [e]) (merge_entry m e).
Proof.
  intros [Hwf Hget]. split; [by apply (bmap_alter_wf identity_cmp)|]. intros i. rewrite fmap_app. simpl.
  destruct (decide (identity_of e = i)) as [<-|Hne].
  - unfold merge_entry. rewrite (bmap_get_alter identity_cmp) by done. specialize (Hget (identity_of e)).
    destruct (bmap_get identity_cmp (identity_of e) m) as [[rs ps]|]; simpl.
    + destruct Hget as (Hin & Wr & Wp & Hr & Hp).
      destruct (bset_extend_spec rs (roles e) Wr) as [? Er]. destruct (bset_extend_spec ps (prov_products e) Wp) as [? Ep].
      repeat split_and; try done; [apply elem_of_app; by left| |]; intros r;
        rewrite labels_of_snoc, ?Er, ?Ep, ?Hr, ?Hp; tauto.
    + destruct (bset_extend_spec [] (roles e)) as [? Er]; [constructor|].
      destruct (bset_extend_spec [] (prov_products e)) as [? Ep]; [constructor|].
      repeat split_and; try done; [apply elem_of_app; right; by apply list_elem_of_singleton| |]; intros r;
        rewrite labels_of_snoc, ?Er, ?Ep; pose proof (not_elem_of_nil r);
        pose proof (labels_of_absent roles es _ r Hget); pose proof (labels_of_absent prov_products es _ r Hget); tauto.
  - unfold merge_entry. rewrite (bmap_get_alter_ne identity_cmp) by done. specialize (Hget i).
    destruct (bmap_get identity_cmp i m) as [[rs ps]|].
    + destruct Hget as (Hin & Wr & Wp & Hr & Hp). repeat split_and; try done; [apply elem_of_app; by left| |]; intros r;
        rewrite labels_of_snoc, ?Hr, ?Hp; tauto.
    + rewrite not_elem_of_app, list_elem_of_singleton. split; [done|congruence].
Qed.

Lemma merge_all es : merge_inv es (foldl merge_entry [] es).
Proof.
  induction es as [|e es IH] using rev_ind.
  - split; [constructor|]. intros i. apply not_elem_of_nil.
  - rewrite foldl_app. simpl. by apply merge_entry_inv.
Qed.

Lemma identity_provenance_of x : identity_of (provenance_of x) = x.1.
Proof. by destruct x as [[[[[p f] l] t] m] [rs ps]]. Qed.

Lemma merge_unmerge es : merge_result es (unmerge (foldl merge_entry [] es)).
Proof.
  destruct (merge_all es) as [Hwf Hget]. set (m := foldl merge_entry [] es) in *. unfold unmerge.
  assert (identity_of <$> (provenance_of <$> m) = m.*1) as Hk.
  { rewrite <- list_fmap_compose. apply list_fmap_ext. intros ? x _. apply identity_provenance_of. }
  assert (forall n, n ∈ provenance_of <$> m -> exists i rs ps, n = provenance_of (i, (rs, ps))
            /\ bmap_get identity_cmp i m = Some (rs, ps)) as Hn.
  { intros n ([i [rs ps]] & -> & Hin)%list_elem_of_fmap. exists i, rs, ps. split; [done|]. by apply (elem_bmap_get identity_cmp). }
  assert (forall n, n ∈ provenance_of <$> m -> bset_wf str_compare (roles n) /\ bset_wf str_compare (prov_products n)
            /\ (forall r, r ∈ roles n <-> labels_of roles es (identity_of n) r)
            /\ (forall r, r ∈ prov_products n <-> labels_of prov_products es (identity_of n) r)) as Hspec.
  { intros n (i & rs & ps & -> & E)%Hn. specialize (Hget i). rewrite E in Hget. rewrite identity_provenance_of.
    destruct i as [[[[p f] l] t] mi]. simpl. tauto. }
  split; [by rewrite Hk| | | |].
  - intros n Hin. destruct (Hspec n Hin) as (? & ? & _). done.
  - intros i. rewrite Hk. specialize (Hget i). destruct (bmap_get identity_cmp i m) as [[rs ps]|] eqn:E.
    + split; [tauto|]. intros _. apply (bmap_get_elem identity_cmp) in E. apply list_elem_of_fmap. by exists (i, (rs, ps)).
    + split; [|done]. intros ([i' v] & -> & Hin)%list_elem_of_fmap. apply (elem_bmap_get identity_cmp) in Hin; [|done].
      simpl in E. by rewrite Hin in E.
  - intros n r Hin. by apply Hspec.
  - intros n r Hin. by apply Hspec.
Qed.

Lemma merge_normalized_fold es m : rfold merge_normalized es m
  = (es' ← rmap normalize_source_entry es; Ok (foldl merge_entry m es')).
Proof.
  revert m. induction es as [|e es IH]; intros m; simpl; [done|]. assert (merge_normalized m e = (n ← normalize_source_entry e; Ok (merge_entry m n))) as -> by done.
  destruct (normalize_source_entry e) as [e'| |]; [|reflexivity|reflexivity]. cbn [mbind result_bind]. rewrite IH.
  by destruct (rmap normalize_source_entry es).
Qed.

Lemma normalize_provenance_spec es ns : normalize_source_provenance es = Ok ns <->
  exists es', rmap normalize_source_entry es = Ok es' /\ merge_result es' ns.
Proof.
  unfold normalize_source_provenance. rewrite merge_normalized_fold. split.
  - intros H. destruct (rmap normalize_source_entry es) as [es'| |] eqn:E; simpl in H; try done. exists es'. injection H as <-.
    split; [done|]. apply merge_unmerge.
  - intros (es' & -> & Hm). simpl. f_equal. eapply merge_result_unique; [apply merge_unmerge|done].
Qed.

Lemma merge_result_ext es es' ns : (forall e, e ∈ es <-> e ∈ es') -> merge_result es ns -> merge_result es' ns.
Proof.
  intros He [S W I R P].
  assert (forall f i r, labels_of f es i r <-> labels_of f es' i r) as Hl.
  { intros f i r. unfold labels_of. split; intros (e & Hin & ?); exists e; (split; [by apply He|done]). }
  split; [done|done| | |]; intros.
  - rewrite I, !list_elem_of_fmap. split; intros (e & Ei & Hin); exists e; (split; [exact Ei|by apply He]).
  - by rewrite R, Hl.
  - by rewrite P, Hl.
Qed.

(** A list in normal form is its own merge. *)
Lemma merge_result_self es ns : merge_result es ns -> merge_result ns ns.
Proof.
  intros [S W I R P].
  assert (forall a b, a ∈ ns -> b ∈ ns -> identity_of a = identity_of b -> a = b) as Hinj.
  { clear -S. induction ns as [|n ns IH]; [by intros ? ? H%not_elem_of_nil|].
    simpl in S. inversion S as [|? ? S' Hlt]; subst.
    assert (forall b, b ∈ ns -> identity_of n <> identity_of b) as Hne.
    { intros b Hb E. apply (key_lt_irrefl identity_cmp (identity_of n)).
      apply (proj1 (list.Forall_forall _ _) Hlt). rewrite E. apply list_elem_of_fmap. by exists b. }
    intros a b [->|Ha]%elem_of_cons [->|Hb]%elem_of_cons E; [done| | |by apply IH].
    - by destruct (Hne b).
    - by destruct (Hne a). }
  assert (forall f n r, n ∈ ns -> (r ∈ f n <-> labels_of f ns (identity_of n) r)) as Hl.
  { intros f n r Hn. split; [by exists n|]. intros (e & He & Hi & Hr). by rewrite <- (Hinj e n). }
  split; try done; intros; by apply Hl.
Qed.


Lemma merge_result_normal es es' ns : rmap normalize_source_entry es = Ok es' -> merge_result es' ns ->
  forall n, n ∈ ns -> normalize_source_entry n = Ok n.
Proof.
  intros Er [S W I R P] n Hn.
  assert (forall e, e ∈ es' -> entry_normal e) as Hes.
  { intros e He. apply (rmap_elem _ _ _ _ Er) in He as (a & _ & Ha). by eapply normalize_entry_normal. }
  apply entry_normal_iff. destruct (W n Hn) as [Wr Wp]. split; [|split; (split; [done|])].
  - assert (identity_of n ∈ identity_of <$> es') as (e & -> & He)%list_elem_of_fmap.
    { apply I, list_elem_of_fmap. by exists n. }
    by apply entry_normal_iff, Hes.
  - intros r Hr. apply R in Hr as (e & He & _ & Hr); [|done]. apply Hes, entry_normal_iff in He as (_ & [_ H] & _). by apply H.
  - intros r Hr. apply P in Hr as (e & He & _ & Hr); [|done]. apply Hes, entry_normal_iff in He as (_ & _ & [_ H]). by apply H.
Qed.

(** Normalising provenance ([normalize_source_provenance]) yields one
    entry per source identity, strictly ordered by identity, each in normal
    form with its role and product labels sorted and without duplicates; the
    labels of an entry are exactly the union of the labels of the given
    entries with that identity; normalising again changes nothing; and the
    result depends only on the set of given entries, not on their order or
    number. *)
Theorem provenance_normal_form es ns : normalize_source_provenance es = Ok ns ->
  StronglySorted (key_lt identity_cmp) (identity_of <$> ns)
  /\ (forall n, n ∈ ns -> normalize_source_entry n = Ok n
        /\ StronglySorted (key_lt str_compare) (roles n) /\ StronglySorted (key_lt str_compare) (prov_products n))
  /\ (forall n r, n ∈ ns -> (r ∈ roles n <->
        exists e e', e ∈ es /\ normalize_source_entry e = Ok e' /\ identity_of e' = identity_of n /\ r ∈ roles e'))
  /\ (forall e e', e ∈ es -> normalize_source_entry e = Ok e' -> identity_of e' ∈ identity_of <$> ns)
  /\ normalize_source_provenance ns = Ok ns
  /\ (forall es', (forall e, e ∈ es' <-> e ∈ es) -> normalize_source_provenance es' = Ok ns).
Proof.
  intros H. apply normalize_provenance_spec in H as (es' & Er & Hm). pose proof Hm as [S W I R P].
  pose proof (merge_result_normal es es' ns Er Hm) as Hnorm.
  split; [done|]. split; [|split; [|split; [|split]]].
  - intros n Hn. destruct (W n Hn). by specialize (Hnorm n Hn).
  - intros n r Hn. rewrite (R n r Hn). unfold labels_of. split.
    + intros (e' & He' & Hi & Hr). apply (rmap_elem _ _ _ _ Er) in He' as (e & He & Ee). by exists e, e'.
    + intros (e & e' & He & Ee & Hi & Hr). exists e'. split; [|done]. apply (rmap_elem _ _ _ _ Er). by exists e.
  - intros e e' He Ee. apply I, list_elem_of_fmap. exists e'. split; [done|]. apply (rmap_elem _ _ _ _ Er). by exists e.
  - apply normalize_provenance_spec. exists ns. split; [by apply rmap_fixed|by eapply merge_result_self].
  - intros es2 He2. destruct (rmap_total normalize_source_entry es2) as [es2' Er2].
    { intros e He. apply He2 in He. pose proof (rmap_ok_inv _ _ _ Er) as HF.
      apply list_elem_of_lookup in He as [k Hk]. destruct (Forall2_lookup_l _ _ _ _ _ HF Hk) as (e' & _ & Ee). by exists e'. }
    apply normalize_provenance_spec. exists es2'. split; [done|]. eapply merge_result_ext; [|exact Hm].
    intros e'. rewrite (rmap_elem _ _ _ _ Er), (rmap_elem _ _ _ _ Er2).
    split; intros (e & He & Ee); exists e; (split; [by apply He2|done]).
Qed.

Definition sample_sources : list RwsSourceProvenance :=
  [ {| provider := "NOAA-AWS"; forecast_producer := None; licensing_publisher := None; transport_provider := None;
       transport_is_mirror := false; roles := ["surface"; "Pressure"]; prov_products := ["pgrb2"] |};
    {| provider := "ecmwf"; forecast_producer := Some "ECMWF"; licensing_publisher := Some "ecmwf"; transport_provider := Some "aws";
       transport_is_mirror := true; roles := []; prov_products := ["oper"] |};
    {| provider := " noaa-aws "; forecast_producer := None; licensing_publisher := None; transport_provider := None;
       transport_is_mirror := false; roles := ["pressure"]; prov_products := ["nat"] |} ].

Theorem provenance_normal_form_witness : exists ns, normalize_source_provenance sample_sources = Ok ns
  /\ length ns = 2%nat /\ normalize_source_provenance ns = Ok ns /\ normalize_source_provenance (reverse sample_sources) = Ok ns.
Proof.
  destruct (normalize_source_provenance sample_sources) as [ns| |] eqn:E; [|vm_compute in E; discriminate|vm_compute in E; discriminate].
  destruct (provenance_normal_form _ _ E) as (_ & _ & _ & _ & H1 & H2).
  exists ns. split; [reflexivity|]. split; [vm_compute in E; injection E as <-; reflexivity|]. split; [exact H1|].
  apply H2. intros e. by rewrite elem_of_reverse.
Defined.

(** ** What a valid manifest is *)

Definition entry_ok (exact : bool) (origin : Z) (x : Z * RwsHourEntry) : Prop :=
  validate_store_component (file x.2) = Ok tt
  /\ normalize_source_provenance (source_provenance x.2) = Ok (source_provenance x.2)
  /\ (if exact then exists t, paired_time x.2 = Ok (Some t) /\ file x.2 = ordinal_file x.1 /\ origin_unix t = Some origin
      else paired_time x.2 = Ok None).

Definition time_after (p : Z * Z) (x : Z * RwsHourEntry) : Prop :=
  forall t, entry_exact_time x.2 = Some t -> p.1 < lead_seconds t /\ p.2 < valid_unix t.
(** Both times of [y] are later than those of [x], where they have them. *)
Definition later (x y : Z * RwsHourEntry) : Prop :=
  forall t, entry_exact_time x.2 = Some t -> time_after (lead_seconds t, valid_unix t) y.

Lemma paired_time_exact e t : paired_time e = Ok t -> entry_exact_time e = t.
Proof. unfold paired_time, entry_exact_time. destruct (he_lead_seconds e), (he_valid_unix e); simpl; congruence. Qed.

Definition next_state (exact : bool) (st : contents_state) (x : Z * RwsHourEntry) (origin : Z) : contents_state :=
  if exact then
    {| cs_files := file x.2 :: cs_files st;
       cs_previous := t ← entry_exact_time x.2; Some (lead_seconds t, valid_unix t);
       cs_origin := Some origin |}
  else {| cs_files := file x.2 :: cs_files st; cs_previous := cs_previous st; cs_origin := cs_origin st |}.

Definition entry_fits (exact : bool) (st : contents_state) (x : Z * RwsHourEntry) (origin : Z) : Prop :=
  (forall o, exact = true -> cs_origin st = Some o -> o = origin) /\ entry_ok exact origin x /\ (file x.2 ∉ cs_files st)
  /\ (forall p, cs_previous st = Some p -> time_after p x).

Lemma check_entry_fits exact st x st' : check_entry exact st x = Ok st' ->
  exists origin, entry_fits exact st x origin /\ st' = next_state exact st x origin.
Proof.
  destruct x as [slot e]. unfold check_entry, entry_fits, entry_ok, next_state. cbn [fst snd]. intros H.
  res_step H. res_step H. res_step H. res_step H. res_step H. destruct a. res_clean.
  apply negb_false_iff, bool_decide_eq_true in E1 as ->. apply bool_decide_eq_false in E2.
  pose proof (paired_time_exact _ _ E3) as Ht. destruct exact; simpl in H.
  - destruct a3 as [t|]; simpl in H; [|done]. res_inv H. subst st'. res_clean.
    apply negb_false_iff, bool_decide_eq_true in E1. exists a0. rewrite Ht. split_and!.
    + intros o _ Ho. rewrite Ho in E5. lia.
    + done.
    + done.
    + by exists t.
    + done.
    + intros p Hp t' Ht'. simpl in Ht'. rewrite Ht in Ht'. injection Ht' as <-. rewrite Hp in E6. destruct p. simpl. lia.
    + simpl. f_equal. destruct (cs_origin st) as [o|]; [|done]. f_equal. lia.
  - res_inv H. subst st'. res_clean. destruct a3; [done|]. exists 0. split_and!; try done.
    intros p _ t Hp. simpl in Hp. by rewrite Ht in Hp.
Qed.

Lemma check_entry_run exact st x origin : entry_fits exact st x origin -> check_entry exact st x = Ok (next_state exact st x origin).
Proof.
  destruct x as [slot e]. unfold entry_fits, entry_ok, next_state, check_entry. cbn [fst snd].
  intros (Ho & (Hs & Hn & Ht) & Hf & Hp). rewrite Hs. cbn [mbind result_bind]. rewrite Hn. cbn [mbind result_bind].
  rewrite (bool_decide_eq_true_2 (source_provenance e = source_provenance e)) by done.
  rewrite (bool_decide_eq_false_2 (file e ∈ cs_files st)) by done. cbn [mbind result_bind reject negb]. destruct exact.
  - destruct Ht as (t & Ht & Hfile & Hor). pose proof (paired_time_exact _ _ Ht) as Het. rewrite Ht, Het.
    cbn [mbind result_bind ok_or negb option_bind]. rewrite (bool_decide_eq_true_2 (file e = ordinal_file slot)) by done.
    cbn [mbind result_bind reject negb]. rewrite Hor. cbn [mbind result_bind ok_or].
    assert (match cs_origin st with Some expected => negb (origin =? expected) | None => false end = false) as ->.
    { destruct (cs_origin st) as [o|] eqn:E; [|done]. rewrite (Ho o) by done. by rewrite Z.eqb_refl. }
    assert (match cs_previous st with Some (lead, valid) => (lead_seconds t <=? lead) || (valid_unix t <=? valid) | None => false end = false) as ->.
    { destruct (cs_previous st) as [[l v]|]; [|done]. destruct (Hp (l, v) eq_refl t Het). simpl in *. lia. }
    cbn [mbind result_bind reject]. do 2 f_equal. destruct (cs_origin st) as [o|] eqn:E; [|done]. by rewrite (Ho o).
  - rewrite Ht. done.
Qed.

Definition entry_files (l : list (Z * RwsHourEntry)) : list string := (fun x => file x.2) <$> l.

Lemma elem_of_entry_state exact st x origin f :
  f ∉ cs_files (next_state exact st x origin) <-> f <> file x.2 /\ f ∉ cs_files st.
Proof. rewrite <- not_elem_of_cons. by destruct exact. Qed.

Lemma next_state_entries exact st x origin l :
  (forall f, f ∈ entry_files l -> f ∉ cs_files (next_state exact st x origin)) ->
  (forall f, f ∈ entry_files l -> f ∉ cs_files st) /\ file x.2 ∉ entry_files l.
Proof.
  intros H. split.
  - intros f Hf. by eapply elem_of_entry_state, H.
  - intros Hx%H%elem_of_entry_state. by destruct Hx.
Qed.

Lemma next_state_previous exact st x origin l :
  entry_ok exact origin x -> (forall p, cs_previous st = Some p -> time_after p x) ->
  (forall p, cs_previous (next_state exact st x origin) = Some p -> Forall (time_after p) l) <->
  (forall p, cs_previous st = Some p -> Forall (time_after p) l) /\ Forall (later x) l.
Proof.
  intros (_ & _ & Hx) Hp. destruct exact; simpl.
  - destruct Hx as (t & Ht%paired_time_exact & _). rewrite Ht. simpl. split.
    + intros H. specialize (H _ eq_refl). split.
      * intros p Ep. eapply list.Forall_impl; [exact H|]. intros y Hy ty Hty. specialize (Hy ty Hty).
        specialize (Hp p Ep t Ht). simpl in *. lia.
      * eapply list.Forall_impl; [exact H|]. intros y Hy t' Ht'. rewrite Ht in Ht'. by injection Ht' as <-.
    + intros [_ H] p [= <-]. eapply list.Forall_impl; [exact H|]. intros y Hy. by apply Hy.
  - apply paired_time_exact in Hx. split; [|by intros [H _]]. intros H. split; [done|].
    apply list.Forall_forall. intros y _ t Ht. by rewrite Hx in Ht.
Qed.

Lemma check_entries_iff exact l st : is_ok (rfold (check_entry exact) l st) <->
  exists origin, (forall o, exact = true -> l <> [] -> cs_origin st = Some o -> o = origin) /\ Forall (entry_ok exact origin) l
    /\ NoDup (entry_files l) /\ (forall f, f ∈ entry_files l -> f ∉ cs_files st)
    /\ (forall p, cs_previous st = Some p -> Forall (time_after p) l) /\ StronglySorted later l.
Proof.
  revert st. induction l as [|x l IH]; intros st.
  { split; [|by eexists]. intros _. exists 0. split_and!; try done; try constructor. intros f Hf. by apply not_elem_of_nil in Hf. }
  split.
  - intros [st2 H]. simpl in H. res_step H. apply check_entry_fits in E as (origin & (Ho & Hx & Hf & Hp) & ->).
    destruct (proj1 (IH _) (ex_intro _ _ H)) as (o2 & Ho2 & Hok & Hnd & Hfr & Hp2 & Hs).
    apply next_state_entries in Hfr as [Hfr Hnf]. exists origin. split_and!.
    + intros o Ee _. by apply Ho.
    + constructor; [done|]. destruct l as [|y l]; [constructor|]. destruct exact; [|done].
      by rewrite <- (Ho2 origin) in Hok.
    + apply NoDup_cons. done.
    + intros f [->|Hin]%elem_of_cons; [done|by apply Hfr].
    + intros p Ep. constructor; [by apply Hp|]. by apply (proj1 (next_state_previous _ _ _ _ _ Hx Hp)).
    + constructor; [done|]. by apply (proj1 (next_state_previous _ _ _ _ _ Hx Hp)).
  - intros (origin & Ho & Hok & Hnd & Hfr & Hp & Hs). inversion Hok as [|? ? Hx Hok']; subst. inversion Hs as [|? ? Hs' Hl]; subst.
    apply NoDup_cons in Hnd as [Hni Hnd].
    assert (forall p, cs_previous st = Some p -> time_after p x) as Hpx by (intros p Ep; by eapply Forall_inv, Hp).
    simpl. rewrite (check_entry_run exact st x origin).
    + simpl. apply IH. exists origin. split_and!; try done.
      * intros o -> _ [= <-]. done.
      * intros f Hf. apply elem_of_entry_state. split; [by intros ->|]. apply Hfr. by right.
      * apply next_state_previous; [done|done|]. split; [|done]. intros p Ep. by eapply Forall_inv_tail, Hp.
    + split_and!; try done; [intros o Ee; by apply Ho|]. apply Hfr. left.
Qed.

(** The contents of a valid manifest, in one place: a known schema, names that
    are single path components, a representable grid, and hours whose files
    are distinct and safe and whose provenance is in normal form. Hours of a
    whole-hour manifest carry no exact time; those of an exact-time manifest
    all have one, from a single origin, in the file of their slot, and
    increase strictly from slot to slot. *)
Record manifest_ok (m : RwsRunManifest) : Prop := {
  mo_schema : mf_schema m = SCHEMA_RUN \/ mf_schema m = SCHEMA_RUN_V2;
  mo_model : validate_store_component (mf_model m) = Ok tt;
  mo_run : validate_store_component (mf_run m) = Ok tt;
  mo_grid_hash : trim (mf_grid_hash m) <> EmptyString;
  mo_size : (0 < mf_nx m)%nat /\ (0 < mf_ny m)%nat /\ Z.of_nat (mf_nx m) * Z.of_nat (mf_ny m) <= MAX_GRID_CELLS;
  mo_hours : exists origin, Forall (entry_ok (is_exact_time_axis m) origin) (hours m);
  mo_files : NoDup (entry_files (hours m));
  mo_times : StronglySorted later (hours m)
}.

Lemma grid_bytes_ok m :
  is_ok (E := RwStoreError) (ok_or (cells ← checked_mul (mf_nx m) (mf_ny m);
           bytes ← checked_mul64 (Z.of_nat cells) 4;
           if bytes <=? MAX_GRID_COORD_RAW_BYTES then Some bytes else None)
         (Meta "manifest grid {}x{} exceeds the supported coordinate array size"))
  <-> Z.of_nat (mf_nx m) * Z.of_nat (mf_ny m) <= MAX_GRID_CELLS.
Proof.
  unfold checked_mul, checked_mul64, MAX_GRID_COORD_RAW_BYTES, usize_limit, u64_limit.
  assert (MAX_GRID_CELLS * 4 < 2 ^ 64) by done.
  set (a := Z.of_nat (mf_nx m) * Z.of_nat (mf_ny m)).
  destruct (a <? 2 ^ 64) eqn:E1; cbn [mbind option_bind]; [|split; [by intros [? ?]|lia]]. rewrite Nat2Z.inj_mul. fold a.
  destruct (a * 4 <? 2 ^ 64) eqn:E2; cbn [mbind option_bind]; [|split; [by intros [? ?]|lia]].
  destruct (a * 4 <=? MAX_GRID_CELLS * 4) eqn:E3; [split; [lia|by eexists]|split; [by intros [? ?]|lia]].
Qed.

Section saved.
Context `{ManifestJsonLaws}.

Lemma load_saved m content : save m = Ok content -> load (Regular content) = Ok m /\ validate_contents m = Ok tt.
Proof.
  unfold save, load, load_bounded. intros Hs. res_inv Hs. destruct a. res_clean. subst content.
  rewrite take_ge by lia. rewrite (proj2 (Z.ltb_ge _ _)) by lia. cbn [mbind result_bind reject].
  destruct (manifest_to_vec_pretty m) as [bs| |] eqn:Em; simpl in *; try done. injection E0 as <-.
  rewrite (manifest_json_roundtrip m bs Em). simpl. by rewrite E.
Qed.

Lemma saved_loads m content : save m = Ok content ->
  load (Regular content) = Ok m
  /\ load_for_run (Regular content) (mf_model m) (mf_run m) = Ok m
  /\ forall schema w, load_or_new_schema (Regular content) (mf_model m) (mf_run m) (mf_grid_hash m) (mf_nx m) (mf_ny m) w schema
      = if bool_decide (schema = mf_schema m) then Ok m else Err (Meta "existing manifest schema '{}' cannot be opened").
Proof.
  intros Hs. apply load_saved in Hs as [Hl Hv]. split; [done|].
  assert (validate_store_component (mf_model m) = Ok tt /\ validate_store_component (mf_run m) = Ok tt) as [Hm Hr].
  { unfold validate_contents in Hv. res_inv Hv. by destruct a0, a1. }
  assert (load_for_run (Regular content) (mf_model m) (mf_run m) = Ok m) as Hlr.
  { unfold load_for_run, validate_identity. rewrite Hm, Hr, Hl. cbn [mbind result_bind].
    rewrite !bool_decide_eq_true_2 by done. done. }
  split; [done|]. intros schema w. unfold load_or_new_schema, validate_grid. rewrite Hlr. cbn [mbind result_bind].
  rewrite (bool_decide_eq_true_2 (mf_grid_hash m = mf_grid_hash m)), (bool_decide_eq_true_2 (mf_nx m = mf_nx m)),
    (bool_decide_eq_true_2 (mf_ny m = mf_ny m)) by done. cbn [negb orb reject mbind result_bind].
  destruct (decide (schema = mf_schema m)) as [->|Hne].
  - by rewrite !bool_decide_eq_true_2.
  - rewrite (bool_decide_eq_false_2 (schema = _)), (bool_decide_eq_false_2 (mf_schema m = _)) by congruence. done.
Qed.
End saved.

Lemma valid_contents_ok m : validate_contents m = Ok tt <-> manifest_ok m.
Proof.
  pose proof (grid_bytes_ok m) as Hg. pose proof (check_entries_iff (is_exact_time_axis m) (hours m)
    {| cs_files := []; cs_previous := None; cs_origin := None |}) as Hh. unfold validate_contents.
  set (g := ok_or _ _) in *. split.
  - intros H. res_inv H. destruct a0, a1. res_clean. breflect.
    destruct (proj1 Hh (ex_intro _ _ eq_refl)) as (origin & _ & Hok & Hnd & _ & _ & Hs).
    split; try done.
    + destruct (decide (mf_schema m = SCHEMA_RUN)) as [|Hn]; [by left|right].
      rewrite (bool_decide_eq_false_2 _ Hn) in E. by apply negb_false_iff, bool_decide_eq_true in E.
    + split_and!; [lia|lia|]. apply Hg. by eexists.
    + by exists origin.
  - intros [Hsc Hm Hr Hgh (H1 & H2 & H3) [origin Hok] Hnd Hs].
    destruct (proj2 Hg H3) as [? ->]. destruct (proj2 Hh) as [? ->].
    { exists origin. split_and!; try done. intros f _ Hf. by apply not_elem_of_nil in Hf. }
    rewrite Hm, Hr, (bool_decide_eq_false_2 (trim (mf_grid_hash m) = EmptyString)) by done.
    rewrite (proj2 (Nat.eqb_neq (mf_nx m) 0)), (proj2 (Nat.eqb_neq (mf_ny m) 0)) by lia.
    assert (negb (bool_decide (mf_schema m = SCHEMA_RUN)) && negb (bool_decide (mf_schema m = SCHEMA_RUN_V2)) = false) as ->; [|done].
    apply andb_false_iff. rewrite !negb_false_iff, !bool_decide_eq_true. done.
Qed.

(** [RwsRunManifest::validate_contents] accepts exactly the manifests with
    the contents [manifest_ok] describes: for an exact-time manifest, one
    origin for all hours, both times strictly increasing from slot to slot,
    and the file of a slot named after it; for a whole-hour manifest, no exact
    times; for both, distinct file names that are single path components and
    provenance in normal form. *)
Theorem valid_manifest_iff m : validate_contents m = Ok tt <-> manifest_ok m.
Proof. apply valid_contents_ok. Qed.

(** C36: A manifest that was saved is the one that is loaded: by [load], by
    [load_for_run] for its own model and run, and by [load_or_new_schema] for
    its grid when the schema asked for is the one it has (another schema is
    refused, so whole-hour and exact-time slots never mix). In particular an
    hour registered before the save is found under its slot after the load,
    and no other slot is disturbed. *)
Theorem saved_manifest_loads `{ManifestJsonLaws} m slot e content :
  bmap_wf Z.compare (hours m) ->
  save (register_hour slot e m) = Ok content ->
  let m' := register_hour slot e m in
  load (Regular content) = Ok m'
  /\ load_for_run (Regular content) (mf_model m) (mf_run m) = Ok m'
  /\ (forall schema w, load_or_new_schema (Regular content) (mf_model m) (mf_run m) (mf_grid_hash m) (mf_nx m) (mf_ny m) w schema
        = if bool_decide (schema = mf_schema m) then Ok m' else Err (Meta "existing manifest schema '{}' cannot be opened"))
  /\ bmap_get Z.compare slot (hours m') = Some e
  /\ (forall other, other <> slot -> bmap_get Z.compare other (hours m') = bmap_get Z.compare other (hours m)).
Proof.
  intros Hwf Hsave m'. subst m'.
  pose proof (saved_loads (register_hour slot e m) content Hsave) as (Hl & Hr & Hn).
  split; [done|]. split; [exact Hr|]. split; [exact Hn|]. unfold register_hour, bmap_insert. cbn [hours]. split.
  - by apply (bmap_get_alter Z.compare).
  - intros other Ho. by apply (bmap_get_alter_ne Z.compare).
Qed.

Definition sample_entry (slot lead valid : Z) : RwsHourEntry :=
  {| file := ordinal_file slot; he_lead_seconds := Some lead; he_valid_unix := Some valid; written_unix := 1770000000;
     encode_ms := 10; he_variables := ["temp_2m"]; source_provenance := [] |}.
Definition sample_manifest : RwsRunManifest :=
  {| mf_schema := SCHEMA_RUN_V2; mf_model := "wrf"; mf_run := "research"; mf_grid_hash := "gridhash-test"; mf_nx := 2; mf_ny := 2;
     hours := [(0, sample_entry 0 0 1700000000)];
     mf_writer := {| wi_name := "rw-store"; wi_version := "0.1.0"; wi_build := "test" |} |}.

#[local] Instance RwsWriterInfo_eq_dec : EqDecision RwsWriterInfo.
Proof. solve_decision. Defined.
#[local] Instance RwsHourEntry_eq_dec : EqDecision RwsHourEntry.
Proof. solve_decision. Defined.
#[local] Instance RwsRunManifest_eq_dec : EqDecision RwsRunManifest.
Proof. solve_decision. Defined.

(** An encoding that knows one manifest. *)
Definition known_manifest : RwsRunManifest := register_hour 1 (sample_entry 1 1800 1700001800) sample_manifest.
Definition one_manifest_json : ManifestJson := {|
  manifest_to_vec_pretty := fun m => if bool_decide (m = known_manifest) then Ok [Byte.x7b; Byte.x7d] else Err (Meta "unknown");
  manifest_from_slice := fun bs => if bool_decide (bs = [Byte.x7b; Byte.x7d; Byte.x0a]) then Ok known_manifest else Err (Meta "unknown")
|}.
Lemma one_manifest_json_laws : @ManifestJsonLaws one_manifest_json.
Proof.
  split.
  - intros m bs. simpl. case_bool_decide as E; intros [= <-]. by rewrite E.
  - intros bs m. simpl. case_bool_decide as E; intros [= <-]. repeat constructor.
Qed.

Theorem saved_manifest_loads_witness :
  @load_for_run one_manifest_json (Regular [Byte.x7b; Byte.x7d; Byte.x0a]) "wrf" "research" = Ok known_manifest
  /\ bmap_get Z.compare 0 (hours known_manifest) = Some (sample_entry 0 0 1700000000).
Proof.
  destruct (@saved_manifest_loads one_manifest_json one_manifest_json_laws sample_manifest 1 (sample_entry 1 1800 1700001800)
    [Byte.x7b; Byte.x7d; Byte.x0a]) as (_ & H1 & _ & _ & H2).
  - repeat constructor.
  - vm_compute. reflexivity.
  - split; [exact H1|]. exact (H2 0 ltac:(lia)).
Defined.
