(* ===== verification/Ingest.v ===== *)
(** * Writing an hour into a run

    [crates/rw-store/src/ingest.rs]: the writer that turns extracted fields
    into the three files of a run directory, [grid.rwg], the hour file and
    [run.json], and the reads that put a stored field back together. It drives
    the components of the store: the grid file, the hour writer and reader,
    the manifest and the atomic replacement of files. *)
From Stdlib Require Import ZArith Lia Ascii String.
From stdpp Require Import base list strings numbers sorting gmap.
From S2P Require Import Prelude Atomic F32 Format Header Index Codec TileCache Writer Reader Concrete Opened Reader2D Field2D Reader3D Field3D Assembly RoundTrip ReadBack Text Order Ids Grid Cycle Models Profile Manifest.

Local Open Scope Z_scope.

(** ** Inputs *)

Record SelectedField2D := {
  sf_selector : FieldSelector;
  sf_units : string;
  sf_grid : LatLonGrid;
  sf_values : list f32;
  sf_projection : option GridProjection
}.

Record PressureVolumeInput `{JsonValue} := {
  pv_name : string;
  pv_units : string;
  pv_selector_template : Value;
  pv_levels : list (Z * list f32)     (* u16 levels *)
}.

Record DerivedFieldInput := { df_name : string; df_units : string; df_values : list f32 }.

Record WrittenHour := { wh_path : string; wh_encode_ms : Z; wh_bytes : Z; wh_vars : list string }.

(** The JSON of selectors: serde of [FieldSelector], the object
    [{"derived": slug}]. *)
Class SelectorJson `{JsonValue} := {
  selector_to_value : FieldSelector -> RwResult Value;
  selector_from_value : Value -> RwResult FieldSelector;
  derived_selector : string -> Value
}.
Class SelectorJsonLaws `{SelectorJson} := {
  selector_json_roundtrip : forall s v, selector_to_value s = Ok v -> selector_from_value v = Ok s
}.

(** ** A run directory *)

Abbreviation RunDir := (gmap string DirEntry).

(** What a path of the directory names; links are not followed. *)
Definition path_state (dir : RunDir) (name : string) : PathState :=
  match dir !! name with
  | None => Missing
  | Some (RegularFile content) => Regular content
  | Some _ => NotAFile
  end.

(** Code that reads and replaces files of the directory and may fail. *)
Definition dir_op (A : Type) : Type := RunDir -> RwResult A * RunDir.
#[global] Instance dir_ret : MRet dir_op := fun A a d => (Ok a, d).
#[global] Instance dir_bind : MBind dir_op := fun A B k op d =>
  match op d with
  | (Ok a, d') => k a d'
  | (Err e, d') => (Err e, d')
  | (Panic, d') => (Panic, d')
  end.
Definition pure_op {A} (x : RwResult A) : dir_op A := fun d => (x, d).
Definition get_dir : dir_op RunDir := fun d => (Ok d, d).
(** [atomic_write_bytes], with the faults of the file system. *)
Definition put_file `{WriteFaults} (name : string) (content : list byte) : dir_op unit := replace_entry name content.

Definition grid_name : string := "grid.rwg".
Definition manifest_name : string := "run.json".

(** ** The writer *)

Definition validated_grid_cells (nx ny : nat) : result string nat :=
  map_err (fun _ => "invalid grid"%string) (checked_len {| gs_nx := nx; gs_ny := ny |}).

Definition validated_volume_elements (levels cells : nat) : RwResult nat :=
  elements ← ok_or (checked_mul levels cells) (Format "volume '{}': {} levels x {} cells overflows the addressable element count");
  _ ← reject (MAX_VOLUME_ELEMENTS <? Z.of_nat elements) (Format "volume '{}': {} values exceeds the supported ceiling of {}");
  Ok elements.

(** [a.iter().zip(b).all(|(a, b)| a.to_bits() == b.to_bits())]. *)
Definition same_bits (a b : list f32) : bool := forallb (fun p => to_bits p.1 =? to_bits p.2) (zip a b).

Record HourIngestWriter `{JsonValue} := {
  iw_grid_hash : string;
  pending_grid : option (list byte);
  iw_nx : nat;
  iw_ny : nat;
  iw_cells : nat;
  iw_forecast_hour : Z;
  iw_exact_time : option RwsExactTime;
  iw_model : string;
  iw_run : string;
  iw_build : string;
  iw_writer : HourWriter;
  vars_normal : list string;
  vars_deferred : list string;
  iw_provenance : list RwsSourceProvenance
}.

Section ingest.
Context `{F32Ties, External, !GridExternal, !ManifestJson, !SelectorJson} {faults : WriteFaults}.

Definition set_writer (hw : HourWriter) (normal deferred : list string) (w : HourIngestWriter) : HourIngestWriter :=
  {| iw_grid_hash := iw_grid_hash w; pending_grid := pending_grid w; iw_nx := iw_nx w; iw_ny := iw_ny w; iw_cells := iw_cells w;
     iw_forecast_hour := iw_forecast_hour w; iw_exact_time := iw_exact_time w; iw_model := iw_model w; iw_run := iw_run w;
     iw_build := iw_build w; iw_writer := hw; vars_normal := normal; vars_deferred := deferred; iw_provenance := iw_provenance w |}.
Definition set_provenance (p : list RwsSourceProvenance) (w : HourIngestWriter) : HourIngestWriter :=
  {| iw_grid_hash := iw_grid_hash w; pending_grid := pending_grid w; iw_nx := iw_nx w; iw_ny := iw_ny w; iw_cells := iw_cells w;
     iw_forecast_hour := iw_forecast_hour w; iw_exact_time := iw_exact_time w; iw_model := iw_model w; iw_run := iw_run w;
     iw_build := iw_build w; iw_writer := iw_writer w; vars_normal := vars_normal w; vars_deferred := vars_deferred w; iw_provenance := p |}.

(** The grid of the run: the file that is there, which must be this grid bit
    for bit, or the bytes of a new one. A link in its place is outside the
    model. *)
Definition settle_grid (dir : RunDir) (grid : LatLonGrid) (proj : option GridProjection) : RwResult (string * option (list byte)) :=
  let nx := gs_nx (shape grid) in
  let ny := gs_ny (shape grid) in
  match dir !! grid_name with
  | Some (RegularFile content) =>
      existing ← grid_open content;
      _ ← reject (negb ((gf_nx existing =? nx)%nat && (gf_ny existing =? ny)%nat))
            (Meta "existing grid.rwg holds a {}x{} grid, but the input fields are on {}x{}");
      _ ← reject (negb (same_bits (lat existing) (lat_deg grid) && same_bits (lon existing) (lon_deg grid)))
            (Meta "existing grid.rwg ({}) and the input grid have the same {}x{} dims but different coordinates");
      Ok (hash existing, None)
  | Some _ => Err (Io "{0}")
  | None => '(bs, h) ← encode_grid_bytes grid proj; Ok (h, Some bs)
  end.

(** [begin_with_time], once the directory exists and its lock is held. *)
Definition begin_with_time (dir : RunDir) (model run : string) (storage_slot : Z) (exact_time : option RwsExactTime)
    (grid : LatLonGrid) (proj : option GridProjection) (build : string) : RwResult HourIngestWriter :=
  _ ← reject (match exact_time with Some t => negb (bool_decide (is_Some (origin_unix t))) | None => false end)
        (Meta "exact hour cannot represent valid_unix - lead_seconds");
  let nx := gs_nx (shape grid) in
  let ny := gs_ny (shape grid) in
  cells ← map_err Format.Grid (validated_grid_cells nx ny);
  _ ← reject (negb (length (lat_deg grid) =? cells)%nat || negb (length (lon_deg grid) =? cells)%nat)
        (Format.Grid "hour grid coordinate arrays must hold {} values ({} x {}), got lat {} / lon {}");
  '(h, pending) ← settle_grid dir grid proj;
  let hw := with_spill_dir run
              match exact_time with
              | Some time => hour_writer_new_exact model run storage_slot time nx ny h build
              | None => hour_writer_new model run storage_slot nx ny h build
              end in
  Ok {| iw_grid_hash := h; pending_grid := pending; iw_nx := nx; iw_ny := ny; iw_cells := cells; iw_forecast_hour := storage_slot;
        iw_exact_time := exact_time; iw_model := model; iw_run := run; iw_build := build; iw_writer := hw;
        vars_normal := []; vars_deferred := []; iw_provenance := [] |}.

Definition set_source_provenance (provenance : list RwsSourceProvenance) (w : HourIngestWriter) : RwResult HourIngestWriter :=
  p ← normalize_source_provenance provenance;
  Ok (set_provenance p w).

Definition add_field_2d (name units : string) (sel : Value) (values : list f32) (w : HourIngestWriter) : RwResult HourIngestWriter :=
  hw ← run_op (iw_writer w) (AddSurface name units sel values);
  Ok (set_writer hw (vars_normal w ++ [name]) (vars_deferred w) w).

Definition add_derived_2d (name units : string) (values : list f32) (w : HourIngestWriter) : RwResult HourIngestWriter :=
  _ ← reject (negb (length values =? iw_cells w)%nat) (Format "derived 2D field '{}': plane holds {} values, expected {} ({} x {})");
  hw ← run_op (iw_writer w) (AddSurface name units (derived_selector name) values);
  Ok (set_writer hw (vars_normal w ++ [name]) (vars_deferred w) w).

(** [sort_by(|a, b| b.0.cmp(&a.0))]. *)
Definition level_ge (a b : Z * list f32) : Prop := b.1 <= a.1.
#[global] Instance level_ge_dec : RelDecision level_ge.
Proof. intros a b. unfold level_ge. apply _. Defined.
Definition sort_levels (levels : list (Z * list f32)) : list (Z * list f32) := merge_sort level_ge levels.

Definition add_volume (name units : string) (selector_template : Value) (levels : list (Z * list f32)) (w : HourIngestWriter)
    : RwResult HourIngestWriter :=
  _ ← validated_volume_elements (length levels) (iw_cells w);
  let sorted := sort_levels levels in
  _ ← reject (existsb (fun pair => pair.1.1 =? pair.2.1) (windows2 sorted)) (Format "volume '{}': duplicate level {} hPa");
  _ ← reject (existsb (fun p => negb (length p.2 =? iw_cells w)%nat) sorted)
        (Format "volume '{}' level {} hPa: plane holds {} values, expected {} ({} x {})");
  hw ← run_op (iw_writer w) (AddDeferred name units selector_template sorted.*1 sorted.*2);
  Ok (set_writer hw (vars_normal w) (vars_deferred w ++ [name]) w).

(** The entry of the hour in the manifest. *)
Definition hour_entry (w : HourIngestWriter) (vars : list string) (written_unix encode_ms : Z) : RwsHourEntry :=
  {| file := ordinal_file (iw_forecast_hour w); he_lead_seconds := lead_seconds <$> iw_exact_time w;
     he_valid_unix := valid_unix <$> iw_exact_time w; written_unix := written_unix; encode_ms := encode_ms;
     he_variables := vars; source_provenance := iw_provenance w |}.

(** The manifest of the run, and the refusal to give a slot another time. *)
Definition load_manifest (w : HourIngestWriter) (dir : RunDir) : RwResult RwsRunManifest :=
  let info := {| wi_name := "rw-store"; wi_version := CARGO_PKG_VERSION; wi_build := iw_build w |} in
  let path := path_state dir manifest_name in
  manifest ← match iw_exact_time w with
             | Some _ => load_or_new_exact path (iw_model w) (iw_run w) (iw_grid_hash w) (iw_nx w) (iw_ny w) info
             | None => load_or_new path (iw_model w) (iw_run w) (iw_grid_hash w) (iw_nx w) (iw_ny w) info
             end;
  _ ← match iw_exact_time w, bmap_get Z.compare (iw_forecast_hour w) (hours manifest) with
      | Some requested, Some existing =>
          persisted ← ok_or (entry_exact_time existing) (Meta "existing exact-time storage slot {} has no complete physical time");
          reject (negb ((lead_seconds persisted =? lead_seconds requested) && (valid_unix persisted =? valid_unix requested)))
            (Meta "refusing to remap exact-time storage slot {}")
      | _, _ => Ok tt
      end;
  Ok manifest.

(** [finish]; [encode_ms] is the time that was measured. *)
Definition ingest_finish (w : HourIngestWriter) (written_unix encode_ms : Z) : dir_op WrittenHour :=
  let file_name := ordinal_file (iw_forecast_hour w) in
  let vars := vars_normal w ++ vars_deferred w in
  dir ← get_dir;
  manifest ← pure_op (load_manifest w dir);
  let manifest := register_hour (iw_forecast_hour w) (hour_entry w vars written_unix 0) manifest in
  _ ← pure_op (validate_contents manifest);
  _ ← match pending_grid w with Some bs => put_file grid_name bs | None => mret tt end;
  '(content, hour_meta) ← pure_op (finish (iw_writer w));
  _ ← put_file file_name content;
  let manifest := register_hour (iw_forecast_hour w) (hour_entry w vars written_unix encode_ms) manifest in
  _ ← pure_op (manifest_validate_hour_meta manifest (iw_forecast_hour w) hour_meta);
  saved ← pure_op (save manifest);
  _ ← put_file manifest_name saved;
  mret {| wh_path := file_name; wh_encode_ms := encode_ms; wh_bytes := Z.of_nat (length content); wh_vars := vars |}.

(** ** Whole hours *)

(** The checks of one extracted field against the grid of the hour. *)
Definition check_field (reference : LatLonGrid) (cells : nat) (field : string * SelectedField2D) : RwResult unit :=
  let g := sf_grid field.2 in
  _ ← reject (negb ((gs_nx (shape g) =? gs_nx (shape reference))%nat && (gs_ny (shape g) =? gs_ny (shape reference))%nat))
        (Format "2D field '{}': grid {}x{} does not match the hour grid {}x{}");
  reject (negb ((length (lat_deg g) =? cells)%nat && (length (lon_deg g) =? cells)%nat
                && same_bits (lat_deg g) (lat_deg reference) && same_bits (lon_deg g) (lon_deg reference)))
    (Format "2D field '{}': same {}x{} dims as the first field '{}' but different coordinates").

Definition check_derived (cells : nat) (d : DerivedFieldInput) : RwResult unit :=
  reject (negb (length (df_values d) =? cells)%nat) (Format "derived 2D field '{}': plane holds {} values, expected {} ({} x {})").

(** The adds of one hour, in the order of the loops. *)
Definition add_all (fields_2d : list (string * SelectedField2D)) (derived_2d : list DerivedFieldInput) (volumes : list PressureVolumeInput)
    (w : HourIngestWriter) : RwResult HourIngestWriter :=
  w ← rfold (fun w field =>
        sel ← map_err (fun _ => Meta "2D field '{}': selector JSON: {}") (selector_to_value (sf_selector field.2));
        add_field_2d field.1 (sf_units field.2) sel (sf_values field.2) w) fields_2d w;
  w ← rfold (fun w d => add_derived_2d (df_name d) (df_units d) (df_values d) w) derived_2d w;
  rfold (fun w v => add_volume (pv_name v) (pv_units v) (pv_selector_template v) (pv_levels v) w) volumes w.

(** [write_hour_from_grid_with_derived_time]. *)
Definition write_hour_from_grid_with_derived_time (model run : string) (storage_slot : Z) (exact_time : option RwsExactTime)
    (reference : LatLonGrid) (proj : option GridProjection) (fields_2d : list (string * SelectedField2D))
    (derived_2d : list DerivedFieldInput) (volumes : list PressureVolumeInput) (build : string) (written_unix encode_ms : Z) : dir_op WrittenHour :=
  _ ← pure_op (reject (bool_decide (fields_2d = []) && bool_decide (derived_2d = []) && match volumes with [] => true | _ => false end)
        (Format "write_hour requires at least one 2-D field, derived plane, or pressure volume"));
  cells ← pure_op (map_err Format (validated_grid_cells (gs_nx (shape reference)) (gs_ny (shape reference))));
  _ ← pure_op (reject (negb (length (lat_deg reference) =? cells)%nat || negb (length (lon_deg reference) =? cells)%nat)
        (Format "hour grid coordinate arrays must hold {} values ({} x {}), got lat {} / lon {}"));
  _ ← pure_op (rfold (fun _ field => check_field reference cells field) fields_2d tt);
  _ ← pure_op (rfold (fun _ d => check_derived cells d) derived_2d tt);
  dir ← get_dir;
  w ← pure_op (begin_with_time dir model run storage_slot exact_time reference proj build);
  w ← pure_op (add_all fields_2d derived_2d volumes w);
  ingest_finish w written_unix encode_ms.

(** [write_hour_from_fields_with_derived_time] and its callers: the grid is
    that of the first field. *)
Definition write_hour_from_fields_with_derived_time (model run : string) (storage_slot : Z) (exact_time : option RwsExactTime)
    (fields_2d : list (string * SelectedField2D)) (derived_2d : list DerivedFieldInput) (volumes : list PressureVolumeInput)
    (build : string) (written_unix encode_ms : Z) : dir_op WrittenHour :=
  match fields_2d with
  | [] => pure_op (Err (Format "write_hour_from_fields requires at least one extracted 2D field to carry the grid"))
  | (_, first) :: _ =>
      write_hour_from_grid_with_derived_time model run storage_slot exact_time (sf_grid first) (sf_projection first)
        fields_2d derived_2d volumes build written_unix encode_ms
  end.
Definition write_hour_from_fields (model run : string) (forecast_hour : Z) (fields_2d : list (string * SelectedField2D))
    (volumes : list PressureVolumeInput) (build : string) (written_unix encode_ms : Z) : dir_op WrittenHour :=
  write_hour_from_fields_with_derived_time model run forecast_hour None fields_2d [] volumes build written_unix encode_ms.
Definition write_hour_from_fields_exact (model run : string) (storage_slot : Z) (exact_time : RwsExactTime)
    (fields_2d : list (string * SelectedField2D)) (volumes : list PressureVolumeInput) (build : string) (written_unix encode_ms : Z)
    : dir_op WrittenHour :=
  write_hour_from_fields_with_derived_time model run storage_slot (Some exact_time) fields_2d [] volumes build written_unix encode_ms.

(** ** Reading back *)

Record StoredField2D := {
  st_units : string;
  st_selector : Value;
  st_grid : LatLonGrid;
  st_values : list f32;
  st_projection : option GridProjection
}.

Definition read_grid_2d (r : HourReader) (g : GridFile) (name : string) : RwResult StoredField2D :=
  var ← ok_or (variable r name) (UnknownVariable name);
  _ ← reject (negb (bool_decide (var_kind var = "surface2d"))) (Format "variable '{}' has kind '{}', expected 'surface2d'");
  _ ← reject (negb (bool_decide (grid_hash (r_meta r) = hash g)))
        (Format.Grid "hour file was written against grid {} but the supplied grid file is {}");
  values ← read_full_2d r name;
  shape ← map_err (fun _ => Format.Grid "stored grid shape is invalid: {err}") (grid_shape_new (gf_nx g) (gf_ny g));
  Ok {| st_units := var_units var; st_selector := selector var;
        st_grid := {| shape := shape; lat_deg := lat g; lon_deg := lon g |};
        st_values := values; st_projection := projection g |}.

Definition read_field_2d (r : HourReader) (g : GridFile) (name : string) : RwResult SelectedField2D :=
  stored ← read_grid_2d r g name;
  sel ← map_err (fun _ => Meta "variable '{}': selector JSON: {}") (selector_from_value (st_selector stored));
  Ok {| sf_selector := sel; sf_units := st_units stored; sf_grid := st_grid stored; sf_values := st_values stored;
        sf_projection := st_projection stored |}.
End ingest.

(** ** Lemmas *)

Lemma same_bits_eq a b : length a = length b -> same_bits a b = true -> a = b.
Proof.
  revert b. induction a as [|x a IH]; intros [|y b] Hl; try done. unfold same_bits. cbn. intros [E Hr]%andb_true_iff.
  apply Z.eqb_eq, to_bits_inj in E as ->. f_equal. apply IH; [by injection Hl|done].
Qed.

(** One step of a [dir_op]. *)
Lemma dir_pure_inv {A B} (x : RwResult A) (k : A -> dir_op B) d b d' :
  mbind (M := dir_op) k (pure_op x) d = (Ok b, d') -> exists a, x = Ok a /\ k a d = (Ok b, d').
Proof. unfold mbind, dir_bind, pure_op. destruct x; [|done..]. eauto. Qed.

Lemma dir_pure_cases {A B} (x : RwResult A) (k : A -> dir_op B) d r d' :
  mbind (M := dir_op) k (pure_op x) d = (r, d') -> (d' = d /\ (forall b, r <> Ok b)) \/ exists a, x = Ok a /\ k a d = (r, d').
Proof. unfold mbind, dir_bind, pure_op. destruct x as [a|e|]; [eauto|intros [= <- <-]; by left..]. Qed.

Lemma put_file_ok `{WriteFaults} name content d d' : put_file name content d = (Ok tt, d') -> d' = <[name := RegularFile content]> d.
Proof. intros E. by apply (replace_ok _ _ _ _ _ E). Qed.

Lemma dir_bind_inv {A B} (op : dir_op A) (k : A -> dir_op B) d b d' :
  mbind (M := dir_op) k op d = (Ok b, d') -> exists a d1, op d = (Ok a, d1) /\ k a d1 = (Ok b, d').
Proof. unfold mbind, dir_bind. destruct (op d) as [[a| |] d1]; [|done..]. eauto. Qed.

(** Operations that leave a set of names alone, whatever they return. *)
Definition keeps {A} (P : string -> Prop) (op : dir_op A) : Prop := forall d r d', op d = (r, d') -> forall n, P n -> d' !! n = d !! n.
Lemma keeps_bind {A B} P (op : dir_op A) (k : A -> dir_op B) : keeps P op -> (forall a, keeps P (k a)) -> keeps P (mbind (M := dir_op) k op).
Proof.
  intros Ho Hk d r d'. unfold mbind, dir_bind. destruct (op d) as [[a|e|] d1] eqn:E; intros E2 n Hn; [|injection E2 as _ <-; by eapply Ho..].
  rewrite (Hk _ _ _ _ E2 n Hn). by eapply Ho.
Qed.
Lemma keeps_pure {A} P (x : RwResult A) : keeps P (pure_op x).
Proof. intros d r d' [= _ <-]. done. Qed.
Lemma keeps_ret {A} P (a : A) : keeps P (mret (M := dir_op) a).
Proof. intros d r d' [= _ <-]. done. Qed.
Lemma keeps_get P : keeps P get_dir.
Proof. intros d r d' [= _ <-]. done. Qed.
Lemma keeps_put `{WriteFaults} (P : string -> Prop) name content : ~ P name -> (forall n, P n -> ~ temporary n) -> keeps P (put_file name content).
Proof. intros Hp Ht d r d' E n Hn. apply (replace_frame _ _ _ _ _ E); [by intros ->|by apply Ht]. Qed.

(** Two versions of an operation: what the first does when it succeeds, the
    second does too. *)
Definition follows {A} (op op0 : dir_op A) : Prop := forall d a d', op d = (Ok a, d') -> op0 d = (Ok a, d').
(** When the first fails, a set of names is left alone, or the directory is
    the one the second leaves when it succeeds. *)
Definition all_or_nothing {A} (P : string -> Prop) (op op0 : dir_op A) : Prop := forall d r d', op d = (r, d') -> (forall a, r <> Ok a) ->
  (forall n, P n -> d' !! n = d !! n) \/ exists a, op0 d = (Ok a, d').

Lemma follows_same {A} (op : dir_op A) : follows op op.
Proof. by intros d a d'. Qed.
Lemma follows_put `{WriteFaults} name content : follows (put_file name content) (put_file (H := no_faults) name content).
Proof.
  intros d [] d' E. destruct (replace_ok _ _ _ _ _ E eq_refl) as [-> Hd]. unfold put_file. by rewrite (replace_faultless (H0 := no_faults_faultless)).
Qed.
Lemma all_or_nothing_pure {A} P (x : RwResult A) op0 : all_or_nothing P (pure_op x) op0.
Proof. intros d r d' [= _ <-] _. by left. Qed.
Lemma all_or_nothing_bind {A B} P (op op0 : dir_op A) (k k0 : A -> dir_op B) : keeps P op -> follows op op0 -> (forall a, all_or_nothing P (k a) (k0 a)) ->
  all_or_nothing P (mbind (M := dir_op) k op) (mbind (M := dir_op) k0 op0).
Proof.
  intros Hp Hf Hk d r d'. unfold mbind, dir_bind. destruct (op d) as [[a|e|] d1] eqn:E; intros E2 Hr; [|injection E2 as _ <-; left; by eapply Hp..].
  rewrite (Hf _ _ _ E). destruct (Hk a _ _ _ E2 Hr) as [H|H]; [left|by right]. intros n Hn. rewrite (H n Hn). by eapply Hp.
Qed.
(** The last replacement: its file is there when only the sync of the
    directory failed. *)
Lemma all_or_nothing_last_put `{WriteFaults} (P : string -> Prop) name content {A} (a : A) : (forall n, P n -> ~ temporary n) ->
  all_or_nothing P (mbind (M := dir_op) (fun _ => mret a) (put_file name content)) (mbind (M := dir_op) (fun _ => mret a) (put_file (H := no_faults) name content)).
Proof.
  intros Ht d r d' E _. unfold mbind, dir_bind in *. destruct (put_file name content d) as [x d1] eqn:E1.
  assert (d1 = d') as -> by (destruct x; by injection E as _ <-).
  destruct (replace_cases _ _ _ _ _ E1) as [(-> & Hd & _)|(_ & l & ->)]; [right|left; intros n Hn; by apply leave_temp_other, Ht].
  exists a. unfold put_file. by rewrite (replace_faultless (H0 := no_faults_faultless)).
Qed.
Create HintDb dir_keeps.
#[export] Hint Resolve keeps_bind keeps_pure keeps_ret keeps_get keeps_put follows_same follows_put all_or_nothing_pure all_or_nothing_bind
  all_or_nothing_last_put : dir_keeps.

Lemma ordinal_not_grid slot : ordinal_file slot <> grid_name.
Proof. unfold ordinal_file, grid_name. intros E. apply (f_equal (head ∘ bytes)) in E. unfold compose in E. rewrite bytes_of_bytes in E. discriminate. Qed.
Lemma ordinal_not_manifest slot : ordinal_file slot <> manifest_name.
Proof. unfold ordinal_file, manifest_name. intros E. apply (f_equal (head ∘ bytes)) in E. unfold compose in E. rewrite bytes_of_bytes in E. discriminate. Qed.
Lemma grid_not_manifest : grid_name <> manifest_name.
Proof. done. Qed.

Section facts.
Context `{F32Ties, External, !ExternalLaws, !GridExternal, !GridExternalLaws, !ManifestJson, !ManifestJsonLaws, !SelectorJson, !SelectorJsonLaws} {faults : WriteFaults}.

(** *** The grid *)

(** The grid the write refers to: the file that is there and holds exactly
    this grid, or the bytes to write. *)
Definition grid_settled (dir : RunDir) (grid : LatLonGrid) (proj : option GridProjection) (h : string) (pending : option (list byte)) : Prop :=
  match pending with
  | None => exists content g, dir !! grid_name = Some (RegularFile content) /\ grid_open content = Ok g /\ hash g = h
      /\ gf_nx g = gs_nx (shape grid) /\ gf_ny g = gs_ny (shape grid) /\ lat g = lat_deg grid /\ lon g = lon_deg grid
  | Some bs => dir !! grid_name = None /\ encode_grid_bytes grid proj = Ok (bs, h)
  end.

Lemma settle_grid_inv dir grid proj h pending :
  length (lat_deg grid) = (gs_nx (shape grid) * gs_ny (shape grid))%nat -> length (lon_deg grid) = (gs_nx (shape grid) * gs_ny (shape grid))%nat ->
  settle_grid dir grid proj = Ok (h, pending) -> grid_settled dir grid proj h pending.
Proof.
  intros Hla Hlo. unfold settle_grid. destruct (dir !! grid_name) as [[content| | |]|] eqn:Eg; try done.
  - intros E. bind_step E Eo. rename a into g. bind_step E Ed. bind_step E Ec. injection E as <- <-.
    apply reject_inv, negb_false_iff, andb_true_iff in Ed as [Ex%Nat.eqb_eq Ey%Nat.eqb_eq].
    apply reject_inv, negb_false_iff, andb_true_iff in Ec as [El1 El2].
    destruct (open_ok _ _ Eo) as ((_ & _ & _ & L1 & L2) & _). rewrite Ex, Ey in L1, L2.
    exists content, g. split_and!; try done; apply same_bits_eq; congruence.
  - intros E. bind_step E Ee. destruct a as [bs h']. injection E as <- <-. done.
Qed.

Lemma grid_cells_inv nx ny cells : validated_grid_cells nx ny = Ok cells -> cells = (nx * ny)%nat /\ (0 < nx)%nat /\ (0 < ny)%nat
  /\ Z.of_nat cells <= MAX_GRID_CELLS.
Proof.
  unfold validated_grid_cells, checked_len. cbn [gs_nx gs_ny]. intros E. destruct (_ ≫= _) as [c| |] eqn:E'; [|done..]. injection E as ->.
  res_inv E'. res_clean. breflect. subst. lia.
Qed.

(** *** The writer of the hour *)

Definition writer_of (model run : string) (slot : Z) (t : option RwsExactTime) (grid : LatLonGrid) (h build : string) : HourWriter :=
  new_with_time model run slot t (gs_nx (shape grid)) (gs_ny (shape grid)) h build.

Lemma begin_inv dir model run slot t grid proj build w : begin_with_time dir model run slot t grid proj build = Ok w ->
  grid_settled dir grid proj (iw_grid_hash w) (pending_grid w)
  /\ length (lat_deg grid) = (gs_nx (shape grid) * gs_ny (shape grid))%nat /\ length (lon_deg grid) = (gs_nx (shape grid) * gs_ny (shape grid))%nat
  /\ iw_nx w = gs_nx (shape grid) /\ iw_ny w = gs_ny (shape grid) /\ iw_cells w = (gs_nx (shape grid) * gs_ny (shape grid))%nat
  /\ Z.of_nat (iw_cells w) <= MAX_GRID_CELLS /\ (0 < iw_nx w)%nat /\ (0 < iw_ny w)%nat
  /\ iw_forecast_hour w = slot /\ iw_exact_time w = t /\ iw_model w = model /\ iw_run w = run /\ iw_build w = build
  /\ iw_writer w = with_spill_dir run (writer_of model run slot t grid (iw_grid_hash w) build)
  /\ vars_normal w = [] /\ vars_deferred w = [] /\ iw_provenance w = [].
Proof.
  unfold begin_with_time. intros E. bind_step E E1. bind_step E E2. bind_step E E3. bind_step E E4. destruct a2 as [h pending].
  destruct (validated_grid_cells _ _) as [c| |] eqn:Ec; [|done..]. injection E2 as ->. apply grid_cells_inv in Ec as (-> & Hx & Hy & Hm).
  apply reject_inv, orb_false_iff in E3 as [L1%negb_false_iff%Nat.eqb_eq L2%negb_false_iff%Nat.eqb_eq].
  injection E as <-. cbn. split_and!; try done. { by apply settle_grid_inv. } by destruct t.
Qed.

(** What the adds did: the writer ran these operations, and the names are
    recorded in the order of the file. *)
Record added (w0 : HourIngestWriter) (ops : list AddOp) (w : HourIngestWriter) : Prop := {
  ad_run : run_ops ops (iw_writer w0) = Ok (iw_writer w);
  ad_same : w = set_writer (iw_writer w) (vars_normal w) (vars_deferred w) w0;
  ad_vars : vars_normal w ++ vars_deferred w = op_name <$> final_ops ops;
  ad_normal : vars_normal w = op_name <$> normals ops
}.

Lemma added_nil w : vars_normal w = [] -> vars_deferred w = [] -> added w [] w.
Proof. intros Hn Hd. split; [done|by destruct w|by rewrite Hn, Hd|done]. Qed.

Lemma added_snoc w0 ops w op hw : added w0 ops w -> run_op (iw_writer w) op = Ok hw ->
  added w0 (ops ++ [op])
    (if is_deferred op then set_writer hw (vars_normal w) (vars_deferred w ++ [op_name op]) w
     else set_writer hw (vars_normal w ++ [op_name op]) (vars_deferred w) w).
Proof.
  intros [Hr Hs Hv Hn] Ho. assert (Hd : vars_deferred w = op_name <$> deferreds ops).
  { unfold final_ops in Hv. rewrite Hn, fmap_app in Hv. by apply app_inv_head in Hv. }
  assert (Hr' : run_ops (ops ++ [op]) (iw_writer w0) = Ok hw).
  { unfold run_ops in *. rewrite rfold_app, Hr. cbn. by rewrite Ho. }
  destruct (is_deferred op) eqn:E; (split; [exact Hr'|rewrite Hs; done|..]); cbn [vars_normal vars_deferred set_writer];
    unfold final_ops; rewrite normals_snoc, ?deferreds_snoc, E, ?fmap_app; cbn; rewrite ?Hn, ?Hd, ?app_assoc; done.
Qed.

(** A loop of adds, each of which is one operation on the writer. *)
Definition adds_one {X} (step : HourIngestWriter -> X -> RwResult HourIngestWriter) (R : X -> AddOp -> Prop) : Prop :=
  forall w x w', step w x = Ok w' -> exists op hw, R x op /\ run_op (iw_writer w) op = Ok hw
    /\ w' = if is_deferred op then set_writer hw (vars_normal w) (vars_deferred w ++ [op_name op]) w
            else set_writer hw (vars_normal w ++ [op_name op]) (vars_deferred w) w.

Lemma rfold_added {X} (step : HourIngestWriter -> X -> RwResult HourIngestWriter) R xs w0 ops w w' : adds_one step R ->
  added w0 ops w -> rfold step xs w = Ok w' -> exists ops', Forall2 R xs ops' /\ added w0 (ops ++ ops') w'.
Proof.
  intros Hone. revert ops w. induction xs as [|x xs IH]; intros ops w Ha; cbn [rfold].
  - intros [= <-]. exists []. split; [constructor|]. by rewrite app_nil_r.
  - intros E. bind_step E Ex. apply Hone in Ex as (op & hw & HR & Ho & ->).
    apply (IH (ops ++ [op])) in E as (ops' & HF & Ha'); [|by apply added_snoc].
    exists (op :: ops'). split; [by constructor|]. by rewrite <- app_assoc in Ha'.
Qed.

Definition field_op (f : string * SelectedField2D) (op : AddOp) : Prop :=
  exists sel, selector_to_value (sf_selector f.2) = Ok sel /\ op = AddSurface f.1 (sf_units f.2) sel (sf_values f.2).
Definition derived_op (d : DerivedFieldInput) (op : AddOp) : Prop :=
  op = AddSurface (df_name d) (df_units d) (derived_selector (df_name d)) (df_values d).
Definition volume_op (v : PressureVolumeInput) (op : AddOp) : Prop :=
  op = AddDeferred (pv_name v) (pv_units v) (pv_selector_template v) (sort_levels (pv_levels v)).*1 (sort_levels (pv_levels v)).*2.

Lemma add_field_one : adds_one (fun w (field : string * SelectedField2D) =>
  sel ← map_err (fun _ => Meta "2D field '{}': selector JSON: {}") (selector_to_value (sf_selector field.2));
  add_field_2d field.1 (sf_units field.2) sel (sf_values field.2) w) field_op.
Proof.
  intros w [name f] w' E. cbn [fst snd] in E. bind_step E Es. destruct (selector_to_value (sf_selector f)) as [sel| |] eqn:Ej; [|done..].
  injection Es as ->. unfold add_field_2d in E. bind_step E Er. injection E as <-. do 2 eexists. split; [by exists a|]. split; [exact Er|done].
Qed.
Lemma add_derived_one : adds_one (fun w d => add_derived_2d (df_name d) (df_units d) (df_values d) w) derived_op.
Proof.
  intros w x w' E. unfold add_derived_2d in E. bind_step E Es. bind_step E Er. injection E as <-. do 2 eexists. split; [done|]. split; [exact Er|done].
Qed.
Lemma add_volume_one : adds_one (fun w v => add_volume (pv_name v) (pv_units v) (pv_selector_template v) (pv_levels v) w) volume_op.
Proof.
  intros w x w' E. unfold add_volume in E. bind_step E E1. bind_step E E2. bind_step E E3. bind_step E Er. injection E as <-.
  do 2 eexists. split; [done|]. split; [exact Er|done].
Qed.

Lemma add_all_inv fields derived volumes w0 w : vars_normal w0 = [] -> vars_deferred w0 = [] -> add_all fields derived volumes w0 = Ok w ->
  exists fo dop vo, Forall2 field_op fields fo /\ Forall2 derived_op derived dop /\ Forall2 volume_op volumes vo /\ added w0 (fo ++ dop ++ vo) w.
Proof.
  intros Hn Hd. unfold add_all. intros E. bind_step E E1. bind_step E E2.
  pose proof (added_nil w0 Hn Hd) as A0.
  destruct (rfold_added _ field_op fields w0 [] w0 a add_field_one A0 E1) as (fo & Hf & A1).
  destruct (rfold_added _ derived_op derived w0 _ a a0 add_derived_one A1 E2) as (dop & Hdo & A2).
  destruct (rfold_added _ volume_op volumes w0 _ a0 w add_volume_one A2 E) as (vo & Hv & A3).
  exists fo, dop, vo. split_and!; try done. by rewrite app_assoc.
Qed.

(** *** The manifest *)

Lemma load_sorted path m : load path = Ok m -> bmap_wf Z.compare (hours m).
Proof.
  unfold load, load_bounded. intros E. bind_step E El. bind_step E Ev. injection E as <-. destruct path as [| |content]; try done.
  bind_step El E1. bind_step El E2. destruct (manifest_from_slice _) as [m| |] eqn:Ej; [|done..]. injection El as ->. by eapply manifest_hours_sorted.
Qed.

Lemma load_or_new_inv path model run h nx ny info sch m : load_or_new_schema path model run h nx ny info sch = Ok m ->
  mf_model m = model /\ mf_run m = run /\ mf_grid_hash m = h /\ mf_nx m = nx /\ mf_ny m = ny /\ bmap_wf Z.compare (hours m)
  /\ match path with Missing => hours m = [] | _ => load_for_run path model run = Ok m end.
Proof.
  assert (Hold : forall p, (manifest ← load_for_run p model run; _ ← validate_grid manifest h nx ny;
      _ ← reject (negb (bool_decide (mf_schema manifest = sch))) (Meta "existing manifest schema '{}' cannot be opened"); Ok manifest) = Ok m ->
    mf_model m = model /\ mf_run m = run /\ mf_grid_hash m = h /\ mf_nx m = nx /\ mf_ny m = ny /\ bmap_wf Z.compare (hours m)
    /\ load_for_run p model run = Ok m).
  { intros p E. bind_step E El. bind_step E Eg. bind_step E Es. injection E as ->. clear Es.
    unfold validate_grid in Eg. apply reject_inv in Eg. rewrite !orb_false_iff, !negb_false_iff, !bool_decide_eq_true in Eg. destruct Eg as [[-> ->] ->].
    unfold load_for_run in El. bind_step El E1. bind_step El E2. bind_step El E3. bind_step El E4. injection El as ->.
    unfold validate_identity in E4. bind_step E4 E5. bind_step E4 E6. apply reject_inv in E4.
    rewrite !orb_false_iff, !negb_false_iff, !bool_decide_eq_true in E4. destruct E4 as [-> ->]. split_and!; try done. by eapply load_sorted. }
  unfold load_or_new_schema. destruct path as [| |content]; [|apply Hold..].
  intros E. bind_step E Ev. injection E as <-. cbn. split_and!; try done. constructor.
Qed.

Lemma load_manifest_inv w dir m : load_manifest w dir = Ok m ->
  mf_model m = iw_model w /\ mf_run m = iw_run w /\ mf_grid_hash m = iw_grid_hash w /\ mf_nx m = iw_nx w /\ mf_ny m = iw_ny w
  /\ bmap_wf Z.compare (hours m)
  /\ match path_state dir manifest_name with Missing => hours m = [] | p => load_for_run p (iw_model w) (iw_run w) = Ok m end.
Proof.
  unfold load_manifest. intros E. bind_step E El. bind_step E Ex. injection E as <-.
  destruct (iw_exact_time w); apply load_or_new_inv in El; by destruct (path_state dir manifest_name).
Qed.

(** *** Finishing *)

(** The manifest that [finish] saves. *)
Definition new_manifest (w : HourIngestWriter) (written_unix encode_ms : Z) (m : RwsRunManifest) : RwsRunManifest :=
  let vars := vars_normal w ++ vars_deferred w in
  register_hour (iw_forecast_hour w) (hour_entry w vars written_unix encode_ms)
    (register_hour (iw_forecast_hour w) (hour_entry w vars written_unix 0) m).

Lemma finish_inv w wu ms dir written dir' : ingest_finish w wu ms dir = (Ok written, dir') ->
  exists m content meta saved, load_manifest w dir = Ok m /\ finish (iw_writer w) = Ok (content, meta)
    /\ (exists entry, manifest_validate_hour_meta (new_manifest w wu ms m) (iw_forecast_hour w) meta = Ok entry)
    /\ save (new_manifest w wu ms m) = Ok saved
    /\ dir' = <[manifest_name := RegularFile saved]> (<[ordinal_file (iw_forecast_hour w) := RegularFile content]>
                 (match pending_grid w with Some bs => <[grid_name := RegularFile bs]> dir | None => dir end)).
Proof.
  unfold ingest_finish. intros E. apply dir_bind_inv in E as (d0 & d0' & [= <- <-] & E).
  apply dir_pure_inv in E as (m & Hm & E). apply dir_pure_inv in E as (u & _ & E).
  apply dir_bind_inv in E as (u1 & d1 & Hg & E).
  assert (d1 = match pending_grid w with Some bs => <[grid_name := RegularFile bs]> dir | None => dir end) as ->.
  { destruct (pending_grid w); [destruct u1; by apply put_file_ok|by injection Hg]. }
  apply dir_pure_inv in E as ([content meta] & Hf & E). apply dir_bind_inv in E as ([] & d2 & Hp2%put_file_ok & E).
  apply dir_pure_inv in E as (entry & Hv & E). apply dir_pure_inv in E as (saved & Hs & E).
  apply dir_bind_inv in E as ([] & d3 & Hp3%put_file_ok & E). injection E as _ <-.
  exists m, content, meta, saved. subst. split_and!; try done. by exists entry.
Qed.

(** *** Reading a stored field *)

Lemma open_shape g : grid_ok g -> grid_shape_new (gf_nx g) (gf_ny g) = Ok {| gs_nx := gf_nx g; gs_ny := gf_ny g |}.
Proof.
  intros (Hx & Hy & Hm & _). unfold grid_shape_new, checked_len. cbn [gs_nx gs_ny].
  rewrite (proj2 (Nat.eqb_neq (gf_nx g) 0)), (proj2 (Nat.eqb_neq (gf_ny g) 0)) by lia. cbn [orb reject mbind result_bind].
  assert (MAX_GRID_CELLS < usize_limit) by done. unfold checked_mul. rewrite <- Nat2Z.inj_mul, (proj2 (Z.ltb_lt _ _)) by lia. cbn [ok_or mbind result_bind].
  rewrite (proj2 (Z.ltb_ge _ _)) by lia. done.
Qed.

Lemma stored_field_reads w0 ops r g name units sel values : alloc_succeeds -> reads_back w0 ops r -> grid_ok g -> hash g = w_grid_hash w0 ->
  AddSurface name units sel values ∈ ops ->
  exists out, Forall2 restored values out /\ read_grid_2d r g name = Ok {| st_units := units; st_selector := sel;
     st_grid := {| shape := {| gs_nx := gf_nx g; gs_ny := gf_ny g |}; lat_deg := lat g; lon_deg := lon g |};
     st_values := out; st_projection := projection g |}.
Proof.
  intros Ha Hrb Hg Hh Hin. rewrite <- final_ops_perm in Hin. apply list_elem_of_lookup in Hin as [k Hk].
  set (op := AddSurface name units sel values) in *.
  pose proof (lookup_added w0 ops r Hrb k op Hk) as Hl. unfold lookup_var in Hl. cbn [op_name op] in Hl.
  destruct (variable r name) as [v|] eqn:Ev; [|done]. injection Hl as ->.
  exists (field_2d r (op_meta (Z.of_nat k) op)). split.
  - apply (surface_cells w0 ops r Hrb k op values restored Ha Hk eq_refl). intros. apply tile_decoded_restored.
  - unfold read_grid_2d. rewrite Ev. cbn [ok_or mbind result_bind op op_meta var_kind var_units selector].
    rewrite (bool_decide_eq_true_2 ("surface2d"%string = "surface2d"%string)) by done. cbn [negb reject mbind result_bind].
    rewrite (rb_meta _ _ _ Hrb), Hh. cbn [canon_meta hour_meta grid_hash]. rewrite bool_decide_eq_true_2 by done. cbn [negb reject mbind result_bind].
    pose proof (written_surface w0 ops r Hrb k op values Ha Hk eq_refl) as Hr. cbn [op_name op] in Hr. rewrite Hr. cbn [mbind result_bind].
    rewrite (open_shape g Hg). done.
Qed.

(** *** The whole write *)

Lemma write_inv model run slot t reference proj fields derived volumes build wu ms dir written dir' :
  write_hour_from_grid_with_derived_time model run slot t reference proj fields derived volumes build wu ms dir = (Ok written, dir') ->
  exists w0 w, begin_with_time dir model run slot t reference proj build = Ok w0 /\ add_all fields derived volumes w0 = Ok w
    /\ ingest_finish w wu ms dir = (Ok written, dir').
Proof.
  unfold write_hour_from_grid_with_derived_time. intros E. apply dir_pure_inv in E as (u1 & _ & E). apply dir_pure_inv in E as (cells & _ & E).
  apply dir_pure_inv in E as (u2 & _ & E). apply dir_pure_inv in E as (u3 & _ & E). apply dir_pure_inv in E as (u4 & _ & E).
  apply dir_bind_inv in E as (d0 & d0' & [= <- <-] & E). apply dir_pure_inv in E as (w0 & Hw0 & E). apply dir_pure_inv in E as (w & Hw & E).
  by exists w0, w.
Qed.

Lemma volume_ops_typed volumes vo : Forall (fun v => Forall (fun l => in_width u16_limit l.1) (pv_levels v)) volumes ->
  Forall2 volume_op volumes vo -> Forall op_typed vo.
Proof.
  intros Ht HF. induction HF as [|v op vs ops Hop HF IH]; [constructor|]. inversion Ht as [|? ? Hv Hvs]; subst. constructor; [|by apply IH].
  rewrite Hop. cbn. apply Forall_fmap. unfold sort_levels. rewrite merge_sort_Permutation. exact Hv.
Qed.

(** The operations of a write: the extracted fields, the derived fields and
    the volumes, in this order. *)
Definition stored_ops (fields : list (string * SelectedField2D)) (derived : list DerivedFieldInput) (volumes : list PressureVolumeInput)
    (ops : list AddOp) : Prop :=
  exists fo dop vo, ops = fo ++ dop ++ vo /\ Forall2 field_op fields fo /\ Forall2 derived_op derived dop /\ Forall2 volume_op volumes vo.

(** The file of a write is the file of a writer that does not spill. *)
Lemma written_unspilled dir model run slot t reference proj build w0 w ops content meta :
  begin_with_time dir model run slot t reference proj build = Ok w0 -> added w0 ops w -> Forall op_typed ops ->
  finish (iw_writer w) = Ok (content, meta) ->
  exists w1, run_inv (writer_of model run slot t reference (iw_grid_hash w0) build) ops w1 /\ finish w1 = Ok (content, meta).
Proof.
  intros Hb Had Ht Hf. apply begin_inv in Hb as (_ & _ & _ & _ & _ & _ & _ & _ & _ & _ & _ & _ & _ & _ & Hw & _).
  set (hw := writer_of model run slot t reference (iw_grid_hash w0) build) in *.
  pose proof (ad_run _ _ _ Had) as Hrun. rewrite Hw in Hrun.
  pose proof (spill_same_file hw run ops (fresh_new _ _ _ _ _ _ _ _)) as Hs. rewrite Hrun in Hs. cbn [mbind result_bind] in Hs. rewrite Hf in Hs.
  assert (Hl : Forall (records_lengths (w_nx hw) (w_ny hw)) ops) by (eapply list.Forall_impl; [exact Ht|]; intros op; apply records_lengths_ok).
  specialize (Hs Hl). destruct (run_ops ops hw) as [w1| |] eqn:Er; cbn [mbind result_bind] in Hs; [|done..].
  exists w1. split; [exact (run_ops_inv hw ops w1 (fresh_new _ _ _ _ _ _ _ _) Er)|done].
Qed.

(** The names of the variables, in the order of the file. *)
Lemma ops_kind {X} (R : X -> AddOp -> Prop) (nm : X -> string) b xs ops : (forall x op, R x op -> op_name op = nm x /\ is_deferred op = b) ->
  Forall2 R xs ops -> Forall (fun op => is_deferred op = b) ops /\ op_name <$> ops = nm <$> xs.
Proof.
  intros HR HF. induction HF as [|x op xs ops Ho _ [IH1 IH2]]; [done|]. apply HR in Ho as [E1 E2]. split; [by constructor|].
  cbn. by rewrite E1, IH2.
Qed.
Lemma kind_split b ops : Forall (fun op => is_deferred op = b) ops ->
  normals ops = (if b then [] else ops) /\ deferreds ops = (if b then ops else []).
Proof.
  unfold normals, deferreds. induction 1 as [|op l Ho _ [IH1 IH2]]; [by destruct b|].
  destruct b; [rewrite filter_cons_False, filter_cons_True by congruence|rewrite filter_cons_True, filter_cons_False by congruence];
    rewrite IH1, IH2; done.
Qed.
Lemma ops_names fields derived volumes fo dop vo :
  Forall2 field_op fields fo -> Forall2 derived_op derived dop -> Forall2 volume_op volumes vo ->
  op_name <$> final_ops (fo ++ dop ++ vo) = fields.*1 ++ (df_name <$> derived) ++ (pv_name <$> volumes).
Proof.
  intros Hf Hd Hv.
  destruct (ops_kind field_op fst false _ _ ltac:(intros x op (sel & _ & ->); done) Hf) as [F1 F2].
  destruct (ops_kind derived_op df_name false _ _ ltac:(intros x op ->; done) Hd) as [D1 D2].
  destruct (ops_kind volume_op pv_name true _ _ ltac:(intros x op ->; done) Hv) as [V1 V2].
  destruct (kind_split _ _ F1) as [Nf Df], (kind_split _ _ D1) as [Nd Dd], (kind_split _ _ V1) as [Nv Dv]. unfold final_ops.
  assert (forall a b, normals (a ++ b) = normals a ++ normals b) as Ha by (intros; apply filter_app).
  assert (forall a b, deferreds (a ++ b) = deferreds a ++ deferreds b) as Hb by (intros; apply filter_app).
  rewrite !Ha, !Hb, Nf, Df, Nd, Dd, Nv, Dv. cbn [app]. by rewrite app_nil_r, !fmap_app, F2, D2, V2, app_assoc.
Qed.

(** The manifest that is saved has the hour, and every other hour as before. *)
Lemma new_manifest_hours w wu ms m : bmap_wf Z.compare (hours m) ->
  bmap_get Z.compare (iw_forecast_hour w) (hours (new_manifest w wu ms m)) = Some (hour_entry w (vars_normal w ++ vars_deferred w) wu ms)
  /\ forall other, other <> iw_forecast_hour w -> bmap_get Z.compare other (hours (new_manifest w wu ms m)) = bmap_get Z.compare other (hours m).
Proof.
  intros Hwf. unfold new_manifest, register_hour. cbn [hours]. unfold bmap_insert. split.
  - rewrite (bmap_get_alter Z.compare) by (by apply (bmap_alter_wf Z.compare)). done.
  - intros other Ho. rewrite !(bmap_get_alter_ne Z.compare) by done. done.
Qed.

Lemma validated_entry m slot meta entry : manifest_validate_hour_meta m slot meta = Ok entry -> bmap_get Z.compare slot (hours m) = Some entry.
Proof. unfold manifest_validate_hour_meta. intros E. bind_step E E0. destruct (bmap_get _ _ _); [|done]. injection E0 as ->. res_inv E. by subst. Qed.

(** The grid of the run after the pending bytes are written. *)
Lemma settled_opens dir grid proj h pending : alloc_succeeds -> Z.of_nat (length (lat_deg grid)) <= 2 ^ 59 ->
  match proj with Some p => projection_finite p = true | None => True end -> grid_settled dir grid proj h pending ->
  exists content g, match pending with Some bs => <[grid_name := RegularFile bs]> dir | None => dir end !! grid_name = Some (RegularFile content)
    /\ grid_open content = Ok g /\ hash g = h
    /\ {| shape := {| gs_nx := gf_nx g; gs_ny := gf_ny g |}; lat_deg := lat g; lon_deg := lon g |} = grid.
Proof.
  intros Ha Hsz Hp. destruct pending as [bs|]; cbn.
  - intros [_ He]. exists bs, (grid_file_of grid proj h). rewrite lookup_insert_eq. split; [done|]. split; [by apply encoded_opens|].
    split; [done|]. by destruct grid as [[]].
  - intros (content & g & Hl & Ho & Hh & Hx & Hy & Hla & Hlo). exists content, g. split_and!; try done. rewrite Hx, Hy, Hla, Hlo. by destruct grid as [[]].
Qed.

(** The reads of the fields of an hour whose file opens. *)
Lemma fields_read w0 fo rest r g fields : alloc_succeeds -> reads_back w0 (fo ++ rest) r -> grid_ok g -> hash g = w_grid_hash w0 ->
  Forall2 field_op fields fo ->
  forall name f, (name, f) ∈ fields -> exists out, Forall2 restored (sf_values f) out
    /\ read_field_2d r g name = Ok {| sf_selector := sf_selector f; sf_units := sf_units f;
         sf_grid := {| shape := {| gs_nx := gf_nx g; gs_ny := gf_ny g |}; lat_deg := lat g; lon_deg := lon g |};
         sf_values := out; sf_projection := projection g |}.
Proof.
  intros Ha Hrb Hg Hh HF name f Hin. apply list_elem_of_lookup in Hin as [i Hi]. destruct (Forall2_lookup_l _ _ _ _ _ HF Hi) as (op & Ho & sel & Hsel & ->).
  cbn [fst snd] in *. destruct (stored_field_reads w0 _ r g name (sf_units f) sel (sf_values f) Ha Hrb Hg Hh) as (out & Hr & E).
  { apply elem_of_app. left. by eapply list_elem_of_lookup_2. }
  exists out. split; [done|]. unfold read_field_2d. rewrite E. cbn [mbind result_bind st_selector]. by rewrite (selector_json_roundtrip _ _ Hsel).
Qed.

Lemma derived_read w0 pre dop rest r g derived : alloc_succeeds -> reads_back w0 (pre ++ dop ++ rest) r -> grid_ok g -> hash g = w_grid_hash w0 ->
  Forall2 derived_op derived dop ->
  forall d, d ∈ derived -> exists out, Forall2 restored (df_values d) out
    /\ read_grid_2d r g (df_name d) = Ok {| st_units := df_units d; st_selector := derived_selector (df_name d);
         st_grid := {| shape := {| gs_nx := gf_nx g; gs_ny := gf_ny g |}; lat_deg := lat g; lon_deg := lon g |};
         st_values := out; st_projection := projection g |}.
Proof.
  intros Ha Hrb Hg Hh HF d Hin. apply list_elem_of_lookup in Hin as [i Hi]. destruct (Forall2_lookup_l _ _ _ _ _ HF Hi) as (op & Ho & ->).
  apply (stored_field_reads w0 _ r g _ _ _ _ Ha Hrb Hg Hh). apply elem_of_app. right. apply elem_of_app. left. by eapply list_elem_of_lookup_2.
Qed.

(** The cells of a stored volume: level by level from the highest pressure, what the affine codec makes of the value. *)
Definition volume_restored (gnx gny : nat) (planes : list (list f32)) (out : list f32) : Prop :=
  length out = (length planes * (gny * gnx))%nat
  /\ forall z y x plane v, planes !! z = Some plane -> (y < gny)%nat -> (x < gnx)%nat -> plane !! (y * gnx + x)%nat = Some v ->
       exists values ec, gather_columns gnx gny planes (y / COL_Y) (x / COL_X) = Ok values /\ encode_affine_i16 values = Ok ec /\ v ∈ values
         /\ out !! (z * (gny * gnx) + (y * gnx + x))%nat = Some (affine_cell ec v).

Lemma volumes_read w0 pre vo r volumes : alloc_succeeds -> reads_back w0 (pre ++ vo) r -> Forall2 volume_op volumes vo ->
  forall v, v ∈ volumes -> exists out, read_full_3d r (pv_name v) = Ok out
    /\ volume_restored (w_nx w0) (w_ny w0) (sort_levels (pv_levels v)).*2 out.
Proof.
  intros Ha Hrb HF v Hin. apply list_elem_of_lookup in Hin as [i Hi]. destruct (Forall2_lookup_l _ _ _ _ _ HF Hi) as (op & Ho & ->).
  assert (Hel := list_elem_of_lookup_2 _ _ _ Ho). set (op := AddDeferred _ _ _ _ _) in *. set (planes := (sort_levels (pv_levels v)).*2).
  assert (Hk : op ∈ final_ops (pre ++ vo)) by (rewrite final_ops_perm; apply elem_of_app; by right).
  apply list_elem_of_lookup in Hk as [k Hk]. assert (Hd : op_data op = PressureData planes) by done.
  exists (volume_3d r (op_meta (Z.of_nat k) op)). split; [exact (written_volume w0 _ r Hrb k op planes Ha Hk Hd)|]. split.
  - rewrite length_volume_3d. destruct (rb_dims w0 _ r Hrb) as [-> ->]. by destruct (added_levels w0 _ r Hrb k op planes Hk Hd) as [_ ->].
  - intros z y x plane u Hp Hy Hx Hu. apply (written_level_cell w0 _ r Hrb k op planes z y x u Ha Hk Hd Hy Hx). simpl. by rewrite Hp.
Qed.

Lemma surface_ops_typed fields fo derived dop : Forall2 field_op fields fo -> Forall2 derived_op derived dop -> Forall op_typed (fo ++ dop).
Proof.
  intros Hf Hd. apply Forall_app. split.
  - induction Hf as [|f op fs ops (sel & _ & ->) _ IH]; [constructor|constructor; [constructor|exact IH]].
  - induction Hd as [|f op fs ops -> _ IH]; [constructor|constructor; [constructor|exact IH]].
Qed.

(** The files of the run after a write. *)
Definition file_at (dir : RunDir) (name : string) (content : list byte) : Prop := dir !! name = Some (RegularFile content).

Lemma final_files slot content saved (dir : RunDir) :
  let dir' := <[manifest_name := RegularFile saved]> (<[ordinal_file slot := RegularFile content]> dir) in
  file_at dir' manifest_name saved /\ file_at dir' (ordinal_file slot) content
  /\ forall name, name <> manifest_name -> name <> ordinal_file slot -> dir' !! name = dir !! name.
Proof.
  cbn. unfold file_at. split; [by rewrite lookup_insert_eq|]. split.
  - rewrite lookup_insert_ne by (apply not_eq_sym, ordinal_not_manifest). by rewrite lookup_insert_eq.
  - intros name N1 N2. by rewrite !lookup_insert_ne by done.
Qed.
(** *** What a write leaves alone *)

Lemma grid_put_keeps (P : string -> Prop) (pending : option (list byte)) : (pending <> None -> ~ P grid_name) -> (forall n, P n -> ~ temporary n) ->
  keeps P (match pending with Some bs => put_file grid_name bs | None => mret tt end).
Proof. intros Hp Ht. destruct pending; [apply keeps_put; [by apply Hp|done]|apply keeps_ret]. Qed.
Lemma grid_put_follows (pending : option (list byte)) :
  follows (match pending with Some bs => put_file grid_name bs | None => mret tt end)
    (match pending with Some bs => put_file (H := no_faults) grid_name bs | None => mret tt end).
Proof. destruct pending; [apply follows_put|apply follows_same]. Qed.

Lemma finish_keeps (P : string -> Prop) w wu ms : (pending_grid w <> None -> ~ P grid_name) -> ~ P (ordinal_file (iw_forecast_hour w)) -> ~ P manifest_name ->
  (forall n, P n -> ~ temporary n) -> keeps P (ingest_finish w wu ms).
Proof.
  intros Hg Hh Hm Ht. unfold ingest_finish. repeat first [apply keeps_bind; [|intros ?] | apply keeps_pure | apply keeps_ret | apply keeps_get
    | by apply grid_put_keeps | by apply keeps_put | match goal with |- keeps _ (match ?x with (_, _) => _ end) => destruct x end].
Qed.
Lemma finish_all_or_nothing (P : string -> Prop) w wu ms : (pending_grid w <> None -> ~ P grid_name) -> ~ P (ordinal_file (iw_forecast_hour w)) ->
  (forall n, P n -> ~ temporary n) -> all_or_nothing P (ingest_finish w wu ms) (ingest_finish (faults := no_faults) w wu ms).
Proof.
  intros Hg Hh Ht. unfold ingest_finish. repeat first [by apply all_or_nothing_last_put
    | apply all_or_nothing_bind; [first [apply keeps_pure | apply keeps_get | by apply grid_put_keeps | by apply keeps_put]
                                 |first [apply follows_same | apply grid_put_follows | apply follows_put]|intros ?]
    | match goal with |- all_or_nothing _ (match ?x with (_, _) => _ end) _ => destruct x end].
Qed.
(** A write does nothing to the directory before [finish]. *)
Lemma write_steps model run slot t reference proj fields derived volumes build wu ms dir r dir' :
  write_hour_from_grid_with_derived_time model run slot t reference proj fields derived volumes build wu ms dir = (r, dir') ->
  (dir' = dir /\ forall a, r <> Ok a)
  \/ exists w0 w, begin_with_time dir model run slot t reference proj build = Ok w0 /\ add_all fields derived volumes w0 = Ok w
      /\ iw_forecast_hour w = slot /\ pending_grid w = pending_grid w0 /\ ingest_finish w wu ms dir = (r, dir')
      /\ forall other : WriteFaults,
           write_hour_from_grid_with_derived_time (faults := other) model run slot t reference proj fields derived volumes build wu ms dir
           = ingest_finish (faults := other) w wu ms dir.
Proof.
  unfold write_hour_from_grid_with_derived_time. intros E. apply dir_pure_cases in E as [?|(u1 & G1 & E)]; [by left|].
  apply dir_pure_cases in E as [?|(cells & G2 & E)]; [by left|]. apply dir_pure_cases in E as [?|(u3 & G3 & E)]; [by left|].
  apply dir_pure_cases in E as [?|(u4 & G4 & E)]; [by left|]. apply dir_pure_cases in E as [?|(u5 & G5 & E)]; [by left|].
  unfold get_dir in E. unfold mbind at 1 in E. cbn [dir_bind] in E.
  apply dir_pure_cases in E as [?|(w0 & Hb & E)]; [by left|]. apply dir_pure_cases in E as [?|(w & Hadd & E)]; [by left|]. right.
  pose proof (begin_inv _ _ _ _ _ _ _ _ _ Hb) as (_ & _ & _ & _ & _ & _ & _ & _ & _ & Hslot & _ & _ & _ & _ & _ & Hvn & Hvd & _).
  destruct (add_all_inv _ _ _ _ _ Hvn Hvd Hadd) as (fo & dop & vo & _ & _ & _ & Had).
  exists w0, w. split_and!; try done; [by rewrite (ad_same _ _ _ Had)..|].
  intros other. unfold mbind, dir_bind, pure_op, get_dir. by rewrite G1, G2, G3, G4, G5, Hb, Hadd.
Qed.
End facts.

(** ** Properties *)

(** C2: an hour that is stored is the hour that is read. When
    [write_hour_from_grid_with_derived_time] succeeds, the run directory holds
    a grid file that opens as the given grid, bit for bit; a manifest that
    loads for the model and the run, refers to that grid by its hash and lists
    the hour with its variables in file order; and the hour file. When the
    hour is within the limits of the reader, the manifest accepts the file's
    metadata, the file opens, and every extracted field is read back with its
    selector, its units, its grid and its values, as is every derived field;
    the volumes are read back level by level from the highest pressure. *)
Theorem stored_hour_reads_back `{F32Ties, External, !ExternalLaws, !GridExternal, !GridExternalLaws, !ManifestJson, !ManifestJsonLaws,
    !SelectorJson, !SelectorJsonLaws} {faults : WriteFaults} model run slot t reference proj fields derived volumes build wu ms dir written dir' src :
  alloc_succeeds -> Z.of_nat (length (lat_deg reference)) <= 2 ^ 59 ->
  match proj with Some p => projection_finite p = true | None => True end ->
  Forall (fun v => Forall (fun l => in_width u16_limit l.1) (pv_levels v)) volumes ->
  write_hour_from_grid_with_derived_time model run slot t reference proj fields derived volumes build wu ms dir = (Ok written, dir') ->
  exists grid_bytes g content ops manifest_bytes m entry,
    file_at dir' grid_name grid_bytes /\ grid_open grid_bytes = Ok g
    /\ {| shape := {| gs_nx := gf_nx g; gs_ny := gf_ny g |}; lat_deg := lat g; lon_deg := lon g |} = reference
    /\ file_at dir' manifest_name manifest_bytes /\ load_for_run (Regular manifest_bytes) model run = Ok m /\ mf_grid_hash m = hash g
    /\ bmap_get Z.compare slot (hours m) = Some entry /\ file entry = ordinal_file slot
    /\ he_variables entry = fields.*1 ++ (df_name <$> derived) ++ (pv_name <$> volumes)
    /\ file_at dir' (ordinal_file slot) content /\ stored_ops fields derived volumes ops
    /\ let meta := canon_meta (writer_of model run slot t reference (hash g) build) ops in
       (within_limits meta content -> manifest_validate_hour_meta m slot meta = Ok entry
        /\ exists r, open_reader src true content = Ok r /\ r_meta r = meta
         /\ (forall name f, (name, f) ∈ fields -> exists out, Forall2 restored (sf_values f) out
               /\ read_field_2d r g name = Ok {| sf_selector := sf_selector f; sf_units := sf_units f; sf_grid := reference; sf_values := out;
                                                sf_projection := projection g |})
         /\ (forall d, d ∈ derived -> exists out, Forall2 restored (df_values d) out
               /\ read_grid_2d r g (df_name d) = Ok {| st_units := df_units d; st_selector := derived_selector (df_name d); st_grid := reference;
                                                      st_values := out; st_projection := projection g |})
         /\ (forall v, v ∈ volumes -> exists out, read_full_3d r (pv_name v) = Ok out
               /\ volume_restored (gs_nx (shape reference)) (gs_ny (shape reference)) (sort_levels (pv_levels v)).*2 out)).
Proof.
  intros Ha Hsz Hp Ht Hw. apply write_inv in Hw as (w0 & w & Hb & Hadd & Hfin).
  pose proof (begin_inv _ _ _ _ _ _ _ _ _ Hb) as (Hset & _ & _ & Hnx & Hny & _ & _ & _ & _ & Hslot & _ & Hmodel & Hrun & _ & _ & Hvn & Hvd & _).
  destruct (add_all_inv _ _ _ _ _ Hvn Hvd Hadd) as (fo & dop & vo & Hf & Hd & Hv & Had).
  apply finish_inv in Hfin as (m & content & meta & saved & Hm & Hfile & (entry & Hent) & Hs & ->).
  assert (Hsame : iw_forecast_hour w = slot /\ iw_model w = model /\ iw_run w = run /\ iw_grid_hash w = iw_grid_hash w0 /\ pending_grid w = pending_grid w0)
    by (rewrite (ad_same _ _ _ Had); split_and!; done).
  destruct Hsame as (Es & Em & Er & Eh & Ep). rewrite Es, Ep in *.
  apply load_manifest_inv in Hm as (M1 & M2 & M3 & _ & _ & Hwf & _).
  destruct (settled_opens _ _ _ _ _ Ha Hsz Hp Hset) as (gb & g & Hgl & Hgo & Hgh & Href).
  destruct (saved_loads _ _ Hs) as (_ & Hload & _). pose proof (proj1 (new_manifest_hours w wu ms m Hwf)) as Hget. rewrite Es in Hget.
  pose proof (validated_entry _ _ _ _ Hent) as Hget'. rewrite Hget in Hget'. injection Hget' as <-.
  destruct (final_files slot content saved (match pending_grid w0 with Some bs => <[grid_name := RegularFile bs]> dir | None => dir end))
    as (Fm & Fh & Fo).
  exists gb, g, content, (fo ++ dop ++ vo), saved, (new_manifest w wu ms m), (hour_entry w (vars_normal w ++ vars_deferred w) wu ms). unfold file_at at 1.
  rewrite (Fo grid_name grid_not_manifest (not_eq_sym (ordinal_not_grid slot))). cbn [file he_variables hour_entry].
  rewrite (ad_vars _ _ _ Had), (ops_names _ _ _ _ _ _ Hf Hd Hv) in *. rewrite Es, Hgh.
  set (hw := writer_of model run slot t reference (iw_grid_hash w0) build). assert (Hhash : hash g = w_grid_hash hw) by done.
  assert (Htyped : Forall op_typed (fo ++ dop ++ vo))
    by (rewrite app_assoc; apply Forall_app; split; [by eapply surface_ops_typed|by eapply volume_ops_typed]).
  destruct (written_unspilled _ _ _ _ _ _ _ _ _ _ _ _ _ Hb Had Htyped Hfile) as (w1 & Hinv & Hfin1). fold hw in Hinv.
  split_and!; try done.
  - cbn in Hload. by rewrite M1, M2, Em, Er in Hload.
  - cbn. by rewrite M3, Eh.
  - by exists fo, dop, vo.
  - intros Hlim. assert (meta = canon_meta hw (fo ++ dop ++ vo)) as ->.
    { destruct (file_layout _ _ _ _ _ Hinv (proj1 Hlim) Hfin1) as (_ & _ & _ & E & _). exact E. }
    split; [done|]. destruct (written_file_opens _ _ _ _ _ src Ha Hinv Hfin1 Hlim) as (r & Hr & Hmeta & Hrb).
    exists r. split; [done|]. split; [done|]. pose proof (proj1 (open_ok _ _ Hgo)) as Hok.
    split; [rewrite <- Href; exact (fields_read _ fo (dop ++ vo) r g fields Ha Hrb Hok Hhash Hf)|].
    split; [rewrite <- Href; exact (derived_read _ fo dop vo r g derived Ha Hrb Hok Hhash Hd)|].
    rewrite app_assoc in Hrb. exact (volumes_read hw (fo ++ dop) vo r volumes Ha Hrb Hv).
Qed.

(** C17: a write that fails registers nothing, or everything. Whichever of
    its checks or system calls fails, the manifest of the run is the one that
    was there; or its directory is exactly the one that the write leaves when
    nothing fails, with the hour registered and its file complete, because
    only the last sync of the directory failed after [run.json] had been
    renamed into place. A grid file that was there is untouched, and no file
    changes but the manifest, the hour file of the slot, a grid file that was
    missing and the temporary files of the writes. *)
Theorem failed_write_registers_nothing `{F32Ties, External, !GridExternal, !GridExternalLaws, !ManifestJson, !SelectorJson} {faults : WriteFaults}
    model run slot t reference proj fields derived volumes build wu ms dir r dir' :
  write_hour_from_grid_with_derived_time model run slot t reference proj fields derived volumes build wu ms dir = (r, dir') ->
  (forall written, r <> Ok written) ->
  (dir' !! manifest_name = dir !! manifest_name
   \/ exists written, write_hour_from_grid_with_derived_time (faults := no_faults) model run slot t reference proj fields derived volumes build wu ms dir
        = (Ok written, dir'))
  /\ (is_Some (dir !! grid_name) -> dir' !! grid_name = dir !! grid_name)
  /\ (forall name, name <> grid_name -> name <> ordinal_file slot -> name <> manifest_name -> ~ temporary name -> dir' !! name = dir !! name).
Proof.
  intros Hw Hr. apply write_steps in Hw as [[-> _]|(w0 & w & Hb & _ & Hslot & Hpend & Hfin & Hsame)]; [split; [by left|done]|].
  apply begin_inv in Hb as [Hset _]. assert (Hnone : pending_grid w <> None -> dir !! grid_name = None).
  { rewrite Hpend. destruct (pending_grid w0); [|done]. by destruct Hset. }
  assert (Hkeep : forall P : string -> Prop, (pending_grid w <> None -> ~ P grid_name) -> ~ P (ordinal_file slot) -> ~ P manifest_name ->
            (forall n, P n -> ~ temporary n) -> forall n, P n -> dir' !! n = dir !! n).
  { intros P Pg Po Pm Pt n Pn. rewrite <- Hslot in Po. by apply (finish_keeps P w wu ms Pg Po Pm Pt dir r dir'). }
  split_and!.
  - setoid_rewrite Hsame.
    assert (Hall : all_or_nothing (eq manifest_name) (ingest_finish w wu ms) (ingest_finish (faults := no_faults) w wu ms)).
    { apply finish_all_or_nothing; [intros _; by apply not_eq_sym, grid_not_manifest|rewrite Hslot; apply not_eq_sym, ordinal_not_manifest|].
      intros n <-. by apply visible_not_temporary. }
    destruct (Hall dir r dir' Hfin Hr) as [Hm|Hm]; [left; by apply Hm|by right].
  - intros [e He]. apply (Hkeep (fun n => n = grid_name /\ is_Some (dir !! n))).
    + intros Hp [_ [e' He']]. rewrite (Hnone Hp) in He'. done.
    + by intros [E _]; apply ordinal_not_grid in E.
    + by intros [E _].
    + intros n [-> _]. by apply visible_not_temporary.
    + by split; [|exists e].
  - intros name Hg Ho Hm Ht. by apply (Hkeep (fun n => n <> grid_name /\ n <> ordinal_file slot /\ n <> manifest_name /\ ~ temporary n));
      [intros _ (? & _)|intros (_ & ? & _)|intros (_ & _ & ? & _)|intros n (_ & _ & _ & ?)|].
Qed.

(** C18: storing an hour keeps every other hour of the run. After a write that
    succeeds, the manifest of the run holds, for every other storage slot,
    exactly the entry the manifest before the write held, a grid file that was
    there is untouched, and so is every file that is not the grid, the
    manifest or the hour file of the slot. *)
Theorem other_hours_kept `{F32Ties, External, !GridExternal, !GridExternalLaws, !ManifestJson, !ManifestJsonLaws, !SelectorJson} {faults : WriteFaults}
    model run slot t reference proj fields derived volumes build wu ms dir written dir' :
  write_hour_from_grid_with_derived_time model run slot t reference proj fields derived volumes build wu ms dir = (Ok written, dir') ->
  (exists m, load_for_run (path_state dir' manifest_name) model run = Ok m
    /\ forall other, other <> slot -> bmap_get Z.compare other (hours m)
         = match path_state dir manifest_name with
           | Missing => None
           | p => match load_for_run p model run with Ok m0 => bmap_get Z.compare other (hours m0) | _ => None end
           end)
  /\ (is_Some (dir !! grid_name) -> dir' !! grid_name = dir !! grid_name)
  /\ (forall name, name <> grid_name -> name <> manifest_name -> name <> ordinal_file slot -> dir' !! name = dir !! name).
Proof.
  intros Hw. apply write_steps in Hw as [[_ Hr]|(w0 & w & Hb & Hadd & Hslot & Hpend & Hfin & _)]; [by destruct (Hr written)|].
  pose proof (begin_inv _ _ _ _ _ _ _ _ _ Hb) as (Hset & _ & _ & _ & _ & _ & _ & _ & _ & _ & _ & Hmodel & Hrun & _ & _ & Hvn & Hvd & _).
  destruct (add_all_inv _ _ _ _ _ Hvn Hvd Hadd) as (fo & dop & vo & _ & _ & _ & Had).
  apply finish_inv in Hfin as (m & content & meta & saved & Hm & _ & _ & Hs & ->). rewrite Hslot, Hpend in *.
  destruct (final_files slot content saved (match pending_grid w0 with Some bs => <[grid_name := RegularFile bs]> dir | None => dir end))
    as (Fm & _ & Fo).
  assert (Em : iw_model w = model /\ iw_run w = run) by (rewrite (ad_same _ _ _ Had); done). destruct Em as [Em Er].
  apply load_manifest_inv in Hm as (M1 & M2 & _ & _ & _ & Hwf & Hold). rewrite Em, Er in *. split_and!.
  - exists (new_manifest w wu ms m). unfold path_state at 1. rewrite Fm. split.
    + destruct (saved_loads _ _ Hs) as (_ & Hload & _). cbn in Hload. by rewrite M1, M2 in Hload.
    + intros other Ho. rewrite (proj2 (new_manifest_hours w wu ms m Hwf)) by (by rewrite Hslot).
      destruct (path_state dir manifest_name); [by rewrite Hold|by rewrite Hold..].
  - intros [e He]. rewrite (Fo grid_name grid_not_manifest (not_eq_sym (ordinal_not_grid slot))).
    destruct (pending_grid w0); [|done]. destruct Hset as [Hn _]. by rewrite Hn in He.
  - intros name Ng Nm No. rewrite (Fo name Nm No). destruct (pending_grid w0); [by rewrite lookup_insert_ne|done].
Qed.

(** ** An example

    A run whose manifest holds hour 2; hour 3 is stored with an extracted
    field, a derived field and a volume whose levels are given bottom last. *)

Definition t2m_selector : FieldSelector := height_agl FTemperature 2.
Definition t2m_field : SelectedField2D :=
  {| sf_selector := t2m_selector; sf_units := "K"; sf_grid := sample_grid; sf_values := sample_values; sf_projection := Some sample_projection |}.
Definition flat_field : DerivedFieldInput := {| df_name := "flat"; df_units := "1"; df_values := replicate 6 f32_one |}.
Definition tmp_volume : PressureVolumeInput :=
  {| pv_name := "tmp"; pv_units := "K"; pv_selector_template := tt; pv_levels := [(500, replicate 6 f32_half); (850, replicate 6 f32_one)] |}.

Definition stored_meta : RwsHourMeta :=
  {| schema := SCHEMA_HOUR; model := "hrrr"; run := "20260101_00z"; forecast_hour := 3;
     meta_lead_seconds := None; meta_valid_unix := None; nx := 3; ny := 2; grid_hash := "73";
     variables :=
       [{| var_meta_id := 0; var_name := "t2m"; var_units := "K"; var_kind := "surface2d"; var_codec := CODEC_2D; levels_hpa := []; selector := tt |};
        {| var_meta_id := 1; var_name := "flat"; var_units := "1"; var_kind := "surface2d"; var_codec := CODEC_2D; levels_hpa := []; selector := tt |};
        {| var_meta_id := 2; var_name := "tmp"; var_units := "K"; var_kind := "pressure3d"; var_codec := CODEC_3D; levels_hpa := [850; 500]; selector := tt |}];
     chunking := {| chunk_tile_y := TILE_Y; chunk_tile_x := TILE_X; chunk_col_y := COL_Y; chunk_col_x := COL_X |};
     writer := {| wi_name := "rw-store"; wi_version := "0.1.0"; wi_build := "build" |} |}.

Definition stored_entry (slot : Z) (vars : list string) : RwsHourEntry :=
  {| file := ordinal_file slot; he_lead_seconds := None; he_valid_unix := None; written_unix := 1770000000;
     encode_ms := 5; he_variables := vars; source_provenance := [] |}.
Definition manifest_before : RwsRunManifest :=
  {| mf_schema := SCHEMA_RUN; mf_model := "hrrr"; mf_run := "20260101_00z"; mf_grid_hash := "73"; mf_nx := 3; mf_ny := 2;
     hours := [(2, stored_entry 2 ["t2m"%string])]; mf_writer := {| wi_name := "rw-store"; wi_version := "0.1.0"; wi_build := "build" |} |}.
Definition manifest_after : RwsRunManifest := register_hour 3 (stored_entry 3 ["t2m"; "flat"; "tmp"]%string) manifest_before.
Definition before_bytes : list byte := [Byte.x7b; Byte.x0a].

#[local] Instance RwsHourEntry_eq_dec : EqDecision RwsHourEntry.
Proof. solve_decision. Defined.
#[local] Instance RwsRunManifest_eq_dec : EqDecision RwsRunManifest.
Proof. solve_decision. Defined.

(** Encodings that know the values of the example. *)
Definition stored_external : External := {|
  zstd_encode_all := zstd_encode_all;
  zstd_decoder := zstd_decoder;
  json_to_vec m := if bool_decide (m = stored_meta) then Ok [Byte.x6d] else Err (Meta "unknown");
  json_from_slice bs := if bool_decide (bs = [Byte.x6d]) then Ok stored_meta else Err (Meta "unknown");
  try_reserve _ := true;
  CARGO_PKG_VERSION := "0.1.0"
|}.
Definition stored_manifests : ManifestJson := {|
  manifest_to_vec_pretty m := if bool_decide (m = manifest_after) then Ok [Byte.x7b; Byte.x7d] else Err (Meta "unknown");
  manifest_from_slice bs := if bool_decide (bs = [Byte.x7b; Byte.x7d; Byte.x0a]) then Ok manifest_after
                            else if bool_decide (bs = before_bytes) then Ok manifest_before else Err (Meta "unknown")
|}.
Definition stored_selectors : SelectorJson := {|
  selector_to_value s := if bool_decide (s = t2m_selector) then Ok tt else Err (Meta "unknown");
  selector_from_value _ := Ok t2m_selector;
  derived_selector _ := tt
|}.

Lemma stored_external_laws : @ExternalLaws _ stored_external.
Proof.
  split; [apply table_laws..| | |].
  - intros m bs. cbn. case_bool_decide as E; intros [= <-]. by rewrite E.
  - intros m. cbn. by case_bool_decide.
  - intros bs. cbn. by case_bool_decide.
Qed.
Lemma stored_manifests_laws : @ManifestJsonLaws stored_manifests.
Proof.
  split.
  - intros m bs. cbn. case_bool_decide as E; intros [= <-]. by rewrite E.
  - intros bs m. cbn. repeat case_bool_decide; intros [= <-]; repeat constructor.
Qed.
Lemma stored_selectors_laws : @SelectorJsonLaws _ stored_selectors.
Proof. split. intros s v. cbn. case_bool_decide as E; intros [= <-]. by rewrite E. Qed.
Lemma stored_grid_laws : @GridExternalLaws _ stored_external one_grid.
Proof. split; apply one_grid_laws. Qed.

(** The write of the example. *)
Definition store_example (model : string) (dir : RunDir) : RwResult WrittenHour * RunDir :=
  @write_hour_from_grid_with_derived_time _ _ stored_external one_grid stored_manifests stored_selectors no_faults
    model "20260101_00z" 3 None sample_grid (Some sample_projection) [("t2m"%string, t2m_field)] [flat_field] [tmp_volume]
    "build" 1770000000 5 dir.
Definition run_before : RunDir := {[ manifest_name := RegularFile before_bytes ]}.
Definition run_after : RunDir := (store_example "hrrr" run_before).2.

Lemma example_written : exists bytes, store_example "hrrr" run_before
  = (Ok {| wh_path := "f003.rws"; wh_encode_ms := 5; wh_bytes := bytes; wh_vars := ["t2m"; "flat"; "tmp"]%string |}, run_after).
Proof. eexists. vm_compute. reflexivity. Qed.

Lemma example_ops ops : @stored_ops _ stored_selectors [("t2m"%string, t2m_field)] [flat_field] [tmp_volume] ops ->
  ops = [AddSurface "t2m" "K" tt sample_values; AddSurface "flat" "1" tt (replicate 6 f32_one);
         AddDeferred "tmp" "K" tt [850; 500] [replicate 6 f32_one; replicate 6 f32_half]].
Proof.
  intros (fo & dop & vo & -> & Hf & Hd & Hv). inversion Hf as [|? o1 ? l1 (sel & _ & ->) Hf']; subst. inversion Hf'; subst.
  inversion Hd as [|? o2 ? l2 -> Hd']; subst. inversion Hd'; subst. inversion Hv as [|? o3 ? l3 -> Hv']; subst. inversion Hv'; subst. by destruct sel.
Qed.

Definition file_bytes (dir : RunDir) (name : string) : list byte := match dir !! name with Some (RegularFile c) => c | _ => [] end.
Lemma file_at_bytes dir name content : file_at dir name content -> content = file_bytes dir name.
Proof. unfold file_at, file_bytes. by intros ->. Qed.

Lemma example_limits : @within_limits _ stored_external stored_meta (file_bytes run_after (ordinal_file 3)).
Proof.
  assert (length (file_bytes run_after (ordinal_file 3)) = 307%nat) as Hlen by (vm_compute; reflexivity).
  unfold within_limits. rewrite Hlen. split_and!; [split; done|done| |done| |done].
  - repeat constructor; done.
  - intros mb [= <-]. done.
Qed.

Theorem stored_hour_reads_back_witness : exists content r g out,
  file_at run_after (ordinal_file 3) content /\ @open_reader _ stored_external 7 true content = Ok r
  /\ @read_field_2d _ stored_external stored_selectors r g "t2m"
     = Ok {| sf_selector := t2m_selector; sf_units := "K"; sf_grid := sample_grid; sf_values := out; sf_projection := projection g |}
  /\ Forall2 restored sample_values out.
Proof.
  destruct example_written as [bytes Hw]. unfold store_example in Hw.
  destruct (@stored_hour_reads_back _ _ stored_external stored_external_laws one_grid stored_grid_laws stored_manifests stored_manifests_laws
    stored_selectors stored_selectors_laws no_faults "hrrr" "20260101_00z" 3 None sample_grid (Some sample_projection) [("t2m"%string, t2m_field)]
    [flat_field] [tmp_volume] "build" 1770000000 5 run_before
    {| wh_path := "f003.rws"; wh_encode_ms := 5; wh_bytes := bytes; wh_vars := ["t2m"; "flat"; "tmp"]%string |} run_after 7 (fun _ => eq_refl))
    as (gb & g & content & ops & mb & m & entry & _ & _ & _ & Fm & Hl & Hh & _ & _ & _ & Fc & Ho & Hread);
    [vm_compute; discriminate|reflexivity|repeat constructor; vm_compute; (reflexivity || discriminate)|exact Hw|].
  apply example_ops in Ho as ->. pose proof (file_at_bytes _ _ _ Fc) as Ec.
  assert (hash g = "73"%string) as Eh.
  { apply file_at_bytes in Fm as ->. rewrite <- Hh. vm_compute in Hl. injection Hl as <-. reflexivity. }
  rewrite Eh, Ec in Hread. destruct (Hread example_limits) as (_ & r & Hr & _ & Hf & _).
  destruct (Hf "t2m"%string t2m_field) as (out & Hout & Hfield); [left|].
  exists content, r, g, out. split; [exact Fc|]. rewrite Ec. split; [exact Hr|]. split; [exact Hfield|exact Hout].
Defined.

(** The same write for another model: the manifest is not that of the model,
    and the run keeps its files. *)
Theorem failed_write_registers_nothing_witness :
  (exists e, (store_example "gfs" run_before).1 = Err e)
  /\ (store_example "gfs" run_before).2 !! manifest_name = Some (RegularFile before_bytes).
Proof.
  split; [eexists; vm_compute; reflexivity|]. destruct (store_example "gfs" run_before) as [r dir'] eqn:E.
  assert (Hr : r = (store_example "gfs" run_before).1) by (by rewrite E).
  destruct (@failed_write_registers_nothing _ _ stored_external one_grid stored_grid_laws stored_manifests stored_selectors no_faults
    _ _ _ _ _ _ _ _ _ _ _ _ _ _ _ E) as [[Hm|[written Hm]] _].
  - intros written ->. vm_compute in Hr. discriminate Hr.
  - cbn [snd]. rewrite Hm. reflexivity.
  - exfalso. unfold store_example in E. rewrite Hm in E. injection E as <-. vm_compute in Hr. discriminate Hr.
Defined.

Theorem other_hours_kept_witness : exists m,
  @load_for_run stored_manifests (path_state run_after manifest_name) "hrrr" "20260101_00z" = Ok m
  /\ bmap_get Z.compare 2 (hours m) = Some (stored_entry 2 ["t2m"%string]).
Proof.
  destruct example_written as [bytes Hw].
  destruct (@other_hours_kept _ _ stored_external one_grid stored_grid_laws stored_manifests stored_manifests_laws stored_selectors no_faults
    _ _ _ _ _ _ _ _ _ _ _ _ _ _ _ Hw) as ((m & Hm & Hother) & _).
  exists m. split; [exact Hm|]. rewrite (Hother 2 ltac:(lia)). vm_compute. reflexivity.
Defined.
