(* ===== verification/Coverage.v ===== *)
(** * Coverage of a run

    [crates/rw-scheduler/src/coverage.rs]: which of the valid times a plan
    expects are in the manifest of its run, under the right storage slots. *)
From Stdlib Require Import ZArith Lia Ascii String.
From stdpp Require Import base list strings numbers sorting.
From S2P Require Import Prelude F32 Format Text Order Ids Cycle Models Profile Capability Plan Manifest.

Local Open Scope Z_scope.

Record ValidTime := { vt_lead_seconds : Z; vt_valid_unix : Z }.

#[global] Instance ValidTime_eq_dec : EqDecision ValidTime.
Proof. solve_decision. Defined.

(** The derived order: by lead, then by time. *)
Definition valid_time_key (t : ValidTime) : Z * Z := (vt_lead_seconds t, vt_valid_unix t).
Definition valid_time_cmp : ValidTime -> ValidTime -> comparison := key_cmp valid_time_key (pair_cmp Z.compare Z.compare).
#[global] Instance valid_time_total : TotalCmp valid_time_cmp.
Proof. apply key_total; [apply _|]. intros [a b] [c d]. unfold valid_time_key. simpl. congruence. Qed.

(** [From<ExpectedValidTime> for ValidTime]. *)
Definition valid_time_from (e : ExpectedValidTime) : ValidTime :=
  {| vt_lead_seconds := ev_lead_seconds e; vt_valid_unix := ev_valid_unix e |}.

Record SlotMismatch := { sm_storage_slot : Z; sm_expected : ValidTime; sm_available : ValidTime }.

(** The sets and the map are sorted lists. *)
Record RunCoverage := {
  cov_expected : list ValidTime;
  cov_available : list ValidTime;
  cov_present : list ValidTime;
  cov_missing : list ValidTime;
  cov_unexpected : list ValidTime;
  slot_mismatches : list SlotMismatch;
  missing_slots : list Z;
  storage_validated : bool;
  validated_slots : list Z;
  variable_slots : list (string * list Z)
}.

Definition is_nil {A} (l : list A) : bool := match l with [] => true | _ => false end.

Definition temporal_inventory_complete (c : RunCoverage) : bool :=
  is_nil (cov_missing c) && is_nil (cov_unexpected c) && is_nil (slot_mismatches c) && is_nil (missing_slots c).

Definition is_complete (c : RunCoverage) : bool :=
  temporal_inventory_complete c && storage_validated c && (length (validated_slots c) =? length (cov_expected c))%nat.

Definition available_valid_unix (c : RunCoverage) : list Z := bset_of Z.compare (vt_valid_unix <$> cov_present c).

Definition expected_set (plan : JobPlan) : list ValidTime := bset_of valid_time_cmp (valid_time_from <$> expected_valid_times plan).

Definition matches_plan (c : RunCoverage) (plan : JobPlan) : bool := bool_decide (cov_expected c = expected_set plan).

(** One exact time of the manifest: it becomes available, and a planned slot
    with another time is a mismatch. *)
Definition exact_step (plan : JobPlan) (acc : list ValidTime * list SlotMismatch) (x : Z * RwsExactTime)
    : list ValidTime * list SlotMismatch :=
  let '(available, mismatches) := acc in
  let '(storage_slot, exact) := x in
  let actual := {| vt_lead_seconds := lead_seconds exact; vt_valid_unix := valid_unix exact |} in
  let available := bset_insert valid_time_cmp actual available in
  match List.find (fun e => ev_storage_slot e =? storage_slot) (expected_valid_times plan) with
  | Some expected_slot =>
      let expected_time := valid_time_from expected_slot in
      if bool_decide (actual = expected_time) then (available, mismatches)
      else (available, mismatches ++ [{| sm_storage_slot := storage_slot; sm_expected := expected_time; sm_available := actual |}])
  | None => (available, mismatches)
  end.

(** One whole forecast hour of the manifest. *)
Definition whole_hour_step (origin_unix : Z) (available : list ValidTime) (forecast_hour : Z) : SchedulerResult (list ValidTime) :=
  '(lead, valid) ← valid_time_of InvalidCoverage origin_unix forecast_hour;
  Ok (bset_insert valid_time_cmp {| vt_lead_seconds := lead; vt_valid_unix := valid |} available).

Definition has_slot (m : RwsRunManifest) (slot : Z) : bool :=
  match bmap_get Z.compare slot (hours m) with Some _ => true | None => false end.

(** The available times, the mismatched slots and the missing slots. *)
Definition inventory (plan : JobPlan) (m : RwsRunManifest) : SchedulerResult (list ValidTime * list SlotMismatch * list Z) :=
  if is_exact_time_axis m then
    let '(available, mismatches) := foldl (exact_step plan) ([], []) (exact_times m) in
    let missing := bset_of Z.compare (List.filter (fun slot => negb (has_slot m slot)) (ev_storage_slot <$> expected_valid_times plan)) in
    Ok (available, mismatches, missing)
  else
    origin_unix ← origin_unix_of plan;
    available ← rfold (whole_hour_step origin_unix) (hours m).*1 [];
    Ok (available, [], []).

Definition verify_manifest (plan : JobPlan) (m : RwsRunManifest) : SchedulerResult RunCoverage :=
  _ ← plan_validate plan;
  _ ← map_err Store (validate_contents m);
  _ ← map_err Store (validate_identity m (model_as_str (jp_model plan)) (run_id plan));
  let expected := expected_set plan in
  '(available, mismatches, missing) ← inventory plan m;
  Ok {| cov_expected := expected;
        cov_available := available;
        cov_present := bset_inter valid_time_cmp expected available;
        cov_missing := bset_diff valid_time_cmp expected available;
        cov_unexpected := bset_diff valid_time_cmp available expected;
        slot_mismatches := mismatches;
        missing_slots := missing;
        storage_validated := false;
        validated_slots := [];
        variable_slots := [] |}.

(** [validate_queryable_coverage] of [executor.rs]. *)
Definition validate_queryable_coverage (plan : JobPlan) (coverage : RunCoverage) : SchedulerResult unit :=
  reject (negb (matches_plan coverage plan) || negb (storage_validated coverage) || negb (is_nil (cov_unexpected coverage))
          || negb (is_nil (slot_mismatches coverage)) || negb (length (validated_slots coverage) =? length (cov_present coverage))%nat)
    (InvalidCoverage "run did not pass exact queryability validation").

(** ** Lemmas *)

Lemma is_nil_true {A} (l : list A) : is_nil l = true <-> l = [].
Proof. by destruct l. Qed.

(** Lists sorted by a strict order with the same elements are the same. *)
Lemma sorted_ext {A} (R : A -> A -> Prop) l1 l2 : (forall a b, R a b -> R b a -> False) ->
  StronglySorted R l1 -> StronglySorted R l2 -> (forall x, x ∈ l1 <-> x ∈ l2) -> l1 = l2.
Proof.
  intros Has H1. revert l2. induction H1 as [|x l1 H1 IH F1]; intros l2 H2 Hx.
  { destruct l2 as [|y l2]; [done|]. exfalso. apply (not_elem_of_nil y), Hx. left. }
  destruct H2 as [|y l2 H2 F2]. { exfalso. apply (not_elem_of_nil x), Hx. left. }
  rewrite list.Forall_forall in F1, F2.
  assert (x = y) as <-.
  { assert (x ∈ y :: l2) as [->|Hx2]%elem_of_cons by (apply Hx; left); [done|].
    assert (y ∈ x :: l1) as [->|Hy1]%elem_of_cons by (apply Hx; left); [done|].
    destruct (Has x y); auto. }
  f_equal. apply IH; [done|]. intros z. split; intros Hz.
  - assert (z ∈ x :: l2) as [->|]%elem_of_cons by (apply Hx; by right); [|done]. destruct (Has x x); auto.
  - assert (z ∈ x :: l1) as [->|]%elem_of_cons by (apply Hx; by right); [|done]. destruct (Has x x); auto.
Qed.

(** What a checked plan's times are. *)
Record plan_times (origin : Z) (index : nat) (times : list ExpectedValidTime) : Prop := {
  pt_slots : ev_storage_slot <$> times = Z.of_nat <$> seq index (length times);
  pt_hours : StronglySorted Z.lt (ev_forecast_hour <$> times);
  pt_lead : forall e, e ∈ times -> ev_lead_seconds e = ev_forecast_hour e * 3600 /\ ev_valid_unix e = origin + ev_forecast_hour e * 3600
}.

Lemma check_times_inv origin index prior times : check_times origin index prior times = Ok tt ->
  plan_times origin index times /\ forall p, prior = Some p -> Forall (Z.lt p) (ev_forecast_hour <$> times).
Proof.
  revert index prior. induction times as [|e times IH]; intros index prior H.
  { split; [|by constructor]. split; [done|constructor|]. intros e He. by apply not_elem_of_nil in He. }
  cbn [check_times] in H. res_step H. res_step H. res_step H. res_step H. destruct a2 as [lead valid]. res_step H.
  res_clean. breflect. apply IH in H as [[Hs Hh Hl] Hp]. specialize (Hp _ eq_refl).
  pose proof (valid_time_of_inv _ _ _ _ _ E2) as [-> ->].
  assert (ev_storage_slot e = Z.of_nat index) as Hslot.
  { unfold u16_try_from in E. destruct (Z.of_nat index <? u16_limit); [|done]. injection E as E. lia. }
  split; [split|].
  - cbn. by rewrite Hslot, <- Hs.
  - cbn. by constructor.
  - intros e' [->|He]%elem_of_cons; [split; [done|done]|by apply Hl].
  - intros p ->. cbn. assert (p < ev_forecast_hour e) by lia. constructor; [done|].
    eapply list.Forall_impl; [exact Hp|]. intros h Hhh. simpl in Hhh. lia.
Qed.

Lemma origin_revalidated c c' : 0 <= hour_utc c -> revalidate_cycle c = Ok c' -> cycle_origin_unix c = cycle_origin_unix c'.
Proof. intros Hh Hc. unfold cycle_origin_unix. by rewrite Hc, (revalidate_idem c c' Hh Hc). Qed.

Lemma plan_validate_times plan : 0 <= hour_utc (jp_cycle plan) -> plan_validate plan = Ok tt ->
  exists origin, origin_unix_of plan = Ok origin /\ plan_times origin 0 (expected_valid_times plan).
Proof.
  unfold plan_validate, origin_unix_of. intros Hh H. bind_step H E0. bind_step H Ec. rewrite (origin_revalidated _ _ Hh Ec).
  bind_step H E1. bind_step H E2. bind_step H E3. bind_step H E4. bind_step H E5. bind_step H Eo. eexists. split; [done|].
  bind_step H Et. match goal with u : unit |- _ => destruct u end. by apply check_times_inv in Et as [? _].
Qed.

Lemma seq_slots_sorted index n : StronglySorted Z.lt (Z.of_nat <$> seq index n).
Proof.
  revert index. induction n as [|n IH]; intros index; cbn; constructor; [apply IH|].
  apply list.Forall_forall. intros z (k & -> & Hk%elem_of_seq)%list_elem_of_fmap. lia.
Qed.

Lemma bset_diff_nil {K} (cmp : K -> K -> comparison) `{!TotalCmp cmp} a b : bset_diff cmp a b = [] <-> forall x, x ∈ a -> x ∈ b.
Proof.
  split.
  - intros H x Hx. destruct (bset_contains cmp x b) eqn:E; [by apply (bset_contains_iff cmp)|]. exfalso.
    apply (not_elem_of_nil x). rewrite <- H. apply (elem_of_bset_diff cmp). split; [done|].
    intros Hb. apply (bset_contains_iff cmp) in Hb. congruence.
  - intros H. destruct (bset_diff cmp a b) as [|x l] eqn:E; [done|]. exfalso.
    assert (x ∈ bset_diff cmp a b) as Hx by (rewrite E; left). apply (elem_of_bset_diff cmp) in Hx as [Ha Hb]. by apply Hb, H.
Qed.

Definition time_of (t : RwsExactTime) : ValidTime := {| vt_lead_seconds := lead_seconds t; vt_valid_unix := valid_unix t |}.
#[local] Instance time_of_inj : Inj (=) (=) time_of.
Proof. intros [a b] [c d]. unfold time_of. simpl. congruence. Qed.

Definition mismatch (plan : JobPlan) (x : Z * RwsExactTime) : option SlotMismatch :=
  match List.find (fun e => ev_storage_slot e =? x.1) (expected_valid_times plan) with
  | Some e => if bool_decide (time_of x.2 = valid_time_from e) then None
              else Some {| sm_storage_slot := x.1; sm_expected := valid_time_from e; sm_available := time_of x.2 |}
  | None => None
  end.

Lemma exact_fold plan l av mm :
  foldl (exact_step plan) (av, mm) l
  = (foldl (fun s x => bset_insert valid_time_cmp x s) av ((fun x => time_of x.2) <$> l), mm ++ omap (mismatch plan) l).
Proof.
  revert av mm. induction l as [|[slot t] l IH]; intros av mm; [by rewrite app_nil_r|]. cbn [foldl exact_step fmap list_fmap].
  unfold mismatch. cbn [omap list_omap fst snd].
  destruct (List.find _ _) as [e|]; [|by rewrite IH]. fold (time_of t). case_bool_decide; rewrite IH; [done|].
  by rewrite <- app_assoc.
Qed.

Lemma omap_nil {A B} (f : A -> option B) l : omap f l = [] <-> forall x, x ∈ l -> f x = None.
Proof.
  induction l as [|a l IH]; cbn.
  - split; [intros _ x Hx; by apply not_elem_of_nil in Hx|done].
  - destruct (f a) eqn:E.
    + split; [done|]. intros H. rewrite (H a) in E; [done|left].
    + change (list_omap _ _ f l) with (omap f l). rewrite IH. split.
      * intros H x [->|Hx]%elem_of_cons; [done|by apply H].
      * intros H x Hx. apply H. by right.
Qed.

Lemma sorted_omap {A B} (f : A -> option B) (R : A -> A -> Prop) (S : B -> B -> Prop) l :
  (forall a b x y, R a b -> f a = Some x -> f b = Some y -> S x y) -> StronglySorted R l -> StronglySorted S (omap f l).
Proof.
  intros HR. induction 1 as [|a l Hs IH Hf]; cbn; [constructor|]. change (list_omap _ _ f l) with (omap f l).
  destruct (f a) as [x|] eqn:E; [|done]. constructor; [done|]. apply list.Forall_forall.
  intros y (b & Hb & Eb)%list_elem_of_omap. rewrite list.Forall_forall in Hf. by eapply HR; [apply Hf| |].
Qed.

(** ** The exact times of a valid manifest *)

Lemma elem_of_exact_times m slot t : (slot, t) ∈ exact_times m <-> exists e, (slot, e) ∈ hours m /\ entry_exact_time e = Some t.
Proof.
  unfold exact_times. rewrite list_elem_of_omap. split.
  - intros ([s e] & Hin & He). destruct (entry_exact_time e) as [t'|] eqn:E; [|done]. injection He as -> ->. by exists e.
  - intros (e & Hin & He). exists (slot, e). by rewrite He.
Qed.

Definition slot_before (a b : Z * RwsExactTime) : Prop := a.1 < b.1 /\ lead_seconds a.2 < lead_seconds b.2.

Lemma sorted_conj {A} (R S : A -> A -> Prop) l : StronglySorted R l -> StronglySorted S l -> StronglySorted (fun a b => R a b /\ S a b) l.
Proof.
  induction 1 as [|a l Hs IH Hf]; intros H; inversion H; subst; constructor; [by apply IH|].
  rewrite list.Forall_forall in *. auto.
Qed.

Lemma sorted_fmap {A B} (f : A -> B) (R : B -> B -> Prop) l : StronglySorted R (f <$> l) <-> StronglySorted (fun a b => R (f a) (f b)) l.
Proof.
  induction l as [|a l IH]; [split; constructor|]. rewrite fmap_cons. split; intros H; inversion H as [|? ? H1 H2]; subst.
  - constructor; [by apply IH|]. rewrite list.Forall_fmap in H2. exact H2.
  - constructor; [by apply IH|]. rewrite list.Forall_fmap. exact H2.
Qed.

Lemma exact_times_sorted m : bmap_wf Z.compare (hours m) -> manifest_ok m -> StronglySorted slot_before (exact_times m).
Proof.
  intros Hwf Hok. unfold bmap_wf in Hwf. apply (proj1 (sorted_fmap fst _ _)) in Hwf.
  eapply sorted_omap; [|exact (sorted_conj _ _ _ Hwf (mo_times _ Hok))].
  intros [s1 e1] [s2 e2] x y [Hlt Hl] E1 E2. simpl in *. unfold key_lt in Hlt. rewrite Z.compare_lt_iff in Hlt.
  destruct (entry_exact_time e1) as [t1|] eqn:T1; [|done]. destruct (entry_exact_time e2) as [t2|] eqn:T2; [|done].
  injection E1 as <-. injection E2 as <-. split; simpl; [lia|]. by apply (Hl t1 T1 t2).
Qed.

Lemma sorted_trichotomy {A} (R : A -> A -> Prop) l a b : StronglySorted R l -> a ∈ l -> b ∈ l -> a = b \/ R a b \/ R b a.
Proof.
  induction 1 as [|x l Hs IH Hf]; [by intros H%not_elem_of_nil|]. rewrite list.Forall_forall in Hf.
  intros [->|Ha]%elem_of_cons [->|Hb]%elem_of_cons; auto.
Qed.

Lemma has_slot_iff m slot : bmap_wf Z.compare (hours m) -> manifest_ok m -> is_exact_time_axis m = true ->
  has_slot m slot = true <-> exists t, (slot, t) ∈ exact_times m.
Proof.
  intros Hwf Hok Hx. unfold has_slot. destruct (bmap_get Z.compare slot (hours m)) as [e|] eqn:E.
  - split; [|done]. intros _. apply (bmap_get_elem Z.compare) in E. destruct (mo_hours _ Hok) as [o Hall].
    rewrite list.Forall_forall in Hall. specialize (Hall _ E) as (_ & _ & Ht). rewrite Hx in Ht.
    destruct Ht as (t & Ht%paired_time_exact & _). exists t. apply elem_of_exact_times. by exists e.
  - split; [done|]. intros (t & (e & Hin & _)%elem_of_exact_times). apply (elem_bmap_get Z.compare) in Hin; [|done]. congruence.
Qed.

(** ** Completeness *)

(** The slots and times a plan expects. *)
Definition planned_time (e : ExpectedValidTime) : Z * RwsExactTime :=
  (ev_storage_slot e, {| lead_seconds := ev_lead_seconds e; valid_unix := ev_valid_unix e |}).

Lemma time_of_planned e : time_of (planned_time e).2 = valid_time_from e.
Proof. done. Qed.

Lemma elem_of_expected_set plan x : x ∈ expected_set plan <-> exists e, e ∈ expected_valid_times plan /\ x = valid_time_from e.
Proof.
  unfold expected_set. rewrite (elem_of_bset_of valid_time_cmp), list_elem_of_fmap.
  split; intros (e & H1 & H2); by exists e.
Qed.

Lemma slots_sorted origin plan : plan_times origin 0 (expected_valid_times plan) ->
  StronglySorted (fun a b => ev_storage_slot a < ev_storage_slot b) (expected_valid_times plan).
Proof. intros [Hs _ _]. apply (sorted_fmap ev_storage_slot Z.lt). rewrite Hs. apply seq_slots_sorted. Qed.

(** With increasing slots, the first expected time of a slot is the one. *)
Lemma find_slot origin plan e : plan_times origin 0 (expected_valid_times plan) -> e ∈ expected_valid_times plan ->
  List.find (fun x => ev_storage_slot x =? ev_storage_slot e) (expected_valid_times plan) = Some e.
Proof.
  intros Hp He. pose proof (slots_sorted _ _ Hp) as Hs.
  destruct (List.find _ _) as [e'|] eqn:E.
  - apply List.find_some in E as [Hin Heq%Z.eqb_eq]. apply list_elem_of_In in Hin.
    destruct (sorted_trichotomy _ _ _ _ Hs He Hin) as [->|[H|H]]; [done|lia|lia].
  - pose proof (List.find_none _ _ E e) as H. cbn beta in H. rewrite Z.eqb_refl in H. by specialize (H (proj1 (list_elem_of_In _ _) He)).
Qed.

Section exact.
Context (plan : JobPlan) (m : RwsRunManifest) (origin : Z).
Context (Hplan : plan_times origin 0 (expected_valid_times plan)).
Context (Hwf : bmap_wf Z.compare (hours m)) (Hok : manifest_ok m) (Hex : is_exact_time_axis m = true).

Lemma no_mismatch_iff : omap (mismatch plan) (exact_times m) = [] <->
  forall e t, e ∈ expected_valid_times plan -> (ev_storage_slot e, t) ∈ exact_times m -> time_of t = valid_time_from e.
Proof using Hplan.
  rewrite omap_nil. split.
  - intros H e t He Ht. specialize (H _ Ht). unfold mismatch in H. cbn [fst snd] in H.
    rewrite (find_slot origin) in H by done. by case_bool_decide.
  - intros H [slot t] Hin. unfold mismatch. cbn [fst snd]. destruct (List.find _ _) as [e|] eqn:E; [|done].
    apply List.find_some in E as [He <-%Z.eqb_eq]. apply list_elem_of_In in He.
    by rewrite bool_decide_eq_true_2 by by apply H.
Qed.

Lemma no_missing_slot_iff :
  bset_of Z.compare (List.filter (fun slot => negb (has_slot m slot)) (ev_storage_slot <$> expected_valid_times plan)) = [] <->
  forall e, e ∈ expected_valid_times plan -> exists t, (ev_storage_slot e, t) ∈ exact_times m.
Proof using Hwf Hok Hex.
  split.
  - intros H e He. apply has_slot_iff; [done..|]. destruct (has_slot m (ev_storage_slot e)) eqn:E; [done|].
    exfalso. apply (not_elem_of_nil (ev_storage_slot e)). rewrite <- H. apply (elem_of_bset_of Z.compare).
    apply list_elem_of_In, filter_In. rewrite E. split; [|done]. apply list_elem_of_In, list_elem_of_fmap. by exists e.
  - intros H. apply is_nil_true. destruct (bset_of _ _) as [|s l] eqn:E; [done|]. exfalso.
    assert (s ∈ bset_of Z.compare (List.filter (fun slot => negb (has_slot m slot)) (ev_storage_slot <$> expected_valid_times plan)))
      as Hs by (rewrite E; left).
    rewrite (elem_of_bset_of Z.compare), list_elem_of_In, filter_In, <- list_elem_of_In, list_elem_of_fmap in Hs.
    destruct Hs as [(e & -> & He) Hn]. apply H, has_slot_iff in He; [|done..]. by rewrite He in Hn.
Qed.

Lemma exact_complete_iff :
  (forall e t, e ∈ expected_valid_times plan -> (ev_storage_slot e, t) ∈ exact_times m -> time_of t = valid_time_from e)
  /\ (forall e, e ∈ expected_valid_times plan -> exists t, (ev_storage_slot e, t) ∈ exact_times m)
  /\ (forall x, x ∈ exact_times m -> time_of x.2 ∈ expected_set plan)
  <-> exact_times m = planned_time <$> expected_valid_times plan.
Proof using Hplan Hwf Hok.
  pose proof (exact_times_sorted m Hwf Hok) as Hsorted.
  assert (forall e, e ∈ expected_valid_times plan -> planned_time e ∈ planned_time <$> expected_valid_times plan) as Hpl.
  { intros e He. apply list_elem_of_fmap. by exists e. }
  split.
  - intros (Hmm & Hms & Hun).
    assert (forall e, e ∈ expected_valid_times plan -> planned_time e ∈ exact_times m) as Hin.
    { intros e He. destruct (Hms e He) as [t Ht]. pose proof (Hmm e t He Ht) as Et.
      rewrite <- time_of_planned in Et. apply (inj time_of) in Et. unfold planned_time. simpl in Et. by rewrite <- Et. }
    apply (sorted_ext (fun a b : Z * RwsExactTime => a.1 < b.1)).
    + intros a b. lia.
    + clear -Hsorted. induction Hsorted as [|a l Hs IH Hf]; constructor; [done|].
      eapply list.Forall_impl; [exact Hf|]. intros b [? _]. done.
    + apply sorted_fmap. apply (slots_sorted origin). done.
    + intros x. split.
      * intros Hx. pose proof (Hun x Hx) as (e & He & Et)%elem_of_expected_set. specialize (Hin e He).
        rewrite <- time_of_planned in Et. apply (inj time_of) in Et.
        destruct (sorted_trichotomy _ _ _ _ Hsorted Hx Hin) as [->|[[_ H]|[_ H]]]; [by apply Hpl| |]; rewrite Et in H; lia.
      * intros (e & -> & He)%list_elem_of_fmap. by apply Hin.
  - intros ->. split_and!.
    + intros e t He (e' & [= Hs ->] & He')%list_elem_of_fmap.
      pose proof (find_slot origin _ e Hplan He) as F1. rewrite Hs, (find_slot origin _ e' Hplan He') in F1. by injection F1 as ->.
    + intros e He. eexists. apply (Hpl e He).
    + intros x (e & -> & He)%list_elem_of_fmap. apply elem_of_expected_set. by exists e.
Qed.
End exact.

(** ** Whole-hour manifests *)

Definition hour_time (origin h : Z) : ValidTime := {| vt_lead_seconds := h * 3600; vt_valid_unix := origin + h * 3600 |}.

Lemma whole_hours_available origin hs av av' : bset_wf valid_time_cmp av -> rfold (whole_hour_step origin) hs av = Ok av' ->
  forall x, x ∈ av' <-> x ∈ av \/ exists h, h ∈ hs /\ x = hour_time origin h.
Proof.
  revert av. induction hs as [|h hs IH]; intros av Hwf H x.
  { injection H as <-. split; [auto|]. intros [?|(h & Hh & _)]; [done|by apply not_elem_of_nil in Hh]. }
  cbn [rfold] in H. bind_step H E. unfold whole_hour_step in E.
  destruct (valid_time_of _ _ _) as [[lead valid]| |] eqn:Ev; [|done..]. injection E as <-.
  apply valid_time_of_inv in Ev as [-> ->]. apply (IH _ (bset_insert_wf valid_time_cmp _ _ Hwf)) with (x := x) in H.
  rewrite H, (elem_of_bset_insert valid_time_cmp). split.
  - intros [[->|?]|(h' & Hh & ->)]; [right; exists h; split; [left|done]|by left|right; exists h'; split; [by right|done]].
  - intros [?|(h' & [->|Hh]%elem_of_cons & ->)]; [by left; right|by left; left|right; by exists h'].
Qed.

Lemma whole_hours_complete_iff plan m origin av :
  plan_times origin 0 (expected_valid_times plan) -> bmap_wf Z.compare (hours m) ->
  rfold (whole_hour_step origin) (hours m).*1 [] = Ok av ->
  (forall x, x ∈ expected_set plan -> x ∈ av) /\ (forall x, x ∈ av -> x ∈ expected_set plan)
  <-> (hours m).*1 = ev_forecast_hour <$> expected_valid_times plan.
Proof.
  intros [_ Hs Hl] Hwf Hav. pose proof (whole_hours_available origin _ _ _ ltac:(constructor) Hav) as Ha.
  assert (forall x, x ∈ av <-> exists h, h ∈ (hours m).*1 /\ x = hour_time origin h) as Ha'.
  { intros x. rewrite Ha. pose proof (not_elem_of_nil x). tauto. } clear Ha.
  assert (forall x, x ∈ expected_set plan <-> exists h, h ∈ ev_forecast_hour <$> expected_valid_times plan /\ x = hour_time origin h) as He.
  { intros x. rewrite elem_of_expected_set. split.
    - intros (e & He & ->). exists (ev_forecast_hour e). split; [apply list_elem_of_fmap; by exists e|].
      unfold valid_time_from, hour_time. by destruct (Hl e He) as [-> ->].
    - intros (h & (e & -> & He)%list_elem_of_fmap & ->). exists e. split; [done|].
      unfold valid_time_from, hour_time. by destruct (Hl e He) as [-> ->]. }
  assert (forall h h', hour_time origin h = hour_time origin h' -> h = h') as Hinj.
  { unfold hour_time. intros h h' [= ? _]. lia. }
  split.
  - intros [H1 H2]. apply (sorted_ext Z.lt); [lia| |done|].
    + unfold bmap_wf in Hwf. clear -Hwf. induction Hwf as [|a l Hs IH Hf]; constructor; [done|].
      eapply list.Forall_impl; [exact Hf|]. intros b Hb. unfold key_lt in Hb. by apply Z.compare_lt_iff.
    + intros h. split; intros Hh.
      * assert (hour_time origin h ∈ expected_set plan) as (h' & Hh' & ->%Hinj)%He by (apply H2, Ha'; by exists h). done.
      * assert (hour_time origin h ∈ av) as (h' & Hh' & ->%Hinj)%Ha' by (apply H1, He; by exists h). done.
  - intros Hk. split; intros x; rewrite Ha', He, Hk; done.
Qed.

(** ** The verdict *)

Lemma verify_manifest_inv plan m cov : verify_manifest plan m = Ok cov ->
  plan_validate plan = Ok tt /\ validate_contents m = Ok tt
  /\ exists mm ms, inventory plan m = Ok (cov_available cov, mm, ms) /\ slot_mismatches cov = mm /\ missing_slots cov = ms
  /\ cov_missing cov = bset_diff valid_time_cmp (expected_set plan) (cov_available cov)
  /\ cov_unexpected cov = bset_diff valid_time_cmp (cov_available cov) (expected_set plan).
Proof.
  unfold verify_manifest. intros H. bind_step H E1. bind_step H E2. bind_step H E3. bind_step H E4.
  match goal with x : list ValidTime * _ * _ |- _ => destruct x as [[av mm] ms] end. destruct a. injection H as <-. cbn. split; [done|].
  destruct (validate_contents m) as [[]| |]; [|done..]. split; [done|]. by exists mm, ms.
Qed.

(** When the inventory is complete. *)
Lemma complete_inventory plan m cov :
  0 <= hour_utc (jp_cycle plan) -> bmap_wf Z.compare (hours m) -> verify_manifest plan m = Ok cov ->
  temporal_inventory_complete cov = true <->
  if is_exact_time_axis m then exact_times m = planned_time <$> expected_valid_times plan
  else (hours m).*1 = ev_forecast_hour <$> expected_valid_times plan.
Proof.
  intros Hh Hwf H. apply verify_manifest_inv in H as (Hp & Hm & mm & ms & Hi & Emm & Ems & Emi & Eun).
  destruct (plan_validate_times plan Hh Hp) as (origin & Ho & Ht). apply valid_contents_ok in Hm.
  unfold temporal_inventory_complete. rewrite !andb_true_iff, !is_nil_true, Emm, Ems, Emi, Eun, !bset_diff_nil by apply _.
  unfold inventory in Hi. destruct (is_exact_time_axis m) eqn:Ex.
  - rewrite exact_fold in Hi. injection Hi as Hav <- <-. cbn [app]. rewrite (no_mismatch_iff plan m origin Ht), no_missing_slot_iff by done.
    rewrite <- (exact_complete_iff plan m origin) by done.
    assert (forall x, x ∈ cov_available cov <-> exists y, y ∈ exact_times m /\ x = time_of y.2) as Ha.
    { intros x. rewrite <- Hav. destruct (bset_of_acc valid_time_cmp [] ((fun x => time_of x.2) <$> exact_times m)) as [_ Hx]; [constructor|].
      rewrite Hx, list_elem_of_fmap. pose proof (not_elem_of_nil x). split; [intros [?|(y & ? & ?)]; [done|by exists y]|].
      intros (y & ? & ?). right. by exists y. }
    split.
    + intros (((H1 & H2) & H3) & H4). split_and!; [done|done|]. intros x Hx. apply H2, Ha. by exists x.
    + intros (H3 & H4 & H2). split_and!; [| |done|done].
      * intros x (e & He & ->)%elem_of_expected_set. destruct (H4 e He) as [t Hin]. apply Ha. exists (ev_storage_slot e, t).
        split; [done|]. symmetry. by apply H3.
      * intros x (y & Hy & ->)%Ha. by apply H2.
  - rewrite Ho in Hi. cbn [mbind result_bind] in Hi. bind_step Hi Ef. injection Hi as -> <- <-.
    rewrite <- (whole_hours_complete_iff plan m origin) by done. tauto.
Qed.

(** C31: A run's temporal inventory is complete ([verify_manifest] followed by
    [RunCoverage::temporal_inventory_complete]) exactly when the manifest holds
    what the plan expects and nothing else: for an exact-time manifest, the
    same storage slots with the same lead and valid times; for a whole-hour
    manifest, the same forecast hours. *)
Theorem inventory_complete_iff plan m cov :
  0 <= hour_utc (jp_cycle plan) -> bmap_wf Z.compare (hours m) -> verify_manifest plan m = Ok cov ->
  temporal_inventory_complete cov = true <->
  if is_exact_time_axis m then exact_times m = planned_time <$> expected_valid_times plan
  else (hours m).*1 = ev_forecast_hour <$> expected_valid_times plan.
Proof. apply complete_inventory. Qed.

Definition sample_run (origin : Z) : RwsRunManifest :=
  {| mf_schema := SCHEMA_RUN_V2; mf_model := "rtma"; mf_run := "20240229_07z"; mf_grid_hash := "grid"; mf_nx := 2; mf_ny := 2;
     hours := [(0, sample_entry 0 0 origin)];
     mf_writer := {| wi_name := "rw-store"; wi_version := "0.1.0"; wi_build := "test" |} |}.

Theorem inventory_complete_iff_witness :
  exists plan cov, build Rtma {| date_yyyymmdd := "20240229"; hour_utc := 7 |} = Ok plan
    /\ verify_manifest plan (sample_run 1709190000) = Ok cov /\ temporal_inventory_complete cov = true.
Proof.
  destruct (build Rtma {| date_yyyymmdd := "20240229"; hour_utc := 7 |}) as [plan| |] eqn:Hb; [|vm_compute in Hb; discriminate..].
  vm_compute in Hb. injection Hb as Hb.
  destruct (verify_manifest plan (sample_run 1709190000)) as [cov| |] eqn:Hv;
    [|rewrite <- Hb in Hv; vm_compute in Hv; discriminate..].
  exists plan, cov. split; [reflexivity|]. split; [exact Hv|].
  apply (inventory_complete_iff plan (sample_run 1709190000) cov).
  - rewrite <- Hb. vm_compute. discriminate.
  - repeat constructor.
  - exact Hv.
  - rewrite <- Hb. vm_compute. reflexivity.
Defined.
