(* ===== verification/Verify.v ===== *)
(** * Deep validation of a run

    [verify_run_json] of [crates/rw-scheduler/src/coverage.rs]: the scheduler
    opens the manifest, the grid and every hour file of a run before it calls
    the run complete or publishes it. The files do not change while they are
    checked, so that the second load of the manifest and the identity of the
    open files are those of the first; links are not followed. *)
From Stdlib Require Import ZArith Lia Ascii String.
From stdpp Require Import base list strings numbers sorting gmap.
From S2P Require Import Prelude Atomic F32 Format Header Index Codec TileCache Writer Reader Concrete Opened Text Order Ids Grid Cycle Models Profile Capability Plan Manifest Ingest Coverage.

Local Open Scope Z_scope.

(** [require_regular_file], with the content of the file. *)
Definition require_regular_file (entry : option DirEntry) : SchedulerResult (list byte) :=
  match entry with
  | None => Err (SchedulerIo "not found")
  | Some (RegularFile content) => Ok content
  | Some _ => Err (InvalidCoverage "must be a real regular file")
  end.

(** A slot whose file was checked, with the variables of the file. *)
Definition add_validated (storage_slot : Z) (names : list string) (c : RunCoverage) : RunCoverage :=
  {| cov_expected := cov_expected c; cov_available := cov_available c; cov_present := cov_present c; cov_missing := cov_missing c;
     cov_unexpected := cov_unexpected c; slot_mismatches := slot_mismatches c; missing_slots := missing_slots c;
     storage_validated := storage_validated c; validated_slots := bset_insert Z.compare storage_slot (validated_slots c);
     variable_slots := foldl (fun m name => bmap_alter str_compare (fun slots => bset_insert Z.compare storage_slot (default [] slots)) name m)
                         (variable_slots c) names |}.
Definition set_validated (c : RunCoverage) : RunCoverage :=
  {| cov_expected := cov_expected c; cov_available := cov_available c; cov_present := cov_present c; cov_missing := cov_missing c;
     cov_unexpected := cov_unexpected c; slot_mismatches := slot_mismatches c; missing_slots := missing_slots c;
     storage_validated := true; validated_slots := validated_slots c; variable_slots := variable_slots c |}.

#[local] Existing Instances RwsHourEntry_eq_dec RwsRunManifest_eq_dec.

Section verify.
Context `{External, !GridExternal, !ManifestJson}.

(** One hour of the loop; the slot also names the open file. *)
Definition verify_hour (mmap_ok : bool) (manifest : RwsRunManifest) (dir : RunDir) (coverage : RunCoverage) (x : Z * RwsHourEntry)
    : SchedulerResult RunCoverage :=
  let '(storage_slot, entry) := x in
  _ ← map_err Store (validate_store_component (file entry));
  content ← require_regular_file (dir !! file entry);
  '(reader, _) ← map_err Store (open_with_tile_cache_bytes storage_slot mmap_ok content 0);
  _ ← map_err Store (manifest_validate_hour_meta manifest storage_slot (r_meta reader));
  _ ← reject (negb (source_matches_path reader storage_slot)) (InvalidCoverage "storage slot changed while it was validated");
  Ok (add_validated storage_slot (var_name <$> variables (r_meta reader)) coverage).

Definition verify_run_json (mmap_ok : bool) (plan : JobPlan) (dir : RunDir) : SchedulerResult RunCoverage :=
  _ ← plan_validate plan;
  manifest ← map_err Store (load_for_run (path_state dir manifest_name) (model_as_str (jp_model plan)) (run_id plan));
  coverage ← verify_manifest plan manifest;
  _ ← require_regular_file (dir !! manifest_name);
  grid_bytes ← require_regular_file (dir !! grid_name);
  grid ← map_err Store (grid_open grid_bytes);
  _ ← map_err Store (validate_grid manifest (hash grid) (gf_nx grid) (gf_ny grid));
  coverage ← rfold (verify_hour mmap_ok manifest dir) (hours manifest) coverage;
  current ← map_err Store (load_for_run (path_state dir manifest_name) (model_as_str (jp_model plan)) (run_id plan));
  _ ← reject (negb (bool_decide (current = manifest))) (InvalidCoverage "run manifest changed during storage validation");
  Ok (set_validated coverage).
End verify.

(** What deep validation makes of the coverage of a manifest: every slot of
    the manifest is validated. *)
Definition storage_checked (m : RwsRunManifest) (variables : list (string * list Z)) (c : RunCoverage) : RunCoverage :=
  {| cov_expected := cov_expected c; cov_available := cov_available c; cov_present := cov_present c; cov_missing := cov_missing c;
     cov_unexpected := cov_unexpected c; slot_mismatches := slot_mismatches c; missing_slots := missing_slots c;
     storage_validated := true; validated_slots := bset_of Z.compare (hours m).*1; variable_slots := variables |}.

(** ** What was checked *)

Section facts.
Context `{External, !GridExternal, !ManifestJson}.

(** The file of an hour of the manifest opens and belongs to the run. *)
Definition hour_checked (mmap_ok : bool) (m : RwsRunManifest) (dir : RunDir) (x : Z * RwsHourEntry) : Prop :=
  exists content r, dir !! file x.2 = Some (RegularFile content) /\ open_reader x.1 mmap_ok content = Ok r
  /\ manifest_validate_hour_meta m x.1 (r_meta r) = Ok x.2
  /\ forecast_hour (r_meta r) = x.1 /\ Format.model (r_meta r) = mf_model m /\ Format.run (r_meta r) = mf_run m
  /\ grid_hash (r_meta r) = mf_grid_hash m /\ nx (r_meta r) = mf_nx m /\ ny (r_meta r) = mf_ny m.

Lemma checked_entry m slot meta entry : manifest_validate_hour_meta m slot meta = Ok entry -> bmap_get Z.compare slot (hours m) = Some entry
  /\ forecast_hour meta = slot /\ Format.model meta = mf_model m /\ Format.run meta = mf_run m
  /\ grid_hash meta = mf_grid_hash m /\ nx meta = mf_nx m /\ ny meta = mf_ny m.
Proof.
  intros E. split; [by eapply validated_entry|]. unfold manifest_validate_hour_meta in E. bind_step E E1. bind_step E E2. bind_step E E3. bind_step E E4.
  bind_step E E5. bind_step E E6. bind_step E E7. bind_step E E8. bind_step E E9. clear E.
  apply reject_inv, negb_false_iff, Z.eqb_eq in E7. apply reject_inv, orb_false_iff in E8 as [M1%negb_false_iff%bool_decide_eq_true M2%negb_false_iff%bool_decide_eq_true].
  apply reject_inv, orb_false_iff in E9 as [[G1%negb_false_iff%bool_decide_eq_true G2%negb_false_iff%bool_decide_eq_true]%orb_false_iff G3%negb_false_iff%bool_decide_eq_true].
  by split_and!.
Qed.

Lemma map_err_ok {E F A} (f : E -> F) (x : result E A) a : map_err f x = Ok a -> x = Ok a.
Proof. destruct x; [|done..]. by intros [= ->]. Qed.

Lemma regular_content o content : require_regular_file o = Ok content -> o = Some (RegularFile content).
Proof. destruct o as [[]|]; try done. by intros [= ->]. Qed.

Lemma verify_hour_inv mmap_ok m dir cov slot entry cov' : bmap_get Z.compare slot (hours m) = Some entry ->
  verify_hour mmap_ok m dir cov (slot, entry) = Ok cov' ->
  hour_checked mmap_ok m dir (slot, entry) /\ exists names, cov' = add_validated slot names cov.
Proof.
  intros Hg E. unfold verify_hour in E. bind_step E E1. bind_step E E2. bind_step E E3. match type of E3 with _ = Ok ?q => destruct q as [r cache] end.
  bind_step E E4. bind_step E E5. injection E as <-. split; [|by eexists]. apply regular_content in E2. apply map_err_ok in E3, E4.
  unfold open_with_tile_cache_bytes in E3. bind_step E3 E6. injection E3 as -> _. pose proof (checked_entry _ _ _ _ E4) as (Hg' & Hrest).
  rewrite Hg in Hg'. injection Hg' as <-. eexists _, r. cbn [fst snd]. split; [exact E2|]. split; [exact E6|]. split; [exact E4|]. exact Hrest.
Qed.

Lemma verify_hours_inv mmap_ok m dir l cov cov' : (forall x, x ∈ l -> bmap_get Z.compare x.1 (hours m) = Some x.2) ->
  rfold (verify_hour mmap_ok m dir) l cov = Ok cov' ->
  Forall (hour_checked mmap_ok m dir) l
  /\ exists variables, cov' = {| cov_expected := cov_expected cov; cov_available := cov_available cov; cov_present := cov_present cov; cov_missing := cov_missing cov;
       cov_unexpected := cov_unexpected cov; slot_mismatches := slot_mismatches cov; missing_slots := missing_slots cov;
       storage_validated := storage_validated cov; validated_slots := foldl (fun s x => bset_insert Z.compare x s) (validated_slots cov) l.*1;
       variable_slots := variables |}.
Proof.
  revert cov. induction l as [|[slot entry] l IH]; intros cov Hl E; cbn [rfold] in E.
  { injection E as <-. split; [done|]. exists (variable_slots cov). by destruct cov. }
  bind_step E E1. apply verify_hour_inv in E1 as (Hc & names & ->); [|by apply (Hl (slot, entry)); left].
  destruct (IH (add_validated slot names cov)) as (Hall & vars & ->); [intros x Hx; apply Hl; by right|done|]. split; [by constructor|]. by exists vars.
Qed.

Lemma exact_slots m : manifest_ok m -> is_exact_time_axis m = true -> (exact_times m).*1 = (hours m).*1.
Proof.
  intros Hok Hx. destruct (mo_hours _ Hok) as [o Hall]. rewrite Hx in Hall. unfold exact_times. clear Hok. induction Hall as [|[slot e] l He Hl IH]; [done|].
  cbn. destruct He as (_ & _ & t & Ht%paired_time_exact & _). cbn in Ht. rewrite Ht. cbn. by rewrite IH.
Qed.

Lemma expected_length origin plan : plan_times origin 0 (expected_valid_times plan) -> length (expected_set plan) = length (expected_valid_times plan).
Proof.
  intros [_ Hs Hl]. unfold expected_set. rewrite (bset_of_sorted valid_time_cmp); [apply length_fmap|]. unfold bset_wf, key_lt. apply sorted_fmap.
  apply (proj1 (sorted_fmap ev_forecast_hour Z.lt _)) in Hs. revert Hs Hl. generalize (expected_valid_times plan). intros ts Hs. induction Hs as [|e l Hs IH Hall]; intros Hl; constructor; [apply IH; intros x Hx; apply Hl; by right|].
  rewrite list.Forall_forall in *. intros x Hx. specialize (Hall x Hx). destruct (Hl e ltac:(left)) as [L1 _]. destruct (Hl x ltac:(by right)) as [L2 _].
  unfold valid_time_cmp, key_cmp, valid_time_key, pair_cmp, valid_time_from. cbn. rewrite L1, L2.
  by rewrite (proj2 (Z.compare_lt_iff _ _)) by lia.
Qed.

(** What an accepted run consists of. *)
Lemma verify_run_inv `{!ManifestJsonLaws} mmap_ok plan dir cov : verify_run_json mmap_ok plan dir = Ok cov ->
  exists m grid_bytes g cov0 variables, load_for_run (path_state dir manifest_name) (model_as_str (jp_model plan)) (run_id plan) = Ok m
  /\ bmap_wf Z.compare (hours m) /\ dir !! grid_name = Some (RegularFile grid_bytes) /\ grid_open grid_bytes = Ok g
  /\ hash g = mf_grid_hash m /\ gf_nx g = mf_nx m /\ gf_ny g = mf_ny m /\ Forall (hour_checked mmap_ok m dir) (hours m)
  /\ verify_manifest plan m = Ok cov0 /\ cov = storage_checked m variables cov0.
Proof.
  intros E. unfold verify_run_json in E. bind_step E Ep. bind_step E Em. apply map_err_ok in Em. rename a0 into m. bind_step E Ev. rename a0 into cov0.
  bind_step E E1. bind_step E E2. rename a1 into gb. apply regular_content in E2. bind_step E E3. rename a1 into g. apply map_err_ok in E3.
  bind_step E E4. apply map_err_ok in E4. bind_step E E5. rename a2 into cov1. rewrite bool_decide_eq_true_2 in E by done. injection E as <-.
  unfold validate_grid in E4. apply reject_inv, orb_false_iff in E4 as [[G1%negb_false_iff%bool_decide_eq_true G2%negb_false_iff%bool_decide_eq_true]%orb_false_iff G3%negb_false_iff%bool_decide_eq_true].
  assert (Hwf : bmap_wf Z.compare (hours m)).
  { unfold load_for_run in Em. bind_step Em F1. bind_step Em F2. bind_step Em F3. bind_step Em F4. injection Em as <-. by eapply load_sorted. }
  destruct (verify_hours_inv _ _ _ _ _ _ ltac:(intros [s e] Hx; by apply (elem_bmap_get Z.compare)) E5) as (Hall & variables & Ecov).
  exists m, gb, g, cov0, variables. split_and!; try done. rewrite Ecov. unfold verify_manifest in Ev. bind_step Ev V1. bind_step Ev V2. bind_step Ev V3. bind_step Ev V4.
  match type of V4 with _ = Ok ?q => destruct q as [[? ?] ?] end. by injection Ev as <-.
Qed.
End facts.

(** C25: deep validation means what it says. When [verify_run_json] accepts a
    run, its manifest loads for the model and run of the plan, the grid file
    opens and is the grid of the manifest, and every hour of the manifest has
    a file that opens as an hour of this slot, model, run and grid. All slots
    of the manifest count as validated; and the run is complete exactly when
    the manifest holds what the plan expects and nothing else: the planned
    slots with the planned times for an exact-time manifest, the planned hours
    for a whole-hour manifest. *)
Theorem verified_run_is_readable `{External, !GridExternal, !ManifestJson, !ManifestJsonLaws} mmap_ok plan dir cov :
  0 <= hour_utc (jp_cycle plan) -> verify_run_json mmap_ok plan dir = Ok cov ->
  exists m grid_bytes g, load_for_run (path_state dir manifest_name) (model_as_str (jp_model plan)) (run_id plan) = Ok m
  /\ dir !! grid_name = Some (RegularFile grid_bytes) /\ grid_open grid_bytes = Ok g
  /\ hash g = mf_grid_hash m /\ gf_nx g = mf_nx m /\ gf_ny g = mf_ny m
  /\ Forall (hour_checked mmap_ok m dir) (hours m)
  /\ (exists cov0 variables, verify_manifest plan m = Ok cov0 /\ cov = storage_checked m variables cov0)
  /\ (is_complete cov = true <->
       if is_exact_time_axis m then exact_times m = planned_time <$> expected_valid_times plan
       else (hours m).*1 = ev_forecast_hour <$> expected_valid_times plan).
Proof.
  intros Hh E. destruct (verify_run_inv _ _ _ _ E) as (m & gb & g & cov0 & variables & Em & Hwf & E2 & E3 & G1 & G2 & G3 & Hall & Ev & ->).
  pose proof (complete_inventory plan m cov0 Hh Hwf Ev) as Hc. pose proof (verify_manifest_inv _ _ _ Ev) as (Hp & Hm & _). apply valid_contents_ok in Hm.
  destruct (plan_validate_times plan Hh Hp) as (origin & _ & Ht). pose proof (expected_length origin plan Ht) as Hlen.
  assert (He : cov_expected cov0 = expected_set plan).
  { unfold verify_manifest in Ev. bind_step Ev V1. bind_step Ev V2. bind_step Ev V3. bind_step Ev V4.
    match type of V4 with _ = Ok ?q => destruct q as [[? ?] ?] end. by injection Ev as <-. }
  exists m, gb, g. split_and!; try done; [by exists cov0, variables|]. rewrite <- Hc. unfold is_complete, temporal_inventory_complete, storage_checked.
  cbn [cov_missing cov_unexpected slot_mismatches missing_slots storage_validated validated_slots cov_expected]. rewrite andb_true_r, andb_true_iff, Nat.eqb_eq.
  split; [by intros [? _]|]. intros Hok. split; [done|]. apply Hc in Hok. rewrite (bset_of_sorted Z.compare) by exact Hwf. rewrite He, Hlen.
  destruct (is_exact_time_axis m) eqn:Ex.
  - by rewrite <- (exact_slots m Hm Ex), Hok, !length_fmap.
  - by rewrite Hok, length_fmap.
Qed.

(** ** An example

    An RTMA analysis, stored by the writer of the hour and validated. *)

Definition rtma_plan : JobPlan := Eval vm_compute in
  match build Rtma {| date_yyyymmdd := "20240229"; hour_utc := 7 |} with
  | Ok plan => plan
  | _ => {| jp_schema := ""; job_id := ""; jp_model := Rtma; jp_cycle := {| date_yyyymmdd := ""; hour_utc := 0 |};
            run_id := ""; expected_valid_times := []; ingest_products := []; capability_limitations := [];
            ingest_profile := {| pp_volumes := []; pp_level_step_hpa := 0; pp_surface_fields := None; pp_derived := false; pp_heavy := false |};
            source_override := None |}
  end.
Definition rtma_time : RwsExactTime := {| lead_seconds := 0; valid_unix := 1709190000 |}.
Definition rtma_meta : RwsHourMeta :=
  {| schema := SCHEMA_HOUR_V2; model := "rtma"; run := "20240229_07z"; forecast_hour := 0;
     meta_lead_seconds := Some 0; meta_valid_unix := Some 1709190000; nx := 3; ny := 2; grid_hash := "73";
     variables :=
       [{| var_meta_id := 0; var_name := "flat"; var_units := "1"; var_kind := "surface2d"; var_codec := CODEC_2D; levels_hpa := []; selector := tt |}];
     chunking := {| chunk_tile_y := TILE_Y; chunk_tile_x := TILE_X; chunk_col_y := COL_Y; chunk_col_x := COL_X |};
     writer := {| wi_name := "rw-store"; wi_version := "0.1.0"; wi_build := "build" |} |}.
Definition rtma_manifest : RwsRunManifest :=
  {| mf_schema := SCHEMA_RUN_V2; mf_model := "rtma"; mf_run := "20240229_07z"; mf_grid_hash := "73"; mf_nx := 3; mf_ny := 2;
     hours := [(0, {| file := ordinal_file 0; he_lead_seconds := Some 0; he_valid_unix := Some 1709190000; written_unix := 1770000000;
                      encode_ms := 5; he_variables := ["flat"%string]; source_provenance := [] |})];
     mf_writer := {| wi_name := "rw-store"; wi_version := "0.1.0"; wi_build := "build" |} |}.

Definition rtma_external : External := {|
  zstd_encode_all := zstd_encode_all;
  zstd_decoder := zstd_decoder;
  json_to_vec m := if bool_decide (m = rtma_meta) then Ok [Byte.x6d] else Err (Meta "unknown");
  json_from_slice bs := if bool_decide (bs = [Byte.x6d]) then Ok rtma_meta else Err (Meta "unknown");
  try_reserve _ := true;
  CARGO_PKG_VERSION := "0.1.0"
|}.
Definition rtma_manifests : ManifestJson := {|
  manifest_to_vec_pretty m := if bool_decide (m = rtma_manifest) then Ok [Byte.x7b; Byte.x7d] else Err (Meta "unknown");
  manifest_from_slice bs := if bool_decide (bs = [Byte.x7b; Byte.x7d; Byte.x0a]) then Ok rtma_manifest else Err (Meta "unknown")
|}.
Lemma rtma_manifests_laws : @ManifestJsonLaws rtma_manifests.
Proof.
  split.
  - intros m bs. cbn. case_bool_decide as E; intros [= <-]. by rewrite E.
  - intros bs m. cbn. case_bool_decide; intros [= <-]. repeat constructor.
Qed.

(** The run directory after the write. *)
Definition rtma_dir : RunDir :=
  (@write_hour_from_grid_with_derived_time _ _ rtma_external one_grid rtma_manifests stored_selectors no_faults
     "rtma" "20240229_07z" 0 (Some rtma_time) sample_grid (Some sample_projection) [] [flat_field] [] "build" 1770000000 5 ∅).2.
Definition rtma_coverage : SchedulerResult RunCoverage := @verify_run_json _ rtma_external one_grid rtma_manifests true rtma_plan rtma_dir.

Lemma rtma_verifies : match rtma_coverage with Ok cov => is_complete cov = true /\ variable_slots cov = [("flat"%string, [0])] | _ => False end.
Proof. vm_compute. split; reflexivity. Qed.

Theorem verified_run_is_readable_witness : exists cov m, rtma_coverage = Ok cov
  /\ @load_for_run rtma_manifests (path_state rtma_dir manifest_name) "rtma" "20240229_07z" = Ok m
  /\ Forall (@hour_checked _ rtma_external true m rtma_dir) (hours m)
  /\ (if is_exact_time_axis m then exact_times m = planned_time <$> expected_valid_times rtma_plan
      else (hours m).*1 = ev_forecast_hour <$> expected_valid_times rtma_plan).
Proof.
  pose proof rtma_verifies as Hv. destruct rtma_coverage as [cov| |] eqn:E; [|destruct Hv..]. destruct Hv as [Hc _]. unfold rtma_coverage in E.
  destruct (@verified_run_is_readable _ rtma_external one_grid rtma_manifests rtma_manifests_laws true rtma_plan rtma_dir cov)
    as (m & gb & g & Hm & _ & _ & _ & _ & _ & Hall & _ & Hiff); [vm_compute; discriminate|exact E|].
  exists cov, m. split; [reflexivity|]. split; [exact Hm|]. split; [exact Hall|]. apply Hiff. exact Hc.
Defined.
