(* ===== verification/Jobs.v ===== *)
(** * Job records

    [crates/rw-scheduler/src/state.rs] and [limits.rs]: the retry policy and
    its back-off, the state of a job with the operations that change it, and
    the admission decision. An operation takes [&mut self] and may fail after
    it has changed some fields, so it is a state transformer that returns the
    record also with an error. *)
From Stdlib Require Import ZArith Lia Ascii String.
From stdpp Require Import base list strings numbers sorting.
From S2P Require Import Prelude F32 Format Text Order Ids Cycle Models Profile Capability Plan Manifest Coverage.

Local Open Scope Z_scope.

Definition JOB_STATE_SCHEMA : string := "rw-scheduler.job-state.v1".
Definition MAX_LAST_ERROR_BYTES : nat := 4096.

(** ** Retry policy *)

Record RetryPolicy := {
  max_attempts : Z;              (* u32 *)
  initial_backoff_seconds : Z;   (* u64 *)
  max_backoff_seconds : Z        (* u64 *)
}.

Definition policy_validate (p : RetryPolicy) : SchedulerResult unit :=
  _ ← reject (max_attempts p =? 0) (InvalidConfig "retry max_attempts must be greater than zero");
  _ ← reject (initial_backoff_seconds p =? 0) (InvalidConfig "retry initial_backoff_seconds must be greater than zero");
  reject (max_backoff_seconds p <? initial_backoff_seconds p)
    (InvalidConfig "retry max_backoff_seconds must be at least the initial backoff").

Definition retry_policy_new (attempts initial max : Z) : SchedulerResult RetryPolicy :=
  let policy := {| max_attempts := attempts; initial_backoff_seconds := initial; max_backoff_seconds := max |} in
  _ ← policy_validate policy;
  Ok policy.

(** [2_u64.checked_pow(n)] and [u64::saturating_mul]. *)
Definition checked_pow2 (n : Z) : option Z := if n <? 64 then Some (2 ^ n) else None.
Definition saturating_mul64 (a b : Z) : Z := Z.min (a * b) U64_MAX.

Definition delay_after_attempt (p : RetryPolicy) (attempt : Z) : SchedulerResult Z :=
  _ ← policy_validate p;
  _ ← reject (attempt =? 0) (InvalidState "cannot back off an attempt numbered zero");
  let factor := default U64_MAX (checked_pow2 (attempt - 1)) in
  Ok (Z.min (saturating_mul64 (initial_backoff_seconds p) factor) (max_backoff_seconds p)).

(** ** Job state *)

Inductive JobState :=
| Queued
| Running (started_unix : Z)
| RetryBackoff (retry_at_unix : Z)
| Succeeded (finished_unix : Z)
| Failed (finished_unix : Z).

Definition is_active (s : JobState) : bool :=
  match s with Queued | Running _ | RetryBackoff _ => true | _ => false end.

Record JobRecord := {
  jr_schema : string;
  jr_plan : JobPlan;
  jr_state : JobState;
  attempts : Z;         (* u32 *)
  recovery_count : Z;   (* u32 *)
  created_unix : Z;     (* i64 *)
  updated_unix : Z;     (* i64 *)
  last_error : option string
}.

Definition job_record_new (plan : JobPlan) (now_unix : Z) : SchedulerResult JobRecord :=
  _ ← plan_validate plan;
  Ok {| jr_schema := JOB_STATE_SCHEMA; jr_plan := plan; jr_state := Queued; attempts := 0; recovery_count := 0;
        created_unix := now_unix; updated_unix := now_unix; last_error := None |}.

Definition is_queued (s : JobState) : bool := match s with Queued => true | _ => false end.
Definition is_running (s : JobState) : bool := match s with Running _ => true | _ => false end.
Definition is_backoff (s : JobState) : bool := match s with RetryBackoff _ => true | _ => false end.
Definition is_failed (s : JobState) : bool := match s with Failed _ => true | _ => false end.
Definition is_succeeded (s : JobState) : bool := match s with Succeeded _ => true | _ => false end.

Definition job_validate (r : JobRecord) : SchedulerResult unit :=
  _ ← reject (negb (bool_decide (jr_schema r = JOB_STATE_SCHEMA))) (InvalidState "unexpected state schema");
  _ ← plan_validate (jr_plan r);
  _ ← reject (match last_error r with Some error => Z.of_nat MAX_LAST_ERROR_BYTES <? str_len error | None => false end)
        (InvalidState "last_error exceeds 4096 bytes");
  _ ← reject (negb (is_queued (jr_state r)) && (attempts r =? 0)) (InvalidState "a started or terminal job must have at least one attempt");
  reject ((is_backoff (jr_state r) || is_failed (jr_state r)) && negb (is_some (last_error r)))
    (InvalidState "retrying or failed jobs must retain a diagnostic").

(** [truncate_utf8]: the loop walks down from the limit to a character
    boundary; position zero is one. *)
Fixpoint boundary_below (l : list ascii) (e : nat) : nat :=
  if is_char_boundary l e then e else match e with O => O | S e => boundary_below l e end.
Definition truncate_utf8 (value : string) (max_bytes : nat) : SchedulerResult string :=
  if (length (bytes value) <=? max_bytes)%nat then Ok value
  else s ← str_slice (bytes value) 0 (boundary_below (bytes value) max_bytes); Ok (of_bytes s).

(** ** Operations *)

(** [&mut JobRecord -> Result<A, SchedulerError>]. *)
Definition job_op (A : Type) : Type := JobRecord -> SchedulerResult A * JobRecord.
#[global] Instance job_ret : MRet job_op := fun A a r => (Ok a, r).
#[global] Instance job_bind : MBind job_op := fun A B k op r =>
  match op r with
  | (Ok a, r') => k a r'
  | (Err e, r') => (Err e, r')
  | (Panic, r') => (Panic, r')
  end.
Definition lift {A} (x : SchedulerResult A) : job_op A := fun r => (x, r).
Definition self : job_op JobRecord := fun r => (Ok r, r).
Definition set_state (s : JobState) : job_op unit := fun r =>
  (Ok tt, {| jr_schema := jr_schema r; jr_plan := jr_plan r; jr_state := s; attempts := attempts r; recovery_count := recovery_count r;
             created_unix := created_unix r; updated_unix := updated_unix r; last_error := last_error r |}).
Definition set_attempts (n : Z) : job_op unit := fun r =>
  (Ok tt, {| jr_schema := jr_schema r; jr_plan := jr_plan r; jr_state := jr_state r; attempts := n; recovery_count := recovery_count r;
             created_unix := created_unix r; updated_unix := updated_unix r; last_error := last_error r |}).
Definition set_recovery_count (n : Z) : job_op unit := fun r =>
  (Ok tt, {| jr_schema := jr_schema r; jr_plan := jr_plan r; jr_state := jr_state r; attempts := attempts r; recovery_count := n;
             created_unix := created_unix r; updated_unix := updated_unix r; last_error := last_error r |}).
Definition set_updated (t : Z) : job_op unit := fun r =>
  (Ok tt, {| jr_schema := jr_schema r; jr_plan := jr_plan r; jr_state := jr_state r; attempts := attempts r; recovery_count := recovery_count r;
             created_unix := created_unix r; updated_unix := t; last_error := last_error r |}).
Definition set_error (e : option string) : job_op unit := fun r =>
  (Ok tt, {| jr_schema := jr_schema r; jr_plan := jr_plan r; jr_state := jr_state r; attempts := attempts r; recovery_count := recovery_count r;
             created_unix := created_unix r; updated_unix := updated_unix r; last_error := e |}).

(** [u32::checked_add]. *)
Definition checked_add32 (a b : Z) : option Z := if a + b <? u32_limit then Some (a + b) else None.

Definition start (now_unix : Z) (policy : RetryPolicy) : job_op unit :=
  _ ← lift (policy_validate policy);
  r ← self;
  _ ← lift (match jr_state r with
            | Queued => Ok tt
            | RetryBackoff retry_at_unix => reject (now_unix <? retry_at_unix) (InvalidState "job is in backoff")
            | _ => Err (InvalidState "only a queued or due retry job can start")
            end);
  _ ← lift (reject (max_attempts policy <=? attempts r) (InvalidState "job exhausted its allowed attempts"));
  n ← lift (ok_or (checked_add32 (attempts r) 1) (InvalidState "job attempt counter overflow"));
  _ ← set_attempts n;
  _ ← set_state (Running now_unix);
  set_updated now_unix.

Definition finish_success (now_unix : Z) (coverage : RunCoverage) : job_op unit :=
  r ← self;
  _ ← lift (reject (negb (is_running (jr_state r))) (InvalidState "only a running job can succeed"));
  _ ← lift (reject (negb (is_complete coverage)) (InvalidCoverage "cannot complete job with missing valid times"));
  _ ← lift (reject (negb (matches_plan coverage (jr_plan r))) (InvalidCoverage "coverage does not belong to job"));
  _ ← set_state (Succeeded now_unix);
  _ ← set_updated now_unix;
  set_error None.

(** [now.checked_add(i64::try_from(delay)?)]. *)
Definition retry_time (now_unix delay : Z) : SchedulerResult Z :=
  d ← ok_or (i64_try_from delay) (InvalidState "retry delay exceeds timestamp range");
  ok_or (checked_add_i64 now_unix d) (InvalidState "retry timestamp overflow").

Definition finish_failure (now_unix : Z) (error : string) (policy : RetryPolicy) : job_op unit :=
  _ ← lift (policy_validate policy);
  r ← self;
  _ ← lift (reject (negb (is_running (jr_state r))) (InvalidState "only a running job can fail"));
  diagnostic ← lift (truncate_utf8 error MAX_LAST_ERROR_BYTES);
  _ ← set_error (Some diagnostic);
  _ ← set_updated now_unix;
  if max_attempts policy <=? attempts r then set_state (Failed now_unix)
  else
    delay ← lift (delay_after_attempt policy (attempts r));
    retry_at_unix ← lift (retry_time now_unix delay);
    set_state (RetryBackoff retry_at_unix).

Definition finish_failure_with_delay (now_unix : Z) (error : string) (policy : RetryPolicy) (retry_delay_seconds : Z) : job_op unit :=
  _ ← lift (reject ((retry_delay_seconds =? 0) || (max_backoff_seconds policy <? retry_delay_seconds))
              (InvalidState "retry delay must be in 1..=max_backoff_seconds"));
  _ ← finish_failure now_unix error policy;
  r ← self;
  if is_backoff (jr_state r) then
    retry_at_unix ← lift (retry_time now_unix retry_delay_seconds);
    set_state (RetryBackoff retry_at_unix)
  else mret tt.

Definition requeue_for_repair (now_unix : Z) (reason : string) : job_op unit :=
  r ← self;
  _ ← lift (reject (negb (is_succeeded (jr_state r) || is_failed (jr_state r))) (InvalidState "only a terminal job can be requeued for repair"));
  _ ← set_state Queued;
  _ ← set_attempts 0;
  _ ← set_updated now_unix;
  diagnostic ← lift (truncate_utf8 reason MAX_LAST_ERROR_BYTES);
  set_error (Some diagnostic).

Definition release_retry (now_unix : Z) : job_op unit :=
  r ← self;
  retry_at_unix ← lift (match jr_state r with
                        | RetryBackoff retry_at_unix => Ok retry_at_unix
                        | _ => Err (InvalidState "only a retry-backoff job can be released")
                        end);
  _ ← lift (reject (now_unix <? retry_at_unix) (InvalidState "job is in backoff"));
  _ ← set_state Queued;
  set_updated now_unix.

Definition recover_after_restart (now_unix : Z) : job_op bool :=
  r ← self;
  if negb (is_running (jr_state r)) then mret false
  else
    _ ← lift (reject (attempts r =? 0) (InvalidState "running job has no in-flight attempt"));
    _ ← set_attempts (attempts r - 1);
    n ← lift (ok_or (checked_add32 (recovery_count r) 1) (InvalidState "job recovery counter overflow"));
    _ ← set_recovery_count n;
    _ ← set_state Queued;
    _ ← set_updated now_unix;
    mret true.

(** ** Admission ([limits.rs]) *)

Record SchedulerLimits := { max_concurrent_jobs : Z; max_queued_jobs : Z }.
Inductive AdmissionDecision := StartNow | Queue | AtCapacity.

Definition limits_validate (l : SchedulerLimits) : SchedulerResult unit :=
  reject (max_concurrent_jobs l =? 0) (InvalidConfig "max_concurrent_jobs must be greater than zero").
Definition limits_new (concurrent queued : Z) : SchedulerResult SchedulerLimits :=
  let limits := {| max_concurrent_jobs := concurrent; max_queued_jobs := queued |} in
  _ ← limits_validate limits;
  Ok limits.
Definition limits_admit (l : SchedulerLimits) (running queued : Z) : SchedulerResult AdmissionDecision :=
  _ ← limits_validate l;
  _ ← reject (max_concurrent_jobs l <? running) (Capacity "running jobs exceed the configured maximum");
  _ ← reject (max_queued_jobs l <? queued) (Capacity "queued jobs exceed the configured maximum");
  if (running <? max_concurrent_jobs l) && (queued =? 0) then Ok StartNow
  else if queued <? max_queued_jobs l then Ok Queue
  else Ok AtCapacity.

(** ** Truncation *)

Lemma char_boundary_zero l : is_char_boundary l 0 = true.
Proof. done. Qed.

Lemma boundary_below_spec l e : is_char_boundary l (boundary_below l e) = true /\ (boundary_below l e <= e)%nat
  /\ forall k, (k <= e)%nat -> is_char_boundary l k = true -> (k <= boundary_below l e)%nat.
Proof.
  induction e as [|e (IH1 & IH2 & IH3)]; cbn [boundary_below].
  - rewrite char_boundary_zero. done.
  - destruct (is_char_boundary l (S e)) eqn:E; [done|]. split; [done|]. split; [lia|].
    intros k Hk Hb. destruct (decide (k = S e)) as [->|]; [congruence|]. apply IH3; [lia|done].
Qed.

(** The longest prefix that fits and ends at a character boundary. *)
Lemma truncate_spec value max_bytes : exists k, truncate_utf8 value max_bytes = Ok (of_bytes (take k (bytes value)))
  /\ (k <= length (bytes value))%nat /\ (k <= max_bytes)%nat /\ is_char_boundary (bytes value) k = true
  /\ forall j, (j <= length (bytes value))%nat -> (j <= max_bytes)%nat -> is_char_boundary (bytes value) j = true -> (j <= k)%nat.
Proof.
  unfold truncate_utf8. destruct (length (bytes value) <=? max_bytes)%nat eqn:E.
  - apply Nat.leb_le in E. exists (length (bytes value)). rewrite firstn_all, of_bytes_bytes. split_and!; try done.
    unfold is_char_boundary. by rewrite Nat.eqb_refl, orb_true_r.
  - apply Nat.leb_gt in E. destruct (boundary_below_spec (bytes value) max_bytes) as (Hb & Hle & Hmax).
    exists (boundary_below (bytes value) max_bytes). unfold str_slice. rewrite char_boundary_zero, Hb. cbn [andb Nat.leb mbind result_bind].
    rewrite Nat.sub_0_r. split_and!; [done|lia|lia|done|]. intros j _ Hj. by apply Hmax.
Qed.

Lemma truncate_bounded value max_bytes : exists s, truncate_utf8 value max_bytes = Ok s /\ str_len s <= Z.of_nat max_bytes.
Proof.
  destruct (truncate_spec value max_bytes) as (k & -> & _ & Hk & _). eexists. split; [done|].
  unfold str_len. rewrite bytes_of_bytes, length_take. lia.
Qed.

(** ** Back-off *)

Definition policy_ok (p : RetryPolicy) : Prop :=
  0 < max_attempts p < u32_limit /\ 0 < initial_backoff_seconds p <= max_backoff_seconds p /\ max_backoff_seconds p <= U64_MAX.

Lemma policy_validate_ok p : policy_ok p -> policy_validate p = Ok tt.
Proof. intros (H1 & H2 & H3). unfold policy_validate. zdecide. done. Qed.

Lemma delay_spec p attempt : policy_ok p -> 1 <= attempt ->
  delay_after_attempt p attempt = Ok (Z.min (initial_backoff_seconds p * 2 ^ (attempt - 1)) (max_backoff_seconds p)).
Proof.
  intros Hp Ha. unfold delay_after_attempt. rewrite policy_validate_ok by done. destruct Hp as (_ & [H1 H2] & H3).
  zdecide. cbn [reject mbind result_bind]. unfold checked_pow2, saturating_mul64. f_equal. unfold U64_MAX in *.
  destruct (attempt - 1 <? 64) eqn:E; unfold from_option, id; [lia|].
  assert (2 ^ 64 <= 2 ^ (attempt - 1)) by (apply Z.pow_le_mono_r; lia). nia.
Qed.

(** With a valid policy the delay after attempt [n] is the initial
    back-off doubled [n - 1] times and capped at the maximum, computed without
    the intermediate overflow of the 64-bit code being visible; it never lies
    outside the two configured bounds and never decreases. *)
Theorem backoff_is_capped_doubling p attempt :
  policy_ok p -> 1 <= attempt ->
  exists delay next,
    delay_after_attempt p attempt = Ok delay /\ delay_after_attempt p (attempt + 1) = Ok next
    /\ delay = Z.min (initial_backoff_seconds p * 2 ^ (attempt - 1)) (max_backoff_seconds p)
    /\ next = Z.min (2 * delay) (max_backoff_seconds p)
    /\ initial_backoff_seconds p <= delay <= next /\ next <= max_backoff_seconds p.
Proof.
  intros Hp Ha. do 2 eexists. rewrite !delay_spec by (done || lia). split; [done|]. split; [done|].
  assert (2 ^ (attempt + 1 - 1) = 2 * 2 ^ (attempt - 1)) as -> by (rewrite <- Z.pow_succ_r by lia; f_equal; lia).
  assert (1 <= 2 ^ (attempt - 1)) by (pose proof (Z.pow_pos_nonneg 2 (attempt - 1)); lia).
  destruct Hp as (_ & H2 & _). split; [done|]. nia.
Qed.

Theorem backoff_is_capped_doubling_witness :
  let p := {| max_attempts := 70; initial_backoff_seconds := 30; max_backoff_seconds := 3600 |} in
  delay_after_attempt p 3 = Ok 120 /\ delay_after_attempt p 66 = Ok 3600.
Proof.
  intros p. assert (policy_ok p) as Hp by (vm_compute; intuition congruence).
  destruct (backoff_is_capped_doubling p 3 Hp) as (d & n & H1 & _ & E1 & _); [lia|].
  destruct (backoff_is_capped_doubling p 65 Hp) as (d' & n' & _ & H2 & _ & E2 & H3 & H4); [lia|].
  split; [rewrite H1, E1; reflexivity|]. vm_compute. reflexivity.
Defined.

(** ** The life of a record *)

Inductive JobEvent :=
| EvStart (now : Z)
| EvSucceed (now : Z) (coverage : RunCoverage)
| EvFail (now : Z) (error : string)
| EvFailAfter (now : Z) (error : string) (delay : Z)
| EvRequeue (now : Z) (reason : string)
| EvRelease (now : Z)
| EvRecover (now : Z).

Definition run_event (p : RetryPolicy) (ev : JobEvent) : job_op unit :=
  match ev with
  | EvStart now => start now p
  | EvSucceed now coverage => finish_success now coverage
  | EvFail now error => finish_failure now error p
  | EvFailAfter now error delay => finish_failure_with_delay now error p delay
  | EvRequeue now reason => requeue_for_repair now reason
  | EvRelease now => release_retry now
  | EvRecover now => _ ← recover_after_restart now; mret tt
  end.

(** A delay is unsigned. *)
Definition event_typed (ev : JobEvent) : Prop := match ev with EvFailAfter _ _ delay => 0 <= delay | _ => True end.

(** Successful events in sequence. *)
Inductive job_trace (p : RetryPolicy) : JobRecord -> list JobEvent -> JobRecord -> Prop :=
| trace_nil r : job_trace p r [] r
| trace_cons r ev r1 evs r2 : event_typed ev -> run_event p ev r = (Ok tt, r1) -> job_trace p r1 evs r2 -> job_trace p r (ev :: evs) r2.

(** The fields an operation may change. *)
Definition upd (r : JobRecord) (s : JobState) (n rc now : Z) (e : option string) : JobRecord :=
  {| jr_schema := jr_schema r; jr_plan := jr_plan r; jr_state := s; attempts := n; recovery_count := rc;
     created_unix := created_unix r; updated_unix := now; last_error := e |}.

(** What a successful event did. *)
Inductive job_effect (p : RetryPolicy) : JobEvent -> JobRecord -> JobRecord -> Prop :=
| eff_start now r : (jr_state r = Queued \/ exists t, jr_state r = RetryBackoff t /\ t <= now) -> attempts r < max_attempts p ->
    job_effect p (EvStart now) r (upd r (Running now) (attempts r + 1) (recovery_count r) now (last_error r))
| eff_succeed now cov r : is_running (jr_state r) = true -> is_complete cov = true -> matches_plan cov (jr_plan r) = true ->
    job_effect p (EvSucceed now cov) r (upd r (Succeeded now) (attempts r) (recovery_count r) now None)
| eff_fail ev now d r : is_running (jr_state r) = true -> max_attempts p <= attempts r ->
    str_len d <= Z.of_nat MAX_LAST_ERROR_BYTES -> (exists e, ev = EvFail now e \/ exists w, ev = EvFailAfter now e w) ->
    job_effect p ev r (upd r (Failed now) (attempts r) (recovery_count r) now (Some d))
| eff_retry ev now d t r : is_running (jr_state r) = true -> attempts r < max_attempts p ->
    str_len d <= Z.of_nat MAX_LAST_ERROR_BYTES -> now < t <= now + max_backoff_seconds p ->
    (exists e, ev = EvFail now e \/ exists w, ev = EvFailAfter now e w /\ t = now + w) ->
    job_effect p ev r (upd r (RetryBackoff t) (attempts r) (recovery_count r) now (Some d))
| eff_requeue now reason d r : is_active (jr_state r) = false -> str_len d <= Z.of_nat MAX_LAST_ERROR_BYTES ->
    job_effect p (EvRequeue now reason) r (upd r Queued 0 (recovery_count r) now (Some d))
| eff_release now t r : jr_state r = RetryBackoff t -> t <= now ->
    job_effect p (EvRelease now) r (upd r Queued (attempts r) (recovery_count r) now (last_error r))
| eff_recover now r : is_running (jr_state r) = true -> attempts r <> 0 ->
    job_effect p (EvRecover now) r (upd r Queued (attempts r - 1) (recovery_count r + 1) now (last_error r))
| eff_recover_idle now r : is_running (jr_state r) = false -> job_effect p (EvRecover now) r r.

Lemma bind_lift_inv {A B} (x : SchedulerResult A) (k : A -> job_op B) r b r' :
  mbind (M := job_op) k (lift x) r = (Ok b, r') -> exists a, x = Ok a /\ k a r = (Ok b, r').
Proof. unfold mbind, job_bind, lift. destruct x as [a| |]; [|done..]. intros H. by exists a. Qed.

Lemma bind_lift_ok {A B} (x : SchedulerResult A) a (k : A -> job_op B) r : x = Ok a -> mbind (M := job_op) k (lift x) r = k a r.
Proof. by intros ->. Qed.

Lemma bind_self {B} (k : JobRecord -> job_op B) r : mbind (M := job_op) k self r = k r r.
Proof. done. Qed.

Lemma bind_op_inv {A B} (op : job_op A) (k : A -> job_op B) r b r' :
  mbind (M := job_op) k op r = (Ok b, r') -> exists a r1, op r = (Ok a, r1) /\ k a r1 = (Ok b, r').
Proof. unfold mbind, job_bind. destruct (op r) as [[a| |] r1]; [|done..]. intros H. by exists a, r1. Qed.

(** Go through a successful operation up to its assignments. *)
Ltac op_inv H :=
  repeat first
    [ rewrite bind_self in H
    | let E := fresh "E" in apply bind_lift_inv in H as (? & E & H) ].
Ltac op_done H := cbn in H; injection H as <-.

Lemma start_effect p now r r' : start now p r = (Ok tt, r') -> job_effect p (EvStart now) r r'.
Proof.
  unfold start. intros H. op_inv H. op_done H. res_clean.
  assert (x2 = attempts r + 1) as ->. { unfold checked_add32 in E2. case_match; [|done]. by injection E2 as <-. }
  apply eff_start; [|lia]. destruct (jr_state r) as [| |t| |]; try done; [by left|]. right. exists t. split; [done|]. res_clean. lia.
Qed.

Lemma finish_success_effect p now cov r r' : finish_success now cov r = (Ok tt, r') -> job_effect p (EvSucceed now cov) r r'.
Proof. unfold finish_success. intros H. op_inv H. op_done H. res_clean. breflect. by apply eff_succeed. Qed.

Lemma retry_time_inv now delay t : retry_time now delay = Ok t -> t = now + delay.
Proof.
  unfold retry_time, i64_try_from, checked_add_i64. intros H. repeat (case_match; simpl in H; try done). by injection H as <-.
Qed.

Lemma finish_failure_inv p now error r r' : policy_ok p -> 0 <= attempts r -> finish_failure now error p r = (Ok tt, r') ->
  is_running (jr_state r) = true /\ exists d, str_len d <= Z.of_nat MAX_LAST_ERROR_BYTES /\
  ((max_attempts p <= attempts r /\ r' = upd r (Failed now) (attempts r) (recovery_count r) now (Some d))
   \/ (attempts r < max_attempts p /\ exists t, now < t <= now + max_backoff_seconds p
       /\ r' = upd r (RetryBackoff t) (attempts r) (recovery_count r) now (Some d))).
Proof.
  intros Hp Ha. unfold finish_failure. intros H. op_inv H. res_clean. breflect.
  destruct (truncate_bounded error MAX_LAST_ERROR_BYTES) as (d & Ed & Hd). rewrite Ed in E1. injection E1 as <-.
  split; [done|]. exists d. split; [done|]. destruct (max_attempts p <=? attempts r) eqn:El.
  - left. split; [lia|]. op_done H. done.
  - right. split; [lia|]. op_inv H. op_done H. apply retry_time_inv in E4.
    assert (attempts r <> 0) as Hn.
    { intros Hz. unfold delay_after_attempt in E1. rewrite Hz, policy_validate_ok in E1 by done. done. }
    rewrite delay_spec in E1 by (done || lia). injection E1 as <-.
    assert (1 <= 2 ^ (attempts r - 1)) by (pose proof (Z.pow_pos_nonneg 2 (attempts r - 1)); lia).
    eexists. split; [|reflexivity]. destruct Hp as (_ & H1 & _). nia.
Qed.

Lemma finish_failure_effect p now error r r' : policy_ok p -> 0 <= attempts r ->
  finish_failure now error p r = (Ok tt, r') -> job_effect p (EvFail now error) r r'.
Proof.
  intros Hp Ha H. destruct (finish_failure_inv p now error r r' Hp Ha H) as (Hr & d & Hd & [[Hm ->]|(Hm & t & Ht & ->)]).
  - apply eff_fail; [done..|]. exists error. by left.
  - apply eff_retry; [done..|]. exists error. by left.
Qed.

Lemma finish_failure_with_delay_effect p now error delay r r' : policy_ok p -> 0 <= attempts r -> 0 <= delay ->
  finish_failure_with_delay now error p delay r = (Ok tt, r') -> job_effect p (EvFailAfter now error delay) r r'.
Proof.
  intros Hp Ha Hdl. unfold finish_failure_with_delay. intros H. apply bind_lift_inv in H as (u & E & H). res_clean. breflect.
  apply bind_op_inv in H as ([] & r1 & Hff & H). rewrite bind_self in H.
  destruct (finish_failure_inv p now error r r1 Hp Ha Hff) as (Hr & d & Hd & [[Hm ->]|(Hm & t & Ht & ->)]); cbn [is_backoff upd jr_state] in H.
  - injection H as <-. apply eff_fail; [done..|]. exists error. right. by exists delay.
  - op_inv H. op_done H. match goal with E : retry_time _ _ = _ |- _ => apply retry_time_inv in E as -> end. apply eff_retry; [done..|lia|].
    exists error. right. by exists delay.
Qed.

Lemma requeue_effect p now reason r r' : requeue_for_repair now reason r = (Ok tt, r') -> job_effect p (EvRequeue now reason) r r'.
Proof.
  unfold requeue_for_repair. intros H. op_inv H. op_done H. res_clean. breflect.
  destruct (truncate_bounded reason MAX_LAST_ERROR_BYTES) as (d & Ed & Hd). rewrite Ed in *.
  match goal with E : Ok d = Ok _ |- _ => injection E as <- end. apply eff_requeue; [|done]. by destruct (jr_state r).
Qed.

Lemma release_effect p now r r' : release_retry now r = (Ok tt, r') -> job_effect p (EvRelease now) r r'.
Proof.
  unfold release_retry. intros H. op_inv H. op_done H. destruct (jr_state r) as [| |t| |] eqn:Es; try done. injection E as <-.
  res_clean. apply (eff_release p now t); [done|lia].
Qed.

Lemma recover_effect p now r b r' : recover_after_restart now r = (Ok b, r') -> job_effect p (EvRecover now) r r'.
Proof.
  unfold recover_after_restart. intros H. rewrite bind_self in H. destruct (is_running (jr_state r)) eqn:Er; cbn [negb] in H.
  - op_inv H. cbn in H. injection H as <- <-. res_clean.
    match goal with E : checked_add32 _ _ = Some ?n |- _ => assert (n = recovery_count r + 1) as -> by
      (unfold checked_add32 in E; destruct (_ <? _); [by injection E as <-|done]) end.
    apply eff_recover; [done|lia].
  - injection H as <- <-. by apply eff_recover_idle.
Qed.

Lemma run_event_effect p ev r r' : policy_ok p -> 0 <= attempts r -> event_typed ev ->
  run_event p ev r = (Ok tt, r') -> job_effect p ev r r'.
Proof.
  intros Hp Ha Hev. destruct ev; cbn [run_event].
  - apply start_effect.
  - apply finish_success_effect.
  - by apply finish_failure_effect.
  - by apply finish_failure_with_delay_effect.
  - apply requeue_effect.
  - apply release_effect.
  - intros H. apply bind_op_inv in H as (b & r1 & H & H2). injection H2 as <-. by eapply recover_effect.
Qed.

(** The invariant: the record is valid, and its attempts agree with its state
    and the policy. *)
Definition attempts_ok (p : RetryPolicy) (r : JobRecord) : Prop :=
  match jr_state r with
  | Queued => 0 <= attempts r < max_attempts p
  | Running _ | Succeeded _ => 1 <= attempts r <= max_attempts p
  | RetryBackoff _ => 1 <= attempts r < max_attempts p /\ last_error r <> None
  | Failed _ => attempts r = max_attempts p /\ last_error r <> None
  end.

Record record_inv (p : RetryPolicy) (r : JobRecord) : Prop := {
  ri_schema : jr_schema r = JOB_STATE_SCHEMA;
  ri_plan : plan_validate (jr_plan r) = Ok tt;
  ri_error : forall e, last_error r = Some e -> str_len e <= Z.of_nat MAX_LAST_ERROR_BYTES;
  ri_attempts : attempts_ok p r
}.

Lemma record_inv_new p plan now r : policy_ok p -> job_record_new plan now = Ok r -> record_inv p r.
Proof.
  intros [Hm _]. unfold job_record_new. destruct (plan_validate plan) as [[]| |] eqn:E; [|done..].
  cbn [mbind result_bind]. intros [= <-]. split; [done|done|done|]. cbn. lia.
Qed.

Lemma record_inv_attempts p r : policy_ok p -> record_inv p r -> 0 <= attempts r <= max_attempts p.
Proof. intros [Hm _] [_ _ _ H]. unfold attempts_ok in H. destruct (jr_state r); lia. Qed.

Lemma record_inv_effect p ev r r' : policy_ok p -> record_inv p r -> job_effect p ev r r' -> record_inv p r'.
Proof.
  intros Hp Hinv He. pose proof (record_inv_attempts p r Hp Hinv) as Ha. destruct Hp as [Hm _]. destruct Hinv as [Hs Hpl Hle Hat].
  unfold attempts_ok in Hat. destruct He as [now r Hst Hlt|now cov r Hr _ _|ev now d r Hr Hmx Hd _|ev now d t r Hr Hlt Hd Ht _
    |now reason d r Hac Hd|now t r Hst Ht|now r Hr Hn|now r Hr]; (split; [done|done| |]; unfold attempts_ok; cbn).
  - done.
  - lia.
  - done.
  - destruct (jr_state r); done || lia.
  - by intros e [= <-].
  - split; [lia|done].
  - by intros e [= <-].
  - split; [|done]. destruct (jr_state r); done || lia.
  - by intros e [= <-].
  - lia.
  - done.
  - rewrite Hst in Hat. lia.
  - done.
  - destruct (jr_state r); done || lia.
  - done.
  - exact Hat.
Qed.

Lemma record_inv_trace p r evs r' : policy_ok p -> record_inv p r -> job_trace p r evs r' -> record_inv p r'.
Proof.
  intros Hp Hr Ht. induction Ht as [|r ev r1 evs r2 Hev Hrun Ht IH]; [done|]. apply IH.
  eapply record_inv_effect; [done|exact Hr|]. eapply run_event_effect; [done| |done|done]. by eapply record_inv_attempts.
Qed.

Lemma record_inv_validate p r : policy_ok p -> record_inv p r -> job_validate r = Ok tt.
Proof.
  intros [Hm _] [Hs Hpl Hle Hat]. unfold job_validate. rewrite Hs, Hpl, (bool_decide_eq_true_2 (JOB_STATE_SCHEMA = _)) by done.
  cbn [negb reject mbind result_bind].
  assert (match last_error r with Some e => Z.of_nat MAX_LAST_ERROR_BYTES <? str_len e | None => false end = false) as ->.
  { destruct (last_error r) as [e|]; [|done]. apply Z.ltb_ge. by apply Hle. }
  cbn [reject mbind result_bind]. unfold attempts_ok in Hat.
  assert (negb (is_queued (jr_state r)) && (attempts r =? 0) = false) as -> by (destruct (jr_state r); cbn; lia).
  cbn [reject mbind result_bind]. destruct (jr_state r); cbn [is_backoff is_failed orb andb]; try done;
    destruct Hat as [_ Hn]; by destruct (last_error r).
Qed.

Lemma start_run p r now : policy_ok p -> record_inv p r ->
  (jr_state r = Queued \/ exists t, jr_state r = RetryBackoff t /\ t <= now) ->
  start now p r = (Ok tt, upd r (Running now) (attempts r + 1) (recovery_count r) now (last_error r)).
Proof.
  intros Hp Hinv Hst. pose proof (record_inv_attempts p r Hp Hinv). destruct Hinv as [_ _ _ Hat]. unfold attempts_ok in Hat.
  assert (attempts r < max_attempts p) as Hlt by (destruct Hst as [Hst|(t & Hst & _)]; rewrite Hst in Hat; lia).
  unfold start. rewrite (bind_lift_ok _ tt) by by apply policy_validate_ok. rewrite bind_self. destruct Hp as [Hm _].
  rewrite (bind_lift_ok _ tt) by (destruct Hst as [->|(t & -> & Ht)]; [done|]; by zdecide).
  rewrite (bind_lift_ok _ tt) by by zdecide. by rewrite (bind_lift_ok _ (attempts r + 1)) by (unfold checked_add32; by zdecide).
Qed.

(** C19: From a fresh record, whatever sequence of starts, successes, failures
    (with the policy's or a host's delay), releases, repairs and restart
    recoveries succeeds, the record stays valid for persistence, never counts
    more attempts than the policy allows, fails for good only when all
    attempts are used, and keeps a bounded diagnostic while it retries or has
    failed; and a queued job, or one whose back-off has passed, can always be
    started. *)
Theorem job_records_stay_valid p plan now0 r0 evs r :
  policy_ok p -> job_record_new plan now0 = Ok r0 -> job_trace p r0 evs r ->
  job_validate r = Ok tt /\ 0 <= attempts r <= max_attempts p /\ attempts_ok p r
  /\ (forall e, last_error r = Some e -> str_len e <= Z.of_nat MAX_LAST_ERROR_BYTES)
  /\ (forall now, jr_state r = Queued \/ (exists t, jr_state r = RetryBackoff t /\ t <= now) ->
        start now p r = (Ok tt, upd r (Running now) (attempts r + 1) (recovery_count r) now (last_error r))).
Proof.
  intros Hp Hnew Ht. assert (record_inv p r) as Hinv by (eapply record_inv_trace; [done| |done]; by eapply record_inv_new).
  split; [by eapply record_inv_validate|]. split; [by apply record_inv_attempts|]. split; [apply Hinv|]. split; [apply Hinv|].
  intros now. by apply start_run.
Qed.

Definition is_requeue_event (ev : JobEvent) : bool := match ev with EvRequeue _ _ => true | _ => false end.
Definition is_recover_event (ev : JobEvent) : bool := match ev with EvRecover _ => true | _ => false end.

(** What is left to do, three steps for every attempt left. *)
Definition steps_left (p : RetryPolicy) (r : JobRecord) : Z :=
  match jr_state r with
  | Queued => 3 * (max_attempts p - attempts r)
  | Running _ => 3 * (max_attempts p - attempts r) + 2
  | RetryBackoff _ => 3 * (max_attempts p - attempts r) + 1
  | Succeeded _ | Failed _ => 0
  end.

Lemma steps_left_effect p ev r r' : policy_ok p -> record_inv p r -> is_requeue_event ev = false -> job_effect p ev r r' ->
  if is_recover_event ev then steps_left p r' <= steps_left p r + 1 else steps_left p r' <= steps_left p r - 1.
Proof.
  intros Hp Hinv Hev He. destruct Hinv as [_ _ _ Hat]. unfold attempts_ok in Hat. unfold steps_left.
  destruct He as [now r Hst Hlt|now cov r Hr _ _|ev now d r Hr Hmx Hd (e & Hk)|ev now d t r Hr Hlt Hd Ht (e & Hk)
    |now reason d r Hac Hd|now t r Hst Ht|now r Hr Hn|now r Hr]; cbn.
  - destruct Hst as [->|(t & -> & _)]; lia.
  - destruct (jr_state r); done || lia.
  - assert (is_recover_event ev = false) as -> by (destruct Hk as [->|(? & ->)]; done). destruct (jr_state r); done || lia.
  - assert (is_recover_event ev = false) as -> by (destruct Hk as [->|(? & -> & _)]; done). destruct (jr_state r); done || lia.
  - done.
  - rewrite Hst. lia.
  - destruct (jr_state r); done || lia.
  - lia.
Qed.

Lemma steps_left_nonneg p r : policy_ok p -> record_inv p r -> 0 <= steps_left p r.
Proof. intros [Hm _] [_ _ _ Hat]. unfold attempts_ok, steps_left in *. destruct (jr_state r); lia. Qed.

Definition count (f : JobEvent -> bool) (evs : list JobEvent) : Z := Z.of_nat (length (List.filter f evs)).

Lemma trace_steps_left p r evs r' : policy_ok p -> record_inv p r -> forallb (fun ev => negb (is_requeue_event ev)) evs = true ->
  job_trace p r evs r' ->
  count (fun ev => negb (is_recover_event ev)) evs + steps_left p r' <= steps_left p r + count is_recover_event evs.
Proof.
  intros Hp Hr Hn Ht. induction Ht as [|r ev r1 evs r2 Hev Hrun Ht IH]; [unfold count; simpl length; lia|].
  cbn [forallb] in Hn. apply andb_true_iff in Hn as [Hn1 Hn2]. apply negb_true_iff in Hn1.
  assert (job_effect p ev r r1) as He by (eapply run_event_effect; [done| |done|done]; by eapply record_inv_attempts).
  specialize (IH (record_inv_effect _ _ _ _ Hp Hr He)). pose proof (steps_left_effect p ev r r1 Hp Hr Hn1 He) as Hs.
  specialize (IH Hn2). unfold count in *. cbn [List.filter].
  destruct (is_recover_event ev); cbn [negb length]; lia.
Qed.

(** C37: A job cannot retry for ever: unless it is requeued for repair, the
    starts, failures, releases and the final success of a record are at most
    three per allowed attempt, plus one for each restart recovery, which gives
    the interrupted attempt back. *)
Theorem retries_are_bounded p plan now0 r0 evs r :
  policy_ok p -> job_record_new plan now0 = Ok r0 -> job_trace p r0 evs r ->
  forallb (fun ev => negb (is_requeue_event ev)) evs = true ->
  count (fun ev => negb (is_recover_event ev)) evs <= 3 * max_attempts p + count is_recover_event evs.
Proof.
  intros Hp Hnew Ht Hn. pose proof (record_inv_new p plan now0 r0 Hp Hnew) as Hr0.
  pose proof (trace_steps_left p r0 evs r Hp Hr0 Hn Ht) as H.
  pose proof (steps_left_nonneg p r Hp (record_inv_trace p r0 evs r Hp Hr0 Ht)).
  assert (steps_left p r0 = 3 * max_attempts p) as E; [|lia].
  unfold job_record_new in Hnew. destruct (plan_validate plan); [|done..]. injection Hnew as <-. unfold steps_left. cbn. lia.
Qed.

Definition sample_policy : RetryPolicy := {| max_attempts := 2; initial_backoff_seconds := 30; max_backoff_seconds := 600 |}.
Definition sample_events : list JobEvent :=
  [EvStart 100; EvRecover 110; EvStart 120; EvFail 130 "timeout"; EvRelease 160; EvStart 161; EvFailAfter 170 "timeout" 5].

(** The record a sequence of events leads to. *)
Fixpoint run_events (p : RetryPolicy) (evs : list JobEvent) (r : JobRecord) : option JobRecord :=
  match evs with
  | [] => Some r
  | ev :: evs => match run_event p ev r with (Ok tt, r1) => run_events p evs r1 | _ => None end
  end.

Lemma run_events_trace p evs r r' : Forall event_typed evs -> run_events p evs r = Some r' -> job_trace p r evs r'.
Proof.
  intros Hf. revert r. induction Hf as [|ev evs Hev Hf IH]; intros r H; cbn [run_events] in H.
  - injection H as <-. constructor.
  - destruct (run_event p ev r) as [[[]| |] r1] eqn:E; try done. eapply trace_cons; [done|exact E|by apply IH].
Qed.

Theorem job_records_stay_valid_witness :
  exists plan r0 r, build Rtma {| date_yyyymmdd := "20240229"; hour_utc := 7 |} = Ok plan /\ job_record_new plan 90 = Ok r0
    /\ run_events sample_policy sample_events r0 = Some r /\ job_validate r = Ok tt /\ jr_state r = Failed 170.
Proof.
  destruct (build Rtma {| date_yyyymmdd := "20240229"; hour_utc := 7 |}) as [plan| |] eqn:Hb; [|vm_compute in Hb; discriminate..].
  vm_compute in Hb. injection Hb as Hb. exists plan. do 2 eexists. split; [reflexivity|].
  split; [rewrite <- Hb; vm_compute; reflexivity|]. split; [vm_compute; reflexivity|]. split; [|reflexivity].
  eapply (job_records_stay_valid sample_policy plan 90 _ sample_events).
  - vm_compute. intuition congruence.
  - rewrite <- Hb. vm_compute. reflexivity.
  - apply run_events_trace; [repeat constructor; cbn; lia|]. vm_compute. reflexivity.
Defined.

Theorem retries_are_bounded_witness :
  exists plan r0, build Rtma {| date_yyyymmdd := "20240229"; hour_utc := 7 |} = Ok plan /\ job_record_new plan 90 = Ok r0
    /\ count (fun ev => negb (is_recover_event ev)) sample_events <= 3 * max_attempts sample_policy + count is_recover_event sample_events.
Proof.
  destruct (build Rtma {| date_yyyymmdd := "20240229"; hour_utc := 7 |}) as [plan| |] eqn:Hb; [|vm_compute in Hb; discriminate..].
  vm_compute in Hb. injection Hb as Hb. exists plan. eexists. split; [reflexivity|].
  split; [rewrite <- Hb; vm_compute; reflexivity|].
  eapply (retries_are_bounded sample_policy plan 90 _ sample_events).
  - vm_compute. intuition congruence.
  - rewrite <- Hb. vm_compute. reflexivity.
  - apply run_events_trace; [repeat constructor; cbn; lia|]. vm_compute. reflexivity.
  - reflexivity.
Defined.

(** ** Operations that fail *)

(** What an event that failed may have changed. *)
Definition after_error (ev : JobEvent) (r r' : JobRecord) : Prop :=
  match ev with
  | EvStart _ | EvSucceed _ _ | EvRequeue _ _ | EvRelease _ => r' = r
  | EvFail now _ => r' = r \/ exists d, r' = upd r (jr_state r) (attempts r) (recovery_count r) now (Some d)
  | EvFailAfter now _ _ => r' = r \/ (exists d, r' = upd r (jr_state r) (attempts r) (recovery_count r) now (Some d))
      \/ exists d t, r' = upd r (RetryBackoff t) (attempts r) (recovery_count r) now (Some d)
  | EvRecover _ => r' = r \/ (recovery_count r = u32_limit - 1
      /\ r' = upd r (jr_state r) (attempts r - 1) (recovery_count r) (updated_unix r) (last_error r))
  end.

Lemma bind_lift_err {A B} (x : SchedulerResult A) (k : A -> job_op B) r e r' :
  mbind (M := job_op) k (lift x) r = (Err e, r') -> r' = r \/ exists a, x = Ok a /\ k a r = (Err e, r').
Proof.
  unfold mbind, job_bind, lift. destruct x as [a| |]; [|intros [= _ ->]; by left|done]. intros H. right. by exists a.
Qed.

Lemma bind_op_err {A B} (op : job_op A) (k : A -> job_op B) r e r' :
  mbind (M := job_op) k op r = (Err e, r') -> op r = (Err e, r') \/ exists a r1, op r = (Ok a, r1) /\ k a r1 = (Err e, r').
Proof.
  unfold mbind, job_bind. destruct (op r) as [[a| |] r1]; [|intros [= -> ->]; by left|done]. intros H. right. by exists a, r1.
Qed.

(** Through the guards of an operation that failed, the record unchanged. *)
Ltac guard_err H := apply bind_lift_err in H as [->|(? & ? & H)]; [by auto|].

Lemma truncate_ok value n : exists s, truncate_utf8 value n = Ok s.
Proof. destruct (truncate_bounded value n) as (s & H & _). by exists s. Qed.

Lemma finish_failure_err p now error r e r' : finish_failure now error p r = (Err e, r') -> after_error (EvFail now error) r r'.
Proof.
  unfold finish_failure. intros H. cbn [after_error]. guard_err H. rewrite bind_self in H. guard_err H. guard_err H.
  right. do 2 (apply bind_op_err in H as [H|(? & ? & Hs & H)]; [done|]; injection Hs as <- <-).
  destruct (max_attempts p <=? attempts r); [done|].
  apply bind_lift_err in H as [->|(? & ? & H)]; [eexists; reflexivity|].
  apply bind_lift_err in H as [->|(? & ? & H)]; [eexists; reflexivity|]. done.
Qed.

Lemma finish_failure_backoff p now error r r' : finish_failure now error p r = (Ok tt, r') -> is_backoff (jr_state r') = true ->
  exists d t, r' = upd r (RetryBackoff t) (attempts r) (recovery_count r) now (Some d).
Proof.
  unfold finish_failure. intros H Hb. op_inv H. destruct (max_attempts p <=? attempts r).
  - op_done H. done.
  - op_inv H. op_done H. do 2 eexists. reflexivity.
Qed.

Lemma recover_err now r e r' : 0 <= recovery_count r < u32_limit -> recover_after_restart now r = (Err e, r') -> after_error (EvRecover now) r r'.
Proof.
  intros Hw. unfold recover_after_restart. rewrite bind_self. cbn [after_error].
  destruct (negb (is_running (jr_state r))); [done|]. intros H. guard_err H. right.
  apply bind_op_err in H as [H|(? & r1 & Hs & H)]; [done|]. injection Hs as <- <-.
  unfold checked_add32 in H. destruct (recovery_count r + 1 <? u32_limit) eqn:E; [done|]. injection H as <-. split; [lia|done].
Qed.

(** When an operation on a record is refused, starting, succeeding,
    requeueing and releasing leave the record as it was; a failure report that
    is refused has changed at most the diagnostic, the update time and (with a
    host's delay) the state to the policy's back-off; a recovery that is
    refused is one whose recovery counter is at its 32-bit limit. *)
Theorem refused_operations_change_little p ev r e r' :
  0 <= recovery_count r < u32_limit -> run_event p ev r = (Err e, r') -> after_error ev r r'.
Proof.
  intros Hw. destruct ev as [now|now cov|now err|now err delay|now reason|now|now]; cbn [run_event]; intros H.
  - unfold start in H. cbn [after_error]. guard_err H. rewrite bind_self in H. repeat guard_err H. done.
  - unfold finish_success in H. cbn [after_error]. rewrite bind_self in H. repeat guard_err H. done.
  - by eapply finish_failure_err.
  - unfold finish_failure_with_delay in H. cbn [after_error]. guard_err H.
    apply bind_op_err in H as [H|(u & r1 & H1 & H)].
    + apply finish_failure_err in H as [->|(d & ->)]; [by left|right; left; by exists d].
    + right. right. rewrite bind_self in H. destruct (is_backoff (jr_state r1)) eqn:Eb; [|done].
      apply bind_lift_err in H as [->|(? & ? & H)]; [|done]. eapply finish_failure_backoff; [|exact Eb]. by destruct u.
  - unfold requeue_for_repair in H. cbn [after_error]. rewrite bind_self in H. guard_err H. destruct (truncate_ok reason MAX_LAST_ERROR_BYTES) as [s Es].
    cbn in H. rewrite Es in H. done.
  - unfold release_retry in H. cbn [after_error]. rewrite bind_self in H. repeat guard_err H. done.
  - apply bind_op_err in H as [H|(b & r1 & H1 & H)]; [by eapply recover_err|done].
Qed.

Definition sample_record (plan : JobPlan) : JobRecord :=
  {| jr_schema := JOB_STATE_SCHEMA; jr_plan := plan; jr_state := Running 100; attempts := 1; recovery_count := 0;
     created_unix := 90; updated_unix := 100; last_error := None |}.

(** A failure reported at the end of the time range is refused, and its
    diagnostic is in the record all the same. *)
Lemma refused_failure_keeps_diagnostic plan : exists e r',
  run_event sample_policy (EvFail (2 ^ 63 - 1) "disk full") (sample_record plan) = (Err e, r')
  /\ last_error (sample_record plan) = None /\ last_error r' = Some "disk full"%string.
Proof. do 2 eexists. split; [vm_compute; reflexivity|]. split; reflexivity. Qed.

Theorem refused_operations_change_little_witness :
  exists plan e r', build Rtma {| date_yyyymmdd := "20240229"; hour_utc := 7 |} = Ok plan
    /\ run_event sample_policy (EvFail (2 ^ 63 - 1) "disk full") (sample_record plan) = (Err e, r')
    /\ after_error (EvFail (2 ^ 63 - 1) "disk full") (sample_record plan) r'.
Proof.
  destruct (build Rtma {| date_yyyymmdd := "20240229"; hour_utc := 7 |}) as [plan| |] eqn:Hb; [|vm_compute in Hb; discriminate..].
  destruct (refused_failure_keeps_diagnostic plan) as (e & r' & Hr & _).
  exists plan, e, r'. split; [reflexivity|]. split; [exact Hr|].
  eapply refused_operations_change_little; [|exact Hr]. vm_compute. intuition congruence.
Defined.
