(* ===== verification/StateStore.v ===== *)
(** * The state directory of the scheduler

    [JobStateStore] of [crates/rw-scheduler/src/state.rs]: one JSON file per
    job, replaced after every change of a record and read back when the daemon
    starts. The directory is state that the operations share; the JSON
    encoding belongs to serde_json. *)
From Stdlib Require Import ZArith Lia Ascii String.
From stdpp Require Import base list strings numbers sorting gmap.
From S2P Require Import Prelude F32 Format Atomic Text Order Ids Cycle Models Profile Capability Plan Manifest Coverage Jobs.

Local Open Scope Z_scope.

Definition MAX_JOB_STATE_BYTES : Z := 1024 * 1024.
Definition MAX_STATE_DIRECTORY_ENTRIES : Z := 100000.

(** The state root: absent, a symbolic link, something else, or a directory
    with its entries. *)
Inductive StateRoot := NoRoot | LinkedRoot | OtherRoot | RootEntries (entries : gmap string DirEntry).

(** The JSON encoding of a record. *)
Class JobJson := {
  record_to_vec_pretty : JobRecord -> SchedulerResult (list byte);
  record_from_slice : list byte -> SchedulerResult JobRecord
}.
Class JobJsonLaws `{JobJson} := {
  job_json_roundtrip : forall r bytes, record_to_vec_pretty r = Ok bytes -> record_from_slice bytes = Ok r
}.

(** [fs::read_dir] lists the entries in an order of its own. *)
Class ReadDir := { read_dir : gmap string DirEntry -> list (string * DirEntry) }.
Class ReadDirLaws `{ReadDir} := { read_dir_lists : forall m, read_dir m ≡ₚ map_to_list m }.

(** [path_for]: the name of the file of a job. *)
Definition path_for (job_id : string) : SchedulerResult string :=
  _ ← map_err Store (validate_store_component job_id);
  Ok (of_bytes (bytes job_id ++ bytes ".json")).

(** [Path::extension] is [json], and the [Path::file_stem]. *)
Definition json_stem (name : string) : option string :=
  match strip_suffix (bytes ".json") (bytes name) with
  | Some [] | None => None
  | Some stem => Some (of_bytes stem)
  end.

Section store.
Context `{JobJson} `{ReadDir} {faults : WriteFaults}.

(** [durable_atomic_write], with the faults of the file system. *)
Definition durable_atomic_write (name : string) (content : list byte) (entries : gmap string DirEntry) : SchedulerResult unit * StateRoot :=
  let '(r, entries) := replace_entry name content entries in (map_err Store r, RootEntries entries).

(** [save]; the root is created before the record is encoded. *)
Definition store_save (record : JobRecord) (root : StateRoot) : SchedulerResult unit * StateRoot :=
  match job_validate record with
  | Ok _ =>
      match root with
      | OtherRoot => (Err (SchedulerIo "File exists"), root)
      | LinkedRoot => (Err (InvalidState "state root must be a real directory"), root)
      | NoRoot | RootEntries _ =>
          let entries := match root with RootEntries entries => entries | _ => ∅ end in
          match (bytes ← record_to_vec_pretty record;
                 _ ← reject (MAX_JOB_STATE_BYTES <? Z.of_nat (length bytes)) (InvalidState "serialized job state is too long");
                 name ← path_for (job_id (jr_plan record));
                 Ok (name, bytes)) with
          | Ok (name, bytes) => durable_atomic_write name bytes entries
          | Err e => (Err e, RootEntries entries)
          | Panic => (Panic, RootEntries entries)
          end
      end
  | Err e => (Err e, root)
  | Panic => (Panic, root)
  end.

(** [read_record], for a file that does not change while it is read. *)
Definition read_record_file (entry : option DirEntry) : SchedulerResult JobRecord :=
  match entry with
  | None => Err (SchedulerIo "not found")
  | Some (RegularFile content) =>
      _ ← reject (MAX_JOB_STATE_BYTES <? Z.of_nat (length content)) (InvalidState "state file is too long");
      record_from_slice content
  | Some _ => Err (InvalidState "state file must be a real regular file")
  end.

(** [validate_root], with the entries of the directory. *)
Definition validate_root (root : StateRoot) : SchedulerResult (gmap string DirEntry) :=
  match root with
  | NoRoot => Err (SchedulerIo "not found")
  | LinkedRoot | OtherRoot => Err (InvalidState "state root must be a real directory")
  | RootEntries entries => Ok entries
  end.

Definition store_load (id : string) (root : StateRoot) : SchedulerResult JobRecord :=
  entries ← validate_root root;
  name ← path_for id;
  record ← read_record_file (entries !! name);
  _ ← reject (negb (bool_decide (job_id (jr_plan record) = id))) (InvalidState "state file contains another job");
  _ ← job_validate record;
  Ok record.

(** One entry of the loop of [load_all], with the count of those seen. *)
Definition load_entry (root : StateRoot) (acc : Z * list JobRecord) (entry : string * DirEntry) : SchedulerResult (Z * list JobRecord) :=
  let '(entries_seen, records) := acc in
  let entries_seen := entries_seen + 1 in
  _ ← reject (MAX_STATE_DIRECTORY_ENTRIES <? entries_seen) (InvalidState "state directory exceeds its entry limit");
  match json_stem entry.1 with
  | None => Ok (entries_seen, records)
  | Some id =>
      match entry.2 with
      | RegularFile _ => record ← store_load id root; Ok (entries_seen, records ++ [record])
      | _ => Err (InvalidState "state entry must be a real regular file")
      end
  end.

Definition record_id (r : JobRecord) : string := job_id (jr_plan r).
Definition id_le (a b : JobRecord) : Prop := str_compare (record_id a) (record_id b) <> Gt.
#[global] Instance id_le_dec : RelDecision id_le.
Proof. intros a b. unfold id_le. apply _. Defined.

Definition load_all (root : StateRoot) : SchedulerResult (list JobRecord) :=
  match root with
  | LinkedRoot | OtherRoot => Err (InvalidState "state root must be a real directory")
  | NoRoot => Ok []
  | RootEntries entries =>
      '(_, records) ← rfold (load_entry root) (read_dir entries) (0, []);
      Ok (merge_sort id_le records)
  end.

(** The loop of [recover_running]: the records as they are left, and the
    directory with those that changed saved. *)
Fixpoint recover_each (now_unix : Z) (records : list JobRecord) (root : StateRoot) : SchedulerResult (list JobRecord) * StateRoot :=
  match records with
  | [] => (Ok [], root)
  | record :: records =>
      match recover_after_restart now_unix record with
      | (Ok changed, record) =>
          match (if changed : bool then store_save record root else (Ok tt, root)) with
          | (Ok _, root) =>
              match recover_each now_unix records root with
              | (Ok records, root) => (Ok (record :: records), root)
              | (r, root) => (r, root)
              end
          | (Err e, root) => (Err e, root)
          | (Panic, root) => (Panic, root)
          end
      | (Err e, _) => (Err e, root)
      | (Panic, _) => (Panic, root)
      end
  end.

Definition recover_running (now_unix : Z) (root : StateRoot) : SchedulerResult (list JobRecord) * StateRoot :=
  match load_all root with
  | Ok records => recover_each now_unix records root
  | Err e => (Err e, root)
  | Panic => (Panic, root)
  end.

(** [remove_terminal]. *)
Definition remove_terminal (id : string) (root : StateRoot) : SchedulerResult unit * StateRoot :=
  match (record ← store_load id root;
         _ ← reject (is_active (jr_state record)) (InvalidState "refusing to remove active scheduler state");
         name ← path_for id;
         entries ← validate_root root;
         Ok (name, entries)) with
  | Ok (name, entries) => (Ok tt, RootEntries (delete name entries))
  | Err e => (Err e, root)
  | Panic => (Panic, root)
  end.
End store.

(** ** Names *)

Lemma strip_suffix_app l suffix : strip_suffix suffix (l ++ suffix) = Some l.
Proof.
  unfold strip_suffix. rewrite length_app, Nat.add_sub, drop_app_length, take_app_length.
  by rewrite bool_decide_eq_true_2.
Qed.
Lemma strip_suffix_inv l suffix base : strip_suffix suffix l = Some base -> l = base ++ suffix.
Proof. unfold strip_suffix. case_bool_decide as E; [|done]. intros [= <-].
  rewrite <- (take_drop (length l - length suffix) l) at 1. by rewrite E. Qed.

Lemma path_for_inv id name : path_for id = Ok name -> json_stem name = Some id /\ name = of_bytes (bytes id ++ bytes ".json").
Proof.
  unfold path_for. destruct (validate_store_component id) as [[]| |] eqn:E; [|done..]. cbn [map_err mbind result_bind].
  intros [= <-]. split; [|done]. unfold json_stem. rewrite bytes_of_bytes, strip_suffix_app.
  apply store_component_iff in E as ((Hn & _) & _). destruct (bytes id) eqn:Eb; [done|]. by rewrite <- Eb, of_bytes_bytes.
Qed.
Lemma json_stem_inv name id : json_stem name = Some id -> name = of_bytes (bytes id ++ bytes ".json").
Proof.
  unfold json_stem. destruct (strip_suffix _ _) as [[|c l]|] eqn:E; try done. intros [= <-].
  apply strip_suffix_inv in E. rewrite <- (of_bytes_bytes name), E. f_equal. change (String c (of_bytes l)) with (of_bytes (c :: l)). by rewrite bytes_of_bytes.
Qed.
Lemma stem_path name id n : json_stem name = Some id -> path_for id = Ok n -> n = name.
Proof. intros ->%json_stem_inv [_ ->]%path_for_inv. done. Qed.
Lemma path_for_inj id id' name : path_for id = Ok name -> path_for id' = Ok name -> id = id'.
Proof. intros [E _]%path_for_inv [E' _]%path_for_inv. congruence. Qed.

Section theory.
Context `{JobJsonLaws} `{ReadDirLaws} {faults : WriteFaults}.

(** ** Loading one record *)

Definition record_file (m : gmap string DirEntry) (id : string) (r : JobRecord) : Prop :=
  exists name content, path_for id = Ok name /\ m !! name = Some (RegularFile content)
    /\ Z.of_nat (length content) <= MAX_JOB_STATE_BYTES /\ record_from_slice content = Ok r
    /\ record_id r = id /\ job_validate r = Ok tt.

Lemma load_iff m id r : store_load id (RootEntries m) = Ok r <-> record_file m id r.
Proof.
  unfold store_load, record_file. cbn [validate_root mbind result_bind]. split.
  - intros E. bind_step E En. bind_step E Er. bind_step E Ei. bind_step E Ev. injection E as <-. repeat match goal with x : unit |- _ => destruct x end.
    unfold read_record_file in Er. destruct (m !! _) as [[content| | |]|] eqn:Em; try done. bind_step Er El.
    apply reject_inv in El, Ei. apply negb_false_iff, bool_decide_eq_true in Ei. eexists _, content. split; [done|]. split; [done|]. split; [lia|done].
  - intros (name & content & -> & Em & Hl & Er & Ei & Ev). cbn [mbind result_bind]. rewrite Em. cbn [read_record_file].
    rewrite (proj2 (Z.ltb_ge _ _)) by done. cbn [reject mbind result_bind]. rewrite Er. cbn [mbind result_bind].
    unfold record_id in Ei. rewrite bool_decide_eq_true_2 by done. cbn [negb reject mbind result_bind]. by rewrite Ev.
Qed.

(** Loading depends on nothing but the file of the job. *)
Lemma record_file_ext m m' id r : (forall name, path_for id = Ok name -> m' !! name = m !! name) -> record_file m id r -> record_file m' id r.
Proof. intros Hm (name & content & Hn & Em & Hx). exists name, content. rewrite (Hm name Hn). eauto. Qed.

Lemma record_file_fun m id r r' : record_file m id r -> record_file m id r' -> r = r'.
Proof. intros E%load_iff E'%load_iff. congruence. Qed.

(** ** Saving one record *)

Lemma save_ok r m root' : store_save r (RootEntries m) = (Ok tt, root') -> exists name content,
  job_validate r = Ok tt /\ record_to_vec_pretty r = Ok content /\ Z.of_nat (length content) <= MAX_JOB_STATE_BYTES
  /\ path_for (record_id r) = Ok name /\ m !! name <> Some DirectoryEntry
  /\ root' = RootEntries (<[name := RegularFile content]> m).
Proof.
  unfold store_save. destruct (job_validate r) as [[]| |] eqn:Ev; [|done..].
  destruct (record_to_vec_pretty r) as [content| |] eqn:Ec; cbn [mbind result_bind]; [|done..].
  destruct (reject _ _) as [[]| |] eqn:El; cbn [mbind result_bind]; [|done..]. apply reject_inv in El.
  fold (record_id r). destruct (path_for (record_id r)) as [name| |] eqn:En; cbn [mbind result_bind]; [|done..].
  unfold durable_atomic_write. destruct (replace_entry name content m) as [x m'] eqn:E. intros [= Hx <-].
  destruct (replace_ok _ _ _ _ _ E) as [-> Hd]; [by destruct x as [[]| |]|]. exists name, content. repeat split; try done. lia.
Qed.

Lemma save_succeeds `{!Faultless} r m name content : job_validate r = Ok tt -> record_to_vec_pretty r = Ok content ->
  Z.of_nat (length content) <= MAX_JOB_STATE_BYTES -> path_for (record_id r) = Ok name -> m !! name <> Some DirectoryEntry ->
  store_save r (RootEntries m) = (Ok tt, RootEntries (<[name := RegularFile content]> m)).
Proof.
  intros Ev Ec Hl En Hd. unfold store_save. rewrite Ev, Ec. cbn [mbind result_bind].
  rewrite (proj2 (Z.ltb_ge _ _)) by done. cbn [reject mbind result_bind]. unfold record_id in En. rewrite En. cbn [mbind result_bind].
  unfold durable_atomic_write. by rewrite replace_faultless.
Qed.

Lemma saved_file r name content m : job_validate r = Ok tt -> record_to_vec_pretty r = Ok content ->
  Z.of_nat (length content) <= MAX_JOB_STATE_BYTES -> path_for (record_id r) = Ok name ->
  record_file (<[name := RegularFile content]> m) (record_id r) r.
Proof.
  intros Ev Ec Hl En. exists name, content. rewrite lookup_insert_eq. repeat split; try done. by apply job_json_roundtrip.
Qed.

Lemma other_file name content m id id' r : path_for id = Ok name -> id' <> id ->
  record_file (<[name := RegularFile content]> m) id' r <-> record_file m id' r.
Proof.
  intros En Hne. split; apply record_file_ext; intros n Hn; rewrite lookup_insert_ne; try done; intros <-; by eapply Hne, path_for_inj.
Qed.

(** ** Loading the directory *)

(** Every entry named like a record is a file with a record of that name. *)
Definition loadable (m : gmap string DirEntry) : Prop := forall name e id, m !! name = Some e -> json_stem name = Some id ->
  exists content r, e = RegularFile content /\ record_file m id r.

Definition entry_record (m : gmap string DirEntry) (x : string * DirEntry) (l : list JobRecord) : Prop :=
  match json_stem x.1 with
  | None => l = []
  | Some id => exists content r, x.2 = RegularFile content /\ record_file m id r /\ l = [r]
  end.

Lemma load_entry_iff m n acc x n' acc' : load_entry (RootEntries m) (n, acc) x = Ok (n', acc') <->
  n' = n + 1 /\ n' <= MAX_STATE_DIRECTORY_ENTRIES /\ exists l, entry_record m x l /\ acc' = acc ++ l.
Proof.
  unfold load_entry, entry_record. destruct (Z.ltb_spec MAX_STATE_DIRECTORY_ENTRIES (n + 1)) as [Hn|Hn]; cbn [reject mbind result_bind].
  { split; [done|]. intros (-> & ? & _). lia. }
  destruct (json_stem x.1) as [id|].
  - destruct x as [name [content| | |]]; cbn [snd]; try (split; [done|]; by intros (_ & _ & l & (c & r & ? & _) & _)).
    destruct (store_load id (RootEntries m)) as [r| |] eqn:E; cbn [mbind result_bind].
    + split.
      * intros [= <- <-]. split; [done|]. split; [done|]. exists [r]. split; [|done]. exists content, r. split; [done|]. split; [|done]. by apply load_iff.
      * intros (-> & _ & l & (c & r' & _ & Hr & ->) & ->). apply load_iff in Hr. congruence.
    + split; [done|]. intros (_ & _ & l & (c & r' & _ & Hr%load_iff & _) & _). congruence.
    + split; [done|]. intros (_ & _ & l & (c & r' & _ & Hr%load_iff & _) & _). congruence.
  - split.
    + intros [= <- <-]. split; [done|]. split; [done|]. exists []. split; [done|]. by rewrite app_nil_r.
    + intros (-> & _ & l & -> & ->). by rewrite app_nil_r.
Qed.

Lemma load_fold_iff m xs n acc out : 0 <= n <= MAX_STATE_DIRECTORY_ENTRIES ->
  (exists k, rfold (load_entry (RootEntries m)) xs (n, acc) = Ok (k, out)) <->
  n + Z.of_nat (length xs) <= MAX_STATE_DIRECTORY_ENTRIES /\ exists ls, Forall2 (entry_record m) xs ls /\ out = acc ++ mjoin ls.
Proof.
  revert n acc. induction xs as [|x xs IH]; intros n acc Hn; cbn [rfold length].
  - split.
    + intros (k & [= <- <-]). split; [lia|]. exists []. split; [constructor|]. by rewrite app_nil_r.
    + intros (_ & ls & Hls & ->). inversion Hls; subst. exists n. cbn. by rewrite app_nil_r.
  - split.
    + intros (k & E). bind_step E Ex. match type of Ex with _ = Ok ?q => destruct q as [n1 acc1] end. apply load_entry_iff in Ex as (-> & Hle & l & Hl & ->).
      destruct (proj1 (IH (n + 1) (acc ++ l) ltac:(lia))) as (Hle' & ls & Hls & ->); [by exists k|].
      split; [lia|]. exists (l :: ls). split; [by constructor|]. cbn. by rewrite app_assoc.
    + intros (Hle & ls & Hls & ->). inversion Hls as [|? l ? ls' Hl Hls']; subst.
      assert (load_entry (RootEntries m) (n, acc) x = Ok (n + 1, acc ++ l)) as ->.
      { apply load_entry_iff. split; [done|]. split; [lia|]. eauto. }
      cbn [mbind result_bind]. apply IH; [lia|]. split; [lia|]. exists ls'. split; [done|]. cbn. by rewrite app_assoc.
Qed.

Definition id_lt (a b : JobRecord) : Prop := str_compare (record_id a) (record_id b) = Lt.

(** The records of the entries of a directory, once each. *)
Lemma entries_records m xs ls : xs ≡ₚ map_to_list m -> Forall2 (entry_record m) xs ls ->
  loadable m /\ NoDup (record_id <$> mjoin ls) /\ forall r, r ∈ mjoin ls <-> record_file m (record_id r) r.
Proof.
  intros Hp Hls. assert (Hin : forall name e, (name, e) ∈ xs <-> m !! name = Some e).
  { intros name e. rewrite Hp. apply elem_of_map_to_list. }
  assert (Hload : loadable m).
  { intros name e id He%Hin Hs. apply list_elem_of_lookup_1 in He as (i & Hi). destruct (Forall2_lookup_l _ _ _ _ _ Hls Hi) as (l & _ & Hl).
    unfold entry_record in Hl. cbn in Hl. rewrite Hs in Hl. destruct Hl as (content & r & -> & Hr & _). eauto. }
  assert (Hmem : forall r, r ∈ mjoin ls <-> exists name e id, (name, e) ∈ xs /\ json_stem name = Some id /\ record_file m id r).
  { intros r. rewrite list_elem_of_join. split.
    - intros (l & Hr & (i & Hi)%list_elem_of_lookup_1). destruct (Forall2_lookup_r _ _ _ _ _ Hls Hi) as ([name e] & Hx & Hl).
      unfold entry_record in Hl. cbn in Hl. destruct (json_stem name) as [id|] eqn:Es; [|by subst l; apply not_elem_of_nil in Hr].
      destruct Hl as (content & r' & _ & Hf & ->). apply list_elem_of_singleton in Hr as ->. exists name, e, id.
      split; [by eapply list_elem_of_lookup_2|done].
    - intros (name & e & id & (i & Hi)%list_elem_of_lookup_1 & Hs & Hf). destruct (Forall2_lookup_l _ _ _ _ _ Hls Hi) as (l & Hl & Hx).
      unfold entry_record in Hx. cbn in Hx. rewrite Hs in Hx. destruct Hx as (content & r' & _ & Hf' & ->).
      exists [r']. split; [|by eapply list_elem_of_lookup_2]. apply list_elem_of_singleton. by eapply record_file_fun. }
  split; [done|]. split.
  - assert (Hnd : NoDup xs.*1) by (rewrite Hp; apply NoDup_fst_map_to_list). clear Hin Hmem Hload Hp.
    induction Hls as [|[name e] l xs ls Hx Hls IH]; cbn; [constructor|]. inversion Hnd as [|? ? Hn Hnd']; subst.
    rewrite fmap_app. apply NoDup_app. unfold entry_record in Hx. cbn in Hx. destruct (json_stem name) as [id|] eqn:Es; [|subst l; cbn].
    + destruct Hx as (content & r & _ & Hf & ->). cbn. split; [apply NoDup_singleton|]. split; [|by apply IH].
      intros i ->%list_elem_of_singleton (r' & Ei & (l' & Hr' & (j & Hj)%list_elem_of_lookup_1)%list_elem_of_join)%list_elem_of_fmap.
      destruct (Forall2_lookup_r _ _ _ _ _ Hls Hj) as ([name' e'] & Hx' & Hl'). unfold entry_record in Hl'. cbn in Hl'.
      destruct (json_stem name') as [id'|] eqn:Es'; [|by subst l'; apply not_elem_of_nil in Hr'].
      destruct Hl' as (content' & r2 & _ & Hf' & ->). apply list_elem_of_singleton in Hr' as ->.
      destruct Hf as (_ & _ & _ & _ & _ & _ & Eid & _). destruct Hf' as (_ & _ & _ & _ & _ & _ & Eid' & _).
      apply Hn. apply json_stem_inv in Es as ->, Es' as ->. rewrite <- Eid, Ei, Eid'.
      apply list_elem_of_fmap. eexists (_, e'). split; [done|]. by eapply list_elem_of_lookup_2.
    + split; [constructor|]. split; [|by apply IH]. intros i Hi. by apply not_elem_of_nil in Hi.
  - intros r. rewrite Hmem. split.
    + intros (name & e & id & _ & _ & Hf). pose proof Hf as (_ & _ & _ & _ & _ & _ & -> & _). done.
    + intros Hf. pose proof Hf as (name & content & Hn & Hm & _). exists name, (RegularFile content), (record_id r).
      split; [by apply Hin|]. split; [by apply path_for_inv|done].
Qed.

#[local] Instance id_le_trans : Transitive id_le.
Proof.
  intros a b c Hab Hbc E. unfold id_le in *. set (x := record_id a) in *. set (y := record_id b) in *. set (z := record_id c) in *.
  destruct (str_compare x y) eqn:E1; [|destruct (str_compare y z) eqn:E2|done].
  - apply cmp_eq in E1. congruence.
  - apply cmp_eq in E2. congruence.
  - pose proof (cmp_lt_trans (cmp := str_compare) x y z E1 E2). congruence.
  - done.
Qed.
#[local] Instance id_le_total : Total id_le.
Proof.
  intros a b. unfold id_le. rewrite (cmp_antisym (cmp := str_compare) (record_id a)).
  destruct (str_compare (record_id a) (record_id b)); [left|left|right]; done.
Qed.

Lemma sorted_by_id rs : NoDup (record_id <$> rs) -> StronglySorted id_lt (merge_sort id_le rs).
Proof.
  intros Hnd. rewrite <- (merge_sort_Permutation id_le rs) in Hnd. pose proof (StronglySorted_merge_sort id_le rs) as Hs.
  induction Hs as [|r rs' Hs IH Hall]; [constructor|]. inversion Hnd as [|? ? Hn Hnd']; subst. constructor; [by apply IH|].
  rewrite list.Forall_forall in *. intros r' Hr'. specialize (Hall r' Hr'). unfold id_lt, id_le in *.
  destruct (str_compare (record_id r) (record_id r')) eqn:E; [|done|done]. apply cmp_eq in E.
  exfalso. apply Hn. rewrite E. by apply list_elem_of_fmap_2.
Qed.

Lemma loadable_entries m : loadable m -> exists ls, Forall2 (entry_record m) (read_dir m) ls.
Proof.
  intros Hload. pose proof (read_dir_lists m) as Hp.
  assert (Hin : forall x, x ∈ read_dir m -> m !! x.1 = Some x.2) by (intros [n e] Hx; rewrite Hp in Hx; by apply elem_of_map_to_list in Hx).
  clear Hp. induction (read_dir m) as [|[n e] xs IH]; [by exists []|]. destruct IH as [ls Hls]; [intros x Hx; apply Hin; by right|].
  pose proof (Hin (n, e) ltac:(left)) as He. cbn in He. destruct (json_stem n) as [id|] eqn:Es.
  - destruct (Hload n e id He Es) as (content & r & -> & Hr). exists ([r] :: ls). constructor; [|done]. unfold entry_record. cbn. rewrite Es. eauto.
  - exists ([] :: ls). constructor; [|done]. unfold entry_record. cbn. by rewrite Es.
Qed.

(** What [load_all] returns of a directory. *)
Lemma load_all_iff m rs : load_all (RootEntries m) = Ok rs <->
  Z.of_nat (size m) <= MAX_STATE_DIRECTORY_ENTRIES /\ loadable m /\ StronglySorted id_lt rs
  /\ forall r, r ∈ rs <-> record_file m (record_id r) r.
Proof.
  pose proof (read_dir_lists m) as Hp.
  assert (Hlen : length (read_dir m) = size m). { by rewrite Hp, <- length_map_to_list. }
  assert (Hz : 0 <= 0 <= MAX_STATE_DIRECTORY_ENTRIES) by (unfold MAX_STATE_DIRECTORY_ENTRIES; lia).
  unfold load_all. split.
  - intros E. bind_step E Ef. match type of Ef with _ = Ok ?q => destruct q as [k out] end. injection E as <-.
    destruct (proj1 (load_fold_iff m (read_dir m) 0 [] out Hz)) as (Hle & ls & Hls & ->); [by exists k|].
    destruct (entries_records m (read_dir m) ls Hp Hls) as (Hload & Hnd & Hmem). cbn [app].
    split; [lia|]. split; [done|]. split; [by apply sorted_by_id|]. intros r. rewrite <- Hmem. by rewrite merge_sort_Permutation.
  - intros (Hsz & Hload & Hsort & Hmem).
    destruct (loadable_entries m Hload) as [ls Hls].
    destruct (entries_records m (read_dir m) ls Hp Hls) as (_ & Hnd & Hmem').
    destruct (proj2 (load_fold_iff m (read_dir m) 0 [] (mjoin ls) Hz)) as (k & ->); [split; [lia|by exists ls]|].
    cbn [mbind result_bind]. f_equal. apply (sorted_ext id_lt).
    + unfold id_lt. intros a b E1 E2. rewrite (cmp_antisym (cmp := str_compare) (record_id b)), E2 in E1. done.
    + by apply sorted_by_id.
    + done.
    + intros r. rewrite merge_sort_Permutation, Hmem, Hmem'. done.
Qed.

Lemma loadable_loads m : Z.of_nat (size m) <= MAX_STATE_DIRECTORY_ENTRIES -> loadable m ->
  exists rs, load_all (RootEntries m) = Ok rs /\ forall r, r ∈ rs <-> record_file m (record_id r) r.
Proof.
  intros Hsz Hload. destruct (loadable_entries m Hload) as [ls Hls].
  destruct (entries_records m (read_dir m) ls (read_dir_lists m) Hls) as (_ & Hnd & Hmem).
  assert (Hm : forall r, r ∈ merge_sort id_le (mjoin ls) <-> record_file m (record_id r) r).
  { intros r. by rewrite merge_sort_Permutation. }
  exists (merge_sort id_le (mjoin ls)). split; [|done]. apply load_all_iff. split; [done|]. split; [done|]. split; [by apply sorted_by_id|done].
Qed.

(** ** Recovery after a restart *)

(** The unfinished attempt of a running job is taken back. *)
Definition recovered (now_unix : Z) (r : JobRecord) : JobRecord :=
  if is_running (jr_state r) then upd r Queued (attempts r - 1) (recovery_count r + 1) now_unix (last_error r) else r.

Lemma recovered_id now r : record_id (recovered now r) = record_id r.
Proof. unfold recovered. by destruct (is_running _). Qed.
Lemma recovered_idle now r : is_running (jr_state (recovered now r)) = false.
Proof. unfold recovered. by destruct (is_running (jr_state r)) eqn:E. Qed.
Lemma recovered_id_when_idle now r : is_running (jr_state r) = false -> recovered now r = r.
Proof. unfold recovered. by intros ->. Qed.

Lemma recover_inv now r b r' : recover_after_restart now r = (Ok b, r') -> b = is_running (jr_state r) /\ r' = recovered now r.
Proof.
  unfold recover_after_restart, recovered. rewrite bind_self. destruct (is_running (jr_state r)); cbn [negb].
  - intros E. apply bind_lift_inv in E as (? & _ & E). cbn in E. destruct (checked_add32 (recovery_count r) 1) as [n|] eqn:En; [|done].
    cbn in E. injection E as <- <-. unfold checked_add32 in En. destruct (_ <? _); [|done]. by injection En as <-.
  - by intros [= <- <-].
Qed.

Lemma recover_runs now r : job_validate r = Ok tt -> recovery_count r + 1 < u32_limit ->
  recover_after_restart now r = (Ok (is_running (jr_state r)), recovered now r).
Proof.
  intros Hv Hc. unfold recover_after_restart, recovered. rewrite bind_self. destruct (is_running (jr_state r)) eqn:Er; cbn [negb]; [|done].
  assert ((attempts r =? 0) = false) as ->.
  { unfold job_validate in Hv. bind_step Hv Ea. bind_step Hv Eb. bind_step Hv Ec. bind_step Hv Ed. destruct (jr_state r); try done.
    by apply reject_inv in Ed. }
  cbn. unfold checked_add32. rewrite (proj2 (Z.ltb_lt _ _)) by done. done.
Qed.

(** What the loop of [recover_running] does to the directory. *)
Record recovery (now : Z) (rs : list JobRecord) (m m' : gmap string DirEntry) : Prop := {
  rec_files : forall r, r ∈ rs -> record_file m' (record_id r) (recovered now r);
  rec_others : forall id r, id ∉ record_id <$> rs -> record_file m' id r <-> record_file m id r;
  rec_names : dom m' = dom m
}.

Lemma recover_each_spec now rs m rs' root' : NoDup (record_id <$> rs) -> (forall r, r ∈ rs -> record_file m (record_id r) r) ->
  recover_each now rs (RootEntries m) = (Ok rs', root') ->
  rs' = recovered now <$> rs /\ exists m', root' = RootEntries m' /\ recovery now rs m m'.
Proof.
  revert m rs'. induction rs as [|r rs IH]; intros m rs' Hnd Hf E; cbn [recover_each] in E.
  { injection E as <- <-. split; [done|]. exists m. split; [done|]. split; [|done|done]. intros r Hr. by apply not_elem_of_nil in Hr. }
  inversion Hnd as [|? ? Hn Hnd']; subst.
  destruct (recover_after_restart now r) as [[b| |] r1] eqn:Er; [|done..]. apply recover_inv in Er as [-> ->].
  assert (Hstep : exists m1, (if is_running (jr_state r) then store_save (recovered now r) (RootEntries m) else (Ok tt, RootEntries m)) = (Ok tt, RootEntries m1)
            /\ recovery now [r] m m1).
  { pose proof (Hf r ltac:(left)) as Hr. destruct (is_running (jr_state r)) eqn:Erun.
    - destruct (store_save (recovered now r) (RootEntries m)) as [[[]| |] root1] eqn:Es; [|done..].
      pose proof Es as (name & content & Hv & Hc & Hl & Hp & Hd & ->)%save_ok. eexists. split; [done|].
      pose proof Hr as (name' & content' & Hp' & Hm & _). rewrite recovered_id in Hp. assert (name' = name) as -> by congruence.
      split.
      + intros r' ->%list_elem_of_singleton. rewrite <- (recovered_id now r). apply saved_file; try done. by rewrite recovered_id.
      + intros id r' Hid. apply (other_file _ _ _ (record_id r)); [done|]. intros ->. apply Hid. left.
      + rewrite dom_insert_L. apply subseteq_union_1_L, singleton_subseteq_l, elem_of_dom. eauto.
    - exists m. split; [done|]. split; [|done|done]. intros r' ->%list_elem_of_singleton. by rewrite recovered_id_when_idle. }
  destruct Hstep as (m1 & Es & R1). rewrite Es in E.
  destruct (recover_each now rs (RootEntries m1)) as [[rs1| |] root1] eqn:Ei; [|done..]. injection E as <- <-.
  destruct (IH m1 rs1 Hnd') as (-> & m' & -> & R2); [|done|].
  { intros r' Hr'. apply (rec_others _ _ _ _ R1); [|apply Hf; by right]. cbn. intros Ei'%list_elem_of_singleton.
    apply Hn. rewrite <- Ei'. by apply list_elem_of_fmap_2. }
  split; [done|]. exists m'. split; [done|]. split.
  - intros r' [->|Hr']%elem_of_cons; [|by apply (rec_files _ _ _ _ R2)].
    apply (rec_others _ _ _ _ R2); [done|]. apply (rec_files _ _ _ _ R1). left.
  - intros id r' [Hid1 Hid2]%not_elem_of_cons. rewrite (rec_others _ _ _ _ R2) by done.
    apply (rec_others _ _ _ _ R1). cbn. intros ->%list_elem_of_singleton. done.
  - by rewrite (rec_names _ _ _ _ R2), (rec_names _ _ _ _ R1).
Qed.

Lemma sorted_ids_nodup rs : StronglySorted id_lt rs -> NoDup (record_id <$> rs).
Proof.
  induction 1 as [|r rs Hs IH Hall]; cbn; constructor; [|done].
  intros (r' & E & Hr')%list_elem_of_fmap. rewrite list.Forall_forall in Hall. specialize (Hall r' Hr'). unfold id_lt in Hall.
  rewrite E, (proj2 (cmp_eq (cmp := str_compare) _ _) eq_refl) in Hall. done.
Qed.

Lemma recovered_sorted now rs : StronglySorted id_lt rs -> StronglySorted id_lt (recovered now <$> rs).
Proof.
  induction 1 as [|r rs Hs IH Hall]; cbn; constructor; [done|]. rewrite list.Forall_forall in *.
  intros r' (x & -> & Hx)%list_elem_of_fmap. unfold id_lt. rewrite !recovered_id. by apply Hall.
Qed.

(** A directory after the recovery of its records loads as those records. *)
Lemma recovery_loads now m m' rs : load_all (RootEntries m) = Ok rs -> recovery now rs m m' ->
  load_all (RootEntries m') = Ok (recovered now <$> rs).
Proof.
  intros (Hsz & Hload & Hsort & Hmem)%load_all_iff R. apply load_all_iff.
  assert (Hfile : forall id r, record_file m id r -> exists r', record_file m' id r').
  { intros id r Hr. destruct (decide (id ∈ record_id <$> rs)) as [Hin|Hin].
    - apply list_elem_of_fmap in Hin as (x & -> & Hx). exists (recovered now x). by apply (rec_files _ _ _ _ R).
    - exists r. by apply (rec_others _ _ _ _ R). }
  split; [|split; [|split]].
  - rewrite <- !(size_dom (D := gset string)) in *. by rewrite (rec_names _ _ _ _ R).
  - intros name e id He Es. assert (exists e0, m !! name = Some e0) as [e0 He0].
    { apply elem_of_dom. rewrite <- (rec_names _ _ _ _ R). by apply elem_of_dom. }
    destruct (Hload name e0 id He0 Es) as (_ & r & _ & Hr). destruct (Hfile id r Hr) as (r' & Hr').
    pose proof Hr' as (n & content & Hn & Hm & _). exists content, r'. split; [|done].
    apply (stem_path _ _ _ Es) in Hn as ->. congruence.
  - by apply recovered_sorted.
  - intros r. split.
    + intros (x & -> & Hx)%list_elem_of_fmap. rewrite recovered_id. by apply (rec_files _ _ _ _ R).
    + intros Hr. destruct (decide (record_id r ∈ record_id <$> rs)) as [Hin|Hin].
      * apply list_elem_of_fmap in Hin as (x & E & Hx). apply list_elem_of_fmap. exists x. split; [|done].
        apply (record_file_fun m' (record_id r)); [done|]. rewrite E. by apply (rec_files _ _ _ _ R).
      * apply (rec_others _ _ _ _ R _ _ Hin), Hmem in Hr. destruct Hin. by apply list_elem_of_fmap_2.
Qed.

Lemma recover_each_idle now rs root : Forall (fun r => is_running (jr_state r) = false) rs -> recover_each now rs root = (Ok rs, root).
Proof.
  induction 1 as [|r rs Hr Hs IH]; [done|]. cbn [recover_each]. unfold recover_after_restart. rewrite bind_self, Hr. cbn. by rewrite IH.
Qed.

(** The recovery goes through when the records can be written. *)
Lemma recover_each_succeeds `{!Faultless} now rs m : NoDup (record_id <$> rs) -> (forall r, r ∈ rs -> record_file m (record_id r) r) ->
  (forall r, r ∈ rs -> recovery_count r + 1 < u32_limit /\ exists content, record_to_vec_pretty (recovered now r) = Ok content
     /\ Z.of_nat (length content) <= MAX_JOB_STATE_BYTES) ->
  exists root', recover_each now rs (RootEntries m) = (Ok (recovered now <$> rs), root').
Proof.
  revert m. induction rs as [|r rs IH]; intros m Hnd Hf Henc; [by exists (RootEntries m)|]. inversion Hnd as [|? ? Hn Hnd']; subst.
  destruct (Henc r ltac:(left)) as (Hcount & content & Hc & Hl). pose proof (Hf r ltac:(left)) as (name & c0 & Hp & Hm & _ & _ & _ & Hv).
  cbn [recover_each]. rewrite (recover_runs now r Hv Hcount).
  assert (exists m1, (if is_running (jr_state r) then store_save (recovered now r) (RootEntries m) else (Ok tt, RootEntries m)) = (Ok tt, RootEntries m1)
            /\ forall id x, id <> record_id r -> record_file m id x -> record_file m1 id x) as (m1 & -> & Hm1).
  { destruct (is_running (jr_state r)) eqn:Er; [|by exists m].
    exists (<[name := RegularFile content]> m). split.
    - apply save_succeeds; [|done|done|by rewrite recovered_id|congruence].
      unfold job_validate in Hv |- *. unfold recovered. rewrite Er.
      cbn [upd jr_schema jr_plan jr_state last_error is_queued is_backoff is_failed negb andb orb]. bind_step Hv Ea. bind_step Hv Eb. by bind_step Hv Ec.
    - intros id x Hid. by apply (other_file _ _ _ (record_id r)). }
  destruct (IH m1 Hnd') as (root' & ->); [| |by exists root'].
  - intros x Hx. apply Hm1; [|apply Hf; by right]. intros E. apply Hn. rewrite <- E. by apply list_elem_of_fmap_2.
  - intros x Hx. apply Henc. by right.
Qed.
End theory.

(** ** The store *)

(** C22: [save] followed by [load] gives the record back, and only the job of
    the record is affected: every other job loads as before, and [load_all] of
    a directory with room for one more entry returns the records it returned
    before with this one in place of an older record of the same job. *)
Theorem saved_records_load `{JobJsonLaws, ReadDirLaws} {faults : WriteFaults} r m rs root' :
  load_all (RootEntries m) = Ok rs -> Z.of_nat (size m) < MAX_STATE_DIRECTORY_ENTRIES ->
  store_save r (RootEntries m) = (Ok tt, root') ->
  store_load (record_id r) root' = Ok r
  /\ (forall id x, id <> record_id r -> store_load id root' = Ok x <-> store_load id (RootEntries m) = Ok x)
  /\ exists rs', load_all root' = Ok rs' /\ forall x, x ∈ rs' <-> x = r \/ x ∈ rs /\ record_id x <> record_id r.
Proof.
  intros (_ & Hload & _ & Hmem)%load_all_iff Hsz (name & content & Hv & Hc & Hl & Hp & Hd & ->)%save_ok.
  set (m' := <[name := RegularFile content]> m). pose proof (saved_file r name content m Hv Hc Hl Hp) as Hr. fold m' in Hr.
  assert (Ho : forall id x, id <> record_id r -> record_file m' id x <-> record_file m id x) by (intros; by eapply other_file).
  split; [by apply load_iff|]. split; [intros id x Hid; rewrite !load_iff; by apply Ho|].
  destruct (loadable_loads m') as (rs' & Hrs' & Hmem').
  - unfold m'. rewrite map_size_insert. destruct (m !! name); cbn; lia.
  - intros n e id He Es. destruct (decide (n = name)) as [->|Hne].
    + unfold m' in He. rewrite lookup_insert_eq in He. injection He as <-. exists content, r. split; [done|].
      apply path_for_inv in Hp as [Es' _]. rewrite Es in Es'. injection Es' as ->. done.
    + assert (Hid : id <> record_id r). { intros ->. apply Hne. symmetry. by eapply stem_path. }
      unfold m' in He. rewrite lookup_insert_ne in He by done. destruct (Hload n e id He Es) as (c & x & -> & Hx).
      exists c, x. split; [done|]. by apply Ho.
  - exists rs'. split; [done|]. intros x. rewrite Hmem', Hmem. split.
    + intros Hx. destruct (decide (record_id x = record_id r)) as [E|E]; [left|right].
      * rewrite E in Hx. by eapply record_file_fun.
      * split; [|done]. by apply Ho.
    + intros [->|[Hx Hne]]; [done|]. by apply Ho.
Qed.

(** C21: recovery after a restart. When the recovered records can be written
    and the file system does not fail a write, [recover_running] returns every record of the directory, each running one
    queued again with its unfinished attempt taken back and counted as a
    recovery; the directory it leaves holds exactly the records it returned,
    so that none is running and another restart changes nothing. *)
Theorem recovery_is_complete `{JobJsonLaws, ReadDirLaws, Faultless} m rs now :
  load_all (RootEntries m) = Ok rs ->
  (forall r, r ∈ rs -> recovery_count r + 1 < u32_limit /\ exists content, record_to_vec_pretty (recovered now r) = Ok content
     /\ Z.of_nat (length content) <= MAX_JOB_STATE_BYTES) ->
  exists m', recover_running now (RootEntries m) = (Ok (recovered now <$> rs), RootEntries m')
    /\ load_all (RootEntries m') = Ok (recovered now <$> rs)
    /\ Forall (fun r => is_running (jr_state r) = false) (recovered now <$> rs)
    /\ forall now', recover_running now' (RootEntries m') = (Ok (recovered now <$> rs), RootEntries m').
Proof.
  intros Hl Henc. pose proof Hl as (_ & _ & Hsort & Hmem)%load_all_iff. pose proof (sorted_ids_nodup _ Hsort) as Hnd.
  assert (Hf : forall r, r ∈ rs -> record_file m (record_id r) r) by (intros r; apply Hmem).
  assert (Hidle : Forall (fun r => is_running (jr_state r) = false) (recovered now <$> rs)).
  { apply list.Forall_forall. intros r (x & -> & _)%list_elem_of_fmap. apply recovered_idle. }
  destruct (recover_each_succeeds now rs m Hnd Hf Henc) as (root' & Hr).
  destruct (recover_each_spec now rs m _ root' Hnd Hf Hr) as (_ & m' & -> & R).
  pose proof (recovery_loads now m m' rs Hl R) as Hl'. exists m'. split_and!; [|done|done|].
  - unfold recover_running. by rewrite Hl.
  - intros now'. unfold recover_running. rewrite Hl'. by apply recover_each_idle.
Qed.

(** ** Saving and the file system *)

Lemma plan_job_id plan : plan_validate plan = Ok tt -> exists cycle, job_id plan = canonical_job_id (jp_model plan) cycle
  /\ validate_store_component (job_id plan) = Ok tt.
Proof.
  unfold plan_validate. intros E. bind_step E E1. bind_step E E2. bind_step E E3. bind_step E E4. bind_step E E5. bind_step E E6.
  apply reject_inv, orb_false_iff in E4 as [_ E4%negb_false_iff%bool_decide_eq_true]. eexists. split; [exact E4|].
  by destruct (validate_store_component (job_id plan)) as [[]| |].
Qed.

(** The file of a valid record is not hidden. *)
Lemma record_name_visible r name : job_validate r = Ok tt -> path_for (record_id r) = Ok name -> visible name.
Proof.
  unfold job_validate. intros E [_ ->]%path_for_inv. bind_step E E1. bind_step E E2. destruct a0.
  destruct (plan_job_id _ E2) as (cycle & Hid & _). unfold visible, record_id. rewrite Hid, bytes_of_bytes. unfold canonical_job_id.
  rewrite bytes_of_bytes. by destruct (jp_model (jr_plan r)).
Qed.

(** C23: the store on the file system. A lone writer runs the system calls of
    [save] from a directory with any entries. Whatever calls it makes and
    whichever of them fail, at the rename, in the sync of the directory after
    it or in the removal of the temporary file, the result it returns and the
    entries it leaves are those of the model of [save] under some fault of the
    file system; and when no call fails that need not, it returns within the
    attempts its temporary name can need, with the result and the entries of
    the model without faults. *)
Theorem save_refines_calls `{JobJsonLaws} r d s pid name content :
  dir_wf d -> seqs_fit s (size (names d) + 1) -> 0 <= pid < u32_limit ->
  job_validate r = Ok tt -> path_for (record_id r) = Ok name ->
  record_to_vec_pretty r = Ok content -> Z.of_nat (length content) <= MAX_JOB_STATE_BYTES ->
  let w := {| w_pid := pid; w_file := name; w_bytes := content |} in
  (forall calls u result, run_calls calls (start_world d s [w]) = Some u -> pcs u = [(w, Returned result)] ->
     exists faults : WriteFaults, store_save (faults := faults) r (RootEntries (listing d)) = (map_err Store result, RootEntries (listing (dir u))))
  /\ exists result d', alone (size (names d) + 5) (start_world d s [w]) = Some (result, d')
       /\ store_save (faults := no_faults) r (RootEntries (listing d)) = (map_err Store result, RootEntries (listing d')).
Proof.
  intros Hd Hfit Hpid Hv Hp Hc Hl w. assert (Hw : writer_ok w) by (split; [by eapply record_name_visible|done]).
  assert (Hsave : forall fault result d', (result, listing d') = replace_with fault name content (listing d) ->
    store_save (faults := {| write_fault _ _ _ := fault |}) r (RootEntries (listing d)) = (map_err Store result, RootEntries (listing d'))).
  { intros fault result d' Hr. unfold store_save. rewrite Hv, Hc. cbn [mbind result_bind].
    rewrite (proj2 (Z.ltb_ge _ _)) by done. cbn [reject mbind result_bind]. unfold record_id in Hp. rewrite Hp. cbn [mbind result_bind].
    unfold durable_atomic_write, replace_entry. cbn [write_fault]. by rewrite <- Hr. }
  split.
  - intros calls u result Hrun Hret. destruct (lone_refines_replace d s w calls u result Hw Hd Hrun Hret) as (fault & E). by eexists; apply Hsave.
  - destruct (alone_replaces_entry d s w Hw Hd Hfit) as (res & d' & E & Hr). exists res, d'. split; [exact E|]. exact (Hsave NoFault res d' Hr).
Qed.

(** The name of a temporary file never ends like that of a record. *)
Lemma temp_not_json f p q : json_stem (temp_name f p q) = None.
Proof.
  destruct (json_stem _) as [id|] eqn:E; [|done]. exfalso. apply json_stem_inv in E.
  apply (not_temporary_last (temp_name f p q) (chr 110)); [|done|by exists f, p, q]. rewrite E, bytes_of_bytes.
  change (bytes ".json") with (bytes ".jso" ++ [chr 110]). by rewrite app_assoc, last_snoc.
Qed.

(** What a crash in the middle of a save leaves does not matter. A
    directory that also holds the temporary file of an interrupted save, with
    any content, loads exactly the records it loads without it. *)
Theorem leftovers_are_ignored `{JobJsonLaws, ReadDirLaws} m file_name pid seq e rs :
  m !! temp_name file_name pid seq = None -> Z.of_nat (size m) < MAX_STATE_DIRECTORY_ENTRIES ->
  load_all (RootEntries (<[temp_name file_name pid seq := e]> m)) = Ok rs <-> load_all (RootEntries m) = Ok rs.
Proof.
  intros Hm Hsz. rewrite !load_all_iff, map_size_insert_None by done. set (t := temp_name file_name pid seq) in *.
  assert (Ht : json_stem t = None) by apply temp_not_json.
  assert (Hne : forall name id, json_stem name = Some id -> t <> name) by (intros name id E <-; congruence).
  assert (Hf : forall id r, record_file (<[t := e]> m) id r <-> record_file m id r).
  { intros id r. split; apply record_file_ext; intros name [Hn _]%path_for_inv; rewrite lookup_insert_ne; by eauto. }
  assert (Hl : loadable (<[t := e]> m) <-> loadable m).
  { unfold loadable. setoid_rewrite Hf. split; intros H' name e' id He Es; eapply H'; try exact Es; rewrite ?lookup_insert_ne in * by (by eapply Hne); done. }
  setoid_rewrite Hf. rewrite Hl. intuition lia.
Qed.

(** ** Examples *)

#[local] Instance IngestProductPlan_eq_dec : EqDecision IngestProductPlan.
Proof. solve_decision. Defined.
#[local] Instance PersistedIngestProfile_eq_dec : EqDecision PersistedIngestProfile.
Proof. solve_decision. Defined.
#[local] Instance ExpectedValidTime_eq_dec : EqDecision ExpectedValidTime.
Proof. solve_decision. Defined.
#[local] Instance JobPlan_eq_dec : EqDecision JobPlan.
Proof. solve_decision. Defined.
#[local] Instance JobState_eq_dec : EqDecision JobState.
Proof. solve_decision. Defined.
#[local] Instance JobRecord_eq_dec : EqDecision JobRecord.
Proof. solve_decision. Defined.

(** The record of a job that was running when the daemon stopped. *)
Definition known_record : option JobRecord := Eval vm_compute in
  match build Rtma {| date_yyyymmdd := "20240229"; hour_utc := 7 |} with
  | Ok plan => Some {| jr_schema := JOB_STATE_SCHEMA; jr_plan := plan; jr_state := Running 100; attempts := 1; recovery_count := 0;
                       created_unix := 90; updated_unix := 100; last_error := None |}
  | _ => None
  end.
Definition running_record : JobRecord := Eval vm_compute in
  match known_record with
  | Some r => r
  | None => {| jr_schema := ""; jr_plan := {| jp_schema := ""; job_id := ""; jp_model := Rtma; jp_cycle := {| date_yyyymmdd := ""; hour_utc := 0 |};
                 run_id := ""; expected_valid_times := []; ingest_products := []; capability_limitations := [];
                 ingest_profile := {| pp_volumes := []; pp_level_step_hpa := 0; pp_surface_fields := None; pp_derived := false; pp_heavy := false |};
                 source_override := None |};
               jr_state := Queued; attempts := 0; recovery_count := 0; created_unix := 0; updated_unix := 0; last_error := None |}
  end.

(** An encoding that knows that record and the recovered one. *)
Definition two_record_json : JobJson := {|
  record_to_vec_pretty := fun r =>
    if bool_decide (r = running_record) then Ok [Byte.x72]
    else if bool_decide (r = recovered 200 running_record) then Ok [Byte.x71] else Err (Json "unknown");
  record_from_slice := fun bs =>
    if bool_decide (bs = [Byte.x72]) then Ok running_record
    else if bool_decide (bs = [Byte.x71]) then Ok (recovered 200 running_record) else Err (Json "unknown")
|}.
Lemma two_record_json_laws : @JobJsonLaws two_record_json.
Proof.
  split. intros r bs. cbn. case_bool_decide as E1; [intros [= <-]; by rewrite E1|].
  case_bool_decide as E2; [|done]. intros [= <-]. rewrite E2. done.
Qed.
Definition by_key : ReadDir := {| read_dir := map_to_list |}.
Lemma by_key_laws : @ReadDirLaws by_key.
Proof. done. Qed.

Definition record_name : string := "rtma-20240229-07z.json".
Definition sample_entries : gmap string DirEntry :=
  <[record_name := RegularFile [Byte.x72]]> (<["notes"%string := DirectoryEntry]> ∅).

Lemma sample_loads : @load_all two_record_json by_key (RootEntries sample_entries) = Ok [running_record].
Proof. vm_compute. reflexivity. Qed.

Theorem saved_records_load_witness :
  @store_load two_record_json "rtma-20240229-07z" (RootEntries (<[record_name := RegularFile [Byte.x71]]> sample_entries))
  = Ok (recovered 200 running_record).
Proof.
  destruct (@saved_records_load two_record_json two_record_json_laws by_key by_key_laws no_faults (recovered 200 running_record) sample_entries [running_record]
    (RootEntries (<[record_name := RegularFile [Byte.x71]]> sample_entries))) as [H _].
  - exact sample_loads.
  - vm_compute. reflexivity.
  - vm_compute. reflexivity.
  - exact H.
Defined.

Theorem recovery_is_complete_witness : exists m',
  @load_all two_record_json by_key (RootEntries m') = Ok [recovered 200 running_record]
  /\ is_running (jr_state (recovered 200 running_record)) = false.
Proof.
  destruct (@recovery_is_complete two_record_json two_record_json_laws by_key by_key_laws no_faults no_faults_faultless sample_entries [running_record] 200) as (m' & _ & H & _).
  - exact sample_loads.
  - intros r ->%list_elem_of_singleton. split; [vm_compute; reflexivity|]. exists [Byte.x71]. split; [vm_compute; reflexivity|vm_compute; discriminate].
  - exists m'. split; [exact H|reflexivity].
Defined.

Theorem leftovers_are_ignored_witness :
  @load_all two_record_json by_key (RootEntries (<[temp_name record_name 7 0 := RegularFile [Byte.x7b]]> sample_entries)) = Ok [running_record].
Proof.
  apply (@leftovers_are_ignored two_record_json two_record_json_laws by_key by_key_laws); [vm_compute; reflexivity|vm_compute; reflexivity|].
  exact sample_loads.
Defined.

(** The record is written, and the sync of the directory fails after the
    rename: the save is an error, and the new record is there. *)
Definition unsynced_calls : list (nat * Call) :=
  [(0, CallOpen); (0, CallWrite 1); (0, CallSync); (0, CallRename); (0, CallFails); (0, CallRemove)]%nat.
Definition record_writer : Writer := {| w_pid := 7; w_file := record_name; w_bytes := [Byte.x72] |}.
Definition unsynced_world : World :=
  default (start_world sample_dir (fun _ => 0) [record_writer]) (run_calls unsynced_calls (start_world sample_dir (fun _ => 0) [record_writer])).

Theorem save_refines_calls_witness :
  (exists faults : WriteFaults, store_save (H := two_record_json) (faults := faults) running_record (RootEntries (listing sample_dir))
     = (Err (Store io_error), RootEntries (listing (dir unsynced_world))))
  /\ listing (dir unsynced_world) !! record_name = Some (RegularFile [Byte.x72])
  /\ exists result d', alone 7 (start_world sample_dir (fun _ => 0) [record_writer]) = Some (result, d')
       /\ store_save (H := two_record_json) (faults := no_faults) running_record (RootEntries (listing sample_dir)) = (map_err Store result, RootEntries (listing d')).
Proof.
  destruct (@save_refines_calls two_record_json two_record_json_laws running_record sample_dir (fun _ => 0) 7 record_name [Byte.x72]) as [H1 H2].
  - exact sample_dir_wf.
  - intros p. vm_compute. split; [discriminate|reflexivity].
  - vm_compute. split; [discriminate|reflexivity].
  - vm_compute. reflexivity.
  - vm_compute. reflexivity.
  - vm_compute. reflexivity.
  - vm_compute. discriminate.
  - split; [|split; [vm_compute; reflexivity|exact H2]].
    apply (H1 unsynced_calls unsynced_world (Err io_error)); vm_compute; reflexivity.
Defined.
