(* ===== verification/Retention.v ===== *)
(** * Aliases and retention

    [crates/rw-scheduler/src/alias.rs]: which run the names latest,
    latest-available and latest-covering stand for. [retention.rs]: which runs
    a retention pass keeps and which it may delete. *)
From Stdlib Require Import ZArith Lia Ascii String.
From stdpp Require Import base list strings numbers sorting.
From S2P Require Import Prelude F32 Format Text Order Ids Cycle Models Profile Capability Plan Manifest Coverage Jobs.

Local Open Scope Z_scope.

(** ** Candidates of an alias *)

Record RunCandidate := {
  rc_model : ModelId;
  rc_cycle : CycleSpec;
  rc_origin : Z;
  rc_run_id : string;
  coverage_complete : bool;
  rc_available : list Z   (* a [BTreeSet<i64>] *)
}.

Definition run_candidate_new (model : ModelId) (cycle : CycleSpec) (run_id : string) (complete : bool) (available : list Z)
    : SchedulerResult RunCandidate :=
  cycle ← revalidate_cycle cycle;
  _ ← validate_model_cycle model cycle;
  _ ← map_err Store (validate_store_component run_id);
  origin ← cycle_origin_unix cycle;
  Ok {| rc_model := model; rc_cycle := cycle; rc_origin := origin; rc_run_id := run_id; coverage_complete := complete;
        rc_available := available |}.

Definition from_coverage (plan : JobPlan) (coverage : RunCoverage) : SchedulerResult RunCandidate :=
  _ ← plan_validate plan;
  _ ← reject (negb (matches_plan coverage plan)) (InvalidCoverage "coverage does not belong to job");
  run_candidate_new (jp_model plan) (jp_cycle plan) (run_id plan) (is_complete coverage) (available_valid_unix coverage).

(** The key candidates are compared by: the cycle's origin, then the run id. *)
Definition run_key_cmp : Z * string -> Z * string -> comparison := pair_cmp Z.compare str_compare.
Definition candidate_key (c : RunCandidate) : Z * string := (rc_origin c, rc_run_id c).

(** [Iterator::max_by]: the last of the greatest elements. *)
Definition max_by {A} (cmp : A -> A -> comparison) (l : list A) : option A :=
  match l with
  | [] => None
  | x :: l => Some (foldl (fun best y => match cmp best y with Gt => best | _ => y end) x l)
  end.

Definition newest_matching (candidates : list RunCandidate) (predicate : RunCandidate -> bool) : option RunCandidate :=
  max_by (fun a b => run_key_cmp (candidate_key a) (candidate_key b)) (List.filter predicate candidates).

Definition select_latest (model : ModelId) (candidates : list RunCandidate) : option RunCandidate :=
  newest_matching candidates (fun c => bool_decide (rc_model c = model) && coverage_complete c).
Definition select_latest_available (model : ModelId) (candidates : list RunCandidate) : option RunCandidate :=
  newest_matching candidates (fun c => bool_decide (rc_model c = model) && negb (is_nil (rc_available c))).
(** [BTreeSet::is_subset]. *)
Definition is_subset (a b : list Z) : bool := forallb (fun x => bset_contains Z.compare x b) a.
Definition select_latest_covering (model : ModelId) (candidates : list RunCandidate) (required : list Z) : option RunCandidate :=
  newest_matching candidates
    (fun c => bool_decide (rc_model c = model) && negb (is_nil (rc_available c)) && is_subset required (rc_available c)).

(** ** Retention *)

Record RunKey := { rk_model : ModelId; rk_run_id : string }.
#[global] Instance RunKey_eq_dec : EqDecision RunKey.
Proof. solve_decision. Defined.

(** The derived orders: models by declaration, keys by model and run id. *)
Fixpoint position (m : ModelId) (l : list ModelId) : Z :=
  match l with [] => 0 | m' :: l => if bool_decide (m = m') then 0 else 1 + position m l end.
Definition model_ordinal (m : ModelId) : Z := position m all_model.
Definition model_cmp : ModelId -> ModelId -> comparison := key_cmp model_ordinal Z.compare.
Definition run_key_pair (k : RunKey) : ModelId * string := (rk_model k, rk_run_id k).
Definition retention_key_cmp : RunKey -> RunKey -> comparison := key_cmp run_key_pair (pair_cmp model_cmp str_compare).

Definition run_key_new (model : ModelId) (run_id : string) : SchedulerResult RunKey :=
  _ ← map_err Store (validate_store_component run_id);
  Ok {| rk_model := model; rk_run_id := run_id |}.

Record RetentionRun := {
  rr_key : RunKey;
  rr_cycle : CycleSpec;
  rr_origin : Z;
  rr_active : bool
}.

Definition retention_run_new (model : ModelId) (cycle : CycleSpec) (run_id : string) (active : bool) : SchedulerResult RetentionRun :=
  cycle ← revalidate_cycle cycle;
  _ ← reject (negb (bool_decide (run_id = canonical_run_id cycle))) (InvalidConfig "retention run does not match cycle");
  key ← run_key_new model run_id;
  origin ← cycle_origin_unix cycle;
  Ok {| rr_key := key; rr_cycle := cycle; rr_origin := origin; rr_active := active |}.

Record RetentionPlan := { keep : list RunKey; delete : list RunKey }.

(** The first loop: the keys seen, and the runs of each model in order. *)
Definition group_step (acc : list RunKey * list (ModelId * list RetentionRun)) (run : RetentionRun)
    : SchedulerResult (list RunKey * list (ModelId * list RetentionRun)) :=
  let '(seen, by_model) := acc in
  _ ← reject (bset_contains retention_key_cmp (rr_key run) seen) (InvalidConfig "duplicate retention run");
  Ok (bset_insert retention_key_cmp (rr_key run) seen,
      bmap_alter model_cmp (fun o => default [] o ++ [run]) (rk_model (rr_key run)) by_model).

Definition retention_order (r : RetentionRun) : Z * string := (rr_origin r, rk_run_id (rr_key r)).
(** Newest first. *)
Definition newer_or_same (a b : RetentionRun) : Prop := run_key_cmp (retention_order b) (retention_order a) <> Gt.
#[global] Instance newer_or_same_dec : RelDecision newer_or_same.
Proof. intros a b. unfold newer_or_same. apply _. Defined.

Definition bset_extend_keys (s : list RunKey) (l : list RunKey) : list RunKey := foldl (fun s k => bset_insert retention_key_cmp k s) s l.

Definition plan_retention (runs : list RetentionRun) (aliased : list RunKey) (keep_latest_per_model : nat) : SchedulerResult RetentionPlan :=
  '(seen, by_model) ← rfold group_step runs ([], []);
  let keep := foldl (fun keep run => if rr_active run || bset_contains retention_key_cmp (rr_key run) aliased
                                     then bset_insert retention_key_cmp (rr_key run) keep else keep) [] runs in
  let keep := foldl (fun keep entry => bset_extend_keys keep (rr_key <$> take keep_latest_per_model (merge_sort newer_or_same entry.2)))
                keep by_model in
  Ok {| keep := keep; delete := bset_diff retention_key_cmp seen keep |}.

Definition plan_owned_retention (records : list JobRecord) (aliased : list RunKey) (keep_latest_per_model : nat)
    : SchedulerResult RetentionPlan :=
  runs ← rmap (fun r => retention_run_new (jp_model (jr_plan r)) (jp_cycle (jr_plan r)) (run_id (jr_plan r)) (is_active (jr_state r))) records;
  plan_retention runs aliased keep_latest_per_model.

(** ** Orders *)

Lemma model_at_ordinal m : all_model !! Z.to_nat (model_ordinal m) = Some m.
Proof. destruct m; vm_compute; reflexivity. Qed.
#[global] Instance model_ordinal_inj : Inj (=) (=) model_ordinal.
Proof. intros m m' H. pose proof (model_at_ordinal m) as E. rewrite H, model_at_ordinal in E. by injection E as ->. Qed.
#[global] Instance model_total : TotalCmp model_cmp.
Proof. unfold model_cmp. apply key_total; apply _. Qed.
#[global] Instance run_key_pair_inj : Inj (=) (=) run_key_pair.
Proof. intros [a b] [c d]. unfold run_key_pair. simpl. congruence. Qed.
#[global] Instance retention_key_total : TotalCmp retention_key_cmp.
Proof. unfold retention_key_cmp. apply key_total; apply _. Qed.
#[global] Instance run_key_total : TotalCmp run_key_cmp.
Proof. unfold run_key_cmp. apply _. Qed.

Section le.
Context {K : Type} (cmp : K -> K -> comparison) `{!TotalCmp cmp}.

Lemma cmp_le_total a b : cmp a b <> Gt \/ cmp b a <> Gt.
Proof using TotalCmp0. rewrite (cmp_antisym (cmp := cmp) a b). destruct (cmp a b); simpl; [by left|by left|by right]. Qed.

Lemma cmp_le_trans a b c : cmp a b <> Gt -> cmp b c <> Gt -> cmp a c <> Gt.
Proof using TotalCmp0.
  intros H1 H2. destruct (cmp a b) eqn:E1; [apply (cmp_eq (cmp := cmp)) in E1 as ->; done| |done].
  destruct (cmp b c) eqn:E2; [apply (cmp_eq (cmp := cmp)) in E2 as <-; by rewrite E1| |done].
  by rewrite (cmp_lt_trans (cmp := cmp) a b c).
Qed.
End le.

#[global] Instance newer_or_same_trans : Transitive newer_or_same.
Proof. intros a b c H1 H2. unfold newer_or_same in *. by eapply (cmp_le_trans run_key_cmp). Qed.
#[global] Instance newer_or_same_tot : Total newer_or_same.
Proof. intros a b. apply (cmp_le_total run_key_cmp). Qed.

(** ** Aliases *)

Lemma max_by_spec {A K} (cmp : K -> K -> comparison) `{!TotalCmp cmp} (key : A -> K) (l : list A) :
  match max_by (fun a b => cmp (key a) (key b)) l with
  | None => l = []
  | Some x => x ∈ l /\ forall y, y ∈ l -> cmp (key y) (key x) <> Gt
  end.
Proof.
  destruct l as [|x l]; [done|]. cbn [max_by].
  assert (forall l best, let r := foldl (fun best y => match cmp (key best) (key y) with Gt => best | _ => y end) best l in
    r ∈ best :: l /\ forall y, y ∈ best :: l -> cmp (key y) (key r) <> Gt) as H; [|apply H].
  clear x l. intros l. induction l as [|z l IH]; intros best r; subst r; cbn [foldl].
  - split; [left|]. intros y ->%list_elem_of_singleton. by rewrite (cmp_refl cmp).
  - assert (exists best', match cmp (key best) (key z) with Gt => best | _ => z end = best'
      /\ (best' = best \/ best' = z) /\ cmp (key best) (key best') <> Gt /\ cmp (key z) (key best') <> Gt) as (b & -> & Hb & H1 & H2).
    { destruct (cmp (key best) (key z)) eqn:E.
      - exists z. rewrite E, (cmp_refl cmp). auto.
      - exists z. rewrite E, (cmp_refl cmp). auto.
      - exists best. rewrite (cmp_refl cmp), (cmp_antisym (cmp := cmp) (key best)), E. auto. }
    destruct (IH b) as [Hin Hmax]. split.
    + rewrite !elem_of_cons in *. destruct Hb as [->| ->]; tauto.
    + intros y [->|[->|Hy]%elem_of_cons]%elem_of_cons; [| |apply Hmax; by right];
        (eapply (cmp_le_trans cmp); [eassumption|apply Hmax; left]).
Qed.

(** The newest candidate with a property, by cycle and then run id; [None]
    when no candidate has it. *)
Definition newest_of (candidates : list RunCandidate) (P : RunCandidate -> Prop) (o : option RunCandidate) : Prop :=
  match o with
  | None => forall c, c ∈ candidates -> ~ P c
  | Some c => c ∈ candidates /\ P c /\ forall c', c' ∈ candidates -> P c' -> run_key_cmp (candidate_key c') (candidate_key c) <> Gt
  end.

Lemma newest_matching_spec candidates f P : (forall c, f c = true <-> P c) -> newest_of candidates P (newest_matching candidates f).
Proof.
  intros Hf. unfold newest_matching. pose proof (max_by_spec run_key_cmp candidate_key (List.filter f candidates)) as H.
  assert (forall c, c ∈ List.filter f candidates <-> c ∈ candidates /\ P c) as Hin.
  { intros c. by rewrite list_elem_of_In, filter_In, <- list_elem_of_In, Hf. }
  destruct (max_by _ _) as [c|]; cbn [newest_of].
  - destruct H as [Hc Hmax]. apply Hin in Hc as [Hc HP]. split; [done|]. split; [done|]. intros c' Hc' HP'. by apply Hmax, Hin.
  - intros c Hc HP. apply (not_elem_of_nil c). rewrite <- H. by apply Hin.
Qed.

(** The aliases resolve as documented: latest to the newest run of the
    model whose coverage is complete, latest-available to the newest with some
    expected time present, latest-covering to the newest that has every
    requested time; and to nothing only when no run of the model qualifies. *)
Theorem aliases_select_newest model candidates required :
  newest_of candidates (fun c => rc_model c = model /\ coverage_complete c = true) (select_latest model candidates)
  /\ newest_of candidates (fun c => rc_model c = model /\ rc_available c <> []) (select_latest_available model candidates)
  /\ newest_of candidates (fun c => rc_model c = model /\ rc_available c <> [] /\ forall t, t ∈ required -> t ∈ rc_available c)
       (select_latest_covering model candidates required).
Proof.
  assert (forall c : RunCandidate, negb (is_nil (rc_available c)) = true <-> rc_available c <> []) as Hn.
  { intros c. by destruct (rc_available c). }
  split_and!; apply newest_matching_spec; intros c; rewrite !andb_true_iff, bool_decide_eq_true, ?Hn; [done|done|].
  unfold is_subset. rewrite forallb_forall. setoid_rewrite (bset_contains_iff Z.compare). setoid_rewrite <- list_elem_of_In. tauto.
Qed.

(** ** Retention *)

Definition run_model (r : RetentionRun) : ModelId := rk_model (rr_key r).
Definition runs_of (m : ModelId) (runs : list RetentionRun) : list RetentionRun :=
  List.filter (fun r => bool_decide (run_model r = m)) runs.

(** [a] is strictly newer than [b]. *)
Definition newer_than (b a : RetentionRun) : bool := match run_key_cmp (retention_order b) (retention_order a) with Lt => true | _ => false end.
(** The runs of the same model that are newer. *)
Definition newer_runs (runs : list RetentionRun) (r : RetentionRun) : list RetentionRun :=
  List.filter (newer_than r) (runs_of (run_model r) runs).

Record grouped (runs : list RetentionRun) (seen : list RunKey) (by_model : list (ModelId * list RetentionRun)) : Prop := {
  g_distinct : NoDup (rr_key <$> runs);
  g_wf : bset_wf retention_key_cmp seen;
  g_seen : forall k, k ∈ seen <-> k ∈ rr_key <$> runs;
  g_map : bmap_wf model_cmp by_model;
  g_get : forall m, bmap_get model_cmp m by_model = if is_nil (runs_of m runs) then None else Some (runs_of m runs)
}.

Lemma runs_of_snoc m runs r : runs_of m (runs ++ [r]) = runs_of m runs ++ (if bool_decide (run_model r = m) then [r] else []).
Proof. unfold runs_of. by rewrite List.filter_app. Qed.

Lemma group_runs runs seen by_model : rfold group_step runs ([], []) = Ok (seen, by_model) -> grouped runs seen by_model.
Proof.
  revert seen by_model. induction runs as [|r runs IH] using rev_ind; intros seen by_model H.
  { injection H as <- <-. split; try done; constructor. }
  rewrite rfold_app in H. bind_step H E. match goal with x : _ * _ |- _ => destruct x as [s bm] end.
  destruct (IH s bm eq_refl) as [Hd Hw Hs Hm Hg]. clear IH E. cbn [rfold group_step] in H.
  destruct (bset_contains retention_key_cmp (rr_key r) s) eqn:Ec; [done|]. injection H as <- <-.
  assert (rr_key r ∉ rr_key <$> runs) as Hnew.
  { intros Hin%Hs%(bset_contains_iff retention_key_cmp). congruence. }
  split.
  - rewrite fmap_app. change (rr_key <$> [r]) with [rr_key r]. apply NoDup_app. split; [done|]. split; [|apply NoDup_singleton].
    intros k Hk ->%list_elem_of_singleton. done.
  - by apply (bset_insert_wf retention_key_cmp).
  - intros k. rewrite (elem_of_bset_insert retention_key_cmp), Hs, fmap_app, elem_of_app. change (rr_key <$> [r]) with [rr_key r]. rewrite list_elem_of_singleton. tauto.
  - by apply (bmap_alter_wf model_cmp).
  - intros m. rewrite runs_of_snoc. fold (run_model r). destruct (decide (run_model r = m)) as [<-|Hne].
    + rewrite (bmap_get_alter model_cmp), Hg, bool_decide_eq_true_2 by done. destruct (runs_of (run_model r) runs); done.
    + rewrite (bmap_get_alter_ne model_cmp), Hg, bool_decide_eq_false_2, app_nil_r by done. done.
Qed.

(** The runs kept by the second and third loops. *)
Lemma kept_runs runs aliased keep0 k :
  k ∈ foldl (fun keep run => if rr_active run || bset_contains retention_key_cmp (rr_key run) aliased
                             then bset_insert retention_key_cmp (rr_key run) keep else keep) keep0 runs
  <-> k ∈ keep0 \/ exists run, run ∈ runs /\ k = rr_key run /\ (rr_active run = true \/ rr_key run ∈ aliased).
Proof.
  revert keep0. induction runs as [|r runs IH]; intros keep0; cbn [foldl].
  { split; [auto|]. intros [?|(r & Hr & _)]; [done|]. by apply not_elem_of_nil in Hr. }
  rewrite IH.
  assert (rr_active r || bset_contains retention_key_cmp (rr_key r) aliased = true <-> rr_active r = true \/ rr_key r ∈ aliased) as Hor.
  { by rewrite orb_true_iff, (bset_contains_iff retention_key_cmp). }
  destruct (rr_active r || bset_contains retention_key_cmp (rr_key r) aliased).
  - rewrite (elem_of_bset_insert retention_key_cmp). split.
    + intros [[->|?]|(r' & Hr & ?)]; [right; exists r; split; [left|tauto]|by left|].
      right. exists r'. split; [by right|done].
    + intros [?|(r' & [->|Hr]%elem_of_cons & -> & ?)]; [tauto|tauto|]. right. by exists r'.
  - split.
    + intros [?|(r' & Hr & ?)]; [by left|]. right. exists r'. split; [by right|done].
    + intros [?|(r' & [->|Hr]%elem_of_cons & -> & Ha)]; [by left| |right; by exists r']. apply Hor in Ha. done.
Qed.

Lemma kept_latest (f : ModelId * list RetentionRun -> list RunKey) by_model keep0 k : bset_wf retention_key_cmp keep0 ->
  k ∈ foldl (fun keep entry => bset_extend_keys keep (f entry)) keep0 by_model
  <-> k ∈ keep0 \/ exists entry, entry ∈ by_model /\ k ∈ f entry.
Proof.
  revert keep0. induction by_model as [|x l IH]; intros keep0 Hw; cbn [foldl].
  { split; [auto|]. intros [?|(r & Hr & _)]; [done|]. by apply not_elem_of_nil in Hr. }
  destruct (bset_of_acc retention_key_cmp keep0 (f x) Hw) as [Hw' Hin]. rewrite IH by done. unfold bset_extend_keys. rewrite Hin.
  split.
  - intros [[?|?]|(e & He & ?)]; [by left|right; exists x; split; [left|done]|right; exists e; split; [by right|done]].
  - intros [?|(e & [->|He]%elem_of_cons & ?)]; [tauto|tauto|]. right. by exists e.
Qed.

Lemma kept_runs_wf (f : RetentionRun -> bool) runs keep0 : bset_wf retention_key_cmp keep0 ->
  bset_wf retention_key_cmp (foldl (fun keep run => if f run then bset_insert retention_key_cmp (rr_key run) keep else keep) keep0 runs).
Proof.
  revert keep0. induction runs as [|r runs IH]; intros keep0 H; cbn [foldl]; [done|]. apply IH.
  destruct (f r); [by apply (bset_insert_wf retention_key_cmp)|done].
Qed.

Lemma filter_none {A} (f : A -> bool) l : (forall x, x ∈ l -> f x = false) -> List.filter f l = [].
Proof.
  induction l as [|a l IH]; intros H; [done|]. cbn [List.filter]. rewrite (H a) by left. apply IH. intros x Hx. apply H. by right.
Qed.
Lemma filter_every {A} (f : A -> bool) l : (forall x, x ∈ l -> f x = true) -> List.filter f l = l.
Proof.
  induction l as [|a l IH]; intros H; [done|]. cbn [List.filter]. rewrite (H a) by left. f_equal. apply IH. intros x Hx. apply H. by right.
Qed.

(** In a list sorted newest first, a run is among the first [k] exactly when
    fewer than [k] runs are newer. *)
Lemma newest_take rs r k : NoDup (retention_order <$> rs) -> r ∈ rs ->
  r ∈ take k (merge_sort newer_or_same rs) <-> (length (List.filter (newer_than r) rs) < k)%nat.
Proof.
  intros Hnd Hin. pose proof (merge_sort_Permutation newer_or_same rs) as Hp. pose proof (StronglySorted_merge_sort newer_or_same rs) as Hs.
  set (s := merge_sort newer_or_same rs) in *.
  assert (length (List.filter (newer_than r) rs) = length (List.filter (newer_than r) s)) as ->.
  { apply Permutation_length. clear -Hp. induction Hp; cbn [List.filter]; repeat case_match; by econstructor. }
  rewrite <- Hp in Hin, Hnd. clear Hp. apply list_elem_of_split in Hin as (s1 & s2 & Es).
  rewrite Es in *. clear Es s. apply StronglySorted_app in Hs as (Hs1 & _ & Hs2). inversion Hs2 as [|? ? _ Hlt]; subst.
  rewrite fmap_app, fmap_cons in Hnd. apply NoDup_app in Hnd as (_ & Hd & Hr%NoDup_cons_1_1).
  assert (forall x, x ∈ s1 -> newer_than r x = true) as H1.
  { intros x Hx. assert (newer_or_same x r) as Hxr by (apply Hs1; [done|left]). unfold newer_than. unfold newer_or_same in Hxr.
    destruct (run_key_cmp _ _) eqn:E; [|done|].
    - apply (cmp_eq (cmp := run_key_cmp)) in E. exfalso. apply (Hd (retention_order x)); [apply list_elem_of_fmap; by exists x|].
      rewrite E. left.
    - done. }
  assert (forall x, x ∈ r :: s2 -> newer_than r x = false) as H2.
  { intros x Hx. unfold newer_than. apply elem_of_cons in Hx as [->|Hx]; [by rewrite (cmp_refl run_key_cmp)|].
    rewrite list.Forall_forall in Hlt. specialize (Hlt x Hx). unfold newer_or_same in Hlt.
    rewrite (cmp_antisym (cmp := run_key_cmp)). by destruct (run_key_cmp (retention_order x) (retention_order r)). }
  rewrite List.filter_app, (filter_every _ s1 H1), (filter_none _ (r :: s2) H2), app_nil_r.
  split.
  - intros Hin. destruct (decide (length s1 < k)%nat) as [|Hge]; [done|]. exfalso. rewrite take_app_le in Hin by lia.
    apply elem_of_take in Hin as (i & Hi & _). apply list_elem_of_lookup_2 in Hi. apply (Hd (retention_order r)).
    + apply list_elem_of_fmap. by exists r.
    + left.
  - intros Hlen. rewrite take_app_ge by lia. apply elem_of_app. right. destruct (k - length s1)%nat eqn:E; [lia|]. left.
Qed.

(** ** What is kept and what is deleted *)

Lemma distinct_keys runs r r' : NoDup (rr_key <$> runs) -> r ∈ runs -> r' ∈ runs -> rr_key r = rr_key r' -> r' = r.
Proof.
  induction runs as [|x runs IH]; [by intros _ ?%not_elem_of_nil|]. rewrite fmap_cons. intros [Hx Hnd]%NoDup_cons.
  assert (forall y, y ∈ runs -> rr_key x <> rr_key y) as Hne.
  { intros y Hy Ek. apply Hx. rewrite Ek. apply list_elem_of_fmap. by exists y. }
  intros [->|Hr]%elem_of_cons [->|Hr']%elem_of_cons Ek; [done| | |by apply IH].
  - by destruct (Hne r').
  - by destruct (Hne r).
Qed.

Lemma runs_of_elem m runs r : r ∈ runs_of m runs <-> r ∈ runs /\ run_model r = m.
Proof. unfold runs_of. by rewrite list_elem_of_In, filter_In, <- list_elem_of_In, bool_decide_eq_true. Qed.

Lemma runs_of_distinct m runs : NoDup (rr_key <$> runs) -> NoDup (retention_order <$> runs_of m runs).
Proof.
  intros Hnd. unfold runs_of. induction runs as [|r runs IH]; cbn [List.filter]; [constructor|].
  rewrite fmap_cons in Hnd. apply NoDup_cons in Hnd as [Hr Hnd]. case_bool_decide as E; [|by apply IH]. rewrite fmap_cons.
  apply NoDup_cons. split; [|by apply IH]. intros (r' & Eo & [Hr' Hm]%runs_of_elem)%list_elem_of_fmap. apply Hr, list_elem_of_fmap.
  exists r'. split; [|done]. unfold retention_order, run_model in *. injection Eo as _ Eo. destruct (rr_key r), (rr_key r'). simpl in *. congruence.
Qed.

Lemma plan_retention_spec runs aliased k plan : plan_retention runs aliased k = Ok plan ->
  NoDup (rr_key <$> runs)
  /\ (forall run, run ∈ runs -> (rr_key run ∈ keep plan <->
        rr_active run = true \/ rr_key run ∈ aliased \/ (length (newer_runs runs run) < k)%nat))
  /\ (forall key, key ∈ keep plan -> key ∈ rr_key <$> runs)
  /\ (forall key, key ∈ delete plan <-> key ∈ rr_key <$> runs /\ key ∉ keep plan).
Proof.
  unfold plan_retention. intros H. bind_step H E. match goal with x : _ * _ |- _ => destruct x as [seen by_model] end.
  injection H as <-. destruct (group_runs _ _ _ E) as [Hd Hw Hs Hm Hg]. cbn [keep delete].
  assert (bset_wf retention_key_cmp []) as Hnil by constructor.
  set (kept := foldl _ (foldl _ [] runs) by_model).
  assert (forall key, key ∈ kept <-> (exists run, run ∈ runs /\ key = rr_key run /\ (rr_active run = true \/ rr_key run ∈ aliased))
    \/ exists run, run ∈ runs /\ key = rr_key run /\ run ∈ take k (merge_sort newer_or_same (runs_of (run_model run) runs))) as Hk.
  { intros key. unfold kept. rewrite kept_latest by by apply kept_runs_wf. rewrite kept_runs.
    pose proof (not_elem_of_nil key) as Hn. split; [intros [[?|?]|([m rs] & Hin & Hkey)]; [done|by left|right]|].
    - apply (elem_bmap_get model_cmp) in Hin; [|done]. rewrite Hg in Hin. destruct (is_nil (runs_of m runs)); [done|]. injection Hin as <-.
      apply list_elem_of_fmap in Hkey as (run & -> & Hrun). exists run. cbn [snd] in Hrun.
      assert (run ∈ runs_of m runs) as [Hr <-]%runs_of_elem; [|done].
      apply elem_of_take in Hrun as (i & Hi & _). apply list_elem_of_lookup_2 in Hi. by rewrite merge_sort_Permutation in Hi.
    - intros [H|(run & Hr & -> & Htake)]; [by left; right|right]. exists (run_model run, runs_of (run_model run) runs). split.
      + apply (bmap_get_elem model_cmp). rewrite Hg. destruct (runs_of (run_model run) runs) as [|x l] eqn:El; [|done].
        exfalso. apply (not_elem_of_nil run). rewrite <- El. by apply runs_of_elem.
      + apply list_elem_of_fmap. by exists run. }
  split; [done|]. split; [|split].
  - intros run Hrun. rewrite Hk. unfold newer_runs.
    rewrite <- (newest_take (runs_of (run_model run) runs) run k) by (by apply runs_of_distinct || by apply runs_of_elem).
    assert (forall run', run' ∈ runs -> rr_key run = rr_key run' -> run' = run) as Hinj.
    { intros run' Hrun' Ek. by apply (distinct_keys runs). }
    split.
    + intros [(r' & Hr' & Ek & Ha)|(r' & Hr' & Ek & Ha)]; rewrite (Hinj r') in Ha by done; tauto.
    + intros [?|[?|?]]; [left|left|right]; exists run; auto.
  - intros key [(r & Hr & -> & _)|(r & Hr & -> & _)]%Hk; apply list_elem_of_fmap; by exists r.
  - intros key. by rewrite (elem_of_bset_diff retention_key_cmp), Hs.
Qed.

(** C33: A retention plan keeps exactly the runs that are active, aliased, or
    among the newest [keep_latest_per_model] of their model, and may delete
    exactly the others: a run is a deletion candidate only when its job is
    finished, no alias names it and at least that many runs of its model are
    newer. *)
Theorem retention_deletes_only_old runs aliased k plan :
  plan_retention runs aliased k = Ok plan ->
  forall run, run ∈ runs ->
    (rr_key run ∈ delete plan <-> rr_active run = false /\ (rr_key run ∉ aliased) /\ (k <= length (newer_runs runs run))%nat)
    /\ (rr_key run ∈ keep plan <-> ~ rr_key run ∈ delete plan).
Proof.
  intros H run Hrun. destruct (plan_retention_spec _ _ _ _ H) as (_ & Hk & _ & Hd). rewrite Hd.
  assert (rr_key run ∈ rr_key <$> runs) as Hin by (apply list_elem_of_fmap; by exists run).
  destruct (decide (rr_key run ∈ aliased)), (decide (length (newer_runs runs run) < k)%nat), (decide (rr_active run = true)) as [Ha|Ha];
    rewrite (Hk run Hrun); [..|apply not_true_iff_false in Ha]; try (rewrite ?Ha); intuition (lia || congruence).
Qed.

(** Retention over the scheduler's own records never selects the run of a
    job that is still queued, running or backing off, nor one an alias names;
    every run it selects belongs to a record whose job has finished. *)
Theorem active_jobs_keep_their_runs records aliased k plan :
  plan_owned_retention records aliased k = Ok plan ->
  (forall r, r ∈ records -> is_active (jr_state r) = true -> {| rk_model := jp_model (jr_plan r); rk_run_id := run_id (jr_plan r) |} ∉ delete plan)
  /\ (forall key, key ∈ delete plan -> (key ∉ aliased)
        /\ exists r, r ∈ records /\ is_active (jr_state r) = false /\ key = {| rk_model := jp_model (jr_plan r); rk_run_id := run_id (jr_plan r) |}).
Proof.
  unfold plan_owned_retention. intros H. bind_step H E. destruct (plan_retention_spec _ _ _ _ H) as (Hnd & Hk & _ & Hd).
  assert (forall r run, retention_run_new (jp_model (jr_plan r)) (jp_cycle (jr_plan r)) (run_id (jr_plan r)) (is_active (jr_state r)) = Ok run ->
    rr_key run = {| rk_model := jp_model (jr_plan r); rk_run_id := run_id (jr_plan r) |} /\ rr_active run = is_active (jr_state r)) as Hnew.
  { intros r run Hr. unfold retention_run_new in Hr. bind_step Hr E1. bind_step Hr E2. bind_step Hr E3. bind_step Hr E4. injection Hr as <-.
    unfold run_key_new in E3. bind_step E3 E5. by injection E3 as <-. }
  split.
  - intros r Hr Ha Hdel. pose proof (rmap_ok_inv _ _ _ E) as HF. apply list_elem_of_lookup in Hr as [i Hi].
    destruct (Forall2_lookup_l _ _ _ _ _ HF Hi) as (run & Hrun%list_elem_of_lookup_2 & Er). apply Hnew in Er as [Ek Ea].
    rewrite <- Ek in Hdel. apply Hd in Hdel as [_ Hn]. apply Hn, (Hk run Hrun). left. congruence.
  - intros key Hdel. apply Hd in Hdel as [(run & -> & Hrun)%list_elem_of_fmap Hn]. rewrite (Hk run Hrun) in Hn.
    split; [tauto|]. apply (rmap_elem _ _ _ _ E) in Hrun as (r & Hr & Er). apply Hnew in Er as [Ek Ea].
    exists r. split; [done|]. split; [|done]. destruct (is_active (jr_state r)); [|done]. rewrite Ea in Hn. tauto.
Qed.

Definition sample_retention_run (day : Z) (run_id : string) (active : bool) : RetentionRun :=
  {| rr_key := {| rk_model := Hrrr; rk_run_id := run_id |}; rr_cycle := {| date_yyyymmdd := "20240229"; hour_utc := 0 |};
     rr_origin := day * 86400; rr_active := active |}.
Definition sample_runs : list RetentionRun :=
  [sample_retention_run 3 "c" false; sample_retention_run 1 "a" false; sample_retention_run 2 "b" false; sample_retention_run 0 "z" true].

Theorem retention_deletes_only_old_witness :
  exists plan, plan_retention sample_runs [{| rk_model := Hrrr; rk_run_id := "b" |}] 1 = Ok plan
    /\ {| rk_model := Hrrr; rk_run_id := "a" |} ∈ delete plan.
Proof.
  destruct (plan_retention sample_runs [{| rk_model := Hrrr; rk_run_id := "b" |}] 1) as [plan| |] eqn:E; [|vm_compute in E; discriminate..].
  exists plan. split; [reflexivity|].
  apply (proj1 (retention_deletes_only_old _ _ _ _ E (sample_retention_run 1 "a" false) ltac:(right; left))).
  split; [reflexivity|]. split; [|vm_compute; lia]. intros H%list_elem_of_singleton. discriminate H.
Defined.

Definition finished_record (plan : JobPlan) : JobRecord :=
  {| jr_schema := JOB_STATE_SCHEMA; jr_plan := plan; jr_state := Succeeded 200; attempts := 1; recovery_count := 0;
     created_unix := 90; updated_unix := 200; last_error := None |}.

Theorem active_jobs_keep_their_runs_witness :
  exists p1 p2 plan, build Rtma {| date_yyyymmdd := "20240229"; hour_utc := 7 |} = Ok p1
    /\ build Rtma {| date_yyyymmdd := "20240229"; hour_utc := 8 |} = Ok p2
    /\ plan_owned_retention [sample_record p1; finished_record p2] [] 0 = Ok plan
    /\ ({| rk_model := Rtma; rk_run_id := "20240229_07z" |} ∉ delete plan)
    /\ delete plan = [{| rk_model := Rtma; rk_run_id := "20240229_08z" |}].
Proof.
  destruct (build Rtma {| date_yyyymmdd := "20240229"; hour_utc := 7 |}) as [p1| |] eqn:H1; [|vm_compute in H1; discriminate..].
  destruct (build Rtma {| date_yyyymmdd := "20240229"; hour_utc := 8 |}) as [p2| |] eqn:H2; [|vm_compute in H2; discriminate..].
  vm_compute in H1, H2. injection H1 as H1. injection H2 as H2.
  destruct (plan_owned_retention [sample_record p1; finished_record p2] [] 0) as [plan| |] eqn:E;
    [|rewrite <- H1, <- H2 in E; vm_compute in E; discriminate..].
  exists p1, p2, plan. split; [reflexivity|]. split; [reflexivity|]. split; [exact E|].
  pose proof (proj1 (active_jobs_keep_their_runs _ _ _ _ E) (sample_record p1) ltac:(left) eq_refl) as Hn.
  split; [rewrite <- H1 in Hn; exact Hn|]. rewrite <- H1, <- H2 in E. vm_compute in E. injection E as <-. reflexivity.
Defined.
