(* ===== verification/Origin.v ===== *)
(** * The catalog of the public origin

    [crates/rw-scheduler/src/origin.rs]: which generations of which models the
    origin publishes. A lane names a model and how its newest run is chosen;
    the catalog holds the active and one previous generation of every lane,
    is validated whenever it is built, saved or loaded, and protects its
    generations from retention. *)
From Stdlib Require Import ZArith Lia Ascii String.
From stdpp Require Import base list strings numbers sorting gmap.
From S2P Require Import Prelude F32 Format Text Order Ids Cycle Models Profile Capability Plan Manifest Coverage Verify Jobs Atomic StateStore Retention.

Local Open Scope Z_scope.

Definition ORIGIN_CATALOG_STATE_SCHEMA : string := "rw-scheduler.origin-catalog.v1".
Definition MAX_ORIGIN_CATALOG_STATE_BYTES : Z := 1024 * 1024.
Definition ORIGIN_CATALOG_FILE : string := ".rw-origin-catalog.json".

(** ** Configuration and lanes *)

Inductive OriginCatalogPreset := InitialPublicSubset.
Inductive CapacityAuditStatus := AuditPending | AuditComplete.

Record OriginCatalogPlanConfig := {
  oc_preset : OriginCatalogPreset;
  capacity_audit : CapacityAuditStatus;
  disk_budget_bytes : option Z;
  audited_jobs : option Z;
  previous_generations : Z
}.

Inductive OriginLaneSelector := NewestAvailable | NewestCompleteLongestHorizon.
Inductive OriginProfileRequirement := ConfiguredCapabilitySafe | CompleteSurface.
Record OriginLane := {
  lane_id : string;
  lane_model : ModelId;
  selector : OriginLaneSelector;
  lane_profile : OriginProfileRequirement
}.

Definition INITIAL_PUBLIC_LANES : list OriginLane :=
  [{| lane_id := "hrrr-hourly"; lane_model := Hrrr; selector := NewestAvailable; lane_profile := ConfiguredCapabilitySafe |};
   {| lane_id := "hrrr-extended"; lane_model := Hrrr; selector := NewestCompleteLongestHorizon; lane_profile := ConfiguredCapabilitySafe |};
   {| lane_id := "gfs"; lane_model := Gfs; selector := NewestAvailable; lane_profile := ConfiguredCapabilitySafe |};
   {| lane_id := "nbm-surface"; lane_model := Nbm; selector := NewestAvailable; lane_profile := CompleteSurface |}].

Definition lanes (config : OriginCatalogPlanConfig) : list OriginLane := match oc_preset config with InitialPublicSubset => INITIAL_PUBLIC_LANES end.

Definition validate_profile (lane : OriginLane) (profile : IngestProfile) : SchedulerResult unit :=
  reject (match lane_profile lane with CompleteSurface => negb (bool_decide (profile = profile_surface)) | ConfiguredCapabilitySafe => false end)
    (InvalidConfig "origin catalog lane requires the complete surface ingest profile").

(** A value that is absent or zero. *)
Definition unset (o : option Z) : bool := match o with Some n => n =? 0 | None => true end.
Definition validate_for_models (config : OriginCatalogPlanConfig) (configured : list ModelId) : SchedulerResult unit :=
  _ ← match capacity_audit config with
      | AuditPending => reject (is_some (disk_budget_bytes config) || is_some (audited_jobs config))
                          (InvalidConfig "origin_catalog_plan capacity values must remain unset while the capacity audit is pending")
      | AuditComplete =>
          _ ← reject (unset (disk_budget_bytes config)) (InvalidConfig "origin_catalog_plan.disk_budget_bytes must be a nonzero audited value");
          reject (unset (audited_jobs config)) (InvalidConfig "origin_catalog_plan.max_concurrent_jobs must be a nonzero audited value")
      end;
  _ ← reject (negb (previous_generations config =? 1)) (InvalidConfig "origin_catalog_plan.previous_generations must be exactly 1");
  rfold (fun _ lane =>
    _ ← reject (negb (bset_contains model_cmp (lane_model lane) configured)) (InvalidConfig "origin catalog lane requires a model in the scheduler allowlist");
    let capability := model_ingest_capability (lane_model lane) in
    reject (negb (bool_decide (status capability = Ready)) || is_nil (products capability)) (UnsupportedModel (lane_model lane))) (lanes config) tt.

(** ** Which candidates a lane takes *)

(** The cycles of a model; the catalog has every model. *)
Definition model_cycle_hours (model : ModelId) : list Z := match summary_of model with Some summary => cycle_hours_utc summary | None => [] end.

Definition is_longest_horizon_cycle (model : ModelId) (cycle_hour_utc : Z) : bool :=
  let candidate_max := list_max (supported_forecast_hours model cycle_hour_utc) in
  let declared_max := list_max (model_cycle_hours model ≫= supported_forecast_hours model) in
  is_some candidate_max && bool_decide (candidate_max = declared_max).

Definition candidate_matches_lane (candidate : RunCandidate) (lane : OriginLane) : bool :=
  if negb (bool_decide (rc_model candidate = lane_model lane)) then false else
  match selector lane with
  | NewestAvailable => negb (is_nil (rc_available candidate))
  | NewestCompleteLongestHorizon => coverage_complete candidate && is_longest_horizon_cycle (rc_model candidate) (hour_utc (rc_cycle candidate))
  end.

(** ** The publication plan *)

Record OriginLanePlan := { lp_lane : OriginLane; lp_active : option RunKey; lp_previous : option RunKey }.
Record OriginPublicationPlan := { pp_lanes : list OriginLanePlan; pp_protected : list RunKey }.

(** An entry of [matching]: the origin, the run id and the candidate. *)
Definition lane_entry (candidate : RunCandidate) : SchedulerResult (Z * string * RunCandidate) :=
  origin ← cycle_origin_unix (rc_cycle candidate);
  Ok ((origin, rc_run_id candidate), candidate).
(** Newest first. *)
Definition newer_entry (a b : Z * string * RunCandidate) : Prop := run_key_cmp b.1 a.1 <> Gt.
#[global] Instance newer_entry_dec : RelDecision newer_entry.
Proof. intros a b. unfold newer_entry. apply _. Defined.

(** [Option::map] and [transpose]. *)
Definition rtraverse {E A B} (f : A -> result E B) (o : option A) : result E (option B) :=
  match o with Some a => b ← f a; Ok (Some b) | None => Ok None end.
Definition entry_key (e : Z * string * RunCandidate) : SchedulerResult RunKey := run_key_new (rc_model e.2) (rc_run_id e.2).

Definition plan_lane (candidates : list RunCandidate) (lane : OriginLane) : SchedulerResult OriginLanePlan :=
  matching ← rmap lane_entry (List.filter (fun c => candidate_matches_lane c lane) candidates);
  let matching := merge_sort newer_entry matching in
  active ← rtraverse entry_key (matching !! 0%nat);
  previous ← rtraverse entry_key (matching !! 1%nat);
  Ok {| lp_lane := lane; lp_active := active; lp_previous := previous |}.

(** The keys of the candidates, which are distinct. *)
Definition unique_step (unique : list RunKey) (candidate : RunCandidate) : SchedulerResult (list RunKey) :=
  key ← run_key_new (rc_model candidate) (rc_run_id candidate);
  _ ← reject (bset_contains retention_key_cmp key unique) (InvalidConfig "duplicate origin candidate");
  Ok (bset_insert retention_key_cmp key unique).

Definition extend_with (s : list RunKey) (o : option RunKey) : list RunKey :=
  match o with Some k => bset_insert retention_key_cmp k s | None => s end.

Definition publication_plan_build (config : OriginCatalogPlanConfig) (candidates : list RunCandidate) : SchedulerResult OriginPublicationPlan :=
  _ ← reject (negb (previous_generations config =? 1)) (InvalidConfig "origin publication planning supports exactly one previous generation");
  _ ← rfold unique_step candidates [];
  plans ← rmap (plan_lane candidates) (lanes config);
  Ok {| pp_lanes := plans; pp_protected := foldl (fun s p => extend_with (extend_with s (lp_active p)) (lp_previous p)) [] plans |}.

(** ** The catalog *)

Record OriginPublishedGeneration := {
  pg_model : ModelId;
  pg_cycle : CycleSpec;
  pg_run_id : string;
  pg_complete : bool;
  pg_available : list Z   (* a [BTreeSet<i64>] *)
}.
Record OriginPublishedLane := {
  pl_id : string;
  pl_active : option OriginPublishedGeneration;
  pl_previous : option OriginPublishedGeneration
}.
Record OriginCatalogState := { oc_schema : string; oc_updated_unix : Z; oc_lanes : list OriginPublishedLane }.
#[global] Instance OriginPublishedGeneration_eq_dec : EqDecision OriginPublishedGeneration.
Proof. solve_decision. Defined.
#[global] Instance OriginPublishedLane_eq_dec : EqDecision OriginPublishedLane.
Proof. solve_decision. Defined.

Definition from_candidate (c : RunCandidate) : OriginPublishedGeneration :=
  {| pg_model := rc_model c; pg_cycle := rc_cycle c; pg_run_id := rc_run_id c; pg_complete := coverage_complete c; pg_available := rc_available c |}.
Definition generation_key (g : OriginPublishedGeneration) : SchedulerResult RunKey := run_key_new (pg_model g) (pg_run_id g).

Definition valid_time_at (origin_unix forecast_hour : Z) : SchedulerResult Z :=
  ok_or (checked_add_i64 origin_unix (forecast_hour * 3600)) (InvalidState "origin lane forecast timestamp overflowed").

Definition validate_for_lane (g : OriginPublishedGeneration) (lane : OriginLane) : SchedulerResult unit :=
  _ ← reject (negb (bool_decide (pg_model g = lane_model lane))) (InvalidState "origin lane contains another model");
  _ ← reject (negb (bool_decide (canonical_run_id (pg_cycle g) = pg_run_id g))) (InvalidState "origin lane run does not match its cycle");
  candidate ← run_candidate_new (pg_model g) (pg_cycle g) (pg_run_id g) (pg_complete g) (pg_available g);
  origin_unix ← cycle_origin_unix (pg_cycle g);
  times ← rmap (valid_time_at origin_unix) (supported_forecast_hours (pg_model g) (hour_utc (pg_cycle g)));
  let expected := bset_of Z.compare times in
  _ ← reject (negb (is_subset (pg_available g) expected) || negb (Bool.eqb (pg_complete g) (bool_decide (pg_available g = expected))))
        (InvalidState "origin lane generation has an inconsistent valid-time inventory");
  reject (negb (candidate_matches_lane candidate lane)) (InvalidState "origin lane generation does not satisfy its selector").

Definition catalog_empty (config : OriginCatalogPlanConfig) : OriginCatalogState :=
  {| oc_schema := ORIGIN_CATALOG_STATE_SCHEMA; oc_updated_unix := 0;
     oc_lanes := (fun lane => {| pl_id := lane_id lane; pl_active := None; pl_previous := None |}) <$> lanes config |}.

Definition validate_lane (x : OriginPublishedLane * OriginLane) : SchedulerResult unit :=
  let '(published, lane) := x in
  _ ← reject (negb (bool_decide (pl_id published = lane_id lane))) (InvalidState "origin catalog lane appeared out of place");
  _ ← rtraverse (fun g => validate_for_lane g lane) (pl_active published);
  _ ← rtraverse (fun g => validate_for_lane g lane) (pl_previous published);
  _ ← reject (is_some (pl_previous published) && negb (is_some (pl_active published)))
        (InvalidState "origin lane has a previous generation without an active generation");
  match pl_active published, pl_previous published with
  | Some active, Some previous =>
      a ← generation_key active;
      p ← generation_key previous;
      _ ← reject (bool_decide (a = p)) (InvalidState "origin lane repeats its active generation as previous");
      ta ← cycle_origin_unix (pg_cycle active);
      tp ← cycle_origin_unix (pg_cycle previous);
      reject (ta <=? tp) (InvalidState "origin lane previous generation is not older than active")
  | _, _ => Ok tt
  end.

Definition catalog_validate (config : OriginCatalogPlanConfig) (state : OriginCatalogState) : SchedulerResult unit :=
  _ ← reject (negb (bool_decide (oc_schema state = ORIGIN_CATALOG_STATE_SCHEMA))) (InvalidState "unexpected origin catalog schema");
  _ ← reject (oc_updated_unix state <? 0) (InvalidState "origin catalog timestamp cannot be negative");
  _ ← reject (negb (length (oc_lanes state) =? length (lanes config))%nat) (InvalidState "origin catalog has another number of lanes");
  rfold (fun _ x => validate_lane x) (zip (oc_lanes state) (lanes config)) tt.

Definition generation_for_key (candidates : list RunCandidate) (key : option RunKey) : SchedulerResult (option OriginPublishedGeneration) :=
  rtraverse (fun key =>
    candidate ← ok_or (List.find (fun c => bool_decide (rc_model c = rk_model key) && bool_decide (rc_run_id c = rk_run_id key)) candidates)
                  (InvalidState "origin publication selected missing candidate");
    Ok (from_candidate candidate)) key.

Definition publish_lane (candidates : list RunCandidate) (p : OriginLanePlan) : SchedulerResult OriginPublishedLane :=
  active ← generation_for_key candidates (lp_active p);
  previous ← generation_for_key candidates (lp_previous p);
  Ok {| pl_id := lane_id (lp_lane p); pl_active := active; pl_previous := previous |}.

Definition from_candidates (config : OriginCatalogPlanConfig) (candidates : list RunCandidate) (updated_unix : Z) : SchedulerResult OriginCatalogState :=
  plan ← publication_plan_build config candidates;
  ls ← rmap (publish_lane candidates) (pp_lanes plan);
  let state := {| oc_schema := ORIGIN_CATALOG_STATE_SCHEMA; oc_updated_unix := updated_unix; oc_lanes := ls |} in
  _ ← catalog_validate config state;
  Ok state.

Definition insert_key (s : list RunKey) (o : option OriginPublishedGeneration) : SchedulerResult (list RunKey) :=
  match o with Some g => k ← generation_key g; Ok (bset_insert retention_key_cmp k s) | None => Ok s end.
Definition catalog_protected (state : OriginCatalogState) : SchedulerResult (list RunKey) :=
  rfold (fun s lane => s ← insert_key s (pl_active lane); insert_key s (pl_previous lane)) (oc_lanes state) [].

(** ** The catalog on disk *)

Class CatalogJson := {
  catalog_to_vec_pretty : OriginCatalogState -> SchedulerResult (list byte);
  catalog_from_slice : list byte -> SchedulerResult OriginCatalogState
}.
Class CatalogJsonLaws `{CatalogJson} := {
  catalog_json_roundtrip : forall s bytes, catalog_to_vec_pretty s = Ok bytes -> catalog_from_slice bytes = Ok s
}.

Section disk.
Context `{CatalogJson} {faults : WriteFaults}.

(** [load_or_empty], on the entries of the store root; the file does not
    change while it is read. *)
Definition load_or_empty (config : OriginCatalogPlanConfig) (entries : gmap string DirEntry) : SchedulerResult OriginCatalogState :=
  match entries !! ORIGIN_CATALOG_FILE with
  | None => Ok (catalog_empty config)
  | Some (RegularFile content) =>
      _ ← reject (MAX_ORIGIN_CATALOG_STATE_BYTES <? Z.of_nat (length content)) (InvalidState "origin catalog is too long");
      state ← catalog_from_slice content;
      _ ← catalog_validate config state;
      Ok state
  | Some _ => Err (InvalidState "origin catalog must be a real regular file")
  end.

(** [save], into a store root that is a real directory, with the faults of
    the file system. *)
Definition catalog_save (config : OriginCatalogPlanConfig) (state : OriginCatalogState) (entries : gmap string DirEntry)
    : SchedulerResult unit * gmap string DirEntry :=
  match (_ ← catalog_validate config state;
         bytes ← catalog_to_vec_pretty state;
         _ ← reject (MAX_ORIGIN_CATALOG_STATE_BYTES <? Z.of_nat (length bytes)) (InvalidState "serialized origin catalog is too long");
         Ok bytes) with
  | Ok bytes => let '(r, entries) := replace_entry ORIGIN_CATALOG_FILE bytes entries in (map_err Store r, entries)
  | Err e => (Err e, entries)
  | Panic => (Panic, entries)
  end.
End disk.

(** ** Candidates *)

(** A candidate that was made by [RunCandidate::new]; its fields are private. *)
Definition candidate_made (c : RunCandidate) : Prop :=
  exists model cycle id complete available, run_candidate_new model cycle id complete available = Ok c.

Lemma revalidate_same c c' : revalidate_cycle c = Ok c' -> c' = c.
Proof.
  unfold revalidate_cycle. intros H. destruct (cycle_spec_new _ _) as [c0| |] eqn:E; [|done..]. injection H as ->. unfold cycle_spec_new in E.
  bind_step E E1. bind_step E E2. bind_step E E3. injection E as <-. by destruct c.
Qed.

Lemma candidate_new_inv model cycle id complete available c : run_candidate_new model cycle id complete available = Ok c ->
  c = {| rc_model := model; rc_cycle := cycle; rc_origin := rc_origin c; rc_run_id := id; coverage_complete := complete; rc_available := available |}
  /\ cycle_origin_unix cycle = Ok (rc_origin c) /\ run_key_new model id = Ok {| rk_model := model; rk_run_id := id |}.
Proof.
  unfold run_candidate_new, run_key_new. intros E. bind_step E E1. apply revalidate_same in E1 as ->. bind_step E E2. bind_step E E3. bind_step E E4. injection E as <-. cbn [rc_origin]. split_and!; done.
Qed.
Lemma candidate_made_facts c : candidate_made c ->
  run_candidate_new (rc_model c) (rc_cycle c) (rc_run_id c) (coverage_complete c) (rc_available c) = Ok c
  /\ cycle_origin_unix (rc_cycle c) = Ok (rc_origin c) /\ run_key_new (rc_model c) (rc_run_id c) = Ok {| rk_model := rc_model c; rk_run_id := rc_run_id c |}.
Proof.
  intros (model & cycle & id & complete & available & E). destruct (candidate_new_inv _ _ _ _ _ _ E) as (Ec & H1 & H2).
  destruct c as [m cy o i co av]. cbn [rc_model rc_cycle rc_origin rc_run_id coverage_complete rc_available] in *. injection Ec as -> -> -> -> ->. by split_and!.
Qed.
Definition key_of (c : RunCandidate) : RunKey := {| rk_model := rc_model c; rk_run_id := rc_run_id c |}.

Lemma unique_keys candidates keys : Forall candidate_made candidates -> rfold unique_step candidates [] = Ok keys ->
  NoDup (key_of <$> candidates) /\ forall k, k ∈ keys <-> k ∈ key_of <$> candidates.
Proof.
  revert keys. induction candidates as [|c cs IH] using rev_ind; intros keys Hm E; [injection E as <-; split; [constructor|done]|].
  apply Forall_app in Hm as [Hm Hc%Forall_inv]. rewrite rfold_app in E. bind_step E E1. destruct (IH _ Hm eq_refl) as [Hn Hk]. cbn [rfold mbind result_bind] in E.
  unfold unique_step in E. rewrite (proj2 (proj2 (candidate_made_facts _ Hc))) in E. cbn [mbind result_bind] in E. fold (key_of c) in E.
  destruct (bset_contains _ _ _) eqn:Ec; [done|]. injection E as <-. rewrite fmap_app. cbn [fmap list_fmap]. split.
  - apply NoDup_app. split; [done|]. split; [|apply NoDup_singleton]. intros k Hk' ->%list_elem_of_singleton. apply Hk, (bset_contains_iff retention_key_cmp) in Hk'. congruence.
  - intros k. rewrite (elem_of_bset_insert retention_key_cmp), Hk, elem_of_app, list_elem_of_singleton. tauto.
Qed.

Lemma key_of_inj candidates c c' : NoDup (key_of <$> candidates) -> c ∈ candidates -> c' ∈ candidates -> key_of c = key_of c' -> c = c'.
Proof.
  intros Hn Hc Hc' E. apply list_elem_of_lookup in Hc as [i Hi]. apply list_elem_of_lookup in Hc' as [j Hj].
  assert (i = j) as ->; [|congruence]. eapply NoDup_lookup; [exact Hn|by rewrite list_lookup_fmap, Hi|]. rewrite list_lookup_fmap, Hj. cbn. by rewrite E.
Qed.

(** ** What a lane publishes *)

#[global] Instance newer_entry_trans : Transitive newer_entry.
Proof. intros a b c H1 H2. unfold newer_entry in *. by eapply (cmp_le_trans run_key_cmp). Qed.
#[global] Instance newer_entry_tot : Total newer_entry.
Proof. intros a b. apply (cmp_le_total run_key_cmp). Qed.

Definition entry_of_candidate (c : RunCandidate) : Z * string * RunCandidate := (candidate_key c, c).
Lemma lane_entries cs : Forall candidate_made cs -> rmap lane_entry cs = Ok (entry_of_candidate <$> cs).
Proof.
  intros H. apply rmap_ok_intro. induction H as [|c cs Hc _ IH]; [constructor|]. cbn [fmap list_fmap]. constructor; [|done].
  unfold lane_entry. by rewrite (proj1 (proj2 (candidate_made_facts _ Hc))).
Qed.

(** The first two of the list sorted newest first. *)
Lemma sorted_newest cs : NoDup cs -> exists s, merge_sort newer_entry (entry_of_candidate <$> cs) = entry_of_candidate <$> s /\ s ≡ₚ cs
  /\ newest_of cs (fun _ => True) (s !! 0%nat) /\ newest_of cs (fun c => Some c <> s !! 0%nat) (s !! 1%nat).
Proof.
  intros Hn. set (s := (merge_sort newer_entry (entry_of_candidate <$> cs)).*2).
  pose proof (merge_sort_Permutation newer_entry (entry_of_candidate <$> cs)) as Hp. pose proof (StronglySorted_merge_sort newer_entry (entry_of_candidate <$> cs)) as Hs.
  assert (Hid : forall l, Forall (fun e => e = entry_of_candidate e.2) l -> l = entry_of_candidate <$> l.*2).
  { induction 1 as [|e l He _ IH]; [done|]. cbn [fmap list_fmap]. by rewrite <- He; f_equal. }
  assert (Es : merge_sort newer_entry (entry_of_candidate <$> cs) = entry_of_candidate <$> s).
  { apply Hid. rewrite Hp. apply Forall_fmap. apply list.Forall_forall. done. }
  assert (Hps : s ≡ₚ cs). { unfold s. rewrite Hp, <- list_fmap_compose. by rewrite (list_fmap_id cs : (snd ∘ entry_of_candidate) <$> cs = cs). }
  exists s. split; [done|]. split; [done|]. rewrite Es in Hs. apply (sorted_fmap entry_of_candidate newer_entry s) in Hs.
  assert (Hsn : NoDup s) by (by rewrite Hps). clearbody s. clear Hp Es.
  destruct s as [|a s]; cbn [lookup list_lookup newest_of].
  { split; intros c Hc; rewrite <- Hps in Hc; by apply not_elem_of_nil in Hc. }
  apply StronglySorted_inv in Hs as [Hs Ha]. apply NoDup_cons in Hsn as [Has Hsn]. rewrite list.Forall_forall in Ha. split.
  - split; [rewrite <- Hps; left|]. split; [done|]. intros c' Hc' _. rewrite <- Hps in Hc'. apply elem_of_cons in Hc' as [->|Hc']; [by rewrite (cmp_refl run_key_cmp)|]. by apply Ha in Hc'.
  - destruct s as [|b s]; cbn [lookup list_lookup newest_of].
    + intros c Hc Hne. rewrite <- Hps in Hc. apply list_elem_of_singleton in Hc as ->. done.
    + apply StronglySorted_inv in Hs as [_ Hb]. rewrite list.Forall_forall in Hb. split; [rewrite <- Hps; right; left|]. split.
      * intros [= ->]. apply Has. left.
      * intros c' Hc' Hne. rewrite <- Hps in Hc'. apply elem_of_cons in Hc' as [->|Hc']; [done|].
        apply elem_of_cons in Hc' as [->|Hc']; [by rewrite (cmp_refl run_key_cmp)|]. by apply Hb in Hc'.
Qed.

Section published.
Context (cs : list RunCandidate) (Hm : Forall candidate_made cs) (Hn : NoDup (key_of <$> cs)).

Lemma made c : c ∈ cs -> candidate_made c.
Proof using Hm. exact (proj1 (list.Forall_forall _ _) Hm c). Qed.

Lemma newest_of_filter (f : RunCandidate -> bool) (P Q : RunCandidate -> Prop) o : (forall c, Q c <-> f c = true /\ P c) ->
  newest_of (List.filter f cs) P o -> newest_of cs Q o.
Proof.
  intros HQ. assert (Hin : forall c, c ∈ List.filter f cs <-> c ∈ cs /\ f c = true) by (intros c; by rewrite !list_elem_of_In, filter_In).
  destruct o as [c|]; cbn [newest_of].
  - intros (Hc & HP & Hmax). apply Hin in Hc as [Hc Hf]. split; [done|]. split; [by apply HQ|]. intros c' Hc' [Hf' HP']%HQ. apply Hmax; [by apply Hin|done].
  - intros H c Hc [Hf HP]%HQ. by apply (H c); [apply Hin|].
Qed.

Lemma entry_keys (s : list RunCandidate) i : (forall c, c ∈ s -> c ∈ cs) -> rtraverse entry_key ((entry_of_candidate <$> s) !! i) = Ok (key_of <$> s !! i).
Proof using Hm.
  intros Hs. rewrite list_lookup_fmap. destruct (s !! i) as [c|] eqn:E; [|done]. apply list_elem_of_lookup_2, Hs, made, candidate_made_facts in E as (_ & _ & E).
  cbn [fmap option_fmap option_map rtraverse]. unfold entry_key. cbn [entry_of_candidate snd]. by rewrite E.
Qed.

(** The candidates a lane publishes. *)
Definition lane_picks (lane : OriginLane) (active previous : option RunCandidate) : Prop :=
  newest_of cs (fun c => candidate_matches_lane c lane = true) active
  /\ newest_of cs (fun c => candidate_matches_lane c lane = true /\ Some c <> active) previous.

Lemma plan_lane_total lane : exists a b, plan_lane cs lane = Ok {| lp_lane := lane; lp_active := key_of <$> a; lp_previous := key_of <$> b |} /\ lane_picks lane a b.
Proof using Hm Hn.
  set (F := List.filter (fun c => candidate_matches_lane c lane) cs).
  assert (HF : forall c, c ∈ F -> c ∈ cs) by (intros c; unfold F; rewrite !list_elem_of_In, filter_In; tauto).
  destruct (sorted_newest F) as (s & Es & Hp & H0 & H1); [apply NoDup_ListNoDup, List.NoDup_filter, NoDup_ListNoDup; by apply NoDup_fmap_1 in Hn|].
  exists (s !! 0%nat), (s !! 1%nat). split.
  - unfold plan_lane. fold F. rewrite lane_entries by (apply list.Forall_forall; intros c Hc; by apply made, HF).
    cbn [mbind result_bind]. rewrite Es, !entry_keys by (intros c; rewrite Hp; apply HF). done.
  - split; [apply (newest_of_filter (fun c => candidate_matches_lane c lane) (fun _ => True))|
      apply (newest_of_filter (fun c => candidate_matches_lane c lane) (fun c => Some c <> s !! 0%nat))]; try done; tauto.
Qed.

Lemma generation_found o : (forall c, o = Some c -> c ∈ cs) -> generation_for_key cs (key_of <$> o) = Ok (from_candidate <$> o).
Proof using Hn.
  destruct o as [c|]; [|done]. intros Hc. specialize (Hc c eq_refl). unfold generation_for_key. cbn [fmap option_fmap option_map rtraverse].
  destruct (List.find _ _) as [c'|] eqn:E.
  - apply find_some in E as [Hin%list_elem_of_In [E1%bool_decide_eq_true E2%bool_decide_eq_true]%andb_true_iff].
    assert (c' = c) as ->; [|done]. eapply key_of_inj; [exact Hn|done..|]. unfold key_of. cbn [key_of rk_model rk_run_id] in *. congruence.
  - apply list_elem_of_In in Hc. apply (find_none _ _ E) in Hc. cbn [key_of rk_model rk_run_id] in Hc. by rewrite !bool_decide_eq_true_2 in Hc.
Qed.

Lemma picked_elem lane a b : lane_picks lane a b -> (forall c, a = Some c -> c ∈ cs) /\ (forall c, b = Some c -> c ∈ cs).
Proof. intros [Ha Hb]. split; intros c ->; [by destruct Ha|by destruct Hb]. Qed.

(** The catalog before it is validated. *)
Lemma published_lanes ls : exists ps pubs, rmap (plan_lane cs) ls = Ok ps /\ rmap (publish_lane cs) ps = Ok pubs
  /\ Forall2 (fun lane p => exists a b, lane_picks lane a b /\ p = {| pl_id := lane_id lane; pl_active := from_candidate <$> a; pl_previous := from_candidate <$> b |}) ls pubs.
Proof using Hm Hn.
  induction ls as [|lane ls IH]; [exists [], []; by split_and!|]. destruct IH as (ps & pubs & H1 & H2 & H3). destruct (plan_lane_total lane) as (a & b & Hp & Hab).
  destruct (picked_elem _ _ _ Hab) as [Ia Ib].
  set (pub := {| pl_id := lane_id lane; pl_active := from_candidate <$> a; pl_previous := from_candidate <$> b |}).
  assert (Hpub : publish_lane cs {| lp_lane := lane; lp_active := key_of <$> a; lp_previous := key_of <$> b |} = Ok pub).
  { unfold publish_lane. cbn [lp_active lp_previous lp_lane]. by rewrite !generation_found by done. }
  eexists (_ :: ps), (pub :: pubs). cbn [rmap]. rewrite Hp. cbn [mbind result_bind]. rewrite H1. split; [done|]. cbn [rmap]. rewrite Hpub. cbn [mbind result_bind].
  rewrite H2. split; [done|]. constructor; [|done]. by exists a, b.
Qed.
End published.

(** A catalog that was built: its lanes hold the picked candidates, and it
    validates. *)
Lemma from_candidates_inv config cs now state : Forall candidate_made cs -> from_candidates config cs now = Ok state ->
  Forall2 (fun lane p => exists a b, lane_picks cs lane a b /\ p = {| pl_id := lane_id lane; pl_active := from_candidate <$> a; pl_previous := from_candidate <$> b |})
    (lanes config) (oc_lanes state) /\ catalog_validate config state = Ok tt.
Proof.
  intros Hm. unfold from_candidates. intros E. bind_step E E1. bind_step E E2. bind_step E E3. injection E as <-. cbn [oc_lanes].
  unfold publication_plan_build in E1. bind_step E1 F1. bind_step E1 F2. bind_step E1 F3. injection E1 as <-. cbn [pp_lanes] in *.
  destruct (unique_keys _ _ Hm F2) as [Hn _]. destruct (published_lanes cs Hm Hn (lanes config)) as (ps & pubs & H1 & H2 & H3).
  rewrite H1 in F3. injection F3 as <-. rewrite H2 in E2. injection E2 as <-. split; [done|]. by destruct a1.
Qed.

(** C13: a catalog publishes the newest runs. For every lane, the active
    generation is the newest candidate that the lane takes, and the previous
    generation the newest of the others; a lane has no active generation only
    when no candidate qualifies. *)
Theorem catalog_publishes_newest config candidates now state : Forall candidate_made candidates -> from_candidates config candidates now = Ok state ->
  Forall2 (fun lane p => pl_id p = lane_id lane /\ exists active previous,
    pl_active p = from_candidate <$> active /\ pl_previous p = from_candidate <$> previous
    /\ newest_of candidates (fun c => candidate_matches_lane c lane = true) active
    /\ newest_of candidates (fun c => candidate_matches_lane c lane = true /\ Some c <> active) previous) (lanes config) (oc_lanes state).
Proof.
  intros Hm [H3 _]%from_candidates_inv; [|done]. eapply Forall2_impl; [exact H3|]. intros lane p (x & y & [Hx Hy] & ->). cbn [pl_id pl_active pl_previous].
  split; [done|]. by exists x, y.
Qed.

(** ** Runs of built plans can be published *)

(** A run that the scheduler has verified: deep validation accepted its
    manifest and files, and the coverage passed the check of a queryable run. *)
Definition run_verified (plan : JobPlan) (cov : RunCoverage) : Prop :=
  exists m variables cov0, verify_manifest plan m = Ok cov0 /\ cov = storage_checked m variables cov0
  /\ validate_queryable_coverage plan cov = Ok tt.
(** A candidate made from the verified run of a plan that was built. *)
Definition candidate_run (c : RunCandidate) (plan : JobPlan) (cov : RunCoverage) : Prop :=
  (exists model cycle profile source, build_with_profile_and_source model cycle profile source = Ok plan)
  /\ run_verified plan cov /\ from_coverage plan cov = Ok c.
Definition candidate_verified (c : RunCandidate) : Prop := exists plan cov, candidate_run c plan cov.

(** A run with every expected time, where some planned slot is not used: one
    of the times is stored under a slot that the plan does not have. *)
Definition misfiled (cov : RunCoverage) : Prop := cov_missing cov = [] /\ missing_slots cov <> [].
#[global] Instance misfiled_dec cov : Decision (misfiled cov).
Proof. unfold misfiled. apply _. Defined.
Definition candidate_misfiled (c : RunCandidate) : Prop := exists plan cov, candidate_run c plan cov /\ misfiled cov.

(** Deep validation followed by the check of a queryable run makes a run
    verified. *)
Lemma deep_validation_verifies `{External, !GridExternal, !ManifestJson, !ManifestJsonLaws} mmap_ok plan dir cov :
  verify_run_json mmap_ok plan dir = Ok cov -> validate_queryable_coverage plan cov = Ok tt -> run_verified plan cov.
Proof.
  intros E Hq. destruct (verify_run_inv _ _ _ _ E) as (m & _ & _ & cov0 & variables & _ & _ & _ & _ & _ & _ & _ & _ & Hv & ->). by exists m, variables, cov0.
Qed.

(** What verification gives. *)
Record run_facts (plan : JobPlan) (cov : RunCoverage) : Prop := {
  rv_expected : cov_expected cov = expected_set plan;
  rv_storage : storage_validated cov = true;
  rv_unexpected : cov_unexpected cov = [];
  rv_mismatches : slot_mismatches cov = [];
  rv_validated : length (validated_slots cov) = length (cov_present cov);
  rv_present : bset_wf valid_time_cmp (cov_present cov) /\ forall t, t ∈ cov_present cov -> t ∈ expected_set plan;
  rv_missing : forall t, t ∈ cov_missing cov <-> t ∈ expected_set plan /\ t ∉ cov_present cov
}.

Lemma verified_run_facts plan cov : run_verified plan cov -> run_facts plan cov.
Proof.
  intros (m & variables & cov0 & Hv & -> & Hq). unfold validate_queryable_coverage in Hq. apply reject_inv in Hq.
  apply orb_false_iff in Hq as [[[[Q1 Q2]%orb_false_iff Q3]%orb_false_iff Q4]%orb_false_iff Q5]. apply negb_false_iff in Q1, Q2, Q3, Q4, Q5.
  apply bool_decide_eq_true in Q1. apply is_nil_true in Q3, Q4. apply Nat.eqb_eq in Q5.
  unfold verify_manifest in Hv. bind_step Hv V1. bind_step Hv V2. bind_step Hv V3. bind_step Hv V4.
  match type of V4 with _ = Ok ?q => destruct q as [[available mm] ms] end. injection Hv as <-. cbn [storage_checked cov_expected cov_available cov_present cov_missing] in *.
  split; cbn [storage_checked cov_expected cov_available cov_present cov_missing]; try done.
  - split; [apply (filter_wf valid_time_cmp), (bset_of_wf valid_time_cmp)|]. intros t Ht. by apply (elem_of_bset_inter valid_time_cmp) in Ht as [? _].
  - intros t. rewrite (elem_of_bset_diff valid_time_cmp), (elem_of_bset_inter valid_time_cmp). tauto.
Qed.

Section facts.
Context (plan : JobPlan) (cov : RunCoverage) (R : run_facts plan cov).

Lemma none_missing_iff : cov_missing cov = [] <-> cov_present cov = expected_set plan.
Proof using R.
  destruct R as [_ _ _ _ _ [R6 R6'] R7]. split.
  - intros Hm. apply (bset_ext valid_time_cmp); [done|apply (bset_of_wf valid_time_cmp)|]. intros t. split; [apply R6'|]. intros Ht.
    destruct (decide (t ∈ cov_present cov)) as [|Hn]; [done|]. assert (t ∈ cov_missing cov) as Hx by (by apply R7). rewrite Hm in Hx. by apply not_elem_of_nil in Hx.
  - intros Hp. destruct (cov_missing cov) as [|t l] eqn:E; [done|]. destruct (proj1 (R7 t)) as [H1 H2]; [left|]. by rewrite Hp in H2.
Qed.

Lemma complete_iff_present : is_complete cov = true <-> cov_present cov = expected_set plan /\ missing_slots cov = [].
Proof using R.
  rewrite <- none_missing_iff. pose proof none_missing_iff as Hn. destruct R as [R1 R2 R3 R4 R5 _ _]. unfold is_complete, temporal_inventory_complete.
  rewrite R2, R3, R4, R5, !andb_true_iff, !is_nil_true, Nat.eqb_eq, R1. split; [tauto|]. intros [Hm Hs]. apply Hn in Hm as Hp. rewrite Hp. tauto.
Qed.
End facts.

Lemma valid_unix_inj origin times t t' : plan_times origin 0 times -> t ∈ (valid_time_from <$> times) -> t' ∈ (valid_time_from <$> times) ->
  vt_valid_unix t = vt_valid_unix t' -> t = t'.
Proof.
  intros [_ _ Hl] (e & -> & He)%list_elem_of_fmap (e' & -> & He')%list_elem_of_fmap. destruct (Hl e He) as [L1 L2]. destruct (Hl e' He') as [L3 L4].
  unfold valid_time_from. cbn. intros E. f_equal; lia.
Qed.

Lemma built_valid_times model cycle profile source plan origin : built model cycle profile source plan origin ->
  rmap (valid_time_at origin) (supported_forecast_hours model (hour_utc (jp_cycle plan))) = Ok (ev_valid_unix <$> expected_valid_times plan).
Proof.
  intros B. pose proof (b_times _ _ _ _ _ _ B) as Ht. apply rmap_ok_inv in Ht. apply rmap_ok_intro. revert Ht.
  generalize (supported_forecast_hours model (hour_utc (jp_cycle plan))) as hs, (expected_valid_times plan) as es. intros hs es Ht.
  apply Forall2_same_length_lookup. pose proof (Forall2_length _ _ _ Ht) as Hlen. rewrite length_imap in Hlen. split; [by rewrite length_fmap|].
  intros i h u Hh Hu. rewrite list_lookup_fmap in Hu. destruct (es !! i) as [e|] eqn:He; [|done]. injection Hu as <-.
  pose proof (Forall2_lookup_lr _ _ _ i (i, h) e Ht ltac:(by rewrite list_lookup_imap, Hh) He) as E. cbn beta in E.
  apply expected_time_inv in E as (_ & _ & E). unfold valid_time_of in E. bind_step E E1. bind_step E E2. bind_step E E3. injection E as _ <-.
  apply ok_or_inv, checked_mul64_inv in E1 as [-> _]. apply ok_or_inv in E2. unfold i64_try_from in E2. case_match; [|done]. injection E2 as <-.
  apply ok_or_inv in E3. unfold valid_time_at. by rewrite E3.
Qed.

Lemma cycle_parts c t : 0 <= hour_utc c -> cycle_origin_unix c = Ok t ->
  exists y m d, valid_date y m d /\ hour_utc c <= 23 /\ c = cycle_of y m d (hour_utc c) /\ t = origin_of y m d (hour_utc c).
Proof.
  intros Hh E. pose proof E as E'. unfold cycle_origin_unix in E'. bind_step E' E1. clear E'. unfold revalidate_cycle in E1.
  destruct (cycle_spec_new _ _) as [c0| |] eqn:E2; [|done..]. apply cycle_accepted_iff in E2 as (y & m & d & Hv & H23 & Hd & _); [|done].
  exists y, m, d. split; [done|]. split; [done|]. assert (c = cycle_of y m d (hour_utc c)) as Ec by (destruct c; cbn in *; by subst). split; [done|].
  rewrite Ec, cycle_origin_counts in E by (done || lia). by injection E as <-.
Qed.

Lemma same_origin c c' t : 0 <= hour_utc c -> 0 <= hour_utc c' -> cycle_origin_unix c = Ok t -> cycle_origin_unix c' = Ok t -> c = c'.
Proof.
  intros H0 H0' E E'. destruct (cycle_parts _ _ H0 E) as (y & m & d & Hv & H23 & Ec & ->). destruct (cycle_parts _ _ H0' E') as (y' & m' & d' & Hv' & H23' & Ec' & Et).
  pose proof (origin_compare y m d (hour_utc c) y' m' d' (hour_utc c') Hv Hv' ltac:(lia) ltac:(lia)) as Hx. rewrite Et, Z.compare_refl in Hx. symmetry in Hx.
  apply lex4_eq in Hx as [= -> -> -> Eh]. by rewrite Ec, Ec', Eh.
Qed.

Lemma cycle_hour_range model cycle u : validate_model_cycle model cycle = Ok u -> 0 <= hour_utc cycle <= 23.
Proof.
  unfold validate_model_cycle. destruct (catalog_entry model) as (summary & Hs & _ & _ & Hr & _). rewrite (summary_of_ok (E := SchedulerError) model summary Hs).
  cbn [mbind result_bind]. intros E%reject_inv%negb_false_iff. unfold is_in in E. apply existsb_exists in E as (h & Hin%list_elem_of_In & ->%Z.eqb_eq).
  exact (proj1 (list.Forall_forall _ _) Hr h Hin).
Qed.

Lemma subset_iff a b : is_subset a b = true <-> forall x, x ∈ a -> x ∈ b.
Proof. unfold is_subset. rewrite forallb_forall. setoid_rewrite (bset_contains_iff Z.compare). by setoid_rewrite <- list_elem_of_In. Qed.

Lemma candidate_inventory plan cov origin : run_facts plan cov -> plan_times origin 0 (expected_valid_times plan) ->
  let expected := bset_of Z.compare (ev_valid_unix <$> expected_valid_times plan) in
  is_subset (available_valid_unix cov) expected = true /\ (cov_present cov = expected_set plan <-> available_valid_unix cov = expected).
Proof.
  intros [_ _ _ _ _ [R6 R6'] _] Hp expected.
  assert (Hin : forall u, u ∈ available_valid_unix cov <-> exists t, u = vt_valid_unix t /\ t ∈ cov_present cov) by (intros u; unfold available_valid_unix; by rewrite (elem_of_bset_of Z.compare), list_elem_of_fmap).
  assert (He : forall u, u ∈ expected <-> exists t, u = vt_valid_unix t /\ t ∈ expected_set plan).
  { intros u. unfold expected. rewrite (elem_of_bset_of Z.compare), list_elem_of_fmap. setoid_rewrite elem_of_expected_set. split.
    - intros (e & -> & Hx). exists (valid_time_from e). split; [done|]. by exists e.
    - intros (t & -> & e & Hx & ->). by exists e. }
  split.
  - apply subset_iff. intros u (t & -> & Ht)%Hin. apply He. exists t. split; [done|]. by apply R6'.
  - split.
    + intros Ep. apply (bset_ext Z.compare); [apply (bset_of_wf Z.compare)..|]. intros u. by rewrite Hin, He, Ep.
    + intros Ea. apply (bset_ext valid_time_cmp); [done|apply (bset_of_wf valid_time_cmp)|]. intros t. split; [apply R6'|]. intros Ht.
      assert (vt_valid_unix t ∈ available_valid_unix cov) as (t' & Et & Ht')%Hin by (rewrite Ea; apply He; by exists t).
      assert (t = t') as ->; [|done]. eapply (valid_unix_inj origin); [exact Hp| | |done].
      * apply elem_of_expected_set in Ht as (e & Hx & ->). apply list_elem_of_fmap. by exists e.
      * apply R6', elem_of_expected_set in Ht' as (e & Hx & ->). apply list_elem_of_fmap. by exists e.
Qed.

(** The inventory that a lane checks is consistent unless the run is misfiled. *)
Lemma inventory_consistent plan cov origin : run_facts plan cov -> plan_times origin 0 (expected_valid_times plan) ->
  let expected := bset_of Z.compare (ev_valid_unix <$> expected_valid_times plan) in
  negb (is_subset (available_valid_unix cov) expected) || negb (Bool.eqb (is_complete cov) (bool_decide (available_valid_unix cov = expected)))
  = bool_decide (misfiled cov).
Proof.
  intros R Hp expected. destruct (candidate_inventory plan cov origin R Hp) as [Hsub Heq]. fold expected in Hsub, Heq. rewrite Hsub. cbn [negb orb].
  pose proof (complete_iff_present _ _ R) as Hc. pose proof (none_missing_iff _ _ R) as Hn. 
  assert (Hmf : misfiled cov <-> cov_present cov = expected_set plan /\ missing_slots cov <> []) by (unfold misfiled; tauto).
  rewrite (bool_decide_ext _ _ Hmf), (bool_decide_ext _ _ (iff_sym Heq)).
  destruct (is_complete cov).
  - destruct (proj1 Hc eq_refl) as [H1 H2]. rewrite bool_decide_eq_true_2 by done. cbn. symmetry. apply bool_decide_eq_false_2. tauto.
  - case_bool_decide as H1; cbn; symmetry; [apply bool_decide_eq_true_2|apply bool_decide_eq_false_2; tauto].
    split; [done|]. intros H2. assert (false = true) by (apply Hc; tauto). done.
Qed.

(** A verified candidate: it was made, its run is named after its cycle, and
    a lane that takes it finds the generation it gives valid, unless the run
    is misfiled. *)
Lemma verified_facts c plan cov : candidate_run c plan cov ->
  candidate_made c /\ 0 <= hour_utc (rc_cycle c) /\ rc_run_id c = canonical_run_id (rc_cycle c)
  /\ (forall lane, candidate_matches_lane c lane = true -> ~ misfiled cov -> validate_for_lane (from_candidate c) lane = Ok tt)
  /\ (forall lane, misfiled cov -> exists e, validate_for_lane (from_candidate c) lane = Err e).
Proof.
  intros ((model & cycle & profile & source & Hb) & R%verified_run_facts & E). unfold from_coverage in E. bind_step E E1. bind_step E E2.
  assert (Hmade : candidate_made c) by (repeat eexists; exact E). destruct (candidate_made_facts c Hmade) as (Hnew & Horig & _).
  destruct (candidate_new_inv _ _ _ _ _ _ E) as (Ec & Ho & _). destruct (build_inv _ _ _ _ _ Hb) as [origin B].
  assert (origin = rc_origin c) as -> by (pose proof (b_origin _ _ _ _ _ _ B); congruence).
  pose proof (built_valid_times _ _ _ _ _ _ B) as Ht. pose proof (cycle_hour_range _ _ _ (b_hour _ _ _ _ _ _ B)) as Hh.
  pose proof (b_run_id _ _ _ _ _ _ B) as [Hid _]. rewrite <- (b_model _ _ _ _ _ _ B) in Ht. rewrite Ec in *. cbn [rc_model rc_cycle rc_origin rc_run_id coverage_complete rc_available] in *.
  destruct (plan_validate_times plan) as (o & Ho' & Hp); [lia|by destruct a|]. unfold origin_unix_of in *.
  pose proof (inventory_consistent plan cov o R Hp) as Hinv. cbn zeta in Hinv.
  assert (Hlane : forall lane, jp_model plan = lane_model lane -> validate_for_lane (from_candidate c) lane
    = (_ ← reject (bool_decide (misfiled cov)) (InvalidState "origin lane generation has an inconsistent valid-time inventory");
       reject (negb (candidate_matches_lane c lane)) (InvalidState "origin lane generation does not satisfy its selector"))).
  { intros lane Hl. rewrite Ec. unfold validate_for_lane, from_candidate. cbn [pg_model pg_cycle pg_run_id pg_complete pg_available rc_model rc_cycle rc_run_id coverage_complete rc_available].
    rewrite (bool_decide_eq_true_2 _ Hl), (bool_decide_eq_true_2 _ (eq_sym Hid)). cbn [negb reject mbind result_bind]. rewrite Hnew. cbn [mbind result_bind].
    rewrite Horig. cbn [mbind result_bind]. rewrite Ht. cbn [mbind result_bind]. by rewrite Hinv. }
  rewrite Ec in Hlane. split; [done|]. split; [lia|]. split; [done|]. split.
  - intros lane Hm Hmf. rewrite Hlane; [by rewrite bool_decide_eq_false_2, Hm|].
    unfold candidate_matches_lane in Hm. cbn [rc_model] in Hm. destruct (bool_decide (jp_model plan = lane_model lane)) eqn:El; [|done]. by apply bool_decide_eq_true in El.
  - intros lane Hmf. destruct (decide (jp_model plan = lane_model lane)) as [Hl|Hl].
    + rewrite Hlane, bool_decide_eq_true_2 by done. by eexists.
    + unfold validate_for_lane, from_candidate. cbn [pg_model rc_model]. rewrite (bool_decide_eq_false_2 _ Hl). by eexists.
Qed.

(** A published candidate that validates is not misfiled. *)
Lemma valid_not_misfiled c lane : validate_for_lane (from_candidate c) lane = Ok tt -> ~ candidate_misfiled c.
Proof. intros Hv (plan & cov & Hc & Hm). destruct (verified_facts _ _ _ Hc) as (_ & _ & _ & _ & H). destruct (H lane Hm) as [e He]. congruence. Qed.

Lemma verified_made c : candidate_verified c -> candidate_made c /\ 0 <= hour_utc (rc_cycle c) /\ rc_run_id c = canonical_run_id (rc_cycle c).
Proof. intros (plan & cov & Hc). destruct (verified_facts _ _ _ Hc) as (? & ? & ? & _). done. Qed.

Lemma newer_origin a b : candidate_verified a -> candidate_verified b -> key_of a <> key_of b -> rc_model a = rc_model b ->
  run_key_cmp (candidate_key b) (candidate_key a) <> Gt -> rc_origin b < rc_origin a.
Proof.
  intros Va Vb Hk Hm Hc. destruct (verified_made _ Va) as (Ma & Ha & Ia). destruct (verified_made _ Vb) as (Mb & Hb & Ib).
  destruct (candidate_made_facts _ Ma) as (_ & Oa & _). destruct (candidate_made_facts _ Mb) as (_ & Ob & _).
  unfold run_key_cmp, pair_cmp, candidate_key in Hc. cbn [fst snd] in Hc. destruct (Z.compare_spec (rc_origin b) (rc_origin a)) as [Eo|Hlt|]; [|done|done].
  exfalso. apply Hk. rewrite Eo in Ob. pose proof (same_origin _ _ _ Ha Hb Oa Ob) as Ecy. unfold key_of. by rewrite Hm, Ia, Ib, Ecy.
Qed.

(** What a lane makes of the candidate it picked, or of none. *)
Lemma picked_valid cs lane o : Forall candidate_verified cs -> (forall c, o = Some c -> c ∈ cs /\ candidate_matches_lane c lane = true) ->
  rtraverse (fun g => validate_for_lane g lane) (from_candidate <$> o) = Ok ((fun _ => tt) <$> o)
  \/ (exists e, rtraverse (fun g => validate_for_lane g lane) (from_candidate <$> o) = Err e) /\ exists c, o = Some c /\ candidate_misfiled c.
Proof.
  intros Hv Ho. destruct o as [c|]; [|by left]. destruct (Ho c eq_refl) as [Hc Hm]. destruct (proj1 (list.Forall_forall _ _) Hv c Hc) as (plan & cov & Hr).
  destruct (verified_facts _ _ _ Hr) as (_ & _ & _ & Hok & Hbad). cbn [fmap option_fmap option_map rtraverse]. destruct (decide (misfiled cov)) as [Hx|Hx].
  - right. destruct (Hbad lane Hx) as [e ->]. split; [by eexists|]. exists c. split; [done|]. by exists plan, cov.
  - left. by rewrite (Hok lane Hm Hx).
Qed.

(** The lane of two picked candidates is valid, unless one is misfiled. *)
Lemma lane_valid cs lane a b : Forall candidate_verified cs -> NoDup (key_of <$> cs) -> lane_picks cs lane a b ->
  let r := validate_lane ({| pl_id := lane_id lane; pl_active := from_candidate <$> a; pl_previous := from_candidate <$> b |}, lane) in
  r = Ok tt \/ (exists e, r = Err e) /\ exists c, (a = Some c \/ b = Some c) /\ candidate_misfiled c.
Proof.
  intros Hv Hn [Ha Hb] r. pose proof (proj1 (list.Forall_forall _ _) Hv) as Hve. unfold r, validate_lane. cbn [pl_id pl_active pl_previous].
  rewrite bool_decide_eq_true_2 by done. cbn [negb reject mbind result_bind].
  destruct (picked_valid cs lane a Hv) as [->|[[e ->] (c & -> & Hc)]]; [intros c ->; destruct Ha as (? & ? & _); done| |right; split; [by eexists|]; exists c; by auto].
  cbn [mbind result_bind].
  destruct (picked_valid cs lane b Hv) as [->|[[e ->] (c & -> & Hc)]]; [intros c ->; destruct Hb as (? & [? _] & _); done| |right; split; [by eexists|]; exists c; by auto].
  cbn [mbind result_bind]. left.
  destruct b as [b|]; [|by destruct a]. destruct Hb as (Hb & [Hbm Hne] & _). destruct a as [a|]; cbn [newest_of] in Ha; [|by apply Ha in Hb].
  destruct Ha as (Ha & Ham & Hmax). cbn [fmap option_fmap option_map is_some negb andb reject mbind result_bind].
  destruct (verified_made _ (Hve a Ha)) as (Ma & _). destruct (verified_made _ (Hve b Hb)) as (Mb & _).
  destruct (candidate_made_facts _ Ma) as (_ & Oa & Ka). destruct (candidate_made_facts _ Mb) as (_ & Ob & Kb).
  unfold generation_key, from_candidate. cbn [pg_model pg_run_id pg_cycle]. rewrite Ka, Kb. cbn [mbind result_bind].
  assert (Hk : key_of a <> key_of b) by (intros Ek; apply Hne; f_equal; symmetry; by eapply key_of_inj).
  fold (key_of a) (key_of b). rewrite bool_decide_eq_false_2 by done. cbn [reject mbind result_bind]. rewrite Oa, Ob. cbn [mbind result_bind].
  assert (rc_model a = rc_model b).
  { unfold candidate_matches_lane in Ham, Hbm. destruct (bool_decide (rc_model a = _)) eqn:E1; [|done]. destruct (bool_decide (rc_model b = _)) eqn:E2; [|done].
    apply bool_decide_eq_true in E1, E2. congruence. }
  pose proof (newer_origin a b (Hve a Ha) (Hve b Hb) Hk ltac:(done) (Hmax b Hb Hbm)). by rewrite (proj2 (Z.leb_gt _ _)).
Qed.

(** All lanes of a catalog. *)
Lemma lanes_valid cs ls pubs : Forall candidate_verified cs -> NoDup (key_of <$> cs) ->
  Forall2 (fun lane p => exists a b, lane_picks cs lane a b /\ p = {| pl_id := lane_id lane; pl_active := from_candidate <$> a; pl_previous := from_candidate <$> b |}) ls pubs ->
  let r := rfold (fun _ x => validate_lane x) (zip pubs ls) tt in
  r = Ok tt \/ (exists e, r = Err e) /\ exists lane a b c, lane ∈ ls /\ lane_picks cs lane a b /\ (a = Some c \/ b = Some c) /\ candidate_misfiled c.
Proof.
  intros Hv Hn H3. induction H3 as [|lane p ls pubs (a & b & Hab & ->) _ IH]; [by left|]. cbn [zip zip_with rfold].
  destruct (lane_valid cs lane a b Hv Hn Hab) as [->|[[e ->] (c & Hc & Hm)]].
  - cbn [mbind result_bind]. destruct IH as [IH|[He (l & a' & b' & c & Hl & Hrest)]]; [by left|right]. split; [done|]. exists l, a', b', c. split; [by right|done].
  - right. split; [by eexists|]. exists lane, a, b, c. split; [left|done].
Qed.

Lemma unique_ok cs : Forall candidate_made cs -> NoDup (key_of <$> cs) -> exists keys, rfold unique_step cs [] = Ok keys.
Proof.
  induction cs as [|c cs IH] using rev_ind; intros Hm Hn; [by eexists|]. apply Forall_app in Hm as [Hm Hc%Forall_inv].
  rewrite fmap_app in Hn. cbn [fmap list_fmap] in Hn. apply NoDup_app in Hn as (Hn & Hd & _). destruct (IH Hm Hn) as [keys Hk].
  rewrite rfold_app, Hk. cbn [mbind result_bind rfold]. unfold unique_step. rewrite (proj2 (proj2 (candidate_made_facts _ Hc))). cbn [mbind result_bind]. fold (key_of c).
  destruct (bset_contains retention_key_cmp (key_of c) keys) eqn:E; [|by eexists]. exfalso.
  apply (bset_contains_iff retention_key_cmp), (proj2 (unique_keys _ _ Hm Hk)), Hd in E. apply E. by left.
Qed.

(** The published generations are those of candidates. *)
Definition lane_of_candidates (cs : list RunCandidate) (p : OriginPublishedLane) : Prop :=
  exists a b, pl_active p = from_candidate <$> a /\ pl_previous p = from_candidate <$> b
  /\ (forall c, a = Some c -> c ∈ cs /\ candidate_made c) /\ (forall c, b = Some c -> c ∈ cs /\ candidate_made c).

Lemma insert_key_made s o : (forall c, o = Some c -> candidate_made c) ->
  exists s', insert_key s (from_candidate <$> o) = Ok s' /\ forall k, k ∈ s' <-> k ∈ s \/ exists c, o = Some c /\ k = key_of c.
Proof.
  destruct o as [c|]; intros Ho.
  - cbn [fmap option_fmap option_map insert_key]. unfold generation_key, from_candidate. cbn [pg_model pg_run_id]. rewrite (proj2 (proj2 (candidate_made_facts _ (Ho c eq_refl)))).
    cbn [mbind result_bind]. fold (key_of c). eexists. split; [done|]. intros k. rewrite (elem_of_bset_insert retention_key_cmp). split.
    + intros [->|?]; [right; by exists c|by left].
    + intros [?|(c' & [= <-] & ->)]; [by right|by left].
  - exists s. split; [done|]. intros k. split; [by left|]. intros [?|(c & ? & _)]; done.
Qed.

Lemma protected_spec cs ps s : (forall p, p ∈ ps -> lane_of_candidates cs p) ->
  exists keys, rfold (fun s lane => s ← insert_key s (pl_active lane); insert_key s (pl_previous lane)) ps s = Ok keys
  /\ forall k, k ∈ keys <-> k ∈ s \/ exists p c, p ∈ ps /\ (pl_active p = Some (from_candidate c) \/ pl_previous p = Some (from_candidate c)) /\ c ∈ cs /\ k = key_of c.
Proof.
  revert s. induction ps as [|p ps IH]; intros s Hp.
  { exists s. split; [done|]. intros k. split; [by left|]. intros [?|(p & c & Hx & _)]; [done|by apply not_elem_of_nil in Hx]. }
  destruct (Hp p ltac:(left)) as (a & b & Ea & Eb & Ha & Hb).
  destruct (insert_key_made s a) as (s1 & E1 & H1); [intros c Hc; by apply Ha|]. destruct (insert_key_made s1 b) as (s2 & E2 & H2); [intros c Hc; by apply Hb|].
  destruct (IH s2) as (keys & Ek & Hk); [intros q Hq; apply Hp; by right|]. exists keys. split.
  - cbn [rfold]. rewrite Ea, Eb, E1. cbn [mbind result_bind]. rewrite E2. exact Ek.
  - intros k. rewrite Hk, H2, H1. split.
    + intros [[[?|(c & -> & ->)]|(c & -> & ->)]|(q & c & Hq & Hrest)]; [by left| | |right; exists q, c; split; [by right|done]];
        (right; exists p, c; split; [left|]; split; [cbn in *; auto|]; split; [|done]); [by apply Ha|by apply Hb].
    + intros [?|(q & c & [->|Hq]%elem_of_cons & Hg & Hc & ->)]; [tauto| |right; by exists q, c]. left. rewrite Ea, Eb in Hg.
      assert (Hinv : forall o, from_candidate <$> o = Some (from_candidate c) -> exists c', o = Some c' /\ key_of c = key_of c').
      { intros [c'|] Ho; [|done]. apply (inj Some) in Ho. exists c'. split; [done|]. injection Ho as ? ? ? ? ?. unfold key_of. congruence. }
      destruct Hg as [(c' & -> & ->)%Hinv|(c' & -> & ->)%Hinv]; [left; right|right]; by exists c'.
Qed.

Lemma rfold_unit_ok {A Err} (step : unit -> A -> result Err unit) l u : rfold step l tt = Ok u -> forall x, x ∈ l -> step tt x = Ok tt.
Proof.
  revert u. induction l as [|y l IH]; intros u E x Hx; [by apply not_elem_of_nil in Hx|]. cbn [rfold] in E. bind_step E E1. destruct a.
  apply elem_of_cons in Hx as [->|Hx]; [done|by eapply IH].
Qed.

(** A catalog that validates publishes no misfiled run. *)
Lemma validated_not_misfiled config state p c : catalog_validate config state = Ok tt -> p ∈ oc_lanes state ->
  pl_active p = Some (from_candidate c) \/ pl_previous p = Some (from_candidate c) -> ~ candidate_misfiled c.
Proof.
  unfold catalog_validate. intros E Hp Hg. bind_step E E1. bind_step E E2. bind_step E E3. apply reject_inv, negb_false_iff, Nat.eqb_eq in E3.
  apply list_elem_of_lookup in Hp as [i Hi]. destruct (lookup_lt_is_Some_2 (lanes config) i) as [lane Hl]; [rewrite <- E3; by eapply lookup_lt_Some|].
  assert ((p, lane) ∈ zip (oc_lanes state) (lanes config)) as Hx by (apply list_elem_of_lookup; exists i; by apply lookup_zip_with_Some; exists p, lane).
  pose proof (rfold_unit_ok _ _ _ E _ Hx) as Hok. cbn beta in Hok. unfold validate_lane in Hok. bind_step Hok F1. bind_step Hok F2. bind_step Hok F3. clear Hok.
  destruct Hg as [Hg|Hg]; rewrite Hg in *; cbn [rtraverse] in *.
  - bind_step F2 F4. apply (valid_not_misfiled c lane). match type of F4 with _ = Ok ?u => by destruct u end.
  - bind_step F3 F4. apply (valid_not_misfiled c lane). match type of F4 with _ = Ok ?u => by destruct u end.
Qed.

(** C16: when a refresh of the catalog can fail. Take distinct candidates of
    runs that were built, deeply validated and found queryable, any
    configuration that keeps one previous generation and any time. Building
    the catalog never panics. When it succeeds, the catalog validates, its
    protected keys are those of the published generations, and no published
    run is misfiled. It fails only when a lane picked a misfiled run: one that
    has every expected time, but one of them under a storage slot that the
    plan does not have, which the check for queryable coverage lets through. *)
Theorem verified_runs_publish config candidates now : previous_generations config = 1 -> 0 <= now ->
  Forall candidate_verified candidates -> NoDup (key_of <$> candidates) ->
  match from_candidates config candidates now with
  | Ok state => catalog_validate config state = Ok tt
      /\ (forall p c, p ∈ oc_lanes state -> pl_active p = Some (from_candidate c) \/ pl_previous p = Some (from_candidate c) -> ~ candidate_misfiled c)
      /\ exists keys, catalog_protected state = Ok keys
         /\ forall k, k ∈ keys <-> exists p c, p ∈ oc_lanes state /\ (pl_active p = Some (from_candidate c) \/ pl_previous p = Some (from_candidate c)) /\ c ∈ candidates /\ k = key_of c
  | Err _ => exists lane active previous c, lane ∈ lanes config /\ lane_picks candidates lane active previous
      /\ (active = Some c \/ previous = Some c) /\ candidate_misfiled c
  | Panic => False
  end.
Proof.
  intros Hg Hnow Hv Hn. assert (Hm : Forall candidate_made candidates) by (eapply Forall_impl; [exact Hv|]; intros c Hc; by apply verified_made in Hc as [? _]).
  destruct (unique_ok _ Hm Hn) as [ks Hks]. destruct (published_lanes candidates Hm Hn (lanes config)) as (ps & pubs & H1 & H2 & H3).
  set (state := {| oc_schema := ORIGIN_CATALOG_STATE_SCHEMA; oc_updated_unix := now; oc_lanes := pubs |}).
  assert (Hval : catalog_validate config state = rfold (fun _ x => validate_lane x) (zip pubs (lanes config)) tt).
  { unfold catalog_validate. cbn [state oc_schema oc_updated_unix oc_lanes]. rewrite bool_decide_eq_true_2, (proj2 (Z.ltb_ge _ _)), (Forall2_length _ _ _ H3), Nat.eqb_refl by done.
    done. }
  assert (Hfrom : from_candidates config candidates now = (_ ← catalog_validate config state; Ok state)).
  { unfold from_candidates, publication_plan_build. rewrite Hg, Hks. cbn [Z.eqb Pos.eqb negb reject mbind result_bind]. rewrite H1. cbn [mbind result_bind pp_lanes].
    by rewrite H2. }
  destruct (lanes_valid candidates (lanes config) pubs Hv Hn H3) as [Hok|[[e He] Hbad]]; rewrite Hfrom.
  2:{ rewrite Hval, He. exact Hbad. }
  rewrite <- Hval in Hok. rewrite Hok. cbn [mbind result_bind]. split; [done|]. split; [intros p c; by apply (validated_not_misfiled config)|].
  destruct (protected_spec candidates pubs []) as (keys & Hkeys & Hin).
  { intros p Hp. apply list_elem_of_lookup in Hp as [i Hi]. destruct (Forall2_lookup_r _ _ _ _ _ H3 Hi) as (lane & _ & a & b & Hab & ->).
    destruct (picked_elem _ _ _ _ Hab) as [Ia Ib]. exists a, b. cbn [pl_active pl_previous]. split_and!; [done|done| |];
      (intros c Hc; split; [by auto|]); apply (proj1 (list.Forall_forall _ _) Hm); auto. }
  exists keys. split; [exact Hkeys|]. intros k. rewrite Hin. split; [intros [Hx|Hx]; [by apply not_elem_of_nil in Hx|done]|by right].
Qed.

(** ** Examples *)

(** Complete coverage of a plan. *)
Definition full_coverage (plan : JobPlan) : RunCoverage :=
  {| cov_expected := expected_set plan; cov_available := expected_set plan; cov_present := expected_set plan; cov_missing := []; cov_unexpected := [];
     slot_mismatches := []; missing_slots := []; storage_validated := true; validated_slots := ev_storage_slot <$> expected_valid_times plan; variable_slots := [] |}.

(** The manifest with the times of a plan, each in the slot that [slot_of]
    makes of its own. *)
Definition exact_manifest (slot_of : Z -> Z) (plan : JobPlan) : RwsRunManifest :=
  {| mf_schema := SCHEMA_RUN_V2; mf_model := model_as_str (jp_model plan); mf_run := run_id plan; mf_grid_hash := "grid"; mf_nx := 2; mf_ny := 2;
     hours := (fun e => let slot := slot_of (ev_storage_slot e) in (slot, sample_entry slot (ev_lead_seconds e) (ev_valid_unix e))) <$> expected_valid_times plan;
     mf_writer := {| wi_name := "rw-store"; wi_version := "0.1.0"; wi_build := "test" |} |}.
(** Its coverage after deep validation. *)
Definition exact_coverage (slot_of : Z -> Z) (plan : JobPlan) : SchedulerResult RunCoverage :=
  cov ← verify_manifest plan (exact_manifest slot_of plan); Ok (storage_checked (exact_manifest slot_of plan) [] cov).

Lemma exact_coverage_verified slot_of plan cov : exact_coverage slot_of plan = Ok cov -> validate_queryable_coverage plan cov = Ok tt -> run_verified plan cov.
Proof. unfold exact_coverage. intros E Hq. bind_step E E1. injection E as <-. by eexists _, _, _. Qed.

Definition sample_origin : OriginCatalogPlanConfig :=
  {| oc_preset := InitialPublicSubset; capacity_audit := AuditComplete; disk_budget_bytes := Some 1000; audited_jobs := Some 2; previous_generations := 1 |}.
Definition hrrr_cycle (hour : Z) : CycleSpec := {| date_yyyymmdd := "20240229"; hour_utc := hour |}.
Definition hrrr_plan (hour : Z) : JobPlan := match build Hrrr (hrrr_cycle hour) with Ok plan => plan | _ => jr_plan running_record end.
Definition hrrr_candidate (hour : Z) : SchedulerResult RunCandidate := from_coverage (hrrr_plan hour) (full_coverage (hrrr_plan hour)).
Definition sample_candidates : list RunCandidate := Eval vm_compute in match rmap hrrr_candidate [6; 7; 8] with Ok cs => cs | _ => [] end.

(** A built HRRR run with the slots of [slot_of] is a verified candidate when
    the checks accept it. *)
Lemma hrrr_verified slot_of hour cov c : build_with_profile_and_source Hrrr (hrrr_cycle hour) (default_profile Hrrr) None = Ok (hrrr_plan hour) ->
  exact_coverage slot_of (hrrr_plan hour) = Ok cov -> validate_queryable_coverage (hrrr_plan hour) cov = Ok tt -> from_coverage (hrrr_plan hour) cov = Ok c ->
  candidate_run c (hrrr_plan hour) cov.
Proof. intros Hb Hc Hq Hf. split; [by eexists _, _, _, _|]. split; [|done]. by eapply exact_coverage_verified. Qed.

Lemma sample_candidates_verified : Forall candidate_verified sample_candidates.
Proof.
  assert (rmap hrrr_candidate [6; 7; 8] = Ok sample_candidates) as Hc%rmap_ok_inv by (vm_compute; reflexivity).
  assert (forall hour, hour ∈ [6; 7; 8] -> build_with_profile_and_source Hrrr (hrrr_cycle hour) (default_profile Hrrr) None = Ok (hrrr_plan hour)
    /\ exact_coverage id (hrrr_plan hour) = Ok (full_coverage (hrrr_plan hour)) /\ validate_queryable_coverage (hrrr_plan hour) (full_coverage (hrrr_plan hour)) = Ok tt) as Hb.
  { intros hour Hh. rewrite !elem_of_cons in Hh. destruct Hh as [->|[->|[->|Hh]]]; [vm_compute; split_and!; reflexivity..|by apply not_elem_of_nil in Hh]. }
  apply list.Forall_forall. intros c (i & Hi)%list_elem_of_lookup. destruct (Forall2_lookup_r _ _ _ _ _ Hc Hi) as (hour & Hh & E).
  destruct (Hb hour) as (H1 & H2 & H3); [by eapply list_elem_of_lookup_2|]. eexists _, _. exact (hrrr_verified id hour _ c H1 H2 H3 E).
Qed.

(** A misfiled run: the last of the 19 times of an HRRR cycle is stored under
    slot 19 instead of 18. *)
Definition misfiled_slot (slot : Z) : Z := if slot =? 18 then 19 else slot.
Definition misfiled_coverage : RunCoverage := Eval vm_compute in
  match exact_coverage misfiled_slot (hrrr_plan 7) with Ok cov => cov | _ => full_coverage (hrrr_plan 7) end.
Definition misfiled_candidate : list RunCandidate := Eval vm_compute in
  match from_coverage (hrrr_plan 7) misfiled_coverage with Ok c => [c] | _ => [] end.

(** It passes every check, and no catalog with it can be built. *)
Lemma misfiled_run_stops_publication : exists c, misfiled_candidate = [c] /\ candidate_run c (hrrr_plan 7) misfiled_coverage /\ misfiled misfiled_coverage
  /\ exists e, from_candidates sample_origin [c] 1709208000 = Err e.
Proof.
  eexists. split; [reflexivity|]. split; [|split; [vm_compute; split; [reflexivity|discriminate]|eexists; vm_compute; reflexivity]].
  apply (hrrr_verified misfiled_slot); vm_compute; reflexivity.
Qed.

Theorem catalog_publishes_newest_witness : exists state, from_candidates sample_origin sample_candidates 1709208000 = Ok state
  /\ Forall2 (fun lane p => pl_id p = lane_id lane) (lanes sample_origin) (oc_lanes state)
  /\ option_map pg_run_id (head (oc_lanes state) ≫= pl_active) = Some "20240229_08z"%string.
Proof.
  destruct (from_candidates sample_origin sample_candidates 1709208000) as [state| |] eqn:E; [|vm_compute in E; discriminate E..]. exists state. split; [reflexivity|]. split.
  - eapply Forall2_impl; [apply (catalog_publishes_newest sample_origin sample_candidates 1709208000 state); [|exact E]|intros lane p [H _]; exact H].
    eapply Forall_impl; [exact sample_candidates_verified|]. intros c Hc. exact (proj1 (verified_made c Hc)).
  - vm_compute in E. injection E as <-. vm_compute. reflexivity.
Defined.

Lemma sample_catalog_builds : match from_candidates sample_origin sample_candidates 1709208000 with
  | Ok state => match catalog_protected state with Ok keys => {| rk_model := Hrrr; rk_run_id := "20240229_06z" |} ∈ keys | _ => False end
  | _ => False
  end.
Proof. vm_compute. left. Qed.

Theorem verified_runs_publish_witness : exists state keys, from_candidates sample_origin sample_candidates 1709208000 = Ok state
  /\ catalog_validate sample_origin state = Ok tt /\ catalog_protected state = Ok keys /\ {| rk_model := Hrrr; rk_run_id := "20240229_06z" |} ∈ keys.
Proof.
  pose proof (verified_runs_publish sample_origin sample_candidates 1709208000 eq_refl ltac:(lia) sample_candidates_verified
    ltac:(vm_compute; by apply (bool_decide_unpack _))) as H. pose proof sample_catalog_builds as Hb.
  destruct (from_candidates sample_origin sample_candidates 1709208000) as [state| |]; [|destruct Hb..]. destruct H as (H1 & _ & keys & H2 & _).
  rewrite H2 in Hb. exists state, keys. split; [reflexivity|]. split; [exact H1|]. split; [exact H2|exact Hb].
Defined.
