(* ===== verification/Config.v ===== *)
(** * The configuration of the scheduler

    [crates/rw-scheduler/src/config.rs]: the settings of a host, how the
    allowlist, the source and the profile of a model are resolved, and the
    validation that runs before any pass. A configuration that validates
    plans every model of its allowlist. *)
From Stdlib Require Import ZArith Lia Ascii String.
From stdpp Require Import base list strings numbers sorting gmap.
From S2P Require Import Prelude F32 Format Text Order Ids Cycle Models Profile Capability Plan Manifest Coverage Jobs Atomic StateStore Retention Origin.

Local Open Scope Z_scope.

Record RetryConfig := { rt_max_attempts : Z; rt_initial_backoff_seconds : Z; rt_max_backoff_seconds : Z; jitter_percent : Z }.
Record RetentionConfig := { retention_enabled : bool; retention_dry_run : bool; keep_latest_per_model : Z }.

(** The roots are the bytes of their paths. *)
Record SchedulerConfig := {
  store_root : list ascii;
  cache_root : list ascii;
  state_root : list ascii;
  sc_models : list string;
  sc_source : option string;
  model_sources : list (string * string);    (* a [BTreeMap] *)
  sc_profile : string;
  model_profiles : list (string * string);   (* a [BTreeMap] *)
  use_cache : bool;
  sc_verify : bool;
  rollback_days : Z;
  poll_seconds : Z;
  discovery_timeout_seconds : Z;
  discovery_probe_timeout_seconds : Z;
  sc_max_concurrent_jobs : Z;
  max_concurrent_hours : Z;
  sc_max_queued_jobs : Z;
  free_space_reserve_bytes : Z;
  retry : RetryConfig;
  retention : RetentionConfig;
  origin_catalog_plan : option OriginCatalogPlanConfig
}.

(** The defaults. *)
Definition retry_config_default : RetryConfig :=
  {| rt_max_attempts := 5; rt_initial_backoff_seconds := 60; rt_max_backoff_seconds := 3600; jitter_percent := 20 |}.
Definition retention_config_default : RetentionConfig := {| retention_enabled := false; retention_dry_run := true; keep_latest_per_model := 3 |}.
Definition scheduler_config_default : SchedulerConfig :=
  {| store_root := []; cache_root := []; state_root := []; sc_models := []; sc_source := None; model_sources := []; sc_profile := "auto"; model_profiles := [];
     use_cache := false; sc_verify := true; rollback_days := 2; poll_seconds := 300; discovery_timeout_seconds := 30; discovery_probe_timeout_seconds := 6;
     sc_max_concurrent_jobs := 2; max_concurrent_hours := 2; sc_max_queued_jobs := 128; free_space_reserve_bytes := 10 * 1024 * 1024 * 1024;
     retry := retry_config_default; retention := retention_config_default; origin_catalog_plan := None |}.

Definition retry_config_policy (c : RetryConfig) : SchedulerResult RetryPolicy :=
  _ ← reject (50 <? jitter_percent c) (InvalidConfig "retry jitter_percent must be in 0..=50");
  retry_policy_new (rt_max_attempts c) (rt_initial_backoff_seconds c) (rt_max_backoff_seconds c).

(** ** The models *)

Definition eq_ignore_ascii_case (a b : string) : bool := bool_decide (to_ascii_lowercase a = to_ascii_lowercase b).
Definition all_ready : string := "all_ready".

(** The loop over the explicit slugs. *)
Definition expand_step (acc : list ModelId * list ModelId) (slug : string) : SchedulerResult (list ModelId * list ModelId) :=
  let '(seen, models) := acc in
  model ← map_err Core (model_from_str slug);
  _ ← reject (negb (bool_decide (status (model_ingest_capability model) = Ready))) (UnsupportedModel model);
  _ ← reject (bset_contains model_cmp model seen) (InvalidConfig "duplicate model in allowlist");
  Ok (bset_insert model_cmp model seen, models ++ [model]).

Definition expanded_models (config : SchedulerConfig) : SchedulerResult (list ModelId) :=
  match sc_models config with
  | [slug] =>
      if eq_ignore_ascii_case slug all_ready
      then Ok (cap_model <$> List.filter (fun c => bool_decide (status c = Ready)) ((fun s => model_ingest_capability (ms_id s)) <$> MODELS))
      else '(_, models) ← rfold expand_step [slug] ([], []); Ok models
  | slugs =>
      _ ← reject (is_nil slugs || existsb (fun slug => eq_ignore_ascii_case slug all_ready) slugs)
            (InvalidConfig "models must be an explicit non-empty allowlist, or exactly ['all_ready']");
      '(_, models) ← rfold expand_step slugs ([], []); Ok models
  end.

Definition source_for (config : SchedulerConfig) (model : ModelId) : SchedulerResult (option SourceId) :=
  let value := match bmap_get str_compare (model_as_str model) (model_sources config) with Some s => Some s | None => sc_source config end in
  source ← rtraverse (fun s => map_err Core (source_from_str s)) value;
  _ ← reject (match source with Some s => negb (model_source_ingest_supported model s) | None => false end)
        (InvalidConfig "source is not supported by remote ingest for model");
  Ok source.

(** ** The profile of a model *)

Definition no_derived_full : IngestProfile :=
  {| level_step_hpa := level_step_hpa profile_full; volumes := volumes profile_full; surface_fields := surface_fields profile_full;
     derived := false; heavy := false |}.
(** The profile [auto] stands for. *)
Definition auto_profile (model : ModelId) : IngestProfile :=
  let ls := limitations (model_ingest_capability model) in
  if bool_decide (model = GdpsGeml) || bool_decide (model = EtaCptec8km) then profile_sounding
  else if has_limitation AnalysisOnly ls then profile_analysis
  else if has_limitation ProviderStatisticsOnly ls then surface_for_model model
  else if has_limitation SurfaceOnly ls || has_limitation TwoDimensionalStatisticsOnly ls then profile_surface
  else if has_limitation DerivedProductsDisabled ls then no_derived_full
  else profile_view.

(** The checks of [profile_for] on the profile it found. *)
Definition check_profile (model : ModelId) (profile : IngestProfile) : SchedulerResult unit :=
  let ls := limitations (model_ingest_capability model) in
  _ ← map_err InvalidConfig (profile_validate profile);
  let surface_only := has_limitation AnalysisOnly ls || has_limitation SurfaceOnly ls || has_limitation ProviderStatisticsOnly ls
                      || has_limitation TwoDimensionalStatisticsOnly ls in
  _ ← reject (surface_only && needs_prs profile) (InvalidConfig "profile requires pressure data but model is surface-only");
  _ ← reject (has_limitation TwoDimensionalStatisticsOnly ls && negb (bool_decide (profile = profile_surface)))
        (InvalidConfig "profile is incompatible with model, which requires the complete surface profile");
  _ ← reject (has_limitation ProviderStatisticsOnly ls && negb (bool_decide (profile = surface_for_model model)))
        (InvalidConfig "profile is incompatible with model, which requires its complete typed provider-statistics profile");
  reject (has_limitation DerivedProductsDisabled ls && (derived profile || heavy profile))
    (InvalidConfig "profile enables derived diagnostics forbidden for model").

Definition requested_profile (config : SchedulerConfig) (model : ModelId) : string :=
  default (sc_profile config) (bmap_get str_compare (model_as_str model) (model_profiles config)).
Definition profile_for (config : SchedulerConfig) (model : ModelId) : SchedulerResult IngestProfile :=
  let requested := requested_profile config model in
  profile ← (if bool_decide (requested = "auto") then Ok (auto_profile model)
             else if bool_decide (requested = "surface") then Ok (surface_for_model model)
             else map_err InvalidConfig (preset requested));
  _ ← check_profile model profile;
  Ok profile.

(** ** Validation *)

Definition is_absolute (path : list ascii) : bool := match components path with RootDir :: _ => true | _ => false end.
#[global] Instance Component_eq_dec : EqDecision Component.
Proof. solve_decision. Defined.
(** [Path::starts_with], component by component. *)
Definition path_starts_with (path base : list ascii) : bool :=
  bool_decide (take (length (components base)) (components path) = components base).

Definition validate_root_path (path : list ascii) : SchedulerResult unit :=
  _ ← reject (negb (is_absolute path) || bool_decide (path = [])) (InvalidConfig "root must be an absolute path");
  reject (existsb (fun c => match c with ParentDir | CurDir => true | _ => false end) (components path))
    (InvalidConfig "root must not contain '.' or '..' components").

(** Every root against the later ones. *)
Fixpoint check_nesting (roots : list (list ascii)) : SchedulerResult unit :=
  match roots with
  | [] => Ok tt
  | root :: roots =>
      _ ← rfold (fun _ other => reject (path_starts_with root other || path_starts_with other root)
                   (InvalidConfig "scheduler roots must be distinct and non-nested")) roots tt;
      check_nesting roots
  end.

Definition check_key (allowed : list ModelId) (key : string) : SchedulerResult unit :=
  model ← map_err Core (model_from_str key);
  reject (negb (bool_decide (key = model_as_str model)) || negb (bset_contains model_cmp model allowed))
    (InvalidConfig "per-model key must be a canonical slug in the configured allowlist").

Definition config_validate (config : SchedulerConfig) : SchedulerResult unit :=
  let roots := [store_root config; cache_root config; state_root config] in
  _ ← rfold (fun _ path => validate_root_path path) roots tt;
  _ ← check_nesting roots;
  _ ← expanded_models config;
  _ ← retry_config_policy (retry config);
  _ ← limits_new (sc_max_concurrent_jobs config) (sc_max_queued_jobs config);
  _ ← reject (max_concurrent_hours config =? 0) (InvalidConfig "max_concurrent_hours must be greater than zero");
  _ ← reject (poll_seconds config =? 0) (InvalidConfig "poll_seconds must be greater than zero");
  _ ← reject ((discovery_timeout_seconds config =? 0) || (3600 <? discovery_timeout_seconds config))
        (InvalidConfig "discovery_timeout_seconds must be in 1..=3600");
  _ ← reject ((discovery_probe_timeout_seconds config =? 0) || (discovery_timeout_seconds config <? discovery_probe_timeout_seconds config))
        (InvalidConfig "discovery_probe_timeout_seconds must be in 1..=the total discovery budget");
  _ ← reject (14 <? rollback_days config) (InvalidConfig "rollback_days must be in 0..=14");
  _ ← reject (keep_latest_per_model (retention config) =? 0) (InvalidConfig "retention.keep_latest_per_model must be greater than zero");
  expanded ← expanded_models config;
  capacity ← ok_or (checked_add64 (sc_max_concurrent_jobs config) (sc_max_queued_jobs config))
               (InvalidConfig "max_concurrent_jobs + max_queued_jobs overflows usize");
  _ ← reject (capacity <? Z.of_nat (length expanded)) (InvalidConfig "configured models exceed max_concurrent_jobs + max_queued_jobs");
  let allowed := bset_of model_cmp expanded in
  _ ← match origin_catalog_plan config with
      | Some origin =>
          _ ← validate_for_models origin allowed;
          required ← ok_or (checked_mul64 (Z.of_nat (length (lanes origin))) (previous_generations origin + 1))
                       (InvalidConfig "origin catalog durable-state capacity overflows usize");
          _ ← reject (capacity <? required) (InvalidConfig "origin catalog requires more capacity for active and rollback generations");
          rfold (fun _ lane => profile ← profile_for config (lane_model lane); validate_profile lane profile) (lanes origin) tt
      | None => Ok tt
      end;
  _ ← rfold (fun _ key => check_key allowed key) ((model_profiles config).*1 ++ (model_sources config).*1) tt;
  rfold (fun _ model => _ ← profile_for config model; _ ← source_for config model; Ok tt) expanded tt.

(** ** What a valid configuration gives *)

Lemma ready_fetches model : status (model_ingest_capability model) = Ready -> exists plan, fetch_plan model = Some plan.
Proof. unfold model_ingest_capability. destruct (fetch_plan model); [by eexists|done]. Qed.

Lemma expand_ready slugs acc seen models : rfold expand_step slugs acc = Ok (seen, models) ->
  forall m, m ∈ models -> m ∈ acc.2 \/ status (model_ingest_capability m) = Ready.
Proof.
  revert acc. induction slugs as [|slug slugs IH]; intros [seen0 models0] E m Hm; [injection E as <- <-; by left|]. cbn [rfold] in E. bind_step E E1.
  destruct (IH _ E m Hm) as [Hin|?]; [|by right]. unfold expand_step in E1. bind_step E1 E2. bind_step E1 E3. bind_step E1 E4. injection E1 as <-. cbn [snd] in *.
  apply reject_inv, negb_false_iff, bool_decide_eq_true in E3. apply elem_of_app in Hin as [?| ->%list_elem_of_singleton]; [by left|by right].
Qed.

Lemma capability_model model : cap_model (model_ingest_capability model) = model.
Proof. unfold model_ingest_capability. by destruct (fetch_plan model). Qed.

Lemma expanded_ready config models m : expanded_models config = Ok models -> m ∈ models -> status (model_ingest_capability m) = Ready.
Proof.
  assert (Hex : forall slugs models, ('(_, models) ← rfold expand_step slugs ([], []); Ok models) = Ok models -> m ∈ models -> status (model_ingest_capability m) = Ready).
  { intros slugs ms E Hm. bind_step E E1. destruct a as [seen ms']. injection E as ->. destruct (expand_ready _ _ _ _ E1 m Hm) as [Hx|?]; [|done]. by apply not_elem_of_nil in Hx. }
  unfold expanded_models. destruct (sc_models config) as [|slug [|slug' slugs]].
  - done.
  - destruct (eq_ignore_ascii_case slug all_ready); [|by apply Hex]. set (ready := cap_model <$> _). intros E Hin. injection E as <-. unfold ready in Hin.
    apply list_elem_of_fmap in Hin as (c & -> & Hc). apply list_elem_of_In, filter_In in Hc as [Hc Hs%bool_decide_eq_true].
    apply list_elem_of_In, list_elem_of_fmap in Hc as (sm & -> & _). by rewrite capability_model.
  - intros E Hin. bind_step E E1. exact (Hex _ _ E Hin).
Qed.

(** A model without a pressure product is marked as one of the surface kinds. *)
Lemma surface_models_marked model : status (model_ingest_capability model) = Ready -> existsb pressure_source (products (model_ingest_capability model)) = false ->
  let ls := limitations (model_ingest_capability model) in
  has_limitation AnalysisOnly ls || has_limitation SurfaceOnly ls || has_limitation ProviderStatisticsOnly ls || has_limitation TwoDimensionalStatisticsOnly ls = true.
Proof. destruct model; vm_compute; done. Qed.

(** The two copies of the profile checks agree. *)
Lemma checked_profile_admitted model profile u : status (model_ingest_capability model) = Ready -> check_profile model profile = Ok u ->
  validate_profile_for_capability model profile (limitations (model_ingest_capability model)) = Ok tt.
Proof.
  intros Hr. unfold check_profile, validate_profile_for_capability. intros E. destruct (profile_validate profile) as [[]| |]; [|done..]. cbn [map_err mbind result_bind] in *.
  bind_step E E1. apply reject_inv in E1. bind_step E E2. apply reject_inv in E2. bind_step E E3. apply reject_inv in E3. apply reject_inv in E.
  destruct (existsb pressure_source _) eqn:Ep.
  - rewrite andb_false_r. cbn [negb reject mbind result_bind]. rewrite E2. cbn [reject mbind result_bind]. rewrite E3. cbn [reject mbind result_bind]. by rewrite E.
  - pose proof (surface_models_marked model Hr Ep) as Hm. cbv zeta in Hm. rewrite Hm in E1. cbn [andb] in E1. rewrite E1. cbn [negb andb reject mbind result_bind].
    rewrite E2. cbn [reject mbind result_bind]. rewrite E3. cbn [reject mbind result_bind]. by rewrite E.
Qed.

Lemma config_resolves config models model u : config_validate config = Ok u -> expanded_models config = Ok models -> model ∈ models ->
  exists profile source, profile_for config model = Ok profile /\ source_for config model = Ok source
  /\ forall origin lane, origin_catalog_plan config = Some origin -> lane ∈ lanes origin -> lane_model lane = model -> validate_profile lane profile = Ok tt.
Proof.
  intros Hv Hm Hin. unfold config_validate in Hv. cbv zeta in Hv. bind_step Hv E1. bind_step Hv E2. rewrite Hm in Hv. cbn [mbind result_bind] in Hv.
  bind_step Hv E3. bind_step Hv E4. bind_step Hv E5. bind_step Hv E6. bind_step Hv E7. bind_step Hv E8. bind_step Hv E9. bind_step Hv E10.
  bind_step Hv E11. bind_step Hv E12. bind_step Hv Eo. bind_step Hv E13. pose proof (rfold_unit_ok _ _ _ Hv model Hin) as Hx. cbn beta in Hx.
  bind_step Hx F1. bind_step Hx F2. eexists _, _. split; [done|]. split; [done|]. intros origin lane Hor Hlane <-. rewrite Hor in Eo.
  bind_step Eo G1. bind_step Eo G2. bind_step Eo G3. pose proof (rfold_unit_ok _ _ _ Eo lane Hlane) as Hy. cbn beta in Hy. by rewrite F1 in Hy.
Qed.

(** C12: a configuration that validates can plan. For every model of its
    allowlist, the profile and the source resolve; at every cycle hour of the
    model and on every date, a plan is built with that profile, from the
    configured source and from any source discovery may return; the ingest
    accepts the profile; and every origin lane of the model does. *)
Theorem valid_config_plans config models model y m d h u :
  config_validate config = Ok u -> expanded_models config = Ok models -> model ∈ models -> valid_date y m d -> h ∈ model_cycle_hours model ->
  exists profile source, profile_for config model = Ok profile /\ source_for config model = Ok source
  /\ (forall s, s = source \/ (exists src, s = Some src /\ model_source_ingest_supported model src = true) ->
       exists plan, build_with_profile_and_source model (cycle_of y m d h) profile s = Ok plan)
  /\ validate_ingest_profile_for_model model profile = Ok tt
  /\ forall origin lane, origin_catalog_plan config = Some origin -> lane ∈ lanes origin -> lane_model lane = model -> validate_profile lane profile = Ok tt.
Proof.
  intros Hv Hm Hin Hd Hh. pose proof (expanded_ready _ _ _ Hm Hin) as Hr. destruct (ready_fetches _ Hr) as [products Hf].
  destruct (config_resolves _ _ _ _ Hv Hm Hin) as (profile & source & Hp & Hs & Hl). exists profile, source. split; [done|]. split; [done|].
  assert (Hadm : validate_profile_for_capability model profile (limitations (model_ingest_capability model)) = Ok tt).
  { unfold profile_for in Hp. bind_step Hp E1. bind_step Hp E2. injection Hp as ->. by eapply checked_profile_admitted. }
  split; [|split; [by eapply admitted_profile_ingests|]].
  - intros s Hsrc. unfold model_cycle_hours in Hh. destruct (summary_of model) as [summary|] eqn:Es; [|by apply not_elem_of_nil in Hh].
    eapply admitted_plan_builds; [done|exact Es|done|done|done|].
    unfold validate_source_for_model. destruct Hsrc as [->|(src & -> & Hsup)]; [|by rewrite Hsup].
    destruct source as [src|]; [|done]. unfold source_for in Hs. bind_step Hs E1. bind_step Hs E2. injection Hs as ->. apply reject_inv in E2. by rewrite E2.
  - intros origin lane Ho Hlane Hmod. exact (Hl origin lane Ho Hlane Hmod).
Qed.

(** ** Examples *)

(** The defaults with the roots, an allowlist and the origin's lanes. *)
Definition sample_config : SchedulerConfig :=
  let d := scheduler_config_default in
  {| store_root := bytes "/srv/store"; cache_root := bytes "/srv/cache"; state_root := bytes "/srv/state"; sc_models := ["hrrr"; "gfs"; "nbm"]%string;
     sc_source := None; model_sources := []; sc_profile := sc_profile d; model_profiles := []; use_cache := use_cache d; sc_verify := sc_verify d;
     rollback_days := rollback_days d; poll_seconds := poll_seconds d; discovery_timeout_seconds := discovery_timeout_seconds d;
     discovery_probe_timeout_seconds := discovery_probe_timeout_seconds d; sc_max_concurrent_jobs := sc_max_concurrent_jobs d;
     max_concurrent_hours := max_concurrent_hours d; sc_max_queued_jobs := sc_max_queued_jobs d; free_space_reserve_bytes := free_space_reserve_bytes d;
     retry := retry d; retention := {| retention_enabled := true; retention_dry_run := false; keep_latest_per_model := 1 |}; origin_catalog_plan := Some sample_origin |}.

Theorem valid_config_plans_witness : exists profile source plan, profile_for sample_config Nbm = Ok profile /\ source_for sample_config Nbm = Ok source
  /\ build_with_profile_and_source Nbm (cycle_of 2024 2 29 7) profile source = Ok plan.
Proof.
  destruct (valid_config_plans sample_config [Hrrr; Gfs; Nbm] Nbm 2024 2 29 7 tt) as (profile & source & H1 & H2 & H3 & _).
  - vm_compute. reflexivity.
  - vm_compute. reflexivity.
  - right. right. left.
  - vm_compute. repeat split; discriminate.
  - apply (bool_decide_unpack _). vm_compute. exact I.
  - destruct (H3 source (or_introl eq_refl)) as [plan Hp]. exists profile, source, plan. split; [exact H1|]. split; [exact H2|exact Hp].
Defined.
