(* ===== verification/Purge.v ===== *)
(** * Executing a retention plan

    [crates/rw-scheduler/src/retention.rs]: the ownership marker of a run
    directory, and the pass that removes the runs a plan lists. A run is only
    removed when its record is terminal, its marker names the job of the
    record and no writer holds its lock. *)
From Stdlib Require Import ZArith Lia Ascii String.
From stdpp Require Import base list strings numbers sorting gmap.
From S2P Require Import Prelude F32 Format Text Order Ids Cycle Models Profile Capability Plan Manifest Coverage Jobs Atomic StateStore Retention.

Local Open Scope Z_scope.

Definition OWNER_FILE : string := ".rw-scheduler-owner.json".
Definition OWNER_SCHEMA : string := "rw-scheduler.owner.v1".
Definition PURGED_FILE : string := ".rw-scheduler-purged.json".

Record OwnerMarker := { ow_schema : string; ow_job_id : string; ow_model : ModelId; ow_run_id : string }.
#[global] Instance OwnerMarker_eq_dec : EqDecision OwnerMarker.
Proof. solve_decision. Defined.

Class OwnerJson := {
  owner_to_vec_pretty : OwnerMarker -> SchedulerResult (list byte);
  owner_from_slice : list byte -> SchedulerResult OwnerMarker
}.
Class OwnerJsonLaws `{OwnerJson} := {
  owner_json_roundtrip : forall o bytes, owner_to_vec_pretty o = Ok bytes -> owner_from_slice bytes = Ok o
}.

(** The directories of the runs in the store root, by model directory and
    name. The root and the model directories are real directories, a link
    leads to something that exists, and the lock file of a run is not counted
    among its entries. *)
Inductive RunNode := RunLink | RunSpecial | RunDirectory (entries : gmap string DirEntry).
Abbreviation StoreTree := (gmap (string * string) RunNode).
Definition run_dir (model : ModelId) (id : string) : string * string := (model_as_str model, id).
Definition record_dir (r : JobRecord) : string * string := run_dir (jp_model (jr_plan r)) (run_id (jr_plan r)).

Record RetentionExecution := {
  ex_dry_run : bool;
  ex_candidates : list RunKey;
  ex_deleted : list RunKey;
  state_prunable : list RunKey;
  ex_skipped : list RunKey
}.

Section purge.
Context `{OwnerJson} {faults : WriteFaults}.

(** [load_owner]. *)
Definition load_owner (entries : gmap string DirEntry) : SchedulerResult OwnerMarker :=
  match entries !! OWNER_FILE with
  | None => Err (SchedulerIo "not found")
  | Some (RegularFile content) =>
      _ ← reject (16 * 1024 <? Z.of_nat (length content)) (InvalidState "owner marker is not a bounded regular file");
      owner ← owner_from_slice content;
      _ ← reject (negb (bool_decide (ow_schema owner = OWNER_SCHEMA))) (InvalidState "owner marker has an unsupported schema");
      Ok owner
  | Some _ => Err (InvalidState "owner marker is not a bounded regular file")
  end.

Definition expected_owner (r : JobRecord) : OwnerMarker :=
  {| ow_schema := OWNER_SCHEMA; ow_job_id := job_id (jr_plan r); ow_model := jp_model (jr_plan r); ow_run_id := run_id (jr_plan r) |}.

(** [ensure_owner_marker]: a directory that was there without a marker is not
    claimed, unless it is empty. The marker is written with the faults of the
    file system. *)
Definition ensure_owner_marker (record : JobRecord) (tree : StoreTree) : SchedulerResult unit * StoreTree :=
  let dir := record_dir record in
  let tree := match tree !! dir with None => <[dir := RunDirectory ∅]> tree | Some _ => tree end in
  match tree !! dir with
  | Some (RunDirectory entries) =>
      if bool_decide (is_Some (entries !! OWNER_FILE)) then
        ((actual ← load_owner entries;
          reject (negb (bool_decide (actual = expected_owner record))) (InvalidState "run has a different scheduler owner")), tree)
      else if negb (bool_decide (entries = ∅)) then (Err (InvalidState "run exists without scheduler ownership"), tree)
      else match owner_to_vec_pretty (expected_owner record) with
           | Ok bytes => let '(r, entries) := replace_entry OWNER_FILE bytes entries in (map_err Store r, <[dir := RunDirectory entries]> tree)
           | Err e => (Err e, tree)
           | Panic => (Panic, tree)
           end
  | _ => (Err (InvalidState "run must be a real directory"), tree)
  end.

(** [revalidate_owned_run]. *)
Definition revalidate_owned_run (record : JobRecord) (node : option RunNode) : SchedulerResult unit :=
  _ ← map_err Store (validate_store_component (model_as_str (jp_model (jr_plan record))));
  _ ← map_err Store (validate_store_component (run_id (jr_plan record)));
  match node with
  | None => Err (SchedulerIo "not found")
  | Some (RunDirectory entries) =>
      owner ← load_owner entries;
      reject (negb (bool_decide (ow_job_id owner = job_id (jr_plan record))) || negb (bool_decide (ow_model owner = jp_model (jr_plan record)))
              || negb (bool_decide (ow_run_id owner = run_id (jr_plan record)))) (InvalidState "retention target is not owned by job")
  | Some _ => Err (InvalidState "retention target must be a real directory")
  end.

(** [by_key.get]: the records collected into a map, where a later one wins. *)
Definition record_run_key (r : JobRecord) : RunKey := {| rk_model := jp_model (jr_plan r); rk_run_id := run_id (jr_plan r) |}.
Definition records_by_key (records : list JobRecord) : SchedulerResult (list (RunKey * JobRecord)) :=
  rfold (fun m record => key ← run_key_new (jp_model (jr_plan record)) (run_id (jr_plan record)); Ok (bmap_insert retention_key_cmp key record m)) records [].

Context (lock_held : string * string -> bool) (pid : Z).
Definition tombstone (key : RunKey) : string * string :=
  (model_as_str (rk_model key), of_bytes (bytes ".rw-scheduler-delete-" ++ bytes (rk_run_id key) ++ [chr 45] ++ fmt_padded 1 pid)).
Definition is_file (o : option DirEntry) : bool := match o with Some (RegularFile _) => true | _ => false end.

(** One candidate. The report keeps the keys instead of their labels. The
    rename of the run to its tombstone and the removal of the tombstone are
    one step that does not fail; when the removal fails in the code, the run is
    gone as here, the tombstone stays and the pass ends with an error. *)
Definition purge_one (by_key : list (RunKey * JobRecord)) (dry_run : bool) (key : RunKey) (report : RetentionExecution) (tree : StoreTree)
    : SchedulerResult RetentionExecution * StoreTree :=
  let report := {| ex_dry_run := ex_dry_run report; ex_candidates := ex_candidates report ++ [key]; ex_deleted := ex_deleted report;
                   state_prunable := state_prunable report; ex_skipped := ex_skipped report |} in
  let skip prune := {| ex_dry_run := ex_dry_run report; ex_candidates := ex_candidates report; ex_deleted := ex_deleted report;
                       state_prunable := if prune : bool then state_prunable report ++ [key] else state_prunable report;
                       ex_skipped := ex_skipped report ++ [key] |} in
  match bmap_get retention_key_cmp key by_key with
  | None => (Err (InvalidState "retention candidate has no scheduler state"), tree)
  | Some record =>
      if is_active (jr_state record) then (Err (InvalidState "retention candidate became active"), tree) else
      let dir := run_dir (rk_model key) (rk_run_id key) in
      match tree !! dir with
      | None => (Ok (skip (negb dry_run)), tree)
      | Some node =>
          match revalidate_owned_run record (Some node) with
          | Err e => (Err e, tree)
          | Panic => (Panic, tree)
          | Ok _ =>
              if is_file (match node with RunDirectory entries => entries !! PURGED_FILE | _ => None end) then (Ok (skip (negb dry_run)), tree) else
              if dry_run then (Ok report, tree) else
              if lock_held dir then (Ok (skip false), tree) else
              if bool_decide (is_Some (tree !! tombstone key)) then (Err (InvalidState "retention tombstone already exists"), tree) else
              (Ok {| ex_dry_run := ex_dry_run report; ex_candidates := ex_candidates report; ex_deleted := ex_deleted report ++ [key];
                     state_prunable := state_prunable report ++ [key]; ex_skipped := ex_skipped report |}, base.delete dir tree)
          end
      end
  end.

Fixpoint purge_each (by_key : list (RunKey * JobRecord)) (dry_run : bool) (keys : list RunKey) (report : RetentionExecution) (tree : StoreTree)
    : SchedulerResult RetentionExecution * StoreTree :=
  match keys with
  | [] => (Ok report, tree)
  | key :: keys =>
      match purge_one by_key dry_run key report tree with
      | (Ok report, tree) => purge_each by_key dry_run keys report tree
      | (Err e, tree) => (Err e, tree)
      | (Panic, tree) => (Panic, tree)
      end
  end.

Definition execute_retention (records : list JobRecord) (plan : RetentionPlan) (dry_run : bool) (tree : StoreTree)
    : SchedulerResult RetentionExecution * StoreTree :=
  match records_by_key records with
  | Ok by_key =>
      purge_each by_key dry_run (Retention.delete plan)
        {| ex_dry_run := dry_run; ex_candidates := []; ex_deleted := []; state_prunable := []; ex_skipped := [] |} tree
  | Err e => (Err e, tree)
  | Panic => (Panic, tree)
  end.

(** ** What a pass removes *)

(** A run that a pass may remove. *)
Record removable (records : list JobRecord) (plan : RetentionPlan) (dir : string * string) (node : RunNode) (record : JobRecord) : Prop := {
  rm_record : record ∈ records;
  rm_dir : dir = record_dir record;
  rm_planned : record_run_key record ∈ Retention.delete plan;
  rm_terminal : is_active (jr_state record) = false;
  rm_unlocked : lock_held dir = false;
  rm_owned : exists entries owner, node = RunDirectory entries /\ load_owner entries = Ok owner /\ owner = expected_owner record
}.

Lemma by_key_elem records by_key : records_by_key records = Ok by_key -> bmap_wf retention_key_cmp by_key
  /\ forall key r, bmap_get retention_key_cmp key by_key = Some r -> r ∈ records /\ key = record_run_key r.
Proof.
  revert by_key. induction records as [|r records IH] using rev_ind; intros m E; [injection E as <-; split; [constructor|done]|].
  unfold records_by_key in *. rewrite rfold_app in E. bind_step E E1. destruct (IH _ eq_refl) as [Hw Hg]. cbn [rfold mbind result_bind] in E. bind_step E E2.
  injection E as <-. bind_step E2 E3. injection E2 as <-. unfold run_key_new in E3. bind_step E3 E4. injection E3 as <-.
  fold (record_run_key r). split; [by apply (bmap_alter_wf retention_key_cmp)|]. intros key x Hx. unfold bmap_insert in Hx.
  destruct (decide (key = record_run_key r)) as [->|Hne].
  - rewrite (bmap_get_alter retention_key_cmp) in Hx by done. injection Hx as <-. split; [apply elem_of_app; right; by left|done].
  - rewrite (bmap_get_alter_ne retention_key_cmp) in Hx by done. apply Hg in Hx as [? ->]. split; [apply elem_of_app; by left|done].
Qed.

Lemma revalidated_owner record node u : revalidate_owned_run record (Some node) = Ok u ->
  exists entries owner, node = RunDirectory entries /\ load_owner entries = Ok owner /\ owner = expected_owner record.
Proof.
  unfold revalidate_owned_run. intros E. bind_step E E1. bind_step E E2. destruct node as [| |entries]; try done. bind_step E E3. apply reject_inv in E.
  apply orb_false_iff in E as [[H1 H2]%orb_false_iff H3]. apply negb_false_iff, bool_decide_eq_true in H1, H2, H3. exists entries, a1. split; [done|]. split; [done|].
  unfold load_owner in E3. destruct (entries !! OWNER_FILE) as [[content| | |]|]; try done. bind_step E3 F1. bind_step E3 F2. bind_step E3 F3. injection E3 as ->.
  apply reject_inv, negb_false_iff, bool_decide_eq_true in F3. unfold expected_owner. destruct a1; cbn in *. by subst.
Qed.

Lemma purge_one_inv by_key dry key report tree r tree' : purge_one by_key dry key report tree = (r, tree') ->
  tree' = tree \/ (dry = false /\ tree' = base.delete (run_dir (rk_model key) (rk_run_id key)) tree /\ exists record node,
    bmap_get retention_key_cmp key by_key = Some record /\ is_active (jr_state record) = false /\ tree !! run_dir (rk_model key) (rk_run_id key) = Some node
    /\ revalidate_owned_run record (Some node) = Ok tt /\ lock_held (run_dir (rk_model key) (rk_run_id key)) = false).
Proof.
  unfold purge_one. intros E. destruct (bmap_get _ key by_key) as [record|]; [|injection E as <- <-; by left].
  destruct (is_active (jr_state record)) eqn:Ea; [injection E as <- <-; by left|]. destruct (tree !! _) as [node|] eqn:En; [|injection E as <- <-; by left].
  destruct (revalidate_owned_run record (Some node)) as [[]| |] eqn:Ev; [|injection E as <- <-; by left..].
  destruct (is_file _); [injection E as <- <-; by left|]. destruct dry; [injection E as <- <-; by left|]. destruct (lock_held _) eqn:El; [injection E as <- <-; by left|].
  destruct (bool_decide _); [injection E as <- <-; by left|]. injection E as <- <-. right. split; [done|]. split; [done|]. by exists record, node.
Qed.

(** The tree after a pass: some removable runs are gone, the rest is as it was. *)
Definition only_removed (records : list JobRecord) (plan : RetentionPlan) (dry : bool) (tree tree' : StoreTree) : Prop :=
  forall dir, tree' !! dir = tree !! dir
    \/ (tree' !! dir = None /\ dry = false /\ exists node record, tree !! dir = Some node /\ removable records plan dir node record).

Lemma purge_each_inv records by_key plan dry keys report tree r tree' : records_by_key records = Ok by_key -> (forall k, k ∈ keys -> k ∈ Retention.delete plan) ->
  purge_each by_key dry keys report tree = (r, tree') -> only_removed records plan dry tree tree'.
Proof.
  intros Hb. revert report tree. induction keys as [|key keys IH]; intros report tree Hk E; [injection E as <- <-; by left|]. cbn [purge_each] in E.
  destruct (purge_one by_key dry key report tree) as [x t1] eqn:E1.
  assert (H1 : only_removed records plan dry tree t1).
  { destruct (purge_one_inv _ _ _ _ _ _ _ E1) as [->|(Hd & -> & record & node & Hg & Ha & Hn & Hv & Hl)]; [by left|]. intros dir.
    destruct (decide (dir = run_dir (rk_model key) (rk_run_id key))) as [->|Hne]; [right|left; by rewrite lookup_delete_ne].
    rewrite lookup_delete_eq. split; [done|]. split; [done|]. exists node, record. split; [done|]. destruct (by_key_elem _ _ Hb) as [_ Hbe]. apply Hbe in Hg as [Hin ->].
    split; try done; [apply Hk; left|by eapply revalidated_owner]. }
  assert (H2 : forall report', purge_each by_key dry keys report' t1 = (r, tree') -> only_removed records plan dry tree tree').
  { intros report' E2. apply IH in E2; [|intros k Hk'; apply Hk; by right]. intros dir. destruct (E2 dir) as [->|(Hn & Hd & node & record & Ht & Hr)]; [apply H1|].
    destruct (H1 dir) as [Eq|(Hn1 & _)]; [|congruence]. right. split; [done|]. split; [done|]. exists node, record. by rewrite <- Eq. }
  destruct x; [by eapply H2|injection E as <- <-; done..].
Qed.

Lemma execute_retention_inv records plan dry tree r tree' : execute_retention records plan dry tree = (r, tree') -> only_removed records plan dry tree tree'.
Proof.
  unfold execute_retention. destruct (records_by_key records) as [by_key| |] eqn:E; [|intros [= <- <-]; by left..]. intros E1.
  by apply (purge_each_inv records by_key plan dry) in E1.
Qed.

(** C9: a retention pass removes only what the scheduler owns. Whether it
    succeeds or stops at an error, a dry run changes nothing, and any run
    directory that is gone belonged to a terminal record that the plan lists
    for deletion, carried the ownership marker of exactly that job and was
    not locked by a writer; every other directory is as it was. *)
Theorem retention_removes_only_owned records plan dry tree r tree' : execute_retention records plan dry tree = (r, tree') ->
  forall dir, tree' !! dir = tree !! dir
    \/ (tree' !! dir = None /\ dry = false /\ exists node record, tree !! dir = Some node /\ removable records plan dir node record).
Proof. apply execute_retention_inv. Qed.

(** A directory that was claimed for a job is owned by it. *)
Lemma claimed_is_owned `{!OwnerJsonLaws} record tree tree' : ensure_owner_marker record tree = (Ok tt, tree') ->
  (forall bytes, owner_to_vec_pretty (expected_owner record) = Ok bytes -> Z.of_nat (length bytes) <= 16 * 1024) ->
  exists entries, tree' !! record_dir record = Some (RunDirectory entries) /\ load_owner entries = Ok (expected_owner record).
Proof.
  intros E Hlen. unfold ensure_owner_marker in E.
  set (t1 := match tree !! record_dir record with None => _ | Some _ => _ end) in E. destruct (t1 !! record_dir record) as [[| |entries]|] eqn:En; try done.
  case_bool_decide as Ho.
  - injection E as E1 <-. bind_step E1 F1. apply reject_inv, negb_false_iff, bool_decide_eq_true in E1 as ->. by exists entries.
  - destruct (negb _); [done|]. destruct (owner_to_vec_pretty _) as [bytes| |] eqn:Eb; [|done..]. destruct (replace_entry OWNER_FILE bytes entries) as [x entries'] eqn:Er.
    assert (entries' = <[OWNER_FILE := RegularFile bytes]> entries) as -> by (apply (replace_ok _ _ _ _ _ Er); destruct x as [[]| |]; by injection E).
    assert (tree' = <[record_dir record := RunDirectory (<[OWNER_FILE := RegularFile bytes]> entries)]> t1) as -> by (by injection E).
    eexists. rewrite lookup_insert_eq. split; [done|]. unfold load_owner. rewrite lookup_insert_eq.
    rewrite (proj2 (Z.ltb_ge _ _)) by (apply Hlen; done). cbn [reject mbind result_bind]. rewrite (owner_json_roundtrip _ _ Eb). cbn [mbind result_bind].
    by rewrite bool_decide_eq_true_2.
Qed.
End purge.

(** ** Examples *)

(** A finished run with its marker, and an encoding that knows the marker. *)
Definition purged_record : JobRecord := finished_record (jr_plan running_record).
Definition one_owner : OwnerJson := {|
  owner_to_vec_pretty := fun o => if bool_decide (o = expected_owner purged_record) then Ok [Byte.x6f] else Err (Json "unknown");
  owner_from_slice := fun bs => if bool_decide (bs = [Byte.x6f]) then Ok (expected_owner purged_record) else Err (Json "unknown")
|}.
Definition sample_tree : StoreTree :=
  <[record_dir purged_record := RunDirectory {[ OWNER_FILE := RegularFile [Byte.x6f] ]}]> (<[("rtma", "other")%string := RunDirectory ∅]> ∅).
Definition sample_deletion : RetentionPlan := {| keep := []; delete := [record_run_key purged_record] |}.

Definition sample_purge : SchedulerResult RetentionExecution * StoreTree :=
  @execute_retention one_owner (fun _ => false) 7 [purged_record] sample_deletion false sample_tree.
Lemma sample_purge_removes : bool_decide (is_Some (sample_purge.2 !! record_dir purged_record)) = false /\ bool_decide (is_Some (sample_tree !! record_dir purged_record)) = true.
Proof. vm_compute. split; reflexivity. Qed.

Theorem retention_removes_only_owned_witness : exists r tree', sample_purge = (r, tree') /\ tree' !! record_dir purged_record = None
  /\ exists node record, sample_tree !! record_dir purged_record = Some node /\ @removable one_owner (fun _ => false) [purged_record] sample_deletion (record_dir purged_record) node record.
Proof.
  pose proof sample_purge_removes as [Hgone Hthere]. destruct sample_purge as [r tree'] eqn:E. exists r, tree'. split; [reflexivity|]. cbn [snd] in Hgone. unfold sample_purge in E.
  destruct (@retention_removes_only_owned one_owner (fun _ => false) 7 [purged_record] sample_deletion false sample_tree r tree' E (record_dir purged_record)) as [H|(H1 & _ & H2)].
  - exfalso. rewrite H, Hthere in Hgone. discriminate Hgone.
  - split; [exact H1|exact H2].
Defined.
