(* ===== verification/Executor.v ===== *)
(** * A pass of the scheduler

    [crates/rw-scheduler/src/executor.rs]: [run_once_at] and what it calls.
    A pass recovers the records, admits the discovered cycles, executes what
    is due in chunks, refreshes the public catalog and runs retention. What
    happens outside the process comes in as parameters: the results of
    discovery, of deep validation and of the ingest, the clock, the free
    space and the moments at which a shutdown is seen. *)
From Stdlib Require Import ZArith Lia Ascii String.
From stdpp Require Import base list strings numbers sorting gmap.
From S2P Require Import Prelude F32 Format Text Order Ids Cycle Models Profile Capability Plan Manifest Coverage Jobs Atomic StateStore Retention Origin Config Purge.

Local Open Scope Z_scope.

(** ** The retry delay *)

(** One round of FNV-1a on [u64]. *)
Definition fnv_step (hash byte : Z) : Z := (Z.lxor hash byte * 0x100000001b3) mod u64_limit.
Definition fnv_hash (bytes : list Z) : Z := foldl fnv_step 0xcbf29ce484222325 bytes.

Definition deterministic_jittered_delay (policy : RetryPolicy) (attempt : Z) (key : string) (jitter_percent : Z) : SchedulerResult Z :=
  _ ← reject (50 <? jitter_percent) (InvalidConfig "jitter_percent must be in 0..=50");
  base ← delay_after_attempt policy attempt;
  if jitter_percent =? 0 then Ok base else
  let hash := fnv_hash ((byte_val <$> bytes key) ++ (byte_to_Z <$> to_le 4 attempt)) in
  let span := saturating_mul64 base jitter_percent / 100 in
  if span =? 0 then Ok base else
  let width := Z.min (saturating_mul64 span 2 + 1) U64_MAX in
  let offset := hash mod width - span in
  let jittered := (Z.max (base + offset) 1) mod u64_limit in
  Ok (Z.min jittered (max_backoff_seconds policy)).

(** ** Gates *)

Definition space_gate (available reserve : Z) : SchedulerResult unit :=
  reject (available <? reserve) (Capacity "filesystem has too few bytes available").

(** What the file systems report. *)
Record Space := { sp_store : SchedulerResult Z; sp_cache : SchedulerResult Z; sp_used : SchedulerResult Z }.
Definition check_space (config : SchedulerConfig) (space : Space) : SchedulerResult unit :=
  available ← sp_store space;
  _ ← space_gate available (free_space_reserve_bytes config);
  _ ← (if use_cache config then available ← sp_cache space; space_gate available (free_space_reserve_bytes config) else Ok tt);
  match origin_catalog_plan config with
  | Some origin =>
      budget ← ok_or (disk_budget_bytes origin) (Capacity "origin catalog execution requires an audited disk budget");
      used ← sp_used space;
      reject (budget <? used) (Capacity "origin catalog store is above its audited budget")
  | None => Ok tt
  end.

Definition runtime_capacity (config : SchedulerConfig) : SchedulerResult Z :=
  match origin_catalog_plan config with
  | None => Ok (sc_max_concurrent_jobs config)
  | Some origin =>
      _ ← match capacity_audit origin with
          | AuditComplete => Ok tt
          | AuditPending => Err (Capacity "origin catalog execution is disabled until the capacity audit is complete")
          end;
      jobs ← ok_or (audited_jobs origin) (Capacity "origin catalog has no audited job-concurrency value");
      _ ← ok_or (disk_budget_bytes origin) (Capacity "origin catalog has no audited disk budget");
      Ok (Z.min (sc_max_concurrent_jobs config) jobs)
  end.

(** ** One job *)

(** What a job meets when it runs: the clock before and after, the outcome of
    [execute_running] (a panic is caught), the free space at the end, and
    whether a shutdown was requested by then. *)
Record JobWorld := { jw_started : Z; jw_finished : Z; jw_outcome : SchedulerResult RunCoverage; jw_space : Space; jw_cancelled : bool }.

(** The times still to be ingested: those without a validated slot. *)
Definition validated_times (existing : option RunCoverage) : list ValidTime :=
  match existing with
  | Some coverage => bset_diff valid_time_cmp (cov_present coverage) (bset_of valid_time_cmp (sm_expected <$> slot_mismatches coverage))
  | None => []
  end.
Definition missing_times (plan : JobPlan) (existing : option RunCoverage) : list ExpectedValidTime :=
  List.filter (fun e => negb (bset_contains valid_time_cmp (valid_time_from e) (validated_times existing))) (expected_valid_times plan).

Definition catch {A} (r : SchedulerResult A) : SchedulerResult A := match r with Panic => Err (IngestFailed "worker panicked") | r => r end.

Definition incomplete_text (coverage : RunCoverage) : string :=
  of_bytes (bytes "validated run remains incomplete (" ++ fmt_padded 1 (Z.of_nat (length (cov_present coverage))) ++ bytes " of "
            ++ fmt_padded 1 (Z.of_nat (length (cov_expected coverage))) ++ bytes " expected valid times present)").

(** [execute_one] up to the second save: the record as it is saved last. *)
Definition settle_record (config : SchedulerConfig) (policy : RetryPolicy) (world : JobWorld) (message : SchedulerError -> string) : job_op unit :=
  r ← self;
  match catch (jw_outcome world) with
  | Ok coverage =>
      if is_complete coverage then
        _ ← lift (check_space config (jw_space world));
        finish_success (jw_finished world) coverage
      else
        _ ← lift (validate_queryable_coverage (jr_plan r) coverage);
        delay ← lift (deterministic_jittered_delay policy (attempts r) (job_id (jr_plan r)) (jitter_percent (retry config)));
        finish_failure_with_delay (jw_finished world) (incomplete_text coverage) policy delay
  | Err error =>
      if jw_cancelled world then
        _ ← set_error (Some (of_bytes (bytes "shutdown: " ++ bytes (message error))));
        _ ← recover_after_restart (jw_finished world);
        mret tt
      else
        delay ← lift (deterministic_jittered_delay policy (attempts r) (job_id (jr_plan r)) (jitter_percent (retry config)));
        finish_failure_with_delay (jw_finished world) (message error) policy delay
  | Panic => lift Panic
  end.

(** The state of the host on disk. *)
Record Host := { jobs : StateRoot; catalog : gmap string DirEntry; tree : StoreTree }.

(** Operations on the host that may fail. *)
Definition host_op (A : Type) : Type := Host -> SchedulerResult A * Host.
#[global] Instance host_ret : MRet host_op := fun A a h => (Ok a, h).
#[global] Instance host_bind : MBind host_op := fun A B k op h =>
  match op h with
  | (Ok a, h') => k a h'
  | (Err e, h') => (Err e, h')
  | (Panic, h') => (Panic, h')
  end.
Definition pure {A} (x : SchedulerResult A) : host_op A := fun h => (x, h).
Definition on_jobs {A} (op : StateRoot -> SchedulerResult A * StateRoot) : host_op A := fun h =>
  let '(r, root) := op (jobs h) in (r, {| jobs := root; catalog := catalog h; tree := tree h |}).
Definition read_jobs {A} (f : StateRoot -> SchedulerResult A) : host_op A := fun h => (f (jobs h), h).
Definition on_catalog {A} (op : gmap string DirEntry -> SchedulerResult A * gmap string DirEntry) : host_op A := fun h =>
  let '(r, entries) := op (catalog h) in (r, {| jobs := jobs h; catalog := entries; tree := tree h |}).
Definition on_tree {A} (op : StoreTree -> SchedulerResult A * StoreTree) : host_op A := fun h =>
  let '(r, t) := op (tree h) in (r, {| jobs := jobs h; catalog := catalog h; tree := t |}).
Fixpoint host_fold {A B} (step : B -> A -> host_op B) (l : list A) (b : B) : host_op B :=
  match l with
  | [] => mret b
  | x :: l => b ← step b x; host_fold step l b
  end.

Record DiscoveredCycle := { dc_cycle : CycleSpec; dc_source : SourceId }.
(** A discovery: its key, the model, and the cycle or the text of the error. *)
Definition Discovery : Type := string * ModelId * (DiscoveredCycle + string).

Record ExecutionReport := {
  admitted : list string;
  skipped : list string;
  succeeded : list string;
  retrying : list string;
  failed : list string;
  discovery_errors : list (string * string);
  report_catalog : option OriginCatalogState;
  report_retention : option RetentionExecution
}.
Definition empty_report : ExecutionReport :=
  {| admitted := []; skipped := []; succeeded := []; retrying := []; failed := []; discovery_errors := []; report_catalog := None; report_retention := None |}.

Section host.
Context `{JobJson} `{ReadDir} `{CatalogJson} `{OwnerJson} {faults : WriteFaults}.
Context (config : SchedulerConfig) (verify : JobPlan -> SchedulerResult RunCoverage) (message : SchedulerError -> string).

Definition execute_one (world : JobWorld) (record : JobRecord) : host_op JobRecord :=
  policy ← pure (retry_config_policy (retry config));
  let '(r, record) := start (jw_started world) policy record in
  _ ← pure r;
  _ ← on_jobs (store_save record);
  let '(r, record) := settle_record config policy world message record in
  _ ← pure r;
  _ ← on_jobs (store_save record);
  mret record.

(** ** Admission *)

Definition state_exists (id : string) (root : StateRoot) : bool :=
  match root with RootEntries entries => bool_decide (is_Some (entries !! of_bytes (bytes id ++ bytes ".json"))) | _ => false end.

(** The generations of the catalog on disk. *)
Definition published_protected : host_op (list RunKey) :=
  match origin_catalog_plan config with
  | Some origin => fun h => ((state ← load_or_empty origin (catalog h); catalog_protected state), h)
  | None => mret []
  end.

(** The recovered records that take part in the pass, by job id. *)
Definition keep_recovered (allowlist : list ModelId) (protected : list RunKey) (recovered : list JobRecord) : SchedulerResult (list (string * JobRecord)) :=
  rfold (fun records record =>
    key ← run_key_new (jp_model (jr_plan record)) (run_id (jr_plan record));
    Ok (if bset_contains model_cmp (jp_model (jr_plan record)) allowlist && (is_active (jr_state record) || bset_contains retention_key_cmp key protected)
        then bmap_insert str_compare (record_id record) record records else records)) recovered [].

Record Admission := { ad_records : list (string * JobRecord); ad_new : list string; ad_errors : list (string * string) }.
Definition ad_insert (acc : Admission) (record : JobRecord) (new : list string) : Admission :=
  {| ad_records := bmap_insert str_compare (record_id record) record (ad_records acc); ad_new := ad_new acc ++ new; ad_errors := ad_errors acc |}.

Definition admit_step (now : Z) (acc : Admission) (x : Discovery) : host_op Admission :=
  let '(discovery_key, model, discovery) := x in
  match discovery with
  | inr error => mret {| ad_records := ad_records acc; ad_new := ad_new acc; ad_errors := bmap_insert str_compare discovery_key error (ad_errors acc) |}
  | inl discovered =>
      profile ← pure (profile_for config model);
      plan ← pure (build_with_profile_and_source model (dc_cycle discovered) profile (Some (dc_source discovered)));
      match bmap_get str_compare (job_id plan) (ad_records acc) with
      | Some record => mret (ad_insert acc record [])
      | None =>
          there ← read_jobs (fun root => Ok (state_exists (job_id plan) root));
          if there : bool then record ← read_jobs (store_load (job_id plan)); mret (ad_insert acc record [])
          else record ← pure (job_record_new plan now); mret (ad_insert acc record [record_id record])
      end
  end.

Definition save_new (records : list (string * JobRecord)) (done : list string) (id : string) : host_op (list string) :=
  record ← pure (ok_or (bmap_get str_compare id records) (InvalidState "newly admitted job disappeared before persistence"));
  _ ← on_jobs (store_save record);
  mret (done ++ [id]).

(** From the recovery of the records to the persistence of the new ones. *)
Definition gather_jobs (now : Z) (discoveries : list Discovery) : host_op (list JobRecord * ExecutionReport) :=
  recovered ← on_jobs (recover_running now);
  models ← pure (expanded_models config);
  protected ← published_protected;
  records ← pure (keep_recovered (bset_of model_cmp models) protected recovered);
  acc ← host_fold (admit_step now) discoveries {| ad_records := records; ad_new := []; ad_errors := [] |};
  capacity ← pure (ok_or (checked_add64 (sc_max_queued_jobs config) (sc_max_concurrent_jobs config))
                     (Capacity "max_queued_jobs + max_concurrent_jobs overflows usize"));
  _ ← pure (reject (capacity <? Z.of_nat (length (ad_records acc))) (Capacity "active jobs exceed max_concurrent_jobs + max_queued_jobs"));
  new ← host_fold (save_new (ad_records acc)) (ad_new acc) [];
  mret ((ad_records acc).*2,
        {| admitted := new; skipped := []; succeeded := []; retrying := []; failed := []; discovery_errors := ad_errors acc;
           report_catalog := None; report_retention := None |}).

(** ** What is due *)

(** A record operation, with its record saved. *)
Definition apply_and_save (op : job_op unit) (record : JobRecord) : host_op JobRecord :=
  let '(r, record) := op record in
  _ ← pure r;
  _ ← on_jobs (store_save record);
  mret record.

Definition skip_job (report : ExecutionReport) (id : string) : ExecutionReport :=
  {| admitted := admitted report; skipped := skipped report ++ [id]; succeeded := succeeded report; retrying := retrying report; failed := failed report;
     discovery_errors := discovery_errors report; report_catalog := report_catalog report; report_retention := report_retention report |}.

Definition due_step (now : Z) (acc : list JobRecord * ExecutionReport) (record : JobRecord) : host_op (list JobRecord * ExecutionReport) :=
  let '(runnable, report) := acc in
  let skip : host_op (list JobRecord * ExecutionReport) := mret (runnable, skip_job report (record_id record)) in
  match jr_state record with
  | RetryBackoff retry_at_unix =>
      if retry_at_unix <=? now then record ← apply_and_save (release_retry now) record; mret (runnable ++ [record], report) else skip
  | Queued => mret (runnable ++ [record], report)
  | Succeeded _ =>
      let repair reason := record ← apply_and_save (requeue_for_repair now reason) record; mret (runnable ++ [record], report) in
      match verify (jr_plan record) with
      | Ok coverage => if is_complete coverage then skip else repair "terminal run is no longer complete"%string
      | Err error => repair (of_bytes (bytes "terminal run failed deep validation: " ++ bytes (message error)))
      | Panic => pure Panic
      end
  | Failed _ => skip
  | Running _ => pure Panic
  end.

(** ** Execution *)

Fixpoint chunked {A} (fuel n : nat) (l : list A) : list (list A) :=
  match fuel, l with
  | _, [] => []
  | O, _ => []
  | S fuel, _ => take n l :: chunked fuel n (drop n l)
  end.
(** [chunks], which panics on zero. *)
Definition chunks {A} (n : Z) (l : list A) : SchedulerResult (list (list A)) :=
  if n =? 0 then Panic else Ok (chunked (length l) (Z.to_nat n) l).

(** The threads of a chunk; each of them saves its own record only, and all of
    them end before the results are looked at. The report lists the jobs in
    the order of the chunk instead of that in which they ended. *)
Fixpoint run_chunk (worlds : string -> JobWorld) (records : list JobRecord) (h : Host) : list (SchedulerResult JobRecord) * Host :=
  match records with
  | [] => ([], h)
  | record :: records =>
      let '(r, h) := execute_one (worlds (record_id record)) record h in
      let '(rs, h) := run_chunk worlds records h in
      (r :: rs, h)
  end.

Definition report_result (cancelled : bool) (report : ExecutionReport) (result : SchedulerResult JobRecord) : SchedulerResult ExecutionReport :=
  record ← result;
  let id := record_id record in
  let upd s r f := {| admitted := admitted report; skipped := skipped report; succeeded := succeeded report ++ s; retrying := retrying report ++ r;
                      failed := failed report ++ f; discovery_errors := discovery_errors report; report_catalog := report_catalog report;
                      report_retention := report_retention report |} in
  match jr_state record with
  | Succeeded _ => Ok (upd [id] [] [])
  | RetryBackoff _ => Ok (upd [] [id] [])
  | Failed _ => Ok (upd [] [] [id])
  | Queued => if cancelled then Ok (skip_job report id) else Err (InvalidState "job ended in a non-terminal state")
  | Running _ => Err (InvalidState "job ended in a non-terminal state")
  end.

(** The chunks until a shutdown is seen; [cancelled] tells, for the number of
    chunks left, whether it was requested by the end of this one. *)
Fixpoint run_chunks (worlds : string -> JobWorld) (cancelled : nat -> bool) (cs : list (list JobRecord)) (report : ExecutionReport) : host_op ExecutionReport :=
  match cs with
  | [] => mret report
  | c :: cs => fun h =>
      let '(results, h) := run_chunk worlds c h in
      let stop := cancelled (length cs) in
      match rfold (report_result stop) results report with
      | Ok report => if stop then (Ok report, h) else run_chunks worlds cancelled cs report h
      | Err e => (Err e, h)
      | Panic => (Panic, h)
      end
  end.

(** ** The catalog *)

Definition refresh_step (origin : OriginCatalogPlanConfig) (candidates : list RunCandidate) (record : JobRecord) : SchedulerResult (list RunCandidate) :=
  let plan := jr_plan record in
  let refuse := key ← run_key_new (jp_model plan) (run_id plan); Ok candidates in
  match verify plan with
  | Ok coverage =>
      match validate_queryable_coverage plan coverage with
      | Ok _ =>
          if is_nil (cov_present coverage) then Ok candidates else
          profile ← to_profile (ingest_profile plan);
          match rfold (fun _ lane => validate_profile lane profile) (List.filter (fun lane => bool_decide (lane_model lane = jp_model plan)) (lanes origin)) tt with
          | Ok _ => candidate ← from_coverage plan coverage; Ok (candidates ++ [candidate])
          | Err _ => refuse
          | Panic => Panic
          end
      | Err _ => refuse
      | Panic => Panic
      end
  | Err _ => refuse
  | Panic => Panic
  end.

(** A generation that was published is still a candidate. *)
Definition still_published (candidates : list RunCandidate) (key : RunKey) : bool :=
  existsb (fun c => bool_decide (rc_model c = rk_model key) && bool_decide (rc_run_id c = rk_run_id key)) candidates.

Definition refresh_origin_catalog (origin : OriginCatalogPlanConfig) (records : list JobRecord) (now : Z) (entries : gmap string DirEntry)
    : SchedulerResult OriginCatalogState * gmap string DirEntry :=
  match (current ← load_or_empty origin entries;
         candidates ← rfold (refresh_step origin) records [];
         keys ← catalog_protected current;
         _ ← reject (existsb (fun key => negb (still_published candidates key)) keys) (InvalidCoverage "published origin generation failed revalidation");
         next ← from_candidates origin candidates now;
         Ok (current, next)) with
  | Ok (current, next) =>
      if bool_decide (oc_lanes next = oc_lanes current) then (Ok current, entries) else
      match catalog_save origin next entries with
      | (Ok _, entries) => (Ok next, entries)
      | (Err e, entries) => (Err e, entries)
      | (Panic, entries) => (Panic, entries)
      end
  | Err e => (Err e, entries)
  | Panic => (Panic, entries)
  end.

(** ** The end of a pass *)

Context (lock_held : string * string -> bool) (pid : Z).

Definition prune_state (records : list JobRecord) (_ : unit) (key : RunKey) : host_op unit :=
  match List.find (fun record => bool_decide (record_run_key record = key)) records with
  | Some record => on_jobs (remove_terminal (record_id record))
  | None => mret tt
  end.

Definition run_retention (records : list JobRecord) (protected : list RunKey) : host_op (option RetentionExecution) :=
  if negb (retention_enabled (retention config)) then mret None else
  plan ← pure (plan_owned_retention records protected (Z.to_nat (keep_latest_per_model (retention config))));
  execution ← on_tree (execute_retention lock_held pid records plan (retention_dry_run (retention config)));
  _ ← (if ex_dry_run execution then mret tt else host_fold (prune_state records) (state_prunable execution) tt);
  mret (Some execution).

Definition finish_pass (now : Z) (report : ExecutionReport) : host_op ExecutionReport :=
  models ← pure (expanded_models config);
  all ← read_jobs load_all;
  let records := List.filter (fun record => bset_contains model_cmp (jp_model (jr_plan record)) (bset_of model_cmp models)) all in
  published ← match origin_catalog_plan config with
              | Some origin =>
                  state ← on_catalog (refresh_origin_catalog origin records now);
                  keys ← pure (catalog_protected state);
                  mret (Some state, keys)
              | None => mret (None, [])
              end;
  execution ← run_retention records published.2;
  mret {| admitted := admitted report; skipped := skipped report; succeeded := succeeded report; retrying := retrying report; failed := failed report;
          discovery_errors := discovery_errors report; report_catalog := published.1; report_retention := execution |}.

(** [run_once_at], with the roots prepared and the host lease held. *)
Definition run_once_at (now : Z) (discoveries : list Discovery) (space : Space) (worlds : string -> JobWorld) (cancelled : nat -> bool) : host_op ExecutionReport :=
  capacity ← pure (runtime_capacity config);
  _ ← pure (match origin_catalog_plan config with Some _ => check_space config space | None => Ok tt end);
  '(records, report) ← gather_jobs now discoveries;
  '(runnable, report) ← host_fold (due_step now) records ([], report);
  cs ← pure (chunks capacity (merge_sort id_le runnable));
  report ← run_chunks worlds cancelled cs report;
  finish_pass now report.
End host.
