(* ===== verification/Workers.v ===== *)
(** * The hour workers of the scheduler

    [crates/rw-scheduler/src/executor.rs]: [ingest_hours], whose threads take
    the missing hours of a job from a queue, and [ConcurrencyGate], which the
    threads of all jobs share. Threads interleave at their locks and atomic
    accesses; a shutdown may be requested at any moment, and the ingest of an
    hour may end in any way, a panic included. The code under a lock does not
    panic, so no lock is ever poisoned. Also [execute_running], which calls
    them. *)
From Stdlib Require Import ZArith Lia Ascii String.
From stdpp Require Import base list strings numbers sorting gmap relations.
From S2P Require Import Prelude F32 Format Text Order Ids Cycle Models Profile Capability Plan Manifest Coverage Jobs Atomic StateStore Retention Origin Config Purge Executor.

Local Open Scope Z_scope.

(** ** One thread *)

(** What the closure of an hour returns. *)
Inductive HourResult := HourDone | HourFailed (text : string).

(** Where a thread is. The permit is held from [Held] to [Release], and during
    [Unwind]. A thread that waits at the gate stays in [Acquire]: a wake-up
    that finds the gate full changes nothing. *)
Inductive WorkerPc :=
| LoopTop
| PopFront
| Acquire (hour : ExpectedValidTime)
| Held (hour : ExpectedValidTime)
| SpaceBefore (hour : ExpectedValidTime)
| Ingesting (hour : ExpectedValidTime)
| SpaceAfter (hour : ExpectedValidTime)
| Release (hour : ExpectedValidTime) (result : HourResult)
| Raise (hour : ExpectedValidTime) (text : string)
| Report (hour : ExpectedValidTime) (text : string)
| Unwind
| Ended
| Panicked.

(** What the threads of one job share, with the hours ingested so far. *)
Record HourPool := {
  hp_queue : list ExpectedValidTime;
  hp_failed : bool;
  first_error : option string;
  ingested : list ExpectedValidTime
}.
Definition set_hp_queue (q : list ExpectedValidTime) (s : HourPool) : HourPool :=
  {| hp_queue := q; hp_failed := hp_failed s; first_error := first_error s; ingested := ingested s |}.
Definition set_hp_failed (s : HourPool) : HourPool :=
  {| hp_queue := hp_queue s; hp_failed := true; first_error := first_error s; ingested := ingested s |}.
(** [get_or_insert_with]. *)
Definition set_first_error (text : string) (s : HourPool) : HourPool :=
  {| hp_queue := hp_queue s; hp_failed := hp_failed s; first_error := Some (default text (first_error s)); ingested := ingested s |}.
Definition log_hour (hour : ExpectedValidTime) (s : HourPool) : HourPool :=
  {| hp_queue := hp_queue s; hp_failed := hp_failed s; first_error := first_error s; ingested := ingested s ++ [hour] |}.

(** [saturating_sub(1)], when a permit is dropped. *)
Definition release_permit (active : Z) : Z := Z.max (active - 1) 0.
Definition error_text (hour : ExpectedValidTime) (text : string) : string :=
  of_bytes ([chr 102] ++ fmt_padded 3 (ev_forecast_hour hour) ++ bytes ": " ++ bytes text).

(** One access of a thread to what it shares with the others. *)
Inductive worker_step (limit : Z) (cancelled : bool) : Z -> HourPool -> WorkerPc -> Z -> HourPool -> WorkerPc -> Prop :=
| ws_stop a s : hp_failed s || cancelled = true -> worker_step limit cancelled a s LoopTop a s Ended
| ws_go a s : hp_failed s || cancelled = false -> worker_step limit cancelled a s LoopTop a s PopFront
| ws_empty a s : hp_queue s = [] -> worker_step limit cancelled a s PopFront a s Ended
| ws_pop a s hour q : hp_queue s = hour :: q -> worker_step limit cancelled a s PopFront a (set_hp_queue q s) (Acquire hour)
| ws_refused a s hour : limit <= a -> cancelled = true -> worker_step limit cancelled a s (Acquire hour) a s (Raise hour "ingest failed: cancelled")
| ws_permit a s hour : a < limit -> worker_step limit cancelled a s (Acquire hour) (a + 1) s (Held hour)
| ws_give_up a s hour : hp_failed s = true -> worker_step limit cancelled a s (Held hour) a s (Release hour HourDone)
| ws_work a s hour : hp_failed s = false -> worker_step limit cancelled a s (Held hour) a s (SpaceBefore hour)
| ws_space a s hour : worker_step limit cancelled a s (SpaceBefore hour) a s (Ingesting hour)
| ws_no_space a s hour text : worker_step limit cancelled a s (SpaceBefore hour) a s (Release hour (HourFailed text))
| ws_ingested a s hour : worker_step limit cancelled a s (Ingesting hour) a (log_hour hour s) (SpaceAfter hour)
| ws_ingest_failed a s hour text : worker_step limit cancelled a s (Ingesting hour) a s (Release hour (HourFailed text))
| ws_panic a s hour : worker_step limit cancelled a s (Ingesting hour) a s Unwind
| ws_stored a s hour : worker_step limit cancelled a s (SpaceAfter hour) a s (Release hour HourDone)
| ws_space_gone a s hour text : worker_step limit cancelled a s (SpaceAfter hour) a s (Release hour (HourFailed text))
| ws_next a s hour : worker_step limit cancelled a s (Release hour HourDone) (release_permit a) s LoopTop
| ws_error a s hour text : worker_step limit cancelled a s (Release hour (HourFailed text)) (release_permit a) s (Raise hour text)
| ws_raise a s hour text : worker_step limit cancelled a s (Raise hour text) a (set_hp_failed s) (Report hour text)
| ws_report a s hour text : worker_step limit cancelled a s (Report hour text) a (set_first_error (error_text hour text) s) Ended
| ws_unwind a s : worker_step limit cancelled a s Unwind (release_permit a) s Panicked.

(** ** The jobs of a chunk *)

Record IngestCall := { hours_asked : list ExpectedValidTime; hour_pool : HourPool; threads : list WorkerPc }.
Record GateWorld := { gate_active : Z; cancel_flag : bool; calls : list IngestCall }.

(** A call of [ingest_hours] as its threads are spawned. *)
Definition spawn_workers (max_concurrent_hours : Z) (hours : list ExpectedValidTime) : IngestCall :=
  {| hours_asked := hours; hour_pool := {| hp_queue := hours; hp_failed := false; first_error := None; ingested := [] |};
     threads := replicate (Z.to_nat (Z.min max_concurrent_hours (Z.of_nat (length hours)))) LoopTop |}.
Definition start_calls (max_concurrent_hours : Z) (jobs : list (list ExpectedValidTime)) : GateWorld :=
  {| gate_active := 0; cancel_flag := false; calls := spawn_workers max_concurrent_hours <$> jobs |}.

(** A thread of a call moves. *)
Inductive thread_moves (limit : Z) : GateWorld -> GateWorld -> Prop :=
| moves w i c j pc a s pc' : calls w !! i = Some c -> threads c !! j = Some pc ->
    worker_step limit (cancel_flag w) (gate_active w) (hour_pool c) pc a s pc' ->
    thread_moves limit w
      {| gate_active := a; cancel_flag := cancel_flag w;
         calls := <[i := {| hours_asked := hours_asked c; hour_pool := s; threads := <[j := pc']> (threads c) |}]> (calls w) |}.
(** A shutdown is requested. *)
Definition shut_down (w : GateWorld) : GateWorld := {| gate_active := gate_active w; cancel_flag := true; calls := calls w |}.
Inductive gate_step (limit : Z) : GateWorld -> GateWorld -> Prop :=
| gs_thread w w' : thread_moves limit w w' -> gate_step limit w w'
| gs_shutdown w : cancel_flag w = false -> gate_step limit w (shut_down w).

Definition has_ended (pc : WorkerPc) : bool := match pc with Ended | Panicked => true | _ => false end.
Definition has_panicked (pc : WorkerPc) : bool := match pc with Panicked => true | _ => false end.
(** What [ingest_hours] returns once its threads are joined. *)
Definition ingest_hours_result (cancelled : bool) (c : IngestCall) : option (SchedulerResult unit) :=
  if is_nil (hours_asked c) then Some (Ok tt) else
  if negb (forallb has_ended (threads c)) then None else
  Some (if existsb has_panicked (threads c) then Panic
        else if cancelled then Err (IngestFailed "cancelled")
        else match first_error (hour_pool c) with Some error => Err (IngestFailed error) | None => Ok tt end).

(** ** The caller *)

(** [execute_running] without an injected execution: [run_json] is what
    verifying an existing manifest gives, [ingest_hours] the call above, and
    [verify_run_json] the verification afterwards. *)
Definition execute_running `{OwnerJson} `{WriteFaults} (config : SchedulerConfig) (space : Space) (run_json : option (SchedulerResult RunCoverage))
    (ingest_hours : list ExpectedValidTime -> SchedulerResult unit) (verify_run_json : SchedulerResult RunCoverage)
    (record : JobRecord) (tree : StoreTree) : SchedulerResult RunCoverage * StoreTree :=
  match check_space config space with
  | Ok _ =>
      let '(r, tree) := ensure_owner_marker record tree in
      ((_ ← r;
        existing ← rtraverse id run_json;
        match existing with
        | Some coverage => if is_complete coverage then Ok coverage else
            _ ← ingest_hours (missing_times (jr_plan record) existing); verify_run_json
        | None => _ ← ingest_hours (missing_times (jr_plan record) existing); verify_run_json
        end), tree)
  | Err e => (Err e, tree)
  | Panic => (Panic, tree)
  end.

(** ** Permits *)

Definition holds (pc : WorkerPc) : nat := match pc with Held _ | SpaceBefore _ | Ingesting _ | SpaceAfter _ | Release _ _ | Unwind => 1 | _ => 0 end.
Definition is_ingesting (pc : WorkerPc) : nat := match pc with Ingesting _ => 1 | _ => 0 end.
Definition in_call (f : WorkerPc -> nat) (c : IngestCall) : nat := sum_list_with f (threads c).
Definition in_world (f : WorkerPc -> nat) (w : GateWorld) : nat := sum_list_with (in_call f) (calls w).

Lemma sum_insert {A} (f : A -> nat) l i x y : l !! i = Some x -> (sum_list_with f (<[i := y]> l) + f x = sum_list_with f l + f y)%nat.
Proof. revert i. induction l as [|z l IH]; intros [|i] E; simplify_eq/=; [lia|]. specialize (IH _ E). lia. Qed.
Lemma sum_ge {A} (f : A -> nat) l i x : l !! i = Some x -> (f x <= sum_list_with f l)%nat.
Proof. revert i. induction l as [|z l IH]; intros [|i] E; simplify_eq/=; [lia|]. specialize (IH _ E). lia. Qed.
Lemma sum_le {A} (f g : A -> nat) l : (forall x, f x <= g x)%nat -> (sum_list_with f l <= sum_list_with g l)%nat.
Proof. intros H. induction l as [|z l IH]; cbn [sum_list_with]; [lia|]. specialize (H z). lia. Qed.
Lemma sum_pos {A} (f : A -> nat) l : (0 < sum_list_with f l)%nat -> exists i x, l !! i = Some x /\ (0 < f x)%nat.
Proof.
  induction l as [|z l IH]; cbn [sum_list_with]; [lia|]. intros H. destruct (decide (0 < f z)%nat); [by exists 0%nat, z|].
  destruct IH as (i & x & Hi & Hx); [lia|]. by exists (S i), x.
Qed.

(** A sum over all threads, when one of them moves. *)
Lemma moves_sum (f : WorkerPc -> nat) w i c j pc a b s pc' : calls w !! i = Some c -> threads c !! j = Some pc ->
  (in_world f {| gate_active := a; cancel_flag := b; calls := <[i := {| hours_asked := hours_asked c; hour_pool := s; threads := <[j := pc']> (threads c) |}]> (calls w) |} + f pc
   = in_world f w + f pc')%nat.
Proof.
  intros Hc Hj. unfold in_world. cbn [calls]. pose proof (sum_insert (in_call f) (calls w) i c {| hours_asked := hours_asked c; hour_pool := s; threads := <[j := pc']> (threads c) |} Hc) as H1.
  unfold in_call in H1 at 2 4. cbn [threads] in H1. pose proof (sum_insert f (threads c) j pc pc' Hj). lia.
Qed.

(** Every step is a step of a thread, with the sums it changes, or a shutdown. *)
Definition permits_ok (limit : Z) (w : GateWorld) : Prop := gate_active w = Z.of_nat (in_world holds w) /\ gate_active w <= limit.

Lemma permits_step limit w w' : permits_ok limit w -> gate_step limit w w' -> permits_ok limit w'.
Proof.
  intros [Ha Hl] H. destruct H as [w w' Hm|w _]; [|done]. destruct Hm as [w i c j pc a s pc' Hc Hj Hs]. unfold permits_ok. cbn [gate_active].
  pose proof (moves_sum holds w i c j pc a (cancel_flag w) s pc' Hc Hj) as Hsum. pose proof (sum_ge holds _ _ _ Hj) as H1.
  pose proof (sum_ge (in_call holds) _ _ _ Hc) as H2. unfold in_call in H2 at 1. fold (in_world holds w) in H2.
  inversion Hs; subst; cbn [holds] in *; unfold release_permit in *; lia.
Qed.

Lemma start_permits limit m jobs : 0 <= limit -> permits_ok limit (start_calls m jobs).
Proof.
  intros Hl. split; [|done]. cbn [start_calls gate_active]. unfold in_world. cbn [calls start_calls].
  assert (sum_list_with (in_call holds) (spawn_workers m <$> jobs) = 0%nat) as ->; [|done]. induction jobs as [|hs jobs IH]; [done|]. cbn [fmap list_fmap sum_list_with].
  rewrite IH, Nat.add_0_r. unfold in_call, spawn_workers. cbn [threads]. by induction (Z.to_nat _).
Qed.

Lemma reachable_permits limit m jobs w : 0 <= limit -> rtc (gate_step limit) (start_calls m jobs) w -> permits_ok limit w.
Proof.
  intros Hl H. pose proof (start_permits limit m jobs Hl) as Hp. induction H as [|w1 w2 w3 Hs _ IH]; [done|]. apply IH. by eapply permits_step.
Qed.

(** C8: the hour gate bounds the ingests of all jobs together. In every
    interleaving of the threads of any number of jobs, with failures, panics
    and a shutdown, the counter of the gate is exactly the number of threads
    that hold a permit, it never exceeds the limit, and so at most that many
    hours are being ingested; once every thread has ended, every permit has
    been given back. *)
Theorem hours_within_limit limit m jobs w : 0 <= limit -> rtc (gate_step limit) (start_calls m jobs) w ->
  gate_active w = Z.of_nat (in_world holds w) /\ Z.of_nat (in_world is_ingesting w) <= gate_active w <= limit
  /\ ((forall c, c ∈ calls w -> forallb has_ended (threads c) = true) -> gate_active w = 0).
Proof.
  intros Hl H. destruct (reachable_permits limit m jobs w Hl H) as [Ha Hle]. split; [done|]. split.
  - split; [|done]. rewrite Ha. apply Nat2Z.inj_le. apply sum_le. intros c. apply sum_le. intros []; cbn; lia.
  - intros He. rewrite Ha. destruct (in_world holds w) as [|n] eqn:E; [done|exfalso].
    destruct (sum_pos (in_call holds) (calls w)) as (i & c & Hc & Hp); [unfold in_world in E; lia|]. destruct (sum_pos _ _ Hp) as (j & pc & Hj & Hh).
    specialize (He c (list_elem_of_lookup_2 _ _ _ Hc)). rewrite forallb_forall in He. specialize (He pc (proj1 (list_elem_of_In _ _) (list_elem_of_lookup_2 _ _ _ Hj))).
    destruct pc; cbn in *; (done || lia).
Qed.

(** ** Which hours are ingested *)

(** The hour a thread has taken from the queue and not ingested yet. *)
Definition carried (pc : WorkerPc) : list ExpectedValidTime :=
  match pc with Acquire hour | Held hour | SpaceBefore hour | Ingesting hour => [hour] | _ => [] end.
(** The thread has an error to report, or has panicked. *)
Definition in_trouble (pc : WorkerPc) : bool :=
  match pc with Release _ (HourFailed _) | Raise _ _ | Report _ _ | Unwind | Panicked => true | _ => false end.
Definition is_report (pc : WorkerPc) : bool := match pc with Report _ _ => true | _ => false end.
Definition is_ended (pc : WorkerPc) : bool := match pc with Ended => true | _ => false end.

(** The invariant of a call. An hour is in the queue, with a thread, ingested,
    or dropped, and it is only dropped when something went wrong. *)
Record pool_inv (cancelled : bool) (c : IngestCall) : Prop := {
  ci_hours : exists dropped, hp_queue (hour_pool c) ++ (threads c ≫= carried) ++ ingested (hour_pool c) ++ dropped ≡ₚ hours_asked c
    /\ (dropped = [] \/ hp_failed (hour_pool c) = true \/ existsb in_trouble (threads c) = true);
  ci_failed : hp_failed (hour_pool c) = true -> is_some (first_error (hour_pool c)) = true \/ existsb is_report (threads c) = true;
  ci_report : existsb is_report (threads c) = true -> hp_failed (hour_pool c) = true;
  ci_ended : existsb is_ended (threads c) = true -> hp_queue (hour_pool c) = [] \/ hp_failed (hour_pool c) = true \/ cancelled = true
}.

Lemma insert_perm {A} (l : list A) j x y : l !! j = Some x -> exists rest, l ≡ₚ x :: rest /\ <[j := y]> l ≡ₚ y :: rest.
Proof.
  intros H. exists (take j l ++ drop (S j) l). split.
  - rewrite <- (take_drop_middle l j x H) at 1. by rewrite Permutation_middle.
  - rewrite insert_take_drop by (by eapply lookup_lt_Some). by rewrite Permutation_middle.
Qed.
Lemma existsb_perm {A} (f : A -> bool) l l' : l ≡ₚ l' -> existsb f l = existsb f l'.
Proof. induction 1 as [|x l l' _ IH|x y l|l1 l2 l3 _ IH1 _ IH2]; cbn [existsb]; [done|by rewrite IH|by rewrite !orb_assoc, (orb_comm (f x))|congruence]. Qed.

(** The hour of a thread moves to one of the other places. *)
Lemma move_popped {A} (x : A) q r i d : q ++ [x] ++ r ++ i ++ d ≡ₚ (x :: q) ++ r ++ i ++ d.
Proof. cbn [app]. symmetry. apply Permutation_middle. Qed.
Lemma move_dropped {A} (x : A) q r i d : q ++ r ++ i ++ x :: d ≡ₚ q ++ [x] ++ r ++ i ++ d.
Proof. f_equiv. cbn [app]. rewrite app_assoc. rewrite <- Permutation_middle. by rewrite <- app_assoc. Qed.
Lemma move_ingested {A} (x : A) q r i d : q ++ r ++ (i ++ [x]) ++ d ≡ₚ q ++ [x] ++ r ++ i ++ d.
Proof. rewrite <- app_assoc. apply move_dropped. Qed.

(** The invariant, with the moving thread first. *)
Record pool_inv_at (cancelled : bool) (hours : list ExpectedValidTime) (s : HourPool) (pc : WorkerPc) (rest : list WorkerPc) : Prop := {
  ca_hours : exists dropped, hp_queue s ++ carried pc ++ (rest ≫= carried) ++ ingested s ++ dropped ≡ₚ hours
    /\ (dropped = [] \/ hp_failed s = true \/ in_trouble pc || existsb in_trouble rest = true);
  ca_failed : hp_failed s = true -> is_some (first_error s) = true \/ is_report pc || existsb is_report rest = true;
  ca_report : is_report pc || existsb is_report rest = true -> hp_failed s = true;
  ca_ended : is_ended pc || existsb is_ended rest = true -> hp_queue s = [] \/ hp_failed s = true \/ cancelled = true
}.
Lemma pool_inv_perm cancelled c pc rest : threads c ≡ₚ pc :: rest -> pool_inv cancelled c <-> pool_inv_at cancelled (hours_asked c) (hour_pool c) pc rest.
Proof.
  intros Hp. assert (Hb : (threads c ≫= carried) ≡ₚ carried pc ++ (rest ≫= carried)) by (by rewrite Hp).
  split; intros [(dropped & Hh & Hd) H2 H3 H4]; (split; [exists dropped|..]); rewrite ?(existsb_perm _ _ _ Hp), ?Hb in *; try rewrite <- app_assoc in *; cbn [existsb] in *; done.
Qed.

Lemma worker_step_inv limit cancelled hours a s pc a' s' pc' rest : worker_step limit cancelled a s pc a' s' pc' -> pool_inv_at cancelled hours s pc rest -> pool_inv_at cancelled hours s' pc' rest.
Proof.
  intros Hs [(dropped & Hh & Hd) Hf Hr He]. destruct Hs; split.
  all: cbn [carried in_trouble is_report is_ended orb app set_hp_queue set_hp_failed set_first_error log_hour hp_queue hp_failed first_error ingested is_some] in *.
  all: try (by exists dropped; split; [done|]; tauto).
  all: try (by exists (hour :: dropped); split; [by rewrite move_dropped|]; tauto).
  all: try tauto.
  - intros _. apply orb_true_iff in H as [H|H]; auto.
  - exists dropped. split; [|done]. rewrite <- Hh, H. exact (move_popped hour q _ _ dropped).
  - intros Hx. destruct (He Hx) as [Hq|Hq]; [congruence|by right].
  - exists dropped. split; [|done]. rewrite <- Hh. exact (move_ingested hour _ _ _ dropped).
Qed.

Lemma pool_step limit cancelled c j pc a a' s pc' : pool_inv cancelled c -> threads c !! j = Some pc -> worker_step limit cancelled a (hour_pool c) pc a' s pc' ->
  pool_inv cancelled {| hours_asked := hours_asked c; hour_pool := s; threads := <[j := pc']> (threads c) |}.
Proof.
  intros Hc Hj Hs. destruct (insert_perm (threads c) j pc pc' Hj) as (rest & Hp & Hp'). apply (pool_inv_perm _ _ _ _ Hp) in Hc.
  apply (pool_inv_perm _ {| hours_asked := hours_asked c; hour_pool := s; threads := <[j := pc']> (threads c) |} pc' rest Hp'). by eapply worker_step_inv.
Qed.

Lemma spawned_inv m hours : pool_inv false (spawn_workers m hours).
Proof.
  set (n := Z.to_nat (Z.min m (Z.of_nat (length hours)))).
  assert (Hn : forall f, f LoopTop = false -> existsb f (replicate n LoopTop) = false) by (intros f Hf; clearbody n; induction n as [|n IH]; [done|]; cbn [replicate existsb]; by rewrite Hf, IH).
  assert (Hc : replicate n LoopTop ≫= carried = []) by (clear Hn; clearbody n; induction n as [|n IH]; [done|exact IH]).
  split; cbn [spawn_workers hour_pool threads hours_asked hp_queue hp_failed first_error ingested]; fold n; rewrite ?Hn by done; try done.
  exists []. rewrite Hc. split; [by rewrite !app_nil_r|by left].
Qed.

Lemma reachable_calls limit m jobs w : rtc (gate_step limit) (start_calls m jobs) w ->
  Forall (pool_inv (cancel_flag w)) (calls w) /\ hours_asked <$> calls w = jobs /\ Forall (fun c => length (threads c) = Z.to_nat (Z.min m (Z.of_nat (length (hours_asked c))))) (calls w).
Proof.
  revert w. apply rtc_ind_r.
  - cbn [start_calls cancel_flag calls]. split; [|split].
    + apply Forall_fmap, list.Forall_forall. intros hs _. apply spawned_inv.
    + rewrite <- list_fmap_compose. by apply list_fmap_id.
    + apply Forall_fmap, list.Forall_forall. intros hs _. apply length_replicate.
  - intros y z _ Hstep (I1 & I2 & I3). destruct Hstep as [y z Hm|y Hf]; cbn [shut_down cancel_flag calls] in *.
    + destruct Hm as [y i c j pc a s pc' Hc Hj Hs]. cbn [cancel_flag calls]. split; [|split].
      * apply Forall_insert; [done|]. eapply pool_step; [|exact Hj|exact Hs]. by eapply Forall_lookup_1.
      * rewrite list_fmap_insert. cbn [hours_asked]. rewrite list_insert_id; [done|]. by rewrite list_lookup_fmap, Hc.
      * apply Forall_insert; [done|]. cbn [threads hours_asked]. rewrite length_insert. exact (Forall_lookup_1 _ _ _ _ I3 Hc).
    + split; [|done]. eapply Forall_impl; [exact I1|]. intros c [C1 C2 C3 C4]. split; try done. intros _. by right; right.
Qed.

(** C6: a successful call has ingested every hour once. In every interleaving,
    no hour that was asked for is ingested twice, and none that was not asked
    for; and when [ingest_hours] returns success, the hours ingested are
    exactly those asked for, each once. Failures, panics, a shutdown and the
    hours given up because another thread failed never end in success. *)
Theorem success_ingests_every_hour limit m jobs w i c : 1 <= m -> rtc (gate_step limit) (start_calls m jobs) w -> calls w !! i = Some c ->
  jobs !! i = Some (hours_asked c) /\ ingested (hour_pool c) ⊆+ hours_asked c
  /\ (ingest_hours_result (cancel_flag w) c = Some (Ok tt) -> ingested (hour_pool c) ≡ₚ hours_asked c).
Proof.
  intros Hm H Hc. destruct (reachable_calls _ _ _ _ H) as (I1 & <- & I3). rewrite list_lookup_fmap, Hc. split; [done|].
  pose proof (Forall_lookup_1 _ _ _ _ I1 Hc) as [(dropped & Hh & Hd) Hf _ He]. pose proof (Forall_lookup_1 _ _ _ _ I3 Hc) as Hlen. cbn beta in Hlen. split.
  { rewrite <- Hh. by apply submseteq_inserts_l, submseteq_inserts_l, submseteq_inserts_r. }
  unfold ingest_hours_result. destruct (hours_asked c) as [|h0 hs] eqn:Eh.
  { intros _. apply Permutation_nil_r in Hh. apply app_eq_nil in Hh as [_ [_ [-> _]%app_eq_nil]%app_eq_nil]. done. }
  cbn [is_nil]. destruct (forallb has_ended (threads c)) eqn:Ee; cbn [negb]; [|done]. destruct (existsb has_panicked (threads c)) eqn:Ep; [done|].
  destruct (cancel_flag w) eqn:Ecf; [done|]. destruct (first_error (hour_pool c)) eqn:Efe; [done|]. intros _.
  assert (Hall : forall pc, pc ∈ threads c -> pc = Ended).
  { intros pc Hpc%list_elem_of_In. rewrite forallb_forall in Ee. specialize (Ee pc Hpc). destruct pc; try done. exfalso.
    apply Bool.not_true_iff_false in Ep. apply Ep, existsb_exists. by exists Panicked. }
  assert (Hno : forall f, f Ended = false -> existsb f (threads c) = false).
  { intros f Hfe. apply Bool.not_true_iff_false. intros (pc & Hpc%list_elem_of_In & Hx)%existsb_exists. apply Hall in Hpc as ->. congruence. }
  assert (Hfail : hp_failed (hour_pool c) = false).
  { apply Bool.not_true_iff_false. intros [Hx|Hx]%Hf; [done|]. by rewrite Hno in Hx. }
  assert (Hcar : threads c ≫= carried = []).
  { clear -Hall. induction (threads c) as [|pc l IH]; [done|]. cbn. rewrite (Hall pc) by left. apply IH. intros x Hx. apply Hall. by right. }
  assert (dropped = []) as -> by (destruct Hd as [?|[Hx|Hx]]; [done|congruence|by rewrite Hno in Hx]).
  assert (Hq : hp_queue (hour_pool c) = []).
  { destruct He as [Hx|[Hx|Hx]]; [|done|congruence|done]. destruct (threads c) as [|pc l] eqn:Et; [cbn in Hlen; lia|]. rewrite (Hall pc) by left. done. }
  rewrite Hq, Hcar, app_nil_r in Hh. exact Hh.
Qed.

(** ** The threads end *)

Definition pc_weight (pc : WorkerPc) : nat :=
  match pc with
  | Ended | Panicked => 0
  | PopFront | Report _ _ | Unwind => 1
  | LoopTop | Raise _ _ => 2
  | Release _ _ => 3
  | SpaceAfter _ => 4
  | Ingesting _ => 5
  | SpaceBefore _ => 6
  | Held _ => 7
  | Acquire _ => 8
  end.
Definition call_weight (c : IngestCall) : nat := 8 * length (hp_queue (hour_pool c)) + sum_list_with pc_weight (threads c).
(** A bound on the steps that are left. *)
Definition world_weight (w : GateWorld) : nat := sum_list_with call_weight (calls w) + (if cancel_flag w then 0 else 1).

Lemma worker_step_weight limit cancelled a s pc a' s' pc' : worker_step limit cancelled a s pc a' s' pc' ->
  (8 * length (hp_queue s') + pc_weight pc' < 8 * length (hp_queue s) + pc_weight pc)%nat.
Proof. destruct 1 as [| | |a s hour q Hq|a s hour| | | | | | | | | | | | | | |]; cbn [pc_weight hp_queue set_hp_queue set_hp_failed set_first_error log_hour]; [..|lia]; try lia. rewrite Hq. cbn [length]. lia. Qed.

Lemma gate_step_weight limit w w' : gate_step limit w w' -> (world_weight w' < world_weight w)%nat.
Proof.
  destruct 1 as [w w' Hm|w Hf]; unfold world_weight; [|cbn [shut_down calls cancel_flag]; rewrite Hf; lia].
  destruct Hm as [w i c j pc a s pc' Hc Hj Hs]. cbn [calls cancel_flag]. apply worker_step_weight in Hs.
  pose proof (sum_insert call_weight (calls w) i c {| hours_asked := hours_asked c; hour_pool := s; threads := <[j := pc']> (threads c) |} Hc) as H1.
  pose proof (sum_insert pc_weight (threads c) j pc pc' Hj) as H2. unfold call_weight in H1 at 2 4. cbn [hour_pool threads] in H1. lia.
Qed.

(** A thread that has not ended can move, unless it waits at a full gate. *)
Lemma worker_moves limit cancelled a s pc : has_ended pc = false -> (forall hour, pc = Acquire hour -> a < limit) -> exists a' s' pc', worker_step limit cancelled a s pc a' s' pc'.
Proof.
  intros He Hg. destruct pc as [| |hour|hour|hour|hour|hour|hour [|text]|hour text|hour text| | |]; try done.
  - destruct (hp_failed s || cancelled) eqn:E; [by do 3 eexists; apply ws_stop|by do 3 eexists; apply ws_go].
  - destruct (hp_queue s) as [|hour q] eqn:E; [by do 3 eexists; apply ws_empty|by do 3 eexists; eapply ws_pop].
  - do 3 eexists. apply ws_permit. by eapply Hg.
  - destruct (hp_failed s) eqn:E; [by do 3 eexists; apply ws_give_up|by do 3 eexists; apply ws_work].
  - do 3 eexists. apply ws_space.
  - do 3 eexists. apply ws_ingested.
  - do 3 eexists. apply ws_stored.
  - do 3 eexists. apply ws_next.
  - do 3 eexists. apply ws_error.
  - do 3 eexists. apply ws_raise.
  - do 3 eexists. apply ws_report.
  - do 3 eexists. apply ws_unwind.
Qed.

Lemma thread_can_move limit w i c j pc : calls w !! i = Some c -> threads c !! j = Some pc -> has_ended pc = false -> (forall hour, pc = Acquire hour -> gate_active w < limit) ->
  exists w', thread_moves limit w w'.
Proof. intros Hc Hj He Hg. destruct (worker_moves limit (cancel_flag w) (gate_active w) (hour_pool c) pc He Hg) as (a' & s' & pc' & Hs). eexists. by eapply moves. Qed.

(** C15: the hour workers never deadlock and always end. Whatever the threads
    of all jobs do, an execution has at most as many steps as the weight of
    its start, which is finite; as long as some thread has not ended, a thread
    can move without a shutdown, also when others wait at a full gate; so the
    threads of every job end and [ingest_hours] returns. *)
Theorem hour_workers_end limit m jobs n w : 1 <= limit -> nsteps (gate_step limit) n (start_calls m jobs) w ->
  (n + world_weight w <= world_weight (start_calls m jobs))%nat
  /\ ((exists w', thread_moves limit w w') \/ forall c, c ∈ calls w -> exists r, ingest_hours_result (cancel_flag w) c = Some r).
Proof.
  intros Hl H. split.
  { induction H as [|n x y z Hs _ IH]; [lia|]. apply gate_step_weight in Hs. lia. }
  pose proof (reachable_permits limit m jobs w ltac:(lia) (rtc_nsteps_2 _ _ _ H)) as [Ha Hle].
  destruct (decide (Forall (fun c => forallb has_ended (threads c) = true) (calls w))) as [Hall|Hn].
  { right. intros c Hc. unfold ingest_hours_result. rewrite (proj1 (list.Forall_forall _ _) Hall c Hc). cbn [negb]. destruct (is_nil _); by eexists. }
  left. apply not_Forall_Exists in Hn; [|apply _]. apply Exists_exists in Hn as (c & (i & Hc)%list_elem_of_lookup & Hne). cbn beta in Hne.
  assert (exists j pc, threads c !! j = Some pc /\ has_ended pc = false) as (j & pc & Hj & He).
  { apply Bool.not_true_iff_false in Hne. clear -Hne. induction (threads c) as [|pc l IH]; [done|]. cbn [forallb] in Hne. destruct (has_ended pc) eqn:E; [|by exists 0%nat, pc].
    destruct (IH Hne) as (j & x & Hj & Hx). by exists (S j), x. }
  destruct (decide (gate_active w < limit)) as [Hg|Hg]; [by eapply thread_can_move|].
  destruct (sum_pos (in_call holds) (calls w)) as (i' & c' & Hc' & Hp); [fold (in_world holds w); lia|]. destruct (sum_pos _ _ Hp) as (j' & pc' & Hj' & Hh).
  eapply thread_can_move; [exact Hc'|exact Hj'|by destruct pc'; cbn in *; try done; lia|]. intros hour ->. cbn in Hh. lia.
Qed.

(** ** Examples *)

(** The step of a thread whose ingests succeed. *)
Definition good_step (limit : Z) (cancelled : bool) (a : Z) (s : HourPool) (pc : WorkerPc) : option (Z * HourPool * WorkerPc) :=
  match pc with
  | LoopTop => Some (a, s, if hp_failed s || cancelled then Ended else PopFront)
  | PopFront => match hp_queue s with [] => Some (a, s, Ended) | hour :: q => Some (a, set_hp_queue q s, Acquire hour) end
  | Acquire hour => if a <? limit then Some (a + 1, s, Held hour) else None
  | Held hour => Some (a, s, if hp_failed s then Release hour HourDone else SpaceBefore hour)
  | SpaceBefore hour => Some (a, s, Ingesting hour)
  | Ingesting hour => Some (a, log_hour hour s, SpaceAfter hour)
  | SpaceAfter hour => Some (a, s, Release hour HourDone)
  | Release _ HourDone => Some (release_permit a, s, LoopTop)
  | _ => None
  end.
Lemma good_step_sound limit cancelled a s pc a' s' pc' : good_step limit cancelled a s pc = Some (a', s', pc') -> worker_step limit cancelled a s pc a' s' pc'.
Proof.
  intros E. destruct pc as [| |hour|hour|hour|hour|hour|hour [|text]|hour text|hour text| | |]; cbn [good_step] in E; try done.
  - destruct (hp_failed s || cancelled) eqn:Eb; injection E as <- <- <-; by constructor.
  - destruct (hp_queue s) as [|hour q] eqn:Eq; injection E as <- <- <-; by constructor.
  - destruct (a <? limit) eqn:El; [|done]. injection E as <- <- <-. constructor. lia.
  - destruct (hp_failed s) eqn:Eb; injection E as <- <- <-; by constructor.
  - injection E as <- <- <-. constructor.
  - injection E as <- <- <-. constructor.
  - injection E as <- <- <-. constructor.
  - injection E as <- <- <-. constructor.
Qed.

(** Run the threads of a call in a given order. *)
Definition good_move (limit : Z) (w : GateWorld) (ij : nat * nat) : option GateWorld :=
  c ← calls w !! ij.1; pc ← threads c !! ij.2; '(a, s, pc') ← good_step limit (cancel_flag w) (gate_active w) (hour_pool c) pc;
  Some {| gate_active := a; cancel_flag := cancel_flag w;
          calls := <[ij.1 := {| hours_asked := hours_asked c; hour_pool := s; threads := <[ij.2 := pc']> (threads c) |}]> (calls w) |}.
Fixpoint run_schedule (limit : Z) (schedule : list (nat * nat)) (w : GateWorld) : option GateWorld :=
  match schedule with [] => Some w | ij :: schedule => w' ← good_move limit w ij; run_schedule limit schedule w' end.
Lemma run_schedule_sound limit schedule w w' : run_schedule limit schedule w = Some w' -> nsteps (gate_step limit) (length schedule) w w'.
Proof.
  revert w. induction schedule as [|[i j] schedule IH]; intros w E; cbn [run_schedule] in E; [injection E as <-; constructor|].
  apply bind_Some in E as (w1 & E1 & E). econstructor; [|by apply IH]. unfold good_move in E1. cbn [fst snd] in E1.
  apply bind_Some in E1 as (c & Hc & E1). apply bind_Some in E1 as (pc & Hj & E1). apply bind_Some in E1 as ([[a s] pc'] & Hs & E1). injection E1 as <-.
  apply gs_thread. eapply moves; [done|done|]. by apply good_step_sound.
Qed.

(** Two threads of a job share one permit. *)
Definition sample_hour (h : Z) : ExpectedValidTime := {| ev_forecast_hour := h; ev_storage_slot := h; ev_lead_seconds := 3600 * h; ev_valid_unix := 3600 * h |}.
Definition sample_jobs : list (list ExpectedValidTime) := [[sample_hour 0; sample_hour 1]].
Definition sample_schedule : list (nat * nat) := (fun j => (0%nat, j)) <$> [0; 0; 0; 1; 1; 0; 0; 0; 0; 0; 1; 1; 1; 1; 1; 1; 0; 0; 1; 1]%nat.
Definition sample_gate : GateWorld := Eval vm_compute in default (start_calls 2 sample_jobs) (run_schedule 1 sample_schedule (start_calls 2 sample_jobs)).
Lemma sample_gate_steps : nsteps (gate_step 1) 20 (start_calls 2 sample_jobs) sample_gate.
Proof. apply (run_schedule_sound 1 sample_schedule). vm_compute. reflexivity. Qed.
Definition sample_call : IngestCall := Eval vm_compute in default (spawn_workers 0 []) (head (calls sample_gate)).

Theorem hours_within_limit_witness : gate_active sample_gate = 0.
Proof.
  apply (hours_within_limit 1 2 sample_jobs sample_gate); [lia|exact (rtc_nsteps_2 _ _ _ sample_gate_steps)|].
  intros c Hc. apply list_elem_of_singleton in Hc as ->. reflexivity.
Defined.

Theorem success_ingests_every_hour_witness : ingested (hour_pool sample_call) ≡ₚ [sample_hour 0; sample_hour 1].
Proof.
  apply (success_ingests_every_hour 1 2 sample_jobs sample_gate 0 sample_call); [lia|exact (rtc_nsteps_2 _ _ _ sample_gate_steps)|reflexivity|reflexivity].
Defined.

Theorem hour_workers_end_witness : exists r, ingest_hours_result (cancel_flag sample_gate) sample_call = Some r.
Proof.
  destruct (hour_workers_end 1 2 sample_jobs 20 sample_gate) as [_ [[w' Hm]|H]]; [lia|exact sample_gate_steps| |apply H; left].
  exfalso. inversion Hm as [w i c j pc a s pc' Hc Hj Hs]; subst. destruct i as [|i]; [|discriminate Hc]. injection Hc as <-.
  destruct j as [|[|j]]; [| |discriminate Hj]; injection Hj as <-; inversion Hs.
Defined.
