(* ===== verification/Pass.v ===== *)
(** * What a pass guarantees

    Theorems on the pass of [Executor]: the published catalog is backed by
    verified runs and does not go back, retention never touches a published
    run, a job ends in a saved state that is not running, and the retry
    delays stay in their bounds. *)
From Stdlib Require Import ZArith Lia Ascii String.
From stdpp Require Import base list strings numbers sorting gmap.
From S2P Require Import Prelude F32 Format Text Order Ids Cycle Models Profile Capability Plan Manifest Coverage Jobs Atomic StateStore Retention Origin Config Purge Executor.

Local Open Scope Z_scope.

(** ** The catalog *)

Section catalog.
Context `{CatalogJson} `{!CatalogJsonLaws} {faults : WriteFaults} (verify : JobPlan -> SchedulerResult RunCoverage).

(** A candidate that comes from a record whose run was verified in this pass. *)
Record backed (records : list JobRecord) (c : RunCandidate) (record : JobRecord) (coverage : RunCoverage) : Prop := {
  bk_record : record ∈ records;
  bk_verified : verify (jr_plan record) = Ok coverage;
  bk_queryable : validate_queryable_coverage (jr_plan record) coverage = Ok tt;
  bk_present : cov_present coverage <> [];
  bk_candidate : from_coverage (jr_plan record) coverage = Ok c
}.

Lemma refresh_candidates origin records cs : rfold (refresh_step verify origin) records [] = Ok cs ->
  forall c, c ∈ cs -> exists record coverage, backed records c record coverage.
Proof.
  revert cs. induction records as [|r records IH] using rev_ind; intros cs E c Hc; [injection E as <-; by apply not_elem_of_nil in Hc|].
  rewrite rfold_app in E. bind_step E E1. cbn [rfold mbind result_bind] in E. bind_step E E2. injection E as ->.
  assert (Hold : c ∈ a -> exists record coverage, backed (records ++ [r]) c record coverage).
  { intros Hx. destruct (IH _ eq_refl c Hx) as (record & coverage & [? ? ? ? ?]). exists record, coverage. split; try done. apply elem_of_app. by left. }
  unfold refresh_step in E2. cbv zeta in E2. destruct (verify (jr_plan r)) as [cov|e|] eqn:Ev; [|bind_step E2 F; injection E2 as ->; by apply Hold|done].
  destruct (validate_queryable_coverage (jr_plan r) cov) as [[]|e|] eqn:Eq; [|bind_step E2 F; injection E2 as ->; by apply Hold|done].
  destruct (is_nil (cov_present cov)) eqn:En; [injection E2 as ->; by apply Hold|]. bind_step E2 E3.
  destruct (rfold _ (List.filter _ _) tt) as [u|e|]; [|bind_step E2 F; injection E2 as ->; by apply Hold|done]. bind_step E2 E4. injection E2 as <-.
  apply elem_of_app in Hc as [Hc| ->%list_elem_of_singleton]; [by apply Hold|]. exists r, cov. split; try done; [apply elem_of_app; right; by left|].
  intros Ep. by rewrite Ep in En.
Qed.

Lemma present_available coverage : cov_present coverage <> [] -> available_valid_unix coverage <> [].
Proof.
  destruct (cov_present coverage) as [|t l] eqn:Ep; [done|]. intros _ En. assert (vt_valid_unix t ∈ available_valid_unix coverage) as Hx.
  { unfold available_valid_unix. rewrite (elem_of_bset_of Z.compare), Ep. left. }
  rewrite En in Hx. by apply not_elem_of_nil in Hx.
Qed.

Lemma new_hour_range model cycle id complete available c : run_candidate_new model cycle id complete available = Ok c -> 0 <= hour_utc cycle <= 23.
Proof. unfold run_candidate_new. intros E. bind_step E F1. apply revalidate_same in F1 as ->. bind_step E F2. by apply cycle_hour_range in F2. Qed.

Lemma valid_plan_run_id plan u : plan_validate plan = Ok u -> canonical_run_id (jp_cycle plan) = run_id plan.
Proof.
  unfold plan_validate. intros E. bind_step E G1. bind_step E G2. apply revalidate_same in G2 as ->. bind_step E G3. bind_step E G4.
  apply reject_inv, orb_false_iff in G4 as [G4%negb_false_iff%bool_decide_eq_true _]. done.
Qed.

Lemma backed_made records c record coverage : backed records c record coverage -> candidate_made c /\ rc_available c <> []
  /\ canonical_run_id (rc_cycle c) = rc_run_id c /\ 0 <= hour_utc (rc_cycle c) <= 23.
Proof.
  intros [_ _ _ Hp E]. unfold from_coverage in E. bind_step E E1. bind_step E E2. pose proof (candidate_new_inv _ _ _ _ _ _ E) as (Ec & _).
  split; [repeat eexists; exact E|]. pose proof (new_hour_range _ _ _ _ _ _ E). pose proof (valid_plan_run_id _ _ E1) as Hid. rewrite Ec. cbn [rc_available rc_cycle rc_run_id].
  split; [by apply present_available|]. done.
Qed.

Lemma catalog_not_temporary : ~ temporary ORIGIN_CATALOG_FILE.
Proof. by apply (not_temporary_last _ (chr 110)). Qed.

(** A save of the catalog: the names it leaves alone, and the catalog a reader
    then loads. *)
Lemma save_catalog origin state entries r entries' : catalog_save origin state entries = (r, entries') ->
  (r = Ok tt -> load_or_empty origin entries' = Ok state /\ forall name, name <> ORIGIN_CATALOG_FILE -> entries' !! name = entries !! name)
  /\ (entries' !! ORIGIN_CATALOG_FILE = entries !! ORIGIN_CATALOG_FILE \/ load_or_empty origin entries' = Ok state)
  /\ forall name, name <> ORIGIN_CATALOG_FILE -> ~ temporary name -> entries' !! name = entries !! name.
Proof.
  assert (Hsame : forall x, (x, entries) = (r, entries') -> x <> Ok tt -> (r = Ok tt -> load_or_empty origin entries' = Ok state /\ forall name, name <> ORIGIN_CATALOG_FILE -> entries' !! name = entries !! name)
    /\ (entries' !! ORIGIN_CATALOG_FILE = entries !! ORIGIN_CATALOG_FILE \/ load_or_empty origin entries' = Ok state)
    /\ forall name, name <> ORIGIN_CATALOG_FILE -> ~ temporary name -> entries' !! name = entries !! name).
  { intros x [= -> ->] Hx. split; [done|]. split; [by left|done]. }
  unfold catalog_save. destruct (catalog_validate origin state) as [[]| |] eqn:Ev; cbn [mbind result_bind]; [|intros E; by apply (Hsame _ E)..].
  destruct (catalog_to_vec_pretty state) as [content| |] eqn:Ec; cbn [mbind result_bind]; [|intros E; by apply (Hsame _ E)..].
  destruct (MAX_ORIGIN_CATALOG_STATE_BYTES <? _) eqn:El; cbn [reject mbind result_bind]; [intros E; by apply (Hsame _ E)|]. clear Hsame.
  assert (Hload : forall m, m !! ORIGIN_CATALOG_FILE = Some (RegularFile content) -> load_or_empty origin m = Ok state).
  { intros m Hm. unfold load_or_empty. rewrite Hm, El. cbn [reject mbind result_bind]. rewrite (catalog_json_roundtrip _ _ Ec). cbn [mbind result_bind]. by rewrite Ev. }
  destruct (replace_entry ORIGIN_CATALOG_FILE content entries) as [x m'] eqn:Er. intros [= <- <-]. split; [|split].
  - intros Hx. destruct (replace_ok _ _ _ _ _ Er) as [-> _]; [by destruct x as [[]| |]|]. split; [apply Hload, lookup_insert_eq|].
    intros name Hn. by rewrite lookup_insert_ne.
  - destruct (replace_destination _ _ _ _ _ Er catalog_not_temporary) as [?|Hm]; [by left|right; by apply Hload].
  - intros name. by apply (replace_frame _ _ _ _ _ Er).
Qed.

(** A generation of a catalog, with its lane. *)
Definition published_in (origin : OriginCatalogPlanConfig) (state : OriginCatalogState) (lane : OriginLane) (g : OriginPublishedGeneration) : Prop :=
  exists p, (lane, p) ∈ zip (lanes origin) (oc_lanes state) /\ (pl_active p = Some g \/ pl_previous p = Some g).

(** What a refresh that succeeds did. *)
Lemma refresh_inv origin records now entries state entries' : refresh_origin_catalog verify origin records now entries = (Ok state, entries') ->
  exists current candidates next keys, load_or_empty origin entries = Ok current /\ catalog_protected current = Ok keys
  /\ (forall c, c ∈ candidates -> exists record coverage, backed records c record coverage)
  /\ (forall k, k ∈ keys -> exists c, c ∈ candidates /\ key_of c = k)
  /\ from_candidates origin candidates now = Ok next /\ oc_lanes state = oc_lanes next
  /\ load_or_empty origin entries' = Ok state /\ forall name, name <> ORIGIN_CATALOG_FILE -> entries' !! name = entries !! name.
Proof.
  unfold refresh_origin_catalog. intros E. destruct (load_or_empty origin entries) as [current| |] eqn:El; [|done..]. cbn [mbind result_bind] in E.
  destruct (rfold _ records []) as [cs| |] eqn:Er; [|done..]. cbn [mbind result_bind] in E. destruct (catalog_protected current) as [keys| |] eqn:Ek; [|done..].
  cbn [mbind result_bind] in E. destruct (existsb _ keys) eqn:Ex; [done|]. cbn [reject mbind result_bind] in E.
  destruct (from_candidates origin cs now) as [next| |] eqn:En; [|done..]. cbn [mbind result_bind] in E.
  exists current, cs, next, keys. split; [done|]. split; [done|]. split; [by apply (refresh_candidates origin)|]. split.
  { intros k Hk. apply list_elem_of_In in Hk. destruct (still_published cs k) eqn:Es.
    - unfold still_published in Es. apply existsb_exists in Es as (c & Hc%list_elem_of_In & [H1%bool_decide_eq_true H2%bool_decide_eq_true]%andb_true_iff).
      exists c. split; [done|]. unfold key_of. rewrite H1, H2. by destruct k.
    - exfalso. apply Bool.not_true_iff_false in Ex. apply Ex, existsb_exists. exists k. split; [done|]. by rewrite Es. }
  case_bool_decide as Eq.
  - injection E as <- <-. by split_and!.
  - destruct (catalog_save origin next entries) as [r e1] eqn:Es. destruct (save_catalog _ _ _ _ _ Es) as (H1 & _).
    destruct r as [[]| |]; [|done..]. injection E as <- <-. destruct H1 as [? ?]; [done|]. by split_and!.
Qed.

(** What a refresh that fails leaves: the catalog from before, or the one
    that was built when only its save failed after the rename. *)
Lemma refresh_failed origin records now entries r entries' : refresh_origin_catalog verify origin records now entries = (r, entries') ->
  (forall state, r <> Ok state) -> (forall name, name <> ORIGIN_CATALOG_FILE -> ~ temporary name -> entries' !! name = entries !! name)
  /\ (entries' !! ORIGIN_CATALOG_FILE = entries !! ORIGIN_CATALOG_FILE
      \/ exists candidates next, (forall c, c ∈ candidates -> exists record coverage, backed records c record coverage)
         /\ from_candidates origin candidates now = Ok next /\ load_or_empty origin entries' = Ok next).
Proof.
  unfold refresh_origin_catalog. intros E Hr. assert (Hsame : entries' = entries -> (forall name, name <> ORIGIN_CATALOG_FILE -> ~ temporary name -> entries' !! name = entries !! name)
  /\ (entries' !! ORIGIN_CATALOG_FILE = entries !! ORIGIN_CATALOG_FILE
      \/ exists candidates next, (forall c, c ∈ candidates -> exists record coverage, backed records c record coverage)
         /\ from_candidates origin candidates now = Ok next /\ load_or_empty origin entries' = Ok next)) by (intros ->; split; [done|by left]).
  destruct (load_or_empty origin entries) as [current| |]; [|injection E as _ <-; by apply Hsame..]. cbn [mbind result_bind] in E.
  destruct (rfold _ records []) as [cs| |] eqn:Ers; [|injection E as _ <-; by apply Hsame..]. cbn [mbind result_bind] in E.
  destruct (catalog_protected current) as [keys| |]; [|injection E as _ <-; by apply Hsame..]. cbn [mbind result_bind] in E.
  destruct (existsb _ keys); [injection E as _ <-; by apply Hsame|]. cbn [reject mbind result_bind] in E.
  destruct (from_candidates origin cs now) as [next| |] eqn:En; [|injection E as _ <-; by apply Hsame..]. cbn [mbind result_bind] in E.
  case_bool_decide; [injection E as <- _; by destruct (Hr current)|]. destruct (catalog_save origin next entries) as [x e1] eqn:Es.
  destruct (save_catalog _ _ _ _ _ Es) as (_ & H2 & H3). assert (entries' = e1) as -> by (destruct x; by injection E as _ <-). split; [exact H3|].
  destruct H2 as [H2|H2]; [by left|right]. exists cs, next. split; [by apply (refresh_candidates origin)|done].
Qed.

Lemma backed_candidates records candidates : (forall c, c ∈ candidates -> exists record coverage, backed records c record coverage) -> Forall candidate_made candidates.
Proof. intros H1. apply list.Forall_forall. intros c Hc. destruct (H1 c Hc) as (record & coverage & B). by apply backed_made in B as [? _]. Qed.

Lemma zip_fst_lookup {A B} (l : list A) (k : list B) a b : (a, b) ∈ zip l k -> exists i, l !! i = Some a /\ k !! i = Some b.
Proof. intros (i & Hi)%list_elem_of_lookup. apply lookup_zip_with_Some in Hi as (x & y & [= -> ->] & Hx & Hy). by exists i. Qed.

(** The published generations after a refresh come from candidates. *)
Lemma published_candidate origin candidates now next lane g : Forall candidate_made candidates -> from_candidates origin candidates now = Ok next ->
  published_in origin next lane g -> exists c, c ∈ candidates /\ candidate_matches_lane c lane = true /\ g = from_candidate c.
Proof.
  intros Hm [H3 _]%from_candidates_inv; [|done]. intros (p & (i & Hl & Hp)%zip_fst_lookup & Hg).
  destruct (Forall2_lookup_lr _ _ _ i _ _ H3 Hl Hp) as (a & b & [Ha Hb] & ->). cbn [pl_active pl_previous] in Hg.
  destruct Hg as [Hg|Hg]; [destruct a as [c|]|destruct b as [c|]]; try done; injection Hg as <-; exists c; [by destruct Ha as (? & ? & _)|by destruct Hb as (? & [? _] & _)].
Qed.

(** The generations of a catalog that was built from backed candidates. *)
Lemma built_is_backed origin records candidates now next state : (forall c, c ∈ candidates -> exists record coverage, backed records c record coverage) ->
  from_candidates origin candidates now = Ok next -> oc_lanes state = oc_lanes next -> forall lane g, published_in origin state lane g ->
  exists c record coverage, backed records c record coverage /\ candidate_matches_lane c lane = true /\ g = from_candidate c.
Proof.
  intros Hb Hn Heq lane g Hg. unfold published_in in Hg. rewrite Heq in Hg. destruct (published_candidate _ _ _ _ _ _ (backed_candidates _ _ Hb) Hn Hg) as (c & Hc & Hm & ->).
  destruct (Hb c Hc) as (record & coverage & B). by exists c, record, coverage.
Qed.

(** C11: a refreshed catalog is backed by verified runs. When a refresh
    succeeds, the catalog it returns is the one a reader then loads, the
    other files of the store root are as they were, and every generation it
    publishes is the candidate, accepted by its lane, of a record whose run
    passed deep validation in this very pass and has some valid time. When it
    fails, the file of the catalog is as it was, or, when only the sync of the
    directory failed after its rename, holds a catalog that is backed in the
    same way; the other files are as they were, but for temporary files of
    the save that could not be removed. *)
Theorem refreshed_catalog_is_backed origin records now entries r entries' : refresh_origin_catalog verify origin records now entries = (r, entries') ->
  match r with
  | Ok state => load_or_empty origin entries' = Ok state
      /\ (forall name, name <> ORIGIN_CATALOG_FILE -> entries' !! name = entries !! name)
      /\ forall lane g, published_in origin state lane g -> exists c record coverage,
           backed records c record coverage /\ candidate_matches_lane c lane = true /\ g = from_candidate c
  | _ => (forall name, name <> ORIGIN_CATALOG_FILE -> ~ temporary name -> entries' !! name = entries !! name)
      /\ (entries' !! ORIGIN_CATALOG_FILE = entries !! ORIGIN_CATALOG_FILE
          \/ exists state, load_or_empty origin entries' = Ok state
               /\ forall lane g, published_in origin state lane g -> exists c record coverage,
                    backed records c record coverage /\ candidate_matches_lane c lane = true /\ g = from_candidate c)
  end.
Proof.
  intros E. destruct r as [state| |].
  - destruct (refresh_inv _ _ _ _ _ _ E) as (current & cs & next & keys & _ & _ & Hb & _ & Hn & Heq & Hl & Ho). split; [done|]. split; [done|].
    by eapply built_is_backed.
  - destruct (refresh_failed _ _ _ _ _ _ E) as [H1 [H2|(cs & next & Hb & Hn & Hl)]]; [done|split; [done|by left]|]. split; [done|right].
    exists next. split; [done|]. by eapply built_is_backed.
  - destruct (refresh_failed _ _ _ _ _ _ E) as [H1 [H2|(cs & next & Hb & Hn & Hl)]]; [done|split; [done|by left]|]. split; [done|right].
    exists next. split; [done|]. by eapply built_is_backed.
Qed.

(** ** No lane goes back *)

Lemma insert_key_inv s o s' : insert_key s o = Ok s' -> (forall k, k ∈ s -> k ∈ s') /\ forall g, o = Some g -> {| rk_model := pg_model g; rk_run_id := pg_run_id g |} ∈ s'.
Proof.
  destruct o as [g|]; cbn [insert_key]; intros E; [|by injection E as <-]. bind_step E E1. injection E as <-. unfold generation_key, run_key_new in E1. bind_step E1 E2.
  injection E1 as <-. setoid_rewrite (elem_of_bset_insert retention_key_cmp). split; [by right|]. intros g' [= <-]. by left.
Qed.

Lemma protected_has state keys p g : catalog_protected state = Ok keys -> p ∈ oc_lanes state -> pl_active p = Some g \/ pl_previous p = Some g ->
  {| rk_model := pg_model g; rk_run_id := pg_run_id g |} ∈ keys.
Proof.
  unfold catalog_protected. generalize (oc_lanes state), (@nil RunKey). intros ls.
  assert (Hmono : forall ls s keys, rfold (fun s lane => s ← insert_key s (pl_active lane); insert_key s (pl_previous lane)) ls s = Ok keys -> forall k, k ∈ s -> k ∈ keys).
  { clear. induction ls as [|p ls IH]; intros s keys E k Hk; [by injection E as <-|]. cbn [rfold] in E. bind_step E E1. bind_step E1 E2.
    eapply IH; [done|]. eapply (proj1 (insert_key_inv _ _ _ E1)), (proj1 (insert_key_inv _ _ _ E2)), Hk. }
  induction ls as [|q ls IH]; intros s E Hp Hg; [by apply not_elem_of_nil in Hp|]. cbn [rfold] in E. bind_step E E1. bind_step E1 E2.
  apply elem_of_cons in Hp as [<-|Hp]; [|by eapply IH]. eapply Hmono; [exact E|].
  destruct Hg as [Hg|Hg]; [eapply (proj1 (insert_key_inv _ _ _ E1)), (proj2 (insert_key_inv _ _ _ E2))|eapply (proj2 (insert_key_inv _ _ _ E1))]; done.
Qed.

Lemma loaded_valid origin entries state : load_or_empty origin entries = Ok state -> state = catalog_empty origin \/ catalog_validate origin state = Ok tt.
Proof.
  unfold load_or_empty. destruct (entries !! ORIGIN_CATALOG_FILE) as [[content| | |]|]; try done; [|intros [= <-]; by left].
  intros E. bind_step E E1. bind_step E E2. bind_step E E3. injection E as ->. right. by destruct a1.
Qed.

(** The generations of a loaded catalog are valid for their lanes. *)
Lemma loaded_generation origin entries state lane p g : load_or_empty origin entries = Ok state -> (lane, p) ∈ zip (lanes origin) (oc_lanes state) -> pl_active p = Some g ->
  validate_for_lane g lane = Ok tt.
Proof.
  intros [-> |Hv]%loaded_valid (i & Hl & Hp)%zip_fst_lookup Hg.
  { cbn [catalog_empty oc_lanes] in Hp. rewrite list_lookup_fmap, Hl in Hp. by injection Hp as <-. }
  unfold catalog_validate in Hv. bind_step Hv E1. bind_step Hv E2. bind_step Hv E3.
  assert ((p, lane) ∈ zip (oc_lanes state) (lanes origin)) as Hx by (apply list_elem_of_lookup; exists i; by apply lookup_zip_with_Some; exists p, lane).
  pose proof (rfold_unit_ok _ _ _ Hv _ Hx) as Hok. cbn beta in Hok. unfold validate_lane in Hok. bind_step Hok F1. bind_step Hok F2.
  rewrite Hg in F2. cbn [rtraverse] in F2. bind_step F2 F3. match type of F3 with _ = Ok ?u => by destruct u end.
Qed.

Lemma same_run_id c c' t t' : 0 <= hour_utc c <= 23 -> 0 <= hour_utc c' <= 23 -> cycle_origin_unix c = Ok t -> cycle_origin_unix c' = Ok t' ->
  canonical_run_id c = canonical_run_id c' -> t = t'.
Proof.
  intros Hh Hh' E E' Eid. destruct (cycle_parts c t) as (y & m & d & Hv & _ & Ec & ->); [lia|done|]. destruct (cycle_parts c' t') as (y' & m' & d' & Hv' & _ & Ec' & ->); [lia|done|].
  rewrite Ec, Ec' in Eid. assert (str_compare (canonical_run_id (cycle_of y m d (hour_utc c))) (canonical_run_id (cycle_of y' m' d' (hour_utc c'))) = Eq) as Hx
    by (rewrite Eid; apply (cmp_refl str_compare)).
  rewrite run_id_compare in Hx by done. by apply lex4_eq in Hx as [= -> -> -> ->].
Qed.

(** C3: a refresh never moves a public name back in time. For every lane that
    publishes the newest available run, if the catalog on disk names an active
    generation and the refresh succeeds, the lane still has an active
    generation, and its cycle is not older; a published run that no longer
    passes validation makes the refresh fail instead. *)
Theorem newest_lanes_never_go_back origin records now entries current state entries' i lane p g t :
  load_or_empty origin entries = Ok current -> refresh_origin_catalog verify origin records now entries = (Ok state, entries') ->
  lanes origin !! i = Some lane -> selector lane = NewestAvailable -> oc_lanes current !! i = Some p -> pl_active p = Some g -> cycle_origin_unix (pg_cycle g) = Ok t ->
  exists p' g' t', oc_lanes state !! i = Some p' /\ pl_active p' = Some g' /\ cycle_origin_unix (pg_cycle g') = Ok t' /\ t <= t'.
Proof.
  intros Hcur E Hlane Hsel Hp Hg Ht. destruct (refresh_inv _ _ _ _ _ _ E) as (cur & cs & next & keys & Hc' & Hk & Hb & Hstill & Hn & Heq & _).
  rewrite Hcur in Hc'. injection Hc' as <-. pose proof (backed_candidates _ _ Hb) as Hmade.
  assert (Hv : validate_for_lane g lane = Ok tt).
  { eapply loaded_generation; [exact Hcur| |exact Hg]. apply list_elem_of_lookup. exists i. by apply lookup_zip_with_Some; exists lane, p. }
  pose proof (protected_has _ _ p g Hk (list_elem_of_lookup_2 _ _ _ Hp) (or_introl Hg)) as (c & Hc & Ekey)%Hstill. injection Ekey as Emod Eid.
  destruct (Hb c Hc) as (record & coverage & B). destruct (backed_made _ _ _ _ B) as (Mc & Hav & Hcid & Hch). destruct (candidate_made_facts _ Mc) as (_ & Oc & _).
  unfold validate_for_lane in Hv. bind_step Hv V1. bind_step Hv V2. bind_step Hv V3. apply reject_inv, negb_false_iff, bool_decide_eq_true in V1, V2. apply new_hour_range in V3.
  assert (t = rc_origin c) as -> by (eapply (same_run_id (pg_cycle g) (rc_cycle c)); [done..|congruence]).
  destruct (from_candidates_inv _ _ _ _ Hmade Hn) as [H3 _]. destruct (Forall2_lookup_l _ _ _ _ _ H3 Hlane) as (p' & Hp' & n & b & [Ha _] & ->).
  assert (Hmatch : candidate_matches_lane c lane = true).
  { unfold candidate_matches_lane. rewrite bool_decide_eq_true_2 by congruence. rewrite Hsel. cbn [negb]. by destruct (rc_available c). }
  destruct n as [n|]; cbn [newest_of] in Ha; [|by destruct (Ha c)]. destruct Ha as (Ha & _ & Hmax). specialize (Hmax c Hc Hmatch).
  destruct (candidate_made_facts n) as (_ & Oa & _); [exact (proj1 (list.Forall_forall _ _) Hmade n Ha)|].
  eexists _, _, (rc_origin n). rewrite Heq. split; [exact Hp'|]. split; [done|]. split; [exact Oa|].
  unfold run_key_cmp, pair_cmp, candidate_key in Hmax. cbn [fst snd] in Hmax. destruct (Z.compare_spec (rc_origin c) (rc_origin n)); [lia|lia|done].
Qed.
End catalog.

(** ** Retention after a refresh *)

Section retention.
Context `{JobJson} `{ReadDir} `{CatalogJson} `{!CatalogJsonLaws} `{OwnerJson} {faults : WriteFaults}.
Context (config : SchedulerConfig) (verify : JobPlan -> SchedulerResult RunCoverage) (lock_held : string * string -> bool) (pid : Z).

(** The operations of a pass that leave a part of the host alone. *)
Definition same_tree {A} (op : host_op A) : Prop := forall h r h', op h = (r, h') -> tree h' = tree h.
Definition same_catalog {A} (op : host_op A) : Prop := forall h r h', op h = (r, h') -> catalog h' = catalog h.

Lemma bind_same_tree {A B} (op : host_op A) (k : A -> host_op B) : same_tree op -> (forall a, same_tree (k a)) -> same_tree (mbind k op).
Proof. intros Ho Hk h r h' E. unfold mbind, host_bind in E. destruct (op h) as [x h1] eqn:E1. apply Ho in E1. destruct x as [a| |]; [apply Hk in E; congruence|injection E as <- <-; done..]. Qed.
Lemma bind_same_catalog {A B} (op : host_op A) (k : A -> host_op B) : same_catalog op -> (forall a, same_catalog (k a)) -> same_catalog (mbind k op).
Proof. intros Ho Hk h r h' E. unfold mbind, host_bind in E. destruct (op h) as [x h1] eqn:E1. apply Ho in E1. destruct x as [a| |]; [apply Hk in E; congruence|injection E as <- <-; done..]. Qed.

Lemma prune_states records keys u : same_tree (host_fold (prune_state records) keys u) /\ same_catalog (host_fold (prune_state records) keys u).
Proof.
  revert u. induction keys as [|key keys IH]; intros u; [split; intros h r h' E; by injection E as <- <-|]. cbn [host_fold].
  assert (forall x, same_tree (prune_state records u x) /\ same_catalog (prune_state records u x)) as Hx.
  { intros x. unfold prune_state. destruct (List.find _ _) as [record|]; [|split; intros h r h' E; by injection E as <- <-].
    unfold on_jobs. split; intros h r h' E; destruct (remove_terminal _ _) as [y root]; by injection E as <- <-. }
  split; [apply bind_same_tree|apply bind_same_catalog]; try apply Hx; intros a; apply IH.
Qed.

(** Retention changes the run directories as its execution does, and not the
    catalog. *)
Lemma run_retention_inv records protected h r h' : run_retention config lock_held pid records protected h = (r, h') ->
  catalog h' = catalog h /\ (tree h' = tree h \/ exists plan, plan_owned_retention records protected (Z.to_nat (keep_latest_per_model (retention config))) = Ok plan
    /\ only_removed lock_held records plan (retention_dry_run (retention config)) (tree h) (tree h')).
Proof.
  intros E. unfold run_retention in E. destruct (negb _); [injection E as <- <-; split; [done|by left]|]. unfold mbind at 1, host_bind, pure in E.
  destruct (plan_owned_retention _ _ _) as [plan| |] eqn:Ep; [|injection E as <- <-; split; [done|by left]..]. unfold mbind at 1, host_bind, on_tree in E.
  destruct (execute_retention lock_held pid records plan (retention_dry_run (retention config)) (tree h)) as [x t] eqn:Et.
  apply execute_retention_inv in Et. destruct x as [execution| |]; [|injection E as <- <-; split; [done|right; by exists plan]..]. unfold mbind at 1, host_bind in E.
  destruct ((if ex_dry_run execution then mret tt else host_fold (prune_state records) (state_prunable execution) tt) _) as [y h2] eqn:Ey.
  assert (tree h2 = t /\ catalog h2 = catalog h) as [Et2 Ec2].
  { destruct (ex_dry_run execution); [by injection Ey as <- <-|]. destruct (prune_states records (state_prunable execution) tt) as [Ht Hc].
    split; [by apply Ht in Ey|by apply Hc in Ey]. }
  assert (h' = h2) as -> by (destruct y; by injection E as _ <-). split; [done|]. right. exists plan. by rewrite Et2.
Qed.

Lemma retention_keeps_published records protected h r h' key : run_retention config lock_held pid records protected h = (r, h') -> key ∈ protected ->
  tree h' !! run_dir (rk_model key) (rk_run_id key) = tree h !! run_dir (rk_model key) (rk_run_id key).
Proof.
  intros [_ [->|(plan & Ep & Ho)]]%run_retention_inv Hk; [done|].
  destruct (Ho (run_dir (rk_model key) (rk_run_id key))) as [?|(_ & _ & node & record & _ & R)]; [done|exfalso].
  destruct (active_jobs_keep_their_runs _ _ _ _ Ep) as [_ Hd]. destruct (Hd _ (rm_planned _ _ _ _ _ _ R)) as [Hno _]. apply Hno.
  pose proof (rm_dir _ _ _ _ _ _ R) as Ed. unfold run_dir, record_dir in Ed. apply pair_eq in Ed as [Em%(inj model_as_str) Ei].
  unfold record_run_key. rewrite <- Em, <- Ei. by destruct key.
Qed.

(** C1: the end of a pass never removes a run that readers are sent to.
    Whatever the result of the pass, if the catalog that is on disk after it
    publishes a generation, the directory of that run is exactly as it was
    before the catalog was refreshed and retention ran. *)
Theorem published_runs_survive origin now report h r h' state lane g : origin_catalog_plan config = Some origin ->
  finish_pass config verify lock_held pid now report h = (r, h') -> load_or_empty origin (catalog h') = Ok state -> published_in origin state lane g ->
  tree h' !! run_dir (pg_model g) (pg_run_id g) = tree h !! run_dir (pg_model g) (pg_run_id g).
Proof.
  intros Ho E Hl (p & (i & _ & Hp)%zip_fst_lookup & Hg). unfold finish_pass in E. unfold mbind at 1, host_bind, pure at 1 in E.
  destruct (expanded_models config) as [models| |]; [|by injection E as <- <-..]. unfold mbind at 1, host_bind, read_jobs at 1 in E.
  destruct (load_all (jobs h)) as [all| |]; [|by injection E as <- <-..]. rewrite Ho in E. set (records := List.filter _ all) in E.
  unfold mbind at 1, host_bind in E. unfold mbind at 1, host_bind, on_catalog in E.
  destruct (refresh_origin_catalog verify origin records now (catalog h)) as [x entries] eqn:Er. destruct x as [st| |]; [|by injection E as <- <-..].
  unfold mbind at 1, host_bind, pure in E. destruct (catalog_protected st) as [keys| |] eqn:Ek; [|by injection E as <- <-..].
  unfold mbind, host_bind, mret, host_ret in E. cbn [fst snd] in E. destruct (run_retention _ _ _ _ _ _) as [y h2] eqn:Ey.
  assert (h' = h2) as -> by (destruct y; by injection E as _ <-).
  destruct (refresh_inv _ _ _ _ _ _ _ Er) as (_ & _ & _ & _ & _ & _ & _ & _ & _ & _ & Hload & _).
  assert (Hcat : catalog h2 = entries) by exact (proj1 (run_retention_inv _ _ _ _ _ Ey)).
  rewrite Hcat, Hload in Hl. injection Hl as <-.
  exact (retention_keeps_published _ _ _ _ _ _ Ey (protected_has _ _ p g Ek (list_elem_of_lookup_2 _ _ _ Hp) Hg)).
Qed.
End retention.

(** ** Retry delays *)

Lemma jitter_span base pct : 1 <= base < 2 ^ 63 -> 0 <= pct <= 50 -> saturating_mul64 base pct / 100 <= base * pct / 100 /\ 0 <= saturating_mul64 base pct / 100 /\ base * pct / 100 <= base / 2.
Proof.
  intros Hb Hp. unfold saturating_mul64. split; [apply Z.div_le_mono; lia|]. split; [apply Z.div_pos; [|lia]; unfold U64_MAX; nia|].
  apply Z.div_le_lower_bound; [lia|]. pose proof (Z.mul_div_le (base * pct) 100 ltac:(lia)). nia.
Qed.

(** C35: the jittered retry delay is usable. For a policy whose delays fit a
    timestamp and a jitter of at most half, every attempt gets a delay, it
    lies between one second and the maximum that the failure transition
    accepts, and it differs from the capped exponential delay by at most the
    configured percentage; the same job and attempt always get the same
    delay. *)
Theorem jitter_stays_in_bounds p attempt key pct : policy_ok p -> max_backoff_seconds p < 2 ^ 63 -> 1 <= attempt -> 0 <= pct <= 50 ->
  exists base d, delay_after_attempt p attempt = Ok base /\ deterministic_jittered_delay p attempt key pct = Ok d
  /\ 1 <= d <= max_backoff_seconds p /\ Z.abs (d - base) <= base * pct / 100.
Proof.
  intros Hp Hm Ha Hpct. pose proof (delay_spec p attempt Hp Ha) as Hd. set (base := Z.min _ _) in Hd. exists base.
  assert (Hb : 1 <= base <= max_backoff_seconds p).
  { assert (1 <= 2 ^ (attempt - 1)) by (pose proof (Z.pow_pos_nonneg 2 (attempt - 1)); lia). destruct Hp as (_ & Hi & _). unfold base. nia. }
  destruct (jitter_span base pct) as (Hs1 & Hs2 & Hs3); [lia|done|]. assert (base / 2 < base) by (apply Z.div_lt; lia).
  unfold deterministic_jittered_delay. rewrite (proj2 (Z.ltb_ge 50 pct)) by lia. cbn [reject mbind result_bind]. rewrite Hd. cbn [mbind result_bind].
  destruct (Z.eqb_spec pct 0) as [->|Hz]; [exists base; split_and!; try done; lia|]. cbv zeta. set (span := saturating_mul64 base pct / 100) in *.
  destruct (Z.eqb_spec span 0) as [Es|Es]; [exists base; split_and!; try done; lia|].
  set (hash := fnv_hash _). eexists. split; [done|]. split; [done|].
  assert (Hspan : span <= base / 2) by lia. assert (base / 2 * 2 <= base) by (pose proof (Z.mul_div_le base 2 ltac:(lia)); lia).
  assert (Hw : Z.min (saturating_mul64 span 2 + 1) U64_MAX = 2 * span + 1) by (unfold saturating_mul64, U64_MAX; lia). rewrite Hw.
  pose proof (Z.mod_pos_bound hash (2 * span + 1) ltac:(lia)) as Hh. rewrite Z.mod_small by (unfold u64_limit; lia). lia.
Qed.

Theorem jitter_stays_in_bounds_witness : let p := {| max_attempts := 5; initial_backoff_seconds := 300; max_backoff_seconds := 3600 |} in
  exists base d, delay_after_attempt p 2 = Ok base /\ deterministic_jittered_delay p 2 "hrrr-2024010100"%string 20 = Ok d
  /\ 1 <= d <= max_backoff_seconds p /\ Z.abs (d - base) <= base * 20 / 100.
Proof. apply jitter_stays_in_bounds; [vm_compute; repeat split; discriminate|vm_compute; reflexivity|lia|lia]. Defined.

(** ** One job *)

Lemma jitter_nonneg p attempt key pct d : policy_ok p -> 1 <= attempt -> deterministic_jittered_delay p attempt key pct = Ok d -> 0 <= d.
Proof.
  intros Hp Ha. unfold deterministic_jittered_delay. intros E. bind_step E E1. rewrite (delay_spec p attempt Hp Ha) in E. cbn [mbind result_bind] in E.
  assert (0 <= 2 ^ (attempt - 1)) by (apply Z.pow_nonneg; lia). destruct Hp as (_ & Hi & _). cbv zeta in E.
  destruct (pct =? 0); [injection E as <-; nia|]. destruct (_ / 100 =? 0); [injection E as <-; nia|]. injection E as <-.
  match goal with |- context [?x mod u64_limit] => pose proof (Z.mod_pos_bound x u64_limit ltac:(done)) end. lia.
Qed.

(** A job that ran to the end of its record's last transition. *)
Record settled (p : RetryPolicy) (world : JobWorld) (record record' : JobRecord) : Prop := {
  st_plan : jr_plan record' = jr_plan record;
  st_inv : record_inv p record';
  st_idle : is_running (jr_state record') = false;
  st_success : forall t, jr_state record' = Succeeded t ->
    exists coverage, jw_outcome world = Ok coverage /\ is_complete coverage = true /\ matches_plan coverage (jr_plan record) = true
}.

Lemma effect_plan p ev r r' : job_effect p ev r r' -> jr_plan r' = jr_plan r.
Proof. by destruct 1. Qed.

Lemma failed_settles p world now error d r r' : policy_ok p -> record_inv p r -> 0 <= d ->
  finish_failure_with_delay now error p d r = (Ok tt, r') -> settled p world r r'.
Proof.
  intros Hp Hi Hd E. apply finish_failure_with_delay_effect in E; [|done|by apply (record_inv_attempts p)|done].
  pose proof (record_inv_effect _ _ _ _ Hp Hi E) as Hi'. pose proof (effect_plan _ _ _ _ E) as Hpl.
  assert (is_failed (jr_state r') = true \/ is_backoff (jr_state r') = true) as Hs.
  { inversion E; subst; cbn; auto; match goal with x : exists _, _ |- _ => destruct x as (? & [?|(? & ?)]) end; done. }
  split; [done|done|by destruct (jr_state r'), Hs|]. intros t Ht. rewrite Ht in Hs. by destruct Hs.
Qed.

Lemma settle_settles config p world message r r' : policy_ok p -> record_inv p r -> is_running (jr_state r) = true -> job_validate r' = Ok tt ->
  settle_record config p world message r = (Ok tt, r') -> settled p world r r'.
Proof.
  intros Hp Hi Hr Hval E. unfold settle_record in E. rewrite bind_self in E.
  assert (Ha : 1 <= attempts r). { pose proof (ri_attempts _ _ Hi) as Hx. unfold attempts_ok in Hx. destruct (jr_state r); try done. lia. }
  destruct (catch (jw_outcome world)) as [coverage|error|] eqn:Eo; [| |done].
  - assert (jw_outcome world = Ok coverage) as Ew by (by destruct (jw_outcome world)). destruct (is_complete coverage) eqn:Ec.
    + apply bind_lift_inv in E as (u & _ & E). apply (finish_success_effect p) in E. pose proof (record_inv_effect _ _ _ _ Hp Hi E) as Hi'.
      pose proof (effect_plan _ _ _ _ E). inversion E; subst; try (by match goal with x : exists _, _ |- _ => destruct x as (? & [?|(? & ?)]) end).
      split; try done. intros t _. by exists coverage.
    + apply bind_lift_inv in E as (u & _ & E). apply bind_lift_inv in E as (d & Ed & E). apply jitter_nonneg in Ed; [|done|done]. by eapply failed_settles.
  - destruct (jw_cancelled world).
    + apply bind_op_inv in E as (u & r1 & E1 & E). apply bind_op_inv in E as (b & r2 & E2 & E). injection E as <-. injection E1 as <- <-.
      apply recover_inv in E2 as [_ ->]. unfold recovered in *. cbn [jr_state] in *. rewrite Hr in *. split; [done| |done|done].
      pose proof (record_inv_attempts p r Hp Hi). pose proof (ri_attempts _ _ Hi) as Hx. unfold attempts_ok in Hx. destruct Hi as [Hs Hpl _ _]. split; [done|done| |].
      * unfold job_validate in Hval. bind_step Hval V1. bind_step Hval V2. bind_step Hval V3. apply reject_inv in V3. cbn [upd last_error] in *. intros e [= <-]. lia.
      * unfold attempts_ok. cbn [upd jr_state attempts]. destruct (jr_state r); try done. lia.
    + apply bind_lift_inv in E as (d & Ed & E). apply jitter_nonneg in Ed; [|done|done]. by eapply failed_settles.
Qed.

Definition not_running (r : JobRecord) : Prop := is_running (jr_state r) = false.

(** What an operation on a record that succeeds leaves. *)
Definition leaves (op : job_op unit) : Prop := forall r r', op r = (Ok tt, r') -> jr_plan r' = jr_plan r /\ not_running r'.

Lemma release_leaves now : leaves (release_retry now).
Proof. intros r r' E. unfold release_retry in E. op_inv E. by op_done E. Qed.
Lemma requeue_leaves now reason : leaves (requeue_for_repair now reason).
Proof. intros r r' E. unfold requeue_for_repair in E. op_inv E. by op_done E. Qed.

Lemma failure_leaves now error p : leaves (finish_failure now error p).
Proof.
  intros r r' E. unfold finish_failure in E. op_inv E. destruct (max_attempts p <=? attempts r); [by op_done E|]. op_inv E. by op_done E.
Qed.
Lemma failure_with_delay_leaves now error p d : leaves (finish_failure_with_delay now error p d).
Proof.
  intros r r' E. unfold finish_failure_with_delay in E. apply bind_lift_inv in E as (u & _ & E). apply bind_op_inv in E as ([] & r1 & E1 & E).
  apply failure_leaves in E1 as [Hp Hr]. rewrite bind_self in E. destruct (is_backoff (jr_state r1)); [|by injection E as <-]. op_inv E. op_done E. by rewrite <- Hp.
Qed.

Lemma settle_leaves config message p world : leaves (settle_record config p world message).
Proof.
  intros r r' E. unfold settle_record in E. rewrite bind_self in E. destruct (catch (jw_outcome world)) as [coverage|error|]; [| |done].
  - destruct (is_complete coverage); (apply bind_lift_inv in E as (u & _ & E)).
    + unfold finish_success in E. op_inv E. by op_done E.
    + apply bind_lift_inv in E as (d & _ & E). by eapply failure_with_delay_leaves.
  - destruct (jw_cancelled world).
    + apply bind_op_inv in E as (u & r1 & E1 & E). apply bind_op_inv in E as (b & r2 & E2 & E). injection E as <-. injection E1 as <- <-.
      apply recover_inv in E2 as [_ ->]. split; [unfold recovered; by destruct (is_running _)|apply recovered_idle].
    + apply bind_lift_inv in E as (d & _ & E). by eapply failure_with_delay_leaves.
Qed.

(** A save that failed: the other records are as they were, and so is this
    one, unless its file had been renamed into place already. *)
Lemma save_failed `{JobJson} `{!JobJsonLaws} `{WriteFaults} r m x root' : store_save r (RootEntries m) = (x, root') -> x <> Ok tt ->
  exists m', root' = RootEntries m' /\ (forall id r0, id <> record_id r -> record_file m' id r0 <-> record_file m id r0)
  /\ ((forall r0, record_file m' (record_id r) r0 <-> record_file m (record_id r) r0) \/ job_validate r = Ok tt /\ record_file m' (record_id r) r).
Proof.
  assert (Hsame : forall y, (y, RootEntries m) = (x, root') -> exists m', root' = RootEntries m' /\ (forall id r0, id <> record_id r -> record_file m' id r0 <-> record_file m id r0)
    /\ ((forall r0, record_file m' (record_id r) r0 <-> record_file m (record_id r) r0) \/ job_validate r = Ok tt /\ record_file m' (record_id r) r)).
  { intros y [= _ <-]. exists m. split; [done|]. split; [done|by left]. }
  unfold store_save. destruct (job_validate r) as [[]| |] eqn:Ev; [|by intros E _; apply (Hsame _ E)..].
  destruct (record_to_vec_pretty r) as [content| |] eqn:Ec; cbn [mbind result_bind]; [|by intros E _; apply (Hsame _ E)..].
  destruct (reject _ _) as [[]| |] eqn:El; cbn [mbind result_bind]; [|by intros E _; apply (Hsame _ E)..]. apply reject_inv, Z.ltb_ge in El.
  fold (record_id r). destruct (path_for (record_id r)) as [name| |] eqn:En; cbn [mbind result_bind]; [|by intros E _; apply (Hsame _ E)..]. clear Hsame.
  unfold durable_atomic_write. destruct (replace_entry name content m) as [y m'] eqn:Er. intros [= _ <-] _. exists m'. split; [done|].
  destruct (replace_cases _ _ _ _ _ Er) as [(-> & _)|(_ & l & ->)].
  - split; [intros id r0; by apply other_file|]. right. split; [done|]. by apply saved_file.
  - assert (Hf : forall id r0, record_file (leave_temp name content l m) id r0 <-> record_file m id r0).
    { assert (Hn : forall id n, path_for id = Ok n -> ~ temporary n) by (intros id n [Hs _]%path_for_inv (f & p & q & ->); by rewrite temp_not_json in Hs).
      intros id r0. split; apply record_file_ext; intros n Hp%Hn; by rewrite leave_temp_other. }
    split; [intros id r0 _; apply Hf|left; apply Hf].
Qed.

(** A save that succeeded: the record loads, every other one is as it was. *)
Lemma save_loads `{JobJson} `{!JobJsonLaws} `{WriteFaults} r m root' : store_save r (RootEntries m) = (Ok tt, root') ->
  job_validate r = Ok tt /\ exists m', root' = RootEntries m' /\ record_file m' (record_id r) r /\ forall id r0, id <> record_id r -> record_file m' id r0 <-> record_file m id r0.
Proof.
  intros (name & content & Hv & Hc & Hl & Hn & _ & ->)%save_ok. split; [done|]. eexists. split; [done|]. split; [by apply saved_file|].
  intros id r0 Hne. by apply (other_file name content m (record_id r)).
Qed.

Section job.
Context `{JobJson} `{!JobJsonLaws} {faults : WriteFaults} (config : SchedulerConfig) (message : SchedulerError -> string).

(** The job is about to run, or runs. *)
Definition started (p : RetryPolicy) (world : JobWorld) (record record' : JobRecord) : Prop :=
  jr_plan record' = jr_plan record /\ record_inv p record' /\ jr_state record' = Running (jw_started world).

Lemma start_starts p world record record' : policy_ok p -> record_inv p record -> start (jw_started world) p record = (Ok tt, record') -> started p world record record'.
Proof.
  intros Hp Hi E. apply start_effect in E. pose proof (record_inv_effect _ _ _ _ Hp Hi E) as Hi'.
  inversion E; subst; [by split| |]; match goal with x : exists _, _ |- _ => by destruct x as (? & [?|(? & ? & ?)]) || by destruct x as (? & [?|(? & ?)]) end.
Qed.

(** C5: a job always ends in a record that a restart can use. Executing a
    saved job leaves every other job's record as it was. When it succeeds,
    the record it returns is the one on disk, belongs to the same plan,
    satisfies the invariant of records and is not running, and it says
    succeeded only when the run had complete coverage of this plan. When it
    fails at any point, what is on disk is the record from before, the running
    one, which recovery after a restart requeues, or the settled one, when
    only the sync of the directory failed after its file was in place. *)
Theorem jobs_end_settled p world record m h r h' : retry_config_policy (retry config) = Ok p -> policy_ok p -> record_inv p record ->
  jobs h = RootEntries m -> record_file m (record_id record) record -> execute_one config message world record h = (r, h') ->
  exists m' record', jobs h' = RootEntries m' /\ (forall id r0, id <> record_id record -> record_file m' id r0 <-> record_file m id r0)
  /\ record_file m' (record_id record) record'
  /\ match r with
     | Ok result => result = record' /\ settled p world record record'
     | _ => record' = record \/ started p world record record' \/ settled p world record record'
     end.
Proof.
  intros Hpol Hp Hi Hj Hf E. unfold execute_one in E. rewrite Hpol in E. unfold mbind at 1, host_bind, pure in E.
  set (ends := fun h1 : Host => exists m' record', jobs h1 = RootEntries m' /\ (forall id r0, id <> record_id record -> record_file m' id r0 <-> record_file m id r0)
    /\ record_file m' (record_id record) record' /\ (record' = record \/ started p world record record' \/ settled p world record record')).
  assert (Hstop : ends h) by (exists m, record; split_and!; try done; by left).
  destruct (start (jw_started world) p record) as [rs r1] eqn:Es. unfold mbind at 1, host_bind, pure in E.
  destruct rs as [[]|e|]; [|injection E as <- <-; exact Hstop..]. apply start_starts in Es; [|done|done]. pose proof Es as (Hpl & Hi1 & Hrun).
  assert (Hid : record_id r1 = record_id record) by (unfold record_id; by rewrite Hpl).
  unfold mbind at 1, host_bind, on_jobs in E. rewrite Hj in E. destruct (store_save r1 (RootEntries m)) as [x root1] eqn:E1.
  assert (Hfail1 : x <> Ok tt -> ends {| jobs := root1; catalog := catalog h; tree := tree h |}).
  { intros Hx. destruct (save_failed _ _ _ _ E1 Hx) as (m' & -> & Ho & Hr). rewrite Hid in Ho, Hr. destruct Hr as [Hr|[_ Hr]].
    - exists m', record. split_and!; try done; [by apply Hr|by left].
    - exists m', r1. split_and!; try done. by auto. }
  destruct x as [[]|e|]; [|injection E as <- <-; by apply Hfail1..]. clear Hfail1.
  apply save_loads in E1 as (_ & m1 & -> & Hf1 & Ho1). rewrite Hid in Hf1, Ho1.
  assert (Hmid : forall h1, jobs h1 = RootEntries m1 -> ends h1) by (intros h1 Hh; exists m1, r1; split_and!; try done; by auto).
  destruct (settle_record config p world message r1) as [rf r2] eqn:Ef. unfold mbind at 1, host_bind, pure in E.
  destruct rf as [[]|e|]; [|injection E as <- <-; by apply Hmid..].
  assert (Hset : job_validate r2 = Ok tt -> record_id r2 = record_id record /\ settled p world record r2).
  { intros Hv2. apply settle_settles in Ef as [S1 S2 S3 S4]; [|done|done|by rewrite Hrun|done]. split; [unfold record_id; by rewrite S1, Hpl|].
    split; [congruence|done|done|]. intros t Ht. destruct (S4 t Ht) as (coverage & ? & ? & ?). exists coverage. by rewrite <- Hpl. }
  unfold mbind, host_bind, on_jobs in E. cbn [jobs] in E. destruct (store_save r2 (RootEntries m1)) as [x root2] eqn:E2.
  assert (Hid2 : record_id r2 = record_id record).
  { apply settle_leaves in Ef as [Ef _]. unfold record_id. by rewrite Ef, Hpl. }
  assert (Hfail2 : x <> Ok tt -> ends {| jobs := root2; catalog := catalog h; tree := tree h |}).
  { intros Hx. destruct (save_failed _ _ _ _ E2 Hx) as (m' & -> & Ho & Hr). rewrite Hid2 in Ho, Hr. destruct Hr as [Hr|[Hv Hr]].
    - exists m', r1. split; [done|]. split; [intros id r0 Hne; by rewrite Ho, Ho1|]. split; [by apply Hr|by auto].
    - exists m', r2. split; [done|]. split; [intros id r0 Hne; by rewrite Ho, Ho1|]. split; [done|]. right. right. by apply Hset. }
  destruct x as [[]|e|]; [|injection E as <- <-; by apply Hfail2..].
  apply save_loads in E2 as (Hv2 & m2 & -> & Hf2 & Ho2). injection E as <- <-. rewrite Hid2 in Hf2, Ho2.
  exists m2, r2. split; [done|]. split; [intros id r0 Hne; by rewrite Ho2, Ho1|]. split; [done|]. split; [done|]. by apply Hset.
Qed.
End job.

(** ** The whole pass *)

(** What holds after an operation that succeeds. *)
Definition ensures {A} (P : Host -> Prop) (op : host_op A) (Q : A -> Host -> Prop) : Prop := forall h a h', P h -> op h = (Ok a, h') -> Q a h'.

Lemma ensures_bind {A B} P (op : host_op A) (k : A -> host_op B) Q R : ensures P op Q -> (forall a, ensures (Q a) (k a) R) -> ensures P (mbind k op) R.
Proof. intros Ho Hk h b h' HP E. unfold mbind, host_bind in E. destruct (op h) as [[a| |] h1] eqn:E1; [|done..]. eapply Hk; [by eapply Ho|done]. Qed.
Lemma ensures_pure {A} P (x : SchedulerResult A) : ensures P (pure x) (fun a h => x = Ok a /\ P h).
Proof. intros h a h' HP E. by injection E as -> <-. Qed.
Lemma ensures_ret {A} (P : Host -> Prop) (a : A) (Q : A -> Host -> Prop) : (forall h, P h -> Q a h) -> ensures P (mret a) Q.
Proof. intros HQ h b h' HP E. injection E as <- <-. by apply HQ. Qed.
Lemma ensures_read {A} P (f : StateRoot -> SchedulerResult A) : ensures P (read_jobs f) (fun a h => f (jobs h) = Ok a /\ P h).
Proof. intros h a h' HP E. by injection E as E <-. Qed.
Lemma ensures_weaken {A} (P P' : Host -> Prop) (op : host_op A) (Q Q' : A -> Host -> Prop) : ensures P op Q -> (forall h, P' h -> P h) -> (forall a h, Q a h -> Q' a h) -> ensures P' op Q'.
Proof. intros Ho HP HQ h a h' Hh E. eapply HQ, Ho; [by apply HP|done]. Qed.
(** Folding keeps an invariant of the accumulator and the host. *)
Lemma ensures_fold {A B} (I : B -> Host -> Prop) (step : B -> A -> host_op B) l b : (forall b x, x ∈ l -> ensures (I b) (step b x) I) -> ensures (I b) (host_fold step l b) I.
Proof.
  revert b. induction l as [|x l IH]; intros b Hs; cbn [host_fold].
  - by apply ensures_ret.
  - eapply ensures_bind; [apply Hs; left|]. intros b'. apply IH. intros b'' y Hy. apply Hs. by right.
Qed.

Section pass.
Context `{JobJson} `{!JobJsonLaws} `{ReadDir} `{!ReadDirLaws} `{CatalogJson} `{OwnerJson} {faults : WriteFaults}.
Context (config : SchedulerConfig) (verify : JobPlan -> SchedulerResult RunCoverage) (message : SchedulerError -> string).
Context (lock_held : string * string -> bool) (pid : Z).

(** No record on disk is running, except perhaps that of one job. *)
Definition idle_but (id : option string) (root : StateRoot) : Prop := forall id' r, store_load id' root = Ok r -> Some id' <> id -> not_running r.
Definition idle : StateRoot -> Prop := idle_but None.

Lemma save_idle r root x root' : idle_but (Some (record_id r)) root -> not_running r -> store_save r root = (x, root') -> x = Ok tt -> idle root'.
Proof.
  intros Hi Hr E ->. assert (exists m, store_save r (RootEntries m) = (Ok tt, root') /\ forall id r0, record_file m id r0 -> id <> record_id r -> not_running r0) as (m & Em & Hm).
  { destruct root as [| | |m]; [|by unfold store_save in E; destruct (job_validate r)..|].
    - exists ∅. split; [unfold store_save in *; by destruct (job_validate r)|]. intros id r0 (name & content & _ & Hx & _). by rewrite lookup_empty in Hx.
    - exists m. split; [done|]. intros id r0 Hf%load_iff Hne. eapply Hi; [done|]. congruence. }
  apply save_loads in Em as (_ & m' & -> & Hf & Ho). intros id r0 Hl%load_iff _. destruct (decide (id = record_id r)) as [->|Hne].
  - by rewrite (record_file_fun _ _ _ _ Hl Hf).
  - eapply Hm; [|done]. by apply Ho.
Qed.

Lemma idle_weaken id root : idle root -> idle_but (Some id) root.
Proof. intros Hi id' r Hl _. by eapply Hi. Qed.

Lemma save_keeps_idle r (P : Host -> Prop) : (forall h, P h -> idle_but (Some (record_id r)) (jobs h)) -> not_running r -> ensures P (on_jobs (store_save r)) (fun _ h => idle (jobs h)).
Proof.
  intros HP Hr h u h' Hh E. unfold on_jobs in E. destruct (store_save r (jobs h)) as [x root] eqn:Es. injection E as -> <-. destruct u. eapply save_idle; [by apply HP|done|done|done].
Qed.

Lemma recovery_idles now : ensures (fun _ => True) (on_jobs (recover_running now)) (fun rs h => idle (jobs h) /\ Forall not_running rs).
Proof.
  intros h rs h' _ E. unfold on_jobs in E. destruct (recover_running now (jobs h)) as [x root] eqn:Er. injection E as -> <-. cbn [jobs].
  unfold recover_running in Er. destruct (load_all (jobs h)) as [all| |] eqn:El; [|done..]. destruct (jobs h) as [| | |m]; [injection El as <-; injection Er as <- <-; by split|done..|].
  apply load_all_iff in El as (_ & _ & Hs & Hm). pose proof (sorted_ids_nodup _ Hs) as Hnd.
  destruct (recover_each_spec _ _ _ _ _ Hnd (fun r Hr => proj1 (Hm r) Hr) Er) as (-> & m' & -> & [R1 R2 _]). split.
  - intros id r Hl%load_iff _. destruct (decide (id ∈ record_id <$> all)) as [(r0 & -> & Hr0)%list_elem_of_fmap|Hn].
    + rewrite (record_file_fun _ _ _ _ Hl (R1 r0 Hr0)). apply recovered_idle.
    + exfalso. apply Hn. apply (R2 id r Hn) in Hl. apply list_elem_of_fmap. exists r. assert (record_id r = id) as Eid by (by destruct Hl as (? & ? & _ & _ & _ & _ & ? & _)).
      split; [done|]. apply Hm. by rewrite Eid.
  - apply Forall_fmap, list.Forall_forall. intros r _. apply recovered_idle.
Qed.

(** *** Admission *)

Definition all_idle (l : list (string * JobRecord)) : Prop := Forall not_running l.*2.

Lemma insert_idle id r l : not_running r -> all_idle l -> all_idle (bmap_insert str_compare id r l).
Proof.
  intros Hr. unfold all_idle, bmap_insert. induction l as [|[k x] l IH]; cbn [bmap_alter fmap list_fmap snd]; intros Hl; [by constructor|].
  apply Forall_cons in Hl as [Hx Hl]. destruct (str_compare id k); cbn [fmap list_fmap snd]; repeat constructor; auto.
Qed.

Lemma kept_idle allowlist protected recovered records : keep_recovered allowlist protected recovered = Ok records -> Forall not_running recovered -> all_idle records.
Proof.
  unfold keep_recovered. revert records. induction recovered as [|r rs IH] using rev_ind; intros records E Hf; [injection E as <-; constructor|].
  apply Forall_app in Hf as [Hf Hr%Forall_inv]. rewrite rfold_app in E. bind_step E E1. specialize (IH _ eq_refl Hf). cbn [rfold mbind result_bind] in E.
  bind_step E E2. injection E as <-. bind_step E2 E3. injection E2 as <-. destruct (_ && _); [by apply insert_idle|done].
Qed.

Lemma admit_idle now acc x : ensures (fun h => idle (jobs h) /\ all_idle (ad_records acc)) (admit_step config now acc x) (fun acc' h => idle (jobs h) /\ all_idle (ad_records acc')).
Proof.
  destruct x as [[key model] [discovered|error]]; cbn [admit_step].
  2: { by apply ensures_ret. }
  eapply ensures_bind; [apply ensures_pure|]. intros profile. eapply ensures_bind; [apply ensures_pure|]. intros plan.
  assert (Hins : forall record new (P : Host -> Prop), (forall h, P h -> idle (jobs h) /\ all_idle (ad_records acc) /\ not_running record) ->
    ensures P (mret (ad_insert acc record new)) (fun acc' h => idle (jobs h) /\ all_idle (ad_records acc'))).
  { intros record new P HP. apply ensures_ret. intros h (? & ? & ?)%HP. split; [done|]. by apply insert_idle. }
  destruct (bmap_get str_compare (job_id plan) (ad_records acc)) as [record|] eqn:Eg.
  - apply Hins. intros h (_ & _ & Hi & Ha). split; [done|]. split; [done|]. apply (proj1 (list.Forall_forall _ _) Ha). apply (bmap_get_elem str_compare) in Eg. apply list_elem_of_fmap. by exists (job_id plan, record).
  - eapply ensures_bind; [apply ensures_read|]. intros []; (eapply ensures_bind; [apply ensures_read || apply ensures_pure|]; intros record; apply Hins; intros h).
    + intros (Hl & _ & _ & _ & Hi & Ha). split; [done|]. split; [done|]. by eapply Hi.
    + intros (Hn & _ & _ & _ & Hi & Ha). split; [done|]. split; [done|]. unfold job_record_new in Hn. bind_step Hn En. by injection Hn as <-.
Qed.

Lemma gather_idles now discoveries : ensures (fun _ => True) (gather_jobs config now discoveries) (fun _ h => idle (jobs h)).
Proof.
  unfold gather_jobs. eapply ensures_bind; [apply recovery_idles|]. intros recovered. eapply ensures_bind; [apply ensures_pure|]. intros models.
  eapply ensures_bind with (Q := fun _ h => idle (jobs h) /\ Forall not_running recovered).
  { unfold published_protected. destruct (origin_catalog_plan config); [intros h a h' (_ & ? & ?) E; by injection E as _ <-|].
    apply ensures_ret. by intros h (_ & ? & ?). }
  intros protected. eapply ensures_bind; [apply ensures_pure|]. intros records.
  eapply ensures_bind with (Q := fun acc h => idle (jobs h) /\ all_idle (ad_records acc)).
  { eapply ensures_weaken; [apply (ensures_fold (fun acc h => idle (jobs h) /\ all_idle (ad_records acc)))| |by intros a h Hx]; [intros b x _; apply admit_idle|].
    intros h (Hk & Hi & Hf). split; [done|]. by eapply kept_idle. }
  intros acc. eapply ensures_bind; [apply ensures_pure|]. intros capacity. eapply ensures_bind; [apply ensures_pure|]. intros u.
  eapply ensures_bind with (Q := fun _ h => idle (jobs h) /\ all_idle (ad_records acc)).
  { eapply ensures_weaken; [apply (ensures_fold (fun _ h => idle (jobs h) /\ all_idle (ad_records acc)))|by intros h (_ & _ & ? & ?)|done].
    intros b id _. unfold save_new. eapply ensures_bind; [apply ensures_pure|]. intros record.
    intros h x h' (Hg & Hi & Ha) E. split; [|done]. apply ok_or_inv, (bmap_get_elem str_compare) in Hg.
    assert (not_running record) as Hr by (apply (proj1 (list.Forall_forall _ _) Ha), list_elem_of_fmap; by exists (id, record)).
    revert E. apply (ensures_bind (fun h => idle (jobs h)) _ _ (fun _ h => idle (jobs h)) (fun _ h => idle (jobs h))); [|intros _ h1 ? h2 Hh [= _ <-]; done|done].
    apply save_keeps_idle; [|done]. intros h1. apply idle_weaken. }
  intros new. apply ensures_ret. by intros h [? _].
Qed.

(** *** Execution *)

Lemma start_plan now p r r' : start now p r = (Ok tt, r') -> jr_plan r' = jr_plan r.
Proof. intros E%start_effect. by eapply effect_plan. Qed.

Lemma execute_one_idle world record : ensures (fun h => idle (jobs h)) (execute_one config message world record) (fun _ h => idle (jobs h)).
Proof.
  unfold execute_one. eapply ensures_bind; [apply ensures_pure|]. intros p. destruct (start (jw_started world) p record) as [r0 r1] eqn:Es.
  eapply ensures_bind; [apply ensures_pure|]. intros [].
  eapply ensures_bind with (Q := fun _ h => idle_but (Some (record_id r1)) (jobs h)).
  { intros h u h' (_ & _ & Hi) E. unfold on_jobs in E. destruct (store_save r1 (jobs h)) as [x root] eqn:Ex. injection E as -> <-. destruct u. cbn [jobs].
    destruct (jobs h) as [| | |m] eqn:Ej.
    - intros id r Hl Hne. assert (store_save r1 (RootEntries ∅) = (Ok tt, root)) as (_ & m' & -> & _ & Ho)%save_loads by (unfold store_save in *; by destruct (job_validate r1)).
      apply load_iff in Hl. apply Ho in Hl; [|congruence]. destruct Hl as (? & ? & _ & Hx & _). by rewrite lookup_empty in Hx.
    - unfold store_save in Ex. by destruct (job_validate r1).
    - unfold store_save in Ex. by destruct (job_validate r1).
    - apply save_loads in Ex as (_ & m' & -> & _ & Ho). intros id r Hl%load_iff Hne. eapply Hi; [|done]. apply load_iff. apply Ho; [|done]. congruence. }
  intros _. destruct (settle_record config p world message r1) as [x r2] eqn:Ef. eapply ensures_bind; [apply ensures_pure|]. intros [].
  intros h a h' [-> Hi] E. apply settle_leaves in Ef as [Hp Hr]. revert E.
  apply (ensures_bind (fun h => idle_but (Some (record_id r2)) (jobs h)) _ _ (fun _ h => idle (jobs h)) (fun _ h => idle (jobs h))); [by apply save_keeps_idle|intros _; by apply ensures_ret|].
  unfold record_id in *. by rewrite Hp.
Qed.

Lemma chunk_idle worlds records h rs h' : run_chunk config message worlds records h = (rs, h') -> Forall (fun r => exists a, r = Ok a) rs -> idle (jobs h) -> idle (jobs h').
Proof.
  revert h rs. induction records as [|record records IH]; intros h rs E Hok Hi; cbn [run_chunk] in E; [by injection E as <- <-|].
  destruct (execute_one _ _ _ _ _) as [r h1] eqn:E1. destruct (run_chunk _ _ _ _ h1) as [rs' h2] eqn:E2. injection E as <- <-.
  apply Forall_cons in Hok as [[a ->] Hok]. eapply IH; [exact E2|done|]. by eapply execute_one_idle in E1.
Qed.

Lemma reported_ok stop results report report' : rfold (report_result stop) results report = Ok report' -> Forall (fun r => exists a, r = Ok a) results.
Proof.
  revert report. induction results as [|r rs IH]; intros report E; [constructor|]. cbn [rfold] in E. bind_step E E1. constructor; [|by eapply IH].
  unfold report_result in E1. bind_step E1 E2. by eexists.
Qed.

Lemma chunks_idle worlds cancelled cs report : ensures (fun h => idle (jobs h)) (run_chunks config message worlds cancelled cs report) (fun _ h => idle (jobs h)).
Proof.
  revert report. induction cs as [|c cs IH]; intros report; cbn [run_chunks]; [by apply ensures_ret|]. intros h a h' Hi E.
  destruct (run_chunk _ _ _ _ h) as [results h1] eqn:E1. destruct (rfold _ results report) as [report1| |] eqn:E2; [|done..].
  pose proof (chunk_idle _ _ _ _ _ E1 (reported_ok _ _ _ _ E2) Hi) as Hi1. destruct (cancelled _); [by injection E as <- <-|by eapply IH].
Qed.

Lemma apply_idle op record : leaves op -> ensures (fun h => idle (jobs h)) (apply_and_save op record) (fun _ h => idle (jobs h)).
Proof.
  intros Hop. unfold apply_and_save. destruct (op record) as [x r] eqn:E. eapply ensures_bind; [apply ensures_pure|]. intros [].
  intros h a h' [-> Hi] E1. apply Hop in E as [_ Hr]. revert E1.
  apply (ensures_bind (fun h => idle (jobs h)) _ _ (fun _ h => idle (jobs h)) (fun _ h => idle (jobs h))); [|intros _; by apply ensures_ret|done].
  apply save_keeps_idle; [intros ?; apply idle_weaken|done].
Qed.

Lemma due_idle now acc record : ensures (fun h => idle (jobs h)) (due_step verify message now acc record) (fun _ h => idle (jobs h)).
Proof.
  destruct acc as [runnable report]. unfold due_step.
  assert (Hrun : forall op, leaves op -> ensures (fun h => idle (jobs h)) (record ← apply_and_save op record; mret (runnable ++ [record], report)) (fun _ h => idle (jobs h))).
  { intros op Hop. eapply ensures_bind; [by apply apply_idle|]. intros r. by apply ensures_ret. }
  destruct (jr_state record) as [|t|t|t|t].
  - by apply ensures_ret.
  - by intros h a h' _ E.
  - destruct (t <=? now); [apply Hrun, release_leaves|by apply ensures_ret].
  - destruct (verify _) as [coverage|e|]; [destruct (is_complete _); [by apply ensures_ret|apply Hrun, requeue_leaves]|apply Hrun, requeue_leaves|by intros h a h' _ E].
  - by apply ensures_ret.
Qed.

(** *** The end *)

Lemma removal_idle id root x root' : idle root -> remove_terminal id root = (x, root') -> idle root'.
Proof.
  intros Hi E. unfold remove_terminal in E. destruct (record ← store_load id root; _) as [[name entries]| |] eqn:Er; [|by injection E as <- <-..].
  injection E as <- <-. bind_step Er E1. bind_step Er E2. bind_step Er E3. bind_step Er E4. injection Er as <- <-.
  destruct root as [| | |m]; try done. injection E4 as <-. intros id' r Hl%load_iff Hne. eapply Hi; [|done]. apply load_iff.
  destruct Hl as (n & content & Hn & Hx & Hrest). exists n, content. split; [done|]. split; [|done]. by apply lookup_delete_Some in Hx as [_ ?].
Qed.

Lemma finish_idle now report : ensures (fun h => idle (jobs h)) (finish_pass config verify lock_held pid now report) (fun _ h => idle (jobs h)).
Proof.
  assert (Hweak : forall A B (P : Host -> Prop) (op : host_op A) (k : A -> host_op B), (forall h a h', P h -> op h = (Ok a, h') -> P h') -> (forall a, ensures P (k a) (fun _ => P)) ->
    ensures P (mbind k op) (fun _ => P)) by (intros A B P op k Ho Hk; apply (ensures_bind P op k (fun _ => P)); [exact Ho|exact Hk]).
  unfold finish_pass. apply Hweak; [intros h a h' Hi E; by injection E as _ <-|]. intros models. apply Hweak; [intros h a h' Hi E; by injection E as _ <-|]. intros all.
  apply Hweak.
  { destruct (origin_catalog_plan config) as [origin|]; [|by apply ensures_ret].
    apply Hweak; [|intros state; apply Hweak; [intros h a h' Hi E; by injection E as _ <-|intros keys; by apply ensures_ret]].
    intros h a h' Hi E. unfold on_catalog in E. destruct (refresh_origin_catalog _ _ _ _ _) as [x entries]. by injection E as _ <-. }
  intros published. apply Hweak; [|intros execution; by apply ensures_ret]. unfold run_retention. destruct (negb _); [by apply ensures_ret|].
  apply Hweak; [intros h a h' Hi E; by injection E as _ <-|]. intros plan. apply Hweak.
  { intros h a h' Hi E. unfold on_tree in E. destruct (execute_retention _ _ _ _ _ _) as [x t]. by injection E as _ <-. }
  intros execution. apply Hweak; [|intros u; by apply ensures_ret]. destruct (ex_dry_run execution); [by apply ensures_ret|].
  apply (ensures_fold (fun _ h => idle (jobs h))). intros u key _. unfold prune_state. destruct (List.find _ _) as [record|]; [|by apply ensures_ret].
  intros h a h' Hi E. unfold on_jobs in E. destruct (remove_terminal _ _) as [x root] eqn:Er. injection E as _ <-. by eapply removal_idle.
Qed.

(** C4: a pass that succeeds leaves nothing running. Whatever was on disk
    when it began, with records left running by a crash, whatever discovery,
    validation and the ingest return, and also when a shutdown stops it
    between two chunks: after a successful pass, no job that loads from the
    state directory is running, so no attempt is lost or counted twice. *)
Theorem pass_leaves_nothing_running now discoveries space worlds cancelled h report h' :
  run_once_at config verify message lock_held pid now discoveries space worlds cancelled h = (Ok report, h') ->
  forall id r, store_load id (jobs h') = Ok r -> is_running (jr_state r) = false.
Proof.
  intros E id r Hl. cut (idle (jobs h')); [intros Hi; by eapply Hi|]. revert E. unfold run_once_at.
  apply (ensures_bind (fun _ => True) _ _ (fun _ _ => True) (fun _ h => idle (jobs h))); [done| |done]. intros capacity.
  eapply (ensures_bind _ _ _ (fun _ _ => True)); [done|]. intros u.
  eapply ensures_bind; [apply gather_idles|]. intros [records report1].
  eapply ensures_bind; [apply (ensures_fold (fun _ h => idle (jobs h))); intros b x _; apply due_idle|]. intros [runnable report2].
  eapply (ensures_bind _ _ _ (fun _ h => idle (jobs h))); [intros h1 a h2 Hi E; by injection E as _ <-|]. intros cs.
  eapply ensures_bind; [apply chunks_idle|]. intros report3. apply finish_idle.
Qed.
End pass.

(** ** Examples *)

(** An encoding that knows the values of a table. *)
Section table.
Context {A : Type} `{EqDecision A} (l : list A).
Definition table_encode (x : A) : SchedulerResult (list byte) :=
  match list_find (eq x) l with Some (i, _) => Ok (repeat Byte.x78 i) | None => Err (Json "unknown") end.
Definition table_decode (bs : list byte) : SchedulerResult A := ok_or (l !! length bs) (Json "unknown").
Lemma table_roundtrip x bs : table_encode x = Ok bs -> table_decode bs = Ok x.
Proof.
  unfold table_encode, table_decode. destruct (list_find (eq x) l) as [[i y]|] eqn:E; [|done]. intros [= <-]. apply list_find_Some in E as (Hi & -> & _).
  by rewrite repeat_length, Hi.
Qed.
End table.

#[local] Existing Instances IngestProductPlan_eq_dec PersistedIngestProfile_eq_dec ExpectedValidTime_eq_dec JobPlan_eq_dec JobState_eq_dec JobRecord_eq_dec.
#[local] Instance OriginCatalogState_eq_dec : EqDecision OriginCatalogState.
Proof. solve_decision. Defined.

Definition table_jobs (l : list JobRecord) : JobJson := {| record_to_vec_pretty := table_encode l; record_from_slice := table_decode l |}.
Definition table_catalogs (l : list OriginCatalogState) : CatalogJson := {| catalog_to_vec_pretty := table_encode l; catalog_from_slice := table_decode l |}.
Definition table_owners (l : list OwnerMarker) : OwnerJson := {| owner_to_vec_pretty := table_encode l; owner_from_slice := table_decode l |}.
Lemma table_jobs_laws l : @JobJsonLaws (table_jobs l).
Proof. split. intros r bs. apply table_roundtrip. Qed.
Lemma table_catalogs_laws l : @CatalogJsonLaws (table_catalogs l).
Proof. split. intros r bs. apply table_roundtrip. Qed.

(** *** The catalog moves on *)

Definition all_present (plan : JobPlan) : SchedulerResult RunCoverage := Ok (full_coverage plan).
Definition hrrr_record (hour : Z) : JobRecord := finished_record (hrrr_plan hour).
Definition catalog_at (hours : list Z) (now : Z) : OriginCatalogState :=
  match (cs ← rmap hrrr_candidate hours; from_candidates sample_origin cs now) with Ok state => state | _ => catalog_empty sample_origin end.
Definition sample_catalogs : list OriginCatalogState := Eval vm_compute in [catalog_at [7] 1709193600; catalog_at [7; 8] 1709197200].
Definition sample_catalog_json : CatalogJson := table_catalogs sample_catalogs.
(** The catalog that publishes the run of 07z. *)
Definition sample_store : gmap string DirEntry := {[ ORIGIN_CATALOG_FILE := RegularFile [] ]}.
Definition sample_records : list JobRecord := Eval vm_compute in [hrrr_record 7; hrrr_record 8].

Definition sample_refresh : SchedulerResult OriginCatalogState * gmap string DirEntry :=
  @refresh_origin_catalog sample_catalog_json no_faults all_present sample_origin sample_records 1709197200 sample_store.
Definition active_run (i : nat) (state : OriginCatalogState) : option string := option_map pg_run_id (oc_lanes state !! i ≫= pl_active).

Lemma sample_refresh_moves : match sample_refresh with (Ok state, _) => active_run 0 state = Some "20240229_08z"%string | _ => False end.
Proof. vm_compute. reflexivity. Qed.
(** What the catalog on disk names before the refresh. *)
Lemma sample_store_names : match @load_or_empty sample_catalog_json sample_origin sample_store with
  | Ok current => match oc_lanes current !! 0%nat with
                  | Some p => match pl_active p with Some g => cycle_origin_unix (pg_cycle g) = Ok 1709190000 | None => False end
                  | None => False
                  end
  | _ => False
  end.
Proof. vm_compute. reflexivity. Qed.

Theorem refreshed_catalog_is_backed_witness : exists state entries', sample_refresh = (Ok state, entries') /\ active_run 0 state = Some "20240229_08z"%string
  /\ @load_or_empty sample_catalog_json sample_origin entries' = Ok state.
Proof.
  pose proof sample_refresh_moves as Hm. destruct sample_refresh as [[state| |] entries'] eqn:E; [|destruct Hm..]. exists state, entries'.
  split; [reflexivity|]. split; [exact Hm|]. unfold sample_refresh in E.
  exact (proj1 (@refreshed_catalog_is_backed sample_catalog_json (table_catalogs_laws _) no_faults all_present sample_origin sample_records 1709197200 sample_store _ _ E)).
Defined.

Theorem newest_lanes_never_go_back_witness : exists state entries' p' g' t', sample_refresh = (Ok state, entries')
  /\ oc_lanes state !! 0%nat = Some p' /\ pl_active p' = Some g' /\ cycle_origin_unix (pg_cycle g') = Ok t' /\ 1709190000 <= t'.
Proof.
  pose proof sample_refresh_moves as Hm. pose proof sample_store_names as Hn. destruct sample_refresh as [[state| |] entries'] eqn:E; [|destruct Hm..]. unfold sample_refresh in E.
  destruct (@load_or_empty sample_catalog_json sample_origin sample_store) as [current| |] eqn:Ec; [|destruct Hn..].
  destruct (oc_lanes current !! 0%nat) as [p|] eqn:Ep; [|destruct Hn]. destruct (pl_active p) as [g|] eqn:Eg; [|destruct Hn]. exists state, entries'.
  destruct (@newest_lanes_never_go_back sample_catalog_json (table_catalogs_laws _) no_faults all_present sample_origin sample_records 1709197200 sample_store current state entries' 0
    {| lane_id := "hrrr-hourly"; lane_model := Hrrr; selector := NewestAvailable; lane_profile := ConfiguredCapabilitySafe |} p g 1709190000) as (p' & g' & t' & H1 & H2 & H3 & H4);
    [exact Ec|exact E|reflexivity|reflexivity|exact Ep|exact Eg|exact Hn|].
  exists p', g', t'. split; [reflexivity|]. split; [exact H1|]. split; [exact H2|]. split; [exact H3|exact H4].
Defined.

(** *** Retention after the catalog has moved on *)

Definition kept_records : list JobRecord := Eval vm_compute in [hrrr_record 5; hrrr_record 7; hrrr_record 8].
Definition file_of (l : list JobRecord) (r : JobRecord) : string * DirEntry :=
  (of_bytes (bytes (record_id r) ++ bytes ".json"), match table_encode l r with Ok bs => RegularFile bs | _ => SpecialEntry end).
Definition run_of (l : list OwnerMarker) (r : JobRecord) : (string * string) * RunNode :=
  (record_dir r, RunDirectory {[ OWNER_FILE := match table_encode l (expected_owner r) with Ok bs => RegularFile bs | _ => SpecialEntry end ]}).
Definition sample_host : Host :=
  {| jobs := RootEntries (list_to_map (file_of kept_records <$> kept_records)); catalog := sample_store;
     tree := list_to_map (run_of (expected_owner <$> kept_records) <$> kept_records) |}.
Definition sample_end : SchedulerResult ExecutionReport * Host :=
  @finish_pass (table_jobs kept_records) by_key sample_catalog_json (table_owners (expected_owner <$> kept_records)) no_faults sample_config all_present (fun _ => false) 7 1709197200 empty_report sample_host.

Lemma sample_end_facts : match sample_end with
  | (Ok _, h') => tree h' !! run_dir Hrrr "20240229_05z" = None
      /\ match @load_or_empty sample_catalog_json sample_origin (catalog h') with
         | Ok state => match oc_lanes state !! 0%nat with
                       | Some p => match pl_active p with Some g => pg_model g = Hrrr /\ pg_run_id g = "20240229_08z"%string | None => False end
                       | None => False
                       end
         | _ => False
         end
  | _ => False
  end.
Proof. vm_compute. split; [reflexivity|]. split; reflexivity. Qed.

Theorem published_runs_survive_witness : exists report h', sample_end = (Ok report, h')
  /\ tree h' !! run_dir Hrrr "20240229_08z" = tree sample_host !! run_dir Hrrr "20240229_08z" /\ tree h' !! run_dir Hrrr "20240229_05z" = None.
Proof.
  pose proof sample_end_facts as Hf. destruct sample_end as [[report| |] h'] eqn:E; [|destruct Hf..]. destruct Hf as [H5 Hf]. exists report, h'. split; [reflexivity|].
  split; [|exact H5]. unfold sample_end in E. destruct (@load_or_empty sample_catalog_json sample_origin (catalog h')) as [state| |] eqn:El; [|destruct Hf..].
  destruct (oc_lanes state !! 0%nat) as [p|] eqn:Hp; [|destruct Hf]. destruct (pl_active p) as [g|] eqn:Hg; [|destruct Hf]. destruct Hf as [Hm Hi].
  rewrite <- Hi. rewrite <- Hm.
  apply (@published_runs_survive (table_jobs kept_records) by_key sample_catalog_json (table_catalogs_laws _) (table_owners (expected_owner <$> kept_records)) no_faults
    sample_config all_present (fun _ => false) 7 sample_origin 1709197200 empty_report sample_host _ h' state
    {| lane_id := "hrrr-hourly"; lane_model := Hrrr; selector := NewestAvailable; lane_profile := ConfiguredCapabilitySafe |} g eq_refl E El).
  exists p. split; [|left; exact Hg]. apply list_elem_of_lookup. exists 0%nat. apply lookup_zip_with_Some. eexists _, p. split; [reflexivity|]. by split.
Defined.

(** *** A job from its discovery to its success *)

Definition pass_plan : JobPlan :=
  match (profile ← profile_for sample_config Hrrr; build_with_profile_and_source Hrrr (hrrr_cycle 8) profile (Some SrcAws)) with
  | Ok plan => plan
  | _ => jr_plan running_record
  end.
Definition good_world : JobWorld :=
  {| jw_started := 1709197210; jw_finished := 1709197290; jw_outcome := Ok (full_coverage pass_plan);
     jw_space := {| sp_store := Ok (2 ^ 40); sp_cache := Ok (2 ^ 40); sp_used := Ok 10 |}; jw_cancelled := false |}.
Definition sample_retry : RetryPolicy := {| max_attempts := 5; initial_backoff_seconds := 60; max_backoff_seconds := 3600 |}.
Definition no_message (_ : SchedulerError) : string := "error".
(** The record when it is admitted, running and done. *)
Definition job_records : list JobRecord := Eval vm_compute in
  match job_record_new pass_plan 1709197200 with
  | Ok r0 => let r1 := (start 1709197210 sample_retry r0).2 in [r0; r1; (settle_record sample_config sample_retry good_world no_message r1).2]
  | _ => []
  end.
Definition first_record : JobRecord := Eval vm_compute in default running_record (job_records !! 0%nat).
Definition job_entries : gmap string DirEntry := list_to_map [file_of job_records first_record].
Definition job_host : Host := {| jobs := RootEntries job_entries; catalog := ∅; tree := ∅ |}.

Theorem jobs_end_settled_witness : exists m' record' result h', @execute_one (table_jobs job_records) no_faults sample_config no_message good_world first_record job_host = (Ok result, h')
  /\ jobs h' = RootEntries m' /\ result = record' /\ settled sample_retry good_world first_record record'.
Proof.
  destruct (@execute_one (table_jobs job_records) no_faults sample_config no_message good_world first_record job_host) as [[result| |] h'] eqn:E; [|vm_compute in E; discriminate E..].
  destruct (@jobs_end_settled (table_jobs job_records) (table_jobs_laws _) no_faults sample_config no_message sample_retry good_world first_record job_entries job_host (Ok result) h')
    as (m' & record' & H1 & _ & _ & H2 & H3).
  - vm_compute. reflexivity.
  - vm_compute. repeat split; discriminate.
  - apply (record_inv_new sample_retry pass_plan 1709197200); [vm_compute; repeat split; discriminate|vm_compute; reflexivity].
  - reflexivity.
  - apply load_iff. vm_compute. reflexivity.
  - exact E.
  - exists m', record', result, h'. split; [reflexivity|]. split; [exact H1|]. split; [exact H2|exact H3].
Defined.

Definition first_catalog : list OriginCatalogState := Eval vm_compute in [catalog_at [8] 1709197200].
Definition sample_pass : SchedulerResult ExecutionReport * Host :=
  @run_once_at (table_jobs job_records) by_key (table_catalogs first_catalog) (table_owners []) no_faults sample_config all_present no_message (fun _ => false) 7 1709197200
    [("hrrr"%string, Hrrr, inl {| dc_cycle := hrrr_cycle 8; dc_source := SrcAws |})] (jw_space good_world) (fun _ => good_world) (fun _ => false)
    {| jobs := NoRoot; catalog := ∅; tree := ∅ |}.

Lemma sample_pass_succeeds : match sample_pass with
  | (Ok report, h') => succeeded report = ["hrrr-20240229-08z"%string]
      /\ match @store_load (table_jobs job_records) "hrrr-20240229-08z" (jobs h') with Ok r => attempts r = 1 | _ => False end
  | _ => False
  end.
Proof. vm_compute. split; reflexivity. Qed.

Theorem pass_leaves_nothing_running_witness : exists report h' r, sample_pass = (Ok report, h') /\ succeeded report = ["hrrr-20240229-08z"%string]
  /\ @store_load (table_jobs job_records) "hrrr-20240229-08z" (jobs h') = Ok r /\ is_running (jr_state r) = false.
Proof.
  pose proof sample_pass_succeeds as Hs. destruct sample_pass as [[report| |] h'] eqn:E; [|destruct Hs..]. destruct Hs as [Hs Hl]. unfold sample_pass in E.
  destruct (@store_load (table_jobs job_records) "hrrr-20240229-08z" (jobs h')) as [r| |] eqn:El; [|destruct Hl..].
  exists report, h', r. split; [reflexivity|]. split; [exact Hs|]. split; [exact El|].
  exact (@pass_leaves_nothing_running (table_jobs job_records) (table_jobs_laws _) by_key by_key_laws (table_catalogs first_catalog) (table_owners []) no_faults sample_config all_present
    no_message (fun _ => false) 7 1709197200 _ _ _ _ _ _ _ E _ _ El).
Defined.
